(* ===== verification/_CoqProject ===== *)
-Q . S2P
Prelude.v
Monad.v
State.v
Strings.v
Dll.v
Sched.v
Wakeup.v
Spinlock.v
Bio.v
BioSpec.v
BioProps.v
Layout.v
Log.v
Crash.v
LogSpec.v
LogCrash.v
Txn.v
LogProps.v
Inode.v
Console.v
Content.v
FsSpec.v
InodeSpec.v
ReadSpec.v
WriteSpec.v
ContentSpec.v
DirSpec.v
Mkfs.v
FsDemo.v
FsProps.v
DirProps.v
MkfsProps.v
Kalloc.v
Pipe.v
PipeProps.v
File.v
Vm.v
VmSpec.v
VmProps.v
VmFree.v
UserMem.v
Process.v
ProcProps.v
ForkProps.v
Sysarg.v
Exec.v
Sysfile.v
Kbd.v
ConsoleIntr.v
Syscall.v
SysargProps.v
ShParse.v
ShParseSpec.v
ShParseProps.v
ShPrint.v
ShRun.v
Ulib.v
ShJobs.v
ShJobsProps.v
Grep.v
GrepProps.v
Ide.v
IdeProps.v
Umalloc.v
UmallocProps.v
Mp.v
Bootmain.v
Segments.v
Irq.v
IrqProps.v
Utils.v
KbdProps.v
Asm.v
Scheduler.v
Boot.v
Startothers.v
IdeInit.v
UserProgs.v
