(* ===== verification/Prelude.v ===== *)
(** * A verification of xv6 with process status and a job-control shell

    The program is the xv6 teaching kernel for the x86 with its user programs,
    extended by the [pstat] system call, an exit status and a shell with jobs.
    This development translates its C code into functions of Rocq and proves
    what the parts are for.  File and function names below are those under
    [src/]; a definition has the name of the function it translates unless that
    name is taken ([u_] for the user library, [mk_] for [mkfs.c]).

    ** How code is modelled

    Integers are [Z] with the conversions of C written out ([u8], [u16], [u32],
    [s32]).  Code that changes state is a function in the monad of [Monad.v]:
    from a state it returns ([Ret]), panics ([Panic]), does what C leaves
    undefined ([Undef]), gives up the CPU in [swtch] ([Switch], with the rest of
    the function as a continuation on whatever state comes back), or reaches the
    end of a loop's fuel ([NoFuel]).  [kstate] of [State.v] is the kernel's
    state: the tables of buffers, inodes, files and processes, physical memory
    by pages, the disk with the trace of its writes, and the console.  Pointers
    into tables are indices, pointers into memory are addresses with 0 for null.

    ** The parts

    - [Prelude.v]: machine integers, little-endian encodings, slices of byte
      arrays.  [Monad.v]: outcomes, loops, total correctness [wp] and [wpp].
      [State.v]: the data structures of the headers.  [Strings.v]: [string.c].
      [Dll.v]: linked rings.
    - Scheduling and locks: [Sched.v] ([sched], [sleep], [wakeup], [kill] of
      [proc.c]) uses locks through an interface; [Spinlock.v] models
      [spinlock.c] at the grain of single memory accesses on several CPUs and
      shows that it implements the interface.  [Wakeup.v] runs the code of
      [sleep] and [wakeup] on several CPUs, interleaved at every lock
      operation.  [Scheduler.v] has the rounds of [scheduler].
    - Disk: [Bio.v], [BioSpec.v], [BioProps.v] are [bio.c] over the memory disk
      ([memide.c]); [Ide.v], [IdeProps.v] are [ide.c] over a model of the
      controller, shown to behave as the memory disk does; [IdeInit.v] has
      [ideinit] of both.
    - Log: [Log.v] is [log.c]; [Crash.v], [LogSpec.v], [LogCrash.v], [Txn.v] and
      [LogProps.v] are what a crash leaves and what recovery makes of it.
    - File system: [Layout.v], [Inode.v], [Content.v] are [fs.c] and [fs.h];
      [FsSpec.v], [InodeSpec.v], [ReadSpec.v], [WriteSpec.v], [ContentSpec.v],
      [DirSpec.v] give the meaning of a disk as files and directories;
      [FsProps.v] and [DirProps.v] hold the theorems.  [Mkfs.v], [FsDemo.v] and
      [MkfsProps.v] are [mkfs.c] and a kernel booted on an image it builds.
    - Memory: [Kalloc.v] is [kalloc.c]; [Vm.v] is [vm.c], with [VmSpec.v],
      [VmProps.v], [VmFree.v] and [UserMem.v] on page tables as maps;
      [Segments.v] has the descriptors of [mmu.h], [seginit], [tvinit] and the
      task state.
    - Pipes and files: [Pipe.v] ([pipe.c]) with [PipeProps.v] on readers and
      writers in any interleaving of their sleeps, [File.v] ([file.c]).
    - Processes and system calls: [Process.v] ([proc.c]) with [ProcProps.v] and
      [ForkProps.v]; [Sysarg.v] and [Syscall.v] ([syscall.c], [sysproc.c],
      [trap.c]) with [SysargProps.v]; [Exec.v] ([exec.c]); [Sysfile.v]
      ([sysfile.c]).
    - Devices: [Console.v] and [ConsoleIntr.v] ([console.c]), [Kbd.v] and
      [KbdProps.v] ([kbd.c]), [Irq.v] and [IrqProps.v] ([picirq.c], [ioapic.c],
      [lapic.c], [timer.c], [uart.c]), [Mp.v] ([mp.c]), [Bootmain.v]
      ([bootmain.c]).
    - Assembly: [Asm.v] has the instructions of [swtch.S], [trapasm.S],
      [vectors.S], [usys.S], [initcode.S] and [exit.S] on a processor with
      registers and a stack; [Boot.v] those of [bootasm.S], [entry.S] and
      [entryother.S] on one with modes, segments and paging, and [entrypgdir];
      [Startothers.v] is [startothers] of [main.c], which combines the
      allocator, the local APIC and [entryother.S].
    - User space: [ShParse.v], [ShParseSpec.v], [ShParseProps.v], [ShPrint.v],
      [ShRun.v], [ShJobs.v], [ShJobsProps.v] are [sh.c]; [Ulib.v] is [ulib.c] and
      [printf.c]; [Umalloc.v] and [UmallocProps.v] are [umalloc.c]; [Grep.v] and
      [GrepProps.v] are [grep.c] and [wc.c]; [Utils.v] are the file utilities and
      [UserProgs.v] [init.c] and the programs that demonstrate processes.

    ** What the theorems show

    A transaction of the log, and a [writei] in one, is all or nothing across a
    crash after any sector write, recovery included.  The buffer cache and the
    IDE driver cannot be told from a disk.  [readi], [writei], [dirlookup],
    [dirlink], [balloc], [bfree], [iget] and [iupdate] do on the contents of
    files what they are for, in all cases; the bitmap of [mkfs] is what
    [balloc] takes it for.  Locks exclude and implement the interface of the
    rest, no wakeup is lost, a pipe is a queue for all its readers and writers.
    The keyboard's flags follow the keys.
    No page and no block of [malloc] is handed out twice; copying an address
    space copies the contents and freeing the copy gives every page back; what
    [copyout] stores is what the process reads.  [fork] makes the child it
    should, and the status given to [exit] arrives at [wait].  Fetching system
    call arguments is safe whatever the user passes, and user code enters the
    kernel by the system call gate only.  Interrupts that are enabled, and no
    others, arrive at the entry of their vector.  The boot loader loads the
    kernel, the boot sector, the loader and [entry.S] together bring the first
    processor to [main], and [startothers] brings the others to [mpenter], each
    on a stack of its own.  [swtch] returns on the stack it saved; a trap gives
    C the frame of the interrupted registers and restores them; a new process
    arrives in user code with the registers [fork] gave it; the stubs reach the
    handlers of their names.  A runnable process runs in every round of the
    scheduler.  [init] starts a shell again only when the last one has exited
    and takes the orphans meanwhile.  The shell's parser always ends and reads
    back what it prints; the descriptors a program starts with are known.  The
    matcher of [grep] decides the language of the pattern.

    Some theorems show faults of the code: the first process leaves with a
    pointer as its status when it cannot start [init], [pstat] with a structure at the end
    of memory panics the kernel, [mpinit] never ends on an entry of an unknown
    type and overruns [cpus] with a ninth processor, the log is free to
    [balloc] on an image of [mkfs], programs inherit a pipe of every earlier
    job, and a shell runs out of descriptors after ten jobs.

    ** Bounds and fuel

    Loops whose end is a matter of data have a fuel computed from the state,
    and the theorems show totality, so the fuel is enough: the length of a list
    or a table, the number of blocks of a transfer, twice the number of headers
    for [malloc].  The wait for the keyboard controller in [bootasm.S] has the
    number of its busy answers as fuel, [idewait] takes its fuel as an argument
    and ends once the disk is ready.  Loops that wait for another process ([while(cond) sleep])
    have the parameter [WakeFuel], the number of wakeups one call goes through;
    the theorems hold for every value of it.  [mpinit] and [cmostime] take
    their fuel as an argument, because the loops of the source need not end.
    The table sizes [NBUF], [NPROC], [NFILE], [NINODE] and [NOFILE] are those of
    [param.h].

    ** Parameters

    [KernelImage] is what the linker and the assembly files contribute, the
    entry points of [vectors.S] are an argument of [tvinit], the labels and
    addresses the assembler and linker choose are arguments in [Boot.v] and
    [Startothers.v], what a process does in its turn is an argument of
    [scheduler_round], [grow] is what
    [sbrk] can do for [malloc], and what devices answer is an argument of the
    routines that read them.  Device models follow the documented behaviour of
    the controller, the interrupt controllers, the timer and the serial port;
    the processors of [Asm.v], [Boot.v] and [Segments.v] that of the x86.

    ** Not modelled

    - [main], [mpenter] and [mpmain] of [main.c]: they call the initialisation
      routines, each of which is modelled on the state it works on, in order.
    - [panic] of [console.c] is the outcome [Panic]; what it prints is left out.
    - The script [sign.pl] and the instructions that follow a call of
      [bootasm.S] or [entryother.S] that does not return.
    - [main] of [grep.c], which only opens files.
    - [usertests.c], a driver of tests, and [backjob.c], an endless loop.
    - Calls to devices inside [trap]: [ideintr] and [lapiceoi], which are
      modelled with their devices; the [sti] of [scheduler], the save of
      [intena] in [sched], the polling of [idewait] in [idestart].
    - The bytes of kernel stacks: that [allocproc] lays out the stack [Asm.v]
      starts a process on is a hypothesis there.
    - The processes of the kernel interleave at context switches; several CPUs
      are modelled for the locks, for [sleep] and [wakeup], and for the start
      of the processors only, and interrupts arrive between the steps of the
      code, not within a critical section. *)

From Stdlib Require Export ZArith Lia.
From stdpp Require Export functions strings gmap prelude.
Open Scope Z_scope.
#[export] Set Warnings "-clear-no-such-hyp".

(** ** Machine integers

    C's [uint], [ushort], [uchar] and the signed [int] and [short] are
    integers in [Z]; the functions below are the conversions the source
    performs when a value is stored in a variable of that type. *)

Definition u8 (x : Z) : Z := x mod 2 ^ 8.
Definition u16 (x : Z) : Z := x mod 2 ^ 16.
Definition u32 (x : Z) : Z := x mod 2 ^ 32.
Definition s8 (x : Z) : Z := let y := u8 x in if y <? 2 ^ 7 then y else y - 2 ^ 8.
Definition s16 (x : Z) : Z := let y := u16 x in if y <? 2 ^ 15 then y else y - 2 ^ 16.
Definition s32 (x : Z) : Z := let y := u32 x in if y <? 2 ^ 31 then y else y - 2 ^ 32.

Lemma u8_range x : 0 <= u8 x < 256.
Proof. unfold u8. apply Z.mod_pos_bound. lia. Qed.
Lemma u16_range x : 0 <= u16 x < 65536.
Proof. unfold u16. apply Z.mod_pos_bound. lia. Qed.
Lemma u32_range x : 0 <= u32 x < 4294967296.
Proof. unfold u32. apply Z.mod_pos_bound. lia. Qed.

Lemma u8_id x : 0 <= x < 256 -> u8 x = x.
Proof. intros. unfold u8. apply Z.mod_small. lia. Qed.
Lemma u32_id x : 0 <= x < 4294967296 -> u32 x = x.
Proof. intros. unfold u32. apply Z.mod_small. lia. Qed.

Lemma s32_id x : -2147483648 <= x < 2147483648 -> s32 x = x.
Proof.
  intros H. unfold s32, u32. change (2 ^ 31) with 2147483648. change (2 ^ 32) with 4294967296.
  destruct (Z.ltb_spec (x mod 4294967296) 2147483648) as [Hlt|Hge];
    destruct (decide (0 <= x)).
  - apply Z.mod_small; lia.
  - rewrite <- (Z.mod_unique_pos x 4294967296 (-1) (x + 4294967296)) in *; lia.
  - rewrite Z.mod_small in * by lia. lia.
  - rewrite <- (Z.mod_unique_pos x 4294967296 (-1) (x + 4294967296)) in *; lia.
Qed.
Lemma s32_u32 x : s32 (u32 x) = s32 x.
Proof. unfold s32, u32. by rewrite Z.mod_mod by lia. Qed.
Lemma s32_range x : -2147483648 <= s32 x < 2147483648.
Proof.
  unfold s32. pose proof (u32_range x). change (2 ^ 31) with 2147483648.
  change (2 ^ 32) with 4294967296. destruct (Z.ltb_spec (u32 x) 2147483648); lia.
Qed.

Lemma s16_u16 x : -32768 <= x < 32768 -> s16 (u16 x) = x.
Proof.
  intros H. unfold s16, u16. rewrite Z.mod_mod by lia.
  change (2 ^ 15) with 32768. change (2 ^ 16) with 65536.
  destruct (Z.ltb_spec (x mod 65536) 32768) as [Hlt|Hge];
    destruct (decide (0 <= x)).
  - apply Z.mod_small; lia.
  - rewrite <- (Z.mod_unique_pos x 65536 (-1) (x + 65536)) in *; lia.
  - rewrite Z.mod_small in * by lia. lia.
  - rewrite <- (Z.mod_unique_pos x 65536 (-1) (x + 65536)) in *; lia.
Qed.

(** ** Little-endian encodings

    On-disk structures are read and written by casting a byte buffer to a
    C structure on a little-endian machine. *)

Fixpoint le_enc (n : nat) (x : Z) : list Z :=
  match n with
  | O => []
  | S n' => u8 x :: le_enc n' (x / 256)
  end.

Fixpoint le_dec (l : list Z) : Z :=
  match l with
  | [] => 0
  | b :: l' => b + 256 * le_dec l'
  end.

Lemma length_le_enc n x : length (le_enc n x) = n.
Proof. revert x. induction n as [|n IH]; intros x; simpl; [done|]. by rewrite IH. Qed.

Lemma le_enc_bytes n x : Forall (fun b => 0 <= b < 256) (le_enc n x).
Proof.
  revert x. induction n as [|n IH]; intros x; simpl; constructor; auto.
  apply u8_range.
Qed.

Lemma le_dec_enc n x : le_dec (le_enc n x) = x mod 2 ^ (8 * Z.of_nat n).
Proof.
  revert x. induction n as [|n IH]; intros x.
  - by rewrite Z.mod_1_r.
  - cbn [le_enc le_dec]. rewrite IH. unfold u8.
    replace (8 * Z.of_nat (S n)) with (8 + 8 * Z.of_nat n) by lia.
    rewrite Z.pow_add_r by lia. change (2 ^ 8) with 256.
    rewrite Z.rem_mul_r by lia. reflexivity.
Qed.

Lemma le_dec_enc_id n x :
  0 <= x < 2 ^ (8 * Z.of_nat n) -> le_dec (le_enc n x) = x.
Proof. intros. rewrite le_dec_enc. by apply Z.mod_small. Qed.

(** ** Splicing a byte string into another one

    [splice k new l] is [memmove(l + k, new, length new)] on the byte list
    [l], inside its bounds when [k + length new <= length l]; a file grows
    when a write goes past its end. *)

Definition splice {A} (k : nat) (new l : list A) : list A :=
  take k l ++ new ++ drop (k + length new) l.

Definition slice {A} (k n : nat) (l : list A) : list A := take n (drop k l).

Section Splice.
Context {A : Type}.
Implicit Types (l new : list A) (k j m n : nat).

Lemma length_splice k new l :
  (k + length new <= length l)%nat -> length (splice k new l) = length l.
Proof.
  intros. unfold splice. rewrite !length_app, length_take, length_drop. lia.
Qed.

Lemma length_splice_max k new l :
  (k <= length l)%nat -> length (splice k new l) = Nat.max (length l) (k + length new).
Proof.
  intros. unfold splice. rewrite !length_app, length_take, length_drop. lia.
Qed.

Lemma lookup_splice_old k new l i :
  (k + length new <= length l)%nat ->
  (i < k \/ k + length new <= i)%nat -> splice k new l !! i = l !! i.
Proof.
  intros Hl Hi. unfold splice. destruct (decide (i < k)%nat).
  - rewrite lookup_app_l by (rewrite length_take; lia).
    by rewrite lookup_take_lt.
  - rewrite lookup_app_r by (rewrite length_take; lia).
    rewrite lookup_app_r by (rewrite length_take; lia).
    rewrite lookup_drop. f_equal. rewrite length_take. lia.
Qed.

Lemma lookup_splice_new k new l i :
  (k + length new <= length l)%nat ->
  (k <= i < k + length new)%nat -> splice k new l !! i = new !! (i - k)%nat.
Proof.
  intros Hl Hi. unfold splice.
  rewrite lookup_app_r by (rewrite length_take; lia).
  rewrite lookup_app_l by (rewrite length_take; lia).
  f_equal. rewrite length_take. lia.
Qed.

Lemma lookup_splice k new l i :
  (k <= length l)%nat -> splice k new l !! i =
    if decide (k <= i < k + length new)%nat then new !! (i - k)%nat else l !! i.
Proof.
  intros Hl. unfold splice. destruct (decide (i < k)%nat).
  - rewrite decide_False, lookup_app_l by (rewrite ?length_take; lia). by rewrite lookup_take_lt.
  - rewrite lookup_app_r, length_take, Nat.min_l by (rewrite ?length_take; lia). case_decide.
    + by rewrite lookup_app_l by lia.
    + rewrite lookup_app_r, lookup_drop by lia. f_equal. lia.
Qed.

Lemma lookup_slice k n l i :
  (i < n)%nat -> slice k n l !! i = l !! (k + i)%nat.
Proof. intros. unfold slice. by rewrite lookup_take_lt, lookup_drop. Qed.

Lemma length_slice k n l :
  (k + n <= length l)%nat -> length (slice k n l) = n.
Proof. intros. unfold slice. rewrite length_take, length_drop. lia. Qed.

Lemma slice_splice k new l :
  (k <= length l)%nat -> slice k (length new) (splice k new l) = new.
Proof.
  intros. unfold slice, splice.
  rewrite drop_app_ge by (rewrite length_take; lia).
  rewrite length_take, Nat.min_l, Nat.sub_diag by lia.
  by rewrite drop_0, take_app_length.
Qed.

Lemma slice_splice_same k new l :
  (k + length new <= length l)%nat -> slice k (length new) (splice k new l) = new.
Proof. intros. apply slice_splice. lia. Qed.

Lemma slice_splice_disjoint k new l j n :
  (k + length new <= length l)%nat ->
  (j + n <= k \/ k + length new <= j)%nat ->
  slice j n (splice k new l) = slice j n l.
Proof.
  intros Hl Hd. apply list_eq. intros i.
  destruct (decide (i < n)%nat) as [Hi|Hi].
  - rewrite !lookup_slice by done. apply lookup_splice_old; lia.
  - unfold slice. rewrite !lookup_take_ge by lia. done.
Qed.

Lemma slice_splice_other k new l j n :
  (k <= length l)%nat -> (j + n <= k \/ k + length new <= j)%nat ->
  slice j n (splice k new l) = slice j n l.
Proof.
  intros Hl Hd. apply list_eq. intros i. destruct (decide (i < n)%nat) as [Hi|Hi].
  - rewrite !lookup_slice, lookup_splice by done. rewrite decide_False by lia. done.
  - unfold slice. rewrite !lookup_take_ge by lia. done.
Qed.

Lemma slice_all l : slice 0 (length l) l = l.
Proof. unfold slice. by rewrite drop_0, firstn_all. Qed.

Lemma splice_all new l : length new = length l -> splice 0 new l = new.
Proof.
  intros H. unfold splice. rewrite take_0, Nat.add_0_l, H, drop_all.
  by rewrite app_nil_r.
Qed.

Lemma Forall_splice (P : A -> Prop) k new l :
  Forall P new -> Forall P l -> Forall P (splice k new l).
Proof.
  intros. unfold splice.
  rewrite !Forall_app. auto using Forall_take, Forall_drop.
Qed.
End Splice.

(** Fixed-width fields of a byte buffer: [rd w k l] reads the [w]-byte
    unsigned integer at offset [k], [wr w k x l] stores one. *)

Definition rd (w k : nat) (l : list Z) : Z := le_dec (slice k w l).
Definition wr (w k : nat) (x : Z) (l : list Z) : list Z := splice k (le_enc w x) l.

Lemma length_wr w k x l : (k + w <= length l)%nat -> length (wr w k x l) = length l.
Proof. intros. unfold wr. apply length_splice. by rewrite length_le_enc. Qed.

Lemma rd_wr_same w k x l :
  (k + w <= length l)%nat -> rd w k (wr w k x l) = x mod 2 ^ (8 * Z.of_nat w).
Proof.
  intros. unfold rd, wr. pose proof (length_le_enc w x) as He.
  rewrite <- He at 1. rewrite slice_splice_same by lia. apply le_dec_enc.
Qed.

Lemma rd_wr_other w k w' k' x l :
  (k + w <= length l)%nat -> (k' + w' <= k \/ k + w <= k')%nat ->
  rd w' k' (wr w k x l) = rd w' k' l.
Proof.
  intros. unfold rd, wr. rewrite slice_splice_disjoint; rewrite ?length_le_enc; auto.
Qed.

(** Integer arrays inside a byte buffer: the 32-bit words starting at [k]. *)

Definition rd_words (k n : nat) (l : list Z) : list Z :=
  map (fun i => rd 4 (k + 4 * i) l) (seq 0 n).

Lemma length_rd_words k n l : length (rd_words k n l) = n.
Proof. unfold rd_words. by rewrite length_map, length_seq. Qed.

Lemma lookup_rd_words k n l i :
  (i < n)%nat -> rd_words k n l !! i = Some (rd 4 (k + 4 * i) l).
Proof.
  intros. unfold rd_words. change (@map) with (@fmap list _). 
  rewrite list_lookup_fmap, lookup_seq_lt by done. done.
Qed.

(** ** Updating every entry of a table

    [for(p = table; p < table + n; p++) f(p)] with an [f] that only updates
    the entry it is given is a map over the table. *)

Definition alter_all {A} (f : A -> A) (ix : list nat) (l : list A) : list A :=
  foldl (fun l i => alter f i l) l ix.

Lemma lookup_alter_all {A} (f : A -> A) k n (l : list A) j :
  alter_all f (seq k n) l !! j
  = if decide (k <= j < k + n)%nat then f <$> l !! j else l !! j.
Proof.
  revert k l. induction n as [|n IH]; intros k l; simpl.
  - rewrite decide_False by lia. done.
  - rewrite IH. destruct (decide (j = k)) as [->|Hne].
    + rewrite decide_False, decide_True by lia. by rewrite list_lookup_alter_eq.
    + rewrite list_lookup_alter_ne by lia.
      destruct (decide (S k <= j < S k + n)%nat), (decide (k <= j < k + S n)%nat);
        done || lia.
Qed.

Lemma alter_all_fmap {A} (f : A -> A) n (l : list A) :
  (length l <= n)%nat -> alter_all f (seq 0 n) l = f <$> l.
Proof.
  intros Hl. apply list_eq. intros j. rewrite lookup_alter_all, list_lookup_fmap.
  destruct (decide (0 <= j < 0 + n)%nat); [done|].
  rewrite lookup_ge_None_2 by lia. done.
Qed.

Lemma alter_insert_total {A} `{!Inhabited A} (f : A -> A) (l : list A) i :
  (i < length l)%nat -> alter f i l = <[i := f (l !!! i)]> l.
Proof.
  intros Hi. apply list_eq. intros j. destruct (decide (i = j)) as [<-|Hne].
  - rewrite list_lookup_alter_eq, list_lookup_insert_eq by done. by rewrite list_lookup_lookup_total_lt.
  - by rewrite list_lookup_alter_ne, list_lookup_insert_ne by done.
Qed.

Lemma lookup_total_alter {A} `{!Inhabited A} (f : A -> A) (l : list A) i j :
  (i < length l)%nat ->
  alter f i l !!! j = if decide (i = j) then f (l !!! i) else l !!! j.
Proof.
  intros Hi. rewrite !list_lookup_total_alt. destruct (decide (i = j)) as [->|Hne].
  - rewrite list_lookup_alter_eq. destruct (lookup_lt_is_Some_2 _ _ Hi) as [x ->]. done.
  - by rewrite list_lookup_alter_ne.
Qed.

(** ** Filters that agree on the elements *)

Lemma list_filter_ext_in {A} (P Q : A -> Prop) `{!forall x, Decision (P x), !forall x, Decision (Q x)}
    (l : list A) :
  (forall x, x ∈ l -> P x <-> Q x) -> filter P l = filter Q l.
Proof.
  induction l as [|x l IH]; intros HPQ; [done|].
  assert (filter P l = filter Q l) as E by (apply IH; intros y Hy; apply HPQ; by right).
  rewrite !filter_cons. pose proof (HPQ x ltac:(by left)).
  destruct (decide (P x)), (decide (Q x)); rewrite ?E; done || tauto.
Qed.

Lemma filter_ne_id {A} `{EqDecision A} (x : A) (l : list A) :
  x ∉ l -> filter (fun y => y ≠ x) l = l.
Proof.
  induction l as [|y l IH]; intros Hn; [done|].
  rewrite filter_cons, decide_True by set_solver. by rewrite IH by set_solver.
Qed.

Lemma filter_none {A} (P : A -> Prop) `{!forall x, Decision (P x)} (l : list A) :
  (forall x, x ∈ l -> ~ P x) -> filter P l = [].
Proof.
  induction l as [|x l IH]; intros HP; [done|].
  rewrite filter_cons_False by (apply HP; by left). apply IH. intros y Hy. apply HP. by right.
Qed.

(** ** Invariants of step relations *)

Lemma rtc_inv {A} (R : relation A) (P : A -> Prop) x y :
  (forall a b, P a -> R a b -> P b) -> P x -> rtc R x y -> P y.
Proof. intros Hs Hx Hr. revert Hx. induction Hr; eauto. Qed.
