(* ===== verification/Monad.v ===== *)
(** * The effect of kernel code: state, panics, undefined behaviour and
    context switches

    Kernel code is a function from the kernel state to an [outcome].  A
    function returns a value ([Ret]), calls [panic] ([Panic]), performs a
    memory access the C language gives no meaning to ([Undef]), or gives up
    the CPU in [swtch] ([Switch]): the state it leaves behind and the
    continuation that runs when the scheduler resumes it, on whatever state
    the other processes have produced meanwhile.  [NoFuel] marks the end of
    the fuel of a loop; every fuel in the development comes with a lemma that
    it is never reached. *)

From S2P Require Import Prelude.

Inductive outcome (S A : Type) : Type :=
| Ret (a : A) (s : S)
| Panic (msg : string) (s : S)
| Undef (s : S)
| NoFuel (s : S)
| Switch (s : S) (k : S -> outcome S A).

Arguments Ret {S A} a s.
Arguments Panic {S A} msg s.
Arguments Undef {S A} s.
Arguments NoFuel {S A} s.
Arguments Switch {S A} s k.

Definition M (S A : Type) : Type := S -> outcome S A.

Section Monad.
Context {S : Type}.

Fixpoint obind {A B} (r : outcome S A) (f : A -> S -> outcome S B) : outcome S B :=
  match r with
  | Ret a s => f a s
  | Panic m s => Panic m s
  | Undef s => Undef s
  | NoFuel s => NoFuel s
  | Switch s k => Switch s (fun s' => obind (k s') f)
  end.

#[global] Instance M_ret : MRet (M S) := fun A a s => Ret a s.
#[global] Instance M_bind : MBind (M S) := fun A B f m s => obind (m s) f.

Definition gets {A} (f : S -> A) : M S A := fun s => Ret (f s) s.
Definition modify (f : S -> S) : M S unit := fun s => Ret tt (f s).
Definition panic {A} (msg : string) : M S A := fun s => Panic msg s.
Definition undef {A} : M S A := fun s => Undef s.
Definition when (b : bool) (m : M S unit) : M S unit := if b then m else mret tt.

(** [while]-style loops: [body] maps the loop variables to [inl] of their
    next value or to [inr] of the result with which the loop is left. *)
Fixpoint loop {I R} (fuel : nat) (body : I -> M S (I + R)) (i : I) : M S R :=
  match fuel with
  | O => fun s => NoFuel s
  | Datatypes.S fuel' =>
      r ← body i;
      match r with
      | inl i' => loop fuel' body i'
      | inr x => mret x
      end
  end.

(** [for] loops over a table: the body runs on each index in turn, and
    [Some r] leaves the loop. *)
Fixpoint scan {I R} (l : list I) (body : I -> M S (option R)) : M S (option R) :=
  match l with
  | [] => mret None
  | i :: l' =>
      r ← body i;
      match r with
      | Some x => mret (Some x)
      | None => scan l' body
      end
  end.

(** [for] loops that run to the end. *)
Fixpoint for_each {I} (l : list I) (body : I -> M S unit) : M S unit :=
  match l with
  | [] => mret tt
  | i :: l' => body i;; for_each l' body
  end.

Lemma bind_Ret {A B} (m : M S A) (f : A -> M S B) s a s' :
  m s = Ret a s' -> (m ≫= f) s = f a s'.
Proof. intros H. unfold mbind, M_bind. by rewrite H. Qed.

Lemma bind_Panic {A B} (m : M S A) (f : A -> M S B) s e s' :
  m s = Panic e s' -> (m ≫= f) s = Panic e s'.
Proof. intros H. unfold mbind, M_bind. by rewrite H. Qed.

Lemma bind_Undef {A B} (m : M S A) (f : A -> M S B) s s' :
  m s = Undef s' -> (m ≫= f) s = Undef s'.
Proof. intros H. unfold mbind, M_bind. by rewrite H. Qed.

Lemma bind_NoFuel {A B} (m : M S A) (f : A -> M S B) s s' :
  m s = NoFuel s' -> (m ≫= f) s = NoFuel s'.
Proof. intros H. unfold mbind, M_bind. by rewrite H. Qed.

Lemma bind_inv_Ret {A B} (m : M S A) (f : A -> M S B) s b s' :
  (m ≫= f) s = Ret b s' -> exists a s1, m s = Ret a s1 /\ f a s1 = Ret b s'.
Proof.
  unfold mbind, M_bind. destruct (m s) as [a s1| | | |]; simpl; try discriminate.
  eauto.
Qed.

End Monad.

Arguments gets {S A} f _ /.
Arguments modify {S} f _ /.
Arguments panic {S A} msg _ /.
Arguments undef {S A} _ /.

(** ** Bounded sleeping

    [while(cond) sleep(chan, lk)] tests its condition again after every
    wakeup, any number of times.  An outcome is a finite tree, so the number
    of wakeups one such loop goes through is bounded by a parameter; nothing
    else depends on it, and the theorems hold for every value of it. *)

Class WakeFuel := wake_fuel : nat.

(** ** Symbolic execution

    [kstep] runs the first statement of the goal when it is a read or an
    update of the state; [kstep_by tac] runs it with the equation proved by
    [tac]. *)

Ltac kstep := erewrite bind_Ret by reflexivity; cbv beta.
Ltac kstep_by tac := erewrite bind_Ret by tac; cbv beta.

(** ** Total correctness

    [wp m Q s]: run on [s], [m] returns normally, without panicking, being
    switched out or running out of fuel, and its result and final state
    satisfy [Q]. *)

Definition wp {S A} (m : M S A) (Q : A -> S -> Prop) (s : S) : Prop :=
  exists a s', m s = Ret a s' /\ Q a s'.

Section WP.
Context {S : Type}.
Implicit Types (s : S).

Lemma wp_bind {A B} (m : M S A) (f : A -> M S B) Q s :
  wp m (fun a s' => wp (f a) Q s') s -> wp (m ≫= f) Q s.
Proof.
  intros (a & s1 & H1 & b & s2 & H2 & HQ). exists b, s2. split; [|done].
  by erewrite bind_Ret.
Qed.

Lemma wp_ret {A} (a : A) (Q : A -> S -> Prop) s : Q a s -> wp (mret a) Q s.
Proof. intros. by exists a, s. Qed.

Lemma wp_gets {A} (f : S -> A) (Q : A -> S -> Prop) s : Q (f s) s -> wp (gets f) Q s.
Proof. intros. by exists (f s), s. Qed.

Lemma wp_modify (f : S -> S) (Q : unit -> S -> Prop) s : Q tt (f s) -> wp (modify f) Q s.
Proof. intros. by exists tt, (f s). Qed.

Lemma wp_mono {A} (m : M S A) (P Q : A -> S -> Prop) s :
  wp m P s -> (forall a s', P a s' -> Q a s') -> wp m Q s.
Proof. intros (a & s' & H & HP) HPQ. exists a, s'. auto. Qed.

(** Loops over a range, with an invariant indexed by the loop variable. *)
Lemma wp_for_range (body : nat -> M S unit) (P : nat -> S -> Prop) k n s :
  P k s ->
  (forall i s, (k <= i < k + n)%nat -> P i s -> wp (body i) (fun _ s' => P (Datatypes.S i) s') s) ->
  wp (for_each (seq k n) body) (fun _ s' => P (k + n)%nat s') s.
Proof.
  revert k s. induction n as [|n IH]; intros k s HP Hbody.
  - rewrite Nat.add_0_r. by apply wp_ret.
  - cbn [seq for_each]. apply wp_bind.
    eapply wp_mono; [apply Hbody; [lia|done]|]. intros [] s' HP'.
    replace (k + Datatypes.S n)%nat with (Datatypes.S k + n)%nat by lia.
    apply IH; [done|]. intros i s0 Hi. apply Hbody. lia.
Qed.

(** A loop under an invariant: one round either leaves the loop or goes on. *)
Lemma wp_loop {I R} fuel (body : I -> M S (I + R)) i (Q : R -> S -> Prop) s :
  wp (body i) (fun r s' => match r with
                           | inl i' => wp (loop fuel body i') Q s'
                           | inr x => Q x s'
                           end) s ->
  wp (loop (Datatypes.S fuel) body i) Q s.
Proof.
  intros H. cbn [loop]. apply wp_bind. eapply wp_mono; [exact H|]. intros [i'|x] s' HQ; [done|].
  by apply wp_ret.
Qed.
End WP.

(** ** Panics as outcomes

    [wpp m Q E s]: run on [s], [m] returns with [Q] or panics with a message
    that satisfies [E]. *)

Definition wpp {S A} (m : M S A) (Q : A -> S -> Prop) (E : string -> Prop) (s : S) : Prop :=
  wp m Q s \/ exists e s', m s = Panic e s' /\ E e.

Section WPP.
Context {S : Type}.
Implicit Types (s : S) (E : string -> Prop).

Lemma wpp_wp {A} (m : M S A) Q E s : wp m Q s -> wpp m Q E s.
Proof. by left. Qed.

Lemma wpp_panic {A} e (Q : A -> S -> Prop) E s : E e -> wpp (panic e) Q E s.
Proof. intros. right. by exists e, s. Qed.

Lemma wpp_bind {A B} (m : M S A) (f : A -> M S B) Q E s :
  wpp m (fun a s' => wpp (f a) Q E s') E s -> wpp (m ≫= f) Q E s.
Proof.
  intros [(a & s1 & H1 & HQ)|(e & s1 & H1 & HE)].
  - destruct HQ as [(b & s2 & H2 & HQ)|(e & s2 & H2 & HE)].
    + left. exists b, s2. split; [by erewrite bind_Ret|done].
    + right. exists e, s2. split; [by erewrite bind_Ret|done].
  - right. exists e, s1. split; [by apply bind_Panic|done].
Qed.

Lemma wpp_mono {A} (m : M S A) (P Q : A -> S -> Prop) E s :
  wpp m P E s -> (forall a s', P a s' -> Q a s') -> wpp m Q E s.
Proof. intros [H|H] HPQ; [left; by eapply wp_mono|by right]. Qed.

Lemma wpp_weaken {A} (m : M S A) (P Q : A -> S -> Prop) E E' s :
  wpp m P E s -> (forall a s', P a s' -> Q a s') -> (forall e, E e -> E' e) -> wpp m Q E' s.
Proof.
  intros [H|(e & s' & H & He)] HPQ HE; [left; by eapply wp_mono|right; exists e, s'; auto].
Qed.

Lemma wpp_loop {I R} fuel (body : I -> M S (I + R)) i (Q : R -> S -> Prop) E s :
  wpp (body i) (fun r s' => match r with
                            | inl i' => wpp (loop fuel body i') Q E s'
                            | inr x => Q x s'
                            end) E s ->
  wpp (loop (Datatypes.S fuel) body i) Q E s.
Proof.
  intros H. cbn [loop]. apply wpp_bind. eapply wpp_mono; [exact H|]. intros [i'|x] s' HQ; [done|].
  apply wpp_wp. by apply wp_ret.
Qed.
End WPP.

(** A loop that its first round leaves. *)
Lemma loop_done {S I R} fuel (body : I -> M S (I + R)) i x s s' :
  body i s = Ret (inr x) s' -> loop (Datatypes.S fuel) body i s = Ret x s'.
Proof. intros H. cbn [loop]. by rewrite (bind_Ret _ _ _ _ _ H). Qed.

Lemma loop_next {S I R} fuel (body : I -> M S (I + R)) i i' s s' :
  body i s = Ret (inl i') s' -> loop (Datatypes.S fuel) body i s = loop fuel body i' s'.
Proof. intros H. cbn [loop]. by rewrite (bind_Ret _ _ _ _ _ H). Qed.

(** ** Giving up the CPU as outcome

    [switches m s s']: run on [s], [m] gives up the CPU in the state [s']. *)

Definition switches {S A} (m : M S A) (s s' : S) : Prop := exists k, m s = Switch s' k.

Section Switches.
Context {S : Type}.

Lemma switches_first {A B} (m : M S A) (f : A -> M S B) s s' :
  switches m s s' -> switches (m ≫= f) s s'.
Proof. intros [k H]. unfold switches, mbind, M_bind. rewrite H. by eexists. Qed.

Lemma switches_then {A B} (m : M S A) (f : A -> M S B) a s s1 s' :
  m s = Ret a s1 -> switches (f a) s1 s' -> switches (m ≫= f) s s'.
Proof. intros H [k Hk]. exists k. by rewrite (bind_Ret _ _ _ _ _ H). Qed.

Lemma switches_loop {I R} fuel (body : I -> M S (I + R)) i s s' :
  switches (body i) s s' -> switches (loop (Datatypes.S fuel) body i) s s'.
Proof. intros H. cbn [loop]. by apply switches_first. Qed.
End Switches.

(** [wstep] runs one read or update of the state under [wp]. *)
Ltac wstep :=
  first
    [ apply wp_bind; first [apply wp_gets | apply wp_modify | apply wp_ret]
    | apply wp_gets | apply wp_modify | apply wp_ret
    | apply wpp_bind, wpp_wp; first [apply wp_gets | apply wp_modify | apply wp_ret]
    | apply wpp_wp; first [apply wp_gets | apply wp_modify | apply wp_ret] ]; cbv beta.

(** [wapply H] runs the first statement under [wp] by its specification [H]. *)
Tactic Notation "wapply" uconstr(H) :=
  first
    [ apply wp_bind; eapply wp_mono; [eapply H | cbv beta]
    | eapply wp_mono; [eapply H | cbv beta]
    | apply wpp_bind, wpp_wp; eapply wp_mono; [eapply H | cbv beta] ].
