(* ===== verification/State.v ===== *)
(** * The kernel's data

    The structures of the headers ([buf.h], [fs.h], [file.h], [proc.h],
    [x86.h]) and the global variables of the kernel's C files, gathered in one
    record [kstate].  Pointers into a static table ([struct buf *],
    [struct inode *], [struct file *], [struct proc *]) are indices into that
    table, with [None] for the null pointer; pointers to pages from [kalloc]
    are their addresses. *)

From S2P Require Import Prelude Monad.

(** ** Constants of [param.h], [fs.h], [buf.h], [file.h], [stat.h], [fcntl.h] *)

Definition NPROC : nat := 64.
Definition KSTACKSIZE : Z := 4096.
Definition NOFILE : nat := 16.
Definition NFILE : nat := 100.
Definition NINODE : nat := 50.
Definition NDEV : Z := 10.
Definition ROOTDEV : Z := 1.
Definition MAXARG : nat := 32.
Definition MAXOPBLOCKS : Z := 10.
Definition LOGSIZE : Z := MAXOPBLOCKS * 3.
Definition NBUF : nat := 30.
Definition EXIT_STATUS_OK : Z := 1.

Definition ROOTINO : Z := 1.
Definition BSIZE : Z := 512.
Definition NDIRECT : Z := 12.
Definition NINDIRECT : Z := BSIZE / 4.
Definition MAXFILE : Z := NDIRECT + NINDIRECT.
Definition DIRSIZ : nat := 14.
(** [sizeof(struct dinode)] and [sizeof(struct dirent)] *)
Definition DINODE_SIZE : Z := 64.
Definition DIRENT_SIZE : Z := 16.
Definition IPB : Z := BSIZE / DINODE_SIZE.
Definition IBLOCK (i : Z) : Z := i / IPB + 2.
Definition BPB : Z := BSIZE * 8.
Definition BBLOCK (b ninodes : Z) : Z := b / BPB + ninodes / IPB + 3.

Definition B_BUSY : Z := 1.
Definition B_VALID : Z := 2.
Definition B_DIRTY : Z := 4.
Definition I_BUSY : Z := 1.
Definition I_VALID : Z := 2.

Definition T_DIR : Z := 1.
Definition T_FILE : Z := 2.
Definition T_DEV : Z := 3.
Definition CONSOLE : Z := 1.

Definition O_RDONLY : Z := 0.
Definition O_WRONLY : Z := 1.
Definition O_RDWR : Z := 2.
Definition O_CREATE : Z := 512.

(** ** Locks and sleep channels

    A spin lock is named by the variable that holds it, a sleep channel by
    the object whose address is passed to [sleep] and [wakeup]. *)

Inductive lockid :=
| LkPtable | LkBcache | LkIcache | LkFtable | LkLog | LkKmem
| LkTicks | LkCons | LkInput
| LkPipe (p : Z).

Inductive chan :=
| ChBuf (b : nat) | ChInode (i : nat) | ChLog | ChProc (p : nat)
| ChTicks | ChInput
| ChNread (p : Z) | ChNwrite (p : Z).

#[export] Instance lockid_eq_dec : EqDecision lockid.
Proof. solve_decision. Defined.
#[export] Instance chan_eq_dec : EqDecision chan.
Proof. solve_decision. Defined.

(** ** Structures *)

(** [struct buf] of [buf.h]; the list head [bcache.head] is index [NBUF]. *)
Record buf := mkbuf {
  b_flags : Z;
  b_dev : Z;
  b_sector : Z;
  b_prev : nat;   (** LRU cache list *)
  b_next : nat;
  b_qnext : option nat;   (** disk queue *)
  b_data : list Z;
}.

Definition set_b_flags (v : Z) (r : buf) : buf :=
  mkbuf v (b_dev r) (b_sector r) (b_prev r) (b_next r) (b_qnext r) (b_data r).
Definition set_b_dev (v : Z) (r : buf) : buf :=
  mkbuf (b_flags r) v (b_sector r) (b_prev r) (b_next r) (b_qnext r) (b_data r).
Definition set_b_sector (v : Z) (r : buf) : buf :=
  mkbuf (b_flags r) (b_dev r) v (b_prev r) (b_next r) (b_qnext r) (b_data r).
Definition set_b_prev (v : nat) (r : buf) : buf :=
  mkbuf (b_flags r) (b_dev r) (b_sector r) v (b_next r) (b_qnext r) (b_data r).
Definition set_b_next (v : nat) (r : buf) : buf :=
  mkbuf (b_flags r) (b_dev r) (b_sector r) (b_prev r) v (b_qnext r) (b_data r).
Definition set_b_qnext (v : option nat) (r : buf) : buf :=
  mkbuf (b_flags r) (b_dev r) (b_sector r) (b_prev r) (b_next r) v (b_data r).
Definition set_b_data (v : list Z) (r : buf) : buf :=
  mkbuf (b_flags r) (b_dev r) (b_sector r) (b_prev r) (b_next r) (b_qnext r) v.

#[export] Instance buf_inhabited : Inhabited buf := populate (mkbuf 0 0 0 0%nat 0%nat None (replicate 512 0)).

(** [struct superblock] of [fs.h]. *)
Record superblock := mksb {
  sb_size : Z;
  sb_nblocks : Z;
  sb_ninodes : Z;
  sb_nlog : Z;
}.

(** [struct dinode] of [fs.h]. *)
Record dinode := mkdinode {
  d_type : Z;
  d_major : Z;
  d_minor : Z;
  d_nlink : Z;
  d_size : Z;
  d_addrs : list Z;
}.

(** [struct dirent] of [fs.h]. *)
Record dirent := mkdirent {
  de_inum : Z;
  de_name : list Z;
}.

(** [struct inode] of [file.h]: the in-memory copy of an inode. *)
Record inode := mkinode {
  i_dev : Z;
  i_inum : Z;
  i_ref : Z;
  i_flags : Z;   (** I_BUSY, I_VALID *)
  i_type : Z;
  i_major : Z;
  i_minor : Z;
  i_nlink : Z;
  i_size : Z;
  i_addrs : list Z;
}.

Definition set_i_dev (v : Z) (r : inode) : inode :=
  mkinode v (i_inum r) (i_ref r) (i_flags r) (i_type r) (i_major r) (i_minor r) (i_nlink r) (i_size r) (i_addrs r).
Definition set_i_inum (v : Z) (r : inode) : inode :=
  mkinode (i_dev r) v (i_ref r) (i_flags r) (i_type r) (i_major r) (i_minor r) (i_nlink r) (i_size r) (i_addrs r).
Definition set_i_ref (v : Z) (r : inode) : inode :=
  mkinode (i_dev r) (i_inum r) v (i_flags r) (i_type r) (i_major r) (i_minor r) (i_nlink r) (i_size r) (i_addrs r).
Definition set_i_flags (v : Z) (r : inode) : inode :=
  mkinode (i_dev r) (i_inum r) (i_ref r) v (i_type r) (i_major r) (i_minor r) (i_nlink r) (i_size r) (i_addrs r).
Definition set_i_type (v : Z) (r : inode) : inode :=
  mkinode (i_dev r) (i_inum r) (i_ref r) (i_flags r) v (i_major r) (i_minor r) (i_nlink r) (i_size r) (i_addrs r).
Definition set_i_major (v : Z) (r : inode) : inode :=
  mkinode (i_dev r) (i_inum r) (i_ref r) (i_flags r) (i_type r) v (i_minor r) (i_nlink r) (i_size r) (i_addrs r).
Definition set_i_minor (v : Z) (r : inode) : inode :=
  mkinode (i_dev r) (i_inum r) (i_ref r) (i_flags r) (i_type r) (i_major r) v (i_nlink r) (i_size r) (i_addrs r).
Definition set_i_nlink (v : Z) (r : inode) : inode :=
  mkinode (i_dev r) (i_inum r) (i_ref r) (i_flags r) (i_type r) (i_major r) (i_minor r) v (i_size r) (i_addrs r).
Definition set_i_size (v : Z) (r : inode) : inode :=
  mkinode (i_dev r) (i_inum r) (i_ref r) (i_flags r) (i_type r) (i_major r) (i_minor r) (i_nlink r) v (i_addrs r).
Definition set_i_addrs (v : list Z) (r : inode) : inode :=
  mkinode (i_dev r) (i_inum r) (i_ref r) (i_flags r) (i_type r) (i_major r) (i_minor r) (i_nlink r) (i_size r) v.

#[export] Instance inode_inhabited : Inhabited inode := populate (mkinode 0 0 0 0 0 0 0 0 0 (replicate 13 0)).

(** [struct file] of [file.h]. *)
Inductive fdtype := FD_NONE | FD_PIPE | FD_INODE.

#[export] Instance fdtype_eq_dec : EqDecision fdtype.
Proof. solve_decision. Defined.


Record file := mkfile {
  f_type : fdtype;
  f_ref : Z;   (** reference count *)
  f_readable : bool;
  f_writable : bool;
  f_pipe : Z;
  f_ip : nat;
  f_off : Z;
}.

Definition set_f_type (v : fdtype) (r : file) : file :=
  mkfile v (f_ref r) (f_readable r) (f_writable r) (f_pipe r) (f_ip r) (f_off r).
Definition set_f_ref (v : Z) (r : file) : file :=
  mkfile (f_type r) v (f_readable r) (f_writable r) (f_pipe r) (f_ip r) (f_off r).
Definition set_f_readable (v : bool) (r : file) : file :=
  mkfile (f_type r) (f_ref r) v (f_writable r) (f_pipe r) (f_ip r) (f_off r).
Definition set_f_writable (v : bool) (r : file) : file :=
  mkfile (f_type r) (f_ref r) (f_readable r) v (f_pipe r) (f_ip r) (f_off r).
Definition set_f_pipe (v : Z) (r : file) : file :=
  mkfile (f_type r) (f_ref r) (f_readable r) (f_writable r) v (f_ip r) (f_off r).
Definition set_f_ip (v : nat) (r : file) : file :=
  mkfile (f_type r) (f_ref r) (f_readable r) (f_writable r) (f_pipe r) v (f_off r).
Definition set_f_off (v : Z) (r : file) : file :=
  mkfile (f_type r) (f_ref r) (f_readable r) (f_writable r) (f_pipe r) (f_ip r) v.

#[export] Instance file_inhabited : Inhabited file := populate (mkfile FD_NONE 0 false false 0 0%nat 0).

(** [struct pipe] of [pipe.c] (its lock is [LkPipe]). *)
Record pipe := mkpipe {
  pi_data : list Z;
  pi_nread : Z;   (** number of bytes read *)
  pi_nwrite : Z;   (** number of bytes written *)
  pi_readopen : bool;
  pi_writeopen : bool;
}.

Definition set_pi_data (v : list Z) (r : pipe) : pipe :=
  mkpipe v (pi_nread r) (pi_nwrite r) (pi_readopen r) (pi_writeopen r).
Definition set_pi_nread (v : Z) (r : pipe) : pipe :=
  mkpipe (pi_data r) v (pi_nwrite r) (pi_readopen r) (pi_writeopen r).
Definition set_pi_nwrite (v : Z) (r : pipe) : pipe :=
  mkpipe (pi_data r) (pi_nread r) v (pi_readopen r) (pi_writeopen r).
Definition set_pi_readopen (v : bool) (r : pipe) : pipe :=
  mkpipe (pi_data r) (pi_nread r) (pi_nwrite r) v (pi_writeopen r).
Definition set_pi_writeopen (v : bool) (r : pipe) : pipe :=
  mkpipe (pi_data r) (pi_nread r) (pi_nwrite r) (pi_readopen r) v.

#[export] Instance pipe_inhabited : Inhabited pipe := populate (mkpipe (replicate 512 0) 0 0 false false).

(** [struct trapframe] of [x86.h], without its padding. *)
Record trapframe := mktf {
  tf_edi : Z;
  tf_esi : Z;
  tf_ebp : Z;
  tf_oesp : Z;
  tf_ebx : Z;
  tf_edx : Z;
  tf_ecx : Z;
  tf_eax : Z;
  tf_gs : Z;
  tf_fs : Z;
  tf_es : Z;
  tf_ds : Z;
  tf_trapno : Z;
  tf_err : Z;
  tf_eip : Z;
  tf_cs : Z;
  tf_eflags : Z;
  tf_esp : Z;
  tf_ss : Z;
}.

Definition set_tf_edi (v : Z) (r : trapframe) : trapframe :=
  mktf v (tf_esi r) (tf_ebp r) (tf_oesp r) (tf_ebx r) (tf_edx r) (tf_ecx r) (tf_eax r) (tf_gs r) (tf_fs r) (tf_es r) (tf_ds r) (tf_trapno r) (tf_err r) (tf_eip r) (tf_cs r) (tf_eflags r) (tf_esp r) (tf_ss r).
Definition set_tf_esi (v : Z) (r : trapframe) : trapframe :=
  mktf (tf_edi r) v (tf_ebp r) (tf_oesp r) (tf_ebx r) (tf_edx r) (tf_ecx r) (tf_eax r) (tf_gs r) (tf_fs r) (tf_es r) (tf_ds r) (tf_trapno r) (tf_err r) (tf_eip r) (tf_cs r) (tf_eflags r) (tf_esp r) (tf_ss r).
Definition set_tf_ebp (v : Z) (r : trapframe) : trapframe :=
  mktf (tf_edi r) (tf_esi r) v (tf_oesp r) (tf_ebx r) (tf_edx r) (tf_ecx r) (tf_eax r) (tf_gs r) (tf_fs r) (tf_es r) (tf_ds r) (tf_trapno r) (tf_err r) (tf_eip r) (tf_cs r) (tf_eflags r) (tf_esp r) (tf_ss r).
Definition set_tf_oesp (v : Z) (r : trapframe) : trapframe :=
  mktf (tf_edi r) (tf_esi r) (tf_ebp r) v (tf_ebx r) (tf_edx r) (tf_ecx r) (tf_eax r) (tf_gs r) (tf_fs r) (tf_es r) (tf_ds r) (tf_trapno r) (tf_err r) (tf_eip r) (tf_cs r) (tf_eflags r) (tf_esp r) (tf_ss r).
Definition set_tf_ebx (v : Z) (r : trapframe) : trapframe :=
  mktf (tf_edi r) (tf_esi r) (tf_ebp r) (tf_oesp r) v (tf_edx r) (tf_ecx r) (tf_eax r) (tf_gs r) (tf_fs r) (tf_es r) (tf_ds r) (tf_trapno r) (tf_err r) (tf_eip r) (tf_cs r) (tf_eflags r) (tf_esp r) (tf_ss r).
Definition set_tf_edx (v : Z) (r : trapframe) : trapframe :=
  mktf (tf_edi r) (tf_esi r) (tf_ebp r) (tf_oesp r) (tf_ebx r) v (tf_ecx r) (tf_eax r) (tf_gs r) (tf_fs r) (tf_es r) (tf_ds r) (tf_trapno r) (tf_err r) (tf_eip r) (tf_cs r) (tf_eflags r) (tf_esp r) (tf_ss r).
Definition set_tf_ecx (v : Z) (r : trapframe) : trapframe :=
  mktf (tf_edi r) (tf_esi r) (tf_ebp r) (tf_oesp r) (tf_ebx r) (tf_edx r) v (tf_eax r) (tf_gs r) (tf_fs r) (tf_es r) (tf_ds r) (tf_trapno r) (tf_err r) (tf_eip r) (tf_cs r) (tf_eflags r) (tf_esp r) (tf_ss r).
Definition set_tf_eax (v : Z) (r : trapframe) : trapframe :=
  mktf (tf_edi r) (tf_esi r) (tf_ebp r) (tf_oesp r) (tf_ebx r) (tf_edx r) (tf_ecx r) v (tf_gs r) (tf_fs r) (tf_es r) (tf_ds r) (tf_trapno r) (tf_err r) (tf_eip r) (tf_cs r) (tf_eflags r) (tf_esp r) (tf_ss r).
Definition set_tf_gs (v : Z) (r : trapframe) : trapframe :=
  mktf (tf_edi r) (tf_esi r) (tf_ebp r) (tf_oesp r) (tf_ebx r) (tf_edx r) (tf_ecx r) (tf_eax r) v (tf_fs r) (tf_es r) (tf_ds r) (tf_trapno r) (tf_err r) (tf_eip r) (tf_cs r) (tf_eflags r) (tf_esp r) (tf_ss r).
Definition set_tf_fs (v : Z) (r : trapframe) : trapframe :=
  mktf (tf_edi r) (tf_esi r) (tf_ebp r) (tf_oesp r) (tf_ebx r) (tf_edx r) (tf_ecx r) (tf_eax r) (tf_gs r) v (tf_es r) (tf_ds r) (tf_trapno r) (tf_err r) (tf_eip r) (tf_cs r) (tf_eflags r) (tf_esp r) (tf_ss r).
Definition set_tf_es (v : Z) (r : trapframe) : trapframe :=
  mktf (tf_edi r) (tf_esi r) (tf_ebp r) (tf_oesp r) (tf_ebx r) (tf_edx r) (tf_ecx r) (tf_eax r) (tf_gs r) (tf_fs r) v (tf_ds r) (tf_trapno r) (tf_err r) (tf_eip r) (tf_cs r) (tf_eflags r) (tf_esp r) (tf_ss r).
Definition set_tf_ds (v : Z) (r : trapframe) : trapframe :=
  mktf (tf_edi r) (tf_esi r) (tf_ebp r) (tf_oesp r) (tf_ebx r) (tf_edx r) (tf_ecx r) (tf_eax r) (tf_gs r) (tf_fs r) (tf_es r) v (tf_trapno r) (tf_err r) (tf_eip r) (tf_cs r) (tf_eflags r) (tf_esp r) (tf_ss r).
Definition set_tf_trapno (v : Z) (r : trapframe) : trapframe :=
  mktf (tf_edi r) (tf_esi r) (tf_ebp r) (tf_oesp r) (tf_ebx r) (tf_edx r) (tf_ecx r) (tf_eax r) (tf_gs r) (tf_fs r) (tf_es r) (tf_ds r) v (tf_err r) (tf_eip r) (tf_cs r) (tf_eflags r) (tf_esp r) (tf_ss r).
Definition set_tf_err (v : Z) (r : trapframe) : trapframe :=
  mktf (tf_edi r) (tf_esi r) (tf_ebp r) (tf_oesp r) (tf_ebx r) (tf_edx r) (tf_ecx r) (tf_eax r) (tf_gs r) (tf_fs r) (tf_es r) (tf_ds r) (tf_trapno r) v (tf_eip r) (tf_cs r) (tf_eflags r) (tf_esp r) (tf_ss r).
Definition set_tf_eip (v : Z) (r : trapframe) : trapframe :=
  mktf (tf_edi r) (tf_esi r) (tf_ebp r) (tf_oesp r) (tf_ebx r) (tf_edx r) (tf_ecx r) (tf_eax r) (tf_gs r) (tf_fs r) (tf_es r) (tf_ds r) (tf_trapno r) (tf_err r) v (tf_cs r) (tf_eflags r) (tf_esp r) (tf_ss r).
Definition set_tf_cs (v : Z) (r : trapframe) : trapframe :=
  mktf (tf_edi r) (tf_esi r) (tf_ebp r) (tf_oesp r) (tf_ebx r) (tf_edx r) (tf_ecx r) (tf_eax r) (tf_gs r) (tf_fs r) (tf_es r) (tf_ds r) (tf_trapno r) (tf_err r) (tf_eip r) v (tf_eflags r) (tf_esp r) (tf_ss r).
Definition set_tf_eflags (v : Z) (r : trapframe) : trapframe :=
  mktf (tf_edi r) (tf_esi r) (tf_ebp r) (tf_oesp r) (tf_ebx r) (tf_edx r) (tf_ecx r) (tf_eax r) (tf_gs r) (tf_fs r) (tf_es r) (tf_ds r) (tf_trapno r) (tf_err r) (tf_eip r) (tf_cs r) v (tf_esp r) (tf_ss r).
Definition set_tf_esp (v : Z) (r : trapframe) : trapframe :=
  mktf (tf_edi r) (tf_esi r) (tf_ebp r) (tf_oesp r) (tf_ebx r) (tf_edx r) (tf_ecx r) (tf_eax r) (tf_gs r) (tf_fs r) (tf_es r) (tf_ds r) (tf_trapno r) (tf_err r) (tf_eip r) (tf_cs r) (tf_eflags r) v (tf_ss r).
Definition set_tf_ss (v : Z) (r : trapframe) : trapframe :=
  mktf (tf_edi r) (tf_esi r) (tf_ebp r) (tf_oesp r) (tf_ebx r) (tf_edx r) (tf_ecx r) (tf_eax r) (tf_gs r) (tf_fs r) (tf_es r) (tf_ds r) (tf_trapno r) (tf_err r) (tf_eip r) (tf_cs r) (tf_eflags r) (tf_esp r) v.

#[export] Instance trapframe_inhabited : Inhabited trapframe := populate (mktf 0 0 0 0 0 0 0 0 0 0 0 0 0 0 0 0 0 0 0).

(** [struct context] of [proc.h]. *)
Record context := mkctx {
  cx_edi : Z;
  cx_esi : Z;
  cx_ebx : Z;
  cx_ebp : Z;
  cx_eip : Z;
}.

Definition set_cx_edi (v : Z) (r : context) : context :=
  mkctx v (cx_esi r) (cx_ebx r) (cx_ebp r) (cx_eip r).
Definition set_cx_esi (v : Z) (r : context) : context :=
  mkctx (cx_edi r) v (cx_ebx r) (cx_ebp r) (cx_eip r).
Definition set_cx_ebx (v : Z) (r : context) : context :=
  mkctx (cx_edi r) (cx_esi r) v (cx_ebp r) (cx_eip r).
Definition set_cx_ebp (v : Z) (r : context) : context :=
  mkctx (cx_edi r) (cx_esi r) (cx_ebx r) v (cx_eip r).
Definition set_cx_eip (v : Z) (r : context) : context :=
  mkctx (cx_edi r) (cx_esi r) (cx_ebx r) (cx_ebp r) v.

#[export] Instance context_inhabited : Inhabited context := populate (mkctx 0 0 0 0 0).

(** [enum procstate] and [struct procstat] of [procstat.h]. *)
Inductive procstate := UNUSED | EMBRYO | SLEEPING | RUNNABLE | RUNNING | ZOMBIE.

#[export] Instance procstate_eq_dec : EqDecision procstate.
Proof. solve_decision. Defined.


Record procstat := mkprocstat {
  ps_name : list Z;
  ps_sz : Z;
  ps_nofile : Z;
  ps_state : procstate;
}.

(** [struct proc] of [proc.h].  The trap frame and the context live in the
    kernel stack page; they are kept here as the records they point to. *)
Record proc := mkproc {
  p_sz : Z;
  p_pgdir : Z;
  p_kstack : Z;
  p_state : procstate;
  p_pid : Z;
  p_parent : option nat;
  p_tf : trapframe;
  p_context : context;
  p_chan : option chan;
  p_killed : bool;
  p_ofile : list (option nat);
  p_cwd : option nat;
  p_name : list Z;
  p_status : Z;
}.

Definition set_p_sz (v : Z) (r : proc) : proc :=
  mkproc v (p_pgdir r) (p_kstack r) (p_state r) (p_pid r) (p_parent r) (p_tf r) (p_context r) (p_chan r) (p_killed r) (p_ofile r) (p_cwd r) (p_name r) (p_status r).
Definition set_p_pgdir (v : Z) (r : proc) : proc :=
  mkproc (p_sz r) v (p_kstack r) (p_state r) (p_pid r) (p_parent r) (p_tf r) (p_context r) (p_chan r) (p_killed r) (p_ofile r) (p_cwd r) (p_name r) (p_status r).
Definition set_p_kstack (v : Z) (r : proc) : proc :=
  mkproc (p_sz r) (p_pgdir r) v (p_state r) (p_pid r) (p_parent r) (p_tf r) (p_context r) (p_chan r) (p_killed r) (p_ofile r) (p_cwd r) (p_name r) (p_status r).
Definition set_p_state (v : procstate) (r : proc) : proc :=
  mkproc (p_sz r) (p_pgdir r) (p_kstack r) v (p_pid r) (p_parent r) (p_tf r) (p_context r) (p_chan r) (p_killed r) (p_ofile r) (p_cwd r) (p_name r) (p_status r).
Definition set_p_pid (v : Z) (r : proc) : proc :=
  mkproc (p_sz r) (p_pgdir r) (p_kstack r) (p_state r) v (p_parent r) (p_tf r) (p_context r) (p_chan r) (p_killed r) (p_ofile r) (p_cwd r) (p_name r) (p_status r).
Definition set_p_parent (v : option nat) (r : proc) : proc :=
  mkproc (p_sz r) (p_pgdir r) (p_kstack r) (p_state r) (p_pid r) v (p_tf r) (p_context r) (p_chan r) (p_killed r) (p_ofile r) (p_cwd r) (p_name r) (p_status r).
Definition set_p_tf (v : trapframe) (r : proc) : proc :=
  mkproc (p_sz r) (p_pgdir r) (p_kstack r) (p_state r) (p_pid r) (p_parent r) v (p_context r) (p_chan r) (p_killed r) (p_ofile r) (p_cwd r) (p_name r) (p_status r).
Definition set_p_context (v : context) (r : proc) : proc :=
  mkproc (p_sz r) (p_pgdir r) (p_kstack r) (p_state r) (p_pid r) (p_parent r) (p_tf r) v (p_chan r) (p_killed r) (p_ofile r) (p_cwd r) (p_name r) (p_status r).
Definition set_p_chan (v : option chan) (r : proc) : proc :=
  mkproc (p_sz r) (p_pgdir r) (p_kstack r) (p_state r) (p_pid r) (p_parent r) (p_tf r) (p_context r) v (p_killed r) (p_ofile r) (p_cwd r) (p_name r) (p_status r).
Definition set_p_killed (v : bool) (r : proc) : proc :=
  mkproc (p_sz r) (p_pgdir r) (p_kstack r) (p_state r) (p_pid r) (p_parent r) (p_tf r) (p_context r) (p_chan r) v (p_ofile r) (p_cwd r) (p_name r) (p_status r).
Definition set_p_ofile (v : list (option nat)) (r : proc) : proc :=
  mkproc (p_sz r) (p_pgdir r) (p_kstack r) (p_state r) (p_pid r) (p_parent r) (p_tf r) (p_context r) (p_chan r) (p_killed r) v (p_cwd r) (p_name r) (p_status r).
Definition set_p_cwd (v : option nat) (r : proc) : proc :=
  mkproc (p_sz r) (p_pgdir r) (p_kstack r) (p_state r) (p_pid r) (p_parent r) (p_tf r) (p_context r) (p_chan r) (p_killed r) (p_ofile r) v (p_name r) (p_status r).
Definition set_p_name (v : list Z) (r : proc) : proc :=
  mkproc (p_sz r) (p_pgdir r) (p_kstack r) (p_state r) (p_pid r) (p_parent r) (p_tf r) (p_context r) (p_chan r) (p_killed r) (p_ofile r) (p_cwd r) v (p_status r).
Definition set_p_status (v : Z) (r : proc) : proc :=
  mkproc (p_sz r) (p_pgdir r) (p_kstack r) (p_state r) (p_pid r) (p_parent r) (p_tf r) (p_context r) (p_chan r) (p_killed r) (p_ofile r) (p_cwd r) (p_name r) v.

#[export] Instance proc_inhabited : Inhabited proc := populate (mkproc 0 0 0 UNUSED 0 None inhabitant inhabitant None false (replicate 16 None) None (replicate 16 0) 0).

(** [struct log] of [log.c]; [l_n] and [l_sector] are its [logheader]. *)
Record log := mklog {
  l_start : Z;
  l_size : Z;
  l_outstanding : Z;   (** how many FS sys calls are executing *)
  l_committing : bool;   (** in commit() *)
  l_dev : Z;
  l_n : Z;
  l_sector : list Z;
}.

Definition set_l_start (v : Z) (r : log) : log :=
  mklog v (l_size r) (l_outstanding r) (l_committing r) (l_dev r) (l_n r) (l_sector r).
Definition set_l_size (v : Z) (r : log) : log :=
  mklog (l_start r) v (l_outstanding r) (l_committing r) (l_dev r) (l_n r) (l_sector r).
Definition set_l_outstanding (v : Z) (r : log) : log :=
  mklog (l_start r) (l_size r) v (l_committing r) (l_dev r) (l_n r) (l_sector r).
Definition set_l_committing (v : bool) (r : log) : log :=
  mklog (l_start r) (l_size r) (l_outstanding r) v (l_dev r) (l_n r) (l_sector r).
Definition set_l_dev (v : Z) (r : log) : log :=
  mklog (l_start r) (l_size r) (l_outstanding r) (l_committing r) v (l_n r) (l_sector r).
Definition set_l_n (v : Z) (r : log) : log :=
  mklog (l_start r) (l_size r) (l_outstanding r) (l_committing r) (l_dev r) v (l_sector r).
Definition set_l_sector (v : list Z) (r : log) : log :=
  mklog (l_start r) (l_size r) (l_outstanding r) (l_committing r) (l_dev r) (l_n r) v.

#[export] Instance log_inhabited : Inhabited log := populate (mklog 0 0 0 false 0 0 (replicate 30 0)).

(** The disk behind [memide.c]: sector contents (absent sectors are zero),
    its size in sectors, and the sequence of sector writes performed so far,
    oldest first, which the crash theorems cut at every point. *)
Record disk := mkdisk {
  dk_blocks : gmap Z (list Z);
  dk_size : Z;
  dk_trace : list (Z * list Z);
}.

Definition set_dk_blocks (v : gmap Z (list Z)) (r : disk) : disk :=
  mkdisk v (dk_size r) (dk_trace r).
Definition set_dk_size (v : Z) (r : disk) : disk :=
  mkdisk (dk_blocks r) v (dk_trace r).
Definition set_dk_trace (v : list (Z * list Z)) (r : disk) : disk :=
  mkdisk (dk_blocks r) (dk_size r) v.

#[export] Instance disk_inhabited : Inhabited disk := populate (mkdisk ∅ 0 []).

(** [input] of [console.c] (its lock is [LkInput]). *)
Record inputbuf := mkinput {
  in_buf : list Z;
  in_r : Z;   (** Read index *)
  in_w : Z;   (** Write index *)
  in_e : Z;   (** Edit index *)
}.

Definition set_in_buf (v : list Z) (r : inputbuf) : inputbuf :=
  mkinput v (in_r r) (in_w r) (in_e r).
Definition set_in_r (v : Z) (r : inputbuf) : inputbuf :=
  mkinput (in_buf r) v (in_w r) (in_e r).
Definition set_in_w (v : Z) (r : inputbuf) : inputbuf :=
  mkinput (in_buf r) (in_r r) v (in_e r).
Definition set_in_e (v : Z) (r : inputbuf) : inputbuf :=
  mkinput (in_buf r) (in_r r) (in_w r) v.

#[export] Instance inputbuf_inhabited : Inhabited inputbuf := populate (mkinput (replicate 128 0) 0 0 0).

(** The drivers that can appear in [devsw]. *)
Inductive device := DevConsole.

(** ** The kernel state *)
Record kstate := mkk {
  k_held : list lockid;   (** spin locks held by this CPU *)
  k_cur : option nat;   (** proc *)
  k_procs : list proc;   (** ptable.proc *)
  k_initproc : option nat;   (** initproc *)
  k_nextpid : Z;   (** nextpid *)
  k_ticks : Z;   (** ticks *)
  k_bufs : list buf;   (** bcache.buf and bcache.head *)
  k_disk : disk;
  k_log : log;   (** log *)
  k_inodes : list inode;   (** icache.inode *)
  k_files : list file;   (** ftable.file *)
  k_pipes : gmap Z pipe;   (** pipes, by the address of their page *)
  k_devsw : list (option device);   (** devsw *)
  k_mem : gmap Z Z;   (** bytes of kernel virtual memory *)
  k_freelist : Z;   (** kmem.freelist *)
  k_uselock : bool;   (** kmem.use_lock *)
  k_input : inputbuf;   (** input *)
  k_out : list Z;   (** characters sent to the console, oldest first *)
  k_locking : bool;   (** cons.locking *)
  k_kpgdir : Z;   (** kpgdir *)
  k_cr3 : Z;   (** the page directory in use (%cr3) *)
  k_first : bool;   (** first, of forkret *)
}.

Definition set_k_held (v : list lockid) (r : kstate) : kstate :=
  mkk v (k_cur r) (k_procs r) (k_initproc r) (k_nextpid r) (k_ticks r) (k_bufs r) (k_disk r) (k_log r) (k_inodes r) (k_files r) (k_pipes r) (k_devsw r) (k_mem r) (k_freelist r) (k_uselock r) (k_input r) (k_out r) (k_locking r) (k_kpgdir r) (k_cr3 r) (k_first r).
Definition set_k_cur (v : option nat) (r : kstate) : kstate :=
  mkk (k_held r) v (k_procs r) (k_initproc r) (k_nextpid r) (k_ticks r) (k_bufs r) (k_disk r) (k_log r) (k_inodes r) (k_files r) (k_pipes r) (k_devsw r) (k_mem r) (k_freelist r) (k_uselock r) (k_input r) (k_out r) (k_locking r) (k_kpgdir r) (k_cr3 r) (k_first r).
Definition set_k_procs (v : list proc) (r : kstate) : kstate :=
  mkk (k_held r) (k_cur r) v (k_initproc r) (k_nextpid r) (k_ticks r) (k_bufs r) (k_disk r) (k_log r) (k_inodes r) (k_files r) (k_pipes r) (k_devsw r) (k_mem r) (k_freelist r) (k_uselock r) (k_input r) (k_out r) (k_locking r) (k_kpgdir r) (k_cr3 r) (k_first r).
Definition set_k_initproc (v : option nat) (r : kstate) : kstate :=
  mkk (k_held r) (k_cur r) (k_procs r) v (k_nextpid r) (k_ticks r) (k_bufs r) (k_disk r) (k_log r) (k_inodes r) (k_files r) (k_pipes r) (k_devsw r) (k_mem r) (k_freelist r) (k_uselock r) (k_input r) (k_out r) (k_locking r) (k_kpgdir r) (k_cr3 r) (k_first r).
Definition set_k_nextpid (v : Z) (r : kstate) : kstate :=
  mkk (k_held r) (k_cur r) (k_procs r) (k_initproc r) v (k_ticks r) (k_bufs r) (k_disk r) (k_log r) (k_inodes r) (k_files r) (k_pipes r) (k_devsw r) (k_mem r) (k_freelist r) (k_uselock r) (k_input r) (k_out r) (k_locking r) (k_kpgdir r) (k_cr3 r) (k_first r).
Definition set_k_ticks (v : Z) (r : kstate) : kstate :=
  mkk (k_held r) (k_cur r) (k_procs r) (k_initproc r) (k_nextpid r) v (k_bufs r) (k_disk r) (k_log r) (k_inodes r) (k_files r) (k_pipes r) (k_devsw r) (k_mem r) (k_freelist r) (k_uselock r) (k_input r) (k_out r) (k_locking r) (k_kpgdir r) (k_cr3 r) (k_first r).
Definition set_k_bufs (v : list buf) (r : kstate) : kstate :=
  mkk (k_held r) (k_cur r) (k_procs r) (k_initproc r) (k_nextpid r) (k_ticks r) v (k_disk r) (k_log r) (k_inodes r) (k_files r) (k_pipes r) (k_devsw r) (k_mem r) (k_freelist r) (k_uselock r) (k_input r) (k_out r) (k_locking r) (k_kpgdir r) (k_cr3 r) (k_first r).
Definition set_k_disk (v : disk) (r : kstate) : kstate :=
  mkk (k_held r) (k_cur r) (k_procs r) (k_initproc r) (k_nextpid r) (k_ticks r) (k_bufs r) v (k_log r) (k_inodes r) (k_files r) (k_pipes r) (k_devsw r) (k_mem r) (k_freelist r) (k_uselock r) (k_input r) (k_out r) (k_locking r) (k_kpgdir r) (k_cr3 r) (k_first r).
Definition set_k_log (v : log) (r : kstate) : kstate :=
  mkk (k_held r) (k_cur r) (k_procs r) (k_initproc r) (k_nextpid r) (k_ticks r) (k_bufs r) (k_disk r) v (k_inodes r) (k_files r) (k_pipes r) (k_devsw r) (k_mem r) (k_freelist r) (k_uselock r) (k_input r) (k_out r) (k_locking r) (k_kpgdir r) (k_cr3 r) (k_first r).
Definition set_k_inodes (v : list inode) (r : kstate) : kstate :=
  mkk (k_held r) (k_cur r) (k_procs r) (k_initproc r) (k_nextpid r) (k_ticks r) (k_bufs r) (k_disk r) (k_log r) v (k_files r) (k_pipes r) (k_devsw r) (k_mem r) (k_freelist r) (k_uselock r) (k_input r) (k_out r) (k_locking r) (k_kpgdir r) (k_cr3 r) (k_first r).
Definition set_k_files (v : list file) (r : kstate) : kstate :=
  mkk (k_held r) (k_cur r) (k_procs r) (k_initproc r) (k_nextpid r) (k_ticks r) (k_bufs r) (k_disk r) (k_log r) (k_inodes r) v (k_pipes r) (k_devsw r) (k_mem r) (k_freelist r) (k_uselock r) (k_input r) (k_out r) (k_locking r) (k_kpgdir r) (k_cr3 r) (k_first r).
Definition set_k_pipes (v : gmap Z pipe) (r : kstate) : kstate :=
  mkk (k_held r) (k_cur r) (k_procs r) (k_initproc r) (k_nextpid r) (k_ticks r) (k_bufs r) (k_disk r) (k_log r) (k_inodes r) (k_files r) v (k_devsw r) (k_mem r) (k_freelist r) (k_uselock r) (k_input r) (k_out r) (k_locking r) (k_kpgdir r) (k_cr3 r) (k_first r).
Definition set_k_devsw (v : list (option device)) (r : kstate) : kstate :=
  mkk (k_held r) (k_cur r) (k_procs r) (k_initproc r) (k_nextpid r) (k_ticks r) (k_bufs r) (k_disk r) (k_log r) (k_inodes r) (k_files r) (k_pipes r) v (k_mem r) (k_freelist r) (k_uselock r) (k_input r) (k_out r) (k_locking r) (k_kpgdir r) (k_cr3 r) (k_first r).
Definition set_k_mem (v : gmap Z Z) (r : kstate) : kstate :=
  mkk (k_held r) (k_cur r) (k_procs r) (k_initproc r) (k_nextpid r) (k_ticks r) (k_bufs r) (k_disk r) (k_log r) (k_inodes r) (k_files r) (k_pipes r) (k_devsw r) v (k_freelist r) (k_uselock r) (k_input r) (k_out r) (k_locking r) (k_kpgdir r) (k_cr3 r) (k_first r).
Definition set_k_freelist (v : Z) (r : kstate) : kstate :=
  mkk (k_held r) (k_cur r) (k_procs r) (k_initproc r) (k_nextpid r) (k_ticks r) (k_bufs r) (k_disk r) (k_log r) (k_inodes r) (k_files r) (k_pipes r) (k_devsw r) (k_mem r) v (k_uselock r) (k_input r) (k_out r) (k_locking r) (k_kpgdir r) (k_cr3 r) (k_first r).
Definition set_k_uselock (v : bool) (r : kstate) : kstate :=
  mkk (k_held r) (k_cur r) (k_procs r) (k_initproc r) (k_nextpid r) (k_ticks r) (k_bufs r) (k_disk r) (k_log r) (k_inodes r) (k_files r) (k_pipes r) (k_devsw r) (k_mem r) (k_freelist r) v (k_input r) (k_out r) (k_locking r) (k_kpgdir r) (k_cr3 r) (k_first r).
Definition set_k_input (v : inputbuf) (r : kstate) : kstate :=
  mkk (k_held r) (k_cur r) (k_procs r) (k_initproc r) (k_nextpid r) (k_ticks r) (k_bufs r) (k_disk r) (k_log r) (k_inodes r) (k_files r) (k_pipes r) (k_devsw r) (k_mem r) (k_freelist r) (k_uselock r) v (k_out r) (k_locking r) (k_kpgdir r) (k_cr3 r) (k_first r).
Definition set_k_out (v : list Z) (r : kstate) : kstate :=
  mkk (k_held r) (k_cur r) (k_procs r) (k_initproc r) (k_nextpid r) (k_ticks r) (k_bufs r) (k_disk r) (k_log r) (k_inodes r) (k_files r) (k_pipes r) (k_devsw r) (k_mem r) (k_freelist r) (k_uselock r) (k_input r) v (k_locking r) (k_kpgdir r) (k_cr3 r) (k_first r).
Definition set_k_locking (v : bool) (r : kstate) : kstate :=
  mkk (k_held r) (k_cur r) (k_procs r) (k_initproc r) (k_nextpid r) (k_ticks r) (k_bufs r) (k_disk r) (k_log r) (k_inodes r) (k_files r) (k_pipes r) (k_devsw r) (k_mem r) (k_freelist r) (k_uselock r) (k_input r) (k_out r) v (k_kpgdir r) (k_cr3 r) (k_first r).
Definition set_k_kpgdir (v : Z) (r : kstate) : kstate :=
  mkk (k_held r) (k_cur r) (k_procs r) (k_initproc r) (k_nextpid r) (k_ticks r) (k_bufs r) (k_disk r) (k_log r) (k_inodes r) (k_files r) (k_pipes r) (k_devsw r) (k_mem r) (k_freelist r) (k_uselock r) (k_input r) (k_out r) (k_locking r) v (k_cr3 r) (k_first r).
Definition set_k_cr3 (v : Z) (r : kstate) : kstate :=
  mkk (k_held r) (k_cur r) (k_procs r) (k_initproc r) (k_nextpid r) (k_ticks r) (k_bufs r) (k_disk r) (k_log r) (k_inodes r) (k_files r) (k_pipes r) (k_devsw r) (k_mem r) (k_freelist r) (k_uselock r) (k_input r) (k_out r) (k_locking r) (k_kpgdir r) v (k_first r).
Definition set_k_first (v : bool) (r : kstate) : kstate :=
  mkk (k_held r) (k_cur r) (k_procs r) (k_initproc r) (k_nextpid r) (k_ticks r) (k_bufs r) (k_disk r) (k_log r) (k_inodes r) (k_files r) (k_pipes r) (k_devsw r) (k_mem r) (k_freelist r) (k_uselock r) (k_input r) (k_out r) (k_locking r) (k_kpgdir r) (k_cr3 r) v.

Abbreviation K := (M kstate).

(** Update functions of the tables of the state. *)

Definition upd_proc (p : nat) (f : proc -> proc) (s : kstate) : kstate :=
  set_k_procs (alter f p (k_procs s)) s.
Definition upd_buf (b : nat) (f : buf -> buf) (s : kstate) : kstate :=
  set_k_bufs (alter f b (k_bufs s)) s.
Definition upd_log (f : log -> log) (s : kstate) : kstate :=
  set_k_log (f (k_log s)) s.
Definition upd_inode (i : nat) (f : inode -> inode) (s : kstate) : kstate :=
  set_k_inodes (alter f i (k_inodes s)) s.
Definition upd_file (i : nat) (f : file -> file) (s : kstate) : kstate :=
  set_k_files (alter f i (k_files s)) s.
Definition upd_pipe (p : Z) (f : pipe -> pipe) (s : kstate) : kstate :=
  set_k_pipes (alter f p (k_pipes s)) s.

(** Reading an entry of a table through a pointer. *)

Definition getbuf (b : nat) : K buf := gets (fun s => k_bufs s !!! b).
Definition getproc (p : nat) : K proc := gets (fun s => k_procs s !!! p).
Definition getinode (i : nat) : K inode := gets (fun s => k_inodes s !!! i).
Definition getfile (i : nat) : K file := gets (fun s => k_files s !!! i).

(** Flag words. *)

Definition has (flags m : Z) : bool := negb (Z.land flags m =? 0).
Definition set_flag (flags m : Z) : Z := Z.lor flags m.
Definition clear_flag (flags m : Z) : Z := Z.land flags (Z.lnot m).

(** ** The lock interface

    What the rest of the kernel sees of [spinlock.c]: the locks held by the
    CPU.  [Spinlock.v] models [acquire] and [release] down to the [xchg] and
    the interrupt flag and shows that they implement this interface. *)

Definition acquire (l : lockid) : K unit :=
  held ← gets k_held;
  if decide (l ∈ held) then panic "acquire"
  else modify (set_k_held (l :: held)).

Definition release (l : lockid) : K unit :=
  held ← gets k_held;
  if decide (l ∈ held) then modify (set_k_held (filter (fun x => x ≠ l) held))
  else panic "release".

#[export] Instance kstate_inhabited : Inhabited kstate :=
  populate (mkk [] None [] None 0 0 [] inhabitant inhabitant [] [] ∅ [] ∅ 0 false inhabitant []
              false 0 0 false).

(** ** Lemmas on the state and on flag words *)

Lemma has_bit f k : 0 <= k -> has f (2 ^ k) = Z.testbit f k.
Proof.
  intros Hk. unfold has. destruct (Z.testbit f k) eqn:E.
  - destruct (Z.eqb_spec (Z.land f (2 ^ k)) 0) as [H0|]; [|done].
    apply (f_equal (fun z => Z.testbit z k)) in H0.
    rewrite Z.land_spec, Z.pow2_bits_true, E, Z.bits_0 in H0 by lia. done.
  - replace (Z.land f (2 ^ k)) with 0; [done|].
    apply Z.bits_inj'. intros n Hn. rewrite Z.bits_0, Z.land_spec.
    destruct (decide (n = k)) as [->|Hne].
    + by rewrite E.
    + rewrite Z.pow2_bits_false by lia. by rewrite andb_false_r.
Qed.

Lemma has_set f k m :
  0 <= k -> 0 <= m -> has (set_flag f (2 ^ k)) (2 ^ m) = (has f (2 ^ m) || (k =? m)).
Proof.
  intros. unfold set_flag. rewrite !has_bit, Z.lor_spec by done.
  f_equal. by rewrite Z.pow2_bits_eqb.
Qed.

Lemma has_clear f k m :
  0 <= k -> 0 <= m -> has (clear_flag f (2 ^ k)) (2 ^ m) = (has f (2 ^ m) && negb (k =? m)).
Proof.
  intros. unfold clear_flag. rewrite !has_bit, Z.land_spec, Z.lnot_spec by done.
  by rewrite Z.pow2_bits_eqb.
Qed.

Lemma land_two f j k :
  0 <= j -> 0 <= k -> j <> k ->
  (Z.land f (Z.lor (2 ^ j) (2 ^ k)) =? 2 ^ j) = has f (2 ^ j) && negb (has f (2 ^ k)).
Proof.
  intros Hj Hk Hne. rewrite !has_bit by done.
  destruct (Z.eqb_spec (Z.land f (Z.lor (2 ^ j) (2 ^ k))) (2 ^ j)) as [E|E].
  - pose proof (f_equal (fun z => Z.testbit z j) E) as Ej.
    pose proof (f_equal (fun z => Z.testbit z k) E) as Ek. simpl in Ej, Ek.
    rewrite Z.land_spec, Z.lor_spec, !Z.pow2_bits_eqb in Ej, Ek by lia.
    rewrite Z.eqb_refl in Ej, Ek.
    rewrite (proj2 (Z.eqb_neq j k)), (proj2 (Z.eqb_neq k j)) in * by lia.
    destruct (Z.testbit f j), (Z.testbit f k); done.
  - destruct (Z.testbit f j) eqn:Ej, (Z.testbit f k) eqn:Ek; try done.
    exfalso. apply E. apply Z.bits_inj'. intros n Hn.
    rewrite Z.land_spec, Z.lor_spec, !Z.pow2_bits_eqb by lia.
    destruct (Z.eqb_spec j n), (Z.eqb_spec k n); subst; try lia;
      rewrite ?Ej, ?Ek; by rewrite ?andb_false_r, ?andb_true_r.
Qed.

Lemma land_eqb f k : 0 <= k -> (Z.land f (2 ^ k) =? 0) = negb (has f (2 ^ k)).
Proof. intros. unfold has. by rewrite negb_involutive. Qed.

Lemma acquire_ok l s :
  l ∉ k_held s -> acquire l s = Ret tt (set_k_held (l :: k_held s) s).
Proof. intros H. unfold acquire, mbind, M_bind. simpl. by rewrite decide_False. Qed.

Lemma release_ok l h s :
  k_held s = l :: h -> l ∉ h -> release l s = Ret tt (set_k_held h s).
Proof.
  intros Hh Hn. unfold release, mbind, M_bind. simpl. rewrite Hh.
  rewrite decide_True by set_solver. rewrite filter_cons, decide_False by tauto.
  by rewrite filter_ne_id.
Qed.

(** [kst_eq] reduces an equation between two kernel states to the fields that
    are not equal by computation. *)
Lemma kst_ext s1 s2 :
  k_held s1 = k_held s2 ->
  k_cur s1 = k_cur s2 ->
  k_procs s1 = k_procs s2 ->
  k_initproc s1 = k_initproc s2 ->
  k_nextpid s1 = k_nextpid s2 ->
  k_ticks s1 = k_ticks s2 ->
  k_bufs s1 = k_bufs s2 ->
  k_disk s1 = k_disk s2 ->
  k_log s1 = k_log s2 ->
  k_inodes s1 = k_inodes s2 ->
  k_files s1 = k_files s2 ->
  k_pipes s1 = k_pipes s2 ->
  k_devsw s1 = k_devsw s2 ->
  k_mem s1 = k_mem s2 ->
  k_freelist s1 = k_freelist s2 ->
  k_uselock s1 = k_uselock s2 ->
  k_input s1 = k_input s2 ->
  k_out s1 = k_out s2 ->
  k_locking s1 = k_locking s2 ->
  k_kpgdir s1 = k_kpgdir s2 ->
  k_cr3 s1 = k_cr3 s2 ->
  k_first s1 = k_first s2 ->
  s1 = s2.
Proof. destruct s1, s2. simpl. by intros; subst. Qed.

Ltac kst_simpl :=
  unfold upd_proc, upd_buf, upd_log, upd_inode, upd_file, upd_pipe;
  cbn [set_k_held set_k_cur set_k_procs set_k_initproc set_k_nextpid set_k_ticks
    set_k_bufs set_k_disk set_k_log set_k_inodes set_k_files set_k_pipes
    set_k_devsw set_k_mem set_k_freelist set_k_uselock set_k_input set_k_out
    set_k_locking set_k_kpgdir set_k_cr3 set_k_first
    k_held k_cur k_procs k_initproc k_nextpid k_ticks k_bufs k_disk k_log
    k_inodes k_files k_pipes k_devsw k_mem k_freelist k_uselock k_input k_out
    k_locking k_kpgdir k_cr3 k_first].
Ltac kst_eq := apply kst_ext; kst_simpl; try reflexivity.

Lemma NBUF_eq : NBUF = 30%nat.
Proof. done. Qed.
Lemma NPROC_eq : NPROC = 64%nat.
Proof. done. Qed.
Lemma NFILE_eq : NFILE = 100%nat.
Proof. done. Qed.
Lemma NINODE_eq : NINODE = 50%nat.
Proof. done. Qed.
Lemma NOFILE_eq : NOFILE = 16%nat.
Proof. done. Qed.

(** Table sizes are not unfolded by conversion: [simpl] and unification would
    otherwise walk through tables entry by entry. *)
#[global] Opaque NBUF NPROC NFILE NINODE NOFILE.

(** The kernel after a reset, before [main] runs. *)
Definition reset_state (d : disk) : kstate :=
  mkk [] None (replicate 64 inhabitant) None 1 0 (replicate 31 inhabitant) d inhabitant
    (replicate 50 inhabitant) (replicate 100 inhabitant) ∅ [] ∅ 0 false inhabitant [] false 0 0 true.
