(* ===== verification/Strings.v ===== *)
(** * Memory and string functions ([string.c])

    Memory is a finite map from addresses to bytes; an address that was never
    written holds zero.  The functions are the loops of the source, and the
    theorems say what they compute on the arrays they are given: [memset]
    stores the same bytes whether it goes word by word or byte by byte,
    [memmove] copies correctly whatever the overlap, and the string functions
    agree with their definitions on lists of bytes. *)

From S2P Require Import Prelude.

Abbreviation mem := (gmap Z Z).

Definition ldb (m : mem) (a : Z) : Z := default 0 (m !! a).
Definition stb (a v : Z) (m : mem) : mem := <[a := u8 v]> m.

(** Arrays of bytes in memory. *)
Fixpoint store (a : Z) (l : list Z) (m : mem) : mem :=
  match l with
  | [] => m
  | b :: l' => store (a + 1) l' (<[a := b]> m)
  end.

Definition load (a : Z) (n : nat) (m : mem) : list Z :=
  map (fun i : nat => ldb m (a + Z.of_nat i)) (seq 0 n).

(** The string instructions of [x86.h]. *)
Fixpoint stosb (n : nat) (a c : Z) (m : mem) : mem :=
  match n with
  | O => m
  | S n' => stosb n' (a + 1) c (stb a c m)
  end.

Fixpoint stosl (n : nat) (a w : Z) (m : mem) : mem :=
  match n with
  | O => m
  | S n' => stosl n' (a + 4) w (store a (le_enc 4 w) m)
  end.

Definition memset (dst c n : Z) (m : mem) : mem :=
  if (dst mod 4 =? 0) && (n mod 4 =? 0) then
    let c := Z.land c 255 in
    stosl (Z.to_nat (n / 4)) dst
      (Z.lor (Z.lor (Z.lor (Z.shiftl c 24) (Z.shiftl c 16)) (Z.shiftl c 8)) c) m
  else stosb (Z.to_nat n) dst c m.

Fixpoint memcmp (n : nat) (s1 s2 : Z) (m : mem) : Z :=
  match n with
  | O => 0
  | S n' =>
      if ldb m s1 =? ldb m s2 then memcmp n' (s1 + 1) (s2 + 1) m
      else ldb m s1 - ldb m s2
  end.

(** The two loops of [memmove]. *)
Fixpoint copy_up (n : nat) (d s : Z) (m : mem) : mem :=
  match n with
  | O => m
  | S n' => copy_up n' (d + 1) (s + 1) (<[d := ldb m s]> m)
  end.

Fixpoint copy_down (n : nat) (d s : Z) (m : mem) : mem :=
  match n with
  | O => m
  | S n' => copy_down n' (d - 1) (s - 1) (<[d - 1 := ldb m (s - 1)]> m)
  end.

Definition memmove (dst src n : Z) (m : mem) : mem :=
  if (src <? dst) && (dst <? src + n)
  then copy_down (Z.to_nat n) (dst + n) (src + n) m
  else copy_up (Z.to_nat n) dst src m.

Definition memcpy (dst src n : Z) (m : mem) : mem := memmove dst src n m.

Fixpoint strncmp (n : nat) (p q : Z) (m : mem) : Z :=
  match n with
  | O => 0
  | S n' =>
      if negb (ldb m p =? 0) && (ldb m p =? ldb m q) then strncmp n' (p + 1) (q + 1) m
      else ldb m p - ldb m q
  end.

Fixpoint zero_fill (n : nat) (s : Z) (m : mem) : mem :=
  match n with
  | O => m
  | S n' => zero_fill n' (s + 1) (<[s := 0]> m)
  end.

Fixpoint strncpy (n : nat) (s t : Z) (m : mem) : mem :=
  match n with
  | O => m
  | S n' =>
      let c := ldb m t in
      let m' := <[s := c]> m in
      if c =? 0 then zero_fill n' (s + 1) m' else strncpy n' (s + 1) (t + 1) m'
  end.

(** [safestrcpy] after its test [n <= 0], for [n = S k]. *)
Fixpoint safestrcpy_loop (k : nat) (s t : Z) (m : mem) : mem :=
  match k with
  | O => <[s := 0]> m
  | S k' =>
      let c := ldb m t in
      let m' := <[s := c]> m in
      if c =? 0 then <[s + 1 := 0]> m' else safestrcpy_loop k' (s + 1) (t + 1) m'
  end.

Definition safestrcpy (s t n : Z) (m : mem) : mem :=
  if n <=? 0 then m else safestrcpy_loop (Z.to_nat (n - 1)) s t m.

(** [strlen]: [None] when no NUL is met within [fuel] bytes. *)
Fixpoint strlen_from (fuel : nat) (s n : Z) (m : mem) : option Z :=
  match fuel with
  | O => None
  | S fuel' => if ldb m (s + n) =? 0 then Some n else strlen_from fuel' s (n + 1) m
  end.

Definition strlen (fuel : nat) (s : Z) (m : mem) : option Z := strlen_from fuel s 0 m.

(** ** The same on lists of bytes

    A C string as the list of its bytes, which need not hold the terminating
    NUL: reading past the end of the list gives 0. *)

Definition cchar (l : list Z) : Z := hd 0 l.

Fixpoint strncmp_l (n : nat) (p q : list Z) : Z :=
  match n with
  | O => 0
  | S n' =>
      if negb (cchar p =? 0) && (cchar p =? cchar q) then strncmp_l n' (tl p) (tl q)
      else cchar p - cchar q
  end.

(** The bytes of a string up to its first NUL. *)
Fixpoint cstr (l : list Z) : list Z :=
  match l with
  | [] => []
  | c :: l' => if c =? 0 then [] else c :: cstr l'
  end.

(** The [n] bytes [strncpy] stores. *)
Definition strncpy_l (n : nat) (t : list Z) : list Z :=
  let t := take n (cstr t) in t ++ replicate (n - length t) 0.

(** The bytes [safestrcpy] stores in a buffer of [n] bytes: the string, cut to
    [n - 1] bytes, and a NUL; a copied NUL is followed by another one. *)
Definition safestrcpy_l (n : nat) (t : list Z) : list Z :=
  let c := cstr t in
  take (n - 1) c ++ (if (length c <? n - 1)%nat then [0; 0] else [0]).

(** ** Lemmas on loads and stores *)

Lemma lookup_store a l m x :
  store a l m !! x =
    if decide (a <= x < a + Z.of_nat (length l)) then l !! Z.to_nat (x - a) else m !! x.
Proof.
  revert a m. induction l as [|b l IH]; intros a m; simpl.
  - rewrite decide_False by lia. done.
  - rewrite IH. destruct (decide (x = a)) as [->|Hne].
    + rewrite decide_False, decide_True by lia. rewrite lookup_insert_eq.
      by replace (Z.to_nat (a - a)) with 0%nat by lia.
    + rewrite lookup_insert_ne by done. repeat case_decide; try lia; [|done].
      replace (Z.to_nat (x - a)) with (S (Z.to_nat (x - (a + 1)))) by lia. done.
Qed.

Lemma length_load a n m : length (load a n m) = n.
Proof. unfold load. by rewrite length_map, length_seq. Qed.

Lemma lookup_load a n m i :
  (i < n)%nat -> load a n m !! i = Some (ldb m (a + Z.of_nat i)).
Proof.
  intros Hi. unfold load. change (@map nat Z) with (@fmap list _ nat Z).
  rewrite list_lookup_fmap, lookup_seq_lt by done. done.
Qed.

Lemma load_S a n m : load a (S n) m = ldb m a :: load (a + 1) n m.
Proof.
  unfold load. cbn [seq map]. f_equal; [f_equal; lia|].
  rewrite <- seq_shift, map_map. apply map_ext. intros i. f_equal. lia.
Qed.

Lemma load_store a l m : load a (length l) (store a l m) = l.
Proof.
  apply list_eq. intros i. destruct (decide (i < length l)%nat) as [Hi|Hi].
  - rewrite lookup_load by done. unfold ldb. rewrite lookup_store, decide_True by lia.
    replace (Z.to_nat (a + Z.of_nat i - a)) with i by lia.
    destruct (lookup_lt_is_Some_2 _ _ Hi) as [x ->]. done.
  - rewrite !lookup_ge_None_2; [done|..]; rewrite ?length_load; lia.
Qed.

Lemma store_app a l1 l2 m :
  store a (l1 ++ l2) m = store (a + Z.of_nat (length l1)) l2 (store a l1 m).
Proof.
  revert a m. induction l1 as [|b l1 IH]; intros a m; simpl.
  - by rewrite Z.add_0_r.
  - rewrite IH. f_equal. lia.
Qed.

(** A store and a byte outside the array commute. *)
Lemma store_insert a l x v m :
  ~ (a <= x < a + Z.of_nat (length l)) -> store a l (<[x := v]> m) = <[x := v]> (store a l m).
Proof.
  intros Hx. apply map_eq. intros y. rewrite lookup_store. destruct (decide (y = x)) as [->|Hne].
  - rewrite decide_False by done. by rewrite !lookup_insert_eq.
  - rewrite !lookup_insert_ne, lookup_store by done. done.
Qed.

Lemma ldb_insert_eq a v m : ldb (<[a := v]> m) a = v.
Proof. unfold ldb. by rewrite lookup_insert_eq. Qed.
Lemma ldb_insert_ne a b v m : a <> b -> ldb (<[a := v]> m) b = ldb m b.
Proof. intros. unfold ldb. by rewrite lookup_insert_ne. Qed.

Lemma load_insert a n x v m :
  ~ (a <= x < a + Z.of_nat n) -> load a n (<[x := v]> m) = load a n m.
Proof.
  intros Hx. unfold load. apply map_ext_in. intros i Hi%in_seq. apply ldb_insert_ne. lia.
Qed.

(** ** [memset] *)

Lemma stosb_store n a c m : stosb n a c m = store a (replicate n (u8 c)) m.
Proof. revert a m. induction n as [|n IH]; intros a m; simpl; [done|]. by rewrite IH. Qed.

Lemma stosl_store n a w m : stosl n a w m = store a (concat (replicate n (le_enc 4 w))) m.
Proof.
  revert a m. induction n as [|n IH]; intros a m; [done|].
  cbn [stosl replicate concat]. rewrite IH, store_app, length_le_enc. done.
Qed.

(** The word [memset] builds repeats the byte four times. *)
Lemma memset_word c :
  let c' := Z.land c 255 in
  le_enc 4 (Z.lor (Z.lor (Z.lor (Z.shiftl c' 24) (Z.shiftl c' 16)) (Z.shiftl c' 8)) c')
  = replicate 4 (u8 c).
Proof.
  assert (forallb (fun x => bool_decide (
    le_enc 4 (Z.lor (Z.lor (Z.lor (Z.shiftl x 24) (Z.shiftl x 16)) (Z.shiftl x 8)) x)
    = replicate 4 x)) (map Z.of_nat (seq 0 256)) = true) as Hall by (vm_compute; reflexivity).
  change 255 with (Z.ones 8). rewrite Z.land_ones by lia. change (c mod 2 ^ 8) with (u8 c).
  pose proof (u8_range c). rewrite forallb_forall in Hall.
  eapply bool_decide_eq_true_1, Hall. apply in_map_iff.
  exists (Z.to_nat (u8 c)). split; [lia|]. apply in_seq. lia.
Qed.

Lemma concat_replicate {A} n k (x : A) : concat (replicate n (replicate k x)) = replicate (n * k) x.
Proof. induction n as [|n IH]; [done|]. cbn [replicate concat]. by rewrite IH, <- replicate_add. Qed.

Lemma memset_ok dst c n m :
  0 <= n -> memset dst c n m = store dst (replicate (Z.to_nat n) (u8 c)) m.
Proof.
  intros Hn. unfold memset.
  destruct ((dst mod 4 =? 0) && (n mod 4 =? 0)) eqn:E; [|apply stosb_store].
  apply andb_true_iff in E as [_ E%Z.eqb_eq].
  rewrite stosl_store, memset_word, concat_replicate. f_equal. f_equal.
  pose proof (Z.div_mod n 4). lia.
Qed.

(** ** [memmove] *)

Lemma copy_up_ok n d s m :
  ~ (s < d < s + Z.of_nat n) -> copy_up n d s m = store d (load s n m) m.
Proof.
  revert d s m. induction n as [|n IH]; intros d s m Hov; [done|].
  rewrite load_S. cbn [copy_up store]. rewrite IH by lia. f_equal.
  apply load_insert. lia.
Qed.

Lemma load_snoc a n m : load a (S n) m = load a n m ++ [ldb m (a + Z.of_nat n)].
Proof. unfold load. by rewrite seq_S, map_app. Qed.

Lemma copy_down_ok n d s m :
  s < d -> copy_down n (d + Z.of_nat n) (s + Z.of_nat n) m = store d (load s n m) m.
Proof.
  intros Hsd. revert m. induction n as [|n IH]; intros m; [done|].
  cbn [copy_down].
  replace (d + Z.of_nat (S n) - 1) with (d + Z.of_nat n) by lia.
  replace (s + Z.of_nat (S n) - 1) with (s + Z.of_nat n) by lia.
  rewrite IH, load_snoc, store_app, length_load. simpl.
  rewrite load_insert by lia. rewrite store_insert; [done|]. rewrite length_load. lia.
Qed.

Lemma memmove_ok dst src n m :
  0 <= n -> memmove dst src n m = store dst (load src (Z.to_nat n) m) m.
Proof.
  intros Hn. unfold memmove. destruct (Z.ltb_spec src dst), (Z.ltb_spec dst (src + n)); simpl;
    try (apply copy_up_ok; lia).
  rewrite <- copy_down_ok by done. by rewrite !Z2Nat.id by lia.
Qed.

(** ** Comparing and copying strings *)

Lemma memcmp_ok n s1 s2 m : memcmp n s1 s2 m = 0 <-> load s1 n m = load s2 n m.
Proof.
  revert s1 s2. induction n as [|n IH]; intros s1 s2; [done|].
  rewrite !load_S. cbn [memcmp]. destruct (Z.eqb_spec (ldb m s1) (ldb m s2)) as [->|Hne].
  - rewrite IH. split; [by intros ->|congruence].
  - split; [lia|congruence].
Qed.

Lemma strncmp_load n p q m : strncmp n p q m = strncmp_l n (load p n m) (load q n m).
Proof.
  revert p q. induction n as [|n IH]; intros p q; [done|].
  rewrite !load_S. cbn [strncmp strncmp_l cchar hd tl]. by rewrite IH.
Qed.

(** [strncmp] compares the strings up to the first NUL or [n] bytes. *)
Lemma strncmp_l_eq n p q : strncmp_l n p q = 0 <-> take n (cstr p) = take n (cstr q).
Proof.
  revert p q. induction n as [|n IH]; intros p q; [done|]. cbn [strncmp_l].
  destruct p as [|a p], q as [|b q]; simpl; unfold cchar; simpl.
  - done.
  - destruct (Z.eqb_spec b 0) as [->|]; [done|]. split; [lia|done].
  - destruct (Z.eqb_spec a 0) as [->|]; [done|]. simpl. split; [lia|done].
  - destruct (Z.eqb_spec a 0) as [->|Ha], (Z.eqb_spec b 0) as [->|Hb]; simpl; try (split; [lia|done]).
    + done.
    + rewrite (proj2 (Z.eqb_neq a 0) Ha). split; [lia|done].
    + destruct (Z.eqb_spec a b) as [->|Hne]; simpl.
      * rewrite IH. split; [by intros ->|by intros [= ->]].
      * split; [lia|]. intros [= ]. congruence.
Qed.

Lemma zero_fill_store n s m : zero_fill n s m = store s (replicate n 0) m.
Proof. revert s m. induction n as [|n IH]; intros s m; simpl; [done|]. by rewrite IH. Qed.

Lemma strncpy_l_cons n c t :
  strncpy_l (S n) (c :: t) = if c =? 0 then 0 :: replicate n 0 else c :: strncpy_l n t.
Proof. unfold strncpy_l. simpl. by destruct (c =? 0). Qed.

(** [strncpy] between arrays that do not overlap. *)
Lemma strncpy_ok n s t m :
  s + Z.of_nat n <= t \/ t + Z.of_nat n <= s ->
  strncpy n s t m = store s (strncpy_l n (load t n m)) m.
Proof.
  revert s t m. induction n as [|n IH]; intros s t m Hd; [done|].
  rewrite load_S, strncpy_l_cons. cbn [strncpy].
  destruct (Z.eqb_spec (ldb m t) 0) as [E|E].
  - rewrite zero_fill_store, E. done.
  - rewrite IH by lia. rewrite load_insert by lia. done.
Qed.

Lemma strlen_from_ok fuel s n k m :
  (k < fuel)%nat -> ldb m (s + n + Z.of_nat k) = 0 ->
  (forall i, (i < k)%nat -> ldb m (s + n + Z.of_nat i) <> 0) ->
  strlen_from fuel s n m = Some (n + Z.of_nat k).
Proof.
  revert n k. induction fuel as [|fuel IH]; intros n k Hk H0 Hne; [lia|]. cbn [strlen_from].
  destruct k as [|k].
  - rewrite (proj2 (Z.eqb_eq _ 0)); [f_equal; lia|]. rewrite <- H0. f_equal. lia.
  - rewrite (proj2 (Z.eqb_neq _ 0)).
    + rewrite (IH (n + 1) k); [f_equal; lia|lia| |].
      * rewrite <- H0. f_equal. lia.
      * intros i Hi. replace (s + (n + 1) + Z.of_nat i) with (s + n + Z.of_nat (S i)) by lia.
        apply Hne. lia.
    + intros E. apply (Hne 0%nat); [lia|]. rewrite <- E. f_equal. lia.
Qed.

Lemma safestrcpy_l_cons k c t :
  c <> 0 -> safestrcpy_l (S (S k)) (c :: t) = c :: safestrcpy_l (S k) t.
Proof.
  intros Hc. unfold safestrcpy_l. simpl. rewrite (proj2 (Z.eqb_neq c 0) Hc). simpl.
  by rewrite Nat.sub_0_r.
Qed.

Lemma safestrcpy_loop_ok k s t m :
  s + Z.of_nat (S k) <= t \/ t + Z.of_nat (S k) <= s ->
  safestrcpy_loop k s t m = store s (safestrcpy_l (S k) (load t k m)) m.
Proof.
  revert s t m. induction k as [|k IH]; intros s t m Hd; [done|].
  cbn [safestrcpy_loop]. rewrite load_S. destruct (Z.eqb_spec (ldb m t) 0) as [E|E].
  - unfold safestrcpy_l. simpl. by rewrite E.
  - rewrite safestrcpy_l_cons, IH by (done || lia). rewrite load_insert by lia. done.
Qed.

(** What [safestrcpy] stores fits the buffer and ends with a NUL. *)
Lemma safestrcpy_l_fits n t :
  (0 < n)%nat -> (length (safestrcpy_l n t) <= n)%nat /\ cstr (safestrcpy_l n t) = take (n - 1) (cstr t).
Proof.
  intros Hn. unfold safestrcpy_l. split.
  - rewrite length_app, length_take. destruct (Nat.ltb_spec (length (cstr t)) (n - 1)); simpl; lia.
  - assert (forall l z, cstr (take (n - 1) (cstr l) ++ 0 :: z) = take (n - 1) (cstr l)) as Hc.
    { generalize (n - 1)%nat. intros k l z. revert k. induction l as [|c l IH]; intros k; simpl.
      - by rewrite take_nil.
      - destruct (Z.eqb_spec c 0); [by rewrite take_nil|]. destruct k; [done|]. simpl.
        rewrite (proj2 (Z.eqb_neq c 0)) by done. by rewrite IH. }
    by destruct (length (cstr t) <? n - 1)%nat; apply Hc.
Qed.

(** ** The properties of [string.c] *)

Lemma store_out a l m x : ~ (a <= x < a + Z.of_nat (length l)) -> store a l m !! x = m !! x.
Proof. intros Hx. by rewrite lookup_store, decide_False. Qed.

(** [memset] stores [n] copies of the byte [c], in the word-wise and in the
    byte-wise variant alike, and changes no other byte. *)
Theorem memset_fills dst c n m :
  0 <= n ->
  load dst (Z.to_nat n) (memset dst c n m) = replicate (Z.to_nat n) (u8 c) /\
  forall a, ~ (dst <= a < dst + n) -> memset dst c n m !! a = m !! a.
Proof.
  intros Hn. rewrite memset_ok by done. split.
  - rewrite <- (length_replicate (Z.to_nat n) (u8 c)) at 1. apply load_store.
  - intros a Ha. apply store_out. rewrite length_replicate. lia.
Qed.

Lemma memset_fills_witness : load 8 4 (memset 8 511 4 ∅) = replicate 4 255.
Proof. apply (memset_fills 8 511 4 ∅). lia. Defined.

(** [memmove] copies [n] bytes, whatever the overlap of the two arrays, and
    changes no byte outside of the destination. *)
Theorem memmove_copies dst src n m :
  0 <= n ->
  load dst (Z.to_nat n) (memmove dst src n m) = load src (Z.to_nat n) m /\
  forall a, ~ (dst <= a < dst + n) -> memmove dst src n m !! a = m !! a.
Proof.
  intros Hn. rewrite memmove_ok by done. split.
  - rewrite <- (length_load src (Z.to_nat n) m) at 1. apply load_store.
  - intros a Ha. apply store_out. rewrite length_load. lia.
Qed.

Lemma memmove_copies_witness :
  load 11 3 (memmove 11 10 3 (store 10 [1; 2; 3; 4] ∅)) = [1; 2; 3].
Proof.
  destruct (memmove_copies 11 10 3 (store 10 [1; 2; 3; 4] ∅)) as [H _]; [lia|].
  etransitivity; [exact H|reflexivity].
Defined.

(** A string in memory that holds its NUL. *)
Lemma cstr_app l k : 0 ∈ l -> cstr (l ++ k) = cstr l.
Proof.
  induction l as [|c l IH]; intros H0; [by apply not_elem_of_nil in H0|]. simpl.
  destruct (Z.eqb_spec c 0); [done|]. f_equal. apply IH.
  apply elem_of_cons in H0 as [H0|H0]; [congruence|done].
Qed.

Lemma load_store_app a l m n :
  (length l <= n)%nat ->
  load a n (store a l m) = l ++ load (a + Z.of_nat (length l)) (n - length l) m.
Proof.
  intros Hn. apply list_eq. intros i. destruct (decide (i < n)%nat) as [Hi|Hi].
  - rewrite lookup_load by done. unfold ldb. rewrite lookup_store. case_decide as Hd.
    + rewrite lookup_app_l by lia. replace (Z.to_nat (a + Z.of_nat i - a)) with i by lia.
      destruct (lookup_lt_is_Some_2 l i) as [x ->]; [lia|done].
    + rewrite lookup_app_r by lia. rewrite lookup_load by lia. unfold ldb. do 3 f_equal. lia.
  - rewrite !lookup_ge_None_2; [done|rewrite length_app|]; rewrite length_load; lia.
Qed.

(** [safestrcpy] leaves a terminated string in its buffer of [n] bytes: the
    source, cut to [n - 1] bytes when it is longer; no byte outside of the
    buffer changes. *)
Theorem safestrcpy_terminates s t n m :
  0 < n -> s + n <= t \/ t + n <= s ->
  let m' := safestrcpy s t n m in
  (0 ∈ load s (Z.to_nat n) m') /\
  cstr (load s (Z.to_nat n) m') = take (Z.to_nat (n - 1)) (cstr (load t (Z.to_nat (n - 1)) m)) /\
  forall a, ~ (s <= a < s + n) -> m' !! a = m !! a.
Proof.
  intros Hn Hd. unfold safestrcpy. destruct (Z.leb_spec n 0); [lia|]. cbv zeta.
  set (k := Z.to_nat (n - 1)). assert (Z.to_nat n = S k) as -> by lia.
  rewrite safestrcpy_loop_ok by lia. set (src := load t k m).
  destruct (safestrcpy_l_fits (S k) src ltac:(lia)) as [Hl Hc]. rewrite load_store_app by done.
  assert (0 ∈ safestrcpy_l (S k) src) as H0.
  { unfold safestrcpy_l. apply elem_of_app. right. destruct (_ <? _)%nat; apply elem_of_cons; by left. }
  split; [apply elem_of_app; by left|]. split; [|intros a Ha; apply store_out; lia].
  rewrite cstr_app by done. rewrite Hc. by replace (S k - 1)%nat with k by lia.
Qed.

Lemma safestrcpy_terminates_witness :
  cstr (load 0 3 (safestrcpy 0 10 3 (store 10 [1; 2; 3; 4] ∅))) = [1; 2].
Proof.
  destruct (safestrcpy_terminates 0 10 3 (store 10 [1; 2; 3; 4] ∅)) as (_ & H & _); [lia|lia|].
  etransitivity; [exact H|reflexivity].
Defined.
