(* ===== verification/Dll.v ===== *)
(** * Circular doubly linked lists

    The buffer cache links its buffers through [prev]/[next] pointers into a
    circular list with a head node ([bcache.head] of [bio.c]).  Here [nx] and
    [pv] are the two pointer fields as functions of the node; [chain nx pv x l y]
    says that following [next] from [x] visits exactly [l] and then [y], and
    that the [prev] pointers go back the same way. *)

From S2P Require Import Prelude.

Fixpoint chain (nx pv : nat -> nat) (x : nat) (l : list nat) (y : nat) : Prop :=
  match l with
  | [] => nx x = y /\ pv y = x
  | z :: l' => nx x = z /\ pv z = x /\ chain nx pv z l' y
  end.

Section Chain.
Implicit Types (nx pv : nat -> nat) (x y b : nat) (l : list nat).

Lemma chain_ext nx pv nx' pv' x l y :
  (forall i, i ∈ x :: l -> nx' i = nx i) ->
  (forall i, i ∈ l ++ [y] -> pv' i = pv i) ->
  chain nx pv x l y -> chain nx' pv' x l y.
Proof.
  revert x. induction l as [|z l IH]; intros x Hn Hp; simpl.
  - rewrite Hn, Hp by (apply elem_of_cons; auto). done.
  - rewrite Hn, Hp by (apply elem_of_cons; auto). intros (? & ? & Hc).
    repeat split; auto. apply IH; auto; intros i Hi; [apply Hn | apply Hp];
      apply elem_of_cons; auto.
Qed.

Lemma chain_app nx pv x l1 b l2 y :
  chain nx pv x (l1 ++ b :: l2) y <-> chain nx pv x l1 b /\ chain nx pv b l2 y.
Proof.
  revert x. induction l1 as [|z l1 IH]; intros x; simpl.
  - tauto.
  - rewrite IH. tauto.
Qed.

Lemma chain_prev_last nx pv x l b : chain nx pv x l b -> pv b ∈ x :: l.
Proof.
  revert x. induction l as [|z l IH]; intros x; simpl.
  - intros [_ ->]. set_solver.
  - intros (_ & _ & Hc). apply IH in Hc. set_solver.
Qed.

Lemma chain_next_first nx pv b l y : chain nx pv b l y -> nx b ∈ l ++ [y].
Proof. destruct l; simpl; intuition; subst; set_solver. Qed.

(** The [next] walk from [x] meets the nodes of [l] in order. *)
Lemma chain_nth_next nx pv x l y i :
  chain nx pv x l y -> (i <= length l)%nat ->
  nx (default x ((x :: l) !! i)) = default y (l !! i).
Proof.
  revert x i. induction l as [|z l IH]; intros x i Hc Hi; simpl in Hc.
  - assert (i = 0%nat) as -> by (simpl in Hi; lia). simpl. tauto.
  - destruct Hc as (Hx & _ & Hc). destruct i as [|i]; [done|].
    simpl in Hi. specialize (IH z i Hc ltac:(lia)).
    change ((x :: z :: l) !! S i) with ((z :: l) !! i).
    change ((z :: l) !! S i) with (l !! i).
    rewrite <- IH. f_equal.
    destruct (lookup_lt_is_Some_2 (z :: l) i) as [w Hw]; [simpl; lia|].
    by rewrite Hw.
Qed.

(** Reversing a list swaps the roles of the two pointers. *)
Lemma chain_snoc nx pv x l b y :
  chain nx pv x l b -> nx b = y -> pv y = b -> chain nx pv x (l ++ [b]) y.
Proof.
  intros. change (l ++ [b]) with (l ++ b :: []). apply chain_app. simpl. auto.
Qed.

Lemma chain_rev nx pv x l y : chain nx pv x l y -> chain pv nx y (reverse l) x.
Proof.
  revert x. induction l as [|z l IH]; intros x; simpl.
  - tauto.
  - intros (? & ? & Hc). rewrite reverse_cons. apply chain_snoc; auto.
Qed.

(** Taking a node out: [p->next = q; q->prev = p] with [p] and [q] the
    neighbours of [b]. *)
Lemma chain_unlink nx pv x l1 b l2 y :
  NoDup (x :: l1 ++ b :: l2) -> y ∉ l1 -> y ∉ b :: l2 ->
  chain nx pv x l1 b -> chain nx pv b l2 y ->
  chain (<[pv b := nx b]> nx) (<[nx b := pv b]> pv) x (l1 ++ l2) y.
Proof.
  revert x. induction l1 as [|z l1 IH]; intros x Hnd Hy1 Hy2 H1 H2.
  - simpl in H1. destruct H1 as [Hx Hb]. rewrite Hb. simpl.
    apply NoDup_cons in Hnd as [Hxn Hnd]. simpl in Hxn, Hnd.
    apply NoDup_cons in Hnd as [Hbn Hnd].
    destruct l2 as [|z l2]; simpl in *.
    + destruct H2 as [-> H2]. by rewrite !fn_lookup_insert.
    + destruct H2 as (Hz & Hpz & Hc). rewrite Hz. rewrite !fn_lookup_insert.
      repeat split; auto. apply NoDup_cons in Hnd as [Hzn Hnd].
      revert Hc. apply chain_ext; intros i Hi; apply fn_lookup_insert_ne; set_solver.
  - simpl in H1. destruct H1 as (Hxz & Hzx & Hc1).
    pose proof (chain_prev_last _ _ _ _ _ Hc1) as Hp.
    pose proof (chain_next_first _ _ _ _ _ H2) as Hq.
    change ((z :: l1) ++ b :: l2) with (z :: (l1 ++ b :: l2)) in Hnd.
    apply NoDup_cons in Hnd as [Hxn Hnd].
    pose proof Hnd as Hnd'. apply NoDup_cons in Hnd' as [Hzn _].
    simpl. repeat split.
    + rewrite fn_lookup_insert_ne; [done|]. intros Heq. apply Hxn.
      rewrite <- Heq. clear -Hp. set_solver.
    + rewrite fn_lookup_insert_ne; [done|]. intros Heq. rewrite Heq in Hq.
      clear -Hq Hzn Hy1. set_solver.
    + apply IH; auto. clear -Hy1. set_solver.
Qed.

(** Inserting a node behind the head [x]. *)
Lemma chain_push nx pv x b l y :
  NoDup (x :: l) -> b ∉ x :: l -> b ≠ y -> y ∉ l ->
  chain nx pv x l y ->
  chain (<[x := b]> (<[b := nx x]> nx)) (<[nx x := b]> (<[b := x]> pv)) x (b :: l) y.
Proof.
  intros Hnd Hb Hby Hy Hc. pose proof (chain_next_first _ _ _ _ _ Hc) as Hq.
  simpl. rewrite fn_lookup_insert. split; [done|]. split.
  { rewrite fn_lookup_insert_ne by set_solver. by rewrite fn_lookup_insert. }
  apply NoDup_cons in Hnd as [Hxn Hnd].
  destruct l as [|z l]; simpl in *.
  - destruct Hc as [-> Hp]. rewrite fn_lookup_insert. split; [|done].
    rewrite fn_lookup_insert_ne by set_solver. by rewrite fn_lookup_insert.
  - destruct Hc as (Hz & Hpz & Hc). rewrite Hz. apply NoDup_cons in Hnd as [Hzn Hnd].
    repeat split.
    + rewrite fn_lookup_insert_ne by set_solver. by rewrite fn_lookup_insert.
    + by rewrite fn_lookup_insert.
    + revert Hc. apply chain_ext; intros i Hi.
      * rewrite !fn_lookup_insert_ne by set_solver. done.
      * rewrite !fn_lookup_insert_ne by set_solver. done.
Qed.
End Chain.
