(* ===== verification/Sched.v ===== *)
(** * Giving up the CPU: the part of [proc.c] every component uses

    [sched], [yield], [sleep], [wakeup1], [wakeup] and [kill].  The code of
    [sched], [sleep] and [wakeup] is written once over the lock operations and
    the switch it uses: here they are those of the kernel model, in which a
    process runs undisturbed up to its next switch, and in file [Wakeup] those
    of several CPUs that run the code interleaved at every lock operation. *)

From S2P Require Import Prelude Monad State.

(** The [proc] variable, dereferenced: a null pointer access otherwise. *)
Definition curproc : K nat :=
  c ← gets k_cur;
  match c with
  | Some p => mret p
  | None => undef
  end.

(** [swtch(&proc->context, cpu->scheduler)]: the rest of the function runs
    when the scheduler switches back. *)
Definition swtch_to_scheduler : K unit := fun s => Switch s (fun s' => Ret tt s').

(** [sched].  The test of the interrupt flag is absent: interrupts are off
    while a lock is held (theorem [Spinlock.held_interrupts_off]); so is the
    save of [cpu->intena] around the switch, a field of file [Spinlock] only. *)
Definition sched_with (swtch : K unit) : K unit :=
  held ← gets k_held;
  if negb (bool_decide (LkPtable ∈ held)) then panic "sched ptable.lock"
  else if negb (bool_decide (length held = 1%nat)) then panic "sched locks"
  else
    p ← curproc;
    r ← getproc p;
    if bool_decide (p_state r = RUNNING) then panic "sched running"
    else swtch.

Definition sched : K unit := sched_with swtch_to_scheduler.

Definition yield : K unit :=
  acquire LkPtable;;
  p ← curproc;
  modify (upd_proc p (set_p_state RUNNABLE));;
  sched;;
  release LkPtable.

Definition sleep_with (acquire release : lockid -> K unit) (sched : K unit)
    (ch : chan) (lk : lockid) : K unit :=
  c ← gets k_cur;
  match c with
  | None => panic "sleep"
  | Some p =>
      (if bool_decide (lk ≠ LkPtable) then acquire LkPtable;; release lk else mret tt);;
      modify (upd_proc p (set_p_chan (Some ch)));;
      modify (upd_proc p (set_p_state SLEEPING));;
      sched;;
      p' ← curproc;
      modify (upd_proc p' (set_p_chan None));;
      (if bool_decide (lk ≠ LkPtable) then release LkPtable;; acquire lk else mret tt)
  end.

Definition sleep : chan -> lockid -> K unit := sleep_with acquire release sched.

Definition wake (ch : chan) (r : proc) : proc :=
  if bool_decide (p_state r = SLEEPING /\ p_chan r = Some ch)
  then set_p_state RUNNABLE r else r.

Definition wakeup1 (ch : chan) : K unit :=
  for_each (seq 0 NPROC) (fun p => modify (upd_proc p (wake ch))).

Definition wakeup_with (acquire release : lockid -> K unit) (ch : chan) : K unit :=
  acquire LkPtable;;
  wakeup1 ch;;
  release LkPtable.

Definition wakeup : chan -> K unit := wakeup_with acquire release.

Definition kill (pid : Z) : K Z :=
  acquire LkPtable;;
  r ← scan (seq 0 NPROC) (fun p =>
        r ← getproc p;
        if p_pid r =? pid then
          modify (upd_proc p (set_p_killed true));;
          (if bool_decide (p_state r = SLEEPING)
           then modify (upd_proc p (set_p_state RUNNABLE)) else mret tt);;
          release LkPtable;;
          mret (Some 0)
        else mret None);
  match r with
  | Some x => mret x
  | None => release LkPtable;; mret (-1)
  end.

(** ** Wakeups change nothing but the state of sleeping processes *)

Lemma for_each_upd_proc (f : proc -> proc) (ix : list nat) s :
  for_each ix (fun p => modify (upd_proc p f)) s
  = Ret tt (set_k_procs (alter_all f ix (k_procs s)) s).
Proof.
  revert s. induction ix as [|i ix IH]; intros s.
  - by destruct s.
  - cbn [for_each]. unfold mbind, M_bind. simpl obind. rewrite IH. by destruct s.
Qed.

Lemma wakeup1_ok ch s :
  (length (k_procs s) <= NPROC)%nat ->
  wakeup1 ch s = Ret tt (set_k_procs (wake ch <$> k_procs s) s).
Proof. intros. unfold wakeup1. by rewrite for_each_upd_proc, alter_all_fmap. Qed.

Lemma wakeup_ok ch s :
  LkPtable ∉ k_held s -> (length (k_procs s) <= NPROC)%nat ->
  wakeup ch s = Ret tt (set_k_procs (wake ch <$> k_procs s) s).
Proof.
  intros Hl Hn. unfold wakeup, wakeup_with.
  rewrite (bind_Ret _ _ _ _ _ (acquire_ok _ _ Hl)).
  erewrite bind_Ret by (by apply wakeup1_ok).
  erewrite release_ok; [|done|done]. by destruct s.
Qed.

(** The process table after some wakeups. *)
Definition woken (ps ps' : list proc) : Prop :=
  Forall2 (fun p p' => p' = p \/ (p_state p = SLEEPING /\ p' = set_p_state RUNNABLE p)) ps ps'.

#[export] Instance woken_refl : Reflexive woken.
Proof. intros ps. apply Forall2_same_length_lookup_2; [done|]. intros. left. congruence. Qed.

#[export] Instance woken_trans : Transitive woken.
Proof.
  intros p1 p2 p3 H12. revert p3. induction H12 as [|x y l k Hxy Hlk IH]; intros p3 H23.
  - by inversion H23.
  - apply Forall2_cons_inv_l in H23 as (z & p3' & Hyz & H23 & ->).
    constructor; [|by apply IH].
    destruct Hxy as [->|[Hs ->]], Hyz as [->|[Hs' ->]]; auto.
Qed.

Lemma woken_wake ch ps : woken ps (wake ch <$> ps).
Proof.
  unfold woken. apply Forall2_fmap_r, Forall2_same_length_lookup_2; [done|].
  intros i x y Hx Hy. assert (y = x) as -> by congruence. simpl.
  unfold wake. case_bool_decide as Hc; [right; by destruct Hc|by left].
Qed.

Lemma woken_length ps ps' : woken ps ps' -> length ps' = length ps.
Proof. intros H. symmetry. eapply Forall2_length, H. Qed.

(** ** Going to sleep *)

Lemma sched_switch s p :
  k_held s = [LkPtable] -> k_cur s = Some p -> p_state (k_procs s !!! p) <> RUNNING ->
  sched s = Switch s (fun s' => Ret tt s').
Proof.
  intros Hh Hc Hr. unfold sched, sched_with, mbind, M_bind. cbn [obind gets]. rewrite Hh.
  rewrite !bool_decide_true by (done || set_solver). cbn [negb].
  unfold curproc, mbind, M_bind. cbn [obind gets]. rewrite Hc. simpl.
  by rewrite bool_decide_false.
Qed.

(** What a sleeping process leaves behind when it gives up the CPU. *)
Definition asleep (p : nat) (ch : chan) (s : kstate) : kstate :=
  upd_proc p (fun r => set_p_state SLEEPING (set_p_chan (Some ch) r)) (set_k_held [LkPtable] s).

(** And what it finds when it runs again, the lock it slept with included. *)
Definition awake (p : nat) (lk : lockid) (s : kstate) : kstate :=
  upd_proc p (set_p_chan None) (set_k_held [lk] s).

Lemma sleep_switch ch lk s p :
  lk <> LkPtable -> k_held s = [lk] -> k_cur s = Some p -> (p < length (k_procs s))%nat ->
  exists k, sleep ch lk s = Switch (asleep p ch s) k /\
    forall s', k_held s' = [LkPtable] -> k_cur s' = Some p -> k s' = Ret tt (awake p lk s').
Proof.
  intros Hlk Hh Hc Hp. unfold sleep, sleep_with. kstep. rewrite Hc. rewrite (bool_decide_true _ Hlk).
  assert ((acquire LkPtable;; release lk) s = Ret tt (set_k_held [LkPtable] s)) as Ha.
  { kstep_by ltac:(apply acquire_ok; rewrite Hh; set_solver).
    unfold release, mbind, M_bind. simpl. rewrite Hh, decide_True by set_solver.
    rewrite !filter_cons, decide_True, decide_False by (done || naive_solver). by destruct s. }
  kstep_by ltac:(exact Ha). kstep. kstep.
  match goal with |- context [sched ≫= _] => unfold mbind at 1, M_bind at 1 end.
  rewrite (sched_switch _ p); [|done|done|].
  2: { unfold upd_proc. cbn [k_procs set_k_procs set_k_held].
       rewrite list_alter_alter_eq, lookup_total_alter, decide_True by done. done. }
  cbn [obind]. eexists. split; [f_equal; kst_eq; by rewrite list_alter_alter_eq|].
  intros s' Hh' Hc'. simpl. unfold curproc, mbind, M_bind. cbn [obind gets]. rewrite Hc'. simpl.
  rewrite (release_ok LkPtable []) by (done || set_solver). simpl.
  rewrite acquire_ok by (simpl; set_solver). f_equal. 
Qed.

(** [sleep] gives up the caller's lock and the CPU with the
    process already marked as sleeping on the channel and the lock of the
    process table held, so a [wakeup] that runs at any later moment finds the
    process and makes it runnable; when the process is resumed [sleep] returns
    with the caller's lock held again and the channel cleared. *)
Theorem sleep_wakeup ch lk s p :
  lk <> LkPtable -> k_held s = [lk] -> k_cur s = Some p -> (p < length (k_procs s))%nat ->
  exists s1 k, sleep ch lk s = Switch s1 k /\ k_held s1 = [LkPtable] /\
    p_state (k_procs s1 !!! p) = SLEEPING /\ p_chan (k_procs s1 !!! p) = Some ch /\
    (forall s2, (LkPtable ∉ k_held s2) -> (p < length (k_procs s2) <= NPROC)%nat ->
       k_procs s2 !!! p = k_procs s1 !!! p ->
       exists s3, wakeup ch s2 = Ret tt s3 /\ p_state (k_procs s3 !!! p) = RUNNABLE) /\
    (forall s2, k_held s2 = [LkPtable] -> k_cur s2 = Some p -> (p < length (k_procs s2))%nat ->
       exists s3, k s2 = Ret tt s3 /\ k_held s3 = [lk] /\ p_chan (k_procs s3 !!! p) = None).
Proof.
  intros Hlk Hh Hc Hp. destruct (sleep_switch ch lk s p Hlk Hh Hc Hp) as (k & Hs & Hk).
  exists (asleep p ch s), k. split; [done|]. split; [done|].
  assert (k_procs (asleep p ch s) !!! p = set_p_state SLEEPING (set_p_chan (Some ch) (k_procs s !!! p))) as E.
  { unfold asleep. simpl. by rewrite lookup_total_alter, decide_True. }
  rewrite E. do 2 (split; [done|]). split.
  - intros s2 Hl Hn E2. eexists. split; [by apply wakeup_ok; [|lia]|]. simpl.
    rewrite (list_lookup_total_fmap (wake ch)) by lia. rewrite E2. unfold wake. simpl. by rewrite bool_decide_true.
  - intros s2 Hh2 Hc2 Hp2. eexists. split; [by apply Hk|]. split; [done|].
    simpl. by rewrite lookup_total_alter, decide_True.
Qed.

Lemma sleep_wakeup_witness :
  let s := set_k_cur (Some 0%nat) (set_k_held [LkLog] (reset_state (mkdisk ∅ 0 []))) in
  exists s1 k, sleep ChLog LkLog s = Switch s1 k /\ p_chan (k_procs s1 !!! 0%nat) = Some ChLog.
Proof.
  intros s. destruct (sleep_wakeup ChLog LkLog s 0) as (s1 & k & H1 & _ & _ & H2 & _).
  - discriminate.
  - reflexivity.
  - reflexivity.
  - simpl. lia.
  - exists s1, k. split; [exact H1|exact H2].
Defined.
