(* ===== verification/Wakeup.v ===== *)
(** * No wakeup is lost ([sleep] and [wakeup] of [proc.c] on several CPUs)

    The code of [sleep], [sched] and [wakeup] of file [Sched], run by any
    number of threads of the kernel that interleave at every acquisition and
    every release of a lock.  A thread is a process that waits in the way all
    of the kernel waits, [while(!cond) sleep(chan, lk)] with [lk] held, or
    code that makes the condition true and calls [wakeup(chan)] with [lk]
    held, in a process or in an interrupt handler. *)

From S2P Require Import Prelude Monad State Sched.

(** ** The lock operations of several CPUs *)

(** Another thread may run here. *)
Definition preempt : K unit := fun s => Switch s (fun s' => Ret tt s').

(** [acquire] and [release] of the thread's own locks; a step of a thread
    that takes a lock another thread holds is not possible ([tstep] below):
    the thread spins. *)
Definition acq (l : lockid) : K unit := preempt;; acquire l.
Definition rel (l : lockid) : K unit := preempt;; release l.

(** What [swtch] amounts to for the process that calls it: the scheduler of
    its CPU lets go of the lock of the process table, and some CPU's scheduler
    takes it again, finds the process runnable and switches to it.  [NoFuel]
    is a loop that has not ended: the schedulers have not found it. *)
Definition enter : K unit :=
  p ← curproc;
  r ← getproc p;
  if bool_decide (p_state r = RUNNABLE) then modify (upd_proc p (set_p_state RUNNING))
  else fun s => NoFuel s.

Definition swtch_cpus : K unit := rel LkPtable;; acq LkPtable;; enter.

(** ** Threads *)

(** The locks a thread holds, the process its CPU runs and the code it still
    has to run, [None] when it has finished. *)
Record thread := mkthr {
  t_held : list lockid;
  t_cur : option nat;
  t_code : option (K unit);
}.

Definition on_cpu (t : thread) (s : kstate) : kstate := set_k_held (t_held t) (set_k_cur (t_cur t) s).

(** A thread runs up to the next preemption point or to its end. *)
Inductive segment : outcome kstate unit -> kstate -> option (K unit) -> Prop :=
| seg_end s : segment (Ret tt s) s None
| seg_on s k : segment (Switch s k) s (Some k).

(** The memory all threads share, and the threads; its [k_held] and [k_cur]
    are those of the thread that ran last. *)
Definition conf : Type := kstate * list thread.

Section Wakeup.
Context (ch : chan) (lk : lockid) (cond : kstate -> bool) (signal : kstate -> kstate) (fuel : nat).

Inductive tstep : conf -> conf -> Prop :=
| tstep_run i t m s ts s' c :
    ts !! i = Some t -> t_code t = Some m -> segment (m (on_cpu t s)) s' c ->
    (forall j t', j <> i -> ts !! j = Some t' -> k_held s' ## t_held t') ->
    tstep (s, ts) (s', <[i := mkthr (k_held s') (k_cur s') c]> ts)
| tstep_other s ts s' :
    (** the rest of the kernel: other wakeups, [kill], anything that leaves
        the condition alone *)
    woken (k_procs s) (k_procs s') -> cond s' = cond s -> tstep (s, ts) (s', ts).

(** The waiting process; the loop tests its condition at most [f] times. *)
Definition wait_body (_ : unit) : K (unit + unit) :=
  c ← gets cond;
  if c : bool then mret (inr tt)
  else sleep_with acq rel (sched_with swtch_cpus) ch lk;; mret (inl tt).

Definition waiter : K unit :=
  acq lk;;
  loop fuel wait_body tt;;
  rel lk.

Definition waker : K unit :=
  acq lk;;
  modify signal;;
  wakeup_with acq rel ch;;
  rel lk.

Inductive role := Waiter (p : nat) | Waker (c : option nat).

Definition start (r : role) : thread :=
  match r with
  | Waiter p => mkthr [] (Some p) (Some waiter)
  | Waker c => mkthr [] c (Some waker)
  end.

(** ** Program points *)

(** The preemption points of the two programs. *)
Inductive ppc :=
| SStart (f : nat) | SLock (f : nat) | STable (f : nat) | SUnlock (f : nat) | SOut (f : nat)
| SIn (f : nat) | SBack (f : nat) | SRelock (f : nat) | SLeave | SDone
| WStart | WLock | WTable | WTabled | WLeave | WDone.

(** The code that remains of the loop once [m], the rest of a [sleep], is
    done. *)
Definition in_loop (f : nat) (m : K unit) : K unit :=
  (r ← (m;; mret (inl tt));
   match r with inl i => loop f wait_body i | inr x => mret x end);;
  rel lk.

Definition tidy : K unit :=
  p' ← curproc;
  modify (upd_proc p' (set_p_chan None));;
  (if bool_decide (lk ≠ LkPtable) then rel LkPtable;; acq lk else mret tt).

Definition go_to_sleep (p : nat) : K unit :=
  modify (upd_proc p (set_p_chan (Some ch)));;
  modify (upd_proc p (set_p_state SLEEPING));;
  sched_with swtch_cpus;;
  tidy.

Definition code_of (p : nat) (c : ppc) : option (K unit) :=
  match c with
  | SStart f => Some (acq lk;; loop f wait_body tt;; rel lk)
  | SLock f => Some (acquire lk;; loop f wait_body tt;; rel lk)
  | STable f => Some (in_loop f ((acquire LkPtable;; rel lk);; go_to_sleep p))
  | SUnlock f => Some (in_loop f (release lk;; go_to_sleep p))
  | SOut f => Some (in_loop f ((release LkPtable;; acq LkPtable;; enter);; tidy))
  | SIn f => Some (in_loop f ((acquire LkPtable;; enter);; tidy))
  | SBack f => Some (in_loop f (release LkPtable;; acq lk))
  | SRelock f => Some (in_loop f (acquire lk))
  | SLeave => Some (release lk)
  | SDone => None
  | WStart => Some waker
  | WLock => Some (acquire lk;; modify signal;; wakeup_with acq rel ch;; rel lk)
  | WTable => Some ((acquire LkPtable;; wakeup1 ch;; rel LkPtable);; rel lk)
  | WTabled => Some (release LkPtable;; rel lk)
  | WLeave => Some (release lk)
  | WDone => None
  end.

Definition held_at (c : ppc) : list lockid :=
  match c with
  | STable _ | SLeave | WTable | WLeave => [lk]
  | SUnlock _ | WTabled => [LkPtable; lk]
  | SOut _ | SBack _ => [LkPtable]
  | _ => []
  end.

(** What the process table and the condition go through from point to point. *)
Inductive pstep (p : nat) : ppc -> list proc * bool -> ppc -> list proc * bool -> Prop :=
| ps_start f x : pstep p (SStart f) x (SLock f) x
| ps_lock f ps : pstep p (SLock (S f)) (ps, false) (STable f) (ps, false)
| ps_pass f ps : pstep p (SLock (S f)) (ps, true) SLeave (ps, true)
| ps_table f x : pstep p (STable f) x (SUnlock f) x
| ps_sleep f ps b :
    pstep p (SUnlock f) (ps, b)
      (SOut f) (alter (fun r => set_p_state SLEEPING (set_p_chan (Some ch) r)) p ps, b)
| ps_out f x : pstep p (SOut f) x (SIn f) x
| ps_in f ps b :
    p_state (ps !!! p) = RUNNABLE ->
    pstep p (SIn f) (ps, b)
      (SBack f) (alter (fun r => set_p_chan None (set_p_state RUNNING r)) p ps, b)
| ps_back f x : pstep p (SBack f) x (SRelock f) x
| ps_relock f ps : pstep p (SRelock (S f)) (ps, false) (STable f) (ps, false)
| ps_again f ps : pstep p (SRelock (S f)) (ps, true) SLeave (ps, true)
| ps_leave x : pstep p SLeave x SDone x
| ps_wstart x : pstep p WStart x WLock x
| ps_signal ps b b' : pstep p WLock (ps, b) WTable (ps, b')
| ps_wake ps b : pstep p WTable (ps, b) WTabled (wake ch <$> ps, b)
| ps_wout x : pstep p WTabled x WLeave x
| ps_wleave x : pstep p WLeave x WDone x.

(** ** The code goes from point to point *)

(** The condition is about other memory than the process table and the
    state of the CPU, and so is what makes it true. *)
Record independent : Prop := {
  ind_held : forall h s, cond (set_k_held h s) = cond s;
  ind_cur : forall c s, cond (set_k_cur c s) = cond s;
  ind_procs : forall ps s, cond (set_k_procs ps s) = cond s;
  ind_signal : forall s, k_held (signal s) = k_held s /\ k_cur (signal s) = k_cur s /\
    k_procs (signal s) = k_procs s;
}.

Definition waiting (c : ppc) : bool :=
  match c with WStart | WLock | WTable | WTabled | WLeave | WDone => false | _ => true end.

Definition view (s : kstate) : list proc * bool := (k_procs s, cond s).

Definition goes_to (p : nat) (c : ppc) (s : kstate) (o : outcome kstate unit) : Prop :=
  match o with
  | Ret _ s' => exists c', pstep p c (view s) c' (view s') /\ k_held s' = held_at c' /\
      k_cur s' = k_cur s /\ code_of p c' = None
  | Switch s' k => exists c' m, pstep p c (view s) c' (view s') /\ k_held s' = held_at c' /\
      k_cur s' = k_cur s /\ code_of p c' = Some m /\ forall x, k x = m x
  | NoFuel _ => True
  | _ => False
  end.

Hypothesis Hlk : lk <> LkPtable.
Hypothesis Hind : independent.

Lemma cond_procs p f s : cond (upd_proc p f s) = cond s.
Proof. apply (ind_procs Hind). Qed.

Lemma cond_held h s : cond (set_k_held h s) = cond s.
Proof. apply (ind_held Hind). Qed.

Lemma wait_true s : cond s = true -> wait_body tt s = Ret (inr tt) s.
Proof. intros Hc. unfold wait_body, mbind, M_bind. cbn [gets obind]. by rewrite Hc. Qed.

Lemma wait_false p s :
  cond s = false -> k_cur s = Some p ->
  wait_body tt s
  = Switch s (fun x => obind (((acquire LkPtable;; rel lk);; go_to_sleep p) x) (fun _ x' => Ret (inl tt) x')).
Proof.
  intros Hc Hp. unfold wait_body, go_to_sleep, tidy, sleep_with, mbind, M_bind. cbn [gets obind].
  rewrite Hc. cbn [obind]. rewrite Hp, (bool_decide_true _ Hlk). reflexivity.
Qed.

(** From the top of the loop, with the lock held. *)
Lemma loop_goes p c f s :
  k_held s = [lk] -> k_cur s = Some p ->
  (forall f', f = S f' -> pstep p c (view s) (if cond s then SLeave else STable f') (view s)) ->
  goes_to p c s ((loop f wait_body tt;; rel lk) s).
Proof.
  intros Hh Hc Hp. destruct f as [|f]; [done|]. specialize (Hp f eq_refl).
  cbn [loop]. unfold mbind, M_bind. destruct (cond s) eqn:Ec.
  - rewrite wait_true by done. exists SLeave, (release lk). done.
  - rewrite (wait_false p) by done. exists (STable f). eexists. split_and!; [done..|].
    intros x. reflexivity.
Qed.

Lemma goes_to_held p c h s o : goes_to p c (set_k_held h s) o -> goes_to p c s o.
Proof.
  assert (view (set_k_held h s) = view s) as E by (unfold view; by rewrite cond_held).
  unfold goes_to. rewrite E. done.
Qed.

Lemma release_second s :
  k_held s = [LkPtable; lk] -> release lk s = Ret tt (set_k_held [LkPtable] s).
Proof.
  intros Hh. unfold release, mbind, M_bind. cbn [gets obind]. rewrite Hh, decide_True by set_solver.
  by rewrite !filter_cons, decide_True, decide_False by (done || naive_solver).
Qed.

(** Going to sleep, up to the switch. *)
Lemma sched_goes p s :
  k_held s = [LkPtable] -> k_cur s = Some p -> p_state (k_procs s !!! p) <> RUNNING ->
  sched_with swtch_cpus s = Switch s (fun x => (release LkPtable;; acq LkPtable;; enter) x).
Proof.
  intros Hh Hc Hr. unfold sched_with, mbind, M_bind. cbn [obind gets]. rewrite Hh.
  rewrite !bool_decide_true by (done || set_solver). cbn [negb].
  unfold curproc, mbind, M_bind. cbn [obind gets]. rewrite Hc. simpl.
  by rewrite bool_decide_false.
Qed.

Lemma enter_goes p s :
  k_cur s = Some p ->
  enter s = if bool_decide (p_state (k_procs s !!! p) = RUNNABLE)
            then Ret tt (upd_proc p (set_p_state RUNNING) s) else NoFuel s.
Proof.
  intros Hc. unfold enter, curproc, mbind, M_bind. cbn [obind gets]. rewrite Hc. simpl.
  by case_bool_decide.
Qed.

(** The points of the waiting process. *)
Lemma waiter_goes p c m s :
  waiting c = true -> code_of p c = Some m -> k_held s = held_at c -> k_cur s = Some p ->
  (p < length (k_procs s))%nat -> goes_to p c s (m s).
Proof.
  intros Hw Hm Hh Hc Hp.
  destruct c as [f|f|f|f|f|f|f|f| | | | | | | |]; try discriminate; simpl in Hh; injection Hm as <-.
  - exists (SLock f). eexists. split_and!; [constructor|done..].
  - rewrite (bind_Ret _ _ _ _ _ (acquire_ok lk s ltac:(rewrite Hh; set_solver))), Hh.
    apply (goes_to_held p _ [lk]), loop_goes; [done..|]. intros f' ->.
    unfold view. destruct (cond _); constructor.
  - unfold in_loop, mbind, M_bind. rewrite (acquire_ok LkPtable s) by (rewrite Hh; set_solver).
    rewrite Hh. cbn [obind]. exists (SUnlock f). eexists.
    split_and!; [|done..]. unfold view. rewrite cond_held. constructor.
  - unfold in_loop, go_to_sleep, mbind, M_bind. rewrite release_second by done. cbn [obind modify].
    rewrite (sched_goes p); [|done|done|].
    2: { simpl. rewrite list_alter_alter_eq, lookup_total_alter, decide_True by done. done. }
    cbn [obind]. exists (SOut f). eexists. split_and!; [|done..].
    unfold view. rewrite !cond_procs, cond_held. simpl. rewrite list_alter_alter_eq. constructor.
  - unfold in_loop, mbind, M_bind. rewrite (release_ok LkPtable []) by (done || set_solver).
    cbn [obind]. exists (SIn f). eexists. split_and!; [|done..].
    unfold view. rewrite cond_held. constructor.
  - unfold in_loop, mbind, M_bind. rewrite (acquire_ok LkPtable s) by (rewrite Hh; set_solver).
    cbn [obind]. rewrite Hh, (enter_goes p) by done. case_bool_decide as Hr; [|done].
    cbn [obind]. unfold tidy, curproc, mbind, M_bind. cbn [obind gets].
    replace (k_cur (upd_proc p (set_p_state RUNNING) (set_k_held [LkPtable] s))) with (Some p)
      by (symmetry; exact Hc).
    rewrite (bool_decide_true _ Hlk). cbn. exists (SBack f). eexists. split_and!; [|done..].
    unfold view. rewrite !cond_procs, cond_held. simpl. rewrite list_alter_alter_eq. by constructor.
  - unfold in_loop, mbind, M_bind. rewrite (release_ok LkPtable []) by (done || set_solver).
    cbn [obind]. exists (SRelock f). eexists. split_and!; [|done..].
    unfold view. rewrite cond_held. constructor.
  - unfold in_loop, mbind, M_bind. rewrite (acquire_ok lk s) by (rewrite Hh; set_solver).
    rewrite Hh. apply (goes_to_held p _ [lk]), (loop_goes p _ f); [done..|]. intros f' ->.
    unfold view. destruct (cond _); constructor.
  - rewrite (release_ok lk []) by (done || set_solver). exists SDone. split_and!; [|done..].
    unfold view. rewrite cond_held. constructor.
Qed.

(** The points of the code that wakes. *)
Lemma waker_goes p c m s :
  waiting c = false -> code_of p c = Some m -> k_held s = held_at c ->
  (length (k_procs s) <= NPROC)%nat -> goes_to p c s (m s).
Proof.
  intros Hw Hm Hh Hn.
  destruct c as [f|f|f|f|f|f|f|f| | | | | | | |]; try discriminate; simpl in Hh; injection Hm as <-.
  - exists WLock. eexists. split_and!; [constructor|done..].
  - unfold mbind, M_bind. rewrite (acquire_ok lk s) by (rewrite Hh; set_solver).
    rewrite Hh. cbn. destruct (ind_signal Hind (set_k_held [lk] s)) as (E1 & E2 & E3).
    exists WTable. eexists. rewrite E1, E2. split_and!; [|done..].
    unfold view. rewrite E3. constructor.
  - unfold mbind, M_bind. rewrite (acquire_ok LkPtable s) by (rewrite Hh; set_solver).
    cbn [obind]. rewrite wakeup1_ok by done. rewrite Hh. cbn. exists WTabled. eexists.
    split_and!; [|done..]. unfold view. rewrite (ind_procs Hind), cond_held. constructor.
  - unfold mbind, M_bind. rewrite (release_ok LkPtable [lk]) by (done || set_solver). cbn.
    exists WLeave. eexists. split_and!; [|done..]. unfold view. rewrite cond_held. constructor.
  - rewrite (release_ok lk []) by (done || set_solver). exists WDone. split_and!; [|done..].
    unfold view. rewrite cond_held. constructor.
Qed.

(** ** The invariant *)

(** What holds of a waiting process at each point: between its test of the
    condition and its sleep the condition is false, and while it sleeps the
    condition is false or a wakeup is on its way. *)
Definition point_ok (cs : list ppc) (v : list proc * bool) (p : nat) (c : ppc) : Prop :=
  let r := v.1 !!! p in
  match c with
  | STable _ | SUnlock _ => p_state r = RUNNING /\ v.2 = false
  | SOut _ | SIn _ =>
      p_state r = RUNNABLE \/
      (p_state r = SLEEPING /\ p_chan r = Some ch /\ (v.2 = false \/ WTable ∈ cs))
  | _ => p_state r = RUNNING
  end.

Lemma point_wake cs ps b p c :
  (p < length ps)%nat -> point_ok cs (ps, b) p c -> point_ok [] (wake ch <$> ps, b) p c.
Proof.
  intros Hp. unfold point_ok. simpl. rewrite (list_lookup_total_fmap (wake ch)) by done.
  assert (p_state (ps !!! p) = RUNNING -> p_state (wake ch (ps !!! p)) = RUNNING) as Hr.
  { intros H. unfold wake. rewrite bool_decide_false; [done|]. intros [E _]. congruence. }
  assert (p_state (ps !!! p) = RUNNABLE \/ (p_state (ps !!! p) = SLEEPING /\ p_chan (ps !!! p) = Some ch) ->
          p_state (wake ch (ps !!! p)) = RUNNABLE) as Hs.
  { unfold wake. intros [H|H]; [|by rewrite bool_decide_true].
    rewrite bool_decide_false; [done|]. intros [E _]. congruence. }
  destruct c; naive_solver.
Qed.

Lemma point_mono cs cs' v p c :
  (WTable ∈ cs -> WTable ∈ cs') -> point_ok cs v p c -> point_ok cs' v p c.
Proof. intros H. unfold point_ok. destruct c; naive_solver. Qed.

Lemma point_alter cs ps b f p q d :
  q <> p -> point_ok cs (ps, b) q d -> point_ok cs (alter f p ps, b) q d.
Proof.
  intros Hq. unfold point_ok. simpl.
  by rewrite !list_lookup_total_alt, list_lookup_alter_ne by congruence.
Qed.

(** The thread that moves. *)
Lemma own_point p c v c' v' cs cs' :
  pstep p c v c' v' -> waiting c = true -> (p < length v.1)%nat -> (WTable ∈ cs -> WTable ∈ cs') ->
  point_ok cs v p c -> point_ok cs' v' p c'.
Proof.
  intros Hs Hw Hp Hc Ho. apply (point_mono cs cs' v p c Hc) in Ho.
  destruct Hs; try discriminate; simpl in *; try naive_solver.
  - rewrite lookup_total_alter, decide_True by done. simpl. right. naive_solver.
  - by rewrite lookup_total_alter, decide_True by done.
Qed.

Lemma keeps_pending (cs : list ppc) (i : nat) c c' :
  cs !! i = Some c -> c <> WTable -> WTable ∈ cs -> WTable ∈ <[i := c']> cs.
Proof.
  intros Hi Hne Hin. apply list_elem_of_lookup in Hin as [k Hk]. apply list_elem_of_lookup. exists k.
  rewrite list_lookup_insert_ne; [done|]. intros ->. congruence.
Qed.

(** The others. *)
Lemma other_point p c v c' v' cs i q d :
  pstep p c v c' v' -> cs !! i = Some c -> (waiting c = true -> q <> p) -> (q < length v.1)%nat ->
  held_at c' ## held_at d -> point_ok cs v q d -> point_ok (<[i := c']> cs) v' q d.
Proof.
  intros Hs Hi Hq Hl Hd Ho.
  pose proof (keeps_pending cs i c c' Hi) as Hc.
  destruct Hs; try (by apply (point_mono cs); [apply Hc; discriminate|]).
  - apply (point_alter _ ps); [by apply Hq|]. apply (point_mono cs); [by apply Hc|done].
  - apply (point_alter _ ps); [by apply Hq|]. apply (point_mono cs); [by apply Hc|done].
  - assert (WTable ∈ <[i := WTable]> cs).
    { apply list_elem_of_lookup. exists i. apply list_lookup_insert_eq. by eapply lookup_lt_Some. }
    unfold point_ok in *. simpl in *. destruct d; simpl in *; set_solver.
  - apply (point_mono []); [set_solver|]. by eapply point_wake.
Qed.

(** ** Reachable configurations *)

Definition is_waiter (r : role) : bool := match r with Waiter _ => true | Waker _ => false end.
Definition proc_of (r : role) : nat := match r with Waiter p => p | Waker _ => 0%nat end.
Definition cur_of (r : role) : option nat := match r with Waiter p => Some p | Waker c => c end.

Definition code_at (c : option (K unit)) (m : option (K unit)) : Prop :=
  match c, m with
  | Some c, Some m => forall x, c x = m x
  | None, None => True
  | _, _ => False
  end.

Record at_point (cs : list ppc) (v : list proc * bool) (r : role) (c : ppc) (t : thread) : Prop := {
  ap_role : waiting c = is_waiter r;
  ap_held : t_held t = held_at c;
  ap_cur : t_cur t = cur_of r;
  ap_code : code_at (t_code t) (code_of (proc_of r) c);
  ap_ok : forall p, r = Waiter p -> (p < length v.1)%nat /\ point_ok cs v p c;
}.

Context (rs : list role).
Hypothesis Hdup : forall i j p, rs !! i = Some (Waiter p) -> rs !! j = Some (Waiter p) -> i = j.

Definition exclusive (cs : list ppc) : Prop :=
  forall i j c d, i <> j -> cs !! i = Some c -> cs !! j = Some d -> held_at c ## held_at d.

Lemma exclusive_insert cs i c' :
  (i < length cs)%nat -> exclusive cs ->
  (forall j d, j <> i -> cs !! j = Some d -> held_at c' ## held_at d) -> exclusive (<[i := c']> cs).
Proof.
  intros Hi Hex Hd a b x y Hab Ha Hb. rewrite list_lookup_insert in Ha, Hb.
  destruct (decide (i = a /\ (i < length cs)%nat)) as [[<- _]|Ha'],
    (decide (i = b /\ (i < length cs)%nat)) as [[<- _]|Hb']; simplify_eq.
  - by eapply Hd.
  - intros l Hx Hy. by apply (Hd a x ltac:(done) Ha l).
  - by eapply (Hex a b).
Qed.

Record conf_inv (x : conf) : Prop := {
  cv_points : exists cs, length cs = length rs /\
    (forall i r c, rs !! i = Some r -> cs !! i = Some c ->
       exists t, x.2 !! i = Some t /\ at_point cs (view x.1) r c t) /\
    exclusive cs;
  cv_threads : length x.2 = length rs;
  cv_procs : (length (k_procs x.1) <= NPROC)%nat;
}.

Lemma segment_goes p c s o s' k :
  goes_to p c s o -> segment o s' k ->
  exists c', pstep p c (view s) c' (view s') /\ k_held s' = held_at c' /\ k_cur s' = k_cur s /\
    code_at k (code_of p c').
Proof.
  intros Hg Hs. destruct Hs as [s'|s' k]; simpl in Hg.
  - destruct Hg as (c' & H1 & H2 & H3 & H4). exists c'. by rewrite H4.
  - destruct Hg as (c' & m & H1 & H2 & H3 & H4 & H5). exists c'. by rewrite H4.
Qed.

Lemma pstep_role p c v c' v' :
  pstep p c v c' v' -> waiting c' = waiting c /\ length v'.1 = length v.1.
Proof. intros []; simpl; rewrite ?length_alter, ?length_fmap; done. Qed.

(** A thread at a point does not panic, and goes to the next. *)
Lemma thread_goes cs s r c t m :
  at_point cs (view s) r c t -> (length (k_procs s) <= NPROC)%nat -> t_code t = Some m ->
  goes_to (proc_of r) c (on_cpu t s) (m (on_cpu t s)).
Proof.
  intros [Hr Hh Hc Hm Ho] Hn E. rewrite E in Hm. unfold code_at in Hm.
  destruct (code_of (proc_of r) c) as [m'|] eqn:Em; [|done]. rewrite Hm. destruct r as [p|d].
  - destruct (Ho p eq_refl) as [Hp _]. by apply waiter_goes.
  - by apply waker_goes.
Qed.

Lemma view_on_cpu t s : view (on_cpu t s) = view s.
Proof. unfold view, on_cpu. rewrite cond_held. by rewrite (ind_cur Hind). Qed.

Lemma run_inv s ts i t m s' k :
  conf_inv (s, ts) -> ts !! i = Some t -> t_code t = Some m -> segment (m (on_cpu t s)) s' k ->
  (forall j t', j <> i -> ts !! j = Some t' -> k_held s' ## t_held t') ->
  conf_inv (s', <[i := mkthr (k_held s') (k_cur s') k]> ts).
Proof.
  intros [(cs & Hl & Hpts & Hex) Hlt Hn] Ht Em Hseg Hd. simpl in *.
  destruct (lookup_lt_is_Some_2 rs i) as [r Hr]; [rewrite <- Hlt; by eapply lookup_lt_Some|].
  destruct (lookup_lt_is_Some_2 cs i) as [c Hc]; [rewrite Hl; by eapply lookup_lt_Some|].
  destruct (Hpts i r c Hr Hc) as (t' & Ht' & Hat). rewrite Ht in Ht'. injection Ht' as <-.
  destruct (segment_goes _ _ _ _ _ _ (thread_goes cs s r c t m Hat Hn Em) Hseg)
    as (c' & Hp & Hh' & Hc' & Hk'). rewrite view_on_cpu in Hp.
  destruct (pstep_role _ _ _ _ _ Hp) as [Hw Hlen]. simpl in Hlen.
  pose proof (lookup_lt_Some _ _ _ Ht) as Hti. pose proof (lookup_lt_Some _ _ _ Hc) as Hci.
  split; simpl; [|by rewrite length_insert|by rewrite Hlen].
  exists (<[i := c']> cs). split; [by rewrite length_insert|].
  assert (forall j d, j <> i -> cs !! j = Some d -> held_at c' ## held_at d) as Hd'.
  { intros j d Hne Hj. destruct (lookup_lt_is_Some_2 rs j) as [rj Hrj].
    { rewrite <- Hl. by eapply lookup_lt_Some. }
    destruct (Hpts j rj d Hrj Hj) as (tj & Htj & [_ Hhj _ _ _]). rewrite <- Hh', <- Hhj. by eapply Hd. }
  split.
  - intros j rj d Hrj Hj. destruct (decide (j = i)) as [->|Hne].
    + rewrite list_lookup_insert_eq in Hj by done. injection Hj as <-.
      rewrite Hr in Hrj. injection Hrj as <-. destruct Hat as [A1 A2 A3 A4 A5].
      eexists. split; [by apply list_lookup_insert_eq|]. split; simpl; [congruence|done| |done|].
      * by rewrite Hc'.
      * intros p ->. destruct (A5 p eq_refl) as [Hpl Ho]. simpl in Hpl.
        split; [simpl; by rewrite Hlen|]. eapply own_point; [exact Hp|by rewrite A1|done| |exact Ho].
        apply (keeps_pending _ _ c); [done|]. intros ->. discriminate.
    + rewrite list_lookup_insert_ne in Hj by done.
      destruct (Hpts j rj d Hrj Hj) as (tj & Htj & [B1 B2 B3 B4 B5]).
      exists tj. split; [by rewrite list_lookup_insert_ne|]. split; [done..|].
      intros q ->. destruct (B5 q eq_refl) as [Hq Ho]. split; [simpl; by rewrite Hlen|].
      eapply other_point; [exact Hp|done| |done|by eapply Hd'|done].
      intros Hwc ->. destruct Hat as [A1 _ _ _ _]. rewrite A1 in Hwc.
      destruct r as [p|]; [|done]. simpl in *. apply Hne. by eapply Hdup.
  - by apply exclusive_insert.
Qed.

Lemma woken_lookup ps ps' p :
  woken ps ps' -> (p < length ps)%nat ->
  ps' !!! p = ps !!! p \/ (p_state (ps !!! p) = SLEEPING /\ ps' !!! p = set_p_state RUNNABLE (ps !!! p)).
Proof.
  intros Hw Hp. pose proof (woken_length _ _ Hw). unfold woken in Hw. rewrite Forall2_lookup in Hw.
  specialize (Hw p). rewrite !list_lookup_lookup_total_lt in Hw by lia. by inversion Hw.
Qed.

Lemma other_inv s ts s' :
  conf_inv (s, ts) -> woken (k_procs s) (k_procs s') -> cond s' = cond s -> conf_inv (s', ts).
Proof.
  intros [(cs & Hl & Hpts & Hex) Hlt Hn] Hw Hc. pose proof (woken_length _ _ Hw) as Hlen. simpl in *.
  split; simpl; [|done|by rewrite Hlen]. exists cs. split; [done|]. split; [|done].
  intros i r c Hr Hci. destruct (Hpts i r c Hr Hci) as (t & Ht & [A1 A2 A3 A4 A5]).
  exists t. split; [done|]. split; [done..|]. intros p ->. destruct (A5 p eq_refl) as [Hp Ho].
  simpl in Hp. split; [simpl; by rewrite Hlen|]. unfold point_ok in *. simpl in *. rewrite Hc.
  destruct (woken_lookup _ _ p Hw Hp) as [->|[E ->]]; [done|].
  destruct c; simpl; try (left; reflexivity); try (rewrite E in Ho; destruct Ho; discriminate);
    rewrite E in Ho; discriminate.
Qed.

Definition conf0 (s : kstate) : conf := (s, start <$> rs).

Lemma conf0_inv s :
  (length (k_procs s) <= NPROC)%nat ->
  (forall p, Waiter p ∈ rs -> (p < length (k_procs s))%nat /\ p_state (k_procs s !!! p) = RUNNING) ->
  conf_inv (conf0 s).
Proof.
  intros Hn Hp. split; simpl; [|by rewrite length_fmap|done].
  set (pt r := match r with Waiter _ => SStart fuel | Waker _ => WStart end).
  exists (pt <$> rs). split; [by rewrite length_fmap|]. split.
  - intros i r c Hr Hc. rewrite list_lookup_fmap, Hr in Hc. injection Hc as <-.
    exists (start r). split; [by rewrite list_lookup_fmap, Hr|]. destruct r as [p|d]; split; try done.
    intros p' [= <-]. apply Hp. by eapply list_elem_of_lookup_2.
  - intros i j c d _ Hc Hd. rewrite list_lookup_fmap in Hc, Hd.
    destruct (rs !! i) as [[]|], (rs !! j) as [[]|]; simplify_eq; simpl; set_solver.
Qed.

Lemma reach_inv s x :
  conf_inv (conf0 s) -> rtc tstep (conf0 s) x -> conf_inv x.
Proof.
  intros Hi Hr. induction Hr as [x|x y z Hs Hr IH]; [done|]. apply IH.
  destruct Hs as [i t m s1 ts s' c Ht Hm Hseg Hd|s1 ts s' Hw Hc]; [by eapply run_inv|by eapply other_inv].
Qed.
End Wakeup.

(** C27: No wakeup is lost.  Any number of processes wait for a condition with
    [while(!cond) sleep(chan, lk)], and any number of threads change it and
    call [wakeup(chan)] with [lk] held; they run the code of [sleep], [sched]
    and [wakeup] in every interleaving of their lock operations, beside other
    wakeups.  In every configuration they can reach, when the condition holds
    and no waking thread has [lk] (so that none is between its change and the
    end of its [wakeup]), none of the processes is asleep.  And no thread
    panics on the way. *)
Theorem no_lost_wakeup ch lk cond signal fuel rs s x :
  lk <> LkPtable -> independent cond signal ->
  (forall i j p, rs !! i = Some (Waiter p) -> rs !! j = Some (Waiter p) -> i = j) ->
  (length (k_procs s) <= NPROC)%nat ->
  (forall p, Waiter p ∈ rs -> (p < length (k_procs s))%nat /\ p_state (k_procs s !!! p) = RUNNING) ->
  rtc (tstep cond) (conf0 ch lk cond signal fuel rs s) x ->
  (cond x.1 = true ->
   (forall i c t, rs !! i = Some (Waker c) -> x.2 !! i = Some t -> lk ∉ t_held t) ->
   forall p, Waiter p ∈ rs -> p_state (k_procs x.1 !!! p) <> SLEEPING) /\
  (forall i t m, x.2 !! i = Some t -> t_code t = Some m ->
     match m (on_cpu t x.1) with Panic _ _ | Undef _ => False | _ => True end).
Proof.
  intros Hlk Hind Hdup Hn Hp Hr.
  destruct (reach_inv ch lk cond signal fuel Hlk Hind rs Hdup s x) as [(cs & Hl & Hpts & _) Hlt Hn'];
    [by apply conf0_inv|done|]. split.
  - intros Hc Hw p Hin. apply list_elem_of_lookup in Hin as [i Hi].
    destruct (lookup_lt_is_Some_2 cs i) as [c Hci]; [rewrite Hl; by eapply lookup_lt_Some|].
    destruct (Hpts i _ c Hi Hci) as (t & Ht & [_ _ _ _ Ho]). destruct (Ho p eq_refl) as [_ Hok].
    assert (WTable ∉ cs) as Hno.
    { intros [k Hk]%list_elem_of_lookup.
      destruct (lookup_lt_is_Some_2 rs k) as [r Hrk]; [rewrite <- Hl; by eapply lookup_lt_Some|].
      destruct (Hpts k r _ Hrk Hk) as (tk & Htk & [Hrole Hh _ _ _]). destruct r as [q|d]; [done|].
      apply (Hw k d tk Hrk Htk). rewrite Hh. simpl. set_solver. }
    unfold point_ok in Hok. simpl in Hok. rewrite Hc in Hok. intros E. rewrite E in Hok.
    destruct c; naive_solver.
  - intros i t m Ht Hm.
    destruct (lookup_lt_is_Some_2 rs i) as [r Hri]; [rewrite <- Hlt; by eapply lookup_lt_Some|].
    destruct (lookup_lt_is_Some_2 cs i) as [c Hci]; [rewrite Hl; by eapply lookup_lt_Some|].
    destruct (Hpts i r c Hri Hci) as (t' & Ht' & Hat). rewrite Ht in Ht'. injection Ht' as <-.
    pose proof (thread_goes ch lk cond signal Hlk Hind cs x.1 r c t m Hat Hn' Hm) as Hg.
    destruct (m (on_cpu t x.1)); done.
Qed.

(** ** Executing a schedule *)

(** One turn of thread [i], if it can move. *)
Definition thread_turn (x : conf) (i : nat) : option conf :=
  t ← x.2 !! i;
  m ← t_code t;
  '(s', c) ← match m (on_cpu t x.1) with
             | Ret _ s' => Some (s', None)
             | Switch s' k => Some (s', Some k)
             | _ => None
             end;
  if forallb (fun j => (j =? i)%nat ||
       match x.2 !! j with
       | Some t' => forallb (fun l => bool_decide (l ∉ t_held t')) (k_held s')
       | None => true
       end) (seq 0 (length x.2))
  then Some (s', <[i := mkthr (k_held s') (k_cur s') c]> x.2) else None.

Fixpoint thread_turns (x : conf) (l : list nat) : option conf :=
  match l with
  | [] => Some x
  | i :: l => y ← thread_turn x i; thread_turns y l
  end.

Lemma thread_turn_tstep cond x i y : thread_turn x i = Some y -> tstep cond x y.
Proof.
  unfold thread_turn. intros H. destruct x as [s ts].
  apply bind_Some in H as (t & Ht & H). apply bind_Some in H as (m & Hm & H).
  apply bind_Some in H as ([s' c] & Ho & H). cbn [fst snd] in *.
  destruct (forallb _ _) eqn:Hf; [|done]. injection H as <-.
  apply (tstep_run cond i t m); [done|done| |].
  - destruct (m (on_cpu t s)) as [[] ?| | | |]; simplify_eq; constructor.
  - intros j t' Hne Hj l Hl Hl'. rewrite forallb_forall in Hf.
    specialize (Hf j). rewrite Hj, (proj2 (Nat.eqb_neq j i) Hne) in Hf. cbn [orb] in Hf.
    pose proof (lookup_lt_Some _ _ _ Hj).
    specialize (Hf ltac:(apply in_seq; lia)). rewrite forallb_forall in Hf.
    specialize (Hf l ltac:(by apply list_elem_of_In)). by apply bool_decide_eq_true in Hf.
Qed.

Lemma thread_turns_rtc cond x l y : thread_turns x l = Some y -> rtc (tstep cond) x y.
Proof.
  revert x. induction l as [|i l IH]; intros x H; [injection H as ->; constructor|].
  cbn [thread_turns] in H. apply bind_Some in H as (z & Hz & H).
  eapply rtc_l; [by eapply thread_turn_tstep|by apply IH].
Qed.

(** A process waits for the first tick; an interrupt handler of another CPU
    comes in when it has tested the condition, and has to let it go to sleep
    before it can go on. *)
Definition demo_cond (s : kstate) : bool := 0 <? k_ticks s.
Definition demo_signal (s : kstate) : kstate := set_k_ticks (k_ticks s + 1) s.
Definition demo_roles : list role := [Waiter 0; Waker None].
Definition demo_start : conf :=
  conf0 ChTicks LkTicks demo_cond demo_signal 3 demo_roles
    (upd_proc 0 (set_p_state RUNNING) (reset_state (mkdisk ∅ 0 []))).
Definition demo_run (l : list nat) : conf := default demo_start (thread_turns demo_start l).
Definition demo_sleep : list nat := [0; 1; 0; 0; 0; 1; 0]%nat.
Definition demo_end : list nat := [0; 1; 0; 0; 0; 1; 0; 1; 1; 1]%nat.

Lemma demo_reach l :
  bool_decide (is_Some (thread_turns demo_start l)) = true ->
  rtc (tstep demo_cond) demo_start (demo_run l).
Proof.
  intros H. apply bool_decide_eq_true in H as [x Hx]. unfold demo_run. rewrite Hx.
  by eapply thread_turns_rtc.
Qed.

Lemma demo_independent : independent demo_cond demo_signal.
Proof. split; intros; split_and?; reflexivity. Qed.

Lemma demo_ready p :
  Waiter p ∈ demo_roles ->
  (p < length (k_procs demo_start.1))%nat /\ p_state (k_procs demo_start.1 !!! p) = RUNNING.
Proof.
  unfold demo_roles. rewrite !elem_of_cons. intros [[= ->]|[[=]|Hp]]; [|by apply not_elem_of_nil in Hp].
  split; [|reflexivity]. apply Nat.ltb_lt. vm_compute. reflexivity.
Qed.

Lemma demo_wakers (x : conf) i c t :
  t_held <$> (x.2 !! 1%nat) = Some [] ->
  demo_roles !! i = Some (Waker c) -> x.2 !! i = Some t -> LkTicks ∉ t_held t.
Proof.
  intros Hh Hi Ht. destruct i as [|[|[|i]]]; try discriminate Hi. rewrite Ht in Hh. cbn in Hh.
  injection Hh as ->. apply not_elem_of_nil.
Qed.

Lemma no_lost_wakeup_witness :
  (demo_cond (demo_run demo_sleep).1, p_state (k_procs (demo_run demo_sleep).1 !!! 0%nat)) = (true, SLEEPING) /\
  demo_cond (demo_run demo_end).1 = true /\
  p_state (k_procs (demo_run demo_end).1 !!! 0%nat) <> SLEEPING.
Proof.
  assert (demo_cond (demo_run demo_end).1 = true) as Hc by (vm_compute; reflexivity).
  assert (t_held <$> ((demo_run demo_end).2 !! 1%nat) = Some []) as Hh by (vm_compute; reflexivity).
  split; [vm_compute; reflexivity|]. split; [exact Hc|].
  apply (no_lost_wakeup ChTicks LkTicks demo_cond demo_signal 3 demo_roles demo_start.1 (demo_run demo_end)).
  - discriminate.
  - exact demo_independent.
  - intros [|[|[|i]]] [|[|[|j]]] p Hi Hj; cbn in Hi, Hj; congruence.
  - apply Nat.leb_le. vm_compute. reflexivity.
  - exact demo_ready.
  - apply demo_reach. vm_compute. reflexivity.
  - exact Hc.
  - intros i c t. exact (demo_wakers (demo_run demo_end) i c t Hh).
  - left.
Defined.
