(* ===== verification/Spinlock.v ===== *)
(** * Spin locks on several CPUs ([spinlock.c])

    The lock functions down to the atomic exchange, the interrupt flag and
    the [ncli]/[intena] counters of each CPU.  The functions run step by step,
    interleaved with the other CPUs at every access to the lock word; the
    theorems show that they provide the interface [acquire]/[release] of file
    [State]: mutual exclusion, panics exactly on misuse, and interrupts off
    while a lock is held and back to what they were afterwards. *)

From S2P Require Import Prelude Monad State.

(** [struct spinlock]: [lk_cpu] is the CPU holding the lock. *)
Record spinlock := mklk { lk_locked : Z; lk_cpu : option nat }.

Definition initlock : spinlock := mklk 0 None.

(** Where a CPU is in [acquire] and [release]. *)
Inductive pc :=
| Idle                 (** outside both *)
| Spin (l : lockid)    (** in the [xchg] loop of [acquire] *)
| Got (l : lockid)     (** the [xchg] has returned 0 *)
| Rel (l : lockid).    (** in [release], before its [xchg] *)

#[export] Instance pc_eq_dec : EqDecision pc.
Proof. solve_decision. Defined.

(** The part of [struct cpu] the lock code uses, the interrupt flag of
    [eflags], and the locks the CPU has acquired and not released. *)
Record cpu := mkcpu {
  c_ncli : Z;
  c_intena : bool;
  c_if : bool;
  c_pc : pc;
  c_held : list lockid;
}.

Definition pushcli (c : cpu) : cpu :=
  mkcpu (c_ncli c + 1) (if c_ncli c =? 0 then c_if c else c_intena c) false (c_pc c) (c_held c).

(** [inr] is a panic. *)
Definition popcli (c : cpu) : cpu + string :=
  if c_if c then inr "popcli - interruptible"
  else if c_ncli c - 1 <? 0 then inr "popcli"
  else inl (mkcpu (c_ncli c - 1) (c_intena c)
              ((c_ncli c - 1 =? 0) && c_intena c) (c_pc c) (c_held c)).

Definition set_pc (p : pc) (c : cpu) : cpu := mkcpu (c_ncli c) (c_intena c) (c_if c) p (c_held c).
Definition set_held (h : list lockid) (c : cpu) : cpu :=
  mkcpu (c_ncli c) (c_intena c) (c_if c) (c_pc c) h.

(** [holding] on CPU [i]. *)
Definition holding (i : nat) (lk : spinlock) : bool :=
  negb (lk_locked lk =? 0) && bool_decide (lk_cpu lk = Some i).

Definition xchg (x : Z) (lk : spinlock) : Z * spinlock := (lk_locked lk, mklk x (lk_cpu lk)).

Record machine := mkm { m_cpus : nat -> cpu; m_locks : lockid -> spinlock }.

Definition upd_cpu (i : nat) (c : cpu) (m : machine) : machine :=
  mkm (<[i := c]> (m_cpus m)) (m_locks m).
Definition upd_lock (l : lockid) (lk : spinlock) (m : machine) : machine :=
  mkm (m_cpus m) (<[l := lk]> (m_locks m)).

(** One step of CPU [i]; [inr] is a panic. *)

(** The beginning of [acquire]: [pushcli] and the test. *)
Definition acquire_begin (i : nat) (l : lockid) (m : machine) : machine + string :=
  let c := pushcli (m_cpus m i) in
  if holding i (m_locks m l) then inr "acquire"
  else inl (upd_cpu i (set_pc (Spin l) c) m).

(** One round of the loop. *)
Definition acquire_spin (i : nat) (l : lockid) (m : machine) : machine + string :=
  let '(old, lk) := xchg 1 (m_locks m l) in
  let m := upd_lock l lk m in
  if old =? 0 then inl (upd_cpu i (set_pc (Got l) (m_cpus m i)) m) else inl m.

(** [lk->cpu = cpu].  The return of [acquire] is also where the lock joins
    [c_held], which no code reads: it says what the CPU holds. *)
Definition acquire_end (i : nat) (l : lockid) (m : machine) : machine + string :=
  let c := m_cpus m i in
  inl (upd_cpu i (set_pc Idle (set_held (l :: c_held c) c))
         (upd_lock l (mklk (lk_locked (m_locks m l)) (Some i)) m)).

(** [release] up to its [xchg]. *)
Definition release_begin (i : nat) (l : lockid) (m : machine) : machine + string :=
  let c := m_cpus m i in
  if negb (holding i (m_locks m l)) then inr "release"
  else inl (upd_cpu i (set_pc (Rel l) c) (upd_lock l (mklk (lk_locked (m_locks m l)) None) m)).

(** Its [xchg] and [popcli]. *)
Definition release_end (i : nat) (l : lockid) (m : machine) : machine + string :=
  let '(_, lk) := xchg 0 (m_locks m l) in
  let c := m_cpus m i in
  match popcli c with
  | inr e => inr e
  | inl c =>
      inl (upd_cpu i (set_pc Idle (set_held (filter (fun x => x ≠ l) (c_held c)) c))
             (upd_lock l lk m))
  end.

(** [sti] and [cli] outside the lock code: [sti] with no [pushcli] pending. *)
Definition set_if (b : bool) (c : cpu) : cpu :=
  mkcpu (c_ncli c) (c_intena c) b (c_pc c) (c_held c).

Inductive action :=
| AAcquire (l : lockid) | ARelease (l : lockid) | AGo | ASti | ACli.

(** What CPU [i] does next: the code of [acquire] and [release] goes on, or
    the CPU starts one of them, or changes the interrupt flag. *)
Inductive cpu_step (i : nat) (m : machine) : action -> machine + string -> Prop :=
| st_acquire l : c_pc (m_cpus m i) = Idle -> cpu_step i m (AAcquire l) (acquire_begin i l m)
| st_spin l : c_pc (m_cpus m i) = Spin l -> cpu_step i m AGo (acquire_spin i l m)
| st_got l : c_pc (m_cpus m i) = Got l -> cpu_step i m AGo (acquire_end i l m)
| st_release l : c_pc (m_cpus m i) = Idle -> cpu_step i m (ARelease l) (release_begin i l m)
| st_rel l : c_pc (m_cpus m i) = Rel l -> cpu_step i m AGo (release_end i l m)
| st_sti : c_pc (m_cpus m i) = Idle -> c_ncli (m_cpus m i) = 0 ->
    cpu_step i m ASti (inl (upd_cpu i (set_if true (m_cpus m i)) m))
| st_cli : c_pc (m_cpus m i) = Idle -> c_ncli (m_cpus m i) = 0 ->
    cpu_step i m ACli (inl (upd_cpu i (set_if false (m_cpus m i)) m)).

(** ** The invariant *)

(** CPU [c] owns the lock: it holds it or is about to record or to clear its
    ownership. *)
Definition owns (c : cpu) (l : lockid) : Prop :=
  (l ∈ c_held c /\ c_pc c <> Rel l) \/ c_pc c = Got l \/ (c_pc c = Rel l /\ l ∈ c_held c).

Definition in_flight (c : cpu) : Z := match c_pc c with Spin _ | Got _ => 1 | _ => 0 end.

Record cpu_inv (c : cpu) : Prop := {
  ci_ncli : c_ncli c = Z.of_nat (length (c_held c)) + in_flight c;
  ci_if : 0 < c_ncli c -> c_if c = false;
  ci_nodup : NoDup (c_held c);
  ci_rel : forall l, c_pc c = Rel l -> l ∈ c_held c;
  ci_new : forall l, c_pc c = Spin l \/ c_pc c = Got l -> l ∉ c_held c;
}.

Record lock_inv (m : machine) (l : lockid) : Prop := {
  li_free : lk_locked (m_locks m l) = 0 \/ lk_locked (m_locks m l) = 1;
  li_held : lk_locked (m_locks m l) = 1 <-> exists i, owns (m_cpus m i) l;
  li_excl : forall i j, owns (m_cpus m i) l -> owns (m_cpus m j) l -> i = j;
  li_cpu : forall i, lk_cpu (m_locks m l) = Some i <->
    (l ∈ c_held (m_cpus m i) /\ c_pc (m_cpus m i) <> Rel l);
}.

Definition inv (m : machine) : Prop :=
  (forall i, cpu_inv (m_cpus m i)) /\ (forall l, lock_inv m l).

(** [holding] tells the truth. *)
Lemma holding_spec m i l :
  inv m -> holding i (m_locks m l) = true <->
    (l ∈ c_held (m_cpus m i) /\ c_pc (m_cpus m i) <> Rel l).
Proof.
  intros [_ Hl]. destruct (Hl l) as [Hf Hh He Hc]. unfold holding.
  rewrite andb_true_iff, negb_true_iff, bool_decide_eq_true, Hc. split; [tauto|].
  intros H. split; [|done]. apply Z.eqb_neq.
  assert (lk_locked (m_locks m l) = 1); [|lia]. apply Hh. exists i. by left.
Qed.

(** CPU [c] is recorded as the holder. *)
Definition holds (c : cpu) (l : lockid) : Prop := l ∈ c_held c /\ c_pc c <> Rel l.

Lemma cpus_upd m i c' l lk' j :
  m_cpus (mkm (<[i := c']> (m_cpus m)) (<[l := lk']> (m_locks m))) j
  = if decide (i = j) then c' else m_cpus m j.
Proof.
  simpl. case_decide; subst; by rewrite ?fn_lookup_insert, ?fn_lookup_insert_ne.
Qed.

(** A step of one CPU on the lock [l] leaves the other locks alone. *)
Lemma other_lock m i c' l lk' k :
  k <> l -> (owns c' k <-> owns (m_cpus m i) k) -> (holds c' k <-> holds (m_cpus m i) k) ->
  lock_inv m k -> lock_inv (mkm (<[i := c']> (m_cpus m)) (<[l := lk']> (m_locks m))) k.
Proof.
  intros Hne Ho Hh [Hf Hl He Hc].
  set (m' := mkm (<[i := c']> (m_cpus m)) (<[l := lk']> (m_locks m))).
  assert (forall j, owns (m_cpus m' j) k <-> owns (m_cpus m j) k) as Ho'.
  { intros j. unfold m'. rewrite cpus_upd. case_decide; [by subst|done]. }
  assert (forall j, holds (m_cpus m' j) k <-> holds (m_cpus m j) k) as Hh'.
  { intros j. unfold m'. rewrite cpus_upd. case_decide; [by subst|done]. }
  assert (m_locks m' k = m_locks m k) as Hk by (unfold m'; simpl; by rewrite fn_lookup_insert_ne).
  split; rewrite ?Hk; auto.
  - rewrite Hl. split; intros [j Hj]; exists j; by apply Ho'.
  - intros j1 j2 H1%Ho' H2%Ho'. auto.
  - intros j. rewrite Hc. symmetry. apply Hh'.
Qed.

(** The same for the lock itself, when only the owner may have changed. *)
Lemma this_lock m i c' l lk' :
  lk_locked lk' = 0 \/ lk_locked lk' = 1 ->
  (forall j, j <> i -> ~ owns (m_cpus m j) l) ->
  (lk_locked lk' = 1 <-> owns c' l) ->
  (lk_cpu lk' = Some i <-> holds c' l) -> (forall j, lk_cpu lk' = Some j -> j = i) ->
  lock_inv (mkm (<[i := c']> (m_cpus m)) (<[l := lk']> (m_locks m))) l.
Proof.
  intros Hf Ho Hl Hc Hi. set (m' := mkm (<[i := c']> (m_cpus m)) (<[l := lk']> (m_locks m))).
  assert (m_locks m' l = lk') as Hk by (unfold m'; simpl; by rewrite fn_lookup_insert).
  assert (m_cpus m' i = c') as Hci by (unfold m'; rewrite cpus_upd, decide_True by done; done).
  assert (forall j, owns (m_cpus m' j) l -> j = i) as Hown.
  { intros j. unfold m'. rewrite cpus_upd. case_decide; [congruence|]. intros H'. exfalso.
    apply (Ho j); congruence || done. }
  split; rewrite ?Hk; auto.
  - rewrite Hl. split; [intros H; exists i; by rewrite Hci|].
    intros [j Hj]. pose proof (Hown j Hj) as ->. by rewrite Hci in Hj.
  - intros j1 j2 ->%Hown ->%Hown. done.
  - intros j. split.
    + intros E. pose proof (Hi j E) as ->. rewrite Hci. by apply Hc.
    + intros H. assert (j = i) as -> by (apply Hown; by left). rewrite Hci in H. by apply Hc.
Qed.

Lemma inv_upd m i c' l lk' :
  inv m -> cpu_inv c' -> lock_inv (mkm (<[i := c']> (m_cpus m)) (<[l := lk']> (m_locks m))) l ->
  (forall k, k <> l -> (owns c' k <-> owns (m_cpus m i) k) /\ (holds c' k <-> holds (m_cpus m i) k)) ->
  inv (mkm (<[i := c']> (m_cpus m)) (<[l := lk']> (m_locks m))).
Proof.
  intros [Hcpu Hlk] Hc Hl Hk. split.
  - intros j. rewrite cpus_upd. by case_decide.
  - intros k. destruct (decide (k = l)) as [->|Hne]; [done|].
    destruct (Hk k Hne). by apply other_lock.
Qed.

(** A step that touches no lock word. *)
Lemma inv_upd_cpu m i c' :
  inv m -> cpu_inv c' ->
  (forall k, (owns c' k <-> owns (m_cpus m i) k) /\ (holds c' k <-> holds (m_cpus m i) k)) ->
  inv (upd_cpu i c' m).
Proof.
  intros I Hc Hk. pose proof I as [Hcpu Hlk]. split.
  - intros j. simpl. destruct (decide (i = j)) as [->|Hne].
    + by rewrite fn_lookup_insert.
    + by rewrite fn_lookup_insert_ne.
  - intros k. pose proof (Hlk k) as [Hf Hl He Hcp].
    assert (forall j, owns (m_cpus (upd_cpu i c' m) j) k <-> owns (m_cpus m j) k) as Ho'.
    { intros j. simpl. destruct (decide (i = j)) as [->|Hne].
      - rewrite fn_lookup_insert. apply Hk.
      - by rewrite fn_lookup_insert_ne. }
    assert (forall j, holds (m_cpus (upd_cpu i c' m) j) k <-> holds (m_cpus m j) k) as Hh'.
    { intros j. simpl. destruct (decide (i = j)) as [->|Hne].
      - rewrite fn_lookup_insert. apply Hk.
      - by rewrite fn_lookup_insert_ne. }
    split; auto.
    + simpl in *. rewrite Hl. split; intros [j Hj]; exists j; by apply Ho'.
    + intros j1 j2 H1%Ho' H2%Ho'. auto.
    + intros j. simpl. rewrite Hcp. symmetry. apply Hh'.
Qed.

Lemma acquire_begin_inv m i l m' :
  inv m -> c_pc (m_cpus m i) = Idle -> acquire_begin i l m = inl m' -> inv m'.
Proof.
  intros I Hp. unfold acquire_begin. destruct (holding i (m_locks m l)) eqn:Hh; [done|].
  intros [= <-]. pose proof I as [Hcpu _]. pose proof (Hcpu i) as [Hn Hi Hd Hr Hw].
  assert (l ∉ c_held (m_cpus m i)) as Hnl.
  { intros Hin. assert (holding i (m_locks m l) = true); [|congruence].
    apply holding_spec; [done|]. by rewrite Hp. }
  unfold in_flight in Hn. rewrite Hp in Hn.
  apply inv_upd_cpu; [done| |].
  - unfold set_pc, pushcli. split; simpl; [unfold in_flight; simpl; lia|done|done|done|].
    intros k [[= <-]|]; done.
  - intros k. unfold owns, holds. simpl. rewrite Hp. split; split; intuition (discriminate || eauto).
Qed.

Lemma acquire_spin_inv m i l m' :
  inv m -> c_pc (m_cpus m i) = Spin l -> acquire_spin i l m = inl m' -> inv m'.
Proof.
  intros I Hp. pose proof I as [Hcpu Hlk]. pose proof (Hcpu i) as [Hn Hi Hd Hr Hw].
  destruct (Hlk l) as [Hf Hl He Hc]. unfold acquire_spin, xchg.
  destruct (Z.eqb_spec (lk_locked (m_locks m l)) 0) as [E|E]; intros [= <-].
  - unfold upd_cpu, upd_lock. simpl. apply inv_upd; [done| | |].
    + split; simpl; [|done|done|done|].
      * unfold in_flight in *. simpl. rewrite Hp in Hn. done.
      * intros k [|[= <-]]; [done|]. apply Hw. by left.
    + assert (forall j, ~ owns (m_cpus m j) l) as Hno.
      { intros j Hj. assert (lk_locked (m_locks m l) = 1); [|lia]. apply Hl. by exists j. }
      apply this_lock; simpl; [by right|done|..].
      * split; [|done]. intros _. unfold owns. simpl. auto.
      * rewrite Hc. unfold holds. simpl. rewrite Hp. intuition discriminate.
      * intros j Hj. apply Hc in Hj. exfalso. apply (Hno j). by left.
    + intros k Hne. unfold owns, holds. simpl. rewrite Hp.
      split; split; intuition (congruence || eauto).
  - replace (upd_lock l (mklk 1 (lk_cpu (m_locks m l))) m) with
      (upd_lock l (m_locks m l) m).
    2: { f_equal. destruct Hf as [|Hf]; [done|]. rewrite <- Hf. by destruct (m_locks m l). }
    split; [exact Hcpu|]. intros k. simpl.
    assert (m_locks (upd_lock l (m_locks m l) m) k = m_locks m k) as Hk.
    { simpl. destruct (decide (l = k)) as [->|Hne].
      - by rewrite fn_lookup_insert.
      - by rewrite fn_lookup_insert_ne. }
    destruct (Hlk k) as [Hf' Hl' He' Hc']. split; rewrite ?Hk; auto.
Qed.

Lemma acquire_end_inv m i l m' :
  inv m -> c_pc (m_cpus m i) = Got l -> acquire_end i l m = inl m' -> inv m'.
Proof.
  intros I Hp. pose proof I as [Hcpu Hlk]. pose proof (Hcpu i) as [Hn Hi Hd Hr Hw].
  destruct (Hlk l) as [Hf Hl He Hc]. intros [= <-].
  assert (owns (m_cpus m i) l) as Hown by (right; by left).
  assert (l ∉ c_held (m_cpus m i)) as Hnl by (apply Hw; by right).
  assert (lk_locked (m_locks m l) = 1) as H1 by (apply Hl; by exists i).
  unfold upd_cpu, upd_lock. simpl. apply inv_upd; [done| | |].
  - split; simpl; [|done| |done|].
    + unfold in_flight in *. simpl. rewrite Hp in Hn. lia.
    + by apply NoDup_cons.
    + intros k [|]; done.
  - apply this_lock; simpl; [by right|..].
    + intros j Hne Hj. apply Hne. symmetry. by apply He.
    + split; [|done]. intros _. left. simpl. set_solver.
    + split; [|done]. intros _. split; simpl; [set_solver|done].
    + by intros j [= ->].
  - intros k Hne. unfold owns, holds. simpl. rewrite Hp, elem_of_cons.
    split; split; intuition (congruence || eauto).
Qed.

Lemma release_begin_inv m i l m' :
  inv m -> c_pc (m_cpus m i) = Idle -> release_begin i l m = inl m' -> inv m'.
Proof.
  intros I Hp. unfold release_begin. destruct (holding i (m_locks m l)) eqn:Hh; [|done].
  intros [= <-]. pose proof I as [Hcpu Hlk]. pose proof (Hcpu i) as [Hn Hi Hd Hr Hw].
  apply (holding_spec m i l I) in Hh as [Hin _]. destruct (Hlk l) as [Hf Hl He Hc].
  assert (owns (m_cpus m i) l) as Hown by (left; by rewrite Hp).
  assert (lk_locked (m_locks m l) = 1) as H1 by (apply Hl; by exists i).
  unfold upd_cpu, upd_lock. simpl. apply inv_upd; [done| | |].
  - split; simpl; [|done|done| |].
    + unfold in_flight in *. simpl. by rewrite Hp in Hn.
    + by intros k [= <-].
    + intros k [|]; done.
  - apply this_lock; simpl; [by right|..].
    + intros j Hne Hj. apply Hne. symmetry. by apply He.
    + split; [|done]. intros _. right. right. done.
    + split; [done|]. intros [_ []]. done.
    + done.
  - intros k Hne. unfold owns, holds. simpl. rewrite Hp.
    split; split; intuition (congruence || eauto).
Qed.

Lemma filter_length_ne (l : lockid) h :
  NoDup h -> l ∈ h -> S (length (filter (fun x => x ≠ l) h)) = length h.
Proof.
  induction h as [|x h IH]; intros Hnd Hin; [set_solver|].
  apply NoDup_cons in Hnd as [Hx Hnd]. rewrite filter_cons. simpl.
  apply elem_of_cons in Hin as [->|Hin].
  - rewrite decide_False by tauto. by rewrite filter_ne_id.
  - rewrite decide_True by set_solver. simpl. by rewrite IH.
Qed.

Lemma release_end_inv m i l m' :
  inv m -> c_pc (m_cpus m i) = Rel l -> release_end i l m = inl m' -> inv m'.
Proof.
  intros I Hp. pose proof I as [Hcpu Hlk]. pose proof (Hcpu i) as [Hn Hi Hd Hr Hw].
  destruct (Hlk l) as [Hf Hl He Hc]. unfold release_end, xchg, popcli.
  destruct (c_if (m_cpus m i)) eqn:Eif; [done|].
  destruct (Z.ltb_spec (c_ncli (m_cpus m i) - 1) 0) as [|Hpos]; [done|]. intros [= <-].
  pose proof (Hr l Hp) as Hin. pose proof (filter_length_ne l _ Hd Hin) as Hlen.
  unfold in_flight in Hn. rewrite Hp in Hn.
  unfold upd_cpu, upd_lock. simpl. apply inv_upd; [done| | |].
  - unfold set_pc, set_held. split; simpl.
    + unfold in_flight. simpl. lia.
    + intros Hgt. rewrite (proj2 (Z.eqb_neq _ 0)) by lia. done.
    + by apply NoDup_filter.
    + done.
    + intros k [|]; done.
  - apply this_lock; simpl; [by left|..].
    + intros j Hne Hj. apply Hne. symmetry. apply He; [|done]. right. by right.
    + split; [done|]. unfold owns. simpl. rewrite list_elem_of_filter. intuition discriminate.
    + rewrite Hc. unfold holds. simpl. rewrite list_elem_of_filter, Hp. intuition discriminate.
    + intros j Hj. apply Hc in Hj. apply He; [by left|]. right. by right.
  - intros k Hne. unfold owns, holds. simpl. rewrite list_elem_of_filter, Hp.
    split; split; intuition (congruence || eauto).
Qed.

Lemma set_if_inv m i b :
  inv m -> c_ncli (m_cpus m i) = 0 -> inv (upd_cpu i (set_if b (m_cpus m i)) m).
Proof.
  intros I Hn0. pose proof I as [Hcpu _]. destruct (Hcpu i) as [Hn Hi Hd Hr Hw].
  apply inv_upd_cpu; [done| |].
  - split; simpl; auto. lia.
  - intros k. done.
Qed.

Lemma cpu_step_inv i m a m' : inv m -> cpu_step i m a (inl m') -> inv m'.
Proof.
  intros I Hs. inversion Hs; subst.
  - by eapply acquire_begin_inv.
  - by eapply acquire_spin_inv.
  - by eapply acquire_end_inv.
  - by eapply release_begin_inv.
  - by eapply release_end_inv.
  - by apply set_if_inv.
  - by apply set_if_inv.
Qed.

(** ** Reachable machines *)

(** After a reset: no lock is held and no CPU is in the lock code; each has
    its interrupts on or off. *)
Definition machine0 (fl : nat -> bool) : machine :=
  mkm (fun i => mkcpu 0 false (fl i) Idle []) (fun _ => initlock).

Definition step (m m' : machine) : Prop := exists i a, cpu_step i m a (inl m').

Definition reachable (m : machine) : Prop := exists fl, rtc step (machine0 fl) m.

Lemma machine0_inv fl : inv (machine0 fl).
Proof.
  split; [intros i|intros l]; simpl.
  - split; simpl; [done|lia|by apply NoDup_nil|done|set_solver].
  - assert (forall i, ~ owns (m_cpus (machine0 fl) i) l) as Hno.
    { intros i [[Hin _]|[|[]]]; [|done|done]. simpl in Hin. set_solver. }
    split; simpl; [by left| | |].
    + split; [done|]. intros [i Hi]. by apply Hno in Hi.
    + intros i j Hi. by apply Hno in Hi.
    + intros i. split; [done|]. set_solver.
Qed.

Lemma reachable_inv m : reachable m -> inv m.
Proof.
  intros [fl Hr]. pose proof (machine0_inv fl) as I. revert I.
  induction Hr as [m|m1 m2 m3 (i & a & Hs) Hr IH]; [done|]. intros I. apply IH.
  by eapply cpu_step_inv.
Qed.

Lemma held_interrupts_off m i :
  reachable m -> c_held (m_cpus m i) <> [] -> c_if (m_cpus m i) = false.
Proof.
  intros Hr Hh. destruct (reachable_inv m Hr) as [Hcpu _]. destruct (Hcpu i) as [Hn Hi _ _ _].
  apply Hi. rewrite Hn. destruct (c_held (m_cpus m i)); [done|].
  unfold in_flight. simpl. destruct (c_pc (m_cpus m i)); lia.
Qed.

(** Three steps of one CPU: it has acquired the lock. *)
Definition after (r : machine + string) : machine :=
  match r with inl m => m | inr _ => machine0 (fun _ => true) end.
Definition spin_demo1 : machine := after (acquire_begin 0 LkLog (machine0 (fun _ => true))).
Definition spin_demo2 : machine := after (acquire_spin 0 LkLog spin_demo1).
Definition spin_demo : machine := after (acquire_end 0 LkLog spin_demo2).

Lemma spin_demo_reachable : reachable spin_demo.
Proof.
  exists (fun _ => true). apply (rtc_l _ _ spin_demo1).
  { exists 0%nat, (AAcquire LkLog). exact (st_acquire 0 (machine0 (fun _ => true)) LkLog eq_refl). }
  apply (rtc_l _ _ spin_demo2).
  { exists 0%nat, AGo. exact (st_spin 0 spin_demo1 LkLog eq_refl). }
  apply (rtc_l _ _ spin_demo); [|apply rtc_refl].
  exists 0%nat, AGo. exact (st_got 0 spin_demo2 LkLog eq_refl).
Qed.

(** C25: Spin locks exclude each other on any number of CPUs, whatever the
    interleaving of their atomic exchanges: two CPUs that hold the same lock
    are the same CPU, a CPU that holds a lock has its interrupts off, and its
    [ncli] counts the locks it holds plus the one it is acquiring. *)
Theorem spinlock_mutex m :
  reachable m ->
  (forall i j l, l ∈ c_held (m_cpus m i) -> l ∈ c_held (m_cpus m j) -> i = j) /\
  (forall i, c_held (m_cpus m i) <> [] -> c_if (m_cpus m i) = false) /\
  (forall i, c_ncli (m_cpus m i) = Z.of_nat (length (c_held (m_cpus m i))) + in_flight (m_cpus m i)).
Proof.
  intros Hr. pose proof (reachable_inv m Hr) as [Hcpu Hlk]. split_and!.
  - intros i j l Hi Hj. apply (li_excl _ _ (Hlk l)).
    + destruct (decide (c_pc (m_cpus m i) = Rel l)); [right; by right|by left].
    + destruct (decide (c_pc (m_cpus m j) = Rel l)); [right; by right|by left].
  - intros i. by apply held_interrupts_off.
  - intros i. apply (Hcpu i).
Qed.

Lemma spinlock_mutex_witness :
  c_held (m_cpus spin_demo 0%nat) = [LkLog] /\ c_if (m_cpus spin_demo 0%nat) = false.
Proof.
  split; [reflexivity|]. destruct (spinlock_mutex spin_demo spin_demo_reachable) as (_ & H & _).
  apply H. discriminate.
Defined.

(** The lock code panics only on misuse: the only steps of reachable
    machines that panic are [acquire] of a lock the CPU already holds and
    [release] of one it does not hold; [popcli] never does. *)
Theorem spinlock_panics m i a e :
  reachable m -> cpu_step i m a (inr e) ->
  (exists l, a = AAcquire l /\ l ∈ c_held (m_cpus m i)) \/
  (exists l, a = ARelease l /\ ~ l ∈ c_held (m_cpus m i)).
Proof.
  intros Hr Hs. pose proof (reachable_inv m Hr) as I. pose proof I as [Hcpu _].
  inversion Hs as [l Hp|l Hp Ha|l Hp|l Hp|l Hp| |]; subst.
  - left. exists l. split; [done|]. unfold acquire_begin in *.
    destruct (holding i (m_locks m l)) eqn:Hh; [|done]. by apply holding_spec in Hh as [? _].
  - unfold acquire_spin, xchg in *. by destruct (lk_locked (m_locks m l) =? 0).
  - right. exists l. split; [done|]. intros Hin. unfold release_begin in *.
    assert (holding i (m_locks m l) = true) as Hh by (apply holding_spec; [done|by rewrite Hp]).
    by rewrite Hh in *.
  - exfalso. destruct (Hcpu i) as [Hn Hi _ Hrel _]. specialize (Hrel l Hp).
    destruct (c_held (m_cpus m i)) as [|x h] eqn:Eh; [set_solver|].
    unfold in_flight in Hn. rewrite Hp in Hn. simpl in Hn.
    unfold release_end, xchg, popcli in *. rewrite Hi in * by lia.
    destruct (Z.ltb_spec (c_ncli (m_cpus m i) - 1) 0); [lia|done].
Qed.

Lemma spinlock_panics_witness :
  (exists l, AAcquire LkLog = AAcquire l /\ l ∈ c_held (m_cpus spin_demo 0%nat)) \/
  (exists l, AAcquire LkLog = ARelease l /\ ~ l ∈ c_held (m_cpus spin_demo 0%nat)).
Proof.
  apply (spinlock_panics spin_demo 0 (AAcquire LkLog) "acquire" spin_demo_reachable).
  exact (st_acquire 0 spin_demo LkLog eq_refl).
Defined.

(** ** Whole calls of [acquire] and [release] *)

(** A step of any CPU while CPU [i] is inside a call: all CPU [i] can do is
    to go on with it. *)
Definition step_in (i : nat) (m m' : machine) : Prop :=
  exists j a, cpu_step j m a (inl m') /\ (j = i -> a = AGo).

(** The call that CPU [i] has begun in [m1] returns in [m']: the last step is
    CPU [i]'s own and takes it out of the lock code. *)
Definition returns (i : nat) (m1 m' : machine) : Prop :=
  exists m2, rtc (step_in i) m1 m2 /\ c_pc (m_cpus m2 i) <> Idle /\
    cpu_step i m2 AGo (inl m') /\ c_pc (m_cpus m' i) = Idle.

Definition acquire_returns (i : nat) (l : lockid) (m m' : machine) : Prop :=
  exists m1, acquire_begin i l m = inl m1 /\ returns i m1 m'.

Definition release_returns (i : nat) (l : lockid) (m m' : machine) : Prop :=
  exists m1, release_begin i l m = inl m1 /\ returns i m1 m'.

(** The steps of other CPUs do not change the state of CPU [i]. *)
Lemma cpu_step_other i j m a m' :
  cpu_step j m a (inl m') -> j <> i -> m_cpus m' i = m_cpus m i.
Proof.
  intros Hs Hne. inversion Hs as [l Hp E|l Hp E|l Hp E|l Hp E|l Hp E| |]; subst;
    try (simpl; by rewrite fn_lookup_insert_ne).
  - unfold acquire_begin in *. destruct (holding j (m_locks m l)); simplify_eq.
    simpl. by rewrite fn_lookup_insert_ne.
  - unfold acquire_spin, xchg in *. destruct (lk_locked (m_locks m l) =? 0); simplify_eq; simpl; [|done].
    by rewrite fn_lookup_insert_ne.
  - unfold release_begin in *. destruct (holding j (m_locks m l)); simpl in *; simplify_eq.
    simpl. by rewrite fn_lookup_insert_ne.
  - unfold release_end, xchg in *. destruct (popcli (m_cpus m j)); simplify_eq.
    simpl. by rewrite fn_lookup_insert_ne.
Qed.

(** The steps of a CPU inside the lock code. *)
Lemma go_cases i m r :
  cpu_step i m AGo r ->
  (exists l, c_pc (m_cpus m i) = Spin l /\ acquire_spin i l m = r) \/
  (exists l, c_pc (m_cpus m i) = Got l /\ acquire_end i l m = r) \/
  (exists l, c_pc (m_cpus m i) = Rel l /\ release_end i l m = r).
Proof. inversion 1; subst; eauto 6. Qed.

(** What CPU [i] looks like during a call of [acquire] begun with state [c],
    and when the call has returned. *)
Definition acquired (l : lockid) (c : cpu) : cpu := set_held (l :: c_held c) (pushcli c).

Definition acquiring (l : lockid) (c c' : cpu) : Prop :=
  c' = set_pc (Spin l) (pushcli c) \/ c' = set_pc (Got l) (pushcli c) \/
  c' = set_pc Idle (acquired l c).

Lemma acquiring_go i l m c m' :
  acquiring l c (m_cpus m i) -> cpu_step i m AGo (inl m') ->
  acquiring l c (m_cpus m' i) /\
  (c_pc (m_cpus m' i) = Idle -> c_pc (m_cpus m i) = Got l /\ acquire_end i l m = inl m').
Proof.
  intros Ha Hs. unfold acquiring in *.
  destruct (go_cases _ _ _ Hs) as [(k & Hp & E)|[(k & Hp & E)|(k & Hp & E)]];
    destruct Ha as [Ha|[Ha|Ha]]; pose proof Hp as Hp'; rewrite Ha in Hp'; simpl in Hp'; simplify_eq.
  - unfold acquire_spin, xchg in E.
    destruct (lk_locked (m_locks m k) =? 0); injection E as <-; cbn [m_cpus upd_cpu upd_lock].
    + rewrite fn_lookup_insert, Ha. split; [right; by left|discriminate].
    + rewrite Ha. split; [by left|discriminate].
  - rewrite Ha. split; [|done]. unfold acquire_end in E. injection E as <-.
    cbn [m_cpus upd_cpu upd_lock]. rewrite fn_lookup_insert, Ha. right. by right.
Qed.

Lemma acquiring_run i l c m1 m2 :
  rtc (step_in i) m1 m2 -> inv m1 -> acquiring l c (m_cpus m1 i) ->
  inv m2 /\ acquiring l c (m_cpus m2 i).
Proof.
  induction 1 as [m|m1 m2 m3 (j & a & Hs & Hj) _ IH]; intros I Ha; [done|]. apply IH.
  - by eapply cpu_step_inv.
  - destruct (decide (j = i)) as [->|Hne].
    + rewrite (Hj eq_refl) in Hs. by apply (acquiring_go i l m1 c m2).
    + by rewrite (cpu_step_other i j m1 a m2).
Qed.

(** The same for [release]. *)
Definition released (l : lockid) (c : cpu) : cpu :=
  mkcpu (c_ncli c - 1) (c_intena c) ((c_ncli c - 1 =? 0) && c_intena c) Idle
    (filter (fun x => x ≠ l) (c_held c)).

Definition releasing (l : lockid) (c c' : cpu) : Prop :=
  c' = set_pc (Rel l) c \/ c' = released l c.

Lemma release_end_ok i l m :
  inv m -> c_pc (m_cpus m i) = Rel l ->
  release_end i l m = inl (upd_cpu i (released l (m_cpus m i))
                             (upd_lock l (mklk 0 (lk_cpu (m_locks m l))) m)).
Proof.
  intros [Hcpu _] Hp. destruct (Hcpu i) as [Hn Hi _ Hr _]. specialize (Hr l Hp).
  unfold in_flight in Hn. rewrite Hp in Hn.
  destruct (c_held (m_cpus m i)) as [|x h] eqn:Eh; [set_solver|]. simpl in Hn.
  unfold release_end, xchg, popcli, released. rewrite Hi by lia.
  destruct (Z.ltb_spec (c_ncli (m_cpus m i) - 1) 0); [lia|done].
Qed.

Lemma releasing_go i l m c m' :
  inv m -> releasing l c (m_cpus m i) -> cpu_step i m AGo (inl m') ->
  m_cpus m i = set_pc (Rel l) c /\ m_cpus m' i = released l c /\ lk_locked (m_locks m' l) = 0.
Proof.
  intros I Ha Hs. unfold releasing in Ha.
  destruct (go_cases _ _ _ Hs) as [(k & Hp & E)|[(k & Hp & E)|(k & Hp & E)]];
    destruct Ha as [Ha|Ha]; pose proof Hp as Hp'; rewrite Ha in Hp'; simpl in Hp'; simplify_eq.
  rewrite release_end_ok in E by (done || by rewrite Ha). injection E as <-.
  cbn [m_cpus m_locks upd_cpu upd_lock]. by rewrite !fn_lookup_insert, Ha.
Qed.

Lemma releasing_run i l c m1 m2 :
  rtc (step_in i) m1 m2 -> inv m1 -> releasing l c (m_cpus m1 i) ->
  inv m2 /\ releasing l c (m_cpus m2 i).
Proof.
  induction 1 as [m|m1 m2 m3 (j & a & Hs & Hj) _ IH]; intros I Ha; [done|]. apply IH.
  - by eapply cpu_step_inv.
  - destruct (decide (j = i)) as [->|Hne].
    + rewrite (Hj eq_refl) in Hs. right. by apply (releasing_go i l m1 c m2).
    + by rewrite (cpu_step_other i j m1 a m2).
Qed.

(** The lock after a call has returned. *)
Lemma acquire_return i l m m' :
  inv m -> c_pc (m_cpus m i) = Idle -> acquire_returns i l m m' ->
  m_cpus m' i = set_pc Idle (acquired l (m_cpus m i)) /\ m_locks m' l = mklk 1 (Some i) /\
  (forall j, j <> i -> l ∉ c_held (m_cpus m' j)).
Proof.
  intros I Hp (m1 & Hb & m2 & Hrun & Hp2 & Hs & Hp').
  pose proof (acquire_begin_inv _ _ _ _ I Hp Hb) as I1.
  unfold acquire_begin in Hb. destruct (holding i (m_locks m l)); [done|]. injection Hb as <-.
  destruct (acquiring_run i l (m_cpus m i) _ _ Hrun I1) as [I2 Ha2].
  { simpl. rewrite fn_lookup_insert. by left. }
  destruct (acquiring_go i l m2 (m_cpus m i) m' Ha2 Hs) as [Ha' He].
  destruct (He Hp') as [Hgot E]. pose proof (cpu_step_inv _ _ _ _ I2 Hs) as [_ Hlk'].
  split; [by destruct Ha' as [Ha'|[Ha'|Ha']]; rewrite Ha' in Hp'|].
  destruct I2 as [_ Hlk]. destruct (Hlk l) as [_ Hh Hx _].
  assert (lk_locked (m_locks m2 l) = 1) as H1.
  { apply Hh. exists i. right. by left. }
  unfold acquire_end in E. injection E as <-. cbn [m_cpus m_locks upd_cpu upd_lock].
  rewrite fn_lookup_insert, H1. split; [done|]. intros j Hne.
  rewrite fn_lookup_insert_ne by done. intros Hin. apply Hne. apply Hx; [|right; by left].
  destruct (decide (c_pc (m_cpus m2 j) = Rel l)); [right; by right|by left].
Qed.

Lemma release_return i l m m' :
  inv m -> c_pc (m_cpus m i) = Idle -> release_returns i l m m' ->
  m_cpus m' i = released l (m_cpus m i) /\ m_locks m' l = mklk 0 None.
Proof.
  intros I Hp (m1 & Hb & m2 & Hrun & Hp2 & Hs & Hp').
  pose proof (release_begin_inv _ _ _ _ I Hp Hb) as I1.
  unfold release_begin in Hb. destruct (holding i (m_locks m l)); [|done]. injection Hb as <-.
  destruct (releasing_run i l (m_cpus m i) _ _ Hrun I1) as [I2 Ha2].
  { simpl. rewrite fn_lookup_insert. by left. }
  destruct (releasing_go i l m2 (m_cpus m i) m' I2 Ha2 Hs) as (_ & E & H0).
  pose proof (cpu_step_inv _ _ _ _ I2 Hs) as [_ Hlk']. split; [done|].
  destruct (Hlk' l) as [_ Hh _ Hc]. destruct (m_locks m' l) as [v [j|]]; simpl in *; [|by subst].
  assert (v = 1); [|lia]. apply Hh. exists j. left. by apply Hc.
Qed.

(** A CPU that spins on a lock word: two steps of its own take it out of
    [acquire] when the lock is free, and none changes the machine when it is
    not. *)
Lemma spin_progress i l m :
  inv m -> c_pc (m_cpus m i) = Spin l ->
  (lk_locked (m_locks m l) = 0 ->
   exists m1 m2, cpu_step i m AGo (inl m1) /\ cpu_step i m1 AGo (inl m2) /\
     c_pc (m_cpus m1 i) = Got l /\ c_pc (m_cpus m2 i) = Idle) /\
  (lk_locked (m_locks m l) <> 0 ->
   forall m1, cpu_step i m AGo (inl m1) ->
     m_cpus m1 = m_cpus m /\ forall k, m_locks m1 k = m_locks m k).
Proof.
  intros [_ Hlk] Hp. split.
  - intros H0.
    assert (exists m1, acquire_spin i l m = inl m1 /\ c_pc (m_cpus m1 i) = Got l) as (m1 & E & Hg).
    { unfold acquire_spin, xchg. rewrite H0. eexists. split; [done|]. simpl. by rewrite fn_lookup_insert. }
    assert (exists m2, acquire_end i l m1 = inl m2 /\ c_pc (m_cpus m2 i) = Idle) as (m2 & E2 & Hi).
    { eexists. split; [reflexivity|]. simpl. by rewrite fn_lookup_insert. }
    exists m1, m2. rewrite <- E, <- E2. split_and!; [by apply st_spin|by apply st_got|done..].
  - intros H1 m1 Hs. destruct (go_cases _ _ _ Hs) as [(k & Hp' & E)|[(k & Hp' & E)|(k & Hp' & E)]];
      rewrite Hp in Hp'; simplify_eq.
    unfold acquire_spin, xchg in E. destruct (Z.eqb_spec (lk_locked (m_locks m k)) 0); [done|].
    injection E as <-. split; [done|]. intros x. simpl. destruct (decide (k = x)) as [->|Hne].
    + rewrite fn_lookup_insert. destruct (Hlk x) as [[|H] _ _ _]; [done|].
      rewrite <- H. by destruct (m_locks m x).
    + by rewrite fn_lookup_insert_ne.
Qed.

(** Hence a call of [acquire] that spins on a free lock can return. *)
Lemma acquire_progress i l m :
  inv m -> c_pc (m_cpus m i) = Idle -> holding i (m_locks m l) = false ->
  exists m1, acquire_begin i l m = inl m1 /\ c_pc (m_cpus m1 i) = Spin l /\
    forall m2, rtc (step_in i) m1 m2 -> c_pc (m_cpus m2 i) = Spin l ->
      (lk_locked (m_locks m2 l) = 0 -> exists m3 m4,
         cpu_step i m2 AGo (inl m3) /\ cpu_step i m3 AGo (inl m4) /\ acquire_returns i l m m4) /\
      (lk_locked (m_locks m2 l) <> 0 -> forall m3, cpu_step i m2 AGo (inl m3) ->
         m_cpus m3 = m_cpus m2 /\ forall k, m_locks m3 k = m_locks m2 k).
Proof.
  intros I Hp Hh.
  assert (exists m1, acquire_begin i l m = inl m1 /\
    m_cpus m1 i = set_pc (Spin l) (pushcli (m_cpus m i))) as (m1 & Hb & Hsp).
  { unfold acquire_begin. rewrite Hh. eexists. split; [done|]. simpl. by rewrite fn_lookup_insert. }
  exists m1. split_and!; [done|by rewrite Hsp|]. intros m2 Hrun Hp2.
  pose proof (acquire_begin_inv _ _ _ _ I Hp Hb) as I1.
  destruct (acquiring_run i l (m_cpus m i) _ _ Hrun I1) as [I2 _]; [rewrite Hsp; by left|].
  destruct (spin_progress i l m2 I2 Hp2) as [Hf Hb2]. split; [|done].
  intros H0. destruct (Hf H0) as (m3 & m4 & S1 & S2 & G & D). exists m3, m4.
  split_and!; [done..|]. exists m1. split; [done|]. exists m3.
  split_and!; [|by rewrite G|done..]. eapply rtc_r; [done|]. by exists i, AGo.
Qed.

Lemma release_progress i l m :
  inv m -> c_pc (m_cpus m i) = Idle -> holding i (m_locks m l) = true ->
  exists m1, release_begin i l m = inl m1 /\ c_pc (m_cpus m1 i) = Rel l /\
    forall m2, rtc (step_in i) m1 m2 -> c_pc (m_cpus m2 i) = Rel l ->
      exists m3, release_end i l m2 = inl m3 /\ release_returns i l m m3.
Proof.
  intros I Hp Hh.
  assert (exists m1, release_begin i l m = inl m1 /\ m_cpus m1 i = set_pc (Rel l) (m_cpus m i))
    as (m1 & Hb & Hsp).
  { unfold release_begin. rewrite Hh. eexists. split; [done|]. simpl. by rewrite fn_lookup_insert. }
  exists m1. split_and!; [done|by rewrite Hsp|]. intros m2 Hrun Hp2.
  pose proof (release_begin_inv _ _ _ _ I Hp Hb) as I1.
  destruct (releasing_run i l (m_cpus m i) _ _ Hrun I1) as [I2 _]; [rewrite Hsp; by left|].
  eexists. split; [by apply release_end_ok|].
  exists m1. split; [done|]. exists m2. split_and!; [done|by rewrite Hp2| |].
  - rewrite <- release_end_ok by done. by apply st_rel.
  - simpl. by rewrite fn_lookup_insert.
Qed.

(** C26: The lock code implements the interface the rest of the kernel is
    verified against, whole call by whole call and whatever the other CPUs do
    meanwhile.  For a CPU outside the lock code whose held locks are
    [k_held s]: where the abstract [acquire] or [release] panics, the code
    panics with the same message.  Where [acquire] returns, every return of
    the code leaves the CPU with the held locks of the abstract state, the
    lock word 1 and the CPU its recorded and only holder, interrupts off and
    the flag they had saved by the outermost call; while the call spins, the
    next two steps of the CPU end it when the lock is free, and its steps
    change nothing when it is not.  Where [release] returns, the code does not
    panic and its next step is the return, with the held locks of the abstract
    state, the lock word 0 and no recorded holder, and interrupts on only when
    it was the last lock and they had been on. *)
Theorem spinlock_refines m i l s :
  reachable m -> c_pc (m_cpus m i) = Idle -> k_held s = c_held (m_cpus m i) ->
  match acquire l s with
  | Panic e _ => acquire_begin i l m = inr e
  | Ret _ s' =>
      (forall m', acquire_returns i l m m' ->
         c_held (m_cpus m' i) = k_held s' /\ m_locks m' l = mklk 1 (Some i) /\
         (forall j, j <> i -> l ∉ c_held (m_cpus m' j)) /\ c_if (m_cpus m' i) = false /\
         c_intena (m_cpus m' i)
         = match k_held s with [] => c_if (m_cpus m i) | _ => c_intena (m_cpus m i) end) /\
      exists m1, acquire_begin i l m = inl m1 /\ c_pc (m_cpus m1 i) = Spin l /\
        forall m2, rtc (step_in i) m1 m2 -> c_pc (m_cpus m2 i) = Spin l ->
          (lk_locked (m_locks m2 l) = 0 -> exists m3 m4,
             cpu_step i m2 AGo (inl m3) /\ cpu_step i m3 AGo (inl m4) /\ acquire_returns i l m m4) /\
          (lk_locked (m_locks m2 l) <> 0 -> forall m3, cpu_step i m2 AGo (inl m3) ->
             m_cpus m3 = m_cpus m2 /\ forall k, m_locks m3 k = m_locks m2 k)
  | _ => False
  end /\
  match release l s with
  | Panic e _ => release_begin i l m = inr e
  | Ret _ s' =>
      (forall m', release_returns i l m m' ->
         c_held (m_cpus m' i) = k_held s' /\ m_locks m' l = mklk 0 None /\
         c_intena (m_cpus m' i) = c_intena (m_cpus m i) /\
         c_if (m_cpus m' i)
         = match k_held s' with [] => c_intena (m_cpus m i) | _ => false end) /\
      exists m1, release_begin i l m = inl m1 /\ c_pc (m_cpus m1 i) = Rel l /\
        forall m2, rtc (step_in i) m1 m2 -> c_pc (m_cpus m2 i) = Rel l ->
          exists m3, release_end i l m2 = inl m3 /\ release_returns i l m m3
  | _ => False
  end.
Proof.
  intros Hr Hp Hs. pose proof (reachable_inv m Hr) as I. pose proof I as [Hcpu _].
  destruct (Hcpu i) as [Hn Hi Hnd _ _]. unfold in_flight in Hn. rewrite Hp in Hn.
  assert (holding i (m_locks m l) = true <-> l ∈ k_held s) as Hh.
  { rewrite (holding_spec m i l I), Hs, Hp. split; [tauto|]. intros. split; [done|discriminate]. }
  split.
  - unfold acquire, mbind, M_bind. cbn [obind gets].
    destruct (decide (l ∈ k_held s)) as [Hin|Hin]; simpl.
    { unfold acquire_begin. apply Hh in Hin. by rewrite Hin. }
    split.
    + intros m' H. destruct (acquire_return i l m m' I Hp H) as (E & El & Ex). rewrite E.
      simpl. rewrite Hs. split_and!; [done..|]. rewrite Hn.
      by destruct (c_held (m_cpus m i)).
    + apply acquire_progress; [done..|]. destruct (holding i (m_locks m l)); [tauto|done].
  - unfold release, mbind, M_bind. cbn [obind gets].
    destruct (decide (l ∈ k_held s)) as [Hin|Hin]; simpl.
    2: { unfold release_begin. destruct (holding i (m_locks m l)); [tauto|done]. }
    split.
    + intros m' H. destruct (release_return i l m m' I Hp H) as [E El]. rewrite E.
      simpl. rewrite Hs in *. split_and!; [done..|].
      pose proof (filter_length_ne l _ Hnd Hin) as Hlen.
      destruct (filter (fun x => x ≠ l) (c_held (m_cpus m i))); simpl in Hlen.
      * by rewrite (proj2 (Z.eqb_eq _ 0)) by lia.
      * by rewrite (proj2 (Z.eqb_neq _ 0)) by lia.
    + apply release_progress; [done..|]. by apply Hh.
Qed.

Lemma spinlock_refines_witness :
  acquire_begin 0 LkLog spin_demo = inr "acquire" /\
  exists m1, release_begin 0 LkLog spin_demo = inl m1 /\ c_pc (m_cpus m1 0%nat) = Rel LkLog /\
    forall m2, rtc (step_in 0) m1 m2 -> c_pc (m_cpus m2 0%nat) = Rel LkLog ->
      exists m3, release_end 0 LkLog m2 = inl m3 /\ release_returns 0 LkLog spin_demo m3.
Proof.
  destruct (spinlock_refines spin_demo 0 LkLog (set_k_held [LkLog] inhabitant) spin_demo_reachable
    eq_refl eq_refl) as [H1 H2].
  split; [exact H1|exact (proj2 H2)].
Defined.
