(* ===== verification/Bio.v ===== *)
(** * The buffer cache ([bio.c]) over the memory disk ([memide.c])

    Buffers are entries of the table [k_bufs], linked into the ring that keeps
    them by their last use ([Dll.v]).  [iderw] is the memory disk's: it copies
    a sector at once and records every write in the trace of the disk.

    [bio_inv] is the invariant of the cache: the ring goes through every buffer
    once, no sector is cached twice, and a valid buffer nobody holds or has changed
    holds the contents of its sector.  The rest of the file is what each
    operation does under it: [bget] finds the buffer of a sector or recycles the
    least recently used one nobody holds, [bread] returns it with the contents
    of the disk, [bwrite] stores it, [brelse] gives it back. *)

From S2P Require Import Prelude Monad State Dll Sched.

(** ** The disk driver *)

Definition blk (d : disk) (n : Z) : list Z :=
  default (replicate (Z.to_nat BSIZE) 0) (dk_blocks d !! n).

Definition disk_write (n : Z) (data : list Z) (d : disk) : disk :=
  mkdisk (<[n := data]> (dk_blocks d)) (dk_size d) (dk_trace d ++ [(n, data)]).

(** [iderw] of [memide.c]. *)
Definition iderw (b : nat) : K unit :=
  r ← getbuf b;
  if negb (has (b_flags r) B_BUSY) then panic "iderw: buf not busy"
  else if Z.land (b_flags r) (Z.lor B_VALID B_DIRTY) =? B_VALID
  then panic "iderw: nothing to do"
  else if negb (b_dev r =? 1) then panic "iderw: request not for disk 1"
  else
    d ← gets k_disk;
    if dk_size d <=? b_sector r then panic "iderw: sector out of range"
    else
      (if has (b_flags r) B_DIRTY then
         modify (upd_buf b (set_b_flags (clear_flag (b_flags r) B_DIRTY)));;
         modify (set_k_disk (disk_write (b_sector r) (b_data r) d))
       else
         modify (upd_buf b (set_b_data (blk d (b_sector r)))));;
      r' ← getbuf b;
      modify (upd_buf b (set_b_flags (set_flag (b_flags r') B_VALID))).

(** ** The cache *)

(** [binit]: every buffer is pushed on the list behind the head. *)
Definition binit_body (b : nat) : K unit :=
  h ← getbuf NBUF;
  modify (upd_buf b (set_b_next (b_next h)));;
  modify (upd_buf b (set_b_prev NBUF));;
  modify (upd_buf b (set_b_dev (u32 (-1))));;
  h ← getbuf NBUF;
  modify (upd_buf (b_next h) (set_b_prev b));;
  modify (upd_buf NBUF (set_b_next b)).

Definition binit : K unit :=
  modify (upd_buf NBUF (set_b_prev NBUF));;
  modify (upd_buf NBUF (set_b_next NBUF));;
  for_each (seq 0 NBUF) binit_body.

(** [for(b = step(head); b != &head; b = step(b)) if(test(b)) ...]: the first
    buffer of the list that passes [test]. *)
Definition bscan (step : buf -> nat) (test : buf -> bool) : K (option nat) :=
  h ← getbuf NBUF;
  loop (S NBUF) (fun b =>
    if bool_decide (b = NBUF) then mret (inr None)
    else
      r ← getbuf b;
      if test r then mret (inr (Some b)) else mret (inl (step r))) (step h).

Definition is_block (dev sector : Z) (r : buf) : bool :=
  (b_dev r =? dev) && (b_sector r =? sector).

Definition is_clean (r : buf) : bool :=
  (Z.land (b_flags r) B_BUSY =? 0) && (Z.land (b_flags r) B_DIRTY =? 0).

Section Bio.
Context {WF : WakeFuel}.

Definition bget (dev sector : Z) : K nat :=
  acquire LkBcache;;
  loop (S wake_fuel) (fun _ : unit =>
    (* Is the sector already cached? *)
    hit ← bscan b_next (is_block dev sector);
    match hit with
    | Some b =>
        r ← getbuf b;
        if negb (has (b_flags r) B_BUSY) then
          modify (upd_buf b (set_b_flags (set_flag (b_flags r) B_BUSY)));;
          release LkBcache;;
          mret (inr b)
        else
          sleep (ChBuf b) LkBcache;;
          mret (inl tt)
    | None =>
        (* Not cached; recycle some non-busy and clean buffer. *)
        victim ← bscan b_prev is_clean;
        match victim with
        | Some b =>
            modify (upd_buf b (set_b_dev dev));;
            modify (upd_buf b (set_b_sector sector));;
            modify (upd_buf b (set_b_flags B_BUSY));;
            release LkBcache;;
            mret (inr b)
        | None => panic "bget: no buffers"
        end
    end) tt.

Definition bread (dev sector : Z) : K nat :=
  b ← bget dev sector;
  r ← getbuf b;
  (if negb (has (b_flags r) B_VALID) then iderw b else mret tt);;
  mret b.

End Bio.

Definition bwrite (b : nat) : K unit :=
  r ← getbuf b;
  if negb (has (b_flags r) B_BUSY) then panic "bwrite"
  else
    modify (upd_buf b (set_b_flags (set_flag (b_flags r) B_DIRTY)));;
    iderw b.

Definition brelse (b : nat) : K unit :=
  r ← getbuf b;
  if negb (has (b_flags r) B_BUSY) then panic "brelse"
  else
    acquire LkBcache;;
    r ← getbuf b;
    modify (upd_buf (b_next r) (set_b_prev (b_prev r)));;
    r ← getbuf b;
    modify (upd_buf (b_prev r) (set_b_next (b_next r)));;
    h ← getbuf NBUF;
    modify (upd_buf b (set_b_next (b_next h)));;
    modify (upd_buf b (set_b_prev NBUF));;
    h ← getbuf NBUF;
    modify (upd_buf (b_next h) (set_b_prev b));;
    modify (upd_buf NBUF (set_b_next b));;
    r ← getbuf b;
    modify (upd_buf b (set_b_flags (clear_flag (b_flags r) B_BUSY)));;
    wakeup (ChBuf b);;
    release LkBcache.

(** ** Walking the list *)

(** The [next] and [prev] pointers of the list of buffers. *)
Definition bnx (bs : list buf) (i : nat) : nat := b_next (bs !!! i).
Definition bpv (bs : list buf) (i : nat) : nat := b_prev (bs !!! i).

(** Walking the list of buffers finds the first one that passes the test. *)
Lemma bscan_loop (step : buf -> nat) (test : buf -> bool) pv x l fuel s :
  chain (fun i => step (k_bufs s !!! i)) pv x l NBUF -> NBUF ∉ l ->
  (length l < fuel)%nat ->
  loop fuel (fun b =>
    if bool_decide (b = NBUF) then mret (inr None)
    else
      r ← getbuf b;
      if test r then mret (inr (Some b)) else mret (inl (step r)))
    (step (k_bufs s !!! x)) s
  = Ret (List.find (fun b => test (k_bufs s !!! b)) l) s.
Proof.
  revert x fuel. induction l as [|z l IH]; intros x fuel Hc Hn Hf.
  - destruct fuel as [|fuel]; [simpl in Hf; lia|]. destruct Hc as [Hx _].
    cbn [loop]. rewrite Hx. unfold mbind, M_bind.
    by rewrite bool_decide_true.
  - destruct fuel as [|fuel]; [simpl in Hf; lia|]. destruct Hc as (Hx & _ & Hc).
    cbn [loop]. rewrite Hx. unfold mbind, M_bind.
    rewrite bool_decide_false by set_solver. simpl.
    destruct (test (k_bufs s !!! z)); [done|]. simpl.
    apply IH; [done|set_solver|simpl in Hf; lia].
Qed.

Lemma bscan_next_ok test l s :
  chain (bnx (k_bufs s)) (bpv (k_bufs s)) NBUF l NBUF -> NBUF ∉ l ->
  (length l <= NBUF)%nat ->
  bscan b_next test s = Ret (List.find (fun b => test (k_bufs s !!! b)) l) s.
Proof.
  intros Hc Hn Hl. unfold bscan, mbind, M_bind. cbn [obind getbuf gets].
  eapply bscan_loop; eauto. lia.
Qed.

Lemma bscan_prev_ok test l s :
  chain (bnx (k_bufs s)) (bpv (k_bufs s)) NBUF l NBUF -> NBUF ∉ l ->
  (length l <= NBUF)%nat ->
  bscan b_prev test s = Ret (List.find (fun b => test (k_bufs s !!! b)) (reverse l)) s.
Proof.
  intros Hc Hn Hl. apply chain_rev in Hc.
  unfold bscan, mbind, M_bind. cbn [obind getbuf gets].
  eapply bscan_loop; eauto; [set_solver|]. rewrite length_reverse. lia.
Qed.
(** ** What the cache promises to the layers above

    [bio_inv bs d V H D] describes a cache [bs] over a disk [d]: [V] is the
    contents of every sector as the kernel sees it (the cached copy if there
    is one), [H] maps the buffers in use ([B_BUSY]) to their sectors, and [D]
    is the set of sectors pinned in the cache because they were modified and
    not yet written ([B_DIRTY]). *)

Definition busy (r : buf) : bool := has (b_flags r) B_BUSY.
Definition valid (r : buf) : bool := has (b_flags r) B_VALID.
Definition dirty (r : buf) : bool := has (b_flags r) B_DIRTY.

Definition list_wf (bs : list buf) (l : list nat) : Prop :=
  (l ≡ₚ seq 0 NBUF) /\ chain (bnx bs) (bpv bs) NBUF l NBUF.

Record bio_inv (bs : list buf) (d : disk) (V : Z -> list Z) (H : gmap nat Z) (D : gset Z)
  : Prop := {
  bi_len : length bs = S NBUF;
  bi_list : exists l, list_wf bs l;
  bi_uniq : forall i j, (i < NBUF)%nat -> (j < NBUF)%nat ->
    b_dev (bs !!! i) = 1 -> b_dev (bs !!! j) = 1 ->
    b_sector (bs !!! i) = b_sector (bs !!! j) -> i = j;
  bi_busy : forall i, (i < NBUF)%nat ->
    H !! i = if busy (bs !!! i) then Some (b_sector (bs !!! i)) else None;
  bi_hdom : forall i, is_Some (H !! i) -> (i < NBUF)%nat /\ valid (bs !!! i) = true;
  bi_vdev : forall i, (i < NBUF)%nat -> valid (bs !!! i) = true <-> b_dev (bs !!! i) = 1;
  bi_dirty : forall i, (i < NBUF)%nat -> dirty (bs !!! i) = true ->
    valid (bs !!! i) = true /\ b_sector (bs !!! i) ∈ D;
  bi_pinned : forall n, n ∈ D -> exists i, (i < NBUF)%nat /\
    dirty (bs !!! i) = true /\ b_sector (bs !!! i) = n;
  bi_vcache : forall i, (i < NBUF)%nat -> valid (bs !!! i) = true ->
    V (b_sector (bs !!! i)) = b_data (bs !!! i);
  bi_vdisk : forall n, (forall i, (i < NBUF)%nat -> valid (bs !!! i) = true ->
    b_sector (bs !!! i) <> n) -> V n = blk d n;
  bi_coh : forall i, (i < NBUF)%nat -> valid (bs !!! i) = true ->
    dirty (bs !!! i) = false -> busy (bs !!! i) = false ->
    b_data (bs !!! i) = blk d (b_sector (bs !!! i));
  bi_vlen : forall n, length (V n) = Z.to_nat BSIZE;
  bi_dlen : forall n, length (blk d n) = Z.to_nat BSIZE;
}.

Lemma list_wf_facts bs l :
  list_wf bs l -> (NBUF ∉ l) /\ (length l <= NBUF)%nat /\
    (forall i, (i ∈ l) <-> (i < NBUF)%nat) /\ NoDup l.
Proof.
  intros [Hp _]. assert (forall i, (i ∈ l) <-> (i < NBUF)%nat) as Hin.
  { intros i. rewrite Hp, elem_of_seq. lia. }
  split; [rewrite Hin; lia|]. split.
  { apply Permutation_length in Hp. rewrite length_seq in Hp. lia. }
  split; [done|]. rewrite Hp. apply NoDup_seq.
Qed.

(** Pointers are untouched by updates of the other fields. *)
Lemma bnx_alter bs b f :
  (b < length bs)%nat -> (forall r, b_next (f r) = b_next r) ->
  forall i, bnx (alter f b bs) i = bnx bs i.
Proof.
  intros Hb Hf i. unfold bnx. rewrite lookup_total_alter by done.
  case_decide; subst; auto.
Qed.

Lemma bpv_alter bs b f :
  (b < length bs)%nat -> (forall r, b_prev (f r) = b_prev r) ->
  forall i, bpv (alter f b bs) i = bpv bs i.
Proof.
  intros Hb Hf i. unfold bpv. rewrite lookup_total_alter by done.
  case_decide; subst; auto.
Qed.

Lemma list_wf_alter bs b f l :
  (b < length bs)%nat -> (forall r, b_next (f r) = b_next r) ->
  (forall r, b_prev (f r) = b_prev r) ->
  list_wf bs l -> list_wf (alter f b bs) l.
Proof.
  intros Hb Hn Hp [Hperm Hc]. split; [done|].
  eapply chain_ext; [| |exact Hc]; intros i _; [apply bnx_alter | apply bpv_alter]; auto.
Qed.

(** There is a clean buffer to recycle as long as fewer than [NBUF] sectors
    are held or pinned. *)
Lemma clean_exists bs d V H D :
  bio_inv bs d V H D -> (size H + size D < NBUF)%nat ->
  exists i, (i < NBUF)%nat /\ busy (bs !!! i) = false /\ dirty (bs !!! i) = false.
Proof.
  intros I Hsz.
  set (B := List.filter (fun i => busy (bs !!! i)) (seq 0 NBUF)).
  set (S := List.filter (fun i => dirty (bs !!! i)) (seq 0 NBUF)).
  assert (length B <= size H)%nat as HB.
  { rewrite <- (size_dom (D := gset nat) H). unfold size, set_size.
    apply submseteq_length, NoDup_submseteq.
    - apply NoDup_ListNoDup, List.NoDup_filter, NoDup_ListNoDup, NoDup_seq.
    - intros i Hi. apply list_elem_of_In, filter_In in Hi as [Hi Hb].
      apply in_seq in Hi. apply elem_of_elements, elem_of_dom.
      rewrite (bi_busy _ _ _ _ _ I) by lia. rewrite Hb. eauto. }
  assert (length S <= size D)%nat as HS.
  { unfold size, set_size.
    rewrite <- (length_fmap (fun i => b_sector (bs !!! i))).
    apply submseteq_length, NoDup_submseteq.
    - apply NoDup_fmap_2_strong.
      + intros i j Hi Hj E. apply list_elem_of_In, filter_In in Hi as [Hi Hdi], Hj as [Hj Hdj].
        apply in_seq in Hi, Hj.
        destruct (bi_dirty _ _ _ _ _ I i) as [Hvi _]; [lia|done|].
        destruct (bi_dirty _ _ _ _ _ I j) as [Hvj _]; [lia|done|].
        eapply (bi_uniq _ _ _ _ _ I); eauto; try lia;
          apply (bi_vdev _ _ _ _ _ I); auto; lia.
      + apply NoDup_ListNoDup, List.NoDup_filter, NoDup_ListNoDup, NoDup_seq.
    - intros n Hn. apply list_elem_of_fmap in Hn as (i & -> & Hi).
      apply list_elem_of_In, filter_In in Hi as [Hi Hd]. apply in_seq in Hi. apply elem_of_elements.
      apply (bi_dirty _ _ _ _ _ I); auto. lia. }
  destruct (List.find (fun i => negb (busy (bs !!! i)) && negb (dirty (bs !!! i)))
              (seq 0 NBUF)) as [i|] eqn:Hf.
  - apply find_some in Hf as [Hi Hc]. apply in_seq in Hi. exists i.
    destruct (busy (bs !!! i)), (dirty (bs !!! i)); try discriminate. repeat split; lia.
  - exfalso. assert (length (seq 0 NBUF) <= length (B ++ S))%nat as Hl.
    { apply submseteq_length, NoDup_submseteq; [apply NoDup_seq|].
      intros i Hi. apply list_elem_of_In in Hi.
      pose proof (find_none _ _ Hf i Hi) as Hc. simpl in Hc.
      apply elem_of_app. destruct (busy (bs !!! i)) eqn:Eb.
      - left. apply list_elem_of_In, filter_In. auto.
      - right. apply list_elem_of_In, filter_In. split; [done|].
        by destruct (dirty (bs !!! i)). }
    rewrite length_seq, length_app in Hl. lia.
Qed.

(** Flag bits of a buffer after the flag operations of [bio.c]. *)
Lemma flag_busy_set f : has (set_flag f B_BUSY) B_BUSY = true.
Proof. unfold B_BUSY. change 1 with (2 ^ 0). rewrite has_set by lia. apply orb_true_r. Qed.
Lemma flag_busy_set_valid f : has (set_flag f B_VALID) B_BUSY = has f B_BUSY.
Proof.
  unfold B_BUSY, B_VALID. change 1 with (2 ^ 0). change 2 with (2 ^ 1).
  rewrite has_set by lia. apply orb_false_r.
Qed.
Lemma flag_busy_set_dirty f : has (set_flag f B_DIRTY) B_BUSY = has f B_BUSY.
Proof.
  unfold B_BUSY, B_DIRTY. change 1 with (2 ^ 0). change 4 with (2 ^ 2).
  rewrite has_set by lia. apply orb_false_r.
Qed.
Lemma flag_valid_set f : has (set_flag f B_VALID) B_VALID = true.
Proof. unfold B_VALID. change 2 with (2 ^ 1). rewrite has_set by lia. apply orb_true_r. Qed.
Lemma flag_valid_set_busy f : has (set_flag f B_BUSY) B_VALID = has f B_VALID.
Proof.
  unfold B_BUSY, B_VALID. change 2 with (2 ^ 1). change 1 with (2 ^ 0).
  rewrite has_set by lia. apply orb_false_r.
Qed.
Lemma flag_valid_set_dirty f : has (set_flag f B_DIRTY) B_VALID = has f B_VALID.
Proof.
  unfold B_DIRTY, B_VALID. change 2 with (2 ^ 1). change 4 with (2 ^ 2).
  rewrite has_set by lia. apply orb_false_r.
Qed.
Lemma flag_dirty_set f : has (set_flag f B_DIRTY) B_DIRTY = true.
Proof. unfold B_DIRTY. change 4 with (2 ^ 2). rewrite has_set by lia. apply orb_true_r. Qed.
Lemma flag_dirty_set_busy f : has (set_flag f B_BUSY) B_DIRTY = has f B_DIRTY.
Proof.
  unfold B_BUSY, B_DIRTY. change 4 with (2 ^ 2). change 1 with (2 ^ 0).
  rewrite has_set by lia. apply orb_false_r.
Qed.
Lemma flag_dirty_set_valid f : has (set_flag f B_VALID) B_DIRTY = has f B_DIRTY.
Proof.
  unfold B_VALID, B_DIRTY. change 4 with (2 ^ 2). change 2 with (2 ^ 1).
  rewrite has_set by lia. apply orb_false_r.
Qed.
Lemma flag_busy_clear f : has (clear_flag f B_BUSY) B_BUSY = false.
Proof. unfold B_BUSY. change 1 with (2 ^ 0). rewrite has_clear by lia. apply andb_false_r. Qed.
Lemma flag_valid_clear_busy f : has (clear_flag f B_BUSY) B_VALID = has f B_VALID.
Proof.
  unfold B_BUSY, B_VALID. change 2 with (2 ^ 1). change 1 with (2 ^ 0).
  rewrite has_clear by lia. apply andb_true_r.
Qed.
Lemma flag_dirty_clear_busy f : has (clear_flag f B_BUSY) B_DIRTY = has f B_DIRTY.
Proof.
  unfold B_BUSY, B_DIRTY. change 4 with (2 ^ 2). change 1 with (2 ^ 0).
  rewrite has_clear by lia. apply andb_true_r.
Qed.
Lemma flag_dirty_clear f : has (clear_flag f B_DIRTY) B_DIRTY = false.
Proof. unfold B_DIRTY. change 4 with (2 ^ 2). rewrite has_clear by lia. apply andb_false_r. Qed.
Lemma flag_busy_clear_dirty f : has (clear_flag f B_DIRTY) B_BUSY = has f B_BUSY.
Proof.
  unfold B_BUSY, B_DIRTY. change 4 with (2 ^ 2). change 1 with (2 ^ 0).
  rewrite has_clear by lia. apply andb_true_r.
Qed.
Lemma flag_valid_clear_dirty f : has (clear_flag f B_DIRTY) B_VALID = has f B_VALID.
Proof.
  unfold B_VALID, B_DIRTY. change 4 with (2 ^ 2). change 2 with (2 ^ 1).
  rewrite has_clear by lia. apply andb_true_r.
Qed.

Lemma synced_spec f :
  (Z.land f (Z.lor B_VALID B_DIRTY) =? B_VALID) = has f B_VALID && negb (has f B_DIRTY).
Proof. unfold B_VALID, B_DIRTY. apply (land_two f 1 2); lia. Qed.

Lemma is_clean_spec r : is_clean r = negb (busy r) && negb (dirty r).
Proof.
  unfold is_clean, busy, dirty, B_BUSY, B_DIRTY.
  rewrite (land_eqb _ 0), (land_eqb _ 2) by lia. done.
Qed.

Create Rewrite HintDb flags.
#[export] Hint Rewrite flag_busy_set flag_busy_set_valid flag_busy_set_dirty
  flag_valid_set flag_valid_set_busy flag_valid_set_dirty
  flag_dirty_set flag_dirty_set_busy flag_dirty_set_valid
  flag_busy_clear flag_valid_clear_busy flag_dirty_clear_busy
  flag_dirty_clear flag_busy_clear_dirty flag_valid_clear_dirty : flags.

(** The invariant depends on the pointers only through the list. *)
Definition same_payload (r r' : buf) : Prop :=
  b_flags r' = b_flags r /\ b_dev r' = b_dev r /\ b_sector r' = b_sector r /\
  b_data r' = b_data r.

Lemma bio_inv_relink bs bs' d V H D l :
  bio_inv bs d V H D -> length bs' = length bs -> list_wf bs' l ->
  (forall i, (i < NBUF)%nat -> same_payload (bs !!! i) (bs' !!! i)) ->
  bio_inv bs' d V H D.
Proof.
  intros I Hl Hw Hs. pose proof I as [].
  assert (forall i, (i < NBUF)%nat -> busy (bs' !!! i) = busy (bs !!! i)
            /\ valid (bs' !!! i) = valid (bs !!! i) /\ dirty (bs' !!! i) = dirty (bs !!! i)
            /\ b_dev (bs' !!! i) = b_dev (bs !!! i)
            /\ b_sector (bs' !!! i) = b_sector (bs !!! i)
            /\ b_data (bs' !!! i) = b_data (bs !!! i)) as Hr.
  { intros i Hi. destruct (Hs i Hi) as (Hf & ? & ? & ?).
    unfold busy, valid, dirty. rewrite Hf. repeat split; auto. }
  split; [congruence|by eauto|..|done|done].
  - intros i j Hi Hj. destruct (Hr i Hi) as (_ & _ & _ & -> & -> & _).
    destruct (Hr j Hj) as (_ & _ & _ & -> & -> & _). auto.
  - intros i Hi. destruct (Hr i Hi) as (-> & _ & _ & _ & -> & _). auto.
  - intros i Hi. destruct (bi_hdom0 i Hi). destruct (Hr i) as (_ & -> & _); auto.
  - intros i Hi. destruct (Hr i Hi) as (_ & -> & _ & -> & _). auto.
  - intros i Hi. destruct (Hr i Hi) as (_ & -> & -> & _ & -> & _). auto.
  - intros n Hn. destruct (bi_pinned0 n Hn) as (i & Hi & ? & ?). exists i.
    destruct (Hr i Hi) as (_ & _ & -> & _ & -> & _). auto.
  - intros i Hi. destruct (Hr i Hi) as (_ & -> & _ & _ & -> & ->). auto.
  - intros n Hn. apply bi_vdisk0. intros i Hi. specialize (Hn i Hi).
    destruct (Hr i Hi) as (_ & Hv & _ & _ & Hse & _). by rewrite Hv, Hse in Hn.
  - intros i Hi. destruct (Hr i Hi) as (-> & -> & -> & _ & -> & ->). auto.
Qed.

(** The sector contents [V] matter only pointwise. *)
#[export] Instance bio_inv_proper bs d :
  Proper (pointwise_relation Z eq ==> eq ==> eq ==> iff) (bio_inv bs d).
Proof.
  assert (forall V V' H D, pointwise_relation Z eq V V' ->
            bio_inv bs d V H D -> bio_inv bs d V' H D) as Himp.
  { intros V V' H D HV []. split; auto; intros; rewrite <- HV; auto. }
  intros V V' HV H ? <- D ? <-. split; apply Himp; [done|by symmetry].
Qed.

(** Changing the flags, the contents and the disk copy of one cached sector. *)
Lemma bio_inv_touch bs d V H D b f d' :
  let r := bs !!! b in
  let r' := f r in
  let n := b_sector r in
  bio_inv bs d V H D -> (b < NBUF)%nat -> valid r = true -> valid r' = true ->
  b_dev r' = b_dev r -> b_sector r' = n -> b_next r' = b_next r -> b_prev r' = b_prev r ->
  length (b_data r') = Z.to_nat BSIZE ->
  (forall m, m <> n -> blk d' m = blk d m) -> length (blk d' n) = Z.to_nat BSIZE ->
  (dirty r' = false -> busy r' = false -> b_data r' = blk d' n) ->
  bio_inv (alter f b bs) d' (<[n := b_data r']> V)
    (if busy r' then <[b := n]> H else delete b H)
    (if dirty r' then {[n]} ∪ D else D ∖ {[n]}).
Proof.
  intros r r' n I Hb Hv Hv' Hdev Hsec Hnx Hpv Hdata Hd' Hd'n Hcoh. pose proof I as [].
  assert (forall i, alter f b bs !!! i = if decide (b = i) then r' else bs !!! i) as Hlk.
  { intros i. apply lookup_total_alter. lia. }
  assert (forall i, (i < NBUF)%nat -> b <> i -> valid (bs !!! i) = true ->
            b_sector (bs !!! i) <> n) as Hother.
  { intros i Hi Hne Hvi E. apply Hne, bi_uniq0; auto; by apply bi_vdev0. }
  destruct bi_list0 as [l [Hp Hc]].
  split; [by rewrite length_alter| | | | | | | | | | |..].
  - exists l. split; [done|]. eapply chain_ext; [| |exact Hc]; intros i _;
      unfold bnx, bpv; rewrite Hlk; case_decide; subst; done.
  - intros i j Hi Hj. rewrite !Hlk. repeat case_decide; subst; rewrite ?Hdev, ?Hsec; auto.
  - intros i Hi. rewrite Hlk. case_decide as E; subst.
    + rewrite Hsec. destruct (busy r'); [by rewrite lookup_insert_eq|by rewrite lookup_delete_eq].
    + destruct (busy r'); [rewrite lookup_insert_ne by done|rewrite lookup_delete_ne by done]; auto.
  - intros i Hi. rewrite Hlk. case_decide as E; subst; [done|]. apply bi_hdom0.
    destruct (busy r'); [rewrite lookup_insert_ne in Hi by done
                        |rewrite lookup_delete_ne in Hi by done]; done.
  - intros i Hi. rewrite Hlk. case_decide as E; subst; [|auto].
    rewrite Hdev, Hv'. split; [intros _|done]. by apply bi_vdev0.
  - intros i Hi. rewrite Hlk. case_decide as E; subst.
    + intros ->. rewrite Hsec. set_solver.
    + intros Hdi. destruct (bi_dirty0 i Hi Hdi) as [Hvi HD]. specialize (Hother i Hi E Hvi).
      destruct (dirty r'); set_solver.
  - intros m Hm. destruct (decide (m = n)) as [->|Hmn].
    + exists b. rewrite Hlk, decide_True by done. destruct (dirty r'); [done|set_solver].
    + destruct (bi_pinned0 m) as (i & Hi & Hdi & Hsi); [destruct (dirty r'); set_solver|].
      exists i. rewrite Hlk, decide_False; [done|]. intros ->. done.
  - intros i Hi. rewrite Hlk. case_decide as E; subst.
    + intros _. rewrite Hsec. by rewrite fn_lookup_insert.
    + intros Hvi. rewrite fn_lookup_insert_ne; [auto|]. by apply not_eq_sym, Hother.
  - intros m Hm. assert (m <> n) as Hmn.
    { intros ->. apply (Hm b Hb); rewrite Hlk, decide_True by done; done. }
    rewrite fn_lookup_insert_ne, Hd' by done. apply bi_vdisk0. intros i Hi Hvi.
    destruct (decide (b = i)) as [<-|E]; [done|].
    specialize (Hm i Hi). rewrite Hlk, decide_False in Hm by done. auto.
  - intros i Hi. rewrite Hlk. case_decide as E; subst.
    + rewrite Hsec. auto.
    + intros Hvi ? ?. rewrite Hd' by auto. auto.
  - intros m. destruct (decide (n = m)) as [<-|?];
      [by rewrite fn_lookup_insert|by rewrite fn_lookup_insert_ne].
  - intros m. destruct (decide (m = n)) as [->|?]; [done|]. rewrite Hd' by done. auto.
Qed.

(** The sector of a buffer is pinned exactly if the buffer is dirty. *)
Lemma bio_inv_dirty_iff bs d V H D b :
  bio_inv bs d V H D -> (b < NBUF)%nat -> valid (bs !!! b) = true ->
  b_sector (bs !!! b) ∈ D <-> dirty (bs !!! b) = true.
Proof.
  intros I Hb Hv. pose proof I as []. split; [|by intros Hd; apply bi_dirty0].
  intros (i & Hi & Hdi & Hsi)%bi_pinned0.
  destruct (bi_dirty0 i Hi Hdi) as [Hvi _].
  assert (i = b) as -> by (apply bi_uniq0; auto; by apply bi_vdev0). done.
Qed.

Lemma bio_inv_same_view (V : Z -> list Z) n x :
  V n = x -> pointwise_relation Z eq (<[n := x]> V) V.
Proof.
  intros <- m. destruct (decide (n = m)) as [<-|?];
    [by rewrite fn_lookup_insert|by rewrite fn_lookup_insert_ne].
Qed.

(** What is known of a buffer in use. *)
Lemma bio_inv_held bs d V H D b n :
  bio_inv bs d V H D -> H !! b = Some n ->
  (b < NBUF)%nat /\ valid (bs !!! b) = true /\ busy (bs !!! b) = true /\
  b_sector (bs !!! b) = n /\ b_dev (bs !!! b) = 1 /\ V n = b_data (bs !!! b).
Proof.
  intros I HHb. pose proof I as []. destruct (bi_hdom0 b) as [Hb Hv]; [by eauto|].
  pose proof (bi_busy0 b Hb) as HB. rewrite HHb in HB.
  destruct (busy (bs !!! b)) eqn:E; [|done]. injection HB as ->.
  split_and!; auto; by apply bi_vdev0.
Qed.

(** The set of pinned sectors after a step that leaves the dirty bit alone. *)
Lemma bio_inv_pins_same bs d V H D b (x : bool) :
  bio_inv bs d V H D -> (b < NBUF)%nat -> valid (bs !!! b) = true ->
  x = dirty (bs !!! b) ->
  (if x then {[b_sector (bs !!! b)]} ∪ D else D ∖ {[b_sector (bs !!! b)]}) = D.
Proof.
  intros I Hb Hv ->. pose proof (bio_inv_dirty_iff _ _ _ _ _ _ I Hb Hv) as Hiff.
  apply set_eq. intros m. destruct (dirty (bs !!! b)).
  - assert (b_sector (bs !!! b) ∈ D) by (by apply Hiff). set_solver.
  - assert (b_sector (bs !!! b) ∉ D) by (intros ?%Hiff; done). set_solver.
Qed.

Lemma bio_inv_hold bs d V H D b :
  bio_inv bs d V H D -> (b < NBUF)%nat -> valid (bs !!! b) = true ->
  bio_inv (alter (set_b_flags (set_flag (b_flags (bs !!! b)) B_BUSY)) b bs) d V
    (<[b := b_sector (bs !!! b)]> H) D.
Proof.
  intros I Hb Hv. pose proof I as [].
  set (f := set_b_flags (set_flag (b_flags (bs !!! b)) B_BUSY)).
  assert (busy (f (bs !!! b)) = true /\ dirty (f (bs !!! b)) = dirty (bs !!! b)
          /\ valid (f (bs !!! b)) = true) as (Eb & Ed & Ev).
  { unfold busy, dirty, valid, f. simpl. autorewrite with flags. done. }
  pose proof (bio_inv_touch bs d V H D b f d I Hb Hv) as Ht. simpl in Ht.
  rewrite Eb, Ed in Ht. rewrite (bio_inv_pins_same _ _ _ _ _ _ _ I) in Ht by done.
  rewrite (bio_inv_same_view V) in Ht by auto.
  apply Ht; auto; [rewrite <- bi_vcache0 by done; auto|done].
Qed.

(** A clean buffer is given to another sector and filled from the disk. *)
Definition recycled (r : buf) (n : Z) (data : list Z) : buf :=
  mkbuf (set_flag B_BUSY B_VALID) 1 n (b_prev r) (b_next r) (b_qnext r) data.

Lemma bio_inv_recycle bs d V H D b n :
  bio_inv bs d V H D -> (b < NBUF)%nat -> busy (bs !!! b) = false ->
  dirty (bs !!! b) = false ->
  (forall i, (i < NBUF)%nat -> is_block 1 n (bs !!! i) = false) ->
  bio_inv (<[b := recycled (bs !!! b) n (blk d n)]> bs) d V (<[b := n]> H) D.
Proof.
  intros I Hb Hnb Hnd Hno. pose proof I as [].
  set (r' := recycled (bs !!! b) n (blk d n)).
  assert (forall i, <[b := r']> bs !!! i = if decide (b = i) then r' else bs !!! i) as Hlk.
  { intros i. case_decide; subst.
    - apply list_lookup_total_insert_eq. lia.
    - by apply list_lookup_total_insert_ne. }
  assert (forall i, (i < NBUF)%nat -> b_dev (bs !!! i) = 1 -> b_sector (bs !!! i) <> n) as Hno'.
  { intros i Hi Hd Hs. specialize (Hno i Hi). unfold is_block in Hno.
    rewrite Hd, Hs, !Z.eqb_refl in Hno. done. }
  assert (valid r' = true /\ busy r' = true /\ dirty r' = false) as (Hrv & Hrb & Hrd) by done.
  assert (H !! b = None) as HHb by (rewrite bi_busy0 by done; by rewrite Hnb).
  assert (V n = blk d n) as HVn.
  { apply bi_vdisk0. intros i Hi Hvi. apply Hno'; [done|]. by apply bi_vdev0. }
  destruct bi_list0 as [l Hl].
  split; [by rewrite length_insert| |..|done|done].
  - exists l. destruct Hl as [Hp Hc]. split; [done|].
    eapply chain_ext; [| |exact Hc]; intros i _; unfold bnx, bpv; rewrite Hlk;
      case_decide; subst; done.
  - intros i j Hi Hj. rewrite !Hlk. repeat case_decide; subst; simpl; try done.
    + intros _ Hdj Hs. symmetry in Hs. by apply Hno' in Hs.
    + intros Hdi _ Hs. by apply Hno' in Hs.
    + auto.
  - intros i Hi. rewrite Hlk. case_decide; subst.
    + by rewrite lookup_insert_eq.
    + rewrite lookup_insert_ne by done. auto.
  - intros i Hi. rewrite Hlk. case_decide; subst; [done|].
    rewrite lookup_insert_ne in Hi by done. auto.
  - intros i Hi. rewrite Hlk. case_decide; subst; [done|auto].
  - intros i Hi. rewrite Hlk. case_decide; subst; [|auto]. by rewrite Hrd.
  - intros m Hm. destruct (bi_pinned0 m Hm) as (i & Hi & Hdi & Hsi). exists i.
    rewrite Hlk. case_decide; subst; [congruence|auto].
  - intros i Hi. rewrite Hlk. case_decide; subst; [done|auto].
  - intros m Hm. destruct (decide (m = n)) as [->|Hmn]; [done|].
    destruct (decide (valid (bs !!! b) = true /\ b_sector (bs !!! b) = m)) as [[Hvb Hsb]|Hnot].
    + rewrite <- Hsb. rewrite bi_vcache0 by done. by apply bi_coh0.
    + apply bi_vdisk0. intros i Hi Hvi Hsi. destruct (decide (b = i)) as [->|Hne]; [tauto|].
      apply (Hm i Hi); rewrite Hlk, decide_False by done; done.
  - intros i Hi. rewrite Hlk. case_decide; subst; [|auto]. by rewrite Hrb.
Qed.

(** ** The operations *)

Lemma find_wf_In (test : nat -> bool) bs l b :
  list_wf bs l -> List.find test l = Some b -> (b < NBUF)%nat /\ test b = true.
Proof.
  intros Hw Hf. apply find_some in Hf as [Hi Ht]. split; [|done].
  apply list_elem_of_In in Hi. by apply (list_wf_facts _ _ Hw) in Hi.
Qed.

Section BioSpec.
Context {WF : WakeFuel}.

(** [bget] returns the cached buffer if it is idle, the least recently used
    clean buffer if the sector is not cached, and panics if there is none. *)
Lemma bget_hit dev n s l b :
  LkBcache ∉ k_held s -> list_wf (k_bufs s) l ->
  List.find (fun b => is_block dev n (k_bufs s !!! b)) l = Some b ->
  busy (k_bufs s !!! b) = false ->
  bget dev n s
  = Ret b (upd_buf b (set_b_flags (set_flag (b_flags (k_bufs s !!! b)) B_BUSY)) s).
Proof.
  intros Hh Hw Hf Hb. destruct (list_wf_facts _ _ Hw) as (Hn & Hlen & _).
  unfold bget. erewrite bind_Ret by (by apply acquire_ok). cbn [loop].
  erewrite bind_Ret; [|
    erewrite bind_Ret by (by eapply bscan_next_ok; [apply Hw|..]); cbn [k_bufs set_k_held];
    rewrite Hf; kstep; cbn [k_bufs set_k_held];
    unfold busy in Hb; rewrite Hb; cbn [negb]; kstep;
    kstep_by ltac:(by eapply release_ok); reflexivity].
  reflexivity.
Qed.

Lemma bget_miss dev n s l b :
  LkBcache ∉ k_held s -> list_wf (k_bufs s) l ->
  List.find (fun b => is_block dev n (k_bufs s !!! b)) l = None ->
  List.find (fun b => is_clean (k_bufs s !!! b)) (reverse l) = Some b ->
  bget dev n s
  = Ret b (upd_buf b (fun r => set_b_flags B_BUSY (set_b_sector n (set_b_dev dev r))) s).
Proof.
  intros Hh Hw Hf Hv. destruct (list_wf_facts _ _ Hw) as (Hn & Hlen & _).
  unfold bget. erewrite bind_Ret by (by apply acquire_ok). cbn [loop].
  erewrite bind_Ret; [|
    erewrite bind_Ret by (by eapply bscan_next_ok; [apply Hw|..]); cbn [k_bufs set_k_held];
    rewrite Hf;
    erewrite bind_Ret by (by eapply bscan_prev_ok; [apply Hw|..]); cbn [k_bufs set_k_held];
    rewrite Hv; do 3 kstep; kstep_by ltac:(by eapply release_ok); reflexivity].
  unfold mret, M_ret. f_equal. kst_eq. by rewrite !list_alter_alter_eq.
Qed.

Lemma bget_full dev n s l :
  LkBcache ∉ k_held s -> list_wf (k_bufs s) l ->
  List.find (fun b => is_block dev n (k_bufs s !!! b)) l = None ->
  List.find (fun b => is_clean (k_bufs s !!! b)) (reverse l) = None ->
  bget dev n s = Panic "bget: no buffers" (set_k_held (LkBcache :: k_held s) s).
Proof.
  intros Hh Hw Hf Hv. destruct (list_wf_facts _ _ Hw) as (Hn & Hlen & _).
  unfold bget. erewrite bind_Ret by (by apply acquire_ok). cbn [loop].
  apply bind_Panic.
  erewrite bind_Ret by (by eapply bscan_next_ok; [apply Hw|..]). cbn [k_bufs set_k_held].
  rewrite Hf.
  erewrite bind_Ret by (by eapply bscan_prev_ok; [apply Hw|..]). cbn [k_bufs set_k_held].
  by rewrite Hv.
Qed.

(** [iderw] on a buffer that holds no data reads the sector. *)
Lemma iderw_read s b :
  (b < length (k_bufs s))%nat ->
  let r := k_bufs s !!! b in
  busy r = true -> valid r = false -> dirty r = false -> b_dev r = 1 ->
  b_sector r < dk_size (k_disk s) ->
  iderw b s = Ret tt (upd_buf b (fun r =>
    set_b_flags (set_flag (b_flags r) B_VALID)
      (set_b_data (blk (k_disk s) (b_sector r)) r)) s).
Proof.
  intros Hlen r Hb Hv Hd Hdev Hsec. unfold iderw, mbind, M_bind.
  cbn [obind getbuf gets]. fold r. unfold busy, valid, dirty in *.
  rewrite Hb, synced_spec, Hv, Hdev. cbn [negb andb]. rewrite Z.eqb_refl. cbn [negb obind gets].
  rewrite (proj2 (Z.leb_gt _ _) Hsec), Hd. cbn [obind modify].
  f_equal. kst_eq. rewrite list_alter_alter_eq. apply list_alter_ext; [|done].
  intros r0 Hr0. simpl. rewrite lookup_total_alter, decide_True by done. simpl.
  unfold r. by rewrite (list_lookup_total_correct _ _ _ Hr0).
Qed.

(** A sector that is cached: the buffer is taken as it is. *)
Lemma bread_cached s V H D n l b :
  bio_inv (k_bufs s) (k_disk s) V H D -> LkBcache ∉ k_held s ->
  (forall i, H !! i <> Some n) -> list_wf (k_bufs s) l ->
  List.find (fun b => is_block 1 n (k_bufs s !!! b)) l = Some b ->
  exists bs', bread 1 n s = Ret b (set_k_bufs bs' s) /\
    bio_inv bs' (k_disk s) V (<[b := n]> H) D /\ H !! b = None /\
    b_data (bs' !!! b) = V n.
Proof.
  intros I Hh HHn Hw Hf. pose proof (bi_len _ _ _ _ _ I) as Hlen.
  destruct (find_wf_In _ _ _ _ Hw Hf) as [Hb Hblk].
  unfold is_block in Hblk. apply andb_true_iff in Hblk as [Hdev%Z.eqb_eq Hsec%Z.eqb_eq].
  assert (busy (k_bufs s !!! b) = false) as Hnb.
  { pose proof (bi_busy _ _ _ _ _ I b Hb) as HB. specialize (HHn b).
    destruct (busy (k_bufs s !!! b)); [|done]. congruence. }
  assert (valid (k_bufs s !!! b) = true) as Hv by (by apply (bi_vdev _ _ _ _ _ I)).
  exists (alter (set_b_flags (set_flag (b_flags (k_bufs s !!! b)) B_BUSY)) b (k_bufs s)).
  unfold bread. erewrite bind_Ret by (by eapply bget_hit). kstep.
  unfold upd_buf. cbn [k_bufs set_k_bufs].
  rewrite lookup_total_alter, decide_True by (done || lia). cbn [b_flags set_b_flags].
  autorewrite with flags. pose proof Hv as Hv'. unfold valid in Hv'. rewrite Hv'. cbn [negb].
  split; [done|]. pose proof (bi_busy _ _ _ _ _ I b Hb) as HB. rewrite Hnb in HB.
  split; [|split; [done|]].
  - rewrite <- Hsec. by apply bio_inv_hold.
  - cbn [b_data set_b_flags]. rewrite <- Hsec. symmetry. by apply (bi_vcache _ _ _ _ _ I).
Qed.

(** A sector that is not cached: a clean buffer is recycled and filled. *)
Lemma bread_recycles s n l b :
  length (k_bufs s) = S NBUF -> LkBcache ∉ k_held s -> n < dk_size (k_disk s) ->
  list_wf (k_bufs s) l -> (b < NBUF)%nat ->
  List.find (fun b => is_block 1 n (k_bufs s !!! b)) l = None ->
  List.find (fun b => is_clean (k_bufs s !!! b)) (reverse l) = Some b ->
  bread 1 n s = Ret b (set_k_bufs
    (<[b := recycled (k_bufs s !!! b) n (blk (k_disk s) n)]> (k_bufs s)) s).
Proof.
  intros Hlen Hh Hn Hw Hb Hf Hc. unfold bread.
  erewrite bind_Ret by (by eapply bget_miss). kstep. unfold upd_buf at 1. cbn [k_bufs set_k_bufs].
  rewrite lookup_total_alter, decide_True by (done || lia). cbn [b_flags set_b_flags].
  change (negb (has B_BUSY B_VALID)) with true. cbn iota.
  erewrite bind_Ret; [|apply iderw_read]; unfold upd_buf; cbn [k_bufs k_disk set_k_bufs];
    rewrite ?length_alter, ?lookup_total_alter, ?decide_True by (done || lia);
    cbn [b_dev b_sector set_b_flags set_b_sector set_b_dev]; try done; [|lia].
  unfold mret, M_ret. f_equal. kst_eq. rewrite list_alter_alter_eq.
  apply list_eq. intros i. destruct (decide (i = b)) as [->|Hne].
  - rewrite list_lookup_alter_eq, list_lookup_insert_eq by lia.
    destruct (lookup_lt_is_Some_2 (k_bufs s) b) as [r Hr]; [lia|].
    rewrite (list_lookup_total_correct _ _ _ Hr), Hr. done.
  - by rewrite list_lookup_alter_ne, list_lookup_insert_ne by done.
Qed.

Lemma bread_uncached s V H D n l :
  bio_inv (k_bufs s) (k_disk s) V H D -> LkBcache ∉ k_held s ->
  n < dk_size (k_disk s) -> (size H + size D < NBUF)%nat -> list_wf (k_bufs s) l ->
  List.find (fun b => is_block 1 n (k_bufs s !!! b)) l = None ->
  exists b bs', bread 1 n s = Ret b (set_k_bufs bs' s) /\
    bio_inv bs' (k_disk s) V (<[b := n]> H) D /\ H !! b = None /\
    b_data (bs' !!! b) = V n.
Proof.
  intros I Hh Hn Hsz Hw Hf. pose proof (bi_len _ _ _ _ _ I) as Hlen.
  destruct (list_wf_facts _ _ Hw) as (_ & _ & Hin & _).
  assert (forall i, (i < NBUF)%nat -> is_block 1 n (k_bufs s !!! i) = false) as Hno.
  { intros i Hi. apply (find_none _ _ Hf). apply list_elem_of_In. by apply Hin. }
  destruct (List.find (fun b => is_clean (k_bufs s !!! b)) (reverse l)) as [b|] eqn:Hc.
  2: { destruct (clean_exists _ _ _ _ _ I Hsz) as (i & Hi & Hib & Hid). exfalso.
       pose proof (find_none _ _ Hc i) as Hcl. simpl in Hcl.
       rewrite is_clean_spec, Hib, Hid in Hcl. discriminate Hcl.
       by apply list_elem_of_In, elem_of_reverse, Hin. }
  pose proof (find_some _ _ Hc) as [Hinb%list_elem_of_In Hcl].
  rewrite elem_of_reverse in Hinb. apply Hin in Hinb as Hb.
  rewrite is_clean_spec in Hcl. apply andb_true_iff in Hcl as [Hnb%negb_true_iff Hnd%negb_true_iff].
  exists b. eexists. split; [by eapply bread_recycles|]. split; [by apply bio_inv_recycle|].
  pose proof (bi_busy _ _ _ _ _ I b Hb) as HB. rewrite Hnb in HB. split; [done|].
  rewrite list_lookup_total_insert_eq by lia. simpl. symmetry.
  apply (bi_vdisk _ _ _ _ _ I). intros i Hi Hv Hs.
  specialize (Hno i Hi). unfold is_block in Hno.
  apply (bi_vdev _ _ _ _ _ I) in Hv; [|done]. by rewrite Hv, Hs, !Z.eqb_refl in Hno.
Qed.

(** [bread] returns a buffer that holds the contents of the sector, and
    changes the contents of none. *)
Lemma bread_ok s V H D n :
  bio_inv (k_bufs s) (k_disk s) V H D -> LkBcache ∉ k_held s ->
  n < dk_size (k_disk s) -> (forall i, H !! i <> Some n) ->
  (size H + size D < NBUF)%nat ->
  exists b bs', bread 1 n s = Ret b (set_k_bufs bs' s) /\
    bio_inv bs' (k_disk s) V (<[b := n]> H) D /\ H !! b = None /\
    b_data (bs' !!! b) = V n.
Proof.
  intros I Hh Hn HHn Hsz. destruct (bi_list _ _ _ _ _ I) as [l Hw].
  destruct (List.find (fun b => is_block 1 n (k_bufs s !!! b)) l) as [b|] eqn:Hf.
  - exists b. by eapply bread_cached.
  - by eapply bread_uncached.
Qed.
End BioSpec.

(** *** [brelse] *)

(** The six pointer assignments of [brelse]: two take the buffer out of the
    list, four put it behind the head. *)
Definition unlink (b : nat) (bs : list buf) : list buf :=
  let bs1 := alter (set_b_prev (b_prev (bs !!! b))) (b_next (bs !!! b)) bs in
  alter (set_b_next (b_next (bs1 !!! b))) (b_prev (bs1 !!! b)) bs1.

Definition push_front (b : nat) (bs : list buf) : list buf :=
  let bs3 := alter (set_b_next (b_next (bs !!! NBUF))) b bs in
  let bs4 := alter (set_b_prev NBUF) b bs3 in
  let bs5 := alter (set_b_prev b) (b_next (bs4 !!! NBUF)) bs4 in
  alter (set_b_next b) NBUF bs5.

Definition relink (b : nat) (bs : list buf) : list buf := push_front b (unlink b bs).

Lemma bnx_set_next bs i v :
  (i < length bs)%nat -> forall j, bnx (alter (set_b_next v) i bs) j = <[i := v]> (bnx bs) j.
Proof.
  intros Hi j. unfold bnx. rewrite lookup_total_alter by done.
  case_decide; subst; [by rewrite fn_lookup_insert|by rewrite fn_lookup_insert_ne].
Qed.
Lemma bpv_set_prev bs i v :
  (i < length bs)%nat -> forall j, bpv (alter (set_b_prev v) i bs) j = <[i := v]> (bpv bs) j.
Proof.
  intros Hi j. unfold bpv. rewrite lookup_total_alter by done.
  case_decide; subst; [by rewrite fn_lookup_insert|by rewrite fn_lookup_insert_ne].
Qed.

Lemma length_relink b bs : length (relink b bs) = length bs.
Proof. unfold relink, push_front, unlink. by rewrite !length_alter. Qed.

Lemma same_payload_trans r1 r2 r3 :
  same_payload r1 r2 -> same_payload r2 r3 -> same_payload r1 r3.
Proof. unfold same_payload. intuition congruence. Qed.

Lemma alter_payload (bs : list buf) j f i :
  (forall r, same_payload r (f r)) -> same_payload (bs !!! i) (alter f j bs !!! i).
Proof.
  intros Hf. destruct (decide (j < length bs)%nat) as [Hj|Hj].
  - rewrite lookup_total_alter by done. case_decide; subst; [apply Hf|done].
  - rewrite !list_lookup_total_alt, list_lookup_alter.
    case_decide; subst; [|done]. by rewrite (lookup_ge_None_2 bs i) by lia.
Qed.

Lemma relink_payload b bs i : same_payload (bs !!! i) (relink b bs !!! i).
Proof.
  unfold relink, push_front, unlink.
  repeat (eapply same_payload_trans; [|apply alter_payload; done]). done.
Qed.

(** The neighbours of a buffer of the list are buffers or the head. *)
Lemma list_wf_neighbours b bs l1 l2 :
  list_wf bs (l1 ++ b :: l2) ->
  (b < NBUF /\ bnx bs b <= NBUF /\ bnx bs b <> b /\ bpv bs b <= NBUF)%nat.
Proof.
  intros Hw. destruct (list_wf_facts _ _ Hw) as (HN & _ & Hin & Hnd).
  destruct Hw as [Hp Hc]. apply chain_app in Hc as [Hc1 Hc2].
  assert (b < NBUF)%nat as Hb by (apply Hin; set_solver). split; [done|].
  apply and_assoc. split.
  - apply chain_next_first, elem_of_app in Hc2 as [Hn|Hn].
    + split; [apply Nat.lt_le_incl, Hin; set_solver|].
      intros E. rewrite E in Hn. apply NoDup_app in Hnd as (_ & _ & Hnd).
      apply NoDup_cons in Hnd as [? _]. done.
    + apply list_elem_of_singleton in Hn. rewrite Hn. lia.
  - apply chain_prev_last, elem_of_cons in Hc1 as [->|Hn]; [done|].
    apply Nat.lt_le_incl, Hin. set_solver.
Qed.

Lemma unlink_chain b bs l1 l2 :
  length bs = S NBUF -> list_wf bs (l1 ++ b :: l2) ->
  chain (bnx (unlink b bs)) (bpv (unlink b bs)) NBUF (l1 ++ l2) NBUF.
Proof.
  intros Hlen Hw. destruct (list_wf_facts _ _ Hw) as (HN & _ & _ & Hnd).
  destruct (list_wf_neighbours _ _ _ _ Hw) as (Hb & Hnb & Hnb' & Hpb).
  destruct Hw as [_ [Hc1 Hc2]%chain_app].
  assert (NoDup (NBUF :: l1 ++ b :: l2)) as Hnd' by (by constructor).
  rewrite not_elem_of_app in HN. destruct HN as [HN1 HN2].
  eapply chain_ext; [| |exact (chain_unlink _ _ _ _ _ _ _ Hnd' HN1 HN2 Hc1 Hc2)];
    intros i _; unfold unlink;
    set (bs1 := alter (set_b_prev (b_prev (bs !!! b))) (b_next (bs !!! b)) bs);
    assert (length bs1 = S NBUF) as Hl1 by (unfold bs1; by rewrite length_alter);
    assert (forall i, bpv bs1 i = <[bnx bs b := bpv bs b]> (bpv bs) i) as Hpv1
      by (apply bpv_set_prev; fold (bnx bs b); lia);
    assert (forall i, bnx bs1 i = bnx bs i) as Hnx1
      by (apply bnx_alter; [fold (bnx bs b); lia|done]);
    fold (bpv bs1 b) (bnx bs1 b); rewrite Hpv1, Hnx1, fn_lookup_insert_ne by done.
  - rewrite bnx_set_next by lia.
    destruct (decide (bpv bs b = i)) as [->|?];
      [by rewrite !fn_lookup_insert|rewrite !fn_lookup_insert_ne by done; apply Hnx1].
  - rewrite bpv_alter by (lia || done). apply Hpv1.
Qed.

Lemma push_front_chain b bs l :
  length bs = S NBUF -> (b < NBUF)%nat -> NoDup (NBUF :: b :: l) ->
  (bnx bs NBUF <= NBUF)%nat -> chain (bnx bs) (bpv bs) NBUF l NBUF ->
  chain (bnx (push_front b bs)) (bpv (push_front b bs)) NBUF (b :: l) NBUF.
Proof.
  intros Hlen Hb Hnd HnN Hc.
  apply NoDup_cons in Hnd as [HN [Hbl Hnd]%NoDup_cons].
  apply (chain_push _ _ _ b) in Hc; [|constructor; set_solver|set_solver|lia|set_solver].
  unfold push_front.
  set (bs3 := alter (set_b_next (b_next (bs !!! NBUF))) b bs).
  set (bs4 := alter (set_b_prev NBUF) b bs3).
  assert (length bs3 = S NBUF) as Hl3 by (unfold bs3; by rewrite length_alter).
  assert (length bs4 = S NBUF) as Hl4 by (unfold bs4; by rewrite length_alter).
  assert (forall i, bnx bs4 i = <[b := bnx bs NBUF]> (bnx bs) i) as Hnx4.
  { intros i. unfold bs4. rewrite bnx_alter by (lia || done). unfold bs3.
    by rewrite bnx_set_next by lia. }
  assert (forall i, bpv bs4 i = <[b := NBUF]> (bpv bs) i) as Hpv4.
  { intros i. unfold bs4. rewrite bpv_set_prev by lia.
    destruct (decide (b = i)) as [->|?]; [by rewrite !fn_lookup_insert|].
    rewrite !fn_lookup_insert_ne by done. unfold bs3. by apply bpv_alter; [lia|]. }
  assert (b_next (bs4 !!! NBUF) = bnx bs NBUF) as ->.
  { fold (bnx bs4 NBUF). rewrite Hnx4. apply fn_lookup_insert_ne. lia. }
  eapply chain_ext; [| |exact Hc]; intros i _.
  - rewrite bnx_set_next by (rewrite length_alter; lia).
    destruct (decide (NBUF = i)) as [->|?]; [by rewrite !fn_lookup_insert|].
    rewrite !(fn_lookup_insert_ne _ NBUF) by done. rewrite bnx_alter by (lia || done). apply Hnx4.
  - rewrite bpv_alter by (rewrite ?length_alter; lia || done). rewrite bpv_set_prev by lia.
    destruct (decide (bnx bs NBUF = i)) as [->|?]; [by rewrite !fn_lookup_insert|].
    rewrite !(fn_lookup_insert_ne _ (bnx bs NBUF)) by done. apply Hpv4.
Qed.

(** [brelse] moves the buffer to the front of the list and keeps the order of
    the others. *)
Lemma relink_list b bs l1 l2 :
  length bs = S NBUF -> list_wf bs (l1 ++ b :: l2) ->
  list_wf (relink b bs) (b :: l1 ++ l2).
Proof.
  intros Hlen Hw. destruct (list_wf_facts _ _ Hw) as (HN & _ & Hin & Hnd).
  destruct (list_wf_neighbours _ _ _ _ Hw) as (Hb & _).
  pose proof (unlink_chain _ _ _ _ Hlen Hw) as Hu. split.
  { destruct Hw as [<- _]. by rewrite Permutation_middle. }
  apply push_front_chain; auto.
  - unfold unlink. by rewrite !length_alter.
  - rewrite Permutation_middle. by constructor.
  - apply chain_next_first, elem_of_app in Hu as [Hn|Hn].
    + apply Nat.lt_le_incl, Hin. set_solver.
    + apply list_elem_of_singleton in Hn. lia.
Qed.

Definition locks_free (s : kstate) : Prop :=
  (LkBcache ∉ k_held s) /\ (LkPtable ∉ k_held s) /\ (length (k_procs s) <= NPROC)%nat.

Lemma brelse_run s b :
  locks_free s -> busy (k_bufs s !!! b) = true ->
  brelse b s = Ret tt (set_k_procs (wake (ChBuf b) <$> k_procs s)
    (set_k_bufs (alter (set_b_flags (clear_flag (b_flags (relink b (k_bufs s) !!! b)) B_BUSY)) b
                   (relink b (k_bufs s))) s)).
Proof.
  intros (Hh & Hp & Hn) Hb. unfold brelse. kstep. unfold busy in Hb. rewrite Hb. cbn [negb].
  kstep_by ltac:(by apply acquire_ok). do 12 kstep.
  kstep_by ltac:(apply wakeup_ok; [set_solver|done]).
  erewrite release_ok; [|done|done]. reflexivity.
Qed.

Lemma list_wf_split bs l b :
  list_wf bs l -> (b < NBUF)%nat -> exists l1 l2, l = l1 ++ b :: l2.
Proof. intros Hw Hb. apply list_elem_of_split. by apply (list_wf_facts _ _ Hw). Qed.

(** Giving a buffer back: its contents must be on disk or pinned. *)
Lemma bio_inv_release bs d V H D b n :
  bio_inv bs d V H D -> H !! b = Some n -> (n ∈ D) \/ V n = blk d n ->
  bio_inv (alter (set_b_flags (clear_flag (b_flags (bs !!! b)) B_BUSY)) b bs) d V
    (delete b H) D.
Proof.
  intros I HHb Hsync. destruct (bio_inv_held _ _ _ _ _ _ _ I HHb) as (Hb & Hv & _ & <- & _ & HV).
  set (f := set_b_flags (clear_flag (b_flags (bs !!! b)) B_BUSY)).
  assert (busy (f (bs !!! b)) = false /\ dirty (f (bs !!! b)) = dirty (bs !!! b)
          /\ valid (f (bs !!! b)) = true) as (Eb & Ed & Ev).
  { unfold busy, dirty, valid, f. simpl. autorewrite with flags. done. }
  pose proof (bio_inv_touch bs d V H D b f d I Hb Hv) as Ht. simpl in Ht.
  rewrite Eb, Ed in Ht. rewrite (bio_inv_pins_same _ _ _ _ _ _ _ I) in Ht by done.
  rewrite (bio_inv_same_view V) in Ht by done.
  apply Ht; auto; [rewrite <- HV; apply (bi_vlen _ _ _ _ _ I)|apply (bi_dlen _ _ _ _ _ I)|].
  intros Hd _. rewrite <- HV. destruct Hsync as [Hin|?]; [|done].
  apply (bio_inv_dirty_iff _ _ _ _ _ _ I Hb Hv) in Hin. congruence.
Qed.

(** [brelse]: the buffer becomes the most recently used one. *)
Lemma brelse_ok s V H D b n :
  bio_inv (k_bufs s) (k_disk s) V H D -> locks_free s -> H !! b = Some n ->
  (n ∈ D) \/ V n = blk (k_disk s) n ->
  exists bs', brelse b s = Ret tt (set_k_procs (wake (ChBuf b) <$> k_procs s) (set_k_bufs bs' s)) /\
    bio_inv bs' (k_disk s) V (delete b H) D /\
    (forall l1 l2, list_wf (k_bufs s) (l1 ++ b :: l2) -> list_wf bs' (b :: l1 ++ l2)).
Proof.
  intros I Hl HHb Hs. pose proof (bi_len _ _ _ _ _ I) as Hlen.
  destruct (bi_hdom _ _ _ _ _ I b) as [Hb Hv]; [by eauto|].
  pose proof (bi_busy _ _ _ _ _ I b Hb) as HB. rewrite HHb in HB.
  destruct (busy (k_bufs s !!! b)) eqn:Ebusy; [|done].
  eexists. split; [by apply brelse_run|].
  destruct (bi_list _ _ _ _ _ I) as [l Hw].
  destruct (list_wf_split _ _ _ Hw Hb) as (l1 & l2 & ->).
  split.
  - apply bio_inv_release with (n := n); auto.
    eapply bio_inv_relink; [exact I|apply length_relink|by apply relink_list|].
    intros i _. apply relink_payload.
  - intros l1' l2' Hw'. apply list_wf_alter; [rewrite length_relink; lia|done|done|].
    by apply relink_list.
Qed.

(** *** Writing to a buffer in use *)

Lemma bio_inv_write bs d V H D b n data :
  bio_inv bs d V H D -> H !! b = Some n -> length data = Z.to_nat BSIZE ->
  bio_inv (alter (set_b_data data) b bs) d (<[n := data]> V) H D.
Proof.
  intros I HHb Hdata.
  destruct (bio_inv_held _ _ _ _ _ _ _ I HHb) as (Hb & Hv & Eb & <- & _ & HV).
  pose proof (bio_inv_touch bs d V H D b (set_b_data data) d I Hb Hv) as Ht. simpl in Ht.
  change (busy (set_b_data data (bs !!! b))) with (busy (bs !!! b)) in Ht.
  change (dirty (set_b_data data (bs !!! b))) with (dirty (bs !!! b)) in Ht.
  rewrite Eb, (bio_inv_pins_same _ _ _ _ _ _ _ I), insert_id in Ht by done.
  apply Ht; auto; [apply (bi_dlen _ _ _ _ _ I)|done].
Qed.

(** Pinning a buffer in the cache: [b->flags |= B_DIRTY] of [log_write]. *)
Lemma bio_inv_pin bs d V H D b n :
  bio_inv bs d V H D -> H !! b = Some n ->
  bio_inv (alter (set_b_flags (set_flag (b_flags (bs !!! b)) B_DIRTY)) b bs) d V H ({[n]} ∪ D).
Proof.
  intros I HHb.
  destruct (bio_inv_held _ _ _ _ _ _ _ I HHb) as (Hb & Hv & Eb & <- & _ & HV).
  set (f := set_b_flags (set_flag (b_flags (bs !!! b)) B_DIRTY)).
  assert (busy (f (bs !!! b)) = true /\ dirty (f (bs !!! b)) = true
          /\ valid (f (bs !!! b)) = true) as (Eb' & Ed & Ev).
  { unfold busy, dirty, valid, f in *. simpl. autorewrite with flags. done. }
  pose proof (bio_inv_touch bs d V H D b f d I Hb Hv) as Ht. simpl in Ht.
  rewrite Eb', Ed, insert_id, (bio_inv_same_view V) in Ht by done.
  apply Ht; auto; [rewrite <- HV; apply (bi_vlen _ _ _ _ _ I)|apply (bi_dlen _ _ _ _ _ I)|done].
Qed.

(** *** [bwrite] *)

Lemma blk_write n data d m :
  blk (disk_write n data d) m = if decide (m = n) then data else blk d m.
Proof.
  unfold blk, disk_write. simpl. case_decide; subst.
  - by rewrite lookup_insert_eq.
  - by rewrite lookup_insert_ne.
Qed.

Definition written (r : buf) : buf :=
  set_b_flags (set_flag (clear_flag (set_flag (b_flags r) B_DIRTY) B_DIRTY) B_VALID) r.

Lemma iderw_write s b :
  (b < length (k_bufs s))%nat ->
  let r := k_bufs s !!! b in
  busy r = true -> dirty r = true -> b_dev r = 1 -> b_sector r < dk_size (k_disk s) ->
  iderw b s = Ret tt (set_k_disk (disk_write (b_sector r) (b_data r) (k_disk s))
    (upd_buf b (fun r => set_b_flags (set_flag (clear_flag (b_flags r) B_DIRTY) B_VALID) r) s)).
Proof.
  intros Hlen r Hb Hd Hdev Hsec. unfold iderw, mbind, M_bind.
  cbn [obind getbuf gets]. fold r. unfold busy, dirty in *.
  rewrite Hb, synced_spec, Hd, Hdev, andb_false_r. cbn [negb]. rewrite Z.eqb_refl.
  cbn [negb obind gets]. rewrite (proj2 (Z.leb_gt _ _) Hsec). cbn [obind modify].
  f_equal. kst_eq. rewrite list_alter_alter_eq.
  apply list_alter_ext; [|done]. intros r0 Hr0. simpl.
  rewrite lookup_total_alter, decide_True by done. simpl.
  unfold r. by rewrite (list_lookup_total_correct _ _ _ Hr0).
Qed.

Lemma bwrite_run s b :
  (b < length (k_bufs s))%nat -> busy (k_bufs s !!! b) = true ->
  b_dev (k_bufs s !!! b) = 1 -> b_sector (k_bufs s !!! b) < dk_size (k_disk s) ->
  bwrite b s = Ret tt (set_k_disk (disk_write (b_sector (k_bufs s !!! b))
                         (b_data (k_bufs s !!! b)) (k_disk s)) (upd_buf b written s)).
Proof.
  intros Hb Hbusy Hdev Hsec. unfold bwrite. kstep. unfold busy in Hbusy. rewrite Hbusy.
  cbn [negb]. kstep.
  set (s1 := upd_buf b (set_b_flags (set_flag (b_flags (k_bufs s !!! b)) B_DIRTY)) s).
  assert (k_bufs s1 !!! b = set_b_flags (set_flag (b_flags (k_bufs s !!! b)) B_DIRTY)
                              (k_bufs s !!! b)) as E.
  { unfold s1, upd_buf. cbn [k_bufs set_k_bufs]. by rewrite lookup_total_alter, decide_True. }
  rewrite iderw_write; rewrite ?E; unfold busy, dirty; cbn [b_flags set_b_flags b_dev b_sector b_data];
    autorewrite with flags; auto.
  - f_equal. unfold s1. kst_eq. rewrite list_alter_alter_eq.
    apply list_alter_ext; [|done]. intros r Hr. unfold written. simpl.
    by rewrite (list_lookup_total_correct _ _ _ Hr).
  - unfold s1, upd_buf. cbn [k_bufs set_k_bufs]. by rewrite length_alter.
Qed.

(** [bwrite] makes the disk copy of the sector the cached one. *)
Lemma bwrite_ok s V H D b n :
  bio_inv (k_bufs s) (k_disk s) V H D -> H !! b = Some n ->
  n < dk_size (k_disk s) ->
  exists bs', bwrite b s = Ret tt (set_k_disk (disk_write n (V n) (k_disk s)) (set_k_bufs bs' s)) /\
    bio_inv bs' (disk_write n (V n) (k_disk s)) V H (D ∖ {[n]}) /\
    (forall i, b_data (bs' !!! i) = b_data (k_bufs s !!! i)).
Proof.
  intros I HHb Hn.
  destruct (bio_inv_held _ _ _ _ _ _ _ I HHb) as (Hb & Hv & Eb & Hsec & Hdev & HV).
  pose proof (bi_len _ _ _ _ _ I) as Hlen.
  exists (alter written b (k_bufs s)). split; [|split].
  - rewrite bwrite_run by (auto; lia). by rewrite Hsec, <- HV.
  - assert (busy (written (k_bufs s !!! b)) = true /\ dirty (written (k_bufs s !!! b)) = false
          /\ valid (written (k_bufs s !!! b)) = true) as (Eb' & Ed & Ev).
    { unfold busy, dirty, valid, written in *. simpl. by autorewrite with flags. }
    pose proof (bio_inv_touch _ _ _ _ _ b written (disk_write n (V n) (k_disk s)) I Hb Hv) as Ht.
    cbn zeta in Ht. rewrite Eb', Ed, Hsec in Ht. simpl b_data in Ht.
    rewrite (bio_inv_same_view V), insert_id in Ht by done.
    apply Ht; auto.
    + simpl. rewrite <- HV. apply (bi_vlen _ _ _ _ _ I).
    + intros m Hm. by rewrite blk_write, decide_False.
    + rewrite blk_write, decide_True by done. apply (bi_vlen _ _ _ _ _ I).
    + done.
  - intros i. rewrite lookup_total_alter by lia. by case_decide; subst.
Qed.

(** ** Initialisation *)

Lemma binit_commute b x y z (bs : list buf) :
  alter (set_b_dev z) b (alter (set_b_prev y) b (alter (set_b_next x) b bs))
  = alter (set_b_prev y) b (alter (set_b_next x) b (alter (set_b_dev z) b bs)).
Proof.
  rewrite !list_alter_alter_eq. apply list_alter_ext; [|done]. by intros [].
Qed.

(** The body of the loop of [binit] puts the buffer at the front. *)
Lemma binit_step b s :
  (b < NBUF)%nat -> length (k_bufs s) = S NBUF ->
  binit_body b s
  = Ret tt (set_k_bufs (push_front b (alter (set_b_dev (u32 (-1))) b (k_bufs s))) s).
Proof.
  intros Hb Hlen. unfold binit_body. do 6 kstep. unfold modify. f_equal. kst_eq.
  rewrite binit_commute.
  assert (alter (set_b_dev (u32 (-1))) b (k_bufs s) !!! NBUF = k_bufs s !!! NBUF) as HN.
  { rewrite lookup_total_alter by lia. by rewrite decide_False by lia. }
  unfold push_front. by rewrite HN.
Qed.

(** After [binit] on zeroed buffers the list holds all of them, the last one
    pushed first, and none of them claims a sector. *)
Lemma push_front_payload b bs i : same_payload (bs !!! i) (push_front b bs !!! i).
Proof. unfold push_front. repeat (eapply same_payload_trans; [|apply alter_payload; done]). done. Qed.

Record raw_inv (k : nat) (bs : list buf) : Prop := {
  raw_len : length bs = S NBUF;
  raw_chain : chain (bnx bs) (bpv bs) NBUF (reverse (seq 0 k)) NBUF;
  raw_flags : forall i, (i < NBUF)%nat -> b_flags (bs !!! i) = 0;
  raw_dev : forall i, (i < k)%nat -> b_dev (bs !!! i) = u32 (-1);
}.

Lemma raw_inv_step k bs :
  (k < NBUF)%nat -> raw_inv k bs ->
  raw_inv (S k) (push_front k (alter (set_b_dev (u32 (-1))) k bs)).
Proof.
  intros Hk []. set (bs1 := alter (set_b_dev (u32 (-1))) k bs).
  assert (length bs1 = S NBUF) as Hl1 by (unfold bs1; by rewrite length_alter).
  assert (forall i, bs1 !!! i = if decide (k = i) then set_b_dev (u32 (-1)) (bs !!! k) else bs !!! i)
    as Hlk by (intros i; apply lookup_total_alter; lia).
  assert (forall i, bnx bs1 i = bnx bs i) as Hnx by (apply bnx_alter; [lia|done]).
  assert (forall i, bpv bs1 i = bpv bs i) as Hpv by (apply bpv_alter; [lia|done]).
  split.
  - unfold push_front. by rewrite !length_alter.
  - rewrite seq_S, reverse_snoc. apply push_front_chain; auto.
    + rewrite !NoDup_cons, elem_of_cons, !elem_of_reverse, !elem_of_seq.
      split_and!; [lia|lia|]. rewrite reverse_Permutation. apply NoDup_seq.
    + rewrite Hnx. apply chain_next_first, elem_of_app in raw_chain0 as [Hn|Hn].
      * rewrite elem_of_reverse, elem_of_seq in Hn. lia.
      * apply list_elem_of_singleton in Hn. lia.
    + eapply chain_ext; [| |exact raw_chain0]; auto.
  - intros i Hi. destruct (push_front_payload k bs1 i) as (-> & _). rewrite Hlk.
    case_decide; subst; auto. apply raw_flags0. done.
  - intros i Hi. destruct (push_front_payload k bs1 i) as (_ & -> & _). rewrite Hlk.
    case_decide; subst; [done|]. apply raw_dev0. lia.
Qed.

Lemma binit_loop n k s :
  (k + n = NBUF)%nat -> raw_inv k (k_bufs s) ->
  exists bs', for_each (seq k n) binit_body s = Ret tt (set_k_bufs bs' s) /\ raw_inv NBUF bs'.
Proof.
  revert k s. induction n as [|n IH]; intros k s Hk HI.
  - exists (k_bufs s). rewrite Nat.add_0_r in Hk. subst k. split; [|done]. by destruct s.
  - cbn [seq for_each]. rewrite (bind_Ret _ _ _ _ _ (binit_step k s ltac:(lia) (raw_len _ _ HI))).
    destruct (IH (S k) (set_k_bufs (push_front k (alter (set_b_dev (u32 (-1))) k (k_bufs s))) s))
      as (bs' & HR & HI'); [lia|by apply raw_inv_step; [lia|]|].
    exists bs'. split; [exact HR|done].
Qed.

Lemma raw_inv_bio bs d :
  raw_inv NBUF bs -> (forall n, length (blk d n) = Z.to_nat BSIZE) ->
  bio_inv bs d (blk d) ∅ ∅.
Proof.
  intros [] Hd.
  assert (forall i, (i < NBUF)%nat -> busy (bs !!! i) = false /\ valid (bs !!! i) = false
            /\ dirty (bs !!! i) = false) as Hf.
  { intros i Hi. unfold busy, valid, dirty. by rewrite raw_flags0. }
  split; auto; try (intros i Hi; destruct (Hf i Hi) as (Hb & Hv & Hdi); rewrite ?Hb, ?Hv, ?Hdi; done).
  - exists (reverse (seq 0 NBUF)). split; [apply reverse_Permutation|done].
  - intros i j Hi Hj Hdi. by rewrite raw_dev0 in Hdi.
  - intros i [? Hi]. by rewrite lookup_empty in Hi.
  - intros i Hi. destruct (Hf i Hi) as (_ & -> & _). by rewrite raw_dev0.
  - intros n Hn. set_solver.
Qed.

(** [binit] establishes the invariant: the cache is empty and every sector
    reads as it is on the disk. *)
Lemma binit_ok s :
  length (k_bufs s) = S NBUF -> (forall i, (i < NBUF)%nat -> b_flags (k_bufs s !!! i) = 0) ->
  (forall n, length (blk (k_disk s) n) = Z.to_nat BSIZE) ->
  exists bs', binit s = Ret tt (set_k_bufs bs' s) /\
    bio_inv bs' (k_disk s) (blk (k_disk s)) ∅ ∅.
Proof.
  intros Hlen Hf Hd. unfold binit. do 2 kstep.
  match goal with |- context [for_each _ _ ?s1] =>
    destruct (binit_loop NBUF 0 s1 eq_refl) as (bs' & HR & HI) end.
  - unfold upd_buf. cbn [k_bufs set_k_bufs].
    assert (forall (bs : list buf) (f : buf -> buf) i, (i < NBUF)%nat -> length bs = S NBUF ->
              alter f NBUF bs !!! i = bs !!! i) as Hi.
    { intros bs f i Hi Hl. rewrite lookup_total_alter by lia. by rewrite decide_False by lia. }
    split.
    + by rewrite !length_alter.
    + simpl. unfold bnx, bpv. rewrite !list_alter_alter_eq.
      rewrite !lookup_total_alter, !decide_True by (done || lia). done.
    + intros i Hi'. rewrite !Hi by (rewrite ?length_alter; done). auto.
    + lia.
  - exists bs'. split; [exact HR|]. by apply raw_inv_bio.
Qed.
