(* ===== verification/BioSpec.v ===== *)
(** * What the buffer cache promises to the layers above

    [bio s V H D] packages the invariant with the conditions under which the
    cache's functions can be called; [bio_frame s s'] says that nothing but
    the cache, the disk and sleeping processes changed. *)

From S2P Require Import Prelude Monad State Dll Sched Bio.

Definition bio (s : kstate) (V : Z -> list Z) (H : gmap nat Z) (D : gset Z) : Prop :=
  bio_inv (k_bufs s) (k_disk s) V H D /\ locks_free s.

Record bio_frame (s s' : kstate) : Prop := {
  bf_state : s' = set_k_procs (k_procs s') (set_k_disk (k_disk s') (set_k_bufs (k_bufs s') s));
  bf_procs : woken (k_procs s) (k_procs s');
  bf_size : dk_size (k_disk s') = dk_size (k_disk s);
}.

#[export] Instance bio_frame_refl : Reflexive bio_frame.
Proof. intros s. split; [by destruct s|done|done]. Qed.

#[export] Instance bio_frame_trans : Transitive bio_frame.
Proof.
  intros s1 s2 s3 [E1 W1 Z1] [E2 W2 Z2]. split; [|by etrans|congruence].
  rewrite E2 at 1. rewrite E1 at 1. reflexivity.
Qed.

Lemma bio_frame_log s s' : bio_frame s s' -> k_log s' = k_log s.
Proof. intros [-> _ _]. done. Qed.
Lemma bio_frame_held s s' : bio_frame s s' -> k_held s' = k_held s.
Proof. intros [-> _ _]. done. Qed.
Lemma bio_frame_inodes s s' : bio_frame s s' -> k_inodes s' = k_inodes s.
Proof. intros [-> _ _]. done. Qed.

Lemma bio_proper s V V' H D : (forall n, V n = V' n) -> bio s V H D -> bio s V' H D.
Proof.
  intros HV [I L]. split; [|done].
  by apply (bio_inv_proper _ _ V V' HV H H eq_refl D D eq_refl).
Qed.

(** A sector that is neither logged nor held is as on disk. *)
Lemma bio_off_disk_held s V H D n :
  bio s V H D -> (forall b, H !! b <> Some n) -> n ∉ D -> V n = blk (k_disk s) n.
Proof.
  intros [I _] HH Hn.
  destruct (List.find (fun i => valid (k_bufs s !!! i) && (b_sector (k_bufs s !!! i) =? n))
              (seq 0 NBUF)) as [i|] eqn:E.
  - apply find_some in E as [Hi%in_seq [Hv Hs%Z.eqb_eq]%andb_true_iff].
    rewrite <- Hs. rewrite (bi_vcache _ _ _ _ _ I) by (lia || done). apply (bi_coh _ _ _ _ _ I); [lia|done|..].
    + destruct (dirty (k_bufs s !!! i)) eqn:Ed; [|done].
      destruct (bi_dirty _ _ _ _ _ I i ltac:(lia) Ed) as [_ HD]. congruence.
    + pose proof (bi_busy _ _ _ _ _ I i ltac:(lia)) as HB.
      destruct (busy (k_bufs s !!! i)); [|done]. rewrite Hs in HB. by apply HH in HB.
  - apply (bi_vdisk _ _ _ _ _ I). intros i Hi Hv Hs.
    pose proof (find_none _ _ E i) as Hc. simpl in Hc. rewrite Hv, Hs, Z.eqb_refl in Hc.
    discriminate Hc. apply in_seq. lia.
Qed.

Lemma bio_off_disk s V H D n : bio s V H D -> H = ∅ -> n ∉ D -> V n = blk (k_disk s) n.
Proof. intros B -> Hn. apply (bio_off_disk_held s V ∅ D n B); [|done]. intros b. by rewrite lookup_empty. Qed.

Section Interface.
Context {WF : WakeFuel}.
Implicit Types (V : Z -> list Z) (H : gmap nat Z) (D : gset Z).

Lemma wp_bread s V H D n :
  bio s V H D -> n < dk_size (k_disk s) -> (forall i, H !! i <> Some n) ->
  (size H + size D < NBUF)%nat \/ n ∈ D ->
  wp (bread 1 n) (fun b s' => bio_frame s s' /\ bio s' V (<[b := n]> H) D /\
    H !! b = None /\ b_data (k_bufs s' !!! b) = V n /\ k_disk s' = k_disk s) s.
Proof.
  intros [I (Hh & Hl)] Hn HHn Hroom.
  assert (exists b bs', bread 1 n s = Ret b (set_k_bufs bs' s) /\
    bio_inv bs' (k_disk s) V (<[b := n]> H) D /\ H !! b = None /\
    b_data (bs' !!! b) = V n) as (b & bs' & HR & I' & Hb & Hd).
  { destruct Hroom as [Hroom|HD]; [by apply bread_ok|].
    destruct (bi_list _ _ _ _ _ I) as [l Hw].
    destruct (List.find (fun b => is_block 1 n (k_bufs s !!! b)) l) as [b|] eqn:Hf.
    { exists b. by eapply bread_cached. }
    exfalso. destruct (bi_pinned _ _ _ _ _ I n HD) as (i & Hi & Hdi & Hsi).
    pose proof (find_none _ _ Hf i) as Hc. simpl in Hc. unfold is_block in Hc.
    destruct (bi_dirty _ _ _ _ _ I i Hi Hdi) as [Hv%(bi_vdev _ _ _ _ _ I) _]; [|done].
    rewrite Hv, Hsi, !Z.eqb_refl in Hc. discriminate Hc.
    apply list_elem_of_In. by apply (list_wf_facts _ _ Hw). }
  exists b, (set_k_bufs bs' s). split; [done|]. split; [by split; [destruct s| |]|].
  by split.
Qed.

Lemma wp_brelse s V H D b n :
  bio s V H D -> H !! b = Some n -> (n ∈ D) \/ V n = blk (k_disk s) n ->
  wp (brelse b) (fun _ s' => bio_frame s s' /\ bio s' V (delete b H) D /\
    k_disk s' = k_disk s) s.
Proof.
  intros [I L] Hb Hs. destruct (brelse_ok s V H D b n I L Hb Hs) as (bs' & HR & I' & _).
  eexists tt, _. split; [exact HR|]. split.
  { split; [by destruct s|apply woken_wake|done]. }
  split; [|done]. split; [done|]. destruct L as (? & ? & ?). unfold locks_free. simpl.
  by rewrite length_fmap.
Qed.

Lemma wp_bwrite s V H D b n :
  bio s V H D -> H !! b = Some n -> n < dk_size (k_disk s) ->
  wp (bwrite b) (fun _ s' => bio_frame s s' /\ bio s' V H (D ∖ {[n]}) /\
    k_disk s' = disk_write n (V n) (k_disk s)) s.
Proof.
  intros [I L] Hb Hn. destruct (bwrite_ok s V H D b n I Hb Hn) as (bs' & HR & I' & _).
  eexists tt, _. split; [exact HR|]. split; [by split; [destruct s| |]|]. by split.
Qed.

(** Assigning to [b->data] of a buffer in use. *)
Lemma bio_assign s V H D b n f :
  bio s V H D -> H !! b = Some n -> length (f (V n)) = Z.to_nat BSIZE ->
  let s' := upd_buf b (fun r => set_b_data (f (b_data r)) r) s in
  bio_frame s s' /\ bio s' (<[n := f (V n)]> V) H D /\ k_disk s' = k_disk s.
Proof.
  intros [I L] Hb Hf s'. split; [by split; [destruct s| |]|]. split; [|done].
  split; [|done]. destruct (bio_inv_held _ _ _ _ _ _ _ I Hb) as (Hlt & _ & _ & _ & _ & HV).
  replace (k_bufs s') with (alter (set_b_data (f (V n))) b (k_bufs s)).
  - by apply bio_inv_write.
  - unfold s', upd_buf. simpl. apply list_alter_ext; [|done].
    intros r Hr. rewrite HV. by rewrite (list_lookup_total_correct _ _ _ Hr).
Qed.

End Interface.
