(* ===== verification/BioProps.v ===== *)
(** * The buffer cache is a disk

    Clients that read and write whole sectors through the cache cannot tell
    it from a disk: any sequence of their operations returns what the same
    sequence on a plain map of sectors returns, however the cache recycles its
    buffers meanwhile. *)

From S2P Require Import Prelude Monad State Dll Sched Bio BioSpec.

(** Operations of a client, on the cache and on a plain disk. *)
Inductive dop := DRead (n : Z) | DWrite (n : Z) (data : list Z).

Definition dop_abs (o : dop) (V : Z -> list Z) : list Z * (Z -> list Z) :=
  match o with
  | DRead n => (V n, V)
  | DWrite n data => ([], <[n := data]> V)
  end.

Fixpoint dops_abs (os : list dop) (V : Z -> list Z) : list (list Z) * (Z -> list Z) :=
  match os with
  | [] => ([], V)
  | o :: os => let '(r, V) := dop_abs o V in let '(rs, V) := dops_abs os V in (r :: rs, V)
  end.

Definition dop_ok (d : disk) (o : dop) : Prop :=
  match o with
  | DRead n => n < dk_size d
  | DWrite n data => n < dk_size d /\ length data = Z.to_nat BSIZE
  end.

Section BioProps.
Context {WF : WakeFuel}.

Definition dop_run (o : dop) : K (list Z) :=
  match o with
  | DRead n =>
      b ← bread 1 n;
      r ← getbuf b;
      brelse b;;
      mret (b_data r)
  | DWrite n data =>
      b ← bread 1 n;
      modify (upd_buf b (fun r => set_b_data data r));;
      bwrite b;;
      brelse b;;
      mret []
  end.

Fixpoint dops_run (os : list dop) : K (list (list Z)) :=
  match os with
  | [] => mret []
  | o :: os => r ← dop_run o; rs ← dops_run os; mret (r :: rs)
  end.

(** Nothing is held, nothing is pinned: the cache shows what is on disk. *)
Definition bio_idle (s : kstate) (V : Z -> list Z) : Prop := bio s V ∅ ∅.

Lemma idle_disk s V n : bio_idle s V -> V n = blk (k_disk s) n.
Proof. intros B. by apply (bio_off_disk s V ∅ ∅ n B). Qed.

Lemma wp_dop_run o s V :
  bio_idle s V -> dop_ok (k_disk s) o ->
  wp (dop_run o) (fun r s' => exists V', dop_abs o V = (r, V') /\ bio_idle s' V' /\
    dk_size (k_disk s') = dk_size (k_disk s)) s.
Proof.
  intros B Ho. assert (0 < NBUF)%nat as HN by (rewrite NBUF_eq; lia).
  destruct o as [n|n data]; simpl in Ho |- *.
  - wapply (wp_bread s V ∅ ∅ n B Ho); [intros i; by rewrite lookup_empty|
      left; rewrite map_size_empty, size_empty; lia|].
    intros b s1 (F1 & B1 & _ & D1 & E1). wstep. rewrite D1.
    wapply (wp_brelse s1 V _ ∅ b n B1); [apply lookup_insert_eq|right; rewrite E1; by apply idle_disk|].
    intros [] s2 (F2 & B2 & E2). wstep. exists V. split; [done|].
    rewrite delete_insert_id in B2 by apply lookup_empty. split; [done|]. by rewrite E2, E1.
  - destruct Ho as [Hn Hlen].
    wapply (wp_bread s V ∅ ∅ n B Hn); [intros i; by rewrite lookup_empty|
      left; rewrite map_size_empty, size_empty; lia|].
    intros b s1 (F1 & B1 & _ & D1 & E1). wstep.
    destruct (bio_assign s1 V _ ∅ b n (fun _ => data) B1 (lookup_insert_eq _ _ _) Hlen) as (F2 & B2 & E2).
    set (s2 := upd_buf b _ s1) in *.
    wapply (wp_bwrite s2 _ _ ∅ b n B2 (lookup_insert_eq _ _ _)); [rewrite E2, E1; done|].
    intros [] s3 (F3 & B3 & E3). rewrite fn_lookup_insert in E3.
    wapply (wp_brelse s3 _ _ _ b n B3); [apply lookup_insert_eq| |].
    { right. rewrite E3, fn_lookup_insert. unfold blk, disk_write. simpl. by rewrite lookup_insert_eq. }
    intros [] s4 (F4 & B4 & E4). wstep. eexists. split; [done|].
    rewrite delete_insert_id in B4 by apply lookup_empty. unfold bio_idle.
    replace (∅ ∖ {[n]}) with (∅ : gset Z) in B4 by set_solver. split; [done|].
    rewrite E4, E3. cbn [disk_write dk_size]. by rewrite E2, E1.
Qed.

Lemma wp_dops_run os : forall s V,
  bio_idle s V -> Forall (dop_ok (k_disk s)) os ->
  wp (dops_run os) (fun rs s' => exists V', dops_abs os V = (rs, V') /\ bio_idle s' V' /\
    dk_size (k_disk s') = dk_size (k_disk s)) s.
Proof.
  induction os as [|o os IH]; intros s V B Ho; [wstep; by exists V|]. apply Forall_cons in Ho as [Ho Hos].
  cbn [dops_run]. wapply (wp_dop_run o s V B Ho). intros r s1 (V1 & E1 & B1 & S1).
  wapply (IH s1 V1 B1).
  { apply (Forall_impl _ _ _ Hos). intros [n|n data]; simpl; by rewrite S1. }
  intros rs s2 (V2 & E2 & B2 & S2). wstep. exists V2. cbn [dops_abs]. rewrite E1, E2. split; [done|].
  split; [done|]. by rewrite S2, S1.
Qed.

(** C4: The buffer cache refines a disk: any sequence of sector reads and writes
    through [bread], [bwrite] and [brelse] runs to the end, returns what the
    sequence returns on a map of sectors, and leaves these sectors on disk.
    Only [NBUF] sectors are cached, so the sequence may recycle buffers at
    any point. *)
Theorem bcache_refines_disk os s V :
  bio_idle s V -> Forall (dop_ok (k_disk s)) os ->
  exists s' V', dops_run os s = Ret (dops_abs os V).1 s' /\ (dops_abs os V).2 = V' /\
    bio_idle s' V' /\ forall n, blk (k_disk s') n = V' n.
Proof.
  intros B Ho. destruct (wp_dops_run os s V B Ho) as (rs & s' & Hr & V' & E & B' & _).
  exists s', V'. rewrite E. split; [done|]. split; [done|]. split; [done|].
  intros n. symmetry. by apply idle_disk.
Qed.

End BioProps.

Lemma idle_boot d :
  (forall n, length (blk d n) = Z.to_nat BSIZE) ->
  exists bs, bio_idle (set_k_bufs bs (reset_state d)) (blk d).
Proof.
  intros Hd. destruct (binit_ok (reset_state d)) as (bs & _ & I).
  - by rewrite NBUF_eq.
  - intros i Hi. rewrite NBUF_eq in Hi. unfold reset_state. cbn [k_bufs].
    by rewrite lookup_total_replicate_2 by lia.
  - exact Hd.
  - exists bs. split; [exact I|]. split; [apply not_elem_of_nil|]. split; [apply not_elem_of_nil|].
    rewrite NPROC_eq. done.
Qed.

Lemma bcache_refines_disk_witness :
  exists s s', dops_run (WF := 1%nat) [DWrite 3 (replicate 512 7); DRead 3; DRead 4] s =
    Ret [[]; replicate 512 7; replicate 512 0] s'.
Proof.
  destruct (idle_boot (mkdisk ∅ 8 [])) as (bs & B).
  { intros n. unfold blk. simpl. rewrite lookup_empty. reflexivity. }
  destruct (bcache_refines_disk (WF := 1%nat) [DWrite 3 (replicate 512 7); DRead 3; DRead 4] _ _ B)
    as (s' & V' & Hr & _).
  - repeat constructor.
  - exists (set_k_bufs bs (reset_state (mkdisk ∅ 8 []))), s'. exact Hr.
Defined.
