(* ===== verification/Layout.v ===== *)
(** * On-disk structures ([fs.h]) and [readsb]

    The superblock, inodes, directory entries and the log header as they are
    laid out in a sector, and their round trips through the byte encoding. *)

From S2P Require Import Prelude Monad State Sched Bio BioSpec.

Definition dec_superblock (l : list Z) : superblock :=
  mksb (rd 4 0 l) (rd 4 4 l) (rd 4 8 l) (rd 4 12 l).

Definition enc_superblock (sb : superblock) : list Z :=
  le_enc 4 (sb_size sb) ++ le_enc 4 (sb_nblocks sb)
  ++ le_enc 4 (sb_ninodes sb) ++ le_enc 4 (sb_nlog sb).

(** A [struct dinode] at byte offset [k] of a sector. *)
Definition dec_dinode (k : nat) (l : list Z) : dinode :=
  mkdinode (s16 (rd 2 k l)) (s16 (rd 2 (k + 2) l)) (s16 (rd 2 (k + 4) l))
           (s16 (rd 2 (k + 6) l)) (rd 4 (k + 8) l) (rd_words (k + 12) 13 l).

Definition enc_dinode (d : dinode) : list Z :=
  le_enc 2 (d_type d) ++ le_enc 2 (d_major d) ++ le_enc 2 (d_minor d)
  ++ le_enc 2 (d_nlink d) ++ le_enc 4 (d_size d) ++ concat (le_enc 4 <$> d_addrs d).

(** A [struct dirent] in a 16-byte buffer. *)
Definition dec_dirent (l : list Z) : dirent := mkdirent (rd 2 0 l) (slice 2 DIRSIZ l).
Definition enc_dirent (de : dirent) : list Z := le_enc 2 (de_inum de) ++ de_name de.

Section Layout.
Context {WF : WakeFuel}.

(** [readsb]: the superblock is sector 1. *)
Definition readsb (dev : Z) : K superblock :=
  bp ← bread dev 1;
  r ← getbuf bp;
  brelse bp;;
  mret (dec_superblock (b_data r)).

End Layout.

(** ** [readsb] reads the superblock and leaves everything as it was *)

Section LayoutSpec.
Context {WF : WakeFuel}.

Lemma wp_readsb s V H D :
  bio s V H D -> 1 < dk_size (k_disk s) -> (forall i, H !! i <> Some 1) ->
  (size H + size D < NBUF)%nat -> (1 ∈ D) \/ V 1 = blk (k_disk s) 1 ->
  wp (readsb 1) (fun sb s' => bio_frame s s' /\ bio s' V H D /\ k_disk s' = k_disk s /\
    sb = dec_superblock (V 1)) s.
Proof.
  intros HB Hs HH Hsz HV. unfold readsb.
  wapply wp_bread; [done..|by left|]. intros b s1 (F1 & B1 & N1 & D1 & E1). wstep. rewrite D1.
  wapply (wp_brelse s1 _ _ _ b 1); [done|by rewrite lookup_insert_eq|by rewrite E1|].
  intros [] s2 (F2 & B2 & E2). rewrite delete_insert_id in B2 by done.
  apply wp_ret. split; [by etrans|]. split; [done|]. split; [congruence|done].
Qed.

End LayoutSpec.
