(* ===== verification/Log.v ===== *)
(** * The write-ahead log ([log.c]): the operations

    The header block of the log on disk is a [struct logheader]: an [int n]
    followed by [LOGSIZE] sector numbers, each an [int].  An access to
    [lh.sector] outside the array is undefined behaviour. *)

From S2P Require Import Prelude Monad State Sched Bio BioSpec Layout.

Definition head_n (data : list Z) : Z := s32 (rd 4 0 data).
Definition head_sector (i : nat) (data : list Z) : Z := s32 (rd 4 (4 + 4 * i) data).

(** [sizeof(struct logheader)] *)
Definition LOGHEADER_SIZE : Z := 4 + 4 * LOGSIZE.

Definition in_header (i : Z) : bool := (0 <=? i) && (i <? LOGSIZE).

(** [log.lh.sector[i]] as an rvalue and as an lvalue. *)
Definition get_sector (i : Z) : K Z :=
  l ← gets k_log;
  if in_header i then mret (l_sector l !!! Z.to_nat i) else undef.

Definition put_sector (i x : Z) : K unit :=
  if in_header i then modify (upd_log (fun l => set_l_sector (<[Z.to_nat i := x]> (l_sector l)) l))
  else undef.

(** [for (tail = 0; tail < log.lh.n; tail++) body(tail)].  Every [body] below
    accesses the array at [tail], so the loop ends, at the latest with an
    access outside it, after [LOGSIZE + 1] rounds. *)
Definition for_logged (body : Z -> K unit) : K unit :=
  loop (S (Z.to_nat LOGSIZE)) (fun tail =>
    l ← gets k_log;
    if tail <? l_n l then body tail;; mret (inl (tail + 1)) else mret (inr tt)) 0.

(** [memmove(dst->data, src->data, BSIZE)] *)
Definition copy_data (dst src : nat) : K unit :=
  r ← getbuf src;
  modify (upd_buf dst (set_b_data (b_data r))).

Section Log.
Context {WF : WakeFuel}.

(** Copy committed blocks from the log to their home location. *)
Definition install_body (tail : Z) : K unit :=
  l ← gets k_log;
  lbuf ← bread (l_dev l) (u32 (l_start l + tail + 1));
  sec ← get_sector tail;
  l ← gets k_log;
  dbuf ← bread (l_dev l) (u32 sec);
  copy_data dbuf lbuf;;
  bwrite dbuf;;
  brelse lbuf;;
  brelse dbuf.

Definition install_trans : K unit := for_logged install_body.

(** Read the log header from disk into the in-memory log header. *)
Definition read_head : K unit :=
  l ← gets k_log;
  buf ← bread (l_dev l) (u32 (l_start l));
  r ← getbuf buf;
  modify (upd_log (set_l_n (head_n (b_data r))));;
  for_logged (fun i =>
    r ← getbuf buf;
    put_sector i (head_sector (Z.to_nat i) (b_data r)));;
  brelse buf.

(** Write the in-memory log header to disk. *)
Definition write_head : K unit :=
  l ← gets k_log;
  buf ← bread (l_dev l) (u32 (l_start l));
  modify (upd_buf buf (fun r => set_b_data (wr 4 0 (l_n l) (b_data r)) r));;
  for_logged (fun i =>
    sec ← get_sector i;
    modify (upd_buf buf (fun r => set_b_data (wr 4 (4 + 4 * Z.to_nat i) sec (b_data r)) r)));;
  bwrite buf;;
  brelse buf.

Definition recover_from_log : K unit :=
  read_head;;
  install_trans;;
  modify (upd_log (set_l_n 0));;
  write_head.

Definition initlog : K unit :=
  if BSIZE <=? LOGHEADER_SIZE then panic "initlog: too big logheader"
  else
    sb ← readsb ROOTDEV;
    modify (upd_log (set_l_start (s32 (sb_size sb - sb_nlog sb))));;
    modify (upd_log (set_l_size (s32 (sb_nlog sb))));;
    modify (upd_log (set_l_dev ROOTDEV));;
    recover_from_log.

(** The start of a file system call: wait for a commit in progress and for
    room in the log. *)
Definition begin_op : K unit :=
  acquire LkLog;;
  loop (S wake_fuel) (fun _ : unit =>
    l ← gets k_log;
    if l_committing l then
      sleep ChLog LkLog;; mret (inl tt)
    else if LOGSIZE <? l_n l + (l_outstanding l + 1) * MAXOPBLOCKS then
      sleep ChLog LkLog;; mret (inl tt)
    else
      modify (upd_log (set_l_outstanding (l_outstanding l + 1)));;
      release LkLog;;
      mret (inr tt)) tt.

(** Copy modified blocks from the cache to the log. *)
Definition write_log_body (tail : Z) : K unit :=
  l ← gets k_log;
  to ← bread (l_dev l) (u32 (l_start l + tail + 1));
  sec ← get_sector tail;
  l ← gets k_log;
  from ← bread (l_dev l) (u32 sec);
  copy_data to from;;
  bwrite to;;
  brelse from;;
  brelse to.

Definition write_log : K unit := for_logged write_log_body.

Definition commit : K unit :=
  l ← gets k_log;
  if 0 <? l_n l then
    write_log;;
    write_head;;
    install_trans;;
    modify (upd_log (set_l_n 0));;
    write_head
  else mret tt.

(** The end of a file system call: the last one outstanding commits. *)
Definition end_op : K unit :=
  acquire LkLog;;
  modify (upd_log (fun l => set_l_outstanding (l_outstanding l - 1) l));;
  l ← gets k_log;
  if l_committing l then panic "log.committing"
  else
    do_commit ←
      (if l_outstanding l =? 0 then
         modify (upd_log (set_l_committing true));;
         mret true
       else
         wakeup ChLog;;
         mret false);
    release LkLog;;
    when do_commit
      (commit;;
       acquire LkLog;;
       modify (upd_log (set_l_committing false));;
       wakeup ChLog;;
       release LkLog).

End Log.

(** [log_write]: record the sector in the header, once, and pin the buffer. *)
Definition log_write (b : nat) : K unit :=
  l ← gets k_log;
  if (LOGSIZE <=? l_n l) || (l_size l - 1 <=? l_n l) then panic "too big a transaction"
  else if l_outstanding l <? 1 then panic "log_write outside of trans"
  else
    acquire LkLog;;
    l ← gets k_log;
    r ← getbuf b;
    i ← loop (S (Z.to_nat LOGSIZE)) (fun i =>
          if i <? l_n l then
            x ← get_sector i;
            if u32 x =? b_sector r then mret (inr i) else mret (inl (i + 1))
          else mret (inr i)) 0;
    put_sector i (s32 (b_sector r));;
    when (i =? l_n l) (modify (upd_log (set_l_n (l_n l + 1))));;
    modify (upd_buf b (fun r => set_b_flags (set_flag (b_flags r) B_DIRTY) r));;
    release LkLog.
