(* ===== verification/Crash.v ===== *)
(** * Crashes and recovery, on sequences of sector writes

    A crash cuts the sequence of sector writes the kernel has issued at some
    point.  This file reasons about such prefixes on abstract disks, functions
    from sector numbers to contents: what the header of the log makes recovery
    do ([replay]), and which prefixes leave the same contents behind. *)

From S2P Require Import Prelude Monad State Sched Bio BioSpec Layout Log.

Definition vwrites (w : list (Z * list Z)) (V : Z -> list Z) : Z -> list Z :=
  foldl (fun V e => <[e.1 := e.2]> V) V w.

Definition dwrites (w : list (Z * list Z)) (d : disk) : disk :=
  foldl (fun d e => disk_write e.1 e.2 d) d w.

(** The writes recovery issues for the log that starts at sector [start]: the
    logged blocks, to the home sectors the header names. *)
Definition install_writes (start : Z) (B : Z -> list Z) : list (Z * list Z) :=
  map (fun i : nat => (u32 (head_sector i (B start)), B (start + Z.of_nat i + 1)))
      (seq 0 (Z.to_nat (head_n (B start)))).

(** The contents of the disk once the log is installed. *)
Definition replay (start : Z) (B : Z -> list Z) : Z -> list Z :=
  vwrites (install_writes start B) B.

(** A header that names only home sectors, none of them the superblock, and
    fits the log area. *)
Record head_wf (start size : Z) (data : list Z) : Prop := {
  hw_n : 0 <= head_n data <= LOGSIZE;
  hw_size : head_n data < size;
  hw_sector : forall i, (i < Z.to_nat (head_n data))%nat ->
    2 <= head_sector i data < start;
}.

(** ** Prefixes of write sequences *)

Lemma vwrites_app w1 w2 V : vwrites (w1 ++ w2) V = vwrites w2 (vwrites w1 V).
Proof. apply foldl_app. Qed.

Lemma dwrites_app w1 w2 d : dwrites (w1 ++ w2) d = dwrites w2 (dwrites w1 d).
Proof. apply foldl_app. Qed.

Lemma dwrites_trace w d : dk_trace (dwrites w d) = dk_trace d ++ w.
Proof.
  revert d. induction w as [|[n x] w IH]; intros d; simpl; [by rewrite app_nil_r|].
  rewrite IH. simpl. by rewrite <- app_assoc.
Qed.

Lemma dwrites_size w d : dk_size (dwrites w d) = dk_size d.
Proof. revert d. induction w as [|[n x] w IH]; intros d; simpl; [done|]. by rewrite IH. Qed.

Lemma vwrites_ext w V V' n : V n = V' n -> vwrites w V n = vwrites w V' n.
Proof.
  revert V V'. induction w as [|[m x] w IH]; intros V V' E; simpl; [done|].
  apply IH. destruct (decide (m = n)) as [->|Hne].
  - by rewrite !fn_lookup_insert.
  - by rewrite !fn_lookup_insert_ne.
Qed.

Lemma blk_dwrites w d n : blk (dwrites w d) n = vwrites w (blk d) n.
Proof.
  revert d. induction w as [|[m x] w IH]; intros d; simpl; [done|].
  rewrite IH. apply vwrites_ext. rewrite blk_write. simpl.
  case_decide; subst; by rewrite ?fn_lookup_insert, ?fn_lookup_insert_ne.
Qed.

Lemma vwrites_notin w V n : n ∉ w.*1 -> vwrites w V n = V n.
Proof.
  revert V. induction w as [|[m x] w IH]; intros V Hn; simpl in *; [done|].
  rewrite IH by set_solver. rewrite fn_lookup_insert_ne; [done|]. set_solver.
Qed.

(** A sector that is written loses its former contents. *)
Lemma vwrites_in w V V' n : n ∈ w.*1 -> vwrites w V n = vwrites w V' n.
Proof.
  revert V V'. induction w as [|[m x] w IH]; intros V V' Hn; simpl in *; [set_solver|].
  destruct (decide (n ∈ w.*1)); [by apply IH|]. apply vwrites_ext.
  assert (n = m) as -> by set_solver. by rewrite !fn_lookup_insert.
Qed.

(** Writing a sequence again after one of its prefixes is writing it once. *)
Lemma vwrites_again w k V n : vwrites w (vwrites (take k w) V) n = vwrites w V n.
Proof.
  destruct (decide (n ∈ w.*1)) as [Hn|Hn]; [by apply vwrites_in|].
  apply vwrites_ext, vwrites_notin. intros H. apply Hn. rewrite <- (take_drop k w).
  rewrite fmap_app. set_solver.
Qed.

Lemma vwrites_length w V m :
  (forall n, length (V n) = m) -> Forall (fun e => length e.2 = m) w ->
  forall n, length (vwrites w V n) = m.
Proof.
  intros HV Hw. revert V HV. induction Hw as [|[k x] w Hx Hw IH]; intros V HV n; simpl; [done|].
  apply IH. intros n'. destruct (decide (k = n')) as [->|Hne].
  - by rewrite fn_lookup_insert.
  - by rewrite fn_lookup_insert_ne.
Qed.

(** Writes whose sectors are all different store what they say. *)
Lemma vwrites_map {I} (f : I -> Z) (g : I -> list Z) (l : list I) V i :
  NoDup (f <$> l) -> i ∈ l -> vwrites (map (fun i => (f i, g i)) l) V (f i) = g i.
Proof.
  revert V. induction l as [|j l IH]; intros V Hnd Hi; [set_solver|].
  rewrite fmap_cons, NoDup_cons in Hnd. destruct Hnd as [Hj Hnd]. simpl.
  apply elem_of_cons in Hi as [->|Hi]; [|by apply IH].
  rewrite vwrites_notin; [by rewrite fn_lookup_insert|].
  change (map (fun i => (f i, g i)) l) with ((fun i => (f i, g i)) <$> l).
  by rewrite <- list_fmap_compose.
Qed.

Lemma map_fst {I} (f : I -> Z) (g : I -> list Z) (l : list I) :
  (map (fun i => (f i, g i)) l).*1 = f <$> l.
Proof.
  change (map (fun i => (f i, g i)) l) with ((fun i => (f i, g i)) <$> l).
  by rewrite <- list_fmap_compose.
Qed.

Lemma take_map_seq {A} (f : nat -> A) k n :
  take k (map f (seq 0 n)) = map f (seq 0 (k `min` n)).
Proof.
  change (@map nat A) with (@fmap list _ nat A). by rewrite <- fmap_take, take_seq.
Qed.

(** ** Recovery is idempotent *)

Section Replay.
Context (start size : Z).
Implicit Types (B : Z -> list Z).

(** Install writes do not touch the log area nor the superblock. *)
Lemma install_writes_home B n :
  head_wf start size (B start) -> start < 2147483648 ->
  n ∈ (install_writes start B).*1 -> 2 <= n < start.
Proof.
  intros Hw Hs Hn. unfold install_writes in Hn. rewrite map_fst in Hn.
  apply list_elem_of_fmap in Hn as (i & -> & Hi). apply elem_of_seq in Hi.
  pose proof (hw_sector _ _ _ Hw i ltac:(lia)). rewrite u32_id; lia.
Qed.

(** What recovery does depends only on the log area. *)
Lemma install_writes_ext B B' :
  (forall n, start <= n -> B n = B' n) -> install_writes start B = install_writes start B'.
Proof.
  intros E. unfold install_writes. rewrite <- (E start) by lia.
  apply map_ext_in. intros i _. f_equal. apply E. lia.
Qed.

Lemma replay_prefix B k n :
  head_wf start size (B start) -> start < 2147483648 ->
  replay start (vwrites (take k (install_writes start B)) B) n = replay start B n.
Proof.
  intros Hw Hs. unfold replay.
  rewrite (install_writes_ext (vwrites (take k (install_writes start B)) B) B);
    [apply vwrites_again|].
  intros m Hm. apply vwrites_notin. intros Hin.
  assert (m ∈ (install_writes start B).*1) as Hin'.
  { rewrite <- (take_drop k (install_writes start B)), fmap_app. set_solver. }
  apply install_writes_home in Hin'; [lia|done|done].
Qed.

(** With an empty header there is nothing to replay. *)
Lemma replay_clear B n : head_n (B start) <= 0 -> replay start B n = B n.
Proof.
  intros Hn. unfold replay, install_writes. by replace (Z.to_nat (head_n (B start))) with 0%nat by lia.
Qed.

(** Once the log is installed its header can be cleared. *)
Lemma replay_cleared B h n :
  head_n h = 0 -> n < start ->
  replay start (<[start := h]> (vwrites (install_writes start B) B)) n = replay start B n.
Proof.
  intros Hh Hn. rewrite replay_clear by (rewrite fn_lookup_insert; lia).
  by rewrite fn_lookup_insert_ne by lia.
Qed.
End Replay.
