(* ===== verification/LogSpec.v ===== *)
(** * The log writes transactions to disk all or nothing

    The effect of every operation of [log.c] on the cache and the disk, the
    crash safety of [commit] and of recovery, and the room the log leaves to
    file system calls. *)

From S2P Require Import Prelude Monad State Sched Bio BioSpec Layout Log Crash.

(** ** The geometry of the log

    The log occupies the last [size] sectors of the disk, from [start]. *)

Record geom (start size : Z) (d : disk) : Prop := {
  g_start : 2 <= start;
  g_size : 1 <= size;
  g_end : start + size <= dk_size d;
  g_disk : dk_size d < 2147483648;
}.

(** The in-memory header names home sectors only, and the log area has room
    for their blocks. *)
Record log_wf (start size : Z) (l : log) : Prop := {
  lw_dev : l_dev l = 1;
  lw_start : l_start l = start;
  lw_size : l_size l = size;
  lw_n : 0 <= l_n l <= LOGSIZE;
  lw_room : l_n l < size;
  lw_len : length (l_sector l) = Z.to_nat LOGSIZE;
  lw_home : forall i, (i < Z.to_nat (l_n l))%nat -> 2 <= l_sector l !!! i < start;
}.

(** The sectors of the current transaction. *)
Definition txn (l : log) : list Z := take (Z.to_nat (l_n l)) (l_sector l).
Definition logged (l : log) : gset Z := list_to_set (txn l).

(** The writes of [write_log] and of [install_trans]. *)
Definition log_writes (l : log) (V : Z -> list Z) (k : nat) : list (Z * list Z) :=
  map (fun i : nat => (l_start l + Z.of_nat i + 1, V (l_sector l !!! i))) (seq 0 k).
Definition home_writes (l : log) (V : Z -> list Z) (k : nat) : list (Z * list Z) :=
  map (fun i : nat => (l_sector l !!! i, V (l_start l + Z.of_nat i + 1))) (seq 0 k).

(** The header block as [write_head] leaves it. *)
Definition put_sectors (k : nat) (secs data : list Z) : list Z :=
  foldl (fun data i => wr 4 (4 + 4 * i) (secs !!! i) data) data (seq 0 k).
Definition put_head (n : Z) (secs data : list Z) : list Z :=
  put_sectors (Z.to_nat n) secs (wr 4 0 n data).

Lemma LOGSIZE_eq : LOGSIZE = 30.
Proof. done. Qed.
Lemma BSIZE_eq : BSIZE = 512.
Proof. done. Qed.

(** ** The header block *)

Lemma put_sectors_S k secs data :
  put_sectors (S k) secs data = wr 4 (4 + 4 * k) (secs !!! k) (put_sectors k secs data).
Proof. unfold put_sectors. by rewrite seq_S, foldl_app. Qed.

Lemma length_put_sectors k secs data :
  (4 + 4 * k <= length data)%nat -> length (put_sectors k secs data) = length data.
Proof.
  induction k as [|k IH]; intros Hl; [done|].
  rewrite put_sectors_S, length_wr; rewrite IH; lia.
Qed.

Lemma put_sectors_n k secs data :
  (4 + 4 * k <= length data)%nat -> rd 4 0 (put_sectors k secs data) = rd 4 0 data.
Proof.
  induction k as [|k IH]; intros Hl; [done|].
  rewrite put_sectors_S, rd_wr_other by (rewrite ?length_put_sectors; lia).
  apply IH. lia.
Qed.

Lemma put_sectors_sector k secs data i :
  (4 + 4 * k <= length data)%nat -> (i < k)%nat ->
  rd 4 (4 + 4 * i) (put_sectors k secs data) = u32 (secs !!! i).
Proof.
  induction k as [|k IH]; intros Hl Hi; [lia|].
  rewrite put_sectors_S. destruct (decide (i = k)) as [->|Hne].
  - rewrite rd_wr_same by (rewrite ?length_put_sectors; lia). done.
  - rewrite rd_wr_other by (rewrite ?length_put_sectors; lia). apply IH; lia.
Qed.

Section Head.
Context (n : Z) (secs data : list Z).
Hypothesis Hn : 0 <= n <= LOGSIZE.
Hypothesis Hd : length data = Z.to_nat BSIZE.

#[local] Lemma put_head_fits : (4 + 4 * Z.to_nat n <= length (wr 4 0 n data))%nat.
Proof. rewrite LOGSIZE_eq, BSIZE_eq in *. rewrite length_wr; lia. Qed.

Lemma length_put_head : length (put_head n secs data) = Z.to_nat BSIZE.
Proof.
  unfold put_head. rewrite length_put_sectors by apply put_head_fits.
  rewrite length_wr; rewrite LOGSIZE_eq, BSIZE_eq in *; lia.
Qed.

Lemma put_head_n : head_n (put_head n secs data) = n.
Proof.
  unfold head_n, put_head. rewrite put_sectors_n by apply put_head_fits.
  rewrite rd_wr_same by (rewrite BSIZE_eq in *; lia). rewrite LOGSIZE_eq in *.
  change (s32 (u32 n) = n). rewrite s32_u32, s32_id; lia.
Qed.

Lemma put_head_sector i :
  (i < Z.to_nat n)%nat -> 0 <= secs !!! i < 2147483648 ->
  head_sector i (put_head n secs data) = secs !!! i.
Proof.
  intros Hi Hr. unfold head_sector, put_head.
  rewrite put_sectors_sector by (done || apply put_head_fits).
  rewrite s32_u32, s32_id; lia.
Qed.
End Head.

(** ** Loops over the header *)

Lemma wp_for_logged (body : Z -> K unit) (P : Z -> kstate -> Prop) n s :
  0 <= n <= LOGSIZE -> (forall t s, P t s -> l_n (k_log s) = n) -> P 0 s ->
  (forall t s, 0 <= t < n -> P t s -> wp (body t) (fun _ s' => P (t + 1) s') s) ->
  wp (for_logged body) (fun _ s' => P n s') s.
Proof.
  intros Hn HP H0 Hb. unfold for_logged.
  assert (forall fuel t s, 0 <= t <= n -> (Z.to_nat (n - t) < fuel)%nat -> P t s ->
    wp (loop fuel (fun tail =>
      l ← gets k_log;
      if tail <? l_n l then body tail;; mret (inl (tail + 1)) else mret (inr tt)) t)
      (fun _ s' => P n s') s) as Hloop.
  { clear s H0. induction fuel as [|fuel IH]; intros t s Ht Hf Hs; [lia|].
    cbn [loop]. apply wp_bind. wstep. rewrite (HP _ _ Hs).
    destruct (Z.ltb_spec t n).
    - apply wp_bind. eapply wp_mono; [apply Hb; [lia|done]|]. intros [] s' Hs'. cbv beta.
      apply wp_ret. apply IH; [lia|lia|done].
    - do 2 apply wp_ret. by replace n with t by lia. }
  apply Hloop; [lia| |done]. rewrite LOGSIZE_eq in *. lia.
Qed.

Lemma in_header_true i : 0 <= i < LOGSIZE -> in_header i = true.
Proof. intros. unfold in_header. apply andb_true_iff. rewrite Z.leb_le, Z.ltb_lt. lia. Qed.

Lemma wp_get_sector i (Q : Z -> kstate -> Prop) s :
  0 <= i < LOGSIZE -> Q (l_sector (k_log s) !!! Z.to_nat i) s -> wp (get_sector i) Q s.
Proof. intros Hi HQ. unfold get_sector. wstep. rewrite in_header_true by done. by wstep. Qed.

Lemma wp_put_sector i x (Q : unit -> kstate -> Prop) s :
  0 <= i < LOGSIZE ->
  Q tt (upd_log (fun l => set_l_sector (<[Z.to_nat i := x]> (l_sector l)) l) s) ->
  wp (put_sector i x) Q s.
Proof. intros Hi HQ. unfold put_sector. rewrite in_header_true by done. by wstep. Qed.

(** ** Copying blocks through the cache *)

Section Ops.
Context {WF : WakeFuel}.
Implicit Types (V : Z -> list Z) (D : gset Z).

Lemma wp_copy_data s V H D q p x y :
  bio s V H D -> H !! p = Some x -> H !! q = Some y ->
  wp (copy_data q p) (fun _ s' => bio_frame s s' /\ bio s' (<[y := V x]> V) H D /\
    k_disk s' = k_disk s) s.
Proof.
  intros HB Hp Hq. unfold copy_data. wstep. wstep.
  destruct (bio_inv_held _ _ _ _ _ _ _ (proj1 HB) Hp) as (_ & _ & _ & _ & _ & <-).
  apply (bio_assign s V H D q y (fun _ => V x)); [done|done|].
  apply (bi_vlen _ _ _ _ _ (proj1 HB)).
Qed.

Lemma singleton_other (b : nat) (x y : Z) :
  x <> y -> forall i, ({[b := y]} : gmap nat Z) !! i <> Some x.
Proof.
  intros Hne i. destruct (decide (i = b)) as [->|].
  - rewrite lookup_singleton_eq. congruence.
  - by rewrite lookup_singleton_ne.
Qed.

(** The copy at the end of the loop bodies of [write_log] and
    [install_trans]. *)
Lemma wp_copy_out s V H D q p x y :
  bio s V H D -> H !! p = Some x -> H !! q = Some y -> delete q (delete p H) = ∅ ->
  x <> y -> y < dk_size (k_disk s) -> (x ∈ D) \/ V x = blk (k_disk s) x ->
  wp (copy_data q p;; bwrite q;; brelse p;; brelse q)
    (fun _ s' => bio_frame s s' /\ bio s' (<[y := V x]> V) ∅ (D ∖ {[y]}) /\
       k_disk s' = disk_write y (V x) (k_disk s)) s.
Proof.
  intros HB Hp Hq HH Hxy Hy Hx. assert (p <> q) by congruence.
  wapply wp_copy_data; [done..|]. intros [] s1 (F1 & B1 & E1).
  wapply wp_bwrite; [done..| |]; [by rewrite E1|]. intros [] s2 (F2 & B2 & E2).
  rewrite fn_lookup_insert, E1 in E2.
  assert ((x ∈ D ∖ {[y]}) \/ <[y:=V x]> V x = blk (k_disk s2) x) as Hx2.
  { rewrite E2, blk_write, decide_False, fn_lookup_insert_ne by done.
    destruct Hx; [left; set_solver|by right]. }
  wapply (wp_brelse s2 _ _ _ p x); [done..|]. intros [] s3 (F3 & B3 & E3).
  wapply (wp_brelse s3 _ _ _ q y); [done|by rewrite lookup_delete_ne| |].
  { right. by rewrite E3, E2, blk_write, decide_True, fn_lookup_insert. }
  intros [] s4 (F4 & B4 & E4). rewrite HH in B4. split; [by do 3 (etrans; [done|])|].
  split; [done|]. congruence.
Qed.

(** One round of [write_log], from home sector [x] to log sector [y]. *)
Lemma wp_log_block s V D t y x :
  l_dev (k_log s) = 1 -> 0 <= t < LOGSIZE ->
  u32 (l_start (k_log s) + t + 1) = y -> u32 (l_sector (k_log s) !!! Z.to_nat t) = x ->
  bio s V ∅ D -> (size D < NBUF)%nat -> x ∈ D -> y ∉ D ->
  x < dk_size (k_disk s) -> y < dk_size (k_disk s) ->
  wp (write_log_body t)
    (fun _ s' => bio_frame s s' /\ bio s' (<[y := V x]> V) ∅ D /\
       k_disk s' = disk_write y (V x) (k_disk s)) s.
Proof.
  intros Hdev Ht Ey Ex HB Hsz Hx Hy Hxs Hys. assert (x <> y) by congruence.
  unfold write_log_body. wstep. rewrite Hdev, Ey.
  wapply wp_bread; [done..| |left; by rewrite map_size_empty|]; [done|].
  intros q s1 (F1 & B1 & N1 & _ & E1). rewrite insert_empty in B1.
  apply wp_bind, wp_get_sector; [done|]. wstep. rewrite (bio_frame_log _ _ F1), Hdev, Ex.
  wapply wp_bread; [done|by rewrite E1|by apply singleton_other|by right|].
  intros p s2 (F2 & B2 & N2 & _ & E2).
  assert (p <> q) by (intros ->; by rewrite lookup_singleton_eq in N2).
  wapply (wp_copy_out s2 V _ D q p x y); [done|by rewrite lookup_insert_eq| | |done| |by left|].
  - by rewrite lookup_insert_ne, lookup_singleton_eq.
  - rewrite delete_insert_id by done. apply delete_singleton_eq.
  - by rewrite E2, E1.
  - intros [] s3 (F3 & B3 & E3). rewrite difference_disjoint_L in B3 by set_solver.
    split; [by do 2 (etrans; [done|])|]. split; [done|]. by rewrite E3, E2, E1.
Qed.

(** One round of [install_trans], from log sector [y] to home sector [x]. *)
Lemma wp_install_block s V D t y x :
  l_dev (k_log s) = 1 -> 0 <= t < LOGSIZE ->
  u32 (l_start (k_log s) + t + 1) = y -> u32 (l_sector (k_log s) !!! Z.to_nat t) = x ->
  bio s V ∅ D -> (size D < NBUF)%nat -> (x ∈ D) \/ D = ∅ -> y ∉ D -> x <> y ->
  x < dk_size (k_disk s) -> y < dk_size (k_disk s) ->
  wp (install_body t)
    (fun _ s' => bio_frame s s' /\ bio s' (<[x := V y]> V) ∅ (D ∖ {[x]}) /\
       k_disk s' = disk_write x (V y) (k_disk s)) s.
Proof.
  intros Hdev Ht Ey Ex HB Hsz Hx Hy Hne Hxs Hys.
  assert (V y = blk (k_disk s) y) as HVy by (by eapply bio_off_disk).
  unfold install_body. wstep. rewrite Hdev, Ey.
  wapply wp_bread; [done..| |left; by rewrite map_size_empty|]; [done|].
  intros p s1 (F1 & B1 & N1 & _ & E1). rewrite insert_empty in B1.
  apply wp_bind, wp_get_sector; [done|]. wstep. rewrite (bio_frame_log _ _ F1), Hdev, Ex.
  wapply wp_bread; [done|by rewrite E1|by apply singleton_other| |].
  { destruct Hx as [Hx| ->]; [by right|left]. rewrite map_size_singleton, size_empty, NBUF_eq. lia. }
  intros q s2 (F2 & B2 & N2 & _ & E2).
  assert (q <> p) by (intros ->; by rewrite lookup_singleton_eq in N2).
  wapply (wp_copy_out s2 V _ D q p y x); [done| |by rewrite lookup_insert_eq| |done| | |].
  - by rewrite lookup_insert_ne, lookup_singleton_eq.
  - rewrite delete_insert_ne, delete_singleton_eq by done. by rewrite delete_insert_eq.
  - by rewrite E2, E1.
  - right. by rewrite E2, E1.
  - intros [] s3 (F3 & B3 & E3).
    split; [by do 2 (etrans; [done|])|]. split; [done|]. by rewrite E3, E2, E1.
Qed.

End Ops.

(** ** Reading and writing the header and the blocks *)

Section Blocks.
Context {WF : WakeFuel}.
Context (start size : Z).
Implicit Types (V : Z -> list Z) (D : gset Z) (l : log).

Lemma home_range d l i :
  geom start size d -> log_wf start size l -> (i < Z.to_nat (l_n l))%nat ->
  u32 (l_sector l !!! i) = l_sector l !!! i /\ l_sector l !!! i < dk_size d /\
  2 <= l_sector l !!! i < start.
Proof.
  intros [] W Hi. pose proof (lw_home _ _ _ W i Hi). split; [|lia]. apply u32_id. lia.
Qed.

Lemma log_range d l i :
  geom start size d -> log_wf start size l -> 0 <= i < l_n l ->
  u32 (l_start l + i + 1) = start + i + 1 /\ start + i + 1 < dk_size d.
Proof. intros [] [] Hi. subst. split; [apply u32_id|]; lia. Qed.

Lemma txn_lookup l i :
  log_wf start size l -> (i < Z.to_nat (l_n l))%nat -> txn l !! i = Some (l_sector l !!! i).
Proof.
  intros [] Hi. unfold txn. rewrite lookup_take_lt by done.
  apply list_lookup_lookup_total_lt. rewrite lw_len0, LOGSIZE_eq in *. lia.
Qed.

Lemma txn_map l :
  log_wf start size l -> txn l = (fun i => l_sector l !!! i) <$> seq 0 (Z.to_nat (l_n l)).
Proof.
  intros W. apply list_eq. intros i. rewrite list_lookup_fmap.
  destruct (decide (i < Z.to_nat (l_n l))%nat).
  - by rewrite txn_lookup, lookup_seq_lt by done.
  - rewrite (lookup_ge_None_2 (seq _ _)) by (rewrite length_seq; lia).
    apply lookup_ge_None_2. unfold txn. rewrite length_take. lia.
Qed.

Lemma logged_home l x : log_wf start size l -> x ∈ logged l -> 2 <= x < start.
Proof.
  intros W Hx. unfold logged in Hx. apply elem_of_list_to_set, list_elem_of_lookup in Hx as (i & Hi).
  pose proof (lookup_lt_Some _ _ _ Hi) as Hlt. unfold txn in Hlt. rewrite length_take in Hlt.
  rewrite txn_lookup in Hi by (done || lia). injection Hi as <-. apply (lw_home _ _ _ W). lia.
Qed.

Lemma logged_in l i :
  log_wf start size l -> (i < Z.to_nat (l_n l))%nat -> l_sector l !!! i ∈ logged l.
Proof.
  intros W Hi. apply elem_of_list_to_set, list_elem_of_lookup. eauto using txn_lookup.
Qed.

Lemma log_writes_S l V k :
  log_writes l V (S k) = log_writes l V k ++ [(l_start l + Z.of_nat k + 1, V (l_sector l !!! k))].
Proof. unfold log_writes. by rewrite seq_S, map_app. Qed.

Lemma home_writes_S l V k :
  home_writes l V (S k) = home_writes l V k ++ [(l_sector l !!! k, V (l_start l + Z.of_nat k + 1))].
Proof. unfold home_writes. by rewrite seq_S, map_app. Qed.

(** Log blocks are written above the home sectors, and the other way round. *)
Lemma log_writes_above l V k n : n ∈ (log_writes l V k).*1 -> l_start l < n.
Proof.
  unfold log_writes. rewrite map_fst. intros (i & -> & Hi)%list_elem_of_fmap.
  apply elem_of_seq in Hi. lia.
Qed.

Lemma home_writes_below l V k n :
  log_wf start size l -> (k <= Z.to_nat (l_n l))%nat ->
  n ∈ (home_writes l V k).*1 -> 2 <= n < start.
Proof.
  unfold home_writes. rewrite map_fst. intros W Hk (i & -> & Hi)%list_elem_of_fmap.
  apply elem_of_seq in Hi. apply (lw_home _ _ _ W). lia.
Qed.

Lemma wp_write_log s V :
  let l := k_log s in
  bio s V ∅ (logged l) -> geom start size (k_disk s) -> log_wf start size l ->
  (base.size (logged l) < NBUF)%nat ->
  let W := log_writes l V (Z.to_nat (l_n l)) in
  wp write_log (fun _ s' => bio_frame s s' /\ bio s' (vwrites W V) ∅ (logged l) /\
    k_disk s' = dwrites W (k_disk s)) s.
Proof.
  intros l HB G W Hsz Wl. unfold write_log.
  set (P t s' := bio_frame s s' /\
         bio s' (vwrites (log_writes l V (Z.to_nat t)) V) ∅ (logged l) /\
         k_disk s' = dwrites (log_writes l V (Z.to_nat t)) (k_disk s)).
  apply (wp_for_logged _ P).
  - apply (lw_n _ _ _ W).
  - intros t s' (F & _). by rewrite (bio_frame_log _ _ F).
  - split; [done|]. split; done.
  - intros t s' Ht (F & B & E).
    destruct (log_range _ _ _ G W Ht) as [Hy Hy2].
    destruct (home_range _ _ (Z.to_nat t) G W ltac:(lia)) as (Hx & Hx2 & Hx3).
    pose proof (lw_n _ _ _ W). pose proof (lw_start _ _ _ W).
    pose proof (bio_frame_log _ _ F) as Fl. pose proof (bf_size _ _ F) as Fs.
    eapply wp_mono; [eapply wp_log_block; try done; rewrite ?Fl, ?Fs; fold l|].
    + apply (lw_dev _ _ _ W).
    + lia.
    + by rewrite Hx; apply logged_in; [|lia].
    + rewrite Hy. intros Hin%(logged_home _ _ W). lia.
    + by rewrite Hx.
    + by rewrite Hy.
    + intros [] s2 (F2 & B2 & E2). rewrite Fl in *. fold l in B2, E2.
      rewrite Hx, Hy in *. unfold P.
      replace (Z.to_nat (t + 1)) with (S (Z.to_nat t)) by lia.
      rewrite log_writes_S, vwrites_app, dwrites_app, <- E.
      rewrite vwrites_notin in B2, E2 by (intros Hin%log_writes_above; lia).
      rewrite Z2Nat.id, (lw_start _ _ _ W) by lia. split; [by etrans|]. by split.
Qed.

(** The sectors not installed yet are still pinned. *)
Lemma install_pinned l D i :
  log_wf start size l -> (D = logged l /\ NoDup (txn l)) \/ D = ∅ ->
  (i < Z.to_nat (l_n l))%nat ->
  let D' := D ∖ list_to_set (take i (txn l)) in (l_sector l !!! i ∈ D') \/ D' = ∅.
Proof.
  intros W HD Hi D'. unfold D'.
  destruct HD as [[-> Hnd]| ->]; [left|right; set_solver].
  apply elem_of_difference. split; [by apply logged_in|].
  intros (j & Hj)%elem_of_list_to_set%list_elem_of_lookup.
  pose proof (lookup_lt_Some _ _ _ Hj) as Hlt. rewrite length_take in Hlt.
  rewrite lookup_take_lt in Hj by lia.
  pose proof (NoDup_lookup _ _ _ _ Hnd Hj (txn_lookup l i W Hi)). lia.
Qed.

Lemma wp_install_trans s V D :
  let l := k_log s in
  bio s V ∅ D -> geom start size (k_disk s) -> log_wf start size l ->
  (base.size D < NBUF)%nat -> (D = logged l /\ NoDup (txn l)) \/ D = ∅ ->
  let W := home_writes l V (Z.to_nat (l_n l)) in
  wp install_trans (fun _ s' => bio_frame s s' /\ bio s' (vwrites W V) ∅ ∅ /\
    k_disk s' = dwrites W (k_disk s)) s.
Proof.
  intros l HB G W Hsz HD Wl. unfold install_trans.
  set (P t s' := bio_frame s s' /\
         bio s' (vwrites (home_writes l V (Z.to_nat t)) V) ∅
             (D ∖ list_to_set (take (Z.to_nat t) (txn l))) /\
         k_disk s' = dwrites (home_writes l V (Z.to_nat t)) (k_disk s)).
  eapply wp_mono; [apply (wp_for_logged _ P (l_n l))|].
  - apply (lw_n _ _ _ W).
  - intros t s' (F & _). by rewrite (bio_frame_log _ _ F).
  - split; [done|]. split; [|done].
    by replace (D ∖ list_to_set (take (Z.to_nat 0) (txn l))) with D by (simpl; set_solver).
  - intros t s' Ht (F & B & E).
    destruct (log_range _ _ _ G W Ht) as [Hy Hy2].
    destruct (home_range _ _ (Z.to_nat t) G W ltac:(lia)) as (Hx & Hx2 & Hx3).
    pose proof (lw_n _ _ _ W). pose proof (lw_start _ _ _ W).
    pose proof (bio_frame_log _ _ F) as Fl. pose proof (bf_size _ _ F) as Fs.
    pose proof (txn_lookup l (Z.to_nat t) W ltac:(lia)) as Hlk.
    eapply wp_mono; [eapply wp_install_block; try done; rewrite ?Fl, ?Fs; fold l|].
    + apply (lw_dev _ _ _ W).
    + lia.
    + eapply Nat.le_lt_trans; [|exact Hsz]. apply subseteq_size. set_solver.
    + rewrite Hx. apply install_pinned; [done|done|lia].
    + rewrite Hy. intros [Hin _]%elem_of_difference. destruct HD as [[-> _]| ->].
      * apply (logged_home _ _ W) in Hin. lia.
      * set_solver.
    + lia.
    + by rewrite Hx.
    + by rewrite Hy.
    + intros [] s2 (F2 & B2 & E2). rewrite Fl in *. fold l in B2, E2.
      rewrite Hx, Hy in *. unfold P.
      replace (Z.to_nat (t + 1)) with (S (Z.to_nat t)) by lia.
      rewrite home_writes_S, vwrites_app, dwrites_app, <- E.
      rewrite vwrites_notin in B2, E2 by (intros Hin%home_writes_below; [lia|done|lia]).
      rewrite Z2Nat.id, (lw_start _ _ _ W) by lia.
      rewrite (take_S_r _ _ _ Hlk), list_to_set_snoc_L.
      rewrite <- difference_difference_l_L. split; [by etrans|]. by split.
  - intros [] s' (F & B & E). split; [done|]. split; [|done].
    replace (take (Z.to_nat (l_n l)) (txn l)) with (txn l) in B.
    2: { unfold txn. by rewrite take_take, Nat.min_id. }
    replace (D ∖ list_to_set (txn l)) with (∅ : gset Z) in B; [done|].
    clear -HD. unfold logged in HD. set_solver.
Qed.

Lemma insert_twice (V : Z -> list Z) n x y : forall m, <[n := y]> (<[n := x]> V) m = <[n := y]> V m.
Proof.
  intros m. destruct (decide (n = m)) as [->|Hne].
  - by rewrite !fn_lookup_insert.
  - by rewrite !fn_lookup_insert_ne.
Qed.

Lemma wp_write_head s V D :
  let l := k_log s in
  bio s V ∅ D -> geom start size (k_disk s) -> log_wf start size l ->
  (base.size D < NBUF)%nat -> start ∉ D ->
  let h := put_head (l_n l) (l_sector l) (V start) in
  wp write_head (fun _ s' => bio_frame s s' /\ bio s' (<[start := h]> V) ∅ D /\
    k_disk s' = disk_write start h (k_disk s)) s.
Proof.
  intros l HB G W Hsz HD h. unfold write_head. wstep. fold l.
  pose proof (lw_n _ _ _ W) as Hn. pose proof G as [].
  rewrite (lw_dev _ _ _ W), (lw_start _ _ _ W), u32_id by lia.
  pose proof (bi_vlen _ _ _ _ _ (proj1 HB) start) as Hv.
  wapply wp_bread; [done|lia|done|left; by rewrite map_size_empty|].
  intros b s1 (F1 & B1 & _ & _ & E1). rewrite insert_empty in B1.
  wstep.
  destruct (bio_assign s1 V {[b := start]} D b start (wr 4 0 (l_n l)) B1) as (F2 & B2 & E2).
  { by rewrite lookup_singleton_eq. }
  { rewrite length_wr; rewrite BSIZE_eq in *; lia. }
  match goal with |- wp _ _ ?s' => set (s2 := s') in * end.
  set (P t s' := bio_frame s s' /\
    bio s' (<[start := put_sectors (Z.to_nat t) (l_sector l) (wr 4 0 (l_n l) (V start))]> V)
      {[b := start]} D /\ k_disk s' = k_disk s).
  apply wp_bind. eapply wp_mono; [apply (wp_for_logged _ P (l_n l))|].
  - done.
  - intros t s' (F & _). by rewrite (bio_frame_log _ _ F).
  - split; [by etrans|]. split; [done|]. by rewrite E2.
  - intros t s3 Ht (F3 & B3 & E3). apply wp_bind, wp_get_sector; [lia|].
    rewrite (bio_frame_log _ _ F3). fold l. wstep.
    edestruct (bio_assign s3 _ _ D b start (wr 4 (4 + 4 * Z.to_nat t) (l_sector l !!! Z.to_nat t)) B3)
      as (F4 & B4 & E4).
    { by rewrite lookup_singleton_eq. }
    { rewrite fn_lookup_insert. rewrite BSIZE_eq, LOGSIZE_eq in *.
      rewrite length_wr; rewrite !length_put_sectors; rewrite length_wr; lia. }
    split; [by etrans|]. split; [|by rewrite E4].
    replace (Z.to_nat (t + 1)) with (S (Z.to_nat t)) by lia. rewrite put_sectors_S.
    rewrite fn_lookup_insert in B4. eapply bio_proper; [apply insert_twice|exact B4].
  - intros [] s3 (F3 & B3 & E3). cbv beta. fold (put_head (l_n l) (l_sector l) (V start)) in B3.
    fold h in B3.
    wapply wp_bwrite; [done|by rewrite lookup_singleton_eq|rewrite E3; lia|].
    intros [] s4 (F4 & B4 & E4). rewrite fn_lookup_insert, E3 in E4.
    rewrite difference_disjoint_L in B4 by set_solver.
    wapply (wp_brelse s4 _ _ _ b start); [done|by rewrite lookup_singleton_eq| |].
    { right. by rewrite E4, blk_write, decide_True, fn_lookup_insert. }
    intros [] s5 (F5 & B5 & E5). rewrite delete_singleton_eq in B5.
    split; [by do 2 (etrans; [done|])|]. split; [done|]. congruence.
Qed.

(** [read_head] fills in the in-memory header. *)
Definition header_of (data : list Z) (l l' : log) : Prop :=
  exists secs, l' = set_l_sector secs (set_l_n (head_n data) l) /\
    length secs = Z.to_nat LOGSIZE /\
    forall i, (i < Z.to_nat (head_n data))%nat -> secs !!! i = head_sector i data.

Lemma wp_read_head s V :
  bio s V ∅ ∅ -> geom start size (k_disk s) -> head_wf start size (V start) ->
  l_dev (k_log s) = 1 -> l_start (k_log s) = start ->
  length (l_sector (k_log s)) = Z.to_nat LOGSIZE ->
  wp read_head (fun _ s' => bio_frame (set_k_log (k_log s') s) s' /\ bio s' V ∅ ∅ /\
    k_disk s' = k_disk s /\ header_of (V start) (k_log s) (k_log s')) s.
Proof.
  intros HB G Hw Hdev Hst Hlen. unfold read_head. wstep. pose proof G as [].
  rewrite Hdev, Hst, u32_id by lia.
  wapply wp_bread; [done|lia|done|left; rewrite map_size_empty, size_empty, NBUF_eq; lia|].
  intros b s1 (F1 & B1 & _ & D1 & E1). rewrite insert_empty in B1. wstep. wstep.
  set (P t s' := bio_frame (set_k_log (k_log s') s) s' /\ bio s' V {[b := start]} ∅ /\
    k_disk s' = k_disk s /\
    exists secs, k_log s' = set_l_sector secs (set_l_n (head_n (V start)) (k_log s)) /\
      length secs = Z.to_nat LOGSIZE /\
      forall i, (i < Z.to_nat t)%nat -> secs !!! i = head_sector i (V start)).
  apply wp_bind. eapply wp_mono; [apply (wp_for_logged _ P (head_n (V start)))|].
  - apply (hw_n _ _ _ Hw).
  - intros t s' (_ & _ & _ & secs & -> & _). done.
  - split; [|split; [done|split; [done|]]].
    + destruct F1 as [F1 F1' F1'']. split; [|done|done]. rewrite F1. by destruct s.
    + exists (l_sector (k_log s)). split; [|split; [done|intros; lia]].
      simpl. rewrite D1, (bio_frame_log _ _ F1). by destruct (k_log s).
  - intros t s2 Ht (F2 & B2 & E2 & secs & L2 & N2 & S2). wstep.
    destruct (bio_inv_held _ _ _ _ _ b start (proj1 B2)) as (_ & _ & _ & _ & _ & HV).
    { by rewrite lookup_singleton_eq. }
    rewrite <- HV. pose proof (hw_n _ _ _ Hw). apply wp_put_sector; [lia|].
    split; [|split; [done|split; [done|]]].
    + destruct F2 as [F2 F2' F2'']. split; [|done|done]. rewrite F2. by destruct s2.
    + exists (<[Z.to_nat t := head_sector (Z.to_nat t) (V start)]> secs).
      simpl. rewrite L2. split; [done|]. rewrite length_insert. split; [done|].
      intros i Hi. destruct (decide (i = Z.to_nat t)) as [->|Hne].
      * rewrite list_lookup_total_insert_eq; [done|]. rewrite LOGSIZE_eq in *. lia.
      * rewrite list_lookup_total_insert_ne by done. apply S2. lia.
  - intros [] s2 (F2 & B2 & E2 & L2). cbv beta.
    wapply (wp_brelse s2 _ _ _ b start); [done|by rewrite lookup_singleton_eq| |].
    { right. rewrite E2. eapply bio_off_disk; [exact HB|done|set_solver]. }
    intros [] s3 (F3 & B3 & E3). rewrite delete_singleton_eq in B3.
    rewrite (bio_frame_log _ _ F3). split; [by etrans|]. split; [done|].
    split; [congruence|exact L2].
Qed.

End Blocks.

(** ** [commit] and recovery as sequences of sector writes *)

Definition lframe (s s' : kstate) : Prop := bio_frame (set_k_log (k_log s') s) s'.

Lemma lframe_bio s s' : bio_frame s s' -> lframe s s'.
Proof. intros F. unfold lframe. rewrite (bio_frame_log _ _ F). by destruct s. Qed.

#[export] Instance lframe_trans : Transitive lframe.
Proof.
  intros s1 s2 s3 [E1 W1 Z1] [E2 W2 Z2]. split; [|by etrans|simpl in *; congruence].
  rewrite E2 at 1. rewrite E1 at 1. by destruct s1.
Qed.

(** Updating the log structure concerns neither the cache nor the disk. *)
Lemma lframe_log f s : lframe s (upd_log f s).
Proof. by destruct s. Qed.

Definition commit_writes (l : log) (V : Z -> list Z) : list (Z * list Z) :=
  let n := Z.to_nat (l_n l) in
  let h := put_head (l_n l) (l_sector l) (V (l_start l)) in
  log_writes l V n ++ [(l_start l, h)] ++
  map (fun i : nat => (l_sector l !!! i, V (l_sector l !!! i))) (seq 0 n) ++
  [(l_start l, wr 4 0 0 h)].

Definition recover_writes (start : Z) (B : Z -> list Z) : list (Z * list Z) :=
  install_writes start B ++ [(start, wr 4 0 0 (B start))].

Section Commit.
Context {WF : WakeFuel}.
Context (start size : Z).
Implicit Types (V : Z -> list Z) (l : log).

Lemma log_wf_clear l : log_wf start size l -> log_wf start size (set_l_n 0 l).
Proof.
  intros []. split; simpl; auto.
  - rewrite LOGSIZE_eq. lia.
  - lia.
  - intros i Hi. lia.
Qed.

Lemma NoDup_offsets k n : NoDup ((fun i : nat => k + Z.of_nat i + 1) <$> seq 0 n).
Proof. apply NoDup_fmap; [intros i j; lia|apply NoDup_seq]. Qed.

(** After [write_log] and [write_head] the log holds the new blocks. *)
Lemma logged_blocks l V B h n i :
  (i < n)%nat ->
  (<[l_start l := h]> (vwrites (log_writes l V n) B)) (l_start l + Z.of_nat i + 1)
  = V (l_sector l !!! i).
Proof.
  intros Hi. rewrite fn_lookup_insert_ne by lia. unfold log_writes.
  apply (vwrites_map (fun i : nat => l_start l + Z.of_nat i + 1)); [apply NoDup_offsets|].
  apply elem_of_seq. lia.
Qed.

Lemma home_writes_logged l V h n :
  home_writes l (<[l_start l := h]> (vwrites (log_writes l V n) V)) n
  = map (fun i : nat => (l_sector l !!! i, V (l_sector l !!! i))) (seq 0 n).
Proof.
  unfold home_writes. apply map_ext_in. intros i Hi%in_seq.
  by rewrite logged_blocks by lia.
Qed.

Lemma logged_not_start l V :
  log_wf start size l ->
  start ∉ (map (fun i : nat => (l_sector l !!! i, V (l_sector l !!! i)))
             (seq 0 (Z.to_nat (l_n l)))).*1.
Proof.
  rewrite map_fst. intros W (i & E & Hi%elem_of_seq)%list_elem_of_fmap.
  pose proof (lw_home _ _ _ W i). lia.
Qed.

Lemma wp_commit s V :
  let l := k_log s in
  bio s V ∅ (logged l) -> geom start size (k_disk s) -> log_wf start size l ->
  NoDup (txn l) -> 0 < l_n l < Z.of_nat NBUF ->
  wp commit (fun _ s' => lframe s s' /\ k_log s' = set_l_n 0 l /\
    bio s' (vwrites (commit_writes l V) V) ∅ ∅ /\
    k_disk s' = dwrites (commit_writes l V) (k_disk s)) s.
Proof.
  intros l HB G W Hnd Hn. unfold commit. wstep. fold l.
  destruct (Z.ltb_spec 0 (l_n l)); [|lia].
  pose proof (lw_n _ _ _ W) as Hn'. pose proof (lw_start _ _ _ W) as Hst. rewrite LOGSIZE_eq in Hn'.
  assert (base.size (logged l) < NBUF)%nat as Hsz.
  { unfold logged. rewrite size_list_to_set by done. unfold txn. rewrite length_take. lia. }
  assert (start ∉ logged l) as Hsn by (intros Hin%(logged_home start size); [lia|done]).
  wapply (wp_write_log start size); [done..|]. intros [] s1 (F1 & B1 & E1). fold l in B1, E1.
  pose proof (bio_frame_log _ _ F1) as L1.
  assert (forall d', dk_size d' = dk_size (k_disk s) -> geom start size d') as HG.
  { intros d' Hd. destruct G. split; lia. }
  wapply (wp_write_head start size); [exact B1|by apply HG, F1|by rewrite L1|done|done|].
  intros [] s2 (F2 & B2 & E2). rewrite L1 in B2, E2. fold l in B2, E2.
  assert (bio_frame s s2) as F02 by (by etrans). pose proof (bio_frame_log _ _ F02) as L2.
  rewrite (vwrites_notin _ V start) in B2, E2 by (intros Hin%log_writes_above; lia).
  wapply (wp_install_trans start size); [done|by apply HG, F02|by rewrite L2|done| |].
  { left. by rewrite L2. }
  intros [] s3 (F3 & B3 & E3). rewrite L2 in B3, E3. fold l in B3, E3.
  rewrite <- Hst, home_writes_logged in B3, E3.
  assert (bio_frame s s3) as F03 by (by etrans). pose proof (bio_frame_log _ _ F03) as L3.
  wstep. wapply (wp_write_head start size (upd_log (set_l_n 0) s3)).
  { exact B3. } { by apply HG, F03. } { simpl. rewrite L3. by apply log_wf_clear. }
  { rewrite size_empty, NBUF_eq. lia. } { set_solver. }
  intros [] s4 (F4 & B4 & E4). simpl in B4, E4. rewrite L3 in B4, E4. fold l in B4, E4.
  rewrite (vwrites_notin _ _ start) in B4, E4 by (by eapply logged_not_start).
  rewrite <- Hst, fn_lookup_insert in B4, E4.
  split; [etrans; [by apply lframe_bio|]; etrans; [apply lframe_log|by apply lframe_bio]|].
  split; [rewrite (bio_frame_log _ _ F4); simpl; by rewrite L3|].
  unfold commit_writes. rewrite !vwrites_app, !dwrites_app. split; [exact B4|].
  by rewrite E4, E3, E2, E1, Hst.
Qed.

End Commit.

(** ** Recovery *)

Section Recover.
Context {WF : WakeFuel}.
Context (start size : Z).
Implicit Types (V : Z -> list Z) (l : log).

Lemma header_of_wf data l l' :
  head_wf start size data ->
  l_dev l = 1 -> l_start l = start -> l_size l = size ->
  header_of data l l' -> log_wf start size l'.
Proof.
  intros Hw Hd Hs Hz (secs & -> & Hl & Hi). destruct Hw as [Hn Hsz Hh].
  split; simpl; auto. intros i Hlt. rewrite Hi by done. by apply Hh.
Qed.

Lemma header_of_writes V l l' :
  head_wf start size (V start) -> start < 2147483648 -> l_start l = start ->
  header_of (V start) l l' ->
  home_writes l' V (Z.to_nat (l_n l')) = install_writes start V.
Proof.
  intros Hw Hs Hst (secs & -> & Hl & Hi). unfold home_writes, install_writes. simpl.
  apply map_ext_in. intros i [_ Hlt]%in_seq. rewrite Hi, Hst by done.
  rewrite u32_id; [done|]. pose proof (hw_sector _ _ _ Hw i). lia.
Qed.

Lemma wp_recover s V :
  let l := k_log s in
  bio s V ∅ ∅ -> geom start size (k_disk s) -> head_wf start size (V start) ->
  l_dev l = 1 -> l_start l = start -> l_size l = size ->
  length (l_sector l) = Z.to_nat LOGSIZE ->
  wp recover_from_log (fun _ s' => lframe s s' /\
    log_wf start size (k_log s') /\ l_n (k_log s') = 0 /\
    l_outstanding (k_log s') = l_outstanding l /\ l_committing (k_log s') = l_committing l /\
    bio s' (vwrites (recover_writes start V) V) ∅ ∅ /\
    k_disk s' = dwrites (recover_writes start V) (k_disk s)) s.
Proof.
  intros l HB G Hw Hdev Hst Hsz Hlen. unfold recover_from_log.
  pose proof G as [Gs Gz Ge Gd].
  assert (forall d', dk_size d' = dk_size (k_disk s) -> geom start size d') as HG.
  { intros d' Hd. destruct G. split; lia. }
  wapply (wp_read_head start size); [done..|]. intros [] s1 (F1 & B1 & E1 & L1). fold l in L1.
  assert (log_wf start size (k_log s1)) as W1 by (eapply header_of_wf; eauto).
  wapply (wp_install_trans start size); [done|by apply HG, F1|done| |by right|].
  { rewrite size_empty, NBUF_eq. lia. }
  intros [] s2 (F2 & B2 & E2). rewrite (header_of_writes V l) in B2, E2 by (done || lia).
  pose proof (bio_frame_log _ _ F2) as L2.
  assert (start ∉ (install_writes start V).*1) as Hns.
  { intros Hin%(install_writes_home start size); [lia|done|lia]. }
  wstep. wapply (wp_write_head start size (upd_log (set_l_n 0) s2)).
  { exact B2. } { apply HG. simpl. rewrite (bf_size _ _ F2). apply F1. }
  { simpl. rewrite L2. by apply log_wf_clear. }
  { rewrite size_empty, NBUF_eq. lia. } { set_solver. }
  intros [] s3 (F3 & B3 & E3). simpl in B3, E3. pose proof (bio_frame_log _ _ F3) as L3. simpl in L3.
  rewrite (vwrites_notin _ _ start) in B3, E3 by done.
  split.
  { etrans; [exact F1|]. etrans; [by apply lframe_bio|].
    etrans; [apply lframe_log|by apply lframe_bio]. }
  rewrite L3, L2. split; [by apply log_wf_clear|]. split; [done|].
  destruct L1 as (secs & -> & _). split; [done|]. split; [done|].
  unfold recover_writes. rewrite vwrites_app, dwrites_app. split; [exact B3|].
  by rewrite E3, E2, E1.
Qed.

End Recover.
