(* ===== verification/LogCrash.v ===== *)
(** * Crash safety of the log

    What a reboot makes of the disk after a crash at any point of a commit or
    of a recovery. *)

From S2P Require Import Prelude Monad State Sched Bio BioSpec Layout Log Crash LogSpec.

(** The machine after a reset: the disk [d] and a zeroed kernel. *)
Record fresh (d : disk) (s : kstate) : Prop := {
  fr_disk : k_disk s = d;
  fr_held : k_held s = [];
  fr_bufs : length (k_bufs s) = S NBUF;
  fr_flags : forall i, (i < NBUF)%nat -> b_flags (k_bufs s !!! i) = 0;
  fr_procs : (length (k_procs s) <= NPROC)%nat;
  fr_header : length (l_sector (k_log s)) = Z.to_nat LOGSIZE;
}.

(** The part of the boot sequence that brings the file system back. *)
Definition reboot {WF : WakeFuel} : K unit := binit;; initlog.

(** [crash_inv start size d R]: whatever happens, recovering [d] gives the
    contents [R] to the sectors below the log. *)
Record crash_inv (start size : Z) (d : disk) (R : Z -> list Z) : Prop := {
  ci_geom : geom start size d;
  ci_size : size <= LOGSIZE;
  ci_start : s32 (sb_size (dec_superblock (blk d 1)) - sb_nlog (dec_superblock (blk d 1))) = start;
  ci_nlog : s32 (sb_nlog (dec_superblock (blk d 1))) = size;
  ci_len : forall n, length (blk d n) = Z.to_nat BSIZE;
  ci_head : head_wf start size (blk d start);
  ci_replay : forall n, n < start -> replay start (blk d) n = R n;
}.

Section Crash.
Context {WF : WakeFuel}.
Context (start size : Z).
Implicit Types (d : disk) (R V B : Z -> list Z).

Lemma install_writes_ext_all B B' :
  (forall n, B n = B' n) -> install_writes start B = install_writes start B'.
Proof. intros E. apply install_writes_ext. auto. Qed.

Lemma replay_ext B B' n : (forall n, B n = B' n) -> replay start B n = replay start B' n.
Proof.
  intros E. unfold replay. rewrite (install_writes_ext_all _ _ E). by apply vwrites_ext.
Qed.

Lemma head_n_clear data : length data = Z.to_nat BSIZE -> head_n (wr 4 0 0 data) = 0.
Proof. intros Hd. apply (put_head_n 0 [] data); [rewrite LOGSIZE_eq; lia|done]. Qed.

Lemma head_wf_clear data : 1 <= size -> length data = Z.to_nat BSIZE ->
  head_wf start size (wr 4 0 0 data).
Proof.
  intros Hs Hd. pose proof (head_n_clear data Hd) as Hn.
  split; rewrite Hn; [rewrite LOGSIZE_eq; lia|lia|intros; lia].
Qed.

(** [crash_inv] of a disk reached by writes that spare the superblock. *)
Lemma crash_inv_writes d R R' w :
  crash_inv start size d R -> 1 ∉ w.*1 ->
  Forall (fun e => length e.2 = Z.to_nat BSIZE) w ->
  head_wf start size (vwrites w (blk d) start) ->
  (forall n, n < start -> replay start (vwrites w (blk d)) n = R' n) ->
  crash_inv start size (dwrites w d) R'.
Proof.
  intros [G Hz Hs Hn Hl Hw Hr] H1 Hwl Hh HR.
  assert (blk (dwrites w d) 1 = blk d 1) as E1 by (by rewrite blk_dwrites, vwrites_notin).
  split.
  - destruct G. split; rewrite ?dwrites_size; auto.
  - done.
  - by rewrite E1.
  - by rewrite E1.
  - intros n. rewrite blk_dwrites. by apply vwrites_length.
  - by rewrite blk_dwrites.
  - intros n Hlt. rewrite <- HR by done. apply replay_ext, blk_dwrites.
Qed.

Lemma take_app_cases {A} k (l : list A) x :
  take k (l ++ [x]) = take k l \/ take k (l ++ [x]) = l ++ [x].
Proof.
  destruct (decide (k <= length l)%nat).
  - left. by rewrite take_app_le.
  - right. apply take_ge. rewrite length_app. simpl. lia.
Qed.

Lemma install_writes_len B :
  (forall n, length (B n) = Z.to_nat BSIZE) ->
  Forall (fun e => length e.2 = Z.to_nat BSIZE) (install_writes start B).
Proof.
  intros HB. unfold install_writes. change (@map nat) with (@fmap list _ nat).
  apply Forall_fmap, Forall_forall. intros i _. apply HB.
Qed.

(** A crash at any point of a recovery is as if the recovery had not begun. *)
Lemma recover_prefix d R k :
  crash_inv start size d R ->
  crash_inv start size (dwrites (take k (recover_writes start (blk d))) d) R.
Proof.
  intros I. pose proof I as [G Hz Hs Hn Hl Hw Hr]. pose proof G as [].
  assert ((start ∉ (install_writes start (blk d)).*1) /\ (1 ∉ (install_writes start (blk d)).*1))
    as [Hns Hn1].
  { split; intros Hin%(install_writes_home start size); auto; lia. }
  pose proof (install_writes_len _ Hl) as Hil.
  unfold recover_writes. destruct (take_app_cases k (install_writes start (blk d))
    (start, wr 4 0 0 (blk d start))) as [-> | ->]; apply (crash_inv_writes _ R); auto.
  - intros Hin. apply Hn1. rewrite <- (take_drop k (install_writes start (blk d))), fmap_app.
    set_solver.
  - by apply Forall_take.
  - rewrite vwrites_notin; [done|]. intros Hin. apply Hns.
    rewrite <- (take_drop k (install_writes start (blk d))), fmap_app. set_solver.
  - intros n Hlt. rewrite (replay_prefix start size) by (done || lia). auto.
  - rewrite fmap_app. simpl. apply not_elem_of_app. split; [done|]. set_solver by lia.
  - apply Forall_app. split; [done|]. apply Forall_singleton. cbn [snd].
    rewrite length_wr; [done|]. rewrite Hl, BSIZE_eq. lia.
  - rewrite vwrites_app. simpl. rewrite fn_lookup_insert. by apply head_wf_clear.
  - intros n Hlt. rewrite vwrites_app. simpl. rewrite replay_cleared; [auto|by apply head_n_clear|done].
Qed.

(** Booting on a crashed disk recovers it. *)
Lemma wp_reboot d R s :
  crash_inv start size d R -> fresh d s ->
  wp reboot (fun _ s' => k_disk s' = dwrites (recover_writes start (blk d)) d /\
    (forall n, n < start -> blk (k_disk s') n = R n) /\
    bio s' (blk (k_disk s')) ∅ ∅ /\
    log_wf start size (k_log s') /\ l_n (k_log s') = 0 /\
    head_n (blk (k_disk s') start) = 0 /\ crash_inv start size (k_disk s') R /\
    l_outstanding (k_log s') = l_outstanding (k_log s) /\
    l_committing (k_log s') = l_committing (k_log s) /\ k_held s' = []) s.
Proof.
  intros I [Fd Fh Fb Ff Fp Fl]. pose proof I as [G Hz Hs Hn Hl Hw Hr]. pose proof G as [].
  destruct (binit_ok s Fb Ff) as (bs & HR & HI); [by rewrite Fd|].
  unfold reboot. apply wp_bind. exists tt, (set_k_bufs bs s). split; [done|].
  assert (bio (set_k_bufs bs s) (blk d) ∅ ∅) as B0.
  { rewrite <- Fd. split; [done|]. unfold locks_free. simpl. rewrite Fh.
    split_and!; [by apply not_elem_of_nil..|done]. }
  unfold initlog. change (BSIZE <=? LOGHEADER_SIZE) with false. cbv iota.
  wapply wp_readsb; [done|simpl; rewrite Fd; lia|done|
    rewrite map_size_empty, size_empty, NBUF_eq; simpl; lia|right; simpl; by rewrite Fd|].
  intros sb s1 (F1 & B1 & E1 & ->). do 3 wstep.
  pose proof (bio_frame_log _ _ F1) as L1.
  match goal with |- wp _ _ ?x => set (s2 := x) end.
  assert (k_disk s2 = d) as D2 by (unfold s2; simpl; rewrite E1; done).
  eapply wp_mono.
  - apply (wp_recover start size s2 (blk d)); [exact B1|by rewrite D2|done|done|done|done|].
    unfold s2. simpl. by rewrite L1.
  - intros [] s3 (F3 & W3 & N3 & O3 & C3 & B3 & E3). rewrite D2 in E3.
    simpl in O3, C3. rewrite L1 in O3, C3. simpl in O3, C3.
    assert (k_held s3 = []) as H3.
    { destruct F3 as [-> _ _]. simpl. rewrite (bio_frame_held _ _ F1). done. }
    assert (head_n (blk (k_disk s3) start) = 0) as Hh3.
    { rewrite E3, blk_dwrites. unfold recover_writes. rewrite vwrites_app. simpl.
      rewrite fn_lookup_insert. by apply head_n_clear. }
    assert (crash_inv start size (k_disk s3) R) as I3.
    { rewrite E3. rewrite <- (firstn_all (recover_writes start (blk d))).
      by apply recover_prefix. }
    split; [done|]. split.
    { intros n Hlt. rewrite E3, blk_dwrites. unfold recover_writes. rewrite vwrites_app. simpl.
      rewrite fn_lookup_insert_ne by lia. by apply Hr. }
    split; [|by split_and!].
    eapply bio_proper; [|exact B3]. intros n. rewrite E3. symmetry. apply blk_dwrites.
Qed.

End Crash.

(** ** Transactions *)

(** The state of the disk while file system calls run: [V] is the contents of
    the disk as the calls since the last commit have left it in the cache,
    [H] the buffers in use, [blk d] what a crash would bring back. *)
Record txn_inv (start size : Z) (s : kstate) (V : Z -> list Z) (H : gmap nat Z) : Prop := {
  ti_bio : bio s V H (logged (k_log s));
  ti_wf : log_wf start size (k_log s);
  ti_nodup : NoDup (txn (k_log s));
  ti_clear : head_n (blk (k_disk s) start) = 0;
  ti_crash : crash_inv start size (k_disk s) (blk (k_disk s));
}.

Section CommitCrash.
Context {WF : WakeFuel}.
Context (start size : Z).
Implicit Types (d : disk) (R V B : Z -> list Z).

Lemma log_writes_len l V k :
  (forall n, length (V n) = Z.to_nat BSIZE) ->
  Forall (fun e => length e.2 = Z.to_nat BSIZE) (log_writes l V k).
Proof.
  intros HV. unfold log_writes. change (@map nat) with (@fmap list _ nat).
  apply Forall_fmap, Forall_forall. intros i _. apply HV.
Qed.

Lemma put_head_wf l data :
  log_wf start size l -> start < 2147483648 -> length data = Z.to_nat BSIZE ->
  head_wf start size (put_head (l_n l) (l_sector l) data).
Proof.
  intros W Hs Hd. pose proof (lw_n _ _ _ W). pose proof (lw_room _ _ _ W).
  split; rewrite put_head_n by done; [done|done|].
  intros i Hi. pose proof (lw_home _ _ _ W i Hi). rewrite put_head_sector by (done || lia). done.
Qed.

(** The header commits the logged blocks: recovery would write [V]. *)
Lemma install_committed l V B data :
  log_wf start size l -> start < 2147483648 -> length data = Z.to_nat BSIZE ->
  let h := put_head (l_n l) (l_sector l) data in
  install_writes start (<[start := h]> (vwrites (log_writes l V (Z.to_nat (l_n l))) B))
  = map (fun i : nat => (l_sector l !!! i, V (l_sector l !!! i))) (seq 0 (Z.to_nat (l_n l))).
Proof.
  intros W Hs Hd h. unfold install_writes. rewrite fn_lookup_insert.
  pose proof (lw_n _ _ _ W). pose proof (lw_start _ _ _ W) as Hst.
  assert (head_n h = l_n l) as -> by (by apply put_head_n).
  apply map_ext_in. intros i [_ Hi]%in_seq. simpl in Hi.
  pose proof (lw_home _ _ _ W i Hi). rewrite <- Hst. rewrite logged_blocks by done.
  unfold h. rewrite put_head_sector by (done || lia). rewrite u32_id by lia. done.
Qed.

Lemma replay_committed s V n :
  txn_inv start size s V ∅ -> n < start ->
  let l := k_log s in
  let h := put_head (l_n l) (l_sector l) (V start) in
  replay start (<[start := h]> (vwrites (log_writes l V (Z.to_nat (l_n l))) (blk (k_disk s)))) n
  = V n.
Proof.
  intros [HB W Hnd Hcl [G _ _ _ _ _ _]] Hn l h. pose proof G as [].
  pose proof (bi_vlen _ _ _ _ _ (proj1 HB)) as Hv.
  unfold replay, h. rewrite install_committed by (done || lia).
  destruct (decide (n ∈ logged l)) as [Hin|Hin].
  - apply elem_of_list_to_set, list_elem_of_lookup in Hin as (i & Hi).
    pose proof (lookup_lt_Some _ _ _ Hi) as Hlt. unfold txn in Hlt. rewrite length_take in Hlt.
    rewrite (txn_lookup start size) in Hi by (done || lia). injection Hi as <-.
    apply (vwrites_map (fun i => l_sector l !!! i) (fun i => V (l_sector l !!! i)) _ _ i);
      [|apply elem_of_seq; lia].
    by rewrite <- (txn_map start size).
  - rewrite vwrites_notin.
    + rewrite fn_lookup_insert_ne by lia. rewrite vwrites_notin.
      * symmetry. eapply bio_off_disk; eauto.
      * intros Hl%log_writes_above. pose proof (lw_start _ _ _ W). fold l in H. lia.
    + rewrite map_fst. intros (i & -> & Hi%elem_of_seq)%list_elem_of_fmap.
      apply Hin, (logged_in start size); [done|lia].
Qed.

(** [commit] writes the blocks and the header to the log and then does what
    recovery would do. *)
Lemma commit_writes_split s V :
  txn_inv start size s V ∅ ->
  let l := k_log s in
  let pre := log_writes l V (Z.to_nat (l_n l)) ++
             [(start, put_head (l_n l) (l_sector l) (V start))] in
  commit_writes l V = pre ++ recover_writes start (blk (dwrites pre (k_disk s))).
Proof.
  intros [HB W Hnd Hcl [G _ _ _ _ _ _]] l pre. pose proof G as [].
  pose proof (bi_vlen _ _ _ _ _ (proj1 HB) start) as Hv. fold l in W.
  set (h := put_head (l_n l) (l_sector l) (V start)) in *.
  assert (forall n, blk (dwrites pre (k_disk s)) n =
    <[start := h]> (vwrites (log_writes l V (Z.to_nat (l_n l))) (blk (k_disk s))) n) as Hblk.
  { intros n. rewrite blk_dwrites. unfold pre. by rewrite vwrites_app. }
  unfold recover_writes. rewrite (install_writes_ext_all start _ _ Hblk), Hblk.
  unfold h at 1. rewrite install_committed, fn_lookup_insert by (done || lia).
  unfold commit_writes, pre. rewrite <- app_assoc, (lw_start _ _ _ W). done.
Qed.

Lemma commit_prefix s V k :
  txn_inv start size s V ∅ ->
  let W := commit_writes (k_log s) V in
  let d := dwrites (take k W) (k_disk s) in
  ((k <= Z.to_nat (l_n (k_log s)))%nat /\ crash_inv start size d (blk (k_disk s))) \/
  ((Z.to_nat (l_n (k_log s)) < k)%nat /\ crash_inv start size d V).
Proof.
  intros T W d. unfold d. clear d. pose proof T as [HB Hw Hnd Hcl I]. pose proof I as [G _ _ _ Hl _ _]. pose proof G as [].
  pose proof (bi_vlen _ _ _ _ _ (proj1 HB)) as Hv. pose proof (lw_start _ _ _ Hw) as Hst.
  set (l := k_log s) in *. set (n := Z.to_nat (l_n l)) in *.
  assert (length (log_writes l V n) = n) as Hlen.
  { unfold log_writes. by rewrite length_map, length_seq. }
  pose proof (commit_writes_split s V T) as HW. simpl in HW. fold l n W in HW. rewrite HW. clear HW.
  set (h := put_head (l_n l) (l_sector l) (V start)).
  destruct (decide (k <= n)%nat) as [Hk|Hk]; [left|right]; (split; [lia|]).
  - rewrite <- app_assoc, take_app_le by lia.
    assert (forall m, m <= start -> m ∉ (take k (log_writes l V n)).*1) as Hno.
    { intros m Hm Hin. assert (m ∈ (log_writes l V n).*1) as Hin'%log_writes_above; [|lia].
      rewrite <- (take_drop k (log_writes l V n)), fmap_app. set_solver. }
    apply (crash_inv_writes _ _ _ (blk (k_disk s))); auto.
    + apply Hno. lia.
    + apply Forall_take. by apply log_writes_len.
    + rewrite vwrites_notin by (apply Hno; lia). apply I.
    + intros m Hm. rewrite replay_clear; rewrite vwrites_notin by (apply Hno; lia); [done|lia].
  - rewrite take_app_ge by (rewrite length_app; simpl; lia).
    rewrite dwrites_app. apply recover_prefix.
    apply (crash_inv_writes _ _ _ (blk (k_disk s))); auto.
    + rewrite fmap_app. intros [Hin%log_writes_above|Hin]%elem_of_app; [lia|]. set_solver by lia.
    + apply Forall_app. split; [by apply log_writes_len|]. apply Forall_singleton.
      apply length_put_head; [apply (lw_n _ _ _ Hw)|apply Hv].
    + rewrite vwrites_app. simpl. rewrite fn_lookup_insert.
      apply put_head_wf; [done|lia|apply Hv].
    + intros m Hm. rewrite vwrites_app. by apply replay_committed.
Qed.

(** What can be on disk after the disk [d] was booted any number of times,
    each time with a crash somewhere in the recovery. *)
Inductive crashes : disk -> disk -> Prop :=
| crashes_none d : crashes d d
| crashes_boot d s s' w k d' :
    fresh d s -> reboot s = Ret tt s' -> k_disk s' = dwrites w d ->
    crashes (dwrites (take k w) d) d' -> crashes d d'.

Lemma dwrites_inj w w' d : dwrites w d = dwrites w' d -> w = w'.
Proof. intros E%(f_equal dk_trace). rewrite !dwrites_trace in E. by apply app_inv_head in E. Qed.

Lemma crashes_inv d d' R : crashes d d' -> crash_inv start size d R -> crash_inv start size d' R.
Proof.
  intros Hc. induction Hc as [|d s s' w k d' Hf Hr Hd Hc IH]; intros I; [done|].
  apply IH. destruct (wp_reboot start size d R s I Hf) as (a & s1 & Hr' & Hd' & _).
  rewrite Hr in Hr'. injection Hr' as _ <-. rewrite Hd in Hd'. apply dwrites_inj in Hd' as ->.
  by apply recover_prefix.
Qed.

(** A crash, or several, and the reboot that follows. *)
Lemma crash_recovers d d' R s0 :
  crash_inv start size d R -> crashes d d' -> fresh d' s0 ->
  exists s1, reboot s0 = Ret tt s1 /\ (forall n, n < start -> blk (k_disk s1) n = R n).
Proof.
  intros I Hc Hf. apply (crashes_inv _ _ _ Hc) in I.
  destruct (wp_reboot start size d' R s0 I Hf) as ([] & s1 & Hr & _ & HR & _). eauto.
Qed.

(** Booting leaves an idle log, ready for the first system call. *)
Lemma wp_reboot_txn d R s :
  crash_inv start size d R -> fresh d s ->
  wp reboot (fun _ s' => txn_inv start size s' (blk (k_disk s')) ∅ /\
    (forall n, n < start -> blk (k_disk s') n = R n) /\
    k_disk s' = dwrites (recover_writes start (blk d)) d /\
    l_n (k_log s') = 0 /\ l_outstanding (k_log s') = l_outstanding (k_log s) /\
    l_committing (k_log s') = l_committing (k_log s) /\ k_held s' = []) s.
Proof.
  intros I Hf. eapply wp_mono; [by apply (wp_reboot start size d R)|].
  intros [] s' (E & HR & B & W & N & Hh & I' & O & C & Hl).
  assert (logged (k_log s') = ∅) as Hlg by (unfold logged, txn; by rewrite N).
  split; [|done]. split; [by rewrite Hlg|done| |done|].
  - unfold txn. rewrite N. apply NoDup_nil_2.
  - destruct I'. split; auto. intros n Hn. apply replay_clear. lia.
Qed.

(** [commit] leaves the new contents on disk and an empty log. *)
Lemma wp_commit_txn s V :
  txn_inv start size s V ∅ -> 0 < l_n (k_log s) ->
  wp commit (fun _ s' => exists V', lframe s s' /\ txn_inv start size s' V' ∅ /\
    k_log s' = set_l_n 0 (k_log s) /\
    (forall n, n < start -> V' n = V n) /\
    k_disk s' = dwrites (commit_writes (k_log s) V) (k_disk s)) s.
Proof.
  intros T Hn. pose proof T as [HB Hw Hnd Hcl I]. pose proof I as [G Hz _ _ Hl _ _].
  pose proof G as []. pose proof (lw_n _ _ _ Hw). pose proof (lw_room _ _ _ Hw).
  eapply wp_mono; [apply (wp_commit start size s V); try done|].
  { rewrite NBUF_eq. rewrite LOGSIZE_eq in *. lia. }
  intros [] s' (F & L & B & E). exists (vwrites (commit_writes (k_log s) V) V).
  pose proof (commit_prefix s V (length (commit_writes (k_log s) V)) T) as HI. simpl in HI.
  rewrite firstn_all, <- E in HI.
  assert (length (commit_writes (k_log s) V) > Z.to_nat (l_n (k_log s)))%nat.
  { unfold commit_writes. rewrite length_app. simpl. unfold log_writes.
    rewrite length_map, length_seq. lia. }
  destruct HI as [[]|[_ I']]; [lia|].
  assert (head_n (blk (k_disk s') start) = 0) as Hcl'.
  { rewrite E, blk_dwrites, (commit_writes_split s V T). unfold recover_writes.
    rewrite !vwrites_app. simpl. rewrite fn_lookup_insert. apply head_n_clear.
    rewrite blk_dwrites, vwrites_app. simpl. rewrite fn_lookup_insert.
    apply length_put_head; [done|]. apply (bi_vlen _ _ _ _ _ (proj1 HB)). }
  assert (forall n, vwrites (commit_writes (k_log s) V) V n = blk (k_disk s') n) as HV'.
  { intros n. eapply bio_off_disk; [exact B|done|set_solver]. }
  assert (forall n, n < start -> blk (k_disk s') n = V n) as Hnew.
  { intros n Hlt. rewrite <- (ci_replay _ _ _ _ I' n Hlt). symmetry. apply replay_clear. lia. }
  split; [done|]. split; [|split; [done|split; [|done]]].
  - split.
    + rewrite L. exact B.
    + rewrite L. by apply log_wf_clear.
    + rewrite L. apply NoDup_nil_2.
    + done.
    + destruct I'. split; auto. intros n Hlt. apply replay_clear. lia.
  - intros n Hlt. rewrite HV'. by apply Hnew.
Qed.

End CommitCrash.

(** ** Logging a block *)

Section LogWrite.
Context {WF : WakeFuel}.
Context (start size : Z).

(** The scan of the header finds the sector or the end. *)
Lemma wp_find_sector (n x : Z) s (Q : Z -> kstate -> Prop) :
  0 <= n < LOGSIZE ->
  (forall i, 0 <= i <= n -> (forall j, 0 <= j < i -> u32 (l_sector (k_log s) !!! Z.to_nat j) <> x) ->
     i = n \/ u32 (l_sector (k_log s) !!! Z.to_nat i) = x -> Q i s) ->
  wp (loop (S (Z.to_nat LOGSIZE)) (fun i =>
        if i <? n then
          y ← get_sector i;
          if u32 y =? x then mret (inr i) else mret (inl (i + 1))
        else mret (inr i)) 0) Q s.
Proof.
  intros Hn HQ.
  assert (forall fuel i, 0 <= i <= n -> (Z.to_nat (n - i) < fuel)%nat ->
    (forall j, 0 <= j < i -> u32 (l_sector (k_log s) !!! Z.to_nat j) <> x) ->
    wp (loop fuel (fun i =>
        if i <? n then
          y ← get_sector i;
          if u32 y =? x then mret (inr i) else mret (inl (i + 1))
        else mret (inr i)) i) Q s) as Hl.
  { induction fuel as [|fuel IH]; intros i Hi Hf Hj; [lia|]. cbn [loop]. apply wp_bind.
    destruct (Z.ltb_spec i n).
    - apply wp_bind, wp_get_sector; [lia|].
      destruct (Z.eqb_spec (u32 (l_sector (k_log s) !!! Z.to_nat i)) x).
      + do 2 apply wp_ret. apply HQ; [lia|done|by right].
      + apply wp_ret. apply IH; [lia|lia|]. intros j Hj'.
        destruct (decide (j = i)) as [->|]; [done|]. apply Hj. lia.
    - do 2 apply wp_ret. apply HQ; [lia|done|left; lia]. }
  apply Hl; [lia|rewrite LOGSIZE_eq in *; lia|intros; lia].
Qed.

(** The header after [log_write]: absorption, or one more sector. *)
Definition log_add (n : Z) (l : log) : log :=
  if decide (n ∈ logged l) then l
  else set_l_n (l_n l + 1) (set_l_sector (<[Z.to_nat (l_n l) := n]> (l_sector l)) l).

Lemma log_add_txn n l :
  log_wf start size l -> l_n l < LOGSIZE ->
  txn (log_add n l) = if decide (n ∈ logged l) then txn l else txn l ++ [n].
Proof.
  intros W Hn. unfold log_add. case_decide; [done|]. unfold txn. simpl.
  pose proof (lw_n _ _ _ W). pose proof (lw_len _ _ _ W) as Hlen. rewrite LOGSIZE_eq in *.
  replace (Z.to_nat (l_n l + 1)) with (S (Z.to_nat (l_n l))) by lia.
  rewrite (take_S_r _ _ n) by (rewrite list_lookup_insert_eq; [done|lia]).
  rewrite take_insert_ge by lia. done.
Qed.

Lemma log_add_logged n l :
  log_wf start size l -> l_n l < LOGSIZE -> logged (log_add n l) = {[n]} ∪ logged l.
Proof.
  intros W Hn. unfold logged at 1. rewrite log_add_txn by done. case_decide as Hin.
  - fold (logged l). set_solver.
  - rewrite list_to_set_snoc_L. fold (logged l). set_solver.
Qed.

Lemma log_add_nodup n l :
  log_wf start size l -> l_n l < LOGSIZE -> NoDup (txn l) -> NoDup (txn (log_add n l)).
Proof.
  intros W Hn Hnd. rewrite log_add_txn by done. case_decide as Hin; [done|].
  apply NoDup_app. split; [done|]. split; [|apply NoDup_singleton].
  intros x Hx ->%list_elem_of_singleton. apply Hin. by apply elem_of_list_to_set.
Qed.

Lemma log_add_wf n l :
  log_wf start size l -> l_n l < LOGSIZE -> l_n l < size - 1 -> 2 <= n < start ->
  log_wf start size (log_add n l).
Proof.
  intros W Hn Hs Hr. unfold log_add. case_decide; [done|].
  pose proof W as [Hd Hst Hsz Hn' Hroom Hlen Hh]. rewrite LOGSIZE_eq in *.
  split; simpl; auto; rewrite ?LOGSIZE_eq, ?length_insert; try lia.
  intros i Hi. destruct (decide (i = Z.to_nat (l_n l))) as [->|Hne].
  - rewrite list_lookup_total_insert_eq by lia. done.
  - rewrite list_lookup_total_insert_ne by lia. apply Hh. lia.
Qed.

Lemma log_write_header n l i :
  log_wf start size l -> l_n l < LOGSIZE -> 2 <= n < start -> start < 2147483648 ->
  0 <= i <= l_n l -> (forall j, 0 <= j < i -> u32 (l_sector l !!! Z.to_nat j) <> n) ->
  i = l_n l \/ u32 (l_sector l !!! Z.to_nat i) = n ->
  (if i =? l_n l then set_l_n (l_n l + 1) (set_l_sector (<[Z.to_nat i := n]> (l_sector l)) l)
   else set_l_sector (<[Z.to_nat i := n]> (l_sector l)) l) = log_add n l.
Proof.
  intros W Hn Hr Hs Hi Hj Hx. pose proof W as [_ _ _ Hn' _ Hlen Hh].
  assert (forall j, 0 <= j < l_n l -> u32 (l_sector l !!! Z.to_nat j) = l_sector l !!! Z.to_nat j) as Hu.
  { intros j Hj'. pose proof (Hh (Z.to_nat j) ltac:(lia)). apply u32_id. lia. }
  unfold log_add. destruct (Z.eqb_spec i (l_n l)) as [->|Hne].
  - rewrite decide_False; [done|]. intros (j & Hl)%elem_of_list_to_set%list_elem_of_lookup.
    pose proof (lookup_lt_Some _ _ _ Hl) as Hlt. unfold txn in Hlt. rewrite length_take in Hlt.
    rewrite (txn_lookup start size) in Hl by (done || lia). injection Hl as Hl.
    apply (Hj (Z.of_nat j)); [lia|]. rewrite Hu by lia. by rewrite Nat2Z.id.
  - destruct Hx as [|Hx]; [done|]. rewrite Hu in Hx by lia. rewrite decide_True.
    + rewrite list_insert_id; [by destruct l|]. rewrite <- Hx.
      apply list_lookup_lookup_total_lt. rewrite LOGSIZE_eq in *. lia.
    + rewrite <- Hx. apply (logged_in start size); [done|lia].
Qed.

Lemma alter_self (f : buf -> buf -> buf) b (bs : list buf) :
  alter (fun r => f r r) b bs = alter (f (bs !!! b)) b bs.
Proof.
  apply list_alter_ext; [|done]. intros r Hr. by rewrite (list_lookup_total_correct _ _ _ Hr).
Qed.

Lemma wp_log_write s V H b n :
  txn_inv start size s V H -> H !! b = Some n -> 2 <= n < start ->
  l_n (k_log s) < size - 1 -> 1 <= l_outstanding (k_log s) -> LkLog ∉ k_held s ->
  wp (log_write b) (fun _ s' => lframe s s' /\ txn_inv start size s' V H /\
    k_log s' = log_add n (k_log s) /\ k_disk s' = k_disk s) s.
Proof.
  intros [HB W Hnd Hcl I] Hb Hn Hroom Hout Hlk. unfold log_write. wstep.
  pose proof I as [G Hz _ _ _ _ _]. pose proof G as [].
  assert (l_n (k_log s) < LOGSIZE) as Hlt by lia.
  rewrite (proj2 (Z.leb_gt _ _) Hlt), (lw_size _ _ _ W), (proj2 (Z.leb_gt (size - 1) _)),
    (proj2 (Z.ltb_ge _ 1)) by lia. cbn [orb].
  destruct (bio_inv_held _ _ _ _ _ b n (proj1 HB) Hb) as (Hbn & _ & _ & Hsec & _ & _).
  apply wp_bind. eexists tt, _. split; [by apply acquire_ok|]. wstep. wstep. cbn [k_bufs set_k_held k_log].
  rewrite Hsec, (s32_id n) by lia.
  apply wp_bind, wp_find_sector; [pose proof (lw_n _ _ _ W); lia|]. intros i Hi Hj Hx. simpl in Hi, Hj, Hx.
  apply wp_bind, wp_put_sector; [lia|]. pose proof (log_write_header n _ i W Hlt Hn ltac:(lia) Hi Hj Hx) as Hlog.
  match goal with |- wp (_ ≫= ?f) ?Q ?s0 =>
    assert (wp (f tt) Q (set_k_log (log_add n (k_log s)) (set_k_held (LkLog :: k_held s) s))) as Hg end.
  - wstep. cbv beta. eexists tt, _. split; [by apply release_ok|].
    split; [|split; [|split; [done|done]]].
    + by split; [destruct s|done|done].
    + split; [|by apply log_add_wf|by apply log_add_nodup|done|done].
      cbn [k_log set_k_held set_k_bufs upd_buf set_k_log].
      rewrite log_add_logged by done. destruct HB as [HI HL]. split; [|done].
      simpl.
      rewrite (alter_self (fun r0 r => set_b_flags (set_flag (b_flags r0) B_DIRTY) r)). apply (bio_inv_pin _ _ _ _ _ _ _ HI Hb).
  - destruct (Z.eqb_spec i (l_n (k_log s))); wstep;
      match goal with |- wp _ _ ?x =>
        replace x with (set_k_log (log_add n (k_log s)) (set_k_held (LkLog :: k_held s) s));
          [exact Hg|by rewrite <- Hlog] end.
Qed.

End LogWrite.

(** ** [begin_op] and [end_op] *)

Section Ops.
Context {WF : WakeFuel}.
Context (start size : Z).

(** The log takes in one more operation. *)
Definition admits (l : log) : Prop :=
  l_committing l = false /\ l_n l + (l_outstanding l + 1) * MAXOPBLOCKS <= LOGSIZE.

Lemma begin_op_run s :
  LkLog ∉ k_held s -> admits (k_log s) ->
  begin_op s = Ret tt (upd_log (set_l_outstanding (l_outstanding (k_log s) + 1)) s).
Proof.
  intros Hl [Hc Hr]. unfold begin_op. kstep_by ltac:(by apply acquire_ok). cbn [loop].
  erewrite bind_Ret; [|kstep; cbn [k_log set_k_held]; rewrite Hc, (proj2 (Z.ltb_ge _ _) Hr);
    kstep; kstep_by ltac:(by apply release_ok); reflexivity].
  by destruct s.
Qed.

(** The loop of [begin_op], with the log's lock held. *)
Lemma begin_op_loop fuel s :
  k_held s = [LkLog] -> admits (k_log s) ->
  loop (S fuel) (fun _ : unit =>
    l ← gets k_log;
    if l_committing l then sleep ChLog LkLog;; mret (inl tt)
    else if LOGSIZE <? l_n l + (l_outstanding l + 1) * MAXOPBLOCKS then
      sleep ChLog LkLog;; mret (inl tt)
    else
      modify (upd_log (set_l_outstanding (l_outstanding l + 1)));;
      release LkLog;;
      mret (inr tt)) tt s
  = Ret tt (set_k_held [] (upd_log (set_l_outstanding (l_outstanding (k_log s) + 1)) s)).
Proof.
  intros Hh [Hc Hr]. cbn [loop].
  erewrite bind_Ret; [|kstep; rewrite Hc, (proj2 (Z.ltb_ge _ _) Hr);
    kstep; kstep_by ltac:(apply (release_ok LkLog []); [done|set_solver]); reflexivity].
  done.
Qed.

(** A full or committing log makes it wait: the process sleeps on [&log] with
    the log's lock released, and goes on once it finds room. *)
Lemma begin_op_wait s p :
  k_held s = [] -> k_cur s = Some p -> (p < length (k_procs s))%nat ->
  ~ admits (k_log s) -> (0 < wake_fuel)%nat ->
  exists k, begin_op s = Switch (asleep p ChLog s) k /\
    forall s', k_held s' = [LkPtable] -> k_cur s' = Some p -> admits (k_log s') ->
      k s' = Ret tt (set_k_held [] (upd_log (set_l_outstanding (l_outstanding (k_log s') + 1))
               (upd_proc p (set_p_chan None) s'))).
Proof.
  intros Hh Hc Hp Hna Hwf. unfold begin_op.
  kstep_by ltac:(apply acquire_ok; rewrite Hh; set_solver). rewrite Hh.
  destruct (sleep_switch ChLog LkLog (set_k_held [LkLog] s) p) as (k & Hk & Hres); [done..|].
  destruct wake_fuel as [|fuel] eqn:Efuel; [lia|].
  match goal with |- context [loop (S (S fuel)) ?b] => set (body := b) in * end.
  change (loop (S (S fuel)) body tt) with
    (r ← body tt; match r with inl i => loop (S fuel) body i | inr x => mret x end).
  assert (body tt (set_k_held [LkLog] s) =
    (sleep ChLog LkLog;; mret (inl tt)) (set_k_held [LkLog] s)) as Hb.
  { unfold body. kstep. cbn [k_log set_k_held]. unfold admits in Hna.
    destruct (l_committing (k_log s)); [done|].
    destruct (Z.ltb_spec LOGSIZE (l_n (k_log s) + (l_outstanding (k_log s) + 1) * MAXOPBLOCKS));
      [done|]. exfalso. apply Hna. split; [done|lia]. }
  unfold mbind, M_bind. rewrite Hb. unfold mbind, M_bind. rewrite Hk. cbn [obind].
  eexists. split; [reflexivity|]. intros s' Hh' Hc' Ha. cbv beta.
  rewrite Hres by done. cbn [obind].
  etrans; [by apply (begin_op_loop fuel (awake p LkLog s'))|]. done.
Qed.

(** [end_op] of an operation that is not the last one only makes room. *)
Lemma end_op_more s :
  LkLog ∉ k_held s -> LkPtable ∉ k_held s -> (length (k_procs s) <= NPROC)%nat ->
  l_committing (k_log s) = false -> l_outstanding (k_log s) <> 1 ->
  end_op s = Ret tt (set_k_procs (wake ChLog <$> k_procs s)
    (upd_log (set_l_outstanding (l_outstanding (k_log s) - 1)) s)).
Proof.
  intros Hl Hp Hn Hc Ho. unfold end_op. kstep_by ltac:(by apply acquire_ok). kstep. kstep.
  cbn [k_log upd_log set_k_log set_k_held l_committing set_l_outstanding]. rewrite Hc.
  cbn [l_outstanding set_l_outstanding]. rewrite (proj2 (Z.eqb_neq _ 0)) by lia.
  erewrite bind_Ret; [|erewrite bind_Ret; [reflexivity|apply wakeup_ok; simpl; [set_solver|done]]].
  kstep_by ltac:(by apply release_ok). cbn [when]. by destruct s.
Qed.

(** The last [end_op] commits the transaction. *)
Lemma wp_end_op_last s V :
  txn_inv start size s V ∅ -> 0 < l_n (k_log s) -> l_outstanding (k_log s) = 1 ->
  l_committing (k_log s) = false -> LkLog ∉ k_held s ->
  wp end_op (fun _ s' => exists V', txn_inv start size s' V' ∅ /\
    (forall n, n < start -> V' n = V n) /\
    l_n (k_log s') = 0 /\ l_outstanding (k_log s') = 0 /\ l_committing (k_log s') = false /\
    k_held s' = k_held s /\
    k_disk s' = dwrites (commit_writes (k_log s) V) (k_disk s)) s.
Proof.
  intros T Hn Ho Hc Hl. pose proof T as [HB W Hnd Hcl I]. unfold end_op.
  apply wp_bind. eexists tt, _. split; [by apply acquire_ok|]. wstep. wstep. simpl. rewrite Hc, Ho.
  apply wp_bind. wstep. apply wp_ret. apply wp_bind. eexists tt, _. split; [by apply release_ok|].
  cbn [when]. match goal with |- wp _ _ ?x => set (s1 := x) end.
  assert (txn_inv start size s1 V ∅) as T1.
  { split; [exact HB|split; apply W|exact Hnd|exact Hcl|exact I]. }
  wapply (wp_commit_txn start size s1 V); [exact T1|exact Hn|].
  intros [] s2 (V' & F2 & T2 & L2 & HV' & E2). pose proof T2 as [HB2 W2 Hnd2 Hcl2 I2].
  destruct HB2 as [HI2 (Hb2 & Hp2 & Hn2)].
  assert (k_held s2 = k_held s) as Hh2 by (destruct F2 as [-> _ _]; done).
  apply wp_bind. eexists tt, _. split; [apply acquire_ok; by rewrite Hh2|]. wstep.
  apply wp_bind. eexists tt, _. split.
  { apply wakeup_ok; [simpl; rewrite Hh2 in *; set_solver|done]. }
  eexists tt, _. split; [apply release_ok; [reflexivity|by rewrite Hh2]|].
  exists V'. split; [|split; [done|]].
  - split; [|split; apply W2|exact Hnd2|exact Hcl2|exact I2].
    split; [exact HI2|]. split; [exact Hb2|]. split; [exact Hp2|]. simpl. by rewrite length_fmap.
  - simpl. rewrite L2. simpl. split_and!; [done|lia|done|exact Hh2|exact E2].
Qed.

(** With an empty transaction the last [end_op] writes nothing. *)
Lemma wp_end_op_empty s :
  locks_free s -> LkLog ∉ k_held s -> l_committing (k_log s) = false ->
  l_outstanding (k_log s) = 1 -> l_n (k_log s) = 0 ->
  wp end_op (fun _ s' => k_disk s' = k_disk s) s.
Proof.
  intros (Hb & Hp & Hn) Hl Hc Ho H0. unfold end_op.
  apply wp_bind. eexists tt, _. split; [by apply acquire_ok|]. wstep. wstep. simpl. rewrite Hc, Ho.
  apply wp_bind. wstep. apply wp_ret. apply wp_bind. eexists tt, _. split; [by apply release_ok|].
  cbn [when]. apply wp_bind. unfold commit. wstep. simpl. rewrite H0. apply wp_ret.
  apply wp_bind. eexists tt, _. split; [by apply acquire_ok|]. wstep.
  apply wp_bind. eexists tt, _. split.
  { apply wakeup_ok; [simpl; set_solver|done]. }
  eexists tt, _. split; [by apply release_ok|]. done.
Qed.

(** The last [end_op] with any transaction: durable, and atomic across
    crashes. *)
Lemma end_op_atomic s V :
  txn_inv start size s V ∅ -> l_outstanding (k_log s) = 1 ->
  l_committing (k_log s) = false -> LkLog ∉ k_held s ->
  exists s' w, end_op s = Ret tt s' /\ k_disk s' = dwrites w (k_disk s) /\
    (forall n, n < start -> blk (k_disk s') n = V n) /\
    forall k d s0, crashes (dwrites (take k w) (k_disk s)) d -> fresh d s0 ->
      exists s1, reboot s0 = Ret tt s1 /\
        ((forall n, n < start -> blk (k_disk s1) n = blk (k_disk s) n) \/
         (forall n, n < start -> blk (k_disk s1) n = V n)).
Proof.
  intros T Ho Hc Hl. pose proof (lw_n _ _ _ (ti_wf _ _ _ _ _ T)) as Hn.
  destruct (decide (l_n (k_log s) = 0)) as [H0|H0].
  - destruct (wp_end_op_empty s (proj2 (ti_bio _ _ _ _ _ T)) Hl Hc Ho H0) as ([] & s' & Hr & E).
    exists s', []. split; [done|]. split; [done|]. split.
    { intros n _. rewrite E. symmetry. apply (bio_off_disk s V ∅ (logged (k_log s))); [apply T|done|].
      unfold logged, txn. rewrite H0. apply not_elem_of_empty. }
    intros k d s0 Hcr Hf. rewrite take_nil in Hcr.
    destruct (crash_recovers start size _ _ _ _ (ti_crash _ _ _ _ _ T) Hcr Hf) as (s1 & Hr1 & HR).
    exists s1. split; [done|by left].
  - destruct (wp_end_op_last s V T ltac:(lia) Ho Hc Hl)
      as ([] & s' & Hr & V' & T' & HV' & N' & _ & _ & _ & E').
    exists s', (commit_writes (k_log s) V). split; [exact Hr|]. split; [exact E'|]. split.
    { intros n Hlt. rewrite <- HV' by done. symmetry. eapply bio_off_disk; [apply T'|done|].
      unfold logged, txn. rewrite N'. apply not_elem_of_empty. }
    intros k d s0 Hcr Hf. destruct (commit_prefix start size s V k T) as [[Hk I]|[Hk I]];
      destruct (crash_recovers start size _ _ _ _ I Hcr Hf) as (s1 & Hr1 & HR); eauto.
Qed.

End Ops.
