(* ===== verification/Txn.v ===== *)
(** * Disk accesses inside a transaction

    What [bread], [brelse] and assignments to a buffer's data do to the
    invariant [txn_inv] of the log, for the file system above it. *)

From S2P Require Import Prelude Monad State Sched Bio BioSpec Layout Log Crash LogSpec.
From S2P Require Import LogCrash.

Section Txn.
Context {WF : WakeFuel}.
Context (start size : Z).
Implicit Types (V : Z -> list Z) (H : gmap nat Z).

(** [txn_inv] only looks at the disk and the log besides the cache. *)
Lemma txn_inv_bio s s' V V' H H' :
  txn_inv start size s V H -> k_log s' = k_log s -> k_disk s' = k_disk s ->
  bio s' V' H' (logged (k_log s)) -> txn_inv start size s' V' H'.
Proof. intros [HB W Hnd Hcl I] El Ed B. split; rewrite ?El, ?Ed; auto. Qed.

Lemma txn_inv_proper s V V' H :
  (forall n, V n = V' n) -> txn_inv start size s V H -> txn_inv start size s V' H.
Proof.
  intros E T. apply (txn_inv_bio s s V _ H _ T); [done..|]. eapply bio_proper; [done|apply T].
Qed.

Lemma wp_txn_bread s V H n :
  txn_inv start size s V H -> n < dk_size (k_disk s) -> (forall i, H !! i <> Some n) ->
  (base.size H + base.size (logged (k_log s)) < NBUF)%nat \/ (n ∈ logged (k_log s)) ->
  wp (bread 1 n) (fun b s' => bio_frame s s' /\ txn_inv start size s' V (<[b := n]> H) /\
    H !! b = None /\ b_data (k_bufs s' !!! b) = V n /\ k_disk s' = k_disk s) s.
Proof.
  intros T Hn HH Hr. wapply wp_bread; [apply T|done..|].
  intros b s' (F & B & N & Hd & E). split; [done|]. split; [|done].
  apply (txn_inv_bio s s' V V H); auto. by apply bio_frame_log.
Qed.

Lemma wp_txn_brelse s V H b n :
  txn_inv start size s V H -> H !! b = Some n ->
  (n ∈ logged (k_log s)) \/ V n = blk (k_disk s) n ->
  wp (brelse b) (fun _ s' => bio_frame s s' /\ txn_inv start size s' V (delete b H) /\
    k_disk s' = k_disk s) s.
Proof.
  intros T Hb Hn. wapply wp_brelse; [apply T|done..|].
  intros [] s' (F & B & E). split; [done|]. split; [|done].
  apply (txn_inv_bio s s' V V H); auto. by apply bio_frame_log.
Qed.

Lemma txn_assign s V H b n f :
  txn_inv start size s V H -> H !! b = Some n -> length (f (V n)) = Z.to_nat BSIZE ->
  let s' := upd_buf b (fun r => set_b_data (f (b_data r)) r) s in
  bio_frame s s' /\ txn_inv start size s' (<[n := f (V n)]> V) H /\ k_disk s' = k_disk s.
Proof.
  intros T Hb Hf s'. edestruct (bio_assign s V H) as (F & B & E); [apply T|done|exact Hf|].
  split; [exact F|]. split; [|done]. by apply (txn_inv_bio s s' V _ H).
Qed.

(** A read, a change of the data, [log_write] and [brelse]: the way every
    file system function modifies a sector. *)
Lemma wp_txn_update s V H b n f :
  txn_inv start size s V H -> H !! b = Some n -> 2 <= n < start ->
  length (f (V n)) = Z.to_nat BSIZE -> l_n (k_log s) < size - 1 ->
  1 <= l_outstanding (k_log s) -> LkLog ∉ k_held s ->
  wp (modify (upd_buf b (fun r => set_b_data (f (b_data r)) r));; log_write b;; brelse b)
    (fun _ s' => lframe s s' /\ txn_inv start size s' (<[n := f (V n)]> V) (delete b H) /\
       k_log s' = log_add n (k_log s) /\ k_disk s' = k_disk s) s.
Proof.
  intros T Hb Hn Hf Hr Ho Hl. wstep.
  destruct (txn_assign s V H b n f T Hb Hf) as (F1 & T1 & E1).
  match goal with |- wp _ _ ?x => set (s1 := x) in * end.
  wapply (wp_log_write start size s1); [done..|]. intros [] s2 (F2 & T2 & L2 & E2).
  wapply (wp_txn_brelse s2); [done..| |].
  { left. rewrite L2, (log_add_logged start size).
    - set_solver.
    - apply T.
    - pose proof (ci_size _ _ _ _ (ti_crash _ _ _ _ _ T)).
      simpl. lia. }
  intros [] s3 (F3 & T3 & E3).
  split; [etrans; [by apply lframe_bio|]; etrans; [done|by apply lframe_bio]|].
  split; [done|]. split; [by rewrite (bio_frame_log _ _ F3), L2|]. congruence.
Qed.

End Txn.
