(* ===== verification/LogProps.v ===== *)
(** * The properties of the log

    The theorems the log is built for, with a concrete run that reaches the
    states they speak about. *)

From S2P Require Import Prelude Monad State Sched Bio BioSpec Layout Log Crash LogSpec.
From S2P Require Import LogCrash Txn.

(** A disk of 64 sectors, the last 30 of them the log. *)
Definition demo_disk : disk :=
  mkdisk {[1 := enc_superblock (mksb 64 20 8 30) ++ replicate 496 0]} 64 [].

(** A system call that overwrites sector 10. *)
Definition demo_call {WF : WakeFuel} : K unit :=
  begin_op;;
  b ← bread 1 10;
  modify (upd_buf b (fun r => set_b_data (replicate 512 7) r));;
  log_write b;;
  brelse b.

Definition demo_state {WF : WakeFuel} : kstate :=
  match (reboot;; demo_call) (reset_state demo_disk) with
  | Ret _ s => s
  | _ => reset_state demo_disk
  end.

Definition demo_V : Z -> list Z := <[10 := replicate 512 7]> (blk (dwrites (recover_writes 34 (blk demo_disk)) demo_disk)).

Lemma demo_fresh : fresh demo_disk (reset_state demo_disk).
Proof.
  split; [done|done|by rewrite NBUF_eq| |by rewrite NPROC_eq|done].
  intros i Hi. rewrite NBUF_eq in Hi. unfold reset_state. cbn [k_bufs].
  rewrite lookup_total_replicate_2 by lia. done.
Qed.

Lemma demo_crash_inv : crash_inv 34 30 demo_disk (blk demo_disk).
Proof.
  assert (forall n, n <> 1 -> blk demo_disk n = replicate 512 0) as Hz.
  { intros n Hn. unfold blk, demo_disk. simpl. by rewrite lookup_singleton_ne. }
  assert (head_n (blk demo_disk 34) = 0) as Hh by (vm_compute; reflexivity).
  split.
  - by split.
  - done.
  - vm_compute. reflexivity.
  - vm_compute. reflexivity.
  - intros n. destruct (decide (n = 1)) as [->|Hn]; [vm_compute; reflexivity|].
    rewrite Hz by done. reflexivity.
  - split; rewrite Hh; [by rewrite LOGSIZE_eq|done|intros; lia].
  - intros n _. apply replay_clear. by rewrite Hh.
Qed.

Lemma demo_run {WF : WakeFuel} :
  wp (reboot;; demo_call) (fun _ s => txn_inv 34 30 s demo_V ∅ /\
    l_n (k_log s) = 1 /\ l_outstanding (k_log s) = 1 /\ l_committing (k_log s) = false /\
    k_held s = []) (reset_state demo_disk).
Proof.
  wapply (wp_reboot_txn 34 30); [apply demo_crash_inv|apply demo_fresh|].
  intros [] s1 (T1 & _ & E1 & N1 & O1 & C1 & H1). simpl in O1, C1.
  set (d1 := dwrites _ _) in E1. unfold demo_call.
  assert (dk_size (k_disk s1) = 64) as Hd by (rewrite E1; apply dwrites_size).
  apply wp_bind. eexists tt, _. split.
  { apply begin_op_run; [rewrite H1; apply not_elem_of_nil|].
    split; rewrite ?N1, ?O1, ?C1; [done|]. unfold MAXOPBLOCKS. rewrite LOGSIZE_eq. lia. }
  match goal with |- wp _ _ ?x => set (s2 := x) end.
  assert (txn_inv 34 30 s2 (blk d1) ∅) as T2.
  { rewrite <- E1. destruct T1 as [B W Hn Hc I]. by split; [|split; apply W| | |]. }
  assert (logged (k_log s2) = ∅) as Hlg by (unfold logged, txn, s2; simpl; by rewrite N1).
  wapply (wp_txn_bread 34 30 s2); [done|simpl; lia|done| |].
  { left. rewrite Hlg, size_empty, map_size_empty, NBUF_eq. lia. }
  intros b s3 (F3 & T3 & _ & D3 & E3). rewrite insert_empty in T3.
  pose proof (bio_frame_log _ _ F3) as L3.
  wapply (wp_txn_update 34 30 s3 (blk d1) {[b := 10]} b 10 (fun _ => replicate 512 7)).
  - done.
  - by rewrite lookup_singleton_eq.
  - done.
  - done.
  - rewrite L3. simpl. lia.
  - rewrite L3. simpl. rewrite O1. lia.
  - rewrite (bio_frame_held _ _ F3). simpl. rewrite H1. apply not_elem_of_nil.
  - intros [] s4 (F4 & T4 & L4 & E4). rewrite delete_singleton_eq in T4.
    rewrite L4, L3. unfold log_add. rewrite Hlg, decide_False by (apply not_elem_of_empty). simpl.
    rewrite N1, O1, C1. split; [exact T4|]. split_and!; [done..|].
    destruct F4 as [-> _ _]. simpl. rewrite (bio_frame_held _ _ F3). exact H1.
Qed.

Lemma demo_state_ok {WF : WakeFuel} :
  txn_inv 34 30 demo_state demo_V ∅ /\ l_n (k_log demo_state) = 1 /\
  l_outstanding (k_log demo_state) = 1 /\ l_committing (k_log demo_state) = false /\
  k_held demo_state = [].
Proof. destruct demo_run as (a & s & Hr & HQ). unfold demo_state. by rewrite Hr. Qed.

Section Properties.
Context {WF : WakeFuel}.

(** C1: File system transactions are atomic and durable.  The [end_op] of the
    last outstanding call returns with the contents [V] that the calls built
    up in the cache on disk.  If the machine stops after any number [k] of the
    sector writes [end_op] issues, and again any number of times in the middle
    of the recoveries that follow, the next boot brings back, in every sector
    below the log, either what was there before (when the header block was
    not yet written) or all of [V] (from the header block on). *)
Theorem end_op_crash_atomic (start size : Z) (s : kstate) (V : Z -> list Z) :
  txn_inv start size s V ∅ -> 0 < l_n (k_log s) -> l_outstanding (k_log s) = 1 ->
  l_committing (k_log s) = false -> LkLog ∉ k_held s ->
  exists s' w, end_op s = Ret tt s' /\ k_disk s' = dwrites w (k_disk s) /\
    (forall n, n < start -> blk (k_disk s') n = V n) /\
    forall k d s0, crashes (dwrites (take k w) (k_disk s)) d -> fresh d s0 ->
      exists s1, reboot s0 = Ret tt s1 /\
        if decide (k <= Z.to_nat (l_n (k_log s)))%nat
        then forall n, n < start -> blk (k_disk s1) n = blk (k_disk s) n
        else forall n, n < start -> blk (k_disk s1) n = V n.
Proof.
  intros T Hn Ho Hc Hl.
  destruct (wp_end_op_last start size s V T Hn Ho Hc Hl)
    as ([] & s' & Hr & V' & T' & HV' & N' & _ & _ & _ & E').
  exists s', (commit_writes (k_log s) V). split; [exact Hr|]. split; [exact E'|]. split.
  { intros n Hlt. rewrite <- HV' by done. symmetry. eapply bio_off_disk; [apply T'|done|].
    unfold logged, txn. rewrite N'. apply not_elem_of_empty. }
  intros k d s0 Hcr Hf. destruct (commit_prefix start size s V k T) as [[Hk I]|[Hk I]].
  - destruct (crash_recovers start size _ _ _ _ I Hcr Hf) as (s1 & Hr1 & HR). exists s1.
    split; [exact Hr1|]. case_decide; [exact HR|lia].
  - destruct (crash_recovers start size _ _ _ _ I Hcr Hf) as (s1 & Hr1 & HR). exists s1.
    split; [exact Hr1|]. case_decide; [lia|exact HR].
Qed.

End Properties.

Lemma end_op_crash_atomic_witness :
  exists s' w, end_op (WF := 1%nat) (demo_state (WF := 1%nat)) = Ret tt s' /\
    k_disk s' = dwrites w (k_disk (demo_state (WF := 1%nat))) /\
    blk (k_disk s') 10 = replicate 512 7.
Proof.
  destruct (demo_state_ok (WF := 1%nat)) as (T & N & O & C & L).
  destruct (end_op_crash_atomic (WF := 1%nat) 34 30 _ demo_V T) as (s' & w & Hr & E & HV & _).
  - rewrite N. lia.
  - done.
  - done.
  - rewrite L. apply not_elem_of_nil.
  - exists s', w. split; [exact Hr|]. split; [exact E|]. rewrite HV by lia. reflexivity.
Defined.
