(* ===== verification/Inode.v ===== *)
(** * Blocks and inodes ([fs.c], first half)

    The block allocator, the inode cache and the inodes on disk.  A pointer
    into [icache.inode] is an index, so the tests [ip == 0] of [ilock] and
    [iunlock] are decided by its type. *)

From S2P Require Import Prelude Monad State Sched Bio BioSpec Layout Log.

(** [data[bi/8] & (1 << (bi % 8))] of a bitmap block. *)
Definition bit_mask (bi : Z) : Z := Z.shiftl 1 (bi mod 8).
Definition bit_byte (bi : Z) (data : list Z) : Z := data !!! Z.to_nat (bi / 8).
Definition bit_clear (bi : Z) (data : list Z) : bool :=
  Z.land (bit_byte bi data) (bit_mask bi) =? 0.
(** [data[bi/8] |= m] and [data[bi/8] &= ~m] *)
Definition mark_bit (bi : Z) (data : list Z) : list Z :=
  <[Z.to_nat (bi / 8) := u8 (Z.lor (bit_byte bi data) (bit_mask bi))]> data.
Definition unmark_bit (bi : Z) (data : list Z) : list Z :=
  <[Z.to_nat (bi / 8) := u8 (Z.land (bit_byte bi data) (Z.lnot (bit_mask bi)))]> data.

(** The byte offset of inode [inum] in its block. *)
Definition dinode_off (inum : Z) : nat := Z.to_nat (inum mod IPB * DINODE_SIZE).

(** The assignments of [iupdate] to the fields of [*dip]. *)
Definition put_dinode (k : nat) (ip : inode) (data : list Z) : list Z :=
  splice (k + 12) (concat (le_enc 4 <$> i_addrs ip))
    (wr 4 (k + 8) (i_size ip)
      (wr 2 (k + 6) (i_nlink ip)
        (wr 2 (k + 4) (i_minor ip)
          (wr 2 (k + 2) (i_major ip)
            (wr 2 k (i_type ip) data))))).

(** The assignments of [ilock] from the fields of [*dip]. *)
Definition load_dinode (d : dinode) (ip : inode) : inode :=
  mkinode (i_dev ip) (i_inum ip) (i_ref ip) (i_flags ip)
          (d_type d) (d_major d) (d_minor d) (d_nlink d) (d_size d) (d_addrs d).

Section Inode.
Context {WF : WakeFuel}.

(** ** Blocks *)

Definition bzero (dev bno : Z) : K unit :=
  bp ← bread dev bno;
  modify (upd_buf bp (set_b_data (replicate (Z.to_nat BSIZE) 0)));;
  log_write bp;;
  brelse bp.

(** The inner loop of [balloc]: the first free bit of a bitmap block. *)
Definition balloc_find (bp : nat) (b size : Z) : K (option Z) :=
  loop (S (Z.to_nat BPB)) (fun bi =>
    if (bi <? BPB) && (b + bi <? size) then
      r ← getbuf bp;
      if bit_clear bi (b_data r) then mret (inr (Some bi)) else mret (inl (bi + 1))
    else mret (inr None)) 0.

(** [balloc].  The outer loop runs once per bitmap block. *)
Definition balloc (dev : Z) : K Z :=
  sb ← readsb dev;
  loop (Z.to_nat (sb_size sb / BPB) + 2) (fun b =>
    if b <? sb_size sb then
      bp ← bread dev (BBLOCK b (sb_ninodes sb));
      f ← balloc_find bp b (sb_size sb);
      match f with
      | Some bi =>
          modify (upd_buf bp (fun r => set_b_data (mark_bit bi (b_data r)) r));;
          log_write bp;;
          brelse bp;;
          bzero dev (b + bi);;
          mret (inr (b + bi))
      | None => brelse bp;; mret (inl (b + BPB))
      end
    else panic "balloc: out of blocks") 0.

Definition bfree (dev b : Z) : K unit :=
  sb ← readsb dev;
  bp ← bread dev (BBLOCK b (sb_ninodes sb));
  let bi := b mod BPB in
  r ← getbuf bp;
  if bit_clear bi (b_data r) then panic "freeing free block"
  else
    modify (upd_buf bp (fun r => set_b_data (unmark_bit bi (b_data r)) r));;
    log_write bp;;
    brelse bp.

(** ** The inode cache *)

(** [iget]: the entry of the inode, a recycled one if it is not cached. *)
Definition iget (dev inum : Z) : K nat :=
  acquire LkIcache;;
  found ← loop (S NINODE) (fun '(i, empty) =>
    if bool_decide (i = NINODE) then mret (inr (inr empty))
    else
      r ← getinode i;
      if (0 <? i_ref r) && (i_dev r =? dev) && (i_inum r =? inum) then
        modify (upd_inode i (set_i_ref (i_ref r + 1)));;
        release LkIcache;;
        mret (inr (inl i))
      else
        mret (inl (S i, match empty with
                        | None => if i_ref r =? 0 then Some i else None
                        | Some e => Some e
                        end))) (0%nat, None);
  match found with
  | inl ip => mret ip
  | inr None => panic "iget: no inodes"
  | inr (Some ip) =>
      modify (upd_inode ip (set_i_dev dev));;
      modify (upd_inode ip (set_i_inum inum));;
      modify (upd_inode ip (set_i_ref 1));;
      modify (upd_inode ip (set_i_flags 0));;
      release LkIcache;;
      mret ip
  end.

Definition ialloc (dev type : Z) : K nat :=
  sb ← readsb dev;
  loop (S (Z.to_nat (sb_ninodes sb))) (fun inum =>
    if inum <? sb_ninodes sb then
      bp ← bread dev (IBLOCK inum);
      r ← getbuf bp;
      let k := dinode_off inum in
      if s16 (rd 2 k (b_data r)) =? 0 then
        modify (upd_buf bp (fun r => set_b_data
          (wr 2 k type (splice k (replicate (Z.to_nat DINODE_SIZE) 0) (b_data r))) r));;
        log_write bp;;
        brelse bp;;
        ip ← iget dev inum;
        mret (inr ip)
      else
        brelse bp;;
        mret (inl (inum + 1))
    else panic "ialloc: no inodes") 1.

Definition iupdate (ip : nat) : K unit :=
  i ← getinode ip;
  bp ← bread (i_dev i) (IBLOCK (i_inum i));
  i ← getinode ip;
  modify (upd_buf bp (fun r => set_b_data (put_dinode (dinode_off (i_inum i)) i (b_data r)) r));;
  log_write bp;;
  brelse bp.

Definition idup (ip : nat) : K nat :=
  acquire LkIcache;;
  modify (upd_inode ip (fun i => set_i_ref (i_ref i + 1) i));;
  release LkIcache;;
  mret ip.

Definition ilock (ip : nat) : K unit :=
  i ← getinode ip;
  if i_ref i <? 1 then panic "ilock"
  else
    acquire LkIcache;;
    loop (S wake_fuel) (fun _ : unit =>
      i ← getinode ip;
      if has (i_flags i) I_BUSY then sleep (ChInode ip) LkIcache;; mret (inl tt)
      else mret (inr tt)) tt;;
    modify (upd_inode ip (fun i => set_i_flags (set_flag (i_flags i) I_BUSY) i));;
    release LkIcache;;
    i ← getinode ip;
    if negb (has (i_flags i) I_VALID) then
      bp ← bread (i_dev i) (IBLOCK (i_inum i));
      r ← getbuf bp;
      let d := dec_dinode (dinode_off (i_inum i)) (b_data r) in
      modify (upd_inode ip (load_dinode d));;
      brelse bp;;
      modify (upd_inode ip (fun i => set_i_flags (set_flag (i_flags i) I_VALID) i));;
      i ← getinode ip;
      if i_type i =? 0 then panic "ilock: no type" else mret tt
    else mret tt.

Definition iunlock (ip : nat) : K unit :=
  i ← getinode ip;
  if negb (has (i_flags i) I_BUSY) || (i_ref i <? 1) then panic "iunlock"
  else
    acquire LkIcache;;
    modify (upd_inode ip (fun i => set_i_flags (clear_flag (i_flags i) I_BUSY) i));;
    wakeup (ChInode ip);;
    release LkIcache.

(** [itrunc].  [set_addr] is [ip->addrs[i] = x]. *)
Definition set_addr (i : nat) (x : Z) (ip : inode) : inode :=
  set_i_addrs (<[i := x]> (i_addrs ip)) ip.

Definition itrunc (ip : nat) : K unit :=
  for_each (seq 0 (Z.to_nat NDIRECT)) (fun i =>
    n ← getinode ip;
    when (negb (i_addrs n !!! i =? 0))
      (bfree (i_dev n) (i_addrs n !!! i);;
       modify (upd_inode ip (set_addr i 0))));;
  n ← getinode ip;
  when (negb (i_addrs n !!! Z.to_nat NDIRECT =? 0))
    (bp ← bread (i_dev n) (i_addrs n !!! Z.to_nat NDIRECT);
     for_each (seq 0 (Z.to_nat NINDIRECT)) (fun j =>
       r ← getbuf bp;
       when (negb (rd 4 (4 * j) (b_data r) =? 0))
         (bfree (i_dev n) (rd 4 (4 * j) (b_data r))));;
     brelse bp;;
     n ← getinode ip;
     bfree (i_dev n) (i_addrs n !!! Z.to_nat NDIRECT);;
     modify (upd_inode ip (set_addr (Z.to_nat NDIRECT) 0)));;
  modify (upd_inode ip (set_i_size 0));;
  iupdate ip.

Definition iput (ip : nat) : K unit :=
  acquire LkIcache;;
  i ← getinode ip;
  when ((i_ref i =? 1) && has (i_flags i) I_VALID && (i_nlink i =? 0))
    (if has (i_flags i) I_BUSY then panic "iput busy"
     else
       modify (upd_inode ip (set_i_flags (set_flag (i_flags i) I_BUSY)));;
       release LkIcache;;
       itrunc ip;;
       modify (upd_inode ip (set_i_type 0));;
       iupdate ip;;
       acquire LkIcache;;
       modify (upd_inode ip (set_i_flags 0));;
       wakeup (ChInode ip));;
  modify (upd_inode ip (fun i => set_i_ref (i_ref i - 1) i));;
  release LkIcache.

Definition iunlockput (ip : nat) : K unit :=
  iunlock ip;;
  iput ip.

(** ** Inode content: the block addresses *)

Definition bmap (ip : nat) (bn : Z) : K Z :=
  i ← getinode ip;
  if bn <? NDIRECT then
    let addr := i_addrs i !!! Z.to_nat bn in
    if addr =? 0 then
      addr ← balloc (i_dev i);
      modify (upd_inode ip (set_addr (Z.to_nat bn) addr));;
      mret addr
    else mret addr
  else
    let bn := bn - NDIRECT in
    if bn <? NINDIRECT then
      addr ←
        (let addr := i_addrs i !!! Z.to_nat NDIRECT in
         if addr =? 0 then
           addr ← balloc (i_dev i);
           modify (upd_inode ip (set_addr (Z.to_nat NDIRECT) addr));;
           mret addr
         else mret addr);
      i ← getinode ip;
      bp ← bread (i_dev i) addr;
      r ← getbuf bp;
      addr ←
        (let addr := rd 4 (4 * Z.to_nat bn) (b_data r) in
         if addr =? 0 then
           addr ← balloc (i_dev i);
           modify (upd_buf bp (fun r => set_b_data (wr 4 (4 * Z.to_nat bn) addr (b_data r)) r));;
           log_write bp;;
           mret addr
         else mret addr);
      brelse bp;;
      mret addr
    else panic "bmap: out of range".

(** [struct stat] of [stat.h], as [stati] fills it in. *)
Record stat := mkstat {
  st_type : Z;
  st_dev : Z;
  st_ino : Z;
  st_nlink : Z;
  st_size : Z;
}.

Definition stati (ip : nat) : K stat :=
  i ← getinode ip;
  mret (mkstat (i_type i) (i_dev i) (i_inum i) (i_nlink i) (i_size i)).

End Inode.
