(* ===== verification/Console.v ===== *)
(** * The console ([console.c]): output, and the device behind its inode

    Characters given to [consputc] are appended to [k_out]; [cgaputc] says
    what they make of the screen.  Input arrives through [consoleintr]
    (file [ConsoleIntr]) and leaves through [consoleread]. *)

From S2P Require Import Prelude Monad State Sched Bio BioSpec Layout Log Inode.

Definition ch_nl : Z := 10.
Definition ch_minus : Z := 45.
Definition ch_percent : Z := 37.
Definition BACKSPACE : Z := 256.
Definition INPUT_BUF : Z := 128.
(** [C('D')] *)
Definition ch_eof : Z := 4.

(** ** Formatting *)

(** [digits[d]] of the kernel's [printint], for [d < 16]. *)
Definition digit (d : Z) : Z := if d <? 10 then 48 + d else 87 + d.

(** [do buf[i++] = digits[x % base]; while((x /= base) != 0)].  A 32-bit
    number has at most 32 digits in any base. *)
Fixpoint print_digits (fuel : nat) (x base : Z) : list Z :=
  match fuel with
  | O => []
  | S fuel' =>
      digit (x mod base) ::
      (if x / base =? 0 then [] else print_digits fuel' (x / base) base)
  end.

(** The characters [printint] prints. *)
Definition printint_chars (xx base : Z) (sign : bool) : list Z :=
  let neg := sign && (xx <? 0) in
  let x := if neg then u32 (- xx) else u32 xx in
  reverse (print_digits 32 x base ++ (if neg then [ch_minus] else [])).

(** An argument of [cprintf]: a 32-bit integer or a string ([None] for a null
    pointer). *)
Inductive arg := AInt (x : Z) | AStr (s : option (list Z)).

Definition ch_d : Z := 100.
Definition ch_x : Z := 120.
Definition ch_p : Z := 112.
Definition ch_s : Z := 115.
(** ["(null)"] *)
Definition str_null : list Z := [40; 110; 117; 108; 108; 41].

(** The characters [cprintf] prints for a format: [None] when it reads an
    argument it was not given. *)
Fixpoint cprintf_chars (fmt : list Z) (args : list arg) : option (list Z) :=
  match fmt with
  | [] => Some []
  | c :: fmt' =>
      if negb (c =? ch_percent) then cons c <$> cprintf_chars fmt' args
      else
        match fmt' with
        | [] => Some []
        | c :: fmt'' =>
            if c =? ch_d then
              match args with
              | AInt x :: args' => app (printint_chars x 10 true) <$> cprintf_chars fmt'' args'
              | _ => None
              end
            else if (c =? ch_x) || (c =? ch_p) then
              match args with
              | AInt x :: args' => app (printint_chars x 16 false) <$> cprintf_chars fmt'' args'
              | _ => None
              end
            else if c =? ch_s then
              match args with
              | AStr s :: args' => app (default str_null s) <$> cprintf_chars fmt'' args'
              | _ => None
              end
            else if c =? ch_percent then cons ch_percent <$> cprintf_chars fmt'' args
            else app [ch_percent; c] <$> cprintf_chars fmt'' args
        end
  end.

Definition consputc (c : Z) : K unit := modify (fun s => set_k_out (k_out s ++ [c]) s).

Definition printint (xx base : Z) (sign : bool) : K unit :=
  for_each (printint_chars xx base sign) consputc.

Definition cprintf (fmt : list Z) (args : list arg) : K unit :=
  locking ← gets k_locking;
  when locking (acquire LkCons);;
  match cprintf_chars fmt args with
  | Some l => for_each l consputc
  | None => undef
  end;;
  when locking (release LkCons).

(** ** The screen *)

(** The CGA text memory, 25 rows of 80 cells, and the cursor. *)
Record cga := mkcga { crt_pos : Z; crt : list Z }.

Definition cga_blank (c : Z) : Z := Z.lor c 1792.

Definition cgaputc (c : Z) (s : cga) : cga :=
  let pos := crt_pos s in
  let '(pos, cells) :=
    if c =? ch_nl then (pos + (80 - pos mod 80), crt s)
    else if c =? BACKSPACE then ((if 0 <? pos then pos - 1 else pos), crt s)
    else (pos + 1, <[Z.to_nat pos := cga_blank (Z.land c 255)]> (crt s)) in
  let '(pos, cells) :=
    if 24 <=? pos / 80 then
      (* scroll up *)
      let cells := splice 0 (slice 80 (23 * 80) cells) cells in
      let pos := pos - 80 in
      (pos, splice (Z.to_nat pos) (replicate (Z.to_nat (24 * 80 - pos)) 0) cells)
    else (pos, cells) in
  mkcga pos (<[Z.to_nat pos := cga_blank 32]> cells).

(** ** The console device *)

Section Console.
Context {WF : WakeFuel}.

(** [consoleread]: the return value and the bytes stored at [dst]. *)
Definition consoleread (ip : nat) (n : Z) : K (Z * list Z) :=
  iunlock ip;;
  let target := u32 n in
  acquire LkInput;;
  r ← loop (S (Z.to_nat n)) (fun '(n, dst) =>
    if 0 <? n then
      ok ← loop (S wake_fuel) (fun _ : unit =>
        inp ← gets k_input;
        if in_r inp =? in_w inp then
          p ← curproc;
          pr ← getproc p;
          if p_killed pr then
            release LkInput;;
            ilock ip;;
            mret (inr false)
          else
            sleep ChInput LkInput;;
            mret (inl tt)
        else mret (inr true)) tt;
      if negb ok then mret (inr (inl dst))
      else
        inp ← gets k_input;
        let c := in_buf inp !!! Z.to_nat (in_r inp mod INPUT_BUF) in
        modify (set_k_input (set_in_r (u32 (in_r inp + 1)) inp));;
        if c =? ch_eof then
          when (n <? target)
            (inp ← gets k_input;
             modify (set_k_input (set_in_r (u32 (in_r inp - 1)) inp)));;
          mret (inr (inr (n, dst)))
        else if c =? ch_nl then mret (inr (inr (n - 1, dst ++ [c])))
        else mret (inl (n - 1, dst ++ [c]))
    else mret (inr (inr (n, dst)))) (n, []);
  match r with
  | inl dst => mret (-1, dst)
  | inr (n, dst) =>
      release LkInput;;
      ilock ip;;
      mret (s32 (target - n), dst)
  end.

(** [consolewrite] of the [n] bytes [src]. *)
Definition consolewrite (ip : nat) (src : list Z) (n : Z) : K Z :=
  iunlock ip;;
  acquire LkCons;;
  for_each (take (Z.to_nat n) src) (fun c => consputc (Z.land c 255));;
  release LkCons;;
  ilock ip;;
  mret n.

End Console.

(** [consoleinit], without the interrupt controllers. *)
Definition consoleinit : K unit :=
  modify (fun s => set_k_devsw (<[Z.to_nat CONSOLE := Some DevConsole]> (k_devsw s)) s);;
  modify (set_k_locking true).
