(* ===== verification/Content.v ===== *)
(** * File contents, directories and paths ([fs.c], second half)

    [readi] returns the bytes it stores at [dst], [writei] takes the bytes at
    [src].  Path names are lists of bytes without the terminating NUL; the
    [name] buffers of [DIRSIZ] bytes are lists of that length. *)

From S2P Require Import Prelude Monad State Strings Sched Bio BioSpec Layout Log Inode Console.

Definition ch_slash : Z := 47.

(** ** Paths *)

Fixpoint skip_slashes (path : list Z) : list Z :=
  match path with
  | c :: path' => if c =? ch_slash then skip_slashes path' else path
  | [] => []
  end.

(** The loop up to the next slash or NUL: the element and the rest. *)
Fixpoint split_elem (path : list Z) : list Z * list Z :=
  match path with
  | c :: path' =>
      if c =? ch_slash then ([], path)
      else let '(e, rest) := split_elem path' in (c :: e, rest)
  | [] => ([], [])
  end.

(** [skipelem path name]: the rest of the path and the new contents of
    [name], or [None] for the null pointer. *)
Definition skipelem (path name : list Z) : option (list Z * list Z) :=
  match skip_slashes path with
  | [] => None
  | path =>
      let '(s, path) := split_elem path in
      let len := length s in
      let name :=
        if (DIRSIZ <=? len)%nat then splice 0 (take DIRSIZ s) name
        else <[len := 0]> (splice 0 s name) in
      Some (skip_slashes path, name)
  end.

Definition namecmp (s t : list Z) : Z := strncmp_l DIRSIZ s t.

Section Content.
Context {WF : WakeFuel}.

(** ** Contents *)

Definition readi (ip : nat) (off n : Z) : K (Z * list Z) :=
  i ← getinode ip;
  if i_type i =? T_DEV then
    devsw ← gets k_devsw;
    if (i_major i <? 0) || (NDEV <=? i_major i) then mret (-1, [])
    else
      match devsw !! Z.to_nat (i_major i) with
      | Some (Some DevConsole) => consoleread ip (s32 n)
      | _ => mret (-1, [])
      end
  else if (i_size i <? off) || (u32 (off + n) <? off) then mret (-1, [])
  else
    let n := if i_size i <? u32 (off + n) then u32 (i_size i - off) else n in
    dst ← loop (Z.to_nat (n / BSIZE) + 3) (fun '(tot, off, dst) =>
      if tot <? n then
        a ← bmap ip (off / BSIZE);
        bp ← bread (i_dev i) a;
        let m := Z.min (n - tot) (BSIZE - off mod BSIZE) in
        r ← getbuf bp;
        brelse bp;;
        mret (inl (tot + m, off + m,
                   dst ++ slice (Z.to_nat (off mod BSIZE)) (Z.to_nat m) (b_data r)))
      else mret (inr dst)) (0, off, []);
    mret (n, dst).

Definition writei (ip : nat) (src : list Z) (off n : Z) : K Z :=
  i ← getinode ip;
  if i_type i =? T_DEV then
    devsw ← gets k_devsw;
    if (i_major i <? 0) || (NDEV <=? i_major i) then mret (-1)
    else
      match devsw !! Z.to_nat (i_major i) with
      | Some (Some DevConsole) => consolewrite ip src (s32 n)
      | _ => mret (-1)
      end
  else if (i_size i <? off) || (u32 (off + n) <? off) then mret (-1)
  else if MAXFILE * BSIZE <? u32 (off + n) then mret (-1)
  else
    off ← loop (Z.to_nat (n / BSIZE) + 3) (fun '(tot, off, src) =>
      if tot <? n then
        a ← bmap ip (off / BSIZE);
        bp ← bread (i_dev i) a;
        let m := Z.min (n - tot) (BSIZE - off mod BSIZE) in
        modify (upd_buf bp (fun r => set_b_data
          (splice (Z.to_nat (off mod BSIZE)) (take (Z.to_nat m) src) (b_data r)) r));;
        log_write bp;;
        brelse bp;;
        mret (inl (tot + m, off + m, drop (Z.to_nat m) src))
      else mret (inr off)) (0, off, src);
    i ← getinode ip;
    when ((0 <? n) && (i_size i <? off))
      (modify (upd_inode ip (set_i_size off));;
       iupdate ip);;
    mret n.

(** ** Directories *)

(** [dirlookup]: the entry's inode and its offset. *)
Definition dirlookup (dp : nat) (name : list Z) : K (option (nat * Z)) :=
  d ← getinode dp;
  if negb (i_type d =? T_DIR) then panic "dirlookup not DIR"
  else
    loop (Z.to_nat (i_size d / DIRENT_SIZE) + 2) (fun off =>
      d ← getinode dp;
      if off <? i_size d then
        '(r, de) ← readi dp off DIRENT_SIZE;
        if negb (r =? DIRENT_SIZE) then panic "dirlink read"
        else
          let de := dec_dirent de in
          if de_inum de =? 0 then mret (inl (off + DIRENT_SIZE))
          else if namecmp name (de_name de) =? 0 then
            ip ← iget (i_dev d) (de_inum de);
            mret (inr (Some (ip, off)))
          else mret (inl (off + DIRENT_SIZE))
      else mret (inr None)) 0.

Definition dirlink (dp : nat) (name : list Z) (inum : Z) : K Z :=
  f ← dirlookup dp name;
  match f with
  | Some (ip, _) => iput ip;; mret (-1)
  | None =>
      d ← getinode dp;
      off ← loop (Z.to_nat (i_size d / DIRENT_SIZE) + 2) (fun off =>
        d ← getinode dp;
        if off <? i_size d then
          '(r, de) ← readi dp off DIRENT_SIZE;
          if negb (r =? DIRENT_SIZE) then panic "dirlink read"
          else if de_inum (dec_dirent de) =? 0 then mret (inr off)
          else mret (inl (off + DIRENT_SIZE))
        else mret (inr off)) 0;
      let de := mkdirent (u16 inum) (strncpy_l DIRSIZ name) in
      r ← writei dp (enc_dirent de) off DIRENT_SIZE;
      if negb (r =? DIRENT_SIZE) then panic "dirlink"
      else mret 0
  end.

(** ** Path lookup *)

(** [namex path nameiparent name]: the inode, and the contents of the
    caller's [name] buffer.  Every round consumes at least one byte of the
    path. *)
Definition namex (path : list Z) (nameiparent : bool) (name : list Z) :
    K (option nat * list Z) :=
  ip ←
    (if cchar path =? ch_slash then iget ROOTDEV ROOTINO
     else
       p ← curproc;
       r ← getproc p;
       match p_cwd r with
       | Some cwd => idup cwd
       | None => undef
       end);
  r ← loop (S (length path)) (fun '(ip, path, name) =>
    match skipelem path name with
    | None => mret (inr (inr (ip, name)))
    | Some (path, name) =>
        ilock ip;;
        i ← getinode ip;
        if negb (i_type i =? T_DIR) then
          iunlockput ip;;
          mret (inr (inl (None, name)))
        else if nameiparent && (cchar path =? 0) then
          iunlock ip;;
          mret (inr (inl (Some ip, name)))
        else
          next ← dirlookup ip name;
          match next with
          | None =>
              iunlockput ip;;
              mret (inr (inl (None, name)))
          | Some (next, _) =>
              iunlockput ip;;
              mret (inl (next, path, name))
          end
    end) (ip, path, name);
  match r with
  | inl r => mret r
  | inr (ip, name) =>
      if nameiparent then
        iput ip;;
        mret (None, name)
      else mret (Some ip, name)
  end.

Definition namei (path : list Z) : K (option nat) :=
  r ← namex path false (replicate DIRSIZ 0);
  mret (fst r).

Definition nameiparent (path name : list Z) : K (option nat * list Z) :=
  namex path true name.

End Content.
