(* ===== verification/FsSpec.v ===== *)
(** * File system operations inside a transaction

    [tx F s V H]: a file system call is running between [begin_op] and
    [end_op]; the cache and the log present the sectors [V]; the call holds
    the buffers [H] and will log sectors of [F] only.  The log has room for
    them, so no [log_write] of the call panics.  On top of it, the block
    allocator: the free blocks of the bitmap as a list, what [balloc] takes
    from it and [bfree] puts back. *)

From S2P Require Import Prelude Monad State Sched Bio BioSpec Layout Log Crash LogSpec.
From S2P Require Import LogCrash Txn Inode.

(** ** Footprints *)

Record tx (start size : Z) (F : gset Z) (s : kstate) (V : Z -> list Z) (H : gmap nat Z)
  : Prop := {
  tx_inv : txn_inv start size s V H;
  tx_room : Z.of_nat (base.size (logged (k_log s) ∪ F)) <= size - 2;
  tx_home : forall n, n ∈ F -> 2 <= n < start;
  tx_out : 1 <= l_outstanding (k_log s);
  tx_lock : LkLog ∉ k_held s;
}.

Section Tx.
Context {WF : WakeFuel}.
Context (start size : Z).
Implicit Types (V : Z -> list Z) (H : gmap nat Z) (F : gset Z).

Lemma size_logged l : log_wf start size l -> NoDup (txn l) ->
  Z.of_nat (base.size (logged l)) = l_n l.
Proof.
  intros W Hnd. unfold logged. rewrite size_list_to_set by done. unfold txn.
  pose proof (lw_n _ _ _ W). rewrite length_take, (lw_len _ _ _ W). lia.
Qed.

Lemma tx_few F s V H : tx start size F s V H -> l_n (k_log s) <= size - 2 /\ size <= 30.
Proof.
  intros [T R _ _ _]. rewrite <- (size_logged (k_log s)) by apply T.
  pose proof (ci_size _ _ _ _ (ti_crash _ _ _ _ _ T)) as Hz. rewrite LOGSIZE_eq in Hz.
  assert (base.size (logged (k_log s)) <= base.size (logged (k_log s) ∪ F))%nat.
  { apply subseteq_size. set_solver. }
  lia.
Qed.

(** A smaller footprint needs less room. *)
Lemma tx_subset F F' s V H : F' ⊆ F -> tx start size F s V H -> tx start size F' s V H.
Proof.
  intros HF [T R Hh Ho Hl]. split; auto.
  assert (base.size (logged (k_log s) ∪ F') <= base.size (logged (k_log s) ∪ F))%nat.
  { apply subseteq_size. set_solver. }
  lia.
Qed.

Lemma tx_proper F s V V' H : (forall n, V n = V' n) -> tx start size F s V H -> tx start size F s V' H.
Proof. intros E [T ? ? ? ?]. split; auto. by apply (txn_inv_proper start size s V). Qed.

Lemma tx_frame F s s' V V' H H' :
  tx start size F s V H -> k_log s' = k_log s -> k_held s' = k_held s ->
  txn_inv start size s' V' H' -> tx start size F s' V' H'.
Proof. intros [T R Hh Ho Hl] El Eh T'. split; rewrite ?El, ?Eh; auto. Qed.

Lemma tx_vlen F s V H n : tx start size F s V H -> length (V n) = Z.to_nat BSIZE.
Proof. intros T. apply (bi_vlen _ _ _ _ _ (proj1 (ti_bio _ _ _ _ _ (tx_inv _ _ _ _ _ _ T)))). Qed.

Lemma tx_disk F s V H : tx start size F s V H -> start < dk_size (k_disk s).
Proof.
  intros T. pose proof (ci_geom _ _ _ _ (ti_crash _ _ _ _ _ (tx_inv _ _ _ _ _ _ T))) as [].
  lia.
Qed.

(** A block that no held buffer has changed is either logged or as on disk. *)
Lemma tx_clean F s V H n : tx start size F s V H -> (forall b, H !! b <> Some n) ->
  (n ∈ logged (k_log s)) \/ V n = blk (k_disk s) n.
Proof.
  intros T Hn. destruct (decide (n ∈ logged (k_log s))) as [|Hl]; [by left|right].
  by apply (bio_off_disk_held s V H (logged (k_log s))); [apply T|..].
Qed.

Definition clean (s : kstate) V (n : Z) : Prop :=
  (n ∈ logged (k_log s)) \/ V n = blk (k_disk s) n.

(** What the steps of a transaction leave alone: all but the cache, sleeping
    processes and the log, which only grows. *)
Record tframe (s s' : kstate) : Prop := {
  tf_frame : lframe s s';
  tf_disk : k_disk s' = k_disk s;
  tf_log : logged (k_log s) ⊆ logged (k_log s');
  tf_ops : l_outstanding (k_log s') = l_outstanding (k_log s) /\
    l_committing (k_log s') = l_committing (k_log s);
}.

#[global] Instance tframe_refl : Reflexive tframe.
Proof. intros s. split; [by apply lframe_bio|done|done|done]. Qed.
#[global] Instance tframe_trans : Transitive tframe.
Proof.
  intros s1 s2 s3 [F1 D1 L1 [O1 C1]] [F2 D2 L2 [O2 C2]].
  split; [by etrans|congruence|by etrans|split; congruence].
Qed.

Lemma tframe_bio s s' : bio_frame s s' -> k_disk s' = k_disk s -> tframe s s'.
Proof. intros F E. split; [by apply lframe_bio|done|..]; by rewrite (bio_frame_log _ _ F). Qed.

Lemma tframe_inodes s s' : tframe s s' -> k_inodes s' = k_inodes s.
Proof. intros [Fr _ _ _]. by rewrite (bio_frame_inodes _ _ Fr). Qed.
Lemma tframe_held s s' : tframe s s' -> k_held s' = k_held s.
Proof. intros [Fr _ _ _]. by rewrite (bio_frame_held _ _ Fr). Qed.

Lemma clean_frame s s' V V' n : tframe s s' -> clean s V n -> V' n = V n -> clean s' V' n.
Proof. intros [_ D L _] [Hl|E] HV; [left; by apply L|right; by rewrite D, HV]. Qed.

Lemma wp_tx_bread F s V H n :
  tx start size F s V H -> n <= start -> (forall i, H !! i <> Some n) ->
  (base.size H <= 1)%nat ->
  wp (bread 1 n) (fun b s' => tframe s s' /\ tx start size F s' V (<[b := n]> H) /\
    H !! b = None /\ b_data (k_bufs s' !!! b) = V n /\ clean s' V n) s.
Proof.
  intros T Hn HH Hs. pose proof (tx_few _ _ _ _ T). pose proof (tx_disk _ _ _ _ T).
  pose proof (tx_clean _ _ _ _ n T HH) as Hcl.
  wapply (wp_txn_bread start size s V H n); [apply T|lia|done|left|].
  { rewrite <- (size_logged (k_log s)) in * by apply T. rewrite NBUF_eq. lia. }
  intros b s' (Fr & T' & N & Hd & E). pose proof (tframe_bio s s' Fr E) as Tf.
  split; [done|]. split; [|split; [done|split; [done|by apply (clean_frame s s' V)]]].
  apply (tx_frame F s s' V V H); auto; [by apply bio_frame_log|by apply bio_frame_held].
Qed.

Lemma wp_tx_brelse F s V H b n :
  tx start size F s V H -> H !! b = Some n -> clean s V n ->
  wp (brelse b) (fun _ s' => tframe s s' /\ tx start size F s' V (delete b H)) s.
Proof.
  intros T Hb Hn. wapply (wp_txn_brelse start size s V H b n); [apply T|done..|].
  intros [] s' (Fr & T' & E). split; [by apply tframe_bio|].
  apply (tx_frame F s s' V V H); auto; [by apply bio_frame_log|by apply bio_frame_held].
Qed.

Lemma wp_tx_log_write F s V H b n :
  tx start size F s V H -> H !! b = Some n -> n ∈ F ->
  wp (log_write b) (fun _ s' => tframe s s' /\ tx start size F s' V H /\ clean s' V n) s.
Proof.
  intros T Hb Hn. pose proof (tx_few _ _ _ _ T) as [Hr Hz].
  destruct T as [TI R Hh Ho Hl].
  wapply (wp_log_write start size s V H b n); [done..|by apply Hh|lia|done|done|].
  intros [] s' (Fr & T' & L & E).
  assert (logged (k_log s') = {[n]} ∪ logged (k_log s)) as EL.
  { rewrite L. apply (log_add_logged start size); [apply TI|rewrite LOGSIZE_eq; lia]. }
  assert (l_outstanding (k_log s') = l_outstanding (k_log s) /\
    l_committing (k_log s') = l_committing (k_log s)) as Hops.
  { rewrite L. unfold log_add. by case_decide. }
  split; [split; [done|done|set_solver|done]|]. split; [|left; set_solver].
  assert (k_held s' = k_held s) as Eh by (by rewrite (bio_frame_held _ _ Fr)).
  split; auto.
  - rewrite EL. replace ({[n]} ∪ logged (k_log s) ∪ F) with (logged (k_log s) ∪ F) by set_solver.
    done.
  - destruct Hops as [-> _]. done.
  - by rewrite Eh.
Qed.

(** Assigning to the data of a held buffer. *)
Lemma tx_assign F s V H b n f :
  tx start size F s V H -> H !! b = Some n -> length (f (V n)) = Z.to_nat BSIZE ->
  let s' := upd_buf b (fun r => set_b_data (f (b_data r)) r) s in
  tframe s s' /\ tx start size F s' (<[n := f (V n)]> V) H.
Proof.
  intros T Hb Hf s'. destruct (txn_assign start size s V H b n f) as (Fr & T' & E); [apply T|done..|].
  split; [by apply tframe_bio|]. by apply (tx_frame F s s' V _ H).
Qed.

(** Assign, [log_write], [brelse]: how every function changes a sector. *)
Lemma wp_tx_update F s V H b n f :
  tx start size F s V H -> H !! b = Some n -> n ∈ F -> length (f (V n)) = Z.to_nat BSIZE ->
  wp (modify (upd_buf b (fun r => set_b_data (f (b_data r)) r));; log_write b;; brelse b)
    (fun _ s' => tframe s s' /\ tx start size F s' (<[n := f (V n)]> V) (delete b H)) s.
Proof.
  intros T Hb Hn Hf. wstep. destruct (tx_assign F s V H b n f T Hb Hf) as [F1 T1].
  wapply wp_tx_log_write; [done..|]. intros [] s2 (F2 & T2 & Hl).
  wapply (wp_tx_brelse F s2); [done..|]. intros [] s3 (F3 & T3).
  split; [|done]. etrans; [done|]. by etrans.
Qed.

Lemma wp_tx_update_then {A} F s V H b n f (k : K A) Q :
  tx start size F s V H -> H !! b = Some n -> n ∈ F -> length (f (V n)) = Z.to_nat BSIZE ->
  (forall s', tframe s s' -> tx start size F s' (<[n := f (V n)]> V) (delete b H) -> wp k Q s') ->
  wp (modify (upd_buf b (fun r => set_b_data (f (b_data r)) r));; log_write b;; brelse b;; k) Q s.
Proof.
  intros T Hb Hn Hf Hk.
  destruct (wp_tx_update F s V H b n f T Hb Hn Hf) as ([] & s' & E & F' & T').
  destruct (Hk s' F' T') as (a & s2 & E2 & HQ). exists a, s2. split; [|done].
  apply bind_inv_Ret in E as ([] & s1 & E1 & E). erewrite bind_Ret by exact E1.
  apply bind_inv_Ret in E as ([] & s3 & E3 & E). erewrite bind_Ret by exact E3.
  by erewrite bind_Ret.
Qed.

Lemma wpp_tx_update_then {A} F s V H b n f (k : K A) Q E :
  tx start size F s V H -> H !! b = Some n -> n ∈ F -> length (f (V n)) = Z.to_nat BSIZE ->
  (forall s', tframe s s' -> tx start size F s' (<[n := f (V n)]> V) (delete b H) -> wpp k Q E s') ->
  wpp (modify (upd_buf b (fun r => set_b_data (f (b_data r)) r));; log_write b;; brelse b;; k) Q E s.
Proof.
  intros T Hb Hn Hf Hk. wstep. destruct (tx_assign F s V H b n f T Hb Hf) as [F1 T1].
  wapply wp_tx_log_write; [done..|]. intros [] s2 (F2 & T2 & Hl).
  wapply (wp_tx_brelse F s2); [done..|]. intros [] s3 (F3 & T3).
  apply Hk; [|done]. etrans; [done|]. by etrans.
Qed.

(** [readsb]: the superblock is never logged. *)
Lemma wp_tx_readsb F s V H :
  tx start size F s V H -> (forall i, H !! i <> Some 1) -> (base.size H <= 1)%nat -> 1 <= start ->
  wp (readsb 1) (fun sb s' => tframe s s' /\ tx start size F s' V H /\
    sb = dec_superblock (V 1)) s.
Proof.
  intros T HH Hs Hst. unfold readsb. wapply (wp_tx_bread F s V H 1); [done..|].
  intros b s1 (F1 & T1 & N1 & D1 & C1). wstep. rewrite D1.
  wapply (wp_tx_brelse F s1 V _ b 1); [done|by rewrite lookup_insert_eq|done|].
  intros [] s2 (F2 & T2). rewrite delete_insert_id in T2 by done.
  apply wp_ret. split; [by etrans|]. done.
Qed.

End Tx.

(** ** The block bitmap *)

Lemma land_bit x k : 0 <= k -> (Z.land x (Z.shiftl 1 k) =? 0) = negb (Z.testbit x k).
Proof.
  intros Hk. rewrite Z.shiftl_1_l. destruct (Z.testbit x k) eqn:E; simpl.
  - apply Z.eqb_neq. intros H0. assert (Z.testbit (Z.land x (2 ^ k)) k = false) as Hc.
    { by rewrite H0, Z.bits_0. }
    by rewrite Z.land_spec, E, Z.pow2_bits_true in Hc.
  - apply Z.eqb_eq. apply Z.bits_inj. intros j. rewrite Z.bits_0, Z.land_spec.
    destruct (decide (j = k)) as [->|Hne]; [by rewrite E|].
    rewrite Z.pow2_bits_false by done. by rewrite andb_false_r.
Qed.

Lemma testbit_u8 x k : 0 <= k < 8 -> Z.testbit (u8 x) k = Z.testbit x k.
Proof. intros Hk. unfold u8. rewrite Z.mod_pow2_bits_low; [done|lia]. Qed.

Lemma bit_clear_spec bi data :
  bit_clear bi data = negb (Z.testbit (bit_byte bi data) (bi mod 8)).
Proof. unfold bit_clear, bit_mask. apply land_bit. apply Z.mod_pos_bound. lia. Qed.

Section Bits.
Context (data : list Z) (Hlen : length data = Z.to_nat BSIZE).

(** Setting or clearing one bit of the bitmap changes that bit only. *)
Lemma set_bit_clear bi bj x (v : bool) :
  0 <= bi < BPB -> 0 <= bj < BPB ->
  (forall k, 0 <= k < 8 -> Z.testbit x k =
     if decide (k = bi mod 8) then v else Z.testbit (bit_byte bi data) k) ->
  bit_clear bj (<[Z.to_nat (bi / 8) := u8 x]> data)
  = if decide (bj = bi) then negb v else bit_clear bj data.
Proof.
  intros Hi Hj Hx. rewrite !bit_clear_spec. unfold bit_byte.
  pose proof (Z.mod_pos_bound bi 8 ltac:(lia)). pose proof (Z.mod_pos_bound bj 8 ltac:(lia)).
  pose proof (Z.div_mod bi 8 ltac:(lia)). pose proof (Z.div_mod bj 8 ltac:(lia)).
  assert (BPB = 4096) as EB by reflexivity. assert (Z.to_nat BSIZE = 512%nat) as ES by reflexivity.
  assert (0 <= bi / 8 < 512) by (split; [apply Z.div_pos; lia|apply Z.div_lt_upper_bound; lia]).
  assert (0 <= bj / 8 < 512) by (split; [apply Z.div_pos; lia|apply Z.div_lt_upper_bound; lia]).
  destruct (decide (bj / 8 = bi / 8)) as [Eq|Hne].
  - rewrite Eq. rewrite list_lookup_total_insert_eq by lia. rewrite testbit_u8, Hx by done.
    destruct (decide (bj = bi)) as [->|Hne]; [by rewrite decide_True|].
    rewrite decide_False by lia. unfold bit_byte. done.
  - rewrite list_lookup_total_insert_ne by lia. rewrite decide_False by congruence. done.
Qed.

Lemma bit_clear_mark bi bj :
  0 <= bi < BPB -> 0 <= bj < BPB ->
  bit_clear bj (mark_bit bi data) = if decide (bj = bi) then false else bit_clear bj data.
Proof.
  intros Hi Hj. unfold mark_bit. rewrite (set_bit_clear bi bj _ true) by first
    [done | intros k Hk; unfold bit_mask; rewrite Z.shiftl_1_l, Z.lor_spec;
      case_decide as E; [subst; rewrite Z.pow2_bits_true by lia; by rewrite orb_true_r|];
      rewrite Z.pow2_bits_false by lia; by rewrite orb_false_r].
  done.
Qed.

Lemma bit_clear_unmark bi bj :
  0 <= bi < BPB -> 0 <= bj < BPB ->
  bit_clear bj (unmark_bit bi data) = if decide (bj = bi) then true else bit_clear bj data.
Proof.
  intros Hi Hj. unfold unmark_bit. rewrite (set_bit_clear bi bj _ false) by first
    [done | intros k Hk; unfold bit_mask; rewrite Z.shiftl_1_l, Z.land_spec, Z.lnot_spec by lia;
      case_decide as E; [subst; rewrite Z.pow2_bits_true by lia; by rewrite andb_false_r|];
      rewrite Z.pow2_bits_false by lia; by rewrite andb_true_r].
  done.
Qed.

End Bits.

(** ** Free blocks *)

Definition sbv (V : Z -> list Z) : superblock := dec_superblock (V 1).
(** The bitmap block of block [b], and whether its bit is clear. *)
Definition bmblock (V : Z -> list Z) (b : Z) : Z := BBLOCK b (sb_ninodes (sbv V)).
Definition free (V : Z -> list Z) (b : Z) : bool := bit_clear (b mod BPB) (V (bmblock V b)).
(** The first block behind the bitmap. *)
Definition first_data (V : Z -> list Z) : Z := bmblock V (sb_size (sbv V) - 1) + 1.
Definition free_blocks (V : Z -> list Z) : list Z :=
  filter (fun b => free V b = true) (seqZ 0 (sb_size (sbv V))).

(** The bitmap is below the log, and the blocks up to its end are in use. *)
Record alloc_wf (start : Z) (V : Z -> list Z) : Prop := {
  aw_size : 0 < sb_size (sbv V);
  aw_ninodes : 0 <= sb_ninodes (sbv V);
  aw_bitmap : first_data V <= start;
  aw_free : forall b, b ∈ free_blocks V -> first_data V <= b;
}.

(** The sectors after [balloc] and after [bfree]. *)
Definition alloc_block (V : Z -> list Z) (b : Z) : Z -> list Z :=
  <[b := replicate (Z.to_nat BSIZE) 0]>
    (<[bmblock V b := mark_bit (b mod BPB) (V (bmblock V b))]> V).
Definition free_block (V : Z -> list Z) (b : Z) : Z -> list Z :=
  <[bmblock V b := unmark_bit (b mod BPB) (V (bmblock V b))]> V.

Lemma rd_nonneg w k l : Forall (fun b => 0 <= b) l -> 0 <= rd w k l.
Proof.
  intros Hl. unfold rd. assert (Forall (fun b => 0 <= b) (slice k w l)) as Hs.
  { unfold slice. auto using Forall_take, Forall_drop. }
  induction Hs; simpl; lia.
Qed.

Section Bitmap.
Implicit Types (V : Z -> list Z).

Lemma elem_of_free_blocks V b :
  b ∈ free_blocks V <-> 0 <= b < sb_size (sbv V) /\ free V b = true.
Proof.
  unfold free_blocks. rewrite list_elem_of_filter, elem_of_seqZ. split; intros []; split; auto; lia.
Qed.

Lemma NoDup_free_blocks V : NoDup (free_blocks V).
Proof. apply NoDup_filter, NoDup_seqZ. Qed.

(** Bitmap blocks of a file system with [ninodes] inodes lie from
    [ninodes/IPB + 3] up to [first_data]. *)
Lemma bmblock_range V b :
  0 <= b < sb_size (sbv V) -> sb_ninodes (sbv V) / IPB + 3 <= bmblock V b < first_data V.
Proof.
  intros Hb. unfold first_data, bmblock, BBLOCK.
  assert (0 <= b / BPB) by (apply Z.div_pos; [lia|done]).
  assert (b / BPB <= (sb_size (sbv V) - 1) / BPB) by (apply Z.div_le_mono; [done|lia]).
  lia.
Qed.

Lemma bmblock_same V b bi :
  0 <= b -> b mod BPB = 0 -> 0 <= bi < BPB ->
  bmblock V (b + bi) = bmblock V b /\ (b + bi) mod BPB = bi.
Proof.
  intros Hb Hm Hi. assert (BPB = 4096) as EB by reflexivity.
  pose proof (Z.div_mod b BPB ltac:(lia)) as Hd. rewrite Hm in Hd.
  unfold bmblock, BBLOCK. split.
  - do 2 f_equal. symmetry. apply (Z.div_unique_pos _ _ _ bi); lia.
  - symmetry. apply (Z.mod_unique_pos _ _ (b / BPB)); lia.
Qed.

(** Changing one bit of the bitmap changes one block's state. *)
Lemma free_set_bit V b (v : bool) x :
  0 < sb_size (sbv V) -> (forall n, length (V n) = Z.to_nat BSIZE) ->
  0 <= b < sb_size (sbv V) -> 2 <= bmblock V b ->
  (forall bj, 0 <= bj < BPB ->
     bit_clear bj x = if decide (bj = b mod BPB) then v else bit_clear bj (V (bmblock V b))) ->
  let V' := <[bmblock V b := x]> V in
  sbv V' = sbv V /\ forall c, 0 <= c < sb_size (sbv V) ->
    free V' c = if decide (c = b) then v else free V c.
Proof.
  intros Hsz Hlen Hb H2 Hx V'. assert (BPB = 4096) as EB by reflexivity.
  assert (sbv V' = sbv V) as E. { unfold sbv, V'. by rewrite fn_lookup_insert_ne by lia. }
  split; [done|]. intros c Hc. unfold free. assert (bmblock V' c = bmblock V c) as ->.
  { unfold bmblock. by rewrite E. }
  unfold V'. destruct (decide (bmblock V c = bmblock V b)) as [Eq|Hne].
  - rewrite Eq, fn_lookup_insert. rewrite Hx by (apply Z.mod_pos_bound; lia).
    unfold bmblock, BBLOCK in Eq.
    pose proof (Z.div_mod b BPB ltac:(lia)). pose proof (Z.div_mod c BPB ltac:(lia)).
    destruct (decide (c = b)) as [->|Hne]; [by rewrite decide_True|].
    rewrite decide_False; [done|]. intros Em. apply Hne. lia.
  - rewrite fn_lookup_insert_ne by done. rewrite decide_False by congruence. done.
Qed.

Lemma alloc_block_free V b fl :
  (forall n, length (V n) = Z.to_nat BSIZE) -> 2 <= bmblock V b -> (forall c, 0 <= c < sb_size (sbv V) -> bmblock V c <> b) ->
  2 <= b -> free_blocks V = b :: fl ->
  sbv (alloc_block V b) = sbv V /\ free_blocks (alloc_block V b) = fl.
Proof.
  intros Hlen H2 Hbm Hb2 Hf.
  assert (b ∈ free_blocks V) as [Hb _]%elem_of_free_blocks by (rewrite Hf; by left).
  destruct (free_set_bit V b false (mark_bit (b mod BPB) (V (bmblock V b)))) as [E1 E2];
    [lia|done..| |].
  { intros bj Hj. apply bit_clear_mark; [done|apply Z.mod_pos_bound; done|done]. }
  set (V1 := <[bmblock V b := _]> V) in *.
  assert (sbv (alloc_block V b) = sbv V) as E3.
  { rewrite <- E1. unfold sbv, alloc_block. by rewrite fn_lookup_insert_ne by lia. }
  split; [done|].
  pose proof (NoDup_free_blocks V) as Hnd. rewrite Hf in Hnd. apply NoDup_cons in Hnd as [Hn _].
  transitivity (filter (fun c => c <> b) (free_blocks V)).
  - unfold free_blocks. rewrite E3, list_filter_filter. apply list_filter_ext_in.
    intros c Hc%elem_of_seqZ.
    assert (free (alloc_block V b) c = free V1 c) as ->.
    { unfold free. assert (bmblock (alloc_block V b) c = bmblock V1 c) as ->.
      { unfold bmblock. by rewrite E3, E1. }
      unfold alloc_block. rewrite fn_lookup_insert_ne; [done|].
      unfold bmblock. rewrite E1. intros E. apply (Hbm c); [lia|done]. }
    rewrite E2 by lia. case_decide; naive_solver.
  - rewrite Hf, filter_cons_False by auto. by apply filter_ne_id.
Qed.

End Bitmap.

(** ** [balloc] and [bfree] *)

Lemma free_blocks_first V b :
  0 <= b < sb_size (sbv V) -> free V b = true -> (forall c, 0 <= c < b -> free V c = false) ->
  exists fl, free_blocks V = b :: fl.
Proof.
  intros Hb Hf Hn. unfold free_blocks.
  replace (sb_size (sbv V)) with (b + (sb_size (sbv V) - b)) by lia.
  rewrite seqZ_app, filter_app by lia. rewrite (filter_none _ (seqZ 0 b)).
  - rewrite Z.add_0_l, seqZ_cons by lia. simpl. rewrite filter_cons_True by done. by eexists.
  - intros c [? ?]%elem_of_seqZ. rewrite Hn by lia. done.
Qed.

Lemma free_blocks_none V :
  (forall c, 0 <= c < sb_size (sbv V) -> free V c = false) -> free_blocks V = [].
Proof.
  intros Hn. apply filter_none. intros c [? ?]%elem_of_seqZ. rewrite Hn by lia. done.
Qed.

Section Balloc.
Context {WF : WakeFuel}.
Context (start size : Z).
Implicit Types (V : Z -> list Z) (H : gmap nat Z) (F : gset Z).

(** The inner loop of [balloc], from bit [bi] on. *)
Lemma wp_balloc_find_loop fuel bp b sz bi s :
  0 <= bi <= BPB -> (Z.to_nat (BPB - bi) < fuel)%nat ->
  let data := b_data (k_bufs s !!! bp) in
  wp (loop fuel (fun bi =>
    if (bi <? BPB) && (b + bi <? sz) then
      r ← getbuf bp;
      if bit_clear bi (b_data r) then mret (inr (Some bi)) else mret (inl (bi + 1))
    else mret (inr None)) bi)
  (fun r s' => s' = s /\ match r with
    | Some c => bi <= c < BPB /\ b + c < sz /\ bit_clear c data = true /\
        forall k, bi <= k < c -> bit_clear k data = false
    | None => forall k, bi <= k < BPB -> b + k < sz -> bit_clear k data = false
    end) s.
Proof.
  revert bi. induction fuel as [|fuel IH]; intros bi Hbi Hfuel data; [lia|]. apply wp_loop.
  destruct (Z.ltb_spec bi BPB); simpl.
  2: { apply wp_ret. split; [done|]. intros; lia. }
  destruct (Z.ltb_spec (b + bi) sz); simpl.
  2: { apply wp_ret. split; [done|]. intros; lia. }
  wstep. fold data. destruct (bit_clear bi data) eqn:Ec; apply wp_ret.
  { split; [done|]. split_and!; [lia..|done|intros; lia]. }
  eapply wp_mono; [apply IH; lia|]. intros r s' [-> Hr]. split; [done|].
  destruct r as [c|].
  - destruct Hr as (? & ? & ? & Hk). split_and!; [lia..|done|].
    intros k Hk'. destruct (decide (k = bi)) as [->|]; [done|]. apply Hk. lia.
  - intros k Hk' Hs. destruct (decide (k = bi)) as [->|]; [done|]. apply Hr; lia.
Qed.

Lemma wp_bzero F s V H b :
  tx start size F s V H -> b ∈ F -> (forall i, H !! i <> Some b) -> (base.size H <= 1)%nat ->
  wp (bzero 1 b) (fun _ s' => tframe s s' /\
    tx start size F s' (<[b := replicate (Z.to_nat BSIZE) 0]> V) H) s.
Proof.
  intros T Hb HH Hs. pose proof (tx_home _ _ _ _ _ _ T b Hb).
  unfold bzero. wapply (wp_tx_bread start size F s V H b); [done|lia|done..|].
  intros bp s1 (F1 & T1 & N1 & _ & _).
  wapply (wp_tx_update start size F s1 V _ bp b (fun _ => replicate (Z.to_nat BSIZE) 0));
    [done|by rewrite lookup_insert_eq|done|by rewrite length_replicate|].
  intros [] s2 (F2 & T2). rewrite delete_insert_id in T2 by done.
  split; [by etrans|done].
Qed.

(** The buffers a caller of the allocator may hold: data blocks in use. *)
Definition holds_data V H : Prop :=
  (base.size H <= 1)%nat /\
  forall i n, H !! i = Some n -> first_data V <= n /\ n ∉ free_blocks V.

(** The body of [balloc]'s outer loop on a bitmap block. *)
Lemma wpp_balloc_loop F V H : forall fuel b s,
  tx start size F s V H -> alloc_wf start V -> holds_data V H ->
  (forall b fl, free_blocks V = b :: fl -> b ∈ F /\ bmblock V b ∈ F) ->
  0 <= b -> b mod BPB = 0 -> (forall c, 0 <= c < b -> c < sb_size (sbv V) -> free V c = false) ->
  sb_size (sbv V) - b < BPB * (Z.of_nat fuel - 1) -> (1 <= fuel)%nat ->
  wpp (loop fuel (fun b =>
    if b <? sb_size (sbv V) then
      bp ← bread 1 (BBLOCK b (sb_ninodes (sbv V)));
      f ← balloc_find bp b (sb_size (sbv V));
      match f with
      | Some bi =>
          modify (upd_buf bp (fun r => set_b_data (mark_bit bi (b_data r)) r));;
          log_write bp;;
          brelse bp;;
          bzero 1 (b + bi);;
          mret (inr (b + bi))
      | None => brelse bp;; mret (inl (b + BPB))
      end
    else panic "balloc: out of blocks") b)
  (fun b s' => exists fl, free_blocks V = b :: fl /\ tframe s s' /\
     tx start size F s' (alloc_block V b) H)
  (fun e => e = "balloc: out of blocks"%string /\ free_blocks V = []) s.
Proof.
  assert (BPB = 4096) as EB by reflexivity.
  induction fuel as [|fuel IH]; intros b s T W HD HF Hb Hm Hn Hfuel H1; [lia|].
  destruct HD as [Hs HD]. apply wpp_loop.
  destruct (Z.ltb_spec b (sb_size (sbv V))) as [Hlt|Hge].
  2: { apply wpp_panic. split; [done|]. apply free_blocks_none. intros c Hc. apply Hn; lia. }
  pose proof (bmblock_range V b ltac:(lia)) as Hbm. pose proof (aw_bitmap _ _ W).
  wapply (wp_tx_bread start size F s V H (bmblock V b)); [done|lia| |done|].
  { intros i Hi. destruct (HD i _ Hi). lia. }
  intros bp s1 (F1 & T1 & N1 & D1 & C1).
  unfold balloc_find. wapply wp_balloc_find_loop; [lia|lia|].
  intros r s1' [-> Hr]. rewrite D1 in Hr. destruct r as [bi|].
  - destruct Hr as (Hbi & Hsz & Hc & Hbefore).
    destruct (bmblock_same V b bi Hb Hm ltac:(lia)) as [Ebm Emod].
    assert (exists fl, free_blocks V = (b + bi) :: fl) as [fl Hfl].
    { apply free_blocks_first; [lia|unfold free; by rewrite Ebm, Emod|].
      intros c Hc'. destruct (decide (c < b)); [apply Hn; lia|].
      replace c with (b + (c - b)) by lia. unfold free.
      destruct (bmblock_same V b (c - b) Hb Hm ltac:(lia)) as [-> ->]. apply Hbefore. lia. }
    destruct (HF _ _ Hfl) as [HFb HFm]. rewrite Ebm in HFm. apply wpp_wp.
    pose proof (aw_free _ _ W (b + bi) ltac:(rewrite Hfl; by left)) as Hdata.
    apply (wp_tx_update_then start size F s1 V (<[bp := bmblock V b]> H) bp (bmblock V b)
      (mark_bit bi)); [done|by rewrite lookup_insert_eq|done|..].
    { unfold mark_bit. rewrite length_insert. apply (tx_vlen _ _ _ _ _ _ _ T). }
    intros s2 F2 T2. rewrite delete_insert_id in T2 by done.
    wapply (wp_bzero F s2 _ H (b + bi)); [done|done| |done|].
    { intros i Hi. destruct (HD i _ Hi) as [_ Hi']. apply Hi'. rewrite Hfl. by left. }
    intros [] s3 (F3 & T3). apply wp_ret. exists fl. split; [done|].
    split; [etrans; [done|]; by etrans|].
    unfold alloc_block. by rewrite Ebm, Emod.
  - wapply (wp_tx_brelse start size F s1 V _ bp (bmblock V b)); [done|by rewrite lookup_insert_eq|done|].
    intros [] s2 (F2 & T2). rewrite delete_insert_id in T2 by done. wstep.
    eapply wpp_mono.
    { apply (IH (b + BPB) s2); [done|done|by split|done|lia| | |lia|lia].
      - rewrite Z.add_mod, Hm, Z.mod_same by lia. done.
      - intros c Hc Hsz. destruct (decide (c < b)); [apply Hn; lia|].
        replace c with (b + (c - b)) by lia. unfold free.
        destruct (bmblock_same V b (c - b) Hb Hm ltac:(lia)) as [-> ->]. apply Hr; lia. }
    intros c s3 (fl & Hfl & F3 & T3). exists fl. split; [done|]. split; [|done].
    etrans; [done|]. by etrans.
Qed.

Lemma aw_low V : alloc_wf start V -> 3 < first_data V.
Proof.
  intros W. pose proof (aw_size _ _ W). pose proof (bmblock_range V 0 ltac:(lia)).
  assert (0 <= sb_ninodes (sbv V) / IPB) by (apply Z.div_pos; [apply (aw_ninodes _ _ W)|done]). lia.
Qed.

Lemma wpp_balloc F s V H :
  tx start size F s V H -> alloc_wf start V -> holds_data V H ->
  (forall b fl, free_blocks V = b :: fl -> b ∈ F /\ bmblock V b ∈ F) ->
  wpp (balloc 1)
    (fun b s' => exists fl, free_blocks V = b :: fl /\ tframe s s' /\
       tx start size F s' (alloc_block V b) H)
    (fun e => e = "balloc: out of blocks"%string /\ free_blocks V = []) s.
Proof.
  intros T W HD HF. assert (BPB = 4096) as EB by reflexivity.
  pose proof (aw_size _ _ W) as Hsz. pose proof (aw_low _ W) as Hlow.
  pose proof (aw_bitmap _ _ W). unfold balloc.
  wapply (wp_tx_readsb start size F s V H); [done| |apply HD|lia|].
  { intros i Hi. destruct HD as [_ HD]. destruct (HD i _ Hi). lia. }
  intros sb s1 (F1 & T1 & ->). fold (sbv V).
  pose proof (Z.div_mod (sb_size (sbv V)) BPB ltac:(lia)).
  pose proof (Z.mod_pos_bound (sb_size (sbv V)) BPB ltac:(lia)).
  assert (0 <= sb_size (sbv V) / BPB) by (apply Z.div_pos; lia).
  eapply wpp_mono; [apply (wpp_balloc_loop F V H); [done..|lia|done|intros; lia|lia|lia]|].
  intros b s2 (fl & Hfl & F2 & T2). exists fl. split; [done|]. split; [by etrans|done].
Qed.

(** Allocation keeps the bitmap well formed. *)
Lemma alloc_block_wf V b fl :
  (forall n, length (V n) = Z.to_nat BSIZE) -> alloc_wf start V -> free_blocks V = b :: fl ->
  sbv (alloc_block V b) = sbv V /\ free_blocks (alloc_block V b) = fl /\
  alloc_wf start (alloc_block V b).
Proof.
  intros Hlen W Hfl. pose proof (aw_low _ W) as Hlow.
  assert (b ∈ free_blocks V) as Hin by (rewrite Hfl; by left).
  pose proof (aw_free _ _ W b Hin) as Hb. apply elem_of_free_blocks in Hin as [Hbs _].
  pose proof (bmblock_range V b Hbs).
  assert (0 <= sb_ninodes (sbv V) / IPB) by (apply Z.div_pos; [apply (aw_ninodes _ _ W)|done]).
  destruct (alloc_block_free V b fl) as [E1 E2]; [done|lia| |lia|done|].
  { intros c Hc. pose proof (bmblock_range V c Hc). lia. }
  assert (first_data (alloc_block V b) = first_data V) as E3.
  { unfold first_data, bmblock. by rewrite E1. }
  split_and!; [done..|]. split; rewrite ?E1, ?E2, ?E3; try apply W.
  intros c Hc. apply (aw_free _ _ W). rewrite Hfl. by right.
Qed.

(** A change of a block other than the superblock and the bitmap. *)
Lemma insert_other_wf V n x :
  alloc_wf start V -> n <> 1 -> (forall b, 0 <= b < sb_size (sbv V) -> bmblock V b <> n) ->
  sbv (<[n := x]> V) = sbv V /\ free_blocks (<[n := x]> V) = free_blocks V /\
  alloc_wf start (<[n := x]> V).
Proof.
  intros W Hn Hbm.
  assert (sbv (<[n := x]> V) = sbv V) as E1 by (unfold sbv; by rewrite fn_lookup_insert_ne by lia).
  assert (free_blocks (<[n := x]> V) = free_blocks V) as E2.
  { unfold free_blocks. rewrite E1. apply list_filter_ext_in. intros b Hb%elem_of_seqZ. unfold free.
    assert (bmblock (<[n := x]> V) b = bmblock V b) as -> by (unfold bmblock; by rewrite E1).
    rewrite fn_lookup_insert_ne; [done|]. intros E. apply (Hbm b); [lia|done]. }
  assert (first_data (<[n := x]> V) = first_data V) as E3 by (unfold first_data, bmblock; by rewrite E1).
  split_and!; [done..|]. split; rewrite ?E1, ?E2, ?E3; apply W.
Qed.

(** A change of a data block does not concern the bitmap. *)
Lemma insert_data_wf V n x :
  alloc_wf start V -> first_data V <= n ->
  sbv (<[n := x]> V) = sbv V /\ free_blocks (<[n := x]> V) = free_blocks V /\
  alloc_wf start (<[n := x]> V).
Proof.
  intros W Hn. pose proof (aw_low _ W). apply insert_other_wf; [done|lia|].
  intros b Hb. pose proof (bmblock_range V b Hb). lia.
Qed.

(** [bfree] of a block in use clears its bit, of a free block it panics. *)
Lemma wpp_bfree F s V H b :
  tx start size F s V H -> alloc_wf start V -> holds_data V H ->
  0 <= b < sb_size (sbv V) -> bmblock V b ∈ F ->
  wpp (bfree 1 b)
    (fun _ s' => free V b = false /\ tframe s s' /\ tx start size F s' (free_block V b) H)
    (fun e => e = "freeing free block"%string /\ free V b = true) s.
Proof.
  intros T W [Hs HD] Hb HF. pose proof (aw_low _ W). pose proof (aw_bitmap _ _ W).
  pose proof (bmblock_range V b Hb) as Hbm. unfold bfree.
  wapply (wp_tx_readsb start size F s V H); [done| |done|lia|].
  { intros i Hi. destruct (HD i _ Hi). lia. }
  intros sb s1 (F1 & T1 & ->). fold (sbv V).
  wapply (wp_tx_bread start size F s1 V H (bmblock V b)); [done|lia| |done|].
  { intros i Hi. destruct (HD i _ Hi). lia. }
  intros bp s2 (F2 & T2 & N2 & D2 & C2). wstep. rewrite D2.
  change (bit_clear (b mod BPB) (V (bmblock V b))) with (free V b).
  destruct (free V b) eqn:Ef; [by apply wpp_panic|]. apply wpp_wp.
  wapply (wp_tx_update start size F s2 V _ bp (bmblock V b) (unmark_bit (b mod BPB)));
    [done|by rewrite lookup_insert_eq|done|..].
  { unfold unmark_bit. rewrite length_insert. apply (tx_vlen _ _ _ _ _ _ _ T). }
  intros [] s3 (F3 & T3). rewrite delete_insert_id in T3 by done.
  split; [done|]. split; [etrans; [done|]; by etrans|done].
Qed.

End Balloc.
