(* ===== verification/InodeSpec.v ===== *)
(** * Inodes on disk

    The layout of inodes in their blocks: [iupdate] writes the fields [ilock]
    reads, and leaves the other inodes of the block alone. *)

From S2P Require Import Prelude Monad State Sched Bio BioSpec Layout Log Crash LogSpec.
From S2P Require Import LogCrash Txn Inode FsSpec.

(** ** Slices of spliced buffers *)

Section Slices.
Context {A : Type}.
Implicit Types (l new : list A).

Lemma slice_splice_inside k new l j n :
  (k + length new <= length l)%nat -> (j + n <= length new)%nat ->
  slice (k + j) n (splice k new l) = slice j n new.
Proof.
  intros Hl Hj. apply list_eq. intros i. destruct (decide (i < n)%nat).
  - rewrite !lookup_slice by done. rewrite lookup_splice_new by lia. f_equal. lia.
  - unfold slice. rewrite !lookup_take_ge by lia. done.
Qed.

End Slices.

Lemma length_concat_words l : length (concat (le_enc 4 <$> l)) = (4 * length l)%nat.
Proof. induction l as [|x l IH]; [done|]. cbn [fmap list_fmap concat]. rewrite length_app, length_le_enc. simpl in *. lia. Qed.

Lemma slice_concat_words l i x :
  l !! i = Some x -> slice (4 * i) 4 (concat (le_enc 4 <$> l)) = le_enc 4 x.
Proof.
  revert i. induction l as [|y l IH]; intros [|i] Hi; simplify_eq/=.
  - unfold slice. simpl. done.
  - unfold slice in *. rewrite <- (IH i) by done.
    replace (i + S (i + S (i + S (i + 0))))%nat with (3 + 4 * i)%nat by lia. done.
Qed.

(** Words of an array stored in a buffer, read back. *)
Lemma rd_words_splice k l data :
  (k + 4 * length l <= length data)%nat -> Forall (fun x => 0 <= x < 4294967296) l ->
  rd_words k (length l) (splice k (concat (le_enc 4 <$> l)) data) = l.
Proof.
  intros Hk Hl. apply list_eq. intros i. destruct (decide (i < length l)%nat) as [Hi|Hi].
  - rewrite lookup_rd_words by done. destruct (lookup_lt_is_Some_2 _ _ Hi) as [x Hx]. rewrite Hx.
    f_equal. unfold rd. rewrite slice_splice_inside; rewrite ?length_concat_words; [|lia..].
    rewrite (slice_concat_words l i x) by done. apply le_dec_enc_id.
    apply (Forall_lookup_1 _ _ _ _ Hl Hx).
  - rewrite !lookup_ge_None_2; rewrite ?length_rd_words; done || lia.
Qed.

Lemma rd_words_disjoint k n j new data :
  (j + length new <= length data)%nat -> (k + 4 * n <= j \/ j + length new <= k)%nat ->
  rd_words k n (splice j new data) = rd_words k n data.
Proof.
  intros Hl Hd. unfold rd_words. apply map_ext_in. intros i [_ Hi]%in_seq.
  unfold rd. rewrite slice_splice_disjoint; [done|done|lia].
Qed.

Lemma rd_words_wr_other k n w j x data :
  (j + w <= length data)%nat -> (k + 4 * n <= j \/ j + w <= k)%nat ->
  rd_words k n (wr w j x data) = rd_words k n data.
Proof. intros. unfold wr. apply rd_words_disjoint; by rewrite length_le_enc. Qed.

(** ** Inodes in a block *)

(** The values the fields of an in-memory inode can have. *)
Record inode_ranges (ip : inode) : Prop := {
  ir_type : -32768 <= i_type ip < 32768;
  ir_major : -32768 <= i_major ip < 32768;
  ir_minor : -32768 <= i_minor ip < 32768;
  ir_nlink : -32768 <= i_nlink ip < 32768;
  ir_size : 0 <= i_size ip < 4294967296;
  ir_addrs : Forall (fun x => 0 <= x < 4294967296) (i_addrs ip);
  ir_len : length (i_addrs ip) = 13%nat;
}.

(** Offsets and buffer lengths of the fields below. *)
Ltac fields := repeat first
  [ rewrite length_wr | rewrite length_splice | rewrite length_concat_words ]; lia.

Definition dinode_of (ip : inode) : dinode :=
  mkdinode (i_type ip) (i_major ip) (i_minor ip) (i_nlink ip) (i_size ip) (i_addrs ip).

Lemma length_put_dinode k ip data :
  (k + 64 <= length data)%nat -> length (i_addrs ip) = 13%nat ->
  length (put_dinode k ip data) = length data.
Proof.
  intros Hk Ha. unfold put_dinode. fields.
Qed.

Lemma rd_splice_other w k j new data :
  (j + length new <= length data)%nat -> (k + w <= j \/ j + length new <= k)%nat ->
  rd w k (splice j new data) = rd w k data.
Proof. intros. unfold rd. by rewrite slice_splice_disjoint. Qed.

Lemma s16_word x : -32768 <= x < 32768 -> s16 (x mod 2 ^ (8 * Z.of_nat 2)) = x.
Proof. exact (s16_u16 x). Qed.

Lemma dec_put_dinode k ip data :
  (k + 64 <= length data)%nat -> inode_ranges ip ->
  dec_dinode k (put_dinode k ip data) = dinode_of ip.
Proof.
  intros Hk [Ht Hma Hmi Hn Hs Ha Hl]. unfold dec_dinode, put_dinode, dinode_of.
  assert (length (concat (le_enc 4 <$> i_addrs ip)) = 52%nat) as Hc by (rewrite length_concat_words; lia).
  rewrite !rd_splice_other by (rewrite ?Hc; fields).
  rewrite <- Hl at 1. rewrite rd_words_splice by (done || fields). f_equal.
  - rewrite !(rd_wr_other _ _ 2 k) by fields. rewrite rd_wr_same by fields. by apply s16_word.
  - rewrite !(rd_wr_other _ _ 2 (k + 2)) by fields. rewrite rd_wr_same by fields. by apply s16_word.
  - rewrite !(rd_wr_other _ _ 2 (k + 4)) by fields. rewrite rd_wr_same by fields. by apply s16_word.
  - rewrite !(rd_wr_other _ _ 2 (k + 6)) by fields. rewrite rd_wr_same by fields. by apply s16_word.
  - rewrite rd_wr_same by fields. by apply Z.mod_small.
Qed.

Lemma dec_put_dinode_other k j ip data :
  (k + 64 <= length data)%nat -> (j + 64 <= k \/ k + 64 <= j)%nat -> length (i_addrs ip) = 13%nat ->
  dec_dinode j (put_dinode k ip data) = dec_dinode j data.
Proof.
  intros Hk Hj Hl. unfold dec_dinode, put_dinode.
  assert (length (concat (le_enc 4 <$> i_addrs ip)) = 52%nat) as Hc by (rewrite length_concat_words; lia).
  f_equal; rewrite ?rd_words_disjoint, ?rd_splice_other by (rewrite ?Hc; fields);
    rewrite ?rd_wr_other by fields; try done.
  by rewrite !rd_words_wr_other by fields.
Qed.

(** ** [iupdate], [ilock] and [iunlock] *)

(** The inode [inum] as the sectors [V] hold it. *)
Definition dino (V : Z -> list Z) (inum : Z) : dinode :=
  dec_dinode (dinode_off inum) (V (IBLOCK inum)).

(** The sectors after [iupdate]. *)
Definition put_inode (V : Z -> list Z) (i : inode) : Z -> list Z :=
  <[IBLOCK (i_inum i) := put_dinode (dinode_off (i_inum i)) i (V (IBLOCK (i_inum i)))]> V.

Lemma dinode_off_range inum : 0 <= inum -> (dinode_off inum + 64 <= Z.to_nat BSIZE)%nat.
Proof.
  intros Hi. unfold dinode_off. assert (IPB = 8) as EI by reflexivity.
  pose proof (Z.mod_pos_bound inum IPB ltac:(lia)). unfold DINODE_SIZE, BSIZE. lia.
Qed.

Lemma dinode_off_disjoint i j :
  0 <= i -> 0 <= j -> i <> j -> IBLOCK i = IBLOCK j ->
  (dinode_off i + 64 <= dinode_off j \/ dinode_off j + 64 <= dinode_off i)%nat.
Proof.
  intros Hi Hj Hne E. unfold dinode_off, IBLOCK, DINODE_SIZE in *.
  assert (IPB = 8) as EI by reflexivity.
  pose proof (Z.mod_pos_bound i IPB ltac:(lia)). pose proof (Z.mod_pos_bound j IPB ltac:(lia)).
  pose proof (Z.div_mod i IPB ltac:(lia)). pose proof (Z.div_mod j IPB ltac:(lia)). lia.
Qed.

Lemma dino_put V i j :
  (forall n, length (V n) = Z.to_nat BSIZE) -> inode_ranges i -> 0 <= i_inum i -> 0 <= j ->
  dino (put_inode V i) j = if decide (j = i_inum i) then dinode_of i else dino V j.
Proof.
  intros Hlen R Hi Hj. unfold dino, put_inode.
  pose proof (dinode_off_range (i_inum i) Hi) as Ho.
  case_decide as E; [subst; rewrite fn_lookup_insert; apply dec_put_dinode; [rewrite Hlen|]; done|].
  destruct (decide (IBLOCK j = IBLOCK (i_inum i))) as [Eb|Eb].
  - rewrite Eb, fn_lookup_insert. apply dec_put_dinode_other; [by rewrite Hlen| |apply R].
    apply dinode_off_disjoint; auto.
  - by rewrite fn_lookup_insert_ne.
Qed.

Section InodeOps.
Context {WF : WakeFuel}.
Context (start size : Z).
Implicit Types (V : Z -> list Z) (H : gmap nat Z) (F : gset Z).

Lemma wp_iupdate F s V H ip :
  tx start size F s V H -> (base.size H <= 1)%nat ->
  let i := k_inodes s !!! ip in
  i_dev i = 1 -> 0 <= i_inum i -> length (i_addrs i) = 13%nat ->
  IBLOCK (i_inum i) ∈ F -> (forall b, H !! b <> Some (IBLOCK (i_inum i))) ->
  wp (iupdate ip) (fun _ s' => tframe s s' /\ tx start size F s' (put_inode V i) H) s.
Proof.
  intros T Hs i Hd Hi Hl HF HH. pose proof (tx_home _ _ _ _ _ _ T _ HF).
  unfold iupdate. wstep. fold i. rewrite Hd.
  wapply (wp_tx_bread start size F s V H (IBLOCK (i_inum i))); [done|lia|done..|].
  intros bp s1 (F1 & T1 & N1 & D1 & C1). wstep. rewrite (tframe_inodes _ _ F1). fold i.
  wapply (wp_tx_update start size F s1 V _ bp (IBLOCK (i_inum i))
            (put_dinode (dinode_off (i_inum i)) i)); [done|by rewrite lookup_insert_eq|done|..].
  { rewrite length_put_dinode; [|rewrite (tx_vlen _ _ _ _ _ _ _ T); by apply dinode_off_range|done].
    apply (tx_vlen _ _ _ _ _ _ _ T). }
  intros [] s2 (F2 & T2). rewrite delete_insert_id in T2 by done. split; [by etrans|done].
Qed.

(** Reading outside a transaction: the cache always has room for one more
    buffer. *)
Lemma wp_rx_bread s V n :
  txn_inv start size s V ∅ -> n <= start ->
  wp (bread 1 n) (fun b s' => bio_frame s s' /\ txn_inv start size s' V {[b := n]} /\
    b_data (k_bufs s' !!! b) = V n /\ k_disk s' = k_disk s /\
    ((n ∈ logged (k_log s')) \/ V n = blk (k_disk s') n)) s.
Proof.
  intros T Hn. pose proof (ti_crash _ _ _ _ _ T) as CI. destruct (ci_geom _ _ _ _ CI).
  pose proof (ci_size _ _ _ _ CI) as Hz. rewrite LOGSIZE_eq in Hz.
  pose proof (lw_room _ _ _ (ti_wf _ _ _ _ _ T)).
  pose proof (size_logged start size (k_log s) (ti_wf _ _ _ _ _ T) (ti_nodup _ _ _ _ _ T)).
  wapply (wp_txn_bread start size s V ∅ n); [done|lia|done|left|].
  { rewrite NBUF_eq, map_size_empty. lia. }
  intros b s' (Fr & T' & N & Hd & E). rewrite insert_empty in T'. split_and!; auto.
  rewrite (bio_frame_log _ _ Fr), E.
  destruct (decide (n ∈ logged (k_log s))) as [|Hl]; [by left|right].
  by apply (bio_off_disk s V ∅ (logged (k_log s))); [apply T|..].
Qed.

Lemma wp_rx_brelse s V b n :
  txn_inv start size s V {[b := n]} -> ((n ∈ logged (k_log s)) \/ V n = blk (k_disk s) n) ->
  wp (brelse b) (fun _ s' => bio_frame s s' /\ txn_inv start size s' V ∅ /\ k_disk s' = k_disk s) s.
Proof.
  intros T Hc. wapply (wp_txn_brelse start size s V _ b n); [done|by rewrite lookup_singleton_eq|done|].
  intros [] s' (Fr & T' & E). by rewrite delete_singleton_eq in T'.
Qed.

(** Changes of the inode table concern neither the log nor the cache. *)
Lemma txn_inv_inodes s V H ip f :
  txn_inv start size s V H -> txn_inv start size (upd_inode ip f s) V H.
Proof. intros []. by split. Qed.
Lemma tx_inodes F s V H ip f : tx start size F s V H -> tx start size F (upd_inode ip f s) V H.
Proof. intros []. split; auto. by apply txn_inv_inodes. Qed.

(** The inode after [ilock]: busy, and read from disk if it was not valid. *)
Definition locked V (i : inode) : inode :=
  let i1 := set_i_flags (set_flag (i_flags i) I_BUSY) i in
  if has (i_flags i) I_VALID then i1
  else set_i_flags (set_flag (i_flags i1) I_VALID) (load_dinode (dino V (i_inum i)) i1).

(** The test [while(ip->flags & I_BUSY)] of an inode nobody has locked. *)
Lemma ilock_free fuel ip s :
  has (i_flags (k_inodes s !!! ip)) I_BUSY = false ->
  loop (S fuel) (fun _ : unit =>
      i ← getinode ip;
      if has (i_flags i) I_BUSY then sleep (ChInode ip) LkIcache;; mret (inl tt)
      else mret (inr tt)) tt s = Ret tt s.
Proof. intros Hb. unfold loop. unfold getinode, mbind, M_bind, gets. simpl. by rewrite Hb. Qed.

Lemma alter_self_eq ip (f : inode -> inode) l :
  (ip < length l)%nat -> alter f ip l !!! ip = f (l !!! ip).
Proof. intros Hi. rewrite lookup_total_alter by done. by rewrite decide_True. Qed.

Lemma upd_inode_twice ip f g s : upd_inode ip f (upd_inode ip g s) = upd_inode ip (fun i => f (g i)) s.
Proof. unfold upd_inode. cbn [k_inodes set_k_inodes]. by rewrite list_alter_alter_eq. Qed.

Lemma upd_inode_ext ip f g s :
  f (k_inodes s !!! ip) = g (k_inodes s !!! ip) -> upd_inode ip f s = upd_inode ip g s.
Proof.
  intros E. unfold upd_inode. f_equal. apply list_eq. intros j.
  destruct (decide (ip = j)) as [->|Hne]; [|by rewrite !list_lookup_alter_ne].
  rewrite !list_lookup_alter_eq. destruct (k_inodes s !! j) as [x|] eqn:Ex; [|done].
  simpl. f_equal. by rewrite (list_lookup_total_correct _ _ _ Ex) in E.
Qed.

Lemma bio_frame_inode ip f s s' : bio_frame s s' -> bio_frame (upd_inode ip f s) (upd_inode ip f s').
Proof. intros [E W Z]. rewrite E. split; [by destruct s|exact W|exact Z]. Qed.

(** [ilock] up to the point where the inode is marked busy. *)
Lemma wp_ilock_busy {A} s ip (k : inode -> K A) Q E :
  (LkIcache ∉ k_held s) -> (ip < length (k_inodes s))%nat ->
  let i := k_inodes s !!! ip in
  has (i_flags i) I_BUSY = false ->
  let f := fun i => set_i_flags (set_flag (i_flags i) I_BUSY) i in
  wpp (k (f i)) Q E (upd_inode ip f s) ->
  wpp (acquire LkIcache;;
       loop (S wake_fuel) (fun _ : unit =>
         i ← getinode ip;
         if has (i_flags i) I_BUSY then sleep (ChInode ip) LkIcache;; mret (inl tt)
         else mret (inr tt)) tt;;
       modify (upd_inode ip f);; release LkIcache;; i ← getinode ip; k i) Q E s.
Proof.
  intros Hlk Hip i Hb f HQ.
  apply wpp_bind, wpp_wp. eexists tt, _. split; [by apply acquire_ok|].
  apply wpp_bind, wpp_wp. eexists tt, _. split; [by apply ilock_free|].
  wstep. apply wpp_bind, wpp_wp. eexists tt, _. split; [by apply (release_ok _ (k_held s))|].
  wstep. cbn [k_inodes set_k_held upd_inode set_k_inodes]. rewrite alter_self_eq by done.
  fold i. replace (set_k_held (k_held s) _) with (upd_inode ip f s) by (by destruct s). done.
Qed.

Lemma wpp_ilock s V ip :
  txn_inv start size s V ∅ -> (LkIcache ∉ k_held s) -> (ip < length (k_inodes s))%nat ->
  let i := k_inodes s !!! ip in
  1 <= i_ref i -> has (i_flags i) I_BUSY = false -> i_dev i = 1 -> IBLOCK (i_inum i) <= start ->
  wpp (ilock ip)
    (fun _ s' => txn_inv start size s' V ∅ /\ k_disk s' = k_disk s /\
       bio_frame (upd_inode ip (fun _ => locked V i) s) s')
    (fun e => e = "ilock: no type"%string /\ has (i_flags i) I_VALID = false /\
       d_type (dino V (i_inum i)) = 0) s.
Proof.
  intros T Hlk Hip i Hr Hb Hd Hn. unfold ilock. wstep. fold i.
  destruct (Z.ltb_spec (i_ref i) 1); [lia|].
  apply wp_ilock_busy; [done..|]. fold i.
  set (f := fun j : inode => set_i_flags (set_flag (i_flags j) I_BUSY) j).
  set (s1 := upd_inode ip f s). cbv zeta. change (set_i_flags _ i) with (f i).
  assert (txn_inv start size s1 V ∅) as T1 by (by apply txn_inv_inodes).
  assert (has (i_flags (f i)) I_VALID = has (i_flags i) I_VALID) as Ef by apply flag_valid_set_busy.
  rewrite Ef.
  unfold locked. destruct (has (i_flags i) I_VALID) eqn:Ev; simpl negb; cbv iota.
  { wstep. split; [done|]. split; [done|]. unfold s1. by rewrite (upd_inode_ext ip f (fun _ => f i) s). }
  change (i_dev (f i)) with (i_dev i). change (i_inum (f i)) with (i_inum i). rewrite Hd.
  wapply (wp_rx_bread s1 V (IBLOCK (i_inum i))); [done..|].
  intros bp s2 (F2 & T2 & D2 & E2 & C2). wstep. rewrite D2. fold (dino V (i_inum i)).
  set (d := dino V (i_inum i)). wstep.
  wapply (wp_rx_brelse _ V bp (IBLOCK (i_inum i))); [by apply txn_inv_inodes|done|].
  intros [] s3 (F3 & T3 & E3). wstep. wstep.
  set (v := fun j : inode => set_i_flags (set_flag (i_flags j) I_VALID) j).
  assert (bio_frame (upd_inode ip (fun _ => v (load_dinode d (f i))) s) (upd_inode ip v s3)) as F4.
  { rewrite (upd_inode_ext ip _ (fun j => v (load_dinode d (f j)))) by done.
    rewrite <- (upd_inode_twice ip v). apply bio_frame_inode. etrans; [|exact F3].
    rewrite <- (upd_inode_twice ip (load_dinode d)). by apply bio_frame_inode. }
  assert (k_inodes (upd_inode ip v s3) !!! ip = v (load_dinode d (f i))) as E4.
  { rewrite (bio_frame_inodes _ _ F4). by apply alter_self_eq. }
  rewrite E4. change (i_type (v (load_dinode d (f i)))) with (d_type d).
  destruct (Z.eqb_spec (d_type d) 0); [by apply wpp_panic|]. wstep.
  split; [by apply txn_inv_inodes|]. split; [by simpl in *; congruence|done].
Qed.

Lemma iunlock_run s ip :
  locks_free s -> (LkIcache ∉ k_held s) -> (ip < length (k_inodes s))%nat ->
  let i := k_inodes s !!! ip in
  1 <= i_ref i -> has (i_flags i) I_BUSY = true ->
  iunlock ip s = Ret tt (set_k_procs (wake (ChInode ip) <$> k_procs s)
    (upd_inode ip (fun i => set_i_flags (clear_flag (i_flags i) I_BUSY) i) s)).
Proof.
  intros (Hb & Hp & Hn) Hlk Hip i Hr Hbz. unfold iunlock. kstep. fold i. rewrite Hbz.
  rewrite (proj2 (Z.ltb_ge _ _) Hr). cbn [negb orb].
  kstep_by ltac:(by apply acquire_ok). kstep. 
  assert (LkPtable ∉ LkIcache :: k_held s) by (apply not_elem_of_cons; by split).
  kstep_by ltac:(by apply wakeup_ok). erewrite release_ok; [|done|done]. by destruct s.
Qed.

End InodeOps.

(** ** The inode cache *)

(** Entry [i] holds inode [inum] of device [dev]. *)
Definition caches (dev inum : Z) (i : inode) : bool :=
  (0 <? i_ref i) && (i_dev i =? dev) && (i_inum i =? inum).

(** No inode is cached twice, and reference counts are not negative. *)
Record icache_wf (l : list inode) : Prop := {
  ic_len : length l = NINODE;
  ic_ref : forall i, (i < NINODE)%nat -> 0 <= i_ref (l !!! i);
  ic_uniq : forall dev inum i j, (i < NINODE)%nat -> (j < NINODE)%nat ->
    caches dev inum (l !!! i) = true -> caches dev inum (l !!! j) = true -> i = j;
}.

Section Icache.
Context {WF : WakeFuel}.

(** The scan of [iget]: the entry of the inode, or the first unused one. *)
Lemma iget_scan dev inum s : forall fuel i empty,
  k_held s = LkIcache :: tail (k_held s) -> (LkIcache ∉ tail (k_held s)) ->
  (i <= NINODE)%nat -> (NINODE - i < fuel)%nat ->
  (forall j, (j < i)%nat -> caches dev inum (k_inodes s !!! j) = false) ->
  match empty with
  | None => forall j, (j < i)%nat -> i_ref (k_inodes s !!! j) <> 0
  | Some e => (e < i)%nat /\ i_ref (k_inodes s !!! e) = 0
  end ->
  wp (loop fuel (fun '(i, empty) =>
    if bool_decide (i = NINODE) then mret (inr (inr empty))
    else
      r ← getinode i;
      if (0 <? i_ref r) && (i_dev r =? dev) && (i_inum r =? inum) then
        modify (upd_inode i (set_i_ref (i_ref r + 1)));;
        release LkIcache;;
        mret (inr (inl i))
      else
        mret (inl (S i, match empty with
                        | None => if i_ref r =? 0 then Some i else None
                        | Some e => Some e
                        end))) (i, empty))
  (fun r s' => match r with
    | inl ip => (ip < NINODE)%nat /\ caches dev inum (k_inodes s !!! ip) = true /\
        s' = set_k_held (tail (k_held s)) (upd_inode ip (fun i => set_i_ref (i_ref i + 1) i) s)
    | inr e => s' = s /\ (forall j, (j < NINODE)%nat -> caches dev inum (k_inodes s !!! j) = false) /\
        match e with
        | None => forall j, (j < NINODE)%nat -> i_ref (k_inodes s !!! j) <> 0
        | Some ip => (ip < NINODE)%nat /\ i_ref (k_inodes s !!! ip) = 0
        end
    end) s.
Proof.
  induction fuel as [|fuel IH]; intros i empty Hh Hl Hi Hfuel Hno He; [lia|].
  apply wp_loop. case_bool_decide as Ei.
  { subst i. apply wp_ret. split; [done|]. split; [done|]. by destruct empty. }
  wstep. fold (caches dev inum (k_inodes s !!! i)).
  destruct (caches dev inum (k_inodes s !!! i)) eqn:Ec.
  - wstep. apply wp_bind. eexists tt, _. split; [by apply (release_ok _ (tail (k_held s)))|].
    apply wp_ret. split; [lia|]. split; [done|].
    erewrite upd_inode_ext; [reflexivity|]. done.
  - apply wp_ret. apply IH; [done|done|lia|lia| |].
    + intros j Hj. destruct (decide (j = i)) as [->|]; [done|]. apply Hno. lia.
    + destruct empty as [e|]; [split; [lia|apply He]|].
      destruct (Z.eqb_spec (i_ref (k_inodes s !!! i)) 0) as [E0|E0]; [split; [lia|done]|].
      intros j Hj. destruct (decide (j = i)) as [->|]; [done|]. apply He. lia.
Qed.

(** Entry [ip] after [iget dev inum] has returned it. *)
Definition gotten (dev inum : Z) (i : inode) : inode :=
  if caches dev inum i then set_i_ref (i_ref i + 1) i
  else set_i_flags 0 (set_i_ref 1 (set_i_inum inum (set_i_dev dev i))).

Lemma caches_spec dev inum i :
  caches dev inum i = true <-> 0 < i_ref i /\ i_dev i = dev /\ i_inum i = inum.
Proof. unfold caches. rewrite !andb_true_iff, Z.ltb_lt, !Z.eqb_eq. tauto. Qed.

Lemma caches_gotten dev inum d n i :
  0 <= i_ref i -> caches d n (gotten dev inum i) = true -> caches dev inum i = false ->
  d = dev /\ n = inum.
Proof.
  intros Hr Hc Hn. unfold gotten in Hc. rewrite Hn in Hc. apply caches_spec in Hc. simpl in Hc.
  destruct Hc as (_ & ? & ?). done.
Qed.

Lemma caches_gotten_hit dev inum d n i :
  0 <= i_ref i -> caches dev inum i = true -> caches d n (gotten dev inum i) = caches d n i.
Proof.
  intros Hr Hc. unfold gotten. rewrite Hc. apply caches_spec in Hc. unfold caches. simpl.
  rewrite (proj2 (Z.ltb_lt 0 _)) by lia. by rewrite (proj2 (Z.ltb_lt 0 (i_ref i))) by lia.
Qed.

Lemma caches_gotten_self dev inum i : 0 <= i_ref i -> caches dev inum (gotten dev inum i) = true.
Proof.
  intros Hr. unfold gotten. apply caches_spec.
  destruct (caches dev inum i) eqn:E; simpl; [|lia]. apply caches_spec in E as (? & ? & ?). split; [lia|done].
Qed.

Lemma icache_wf_get dev inum l ip :
  icache_wf l -> (ip < NINODE)%nat ->
  (caches dev inum (l !!! ip) = true \/
   forall j, (j < NINODE)%nat -> caches dev inum (l !!! j) = false) ->
  icache_wf (alter (gotten dev inum) ip l).
Proof.
  intros [Hlen Href Hu] Hip Hc. pose proof (Href ip Hip) as Hr. split.
  - by rewrite length_alter.
  - intros j Hj. rewrite lookup_total_alter by lia. case_decide as E; [|by apply Href].
    unfold gotten. case_match; simpl; lia.
  - intros d n i j Hi Hj. rewrite !lookup_total_alter by lia.
    assert (forall j, (j < NINODE)%nat -> caches d n (gotten dev inum (l !!! ip)) = true ->
              caches d n (l !!! j) = true -> ip = j) as Hkey.
    { intros j' Hj' H1 H2. destruct Hc as [Hc|Hc].
      - rewrite caches_gotten_hit in H1 by done. by apply (Hu d n).
      - destruct (caches_gotten dev inum d n (l !!! ip)) as [-> ->]; [done|done|by apply Hc|].
        by rewrite Hc in H2. }
    repeat case_decide; subst; intros H1 H2; [done|by apply Hkey|symmetry; by apply Hkey|by apply (Hu d n)].
Qed.

Lemma wpp_iget s dev inum :
  icache_wf (k_inodes s) -> (LkIcache ∉ k_held s) ->
  wpp (iget dev inum)
    (fun ip s' => (ip < NINODE)%nat /\ s' = upd_inode ip (gotten dev inum) s /\
       (caches dev inum (k_inodes s !!! ip) = true \/
        i_ref (k_inodes s !!! ip) = 0 /\
        forall j, (j < NINODE)%nat -> caches dev inum (k_inodes s !!! j) = false))
    (fun e => e = "iget: no inodes"%string /\ forall j, (j < NINODE)%nat ->
       caches dev inum (k_inodes s !!! j) = false /\ i_ref (k_inodes s !!! j) <> 0) s.
Proof.
  intros W Hl. unfold iget. apply wpp_bind, wpp_wp. eexists tt, _. split; [by apply acquire_ok|].
  set (s1 := set_k_held _ s).
  wapply (iget_scan dev inum s1 (S NINODE) 0 None); [done|done|lia|lia|intros; lia|intros; lia|].
  intros [ip|[ip|]] s2 Hr.
  - destruct Hr as (Hip & Hc & ->). wstep. split; [done|]. split; [|by left].
    transitivity (upd_inode ip (fun i => set_i_ref (i_ref i + 1) i) s); [by destruct s|].
    apply upd_inode_ext. unfold gotten. simpl in Hc. by rewrite Hc.
  - destruct Hr as (-> & Hno & Hip & He). do 4 wstep.
    apply wpp_bind, wpp_wp. eexists tt, _. split; [by apply (release_ok _ (k_held s))|].
    wstep. split; [done|]. split; [|by right].
    rewrite !upd_inode_twice.
    match goal with |- set_k_held _ (upd_inode ip ?f s1) = _ =>
      transitivity (upd_inode ip f s); [by destruct s|] end.
    apply upd_inode_ext. unfold gotten. pose proof (Hno ip Hip) as Hc. simpl in Hc. by rewrite Hc.
  - destruct Hr as (-> & Hno & He). apply wpp_panic. split; [done|]. intros j Hj. split; [by apply Hno|by apply He].
Qed.

End Icache.
