(* ===== verification/ReadSpec.v ===== *)
(** * Reading files

    The contents of a file as bytes at offsets, through the block addresses of
    its inode, and what [bmap] and [readi] return. *)

From S2P Require Import Prelude Monad State Strings Sched Bio BioSpec Layout Log Crash LogSpec.
From S2P Require Import LogCrash Txn Inode FsSpec InodeSpec Console Content.

(** ** The blocks of a file *)

Definition indirect (i : inode) : Z := i_addrs i !!! Z.to_nat NDIRECT.

(** The address of block [bn], 0 when there is none. *)
Definition baddr (V : Z -> list Z) (i : inode) (bn : Z) : Z :=
  if bn <? NDIRECT then i_addrs i !!! Z.to_nat bn
  else if indirect i =? 0 then 0
  else rd 4 (4 * Z.to_nat (bn - NDIRECT)) (V (indirect i)).

(** The byte at offset [off], and [n] bytes from there. *)
Definition fbyte (V : Z -> list Z) (i : inode) (off : Z) : Z :=
  V (baddr V i (off / BSIZE)) !!! Z.to_nat (off mod BSIZE).
Definition fbytes (V : Z -> list Z) (i : inode) (off n : Z) : list Z :=
  fbyte V i <$> seqZ off n.

(** Whether the file uses the block [a]. *)
Definition in_file (V : Z -> list Z) (i : inode) (a : Z) : Prop :=
  a <> 0 /\ (a = indirect i \/ exists bn, 0 <= bn < MAXFILE /\ baddr V i bn = a).

(** The blocks of a file are data blocks in use, no two of them are the same,
    and every block below the file's size is there. *)
Record file_wf (start : Z) (V : Z -> list Z) (i : inode) : Prop := {
  fw_dev : i_dev i = 1;
  fw_inum : 0 <= i_inum i < sb_ninodes (sbv V);
  fw_len : length (i_addrs i) = 13%nat;
  fw_size : 0 <= i_size i <= MAXFILE * BSIZE;
  fw_data : forall a, in_file V i a -> first_data V <= a < start /\ a ∉ free_blocks V;
  fw_inj : forall bn bn', 0 <= bn < MAXFILE -> 0 <= bn' < MAXFILE -> baddr V i bn <> 0 ->
    baddr V i bn = baddr V i bn' -> bn = bn';
  fw_ind : forall bn, 0 <= bn < MAXFILE -> baddr V i bn <> 0 -> baddr V i bn <> indirect i;
  fw_mapped : forall bn, 0 <= bn -> bn * BSIZE < i_size i -> baddr V i bn <> 0;
}.

Lemma fbytes_app V i off n m :
  0 <= n -> 0 <= m -> fbytes V i off (n + m) = fbytes V i off n ++ fbytes V i (off + n) m.
Proof. intros Hn Hm. unfold fbytes. by rewrite seqZ_app, fmap_app by done. Qed.

Lemma length_fbytes V i off n : length (fbytes V i off n) = Z.to_nat n.
Proof. unfold fbytes. by rewrite length_fmap, length_seqZ. Qed.

(** Bytes inside one block are a slice of it. *)
Lemma fbytes_block V i off m :
  (forall n, length (V n) = Z.to_nat BSIZE) -> 0 <= off -> 0 <= m -> off mod BSIZE + m <= BSIZE ->
  slice (Z.to_nat (off mod BSIZE)) (Z.to_nat m) (V (baddr V i (off / BSIZE))) = fbytes V i off m.
Proof.
  intros Hlen Ho Hm Hb. assert (BSIZE = 512) as EB by reflexivity.
  pose proof (Z.mod_pos_bound off BSIZE ltac:(lia)). pose proof (Z.div_mod off BSIZE ltac:(lia)).
  apply list_eq. intros k. destruct (decide (k < Z.to_nat m)%nat) as [Hk|Hk].
  - rewrite lookup_slice by done. unfold fbytes. rewrite list_lookup_fmap, lookup_seqZ_lt by lia.
    simpl. unfold fbyte.
    assert ((off + Z.of_nat k) / BSIZE = off / BSIZE) as ->.
    { symmetry. apply (Z.div_unique_pos _ _ _ (off mod BSIZE + Z.of_nat k)); lia. }
    assert ((off + Z.of_nat k) mod BSIZE = off mod BSIZE + Z.of_nat k) as ->.
    { symmetry. apply (Z.mod_unique_pos _ _ (off / BSIZE)); lia. }
    replace (Z.to_nat (off mod BSIZE + Z.of_nat k)) with (Z.to_nat (off mod BSIZE) + k)%nat by lia.
    apply list_lookup_lookup_total_lt. rewrite Hlen. lia.
  - rewrite !lookup_ge_None_2; [done| |]; rewrite ?length_fbytes; [lia|].
    rewrite length_slice; [lia|rewrite Hlen; lia].
Qed.

Section Reading.
Context {WF : WakeFuel}.
Context (start size : Z).
Implicit Types (V : Z -> list Z).

Lemma txn_vlen s V H n : txn_inv start size s V H -> length (V n) = Z.to_nat BSIZE.
Proof. intros T. apply (bi_vlen _ _ _ _ _ (proj1 (ti_bio _ _ _ _ _ T))). Qed.

(** [bmap] of a block that exists. *)
Lemma wp_bmap_mapped s V ip bn :
  txn_inv start size s V ∅ -> let i := k_inodes s !!! ip in
  file_wf start V i -> 0 <= bn < MAXFILE -> baddr V i bn <> 0 ->
  wp (bmap ip bn) (fun r s' => r = baddr V i bn /\ bio_frame s s' /\ txn_inv start size s' V ∅ /\
    k_disk s' = k_disk s) s.
Proof.
  intros T i W Hbn Ha. unfold bmap. wstep. fold i. unfold baddr in Ha |- *.
  destruct (Z.ltb_spec bn NDIRECT).
  { rewrite (proj2 (Z.eqb_neq _ 0) Ha). by apply wp_ret. }
  destruct (Z.ltb_spec (bn - NDIRECT) NINDIRECT); [|unfold MAXFILE in *; lia].
  fold (indirect i). destruct (Z.eqb_spec (indirect i) 0) as [|Hi]; [done|].
  wstep. wstep. fold i. rewrite (fw_dev _ _ _ W).
  destruct (fw_data _ _ _ W (indirect i)) as [Hr _]; [split; [done|by left]|].
  wapply (wp_rx_bread start size s V (indirect i)); [done|lia|].
  intros b s1 (F1 & T1 & D1 & E1 & C1). wstep. rewrite D1, (proj2 (Z.eqb_neq _ 0) Ha). wstep.
  wapply (wp_rx_brelse start size s1 V b (indirect i)); [done..|].
  intros [] s2 (F2 & T2 & E2). apply wp_ret. split; [done|]. split; [by etrans|].
  split; [done|congruence].
Qed.

(** The copying loop of [readi], [tot] bytes into a read of [n]. *)
Lemma wp_readi_loop V i ip n : forall fuel tot off dst s,
  txn_inv start size s V ∅ -> k_inodes s !!! ip = i -> file_wf start V i ->
  0 <= off -> 0 <= tot <= n -> off + (n - tot) <= i_size i -> (1 <= fuel)%nat ->
  n = tot \/ off mod BSIZE + (n - tot) <= BSIZE * (Z.of_nat fuel - 1) ->
  wp (loop fuel (fun '(tot, off, dst) =>
      if tot <? n then
        a ← bmap ip (off / BSIZE);
        bp ← bread 1 a;
        let m := Z.min (n - tot) (BSIZE - off mod BSIZE) in
        r ← getbuf bp;
        brelse bp;;
        mret (inl (tot + m, off + m,
                   dst ++ slice (Z.to_nat (off mod BSIZE)) (Z.to_nat m) (b_data r)))
      else mret (inr dst)) (tot, off, dst))
  (fun r s' => r = dst ++ fbytes V i off (n - tot) /\ bio_frame s s' /\
     txn_inv start size s' V ∅ /\ k_disk s' = k_disk s) s.
Proof.
  assert (BSIZE = 512) as EB by reflexivity.
  induction fuel as [|fuel IH]; intros tot off dst s T Ei W Ho Ht Hsz H1 Hf; [lia|].
  apply wp_loop. destruct (Z.ltb_spec tot n) as [Hlt|Hge].
  2: { apply wp_ret. replace (n - tot) with 0 by lia. by rewrite app_nil_r. }
  destruct Hf as [->|Hf]; [lia|].
  pose proof (Z.mod_pos_bound off BSIZE ltac:(lia)). pose proof (Z.div_mod off BSIZE ltac:(lia)).
  assert (0 <= off / BSIZE) by (apply Z.div_pos; lia).
  pose proof (fw_size _ _ _ W). assert (MAXFILE = 140) as EM by reflexivity.
  assert (off / BSIZE < MAXFILE) by (apply Z.div_lt_upper_bound; lia).
  assert (baddr V i (off / BSIZE) <> 0) as Ha by (apply (fw_mapped _ _ _ W); lia).
  wapply (wp_bmap_mapped s V ip (off / BSIZE)); [done|by rewrite Ei|done|by rewrite Ei|].
  rewrite Ei. intros a s1 (-> & F1 & T1 & E1).
  destruct (fw_data _ _ _ W (baddr V i (off / BSIZE))) as [Hr _]; [split; [done|right; by exists (off / BSIZE)]|].
  wapply (wp_rx_bread start size s1 V _); [done|lia|].
  intros bp s2 (F2 & T2 & D2 & E2 & C2). set (m := Z.min _ _). wstep. rewrite D2.
  wapply (wp_rx_brelse start size s2 V bp _); [done..|]. intros [] s3 (F3 & T3 & E3). apply wp_ret.
  rewrite fbytes_block; [|intros; by apply (txn_vlen s V ∅)|lia..].
  eapply wp_mono.
  { apply (IH (tot + m) (off + m) _ s3); [done| |done|lia|lia|lia|lia|].
    - by rewrite (bio_frame_inodes _ _ F3), (bio_frame_inodes _ _ F2), (bio_frame_inodes _ _ F1).
    - destruct (decide (m = n - tot)); [left; lia|right].
      assert (m = BSIZE - off mod BSIZE) as Em by lia.
      replace (off + m) with (0 + (off / BSIZE + 1) * BSIZE) by lia.
      rewrite Z.mod_add, Z.mod_0_l by lia. lia. }
  intros r s' (-> & F4 & T4 & E4). split_and!; [|do 3 (etrans; [done|]); done|done|congruence].
  rewrite <- app_assoc. f_equal. replace (n - tot) with (m + (n - (tot + m))) by lia.
  by rewrite <- fbytes_app by lia.
Qed.

(** [readi] of a file or directory: the bytes from [off] on, as many as the
    file has; offsets behind the end are an error. *)
Lemma wp_readi s V ip off n :
  txn_inv start size s V ∅ -> let i := k_inodes s !!! ip in
  file_wf start V i -> i_type i <> T_DEV -> 0 <= off < 4294967296 -> 0 <= n < 4294967296 ->
  wp (readi ip off n) (fun r s' =>
    let m := Z.min n (i_size i - off) in
    r = (if (i_size i <? off) || (4294967296 <=? off + n) then (-1, []) else (m, fbytes V i off m)) /\
    bio_frame s s' /\ txn_inv start size s' V ∅ /\ k_disk s' = k_disk s) s.
Proof.
  intros T i W Hty Ho Hn. assert (BSIZE = 512) as EB by reflexivity.
  pose proof (fw_size _ _ _ W). assert (MAXFILE = 140) as EM by reflexivity.
  unfold readi. wstep. fold i. rewrite (proj2 (Z.eqb_neq _ _) Hty).
  assert ((u32 (off + n) <? off) = (4294967296 <=? off + n)) as ->.
  { destruct (Z.leb_spec 4294967296 (off + n)).
    - apply Z.ltb_lt. unfold u32. change (2 ^ 32) with 4294967296.
      rewrite <- (Z.mod_unique_pos _ _ 1 (off + n - 4294967296)); lia.
    - apply Z.ltb_ge. rewrite u32_id; lia. }
  destruct ((i_size i <? off) || (4294967296 <=? off + n)) eqn:Ec; [by apply wp_ret|].
  apply orb_false_iff in Ec as [Hs%Z.ltb_ge Hw%Z.leb_gt].
  assert ((if i_size i <? u32 (off + n) then u32 (i_size i - off) else n) = Z.min n (i_size i - off)) as ->.
  { rewrite !u32_id by lia. destruct (Z.ltb_spec (i_size i) (off + n)); lia. }
  set (m := Z.min n (i_size i - off)).
  assert (0 <= m / BSIZE) by (apply Z.div_pos; lia).
  pose proof (Z.mod_pos_bound off BSIZE ltac:(lia)).
  pose proof (Z.mod_pos_bound m BSIZE ltac:(lia)). pose proof (Z.div_mod m BSIZE ltac:(lia)).
  rewrite (fw_dev _ _ _ W). wapply (wp_readi_loop V i ip m); [done|done|done|lia|lia|lia|lia|right; lia|].
  intros dst s' (-> & Fr & T' & E). apply wp_ret. by rewrite Z.sub_0_r.
Qed.

End Reading.
