(* ===== verification/WriteSpec.v ===== *)
(** * Writing files

    [wrote V i V' i' off bs k]: the file of inode [i] in the sectors [V] has
    become the file of [i'] in [V'] by storing the bytes [bs] at [off], with
    [k] blocks taken from the free list.  The allocations of [bmap] and the
    stores of [writei] are such steps, and they compose. *)

From S2P Require Import Prelude Monad State Strings Sched Bio BioSpec Layout Log Crash LogSpec.
From S2P Require Import LogCrash Txn Inode FsSpec InodeSpec Console Content ReadSpec.

Definition mapped (V : Z -> list Z) (i : inode) (x : Z) : Prop := baddr V i (x / BSIZE) <> 0.

Record wrote (start : Z) (V : Z -> list Z) (i : inode) (V' : Z -> list Z) (i' : inode)
    (off : Z) (bs : list Z) (k : nat) : Prop := {
  wr_sb : sbv V' = sbv V;
  wr_free : free_blocks V' = drop k (free_blocks V);
  wr_inode : i' = set_i_addrs (i_addrs i') i;
  wr_same : k = 0%nat -> i' = i;
  wr_addr : forall bn, 0 <= bn < MAXFILE -> baddr V' i' bn = baddr V i bn \/
    (baddr V i bn = 0 /\ baddr V' i' bn ∈ take k (free_blocks V));
  wr_ind : indirect i' = indirect i \/
    (indirect i = 0 /\ indirect i' ∈ take k (free_blocks V));
  wr_keep : forall n, first_data V <= n -> n ∉ take k (free_blocks V) -> ~ in_file V i n ->
    V' n = V n;
  wr_meta : forall n, n < sb_ninodes (sbv V) / IPB + 3 -> V' n = V n;
  wr_len : forall n, length (V' n) = Z.to_nat BSIZE;
  wr_alloc : alloc_wf start V';
  wr_wf : file_wf start V' i';
  wr_mapped : forall x, off <= x < off + Z.of_nat (length bs) -> mapped V' i' x;
  wr_bytes : forall x, off <= x < off + Z.of_nat (length bs) ->
    fbyte V' i' x = bs !!! Z.to_nat (x - off);
  wr_other : forall x, 0 <= x < MAXFILE * BSIZE -> ~ (off <= x < off + Z.of_nat (length bs)) ->
    mapped V i x -> fbyte V' i' x = fbyte V i x;
}.

Section Wrote.
Context (start : Z).
Implicit Types (V : Z -> list Z) (i : inode).

Lemma wrote_refl V i off :
  (forall n, length (V n) = Z.to_nat BSIZE) -> alloc_wf start V -> file_wf start V i ->
  wrote start V i V i off [] 0.
Proof.
  intros Hl Ha W. split; auto.
  - by destruct i.
  - intros x Hx. simpl in Hx. lia.
  - intros x Hx. simpl in Hx. lia.
Qed.

(** The addresses of a file before and after. *)
Lemma wrote_addr V i V' i' off bs k bn :
  wrote start V i V' i' off bs k -> 0 <= bn < MAXFILE -> baddr V i bn <> 0 ->
  baddr V' i' bn = baddr V i bn.
Proof. intros W Hbn Ha. destruct (wr_addr _ _ _ _ _ _ _ _ W bn Hbn) as [|[]]; [done|congruence]. Qed.

Lemma wrote_in_file V i V' i' off bs k a :
  wrote start V i V' i' off bs k -> in_file V' i' a -> in_file V i a \/ a ∈ take k (free_blocks V).
Proof.
  intros W [Ha [E|(bn & Hbn & E)]].
  - destruct (wr_ind _ _ _ _ _ _ _ _ W) as [E'|[_ Hin]]; [|right; congruence].
    left. split; [done|]. left. congruence.
  - destruct (wr_addr _ _ _ _ _ _ _ _ W bn Hbn) as [E'|[_ Hin]]; [|right; congruence].
    left. split; [done|]. right. exists bn. split; [done|congruence].
Qed.

Lemma mapped_range x : 0 <= x < MAXFILE * BSIZE -> 0 <= x / BSIZE < MAXFILE.
Proof.
  intros Hx. assert (BSIZE = 512) as EB by reflexivity.
  split; [apply Z.div_pos; lia|apply Z.div_lt_upper_bound; lia].
Qed.

(** Every byte below the size is in a block. *)
Lemma file_mapped V i x : file_wf start V i -> 0 <= x < i_size i -> mapped V i x.
Proof.
  intros W Hx. assert (BSIZE = 512) as EB by reflexivity. pose proof (fw_size _ _ _ W).
  pose proof (mapped_range x ltac:(lia)). apply (fw_mapped _ _ _ W); [lia|].
  pose proof (Z.div_mod x BSIZE ltac:(lia)). pose proof (Z.mod_pos_bound x BSIZE ltac:(lia)). lia.
Qed.

Lemma wrote_mapped V i V' i' off bs k x :
  wrote start V i V' i' off bs k -> 0 <= x < MAXFILE * BSIZE -> mapped V i x -> mapped V' i' x.
Proof.
  intros W Hx Hm. unfold mapped. rewrite (wrote_addr _ _ _ _ _ _ _ _ W); [done|by apply mapped_range|done].
Qed.

Lemma elem_of_take_add (l : list Z) n m a :
  a ∈ take (n + m) l <-> (a ∈ take n l) \/ (a ∈ take m (drop n l)).
Proof. by rewrite <- take_take_drop, elem_of_app. Qed.

Lemma elem_of_take_add_le (l : list Z) n m a : (n <= m)%nat -> a ∈ take n l -> a ∈ take m l.
Proof.
  intros Hle Ha. replace m with (n + (m - n))%nat by lia. apply elem_of_take_add. by left.
Qed.

(** A byte of the first write survives the second one. *)
Lemma wrote_trans_bytes V1 i1 V2 i2 V3 i3 off bs1 bs2 k1 k2 x :
  0 <= off -> off + Z.of_nat (length bs1) + Z.of_nat (length bs2) <= MAXFILE * BSIZE ->
  wrote start V1 i1 V2 i2 off bs1 k1 ->
  wrote start V2 i2 V3 i3 (off + Z.of_nat (length bs1)) bs2 k2 ->
  off <= x < off + Z.of_nat (length (bs1 ++ bs2)) ->
  mapped V3 i3 x /\ fbyte V3 i3 x = (bs1 ++ bs2) !!! Z.to_nat (x - off).
Proof.
  intros Ho Hmax W1 W2 Hx. rewrite length_app in Hx.
  destruct (decide (x < off + Z.of_nat (length bs1))) as [Hlt|Hge].
  - pose proof (wr_mapped _ _ _ _ _ _ _ _ W1 x ltac:(lia)) as Hm.
    split; [apply (wrote_mapped _ _ _ _ _ _ _ x W2); [lia|done]|].
    rewrite (wr_other _ _ _ _ _ _ _ _ W2 x), (wr_bytes _ _ _ _ _ _ _ _ W1 x) by (done || lia).
    rewrite lookup_total_app_l by lia. done.
  - split; [apply (wr_mapped _ _ _ _ _ _ _ _ W2 x); lia|].
    rewrite (wr_bytes _ _ _ _ _ _ _ _ W2 x) by lia. rewrite lookup_total_app_r by lia.
    f_equal. lia.
Qed.

Lemma wrote_trans V1 i1 V2 i2 V3 i3 off bs1 bs2 k1 k2 :
  0 <= off -> off + Z.of_nat (length bs1) + Z.of_nat (length bs2) <= MAXFILE * BSIZE ->
  wrote start V1 i1 V2 i2 off bs1 k1 ->
  wrote start V2 i2 V3 i3 (off + Z.of_nat (length bs1)) bs2 k2 ->
  wrote start V1 i1 V3 i3 off (bs1 ++ bs2) (k1 + k2).
Proof.
  intros Ho Hmax W1 W2.
  pose proof (wr_sb _ _ _ _ _ _ _ _ W1) as Esb.
  pose proof (wr_free _ _ _ _ _ _ _ _ W1) as Ef.
  assert (first_data V2 = first_data V1) as Efd by (unfold first_data, bmblock; by rewrite Esb).
  split; try apply W2.
  - rewrite (wr_sb _ _ _ _ _ _ _ _ W2). done.
  - rewrite (wr_free _ _ _ _ _ _ _ _ W2), Ef. by rewrite drop_drop.
  - rewrite (wr_inode _ _ _ _ _ _ _ _ W2), (wr_inode _ _ _ _ _ _ _ _ W1) at 1. by destruct i1.
  - intros Hk. rewrite (wr_same _ _ _ _ _ _ _ _ W2) by lia. apply (wr_same _ _ _ _ _ _ _ _ W1). lia.
  - intros bn Hbn. rewrite elem_of_take_add, <- Ef.
    destruct (wr_addr _ _ _ _ _ _ _ _ W1 bn Hbn) as [E1|[E1 H1]],
      (wr_addr _ _ _ _ _ _ _ _ W2 bn Hbn) as [E2|[E2 H2]]; intuition congruence.
  - rewrite elem_of_take_add, <- Ef.
    destruct (wr_ind _ _ _ _ _ _ _ _ W1) as [E1|[E1 H1]],
      (wr_ind _ _ _ _ _ _ _ _ W2) as [E2|[E2 H2]]; intuition congruence.
  - intros n Hn Ht Hin. rewrite elem_of_take_add, <- Ef in Ht.
    rewrite (wr_keep _ _ _ _ _ _ _ _ W2 n); [apply (wr_keep _ _ _ _ _ _ _ _ W1 n); tauto|by rewrite Efd|tauto|].
    intros Hc. apply (wrote_in_file _ _ _ _ _ _ _ _ W1) in Hc. tauto.
  - intros n Hn. rewrite (wr_meta _ _ _ _ _ _ _ _ W2) by (by rewrite Esb). by apply (wr_meta _ _ _ _ _ _ _ _ W1).
  - intros x Hx. by eapply wrote_trans_bytes.
  - intros x Hx. by eapply (wrote_trans_bytes V1 i1 V2 i2).
  - intros x Hx Hout Hm. rewrite length_app in Hout.
    rewrite (wr_other _ _ _ _ _ _ _ _ W2 x); [|done|lia|by apply (wrote_mapped _ _ _ _ _ _ _ x W1)].
    apply (wr_other _ _ _ _ _ _ _ _ W1 x); [done|lia|done].
Qed.

(** One block [b] from the free list has become the indirect block of the
    file, or the block [bn0] that it did not have. *)
Definition added V i V' i' (b : Z) : Prop :=
  (indirect i = 0 /\ indirect i' = b /\ forall bn, 0 <= bn < MAXFILE -> baddr V' i' bn = baddr V i bn) \/
  (indirect i' = indirect i /\ exists bn0, 0 <= bn0 < MAXFILE /\ baddr V i bn0 = 0 /\
     forall bn, 0 <= bn < MAXFILE -> baddr V' i' bn = if decide (bn = bn0) then b else baddr V i bn).

Lemma added_in_file V i V' i' b a :
  added V i V' i' b -> in_file V' i' a -> a = b \/ in_file V i a.
Proof.
  intros Had [Ha Hin]. unfold in_file.
  destruct Had as [(E0 & E1 & E2)|(E1 & bn0 & Hb0 & E0 & E2)]; destruct Hin as [->|(bn & Hbn & <-)].
  - by left.
  - right. split; [done|]. right. exists bn. split; [done|]. by rewrite E2.
  - right. split; [done|]. left. done.
  - rewrite E2 in * by done. case_decide; [by left|right]. split; [done|]. right. by exists bn.
Qed.

Lemma added_addr V i V' i' b bn :
  added V i V' i' b -> 0 <= bn < MAXFILE ->
  baddr V' i' bn = baddr V i bn \/ (baddr V i bn = 0 /\ baddr V' i' bn = b).
Proof.
  intros [(_ & _ & E)|(_ & bn0 & Hb0 & E0 & E)] Hbn; rewrite (E bn Hbn); [by left|].
  case_decide; subst; auto.
Qed.

Lemma added_inj V i V' i' b bn bn' :
  added V i V' i' b -> file_wf start V i -> ~ in_file V i b ->
  0 <= bn < MAXFILE -> 0 <= bn' < MAXFILE -> baddr V' i' bn <> 0 ->
  baddr V' i' bn = baddr V' i' bn' -> bn = bn'.
Proof.
  intros Had W Hb Hbn Hbn' Hne E.
  assert (forall c, 0 <= c < MAXFILE -> b <> 0 -> baddr V i c <> b) as Hnb.
  { intros c Hc H0 Ec. apply Hb. split; [done|]. right. by exists c. }
  destruct Had as [(_ & _ & E2)|(_ & bn0 & Hb0 & E0 & E2)]; rewrite !E2 in * by done.
  - by apply (fw_inj _ _ _ W).
  - destruct (decide (bn = bn0)) as [->|], (decide (bn' = bn0)) as [->|];
      [done| | |by apply (fw_inj _ _ _ W)]; exfalso.
    + by apply (Hnb bn').
    + apply (Hnb bn); congruence.
Qed.

Lemma added_ind V i V' i' b bn :
  added V i V' i' b -> file_wf start V i -> ~ in_file V i b ->
  0 <= bn < MAXFILE -> baddr V' i' bn <> 0 -> baddr V' i' bn <> indirect i'.
Proof.
  intros Had W Hb Hbn Hne E.
  destruct Had as [(_ & E1 & E2)|(E1 & bn0 & Hb0 & E0 & E2)]; rewrite ?E1, ?E2 in * by done.
  - apply Hb. rewrite <- E. split; [done|]. right. by exists bn.
  - case_decide; [|by apply (fw_ind _ _ _ W) in E]. apply Hb. split; [congruence|]. by left.
Qed.

Lemma wrote_alloc V i V' i' b fl off :
  alloc_wf start V -> file_wf start V i -> free_blocks V = b :: fl -> b < start ->
  sbv V' = sbv V -> free_blocks V' = fl -> alloc_wf start V' ->
  (forall n, length (V' n) = Z.to_nat BSIZE) ->
  i' = set_i_addrs (i_addrs i') i -> length (i_addrs i') = 13%nat ->
  (forall n, n < sb_ninodes (sbv V) / IPB + 3 -> V' n = V n) ->
  (forall n, first_data V <= n -> n <> b -> n <> indirect i -> V' n = V n) ->
  added V i V' i' b -> wrote start V i V' i' off [] 1.
Proof.
  intros Ha W Hfl Hbs Esb Ef Ha' Hl Ei Hlen Hmeta Hkeep Had.
  assert (b ∈ free_blocks V) as Hin by (rewrite Hfl; by left).
  pose proof (aw_free _ _ Ha b Hin) as Hb. pose proof (aw_low _ _ Ha) as Hlow.
  assert (~ in_file V i b) as Hnb by (intros Hc; by apply (fw_data _ _ _ W) in Hc as []).
  assert (first_data V' = first_data V) as Efd by (unfold first_data, bmblock; by rewrite Esb).
  assert (take 1 (free_blocks V) = [b]) as Et by (by rewrite Hfl).
  pose proof (NoDup_free_blocks V) as Hnd. rewrite Hfl in Hnd. apply NoDup_cons in Hnd as [Hnd _].
  split; rewrite ?Et; auto; try done.
  - rewrite Ef, Hfl. done.
  - intros bn Hbn. destruct (added_addr _ _ _ _ _ bn Had Hbn) as [|[E ->]]; [by left|right].
    split; [done|]. by apply list_elem_of_singleton.
  - destruct Had as [(E0 & E1 & _)|(E1 & _)]; [right|by left]. split; [done|].
    by apply list_elem_of_singleton.
  - intros n Hn Hne Hnin. apply Hkeep; [done|set_solver|]. intros ->. apply Hnin.
    split; [lia|by left].
  - split; rewrite ?Ef, ?Esb, ?Efd; auto; try (rewrite Ei; apply W).
    + intros a Hin'. apply (added_in_file _ _ _ _ _ _ Had) in Hin' as [->|Hin']; [by split|].
      apply (fw_data _ _ _ W) in Hin' as [Hr Hn]. split; [done|]. rewrite Hfl in Hn. set_solver.
    + intros bn bn'. by apply (added_inj V i V' i' b).
    + intros bn. by apply (added_ind V i V' i' b).
    + rewrite Ei. intros bn Hbn Hs. pose proof (fw_mapped _ _ _ W bn Hbn Hs) as Hm.
      assert (0 <= bn < MAXFILE) as Hr.
      { pose proof (fw_size _ _ _ W). cbn [i_size set_i_addrs] in Hs. assert (BSIZE = 512) by reflexivity. lia. }
      rewrite <- Ei. destruct (added_addr _ _ _ _ _ bn Had Hr) as [->|[E _]]; done.
  - intros x Hx. simpl in Hx. lia.
  - intros x Hx. simpl in Hx. lia.
  - intros x Hx _ Hm. pose proof (mapped_range x Hx) as Hr. unfold fbyte.
    destruct (added_addr _ _ _ _ _ _ Had Hr) as [->|[E _]]; [|done].
    rewrite Hkeep; [done|..|by apply (fw_ind _ _ _ W)].
    + apply (fw_data _ _ _ W). split; [done|]. right. by eexists.
    + intros E. apply Hnb. split; [lia|]. right. by eexists.
Qed.

(** What an allocation leaves alone. *)
Lemma alloc_block_other V b fl n :
  alloc_wf start V -> free_blocks V = b :: fl ->
  (first_data V <= n /\ n <> b) \/ n < sb_ninodes (sbv V) / IPB + 3 -> alloc_block V b n = V n.
Proof.
  intros Ha Hfl Hn. assert (b ∈ free_blocks V) as Hin by (rewrite Hfl; by left).
  pose proof (aw_free _ _ Ha b Hin) as Hb. apply elem_of_free_blocks in Hin as [Hs _].
  pose proof (bmblock_range V b Hs).
  unfold alloc_block. rewrite !fn_lookup_insert_ne by lia. done.
Qed.

Lemma length_alloc_block V b n :
  (forall n, length (V n) = Z.to_nat BSIZE) -> length (alloc_block V b n) = Z.to_nat BSIZE.
Proof.
  intros Hl. unfold alloc_block. destruct (decide (n = b)) as [->|].
  - rewrite fn_lookup_insert. by rewrite length_replicate.
  - rewrite fn_lookup_insert_ne by done. destruct (decide (n = bmblock V b)) as [->|].
    + rewrite fn_lookup_insert. unfold mark_bit. by rewrite length_insert.
    + by rewrite fn_lookup_insert_ne.
Qed.

Lemma rd_zeros k n : rd 4 k (replicate n 0) = 0.
Proof.
  unfold rd, slice. rewrite drop_replicate, take_replicate.
  assert (forall m, le_dec (replicate m 0) = 0) as Hz; [|apply Hz].
  induction m as [|m IH]; simpl; [done|]. by rewrite IH.
Qed.

Lemma baddr_insert V i a x bn :
  a <> indirect i -> baddr (<[a := x]> V) i bn = baddr V i bn.
Proof. intros Hne. unfold baddr. by rewrite fn_lookup_insert_ne by done. Qed.

Lemma in_file_insert V i a x c : a <> indirect i -> in_file (<[a := x]> V) i c <-> in_file V i c.
Proof. intros Hne. unfold in_file. by setoid_rewrite baddr_insert. Qed.

(** Two offsets in the same block of a file. *)
Lemma same_block off x (bs : list Z) :
  0 <= off -> off mod BSIZE + Z.of_nat (length bs) <= BSIZE ->
  off <= x < off + Z.of_nat (length bs) ->
  x / BSIZE = off / BSIZE /\ x mod BSIZE = off mod BSIZE + (x - off).
Proof.
  intros Ho Hm Hx. assert (BSIZE = 512) as EB by reflexivity.
  pose proof (Z.mod_pos_bound off BSIZE ltac:(lia)). pose proof (Z.div_mod off BSIZE ltac:(lia)).
  split; symmetry.
  - apply (Z.div_unique_pos _ _ _ (off mod BSIZE + (x - off))); lia.
  - apply (Z.mod_unique_pos _ _ (off / BSIZE)); lia.
Qed.

(** The invariant of a file mentions its data blocks only by address. *)
Lemma file_wf_insert V i a x :
  alloc_wf start V -> first_data V <= a -> a <> indirect i -> file_wf start V i ->
  file_wf start (<[a := x]> V) i.
Proof.
  intros Ha Hd Hni W. destruct (insert_data_wf start V a x Ha Hd) as (E1 & E2 & E3).
  assert (first_data (<[a := x]> V) = first_data V) as E4 by (unfold first_data, bmblock; by rewrite E1).
  split; rewrite ?E1, ?E2, ?E4; try apply W.
  - intros c Hc. apply (fw_data _ _ _ W). by apply (in_file_insert V i a x).
  - intros bn bn'. rewrite !baddr_insert by done. apply (fw_inj _ _ _ W).
  - intros bn. rewrite !baddr_insert by done. apply (fw_ind _ _ _ W).
  - intros bn. rewrite !baddr_insert by done. apply (fw_mapped _ _ _ W).
Qed.

(** Storing bytes in a block the file has. *)
Lemma wrote_data V i off bs :
  (forall n, length (V n) = Z.to_nat BSIZE) -> alloc_wf start V -> file_wf start V i ->
  0 <= off -> off / BSIZE < MAXFILE -> off mod BSIZE + Z.of_nat (length bs) <= BSIZE ->
  let a := baddr V i (off / BSIZE) in a <> 0 ->
  wrote start V i (<[a := splice (Z.to_nat (off mod BSIZE)) bs (V a)]> V) i off bs 0.
Proof.
  intros Hlen Ha W Ho Hmax Hm a Hne. assert (BSIZE = 512) as EB by reflexivity.
  assert (0 <= off / BSIZE) by (apply Z.div_pos; lia).
  pose proof (Z.mod_pos_bound off BSIZE ltac:(lia)) as Hmod.
  assert (in_file V i a) as Hin by (split; [done|right; by exists (off / BSIZE)]).
  destruct (fw_data _ _ _ W a Hin) as [Hr Hnf].
  assert (a <> indirect i) as Hni by (by apply (fw_ind _ _ _ W)).
  set (x := splice _ _ _). destruct (insert_data_wf start V a x Ha ltac:(lia)) as (E1 & E2 & E3).
  assert (first_data (<[a := x]> V) = first_data V) as E4 by (unfold first_data, bmblock; by rewrite E1).
  split; rewrite ?E1, ?E2; auto.
  - by destruct i.
  - intros bn Hbn. left. by apply baddr_insert.
  - intros n Hn _ Hnin. rewrite fn_lookup_insert_ne; [done|]. by intros ->.
  - intros n Hn. pose proof (bmblock_range V 0 ltac:(pose proof (aw_size _ _ Ha); lia)).
    rewrite fn_lookup_insert_ne by lia. done.
  - intros n. destruct (decide (n = a)) as [->|]; [|by rewrite fn_lookup_insert_ne].
    rewrite fn_lookup_insert. unfold x. rewrite length_splice; rewrite Hlen; [done|lia].
  - apply file_wf_insert; [done|lia|done|done].
  - intros y Hy. destruct (same_block off y bs Ho Hm Hy) as [Eq _]. unfold mapped.
    by rewrite baddr_insert, Eq.
  - intros y Hy. destruct (same_block off y bs Ho Hm Hy) as [Eq Em]. unfold fbyte.
    rewrite baddr_insert by done. rewrite Eq, Em. fold a. rewrite fn_lookup_insert.
    unfold x. rewrite !list_lookup_total_alt. f_equal.
    rewrite lookup_splice_new; [f_equal; lia|rewrite Hlen; lia|lia].
  - intros y Hy Hout Hmap. unfold fbyte. rewrite baddr_insert by done.
    pose proof (mapped_range y Hy) as Hyr.
    destruct (decide (y / BSIZE = off / BSIZE)) as [Eq|Hneq].
    + rewrite Eq. fold a. rewrite fn_lookup_insert. unfold x.
      pose proof (Z.div_mod off BSIZE ltac:(lia)). pose proof (Z.div_mod y BSIZE ltac:(lia)).
      pose proof (Z.mod_pos_bound y BSIZE ltac:(lia)).
      rewrite !list_lookup_total_alt. f_equal.
      apply lookup_splice_old; [rewrite Hlen; lia|lia].
    + rewrite fn_lookup_insert_ne; [done|]. intros E. apply Hneq.
      apply (fw_inj _ _ _ W); [done|lia|done|done].
Qed.

Context (V : Z -> list Z) (i : inode) (b : Z) (fl : list Z).
Context (Hlen : forall n, length (V n) = Z.to_nat BSIZE).
Context (Ha : alloc_wf start V) (Hw : file_wf start V i).
Context (Hfl : free_blocks V = b :: fl) (Hb : b < start < 4294967296).

Lemma alloc_indirect : indirect i <> 0 -> alloc_block V b (indirect i) = V (indirect i).
Proof.
  intros Hi. destruct (fw_data _ _ _ Hw (indirect i)) as [Hr Hn]; [split; [done|by left]|].
  apply (alloc_block_other V b fl); [done..|]. left. split; [lia|].
  intros E. apply Hn. rewrite Hfl, E. by left.
Qed.

Lemma alloc_block_facts :
  sbv (alloc_block V b) = sbv V /\ free_blocks (alloc_block V b) = fl /\
  alloc_wf start (alloc_block V b).
Proof. by apply alloc_block_wf. Qed.

(** The free slot [k] of [addrs] gets the block [b]. *)
Lemma wrote_slot off k :
  (k < 13)%nat -> i_addrs i !!! k = 0 ->
  wrote start V i (alloc_block V b) (set_addr k b i) off [] 1.
Proof.
  intros Hk H0. destruct alloc_block_facts as (E1 & E2 & E3).
  pose proof (fw_len _ _ _ Hw) as Hl13. assert (NDIRECT = 12) as EN by reflexivity.
  assert (MAXFILE = 140) as EM by reflexivity.
  apply (wrote_alloc V i _ _ b fl); try done; try lia.
  - intros n. by apply length_alloc_block.
  - simpl. by rewrite length_insert.
  - intros n Hn. apply (alloc_block_other V b fl); auto.
  - intros n Hn Hne _. apply (alloc_block_other V b fl); auto.
  - unfold added, indirect, baddr, indirect. cbn [i_addrs set_addr set_i_addrs].
    destruct (decide (k = 12%nat)) as [->|Hne].
    + left. change (Z.to_nat NDIRECT) with 12%nat. rewrite list_lookup_total_insert_eq by lia.
      split_and!; [done..|]. intros bn Hbn. destruct (Z.ltb_spec bn NDIRECT).
      * rewrite list_lookup_total_insert_ne by lia. done.
      * rewrite H0. destruct (Z.eqb_spec b 0); [done|]. unfold alloc_block.
        rewrite fn_lookup_insert. apply rd_zeros.
    + right. change (Z.to_nat NDIRECT) with 12%nat. rewrite list_lookup_total_insert_ne by lia.
      split; [done|]. exists (Z.of_nat k). split; [lia|].
      destruct (Z.ltb_spec (Z.of_nat k) NDIRECT); [|lia]. rewrite Nat2Z.id. split; [done|].
      intros bn Hbn. destruct (Z.ltb_spec bn NDIRECT).
      * case_decide; subst.
        -- rewrite Nat2Z.id. rewrite list_lookup_total_insert_eq by lia. done.
        -- rewrite list_lookup_total_insert_ne by lia. done.
      * rewrite decide_False by lia. change (i_addrs i !!! 12%nat) with (indirect i).
        destruct (Z.eqb_spec (indirect i) 0); [done|].
        by rewrite alloc_indirect.
Qed.

(** The free entry [bn] of the indirect block gets the block [b]. *)
Lemma wrote_entry off bn :
  indirect i <> 0 -> NDIRECT <= bn < MAXFILE -> baddr V i bn = 0 ->
  wrote start V i
    (<[indirect i := wr 4 (4 * Z.to_nat (bn - NDIRECT)) b (V (indirect i))]> (alloc_block V b))
    i off [] 1.
Proof.
  intros Hi Hbn H0. destruct alloc_block_facts as (E1 & E2 & E3).
  assert (NDIRECT = 12) as EN by reflexivity. assert (MAXFILE = 140) as EM by reflexivity.
  destruct (fw_data _ _ _ Hw (indirect i)) as [Hr Hn]; [split; [done|by left]|].
  pose proof (aw_low _ _ Ha). set (x := wr _ _ _ _).
  assert (length x = Z.to_nat BSIZE) as Hx.
  { unfold x. rewrite length_wr; rewrite Hlen; [done|]. change (Z.to_nat BSIZE) with 512%nat. lia. }
  assert (first_data (alloc_block V b) = first_data V) as E4 by (unfold first_data, bmblock; by rewrite E1).
  destruct (insert_data_wf start (alloc_block V b) (indirect i) x E3 ltac:(lia)) as (F1 & F2 & F3).
  apply (wrote_alloc V i _ _ b fl); try done; try lia.
  - by rewrite F1, E1.
  - by rewrite F2, E2.
  - intros n. destruct (decide (n = indirect i)) as [->|]; [by rewrite fn_lookup_insert|].
    rewrite fn_lookup_insert_ne by done. by apply length_alloc_block.
  - by destruct i.
  - apply (fw_len _ _ _ Hw).
  - intros n Hlt. pose proof (bmblock_range V 0 ltac:(pose proof (aw_size _ _ Ha); lia)).
    rewrite fn_lookup_insert_ne by lia. apply (alloc_block_other V b fl); auto.
  - intros n Hlt Hne Hni. rewrite fn_lookup_insert_ne by done. apply (alloc_block_other V b fl); auto.
  - right. split; [done|]. exists bn. split; [lia|]. split; [done|].
    intros c Hc. unfold baddr. destruct (Z.ltb_spec c NDIRECT); [rewrite decide_False by lia; done|].
    rewrite (proj2 (Z.eqb_neq _ 0) Hi), fn_lookup_insert. unfold x.
    case_decide as Ec.
    + subst c. rewrite rd_wr_same by (rewrite Hlen; change (Z.to_nat BSIZE) with 512%nat; lia).
      apply Z.mod_small. pose proof (aw_free _ _ Ha b ltac:(rewrite Hfl; by left)).
      change (2 ^ (8 * Z.of_nat 4)) with 4294967296. lia.
    + rewrite rd_wr_other; [done|rewrite Hlen; change (Z.to_nat BSIZE) with 512%nat; lia|lia].
Qed.

End Wrote.

(** ** [bmap] *)

(** How many blocks the indirect pointer still needs. *)
Definition cind (i : inode) : nat := if indirect i =? 0 then 1 else 0.

Lemma wrote_set_mapped start V i V' i' off bs k bn :
  wrote start V i V' i' off bs k -> in_file V' i' (baddr V' i' bn) -> baddr V' i' bn <> 0.
Proof. by intros _ []. Qed.

Lemma tframe_inode ip f s s' : tframe s s' -> tframe (upd_inode ip f s) (upd_inode ip f s').
Proof.
  intros [Fr D L O]. split; [|done|done|done]. unfold lframe in *.
  assert (set_k_log (k_log s') (upd_inode ip f s) = upd_inode ip f (set_k_log (k_log s') s)) as E by done.
  change (k_log (upd_inode ip f s')) with (k_log s'). rewrite E. by apply bio_frame_inode.
Qed.

Lemma upd_inode_id ip s i : k_inodes s !!! ip = i -> upd_inode ip (fun _ => i) s = s.
Proof.
  intros <-.
  transitivity (upd_inode ip id s); [by apply upd_inode_ext|].
  unfold upd_inode. rewrite list_alter_id by done. by destruct s.
Qed.

Section Bmap.
Context {WF : WakeFuel}.
Context (start size : Z).
Implicit Types (V : Z -> list Z) (F : gset Z).

Lemma tx_start F s V H : tx start size F s V H -> start < 4294967296.
Proof.
  intros T. pose proof (tx_disk _ _ _ _ _ _ T).
  destruct (ci_geom _ _ _ _ (ti_crash _ _ _ _ _ (tx_inv _ _ _ _ _ _ T))). lia.
Qed.

(** The footprint has the next [m] free blocks and their bitmap blocks. *)
Definition may_alloc F V (m : nat) : Prop :=
  forall b, b ∈ take m (free_blocks V) -> b ∈ F /\ bmblock V b ∈ F.

Lemma may_alloc_le F V m n : (n <= m)%nat -> may_alloc F V m -> may_alloc F V n.
Proof.
  intros Hle HF b Hb. apply HF. by apply elem_of_take_add_le with n.
Qed.

(** Allocating a block for slot [k] of [addrs]. *)
Lemma wpp_alloc_slot F s V ip k off :
  tx start size F s V ∅ -> (ip < length (k_inodes s))%nat -> let i := k_inodes s !!! ip in
  alloc_wf start V -> file_wf start V i -> (k < 13)%nat -> i_addrs i !!! k = 0 -> may_alloc F V 1 ->
  wpp (addr ← balloc (i_dev i); modify (upd_inode ip (set_addr k addr));; mret addr)
    (fun b s' => exists fl, free_blocks V = b :: fl /\
       wrote start V i (alloc_block V b) (set_addr k b i) off [] 1 /\
       tframe (upd_inode ip (fun _ => set_addr k b i) s) s' /\ tx start size F s' (alloc_block V b) ∅)
    (fun e => e = "balloc: out of blocks"%string /\ free_blocks V = []) s.
Proof.
  intros T Hip i Ha W Hk H0 HF. rewrite (fw_dev _ _ _ W).
  assert (forall b fl, free_blocks V = b :: fl -> b ∈ F /\ bmblock V b ∈ F) as HF'.
  { intros b fl E. apply HF. rewrite E. simpl. by left. }
  apply wpp_bind. eapply wpp_mono.
  { apply (wpp_balloc start size F s V ∅); [done|done|split; [by rewrite map_size_empty; lia|done]|done]. }
  intros b s1 (fl & Hfl & F1 & T1). wstep. wstep. exists fl.
  pose proof (tx_home _ _ _ _ _ _ T b (proj1 (HF' _ _ Hfl))). pose proof (tx_start _ _ _ _ T).
  split; [done|]. split; [|split; [|by apply tx_inodes]].
  - apply (wrote_slot start V i b fl); [intros n; apply (tx_vlen _ _ _ _ _ _ n T)|done..|lia|done|done].
  - rewrite (upd_inode_ext ip (fun _ => set_addr k b i) (set_addr k b) s) by done.
    by apply tframe_inode.
Qed.

(** Allocating a block for the entry [bn] of the indirect block, which the
    caller holds. *)
Lemma wpp_new_entry F s V i bp bn off :
  tx start size F s V {[bp := indirect i]} ->
  alloc_wf start V -> file_wf start V i -> NDIRECT <= bn < MAXFILE -> indirect i <> 0 ->
  baddr V i bn = 0 -> may_alloc F V 1 -> indirect i ∈ F ->
  wpp (addr ← balloc 1;
       modify (upd_buf bp (fun r => set_b_data (wr 4 (4 * Z.to_nat (bn - NDIRECT)) addr (b_data r)) r));;
       log_write bp;;
       mret addr)
    (fun b s' => exists V', wrote start V i V' i off [] 1 /\ b = baddr V' i bn /\ b <> 0 /\
       tframe s s' /\ tx start size F s' V' {[bp := indirect i]} /\ clean s' V' (indirect i))
    (fun e => e = "balloc: out of blocks"%string /\ free_blocks V = []) s.
Proof.
  intros T Ha W Hbn Hi H0 HF HFi.
  assert (BSIZE = 512) as EB by reflexivity. assert (MAXFILE = 140) as EM by reflexivity.
  assert (NDIRECT = 12) as EN by reflexivity.
  destruct (fw_data _ _ _ W (indirect i)) as [Hr Hnf]; [split; [done|by left]|].
  apply wpp_bind. eapply wpp_mono.
  { apply (wpp_balloc start size F s V {[bp := indirect i]}); [done|done| |].
    - split; [rewrite map_size_singleton; lia|]. intros j n [_ <-]%lookup_singleton_Some.
      split; [lia|done].
    - intros b fl E. apply HF. rewrite E. simpl. by left. }
  intros b s2 (fl & Hfl & F2 & T2). wstep.
  destruct (HF b) as [HFb HFm]; [rewrite Hfl; simpl; by left|].
  pose proof (tx_home _ _ _ _ _ _ T b HFb). pose proof (tx_start _ _ _ _ T).
  pose proof (fun n => tx_vlen _ _ _ _ _ _ n T) as Hlen.
  assert (alloc_block V b (indirect i) = V (indirect i)) as Eai by (by apply (alloc_indirect start V i b fl)).
  destruct (tx_assign start size F s2 _ _ bp (indirect i) (wr 4 (4 * Z.to_nat (bn - NDIRECT)) b) T2)
    as [F3 T3]; [by rewrite lookup_singleton_eq|rewrite Eai, length_wr; rewrite Hlen; lia|].
  rewrite Eai in T3. wapply (wp_tx_log_write start size F); [done|by rewrite lookup_singleton_eq|done|].
  intros [] s4 (F4 & T4 & C4). wstep. eexists.
  split; [apply (wrote_entry start V i b fl Hlen Ha W Hfl ltac:(lia) off bn); done|].
  split; [|split; [lia|]].
  - unfold baddr. destruct (Z.ltb_spec bn NDIRECT); [lia|].
    rewrite (proj2 (Z.eqb_neq _ 0) Hi), fn_lookup_insert, rd_wr_same by (rewrite Hlen; lia).
    symmetry. apply Z.mod_small. change (2 ^ (8 * Z.of_nat 4)) with 4294967296. lia.
  - split; [etrans; [done|]; by etrans|done].
Qed.

(** The second half of [bmap]: the entry of the indirect block. *)
Lemma wpp_bmap_entry F s V ip bn off :
  tx start size F s V ∅ -> let i := k_inodes s !!! ip in
  alloc_wf start V -> file_wf start V i -> NDIRECT <= bn < MAXFILE -> indirect i <> 0 ->
  may_alloc F V 1 -> indirect i ∈ F ->
  wpp (j ← getinode ip;
       bp ← bread (i_dev j) (indirect i);
       r ← getbuf bp;
       addr ←
        (let addr := rd 4 (4 * Z.to_nat (bn - NDIRECT)) (b_data r) in
         if addr =? 0 then
           addr ← balloc (i_dev j);
           modify (upd_buf bp (fun r => set_b_data (wr 4 (4 * Z.to_nat (bn - NDIRECT)) addr (b_data r)) r));;
           log_write bp;;
           mret addr
         else mret addr);
       brelse bp;;
       mret addr)
    (fun a s' => exists V' k, wrote start V i V' i off [] k /\ a = baddr V' i bn /\ a <> 0 /\
       (k <= 1)%nat /\ (baddr V i bn <> 0 -> k = 0%nat) /\
       tframe s s' /\ tx start size F s' V' ∅)
    (fun e => e = "balloc: out of blocks"%string /\ free_blocks V = []) s.
Proof.
  intros T i Ha W Hbn Hi HF HFi. wstep. fold i. rewrite (fw_dev _ _ _ W).
  assert (BSIZE = 512) as EB by reflexivity. assert (MAXFILE = 140) as EM by reflexivity.
  assert (NDIRECT = 12) as EN by reflexivity.
  destruct (fw_data _ _ _ W (indirect i)) as [Hr Hnf]; [split; [done|by left]|].
  wapply (wp_tx_bread start size F s V ∅ (indirect i)); [done|lia|done|rewrite map_size_empty; lia|].
  intros bp s1 (F1 & T1 & N1 & D1 & C1). rewrite insert_empty in T1. wstep. rewrite D1. cbv zeta.
  assert (baddr V i bn = rd 4 (4 * Z.to_nat (bn - NDIRECT)) (V (indirect i))) as Eb.
  { unfold baddr. destruct (Z.ltb_spec bn NDIRECT); [lia|]. by rewrite (proj2 (Z.eqb_neq _ 0) Hi). }
  rewrite <- Eb. destruct (Z.eqb_spec (baddr V i bn) 0) as [E0|Hne].
  2: { wstep. wapply (wp_tx_brelse start size F s1 V _ bp (indirect i)); [done|by rewrite lookup_singleton_eq|done|].
       intros [] s2 (F2 & T2). rewrite delete_singleton_eq in T2. wstep. exists V, 0%nat.
       split; [apply wrote_refl; [intros n; apply (tx_vlen _ _ _ _ _ _ n T)|done..]|].
       split_and!; [done|done|lia|done|by etrans|done]. }
  apply wpp_bind. eapply wpp_mono; [by apply (wpp_new_entry F s1 V i bp bn off)|].
  intros b s2 (V' & W' & -> & Hb & F2 & T2 & C2).
  wapply (wp_tx_brelse start size F s2 _ _ bp (indirect i)); [done|by rewrite lookup_singleton_eq|done|].
  intros [] s3 (F3 & T3). rewrite delete_singleton_eq in T3. wstep. exists V', 1%nat.
  split_and!; [done..|lia|done| |done]. etrans; [done|]. by etrans.
Qed.

Lemma cind_slot k b i :
  length (i_addrs i) = 13%nat -> b <> 0 -> cind (set_addr k b i) = if decide (k = 12%nat) then 0%nat else cind i.
Proof.
  intros Hl Hb. unfold cind, indirect. cbn [i_addrs set_addr set_i_addrs].
  change (Z.to_nat NDIRECT) with 12%nat. case_decide as E.
  - subst. rewrite list_lookup_total_insert_eq by lia. by rewrite (proj2 (Z.eqb_neq _ 0) Hb).
  - by rewrite list_lookup_total_insert_ne by done.
Qed.

Lemma wpp_bmap F s V ip bn off :
  tx start size F s V ∅ -> (ip < length (k_inodes s))%nat -> let i := k_inodes s !!! ip in
  alloc_wf start V -> file_wf start V i -> 0 <= bn < MAXFILE -> 0 <= off <= MAXFILE * BSIZE ->
  may_alloc F V (1 + cind i) -> (NDIRECT <= bn -> indirect i <> 0 -> indirect i ∈ F) ->
  wpp (bmap ip bn)
    (fun a s' => exists V' i' k, wrote start V i V' i' off [] k /\ a = baddr V' i' bn /\ a <> 0 /\
       (k + cind i' <= 1 + cind i)%nat /\ (baddr V i bn <> 0 -> k = 0%nat) /\
       tframe (upd_inode ip (fun _ => i') s) s' /\ tx start size F s' V' ∅)
    (fun e => e = "balloc: out of blocks"%string /\ (length (free_blocks V) < 1 + cind i)%nat) s.
Proof.
  intros T Hip i Ha W Hbn Ho HF HFi. unfold bmap. wstep. fold i. cbv zeta.
  assert (NDIRECT = 12) as EN by reflexivity. assert (MAXFILE = 140) as EM by reflexivity.
  assert (NINDIRECT = 128) as EI by reflexivity.
  pose proof (fun n => tx_vlen _ _ _ _ _ _ n T) as Hlen. pose proof (aw_low _ _ Ha) as Hlow.
  pose proof (fw_len _ _ _ W) as Hl13.
  destruct (Z.ltb_spec bn NDIRECT) as [Hd|Hd].
  { assert (baddr V i bn = i_addrs i !!! Z.to_nat bn) as Eb.
    { unfold baddr. by rewrite (proj2 (Z.ltb_lt _ _) Hd). }
    rewrite <- Eb. destruct (Z.eqb_spec (baddr V i bn) 0) as [E0|Hne].
    2: { wstep. exists V, i, 0%nat. split; [by apply wrote_refl|].
         split_and!; [done|done|lia|done| |done]. by rewrite upd_inode_id by done. }
    eapply wpp_weaken.
    - apply (wpp_alloc_slot F s V ip (Z.to_nat bn) off); [done..|lia|exact (eq_trans (eq_sym Eb) E0)|].
      apply (may_alloc_le _ _ (1 + cind i)); [lia|done].
    - intros b s' (fl & Hfl & W' & F' & T'). exists (alloc_block V b), (set_addr (Z.to_nat bn) b i), 1%nat.
      pose proof (aw_free _ _ Ha b ltac:(rewrite Hfl; by left)).
      split; [done|]. split.
      { unfold baddr. rewrite (proj2 (Z.ltb_lt _ _) Hd). simpl.
        by rewrite list_lookup_total_insert_eq by lia. }
      rewrite cind_slot, decide_False by lia. split_and!; [lia|lia|done..].
    - intros e [-> ->]. simpl. split; [done|lia]. }
  destruct (Z.ltb_spec (bn - NDIRECT) NINDIRECT); [|lia]. fold (indirect i).
  destruct (Z.eqb_spec (indirect i) 0) as [Hi|Hi].
  2: { wstep. eapply wpp_weaken.
       - apply (wpp_bmap_entry F s V ip bn off); [done|done|done|lia|done| |by apply HFi].
         apply (may_alloc_le _ _ (1 + cind i)); [lia|done].
       - intros a s' (V' & k & W' & -> & Hne & Hk & Hk0 & F' & T'). exists V', i, k.
         rewrite upd_inode_id by done. split_and!; [done..|lia|done|done|done].
       - intros e [-> ->]. simpl. split; [done|lia]. }
  apply wpp_bind. eapply wpp_weaken.
  { apply (wpp_alloc_slot F s V ip 12 off); [done..|lia|done|].
    apply (may_alloc_le _ _ (1 + cind i)); [lia|done]. }
  2: { intros e [-> ->]. simpl. split; [done|lia]. }
  intros b s1 (fl & Hfl & W1 & F1 & T1). set (i1 := set_addr 12 b i) in *.
  assert (Hc : cind i = 1%nat) by (unfold cind; by rewrite Hi).
  pose proof (aw_free _ _ Ha b ltac:(rewrite Hfl; by left)).
  assert (indirect i1 = b) as Eb1.
  { unfold indirect, i1. simpl. change (Pos.to_nat 12) with 12%nat. by rewrite list_lookup_total_insert_eq by lia. }
  assert (k_inodes s1 !!! ip = i1) as Ei1 by (rewrite (tframe_inodes _ _ F1); by apply alter_self_eq).
  pose proof (wr_free _ _ _ _ _ _ _ _ W1) as Ef. rewrite Hfl in Ef. simpl in Ef. rewrite drop_0 in Ef.
  pose proof (HF b) as HFb. rewrite Hc, Hfl in HFb. destruct HFb as [HFb HFm]; [by left|].
  assert (may_alloc F (alloc_block V b) 1) as HF1.
  { intros c. rewrite Ef. intros Hin. unfold bmblock. rewrite (wr_sb _ _ _ _ _ _ _ _ W1). apply HF.
    rewrite Hc, Hfl. simpl. right. by destruct fl. }
  pose proof (wpp_bmap_entry F s1 (alloc_block V b) ip bn off T1) as Hent. cbv zeta in Hent.
  rewrite Ei1, Eb1 in Hent. eapply wpp_weaken.
  - apply Hent; [apply W1|apply W1|lia|lia|done|done].
  - intros a s' (V' & k & W' & -> & Hne & Hk & Hk0 & F' & T'). exists V', i1, (1 + k)%nat.
    assert (cind i1 = 0%nat) as -> by (unfold i1; rewrite cind_slot, decide_True by (done || lia); done).
    rewrite Hc. split; [|split_and!; [done|done|lia| |by etrans|done]].
    + apply (wrote_trans start V i (alloc_block V b) i1 V' i1 off [] [] 1 k); [lia|simpl; lia|done|].
      simpl. by rewrite Z.add_0_r.
    + unfold baddr. destruct (Z.ltb_spec bn NDIRECT); [lia|]. by rewrite Hi.
  - intros e [-> E]. rewrite Ef in E. rewrite Hc, Hfl, E. simpl. split; [done|lia].
Qed.

End Bmap.

(** ** The copying loop of [writei] *)

(** How many blocks [n] bytes at [off] touch. *)
Definition nblk (off n : Z) : nat :=
  if n <=? 0 then 0%nat else Z.to_nat ((off + n - 1) / BSIZE - off / BSIZE + 1).

Lemma nblk_step off n :
  0 <= off -> 0 < n -> let m := Z.min n (BSIZE - off mod BSIZE) in
  nblk off n = S (nblk (off + m) (n - m)).
Proof.
  intros Ho Hn m. assert (BSIZE = 512) as EB by reflexivity. unfold nblk.
  pose proof (Z.mod_pos_bound off BSIZE ltac:(lia)). pose proof (Z.div_mod off BSIZE ltac:(lia)).
  assert (off / BSIZE <= (off + n - 1) / BSIZE) by (apply Z.div_le_mono; lia).
  destruct (Z.leb_spec n 0); [lia|]. destruct (Z.leb_spec (n - m) 0).
  - assert ((off + n - 1) / BSIZE = off / BSIZE) as ->; [|lia].
    symmetry. apply (Z.div_unique_pos _ _ _ (off mod BSIZE + n - 1)); lia.
  - assert (m = BSIZE - off mod BSIZE) as Em by lia.
    assert ((off + m) / BSIZE = off / BSIZE + 1) as ->.
    { symmetry. apply (Z.div_unique_pos _ _ _ 0); lia. }
    replace (off + m + (n - m) - 1) with (off + n - 1) by lia.
    assert (off / BSIZE + 1 <= (off + n - 1) / BSIZE); [|lia].
    apply Z.div_le_lower_bound; lia.
Qed.

Section Writing.
Context {WF : WakeFuel}.
Context (start size : Z).
Implicit Types (V : Z -> list Z) (F : gset Z).

(** The footprint of a write of [n] bytes at [off]: the blocks it touches, the
    indirect block if it gets that far, and the blocks it may have to
    allocate. *)
Record may_write F V (i : inode) (off n : Z) : Prop := {
  mw_alloc : may_alloc F V (nblk off n + cind i);
  mw_data : forall bn, off / BSIZE <= bn < MAXFILE -> bn * BSIZE < off + n -> baddr V i bn <> 0 ->
    baddr V i bn ∈ F;
  mw_ind : NDIRECT * BSIZE < off + n -> indirect i <> 0 -> indirect i ∈ F;
}.

(** After the first round of the loop the footprint covers the rest. *)
Lemma may_write_step F V i V1 i1 off n bs k :
  0 <= off -> 0 < n -> let m := Z.min n (BSIZE - off mod BSIZE) in
  may_write F V i off n -> wrote start V i V1 i1 off bs k -> (k + cind i1 <= 1 + cind i)%nat ->
  may_write F V1 i1 (off + m) (n - m).
Proof.
  intros Ho Hn m [HA HD HI] W Hk. pose proof (nblk_step off n Ho Hn) as En. cbv zeta in En. fold m in En.
  assert (BSIZE = 512) as EB by reflexivity.
  assert (forall b, b ∈ take k (free_blocks V) -> b ∈ F) as HkF.
  { intros b Hb. apply HA. apply elem_of_take_add_le with k; [lia|done]. }
  split.
  - intros b Hb. unfold bmblock. rewrite (wr_sb _ _ _ _ _ _ _ _ W). apply HA.
    rewrite (wr_free _ _ _ _ _ _ _ _ W) in Hb.
    apply elem_of_take_add_le with (k + (nblk (off + m) (n - m) + cind i1))%nat; [lia|].
    apply elem_of_take_add. by right.
  - intros bn Hbn Hend Hne. pose proof (Z.mod_pos_bound off BSIZE ltac:(lia)).
    assert (off / BSIZE <= (off + m) / BSIZE) by (apply Z.div_le_mono; lia).
    assert (0 <= off / BSIZE) by (apply Z.div_pos; lia).
    destruct (wr_addr _ _ _ _ _ _ _ _ W bn ltac:(lia)) as [E|[_ Hin]]; [|by apply HkF].
    rewrite E in *. apply HD; [lia|lia|done].
  - intros Hend Hne. destruct (wr_ind _ _ _ _ _ _ _ _ W) as [E|[_ Hin]]; [|by apply HkF].
    rewrite E in *. apply HI; [lia|done].
Qed.

End Writing.
