(* ===== verification/ContentSpec.v ===== *)
(** * [writei], and the contents of files

    What [writei] does to a file, in all cases: it stores the bytes it was
    given at the offset it was given, extends the file when it has to, and
    leaves the other bytes of this file and all other files alone.  Then
    [readi] gives the bytes back. *)

From S2P Require Import Prelude Monad State Strings Sched Bio BioSpec Layout Log Crash LogSpec.
From S2P Require Import LogCrash Txn Inode FsSpec InodeSpec Console Content ReadSpec WriteSpec.

Section Writei.
Context {WF : WakeFuel}.
Context (start size : Z).
Implicit Types (V : Z -> list Z) (F : gset Z).

(** One round of the loop: the block, and the bytes that go into it. *)
Lemma wpp_write_block {A} F s V ip off bs n (k : K A) Q E :
  tx start size F s V ∅ -> (ip < length (k_inodes s))%nat -> let i := k_inodes s !!! ip in
  alloc_wf start V -> file_wf start V i -> 0 <= off -> off < off + n <= MAXFILE * BSIZE ->
  may_write F V i off n -> (0 < length bs)%nat -> off mod BSIZE + Z.of_nat (length bs) <= BSIZE ->
  (forall s' V' i' j, wrote start V i V' i' off bs j -> (j + cind i' <= 1 + cind i)%nat ->
     (mapped V i off -> j = 0%nat) -> tframe (upd_inode ip (fun _ => i') s) s' ->
     tx start size F s' V' ∅ -> wpp k Q E s') ->
  ((length (free_blocks V) < 1 + cind i)%nat -> E "balloc: out of blocks"%string) ->
  wpp (a ← bmap ip (off / BSIZE);
       bp ← bread 1 a;
       modify (upd_buf bp (fun r => set_b_data
         (splice (Z.to_nat (off mod BSIZE)) bs (b_data r)) r));;
       log_write bp;;
       brelse bp;;
       k) Q E s.
Proof.
  intros T Hip i Ha W Ho Hn MW Hbs Hb Hk HE. assert (BSIZE = 512) as EB by reflexivity.
  pose proof (Z.mod_pos_bound off BSIZE ltac:(lia)). pose proof (Z.div_mod off BSIZE ltac:(lia)).
  pose proof (mapped_range off ltac:(lia)) as Hr.
  assert (nblk off n = S (nblk (off + Z.min n (BSIZE - off mod BSIZE)) (n - Z.min n (BSIZE - off mod BSIZE))))
    as En by (apply nblk_step; lia).
  apply wpp_bind. eapply wpp_weaken.
  { apply (wpp_bmap start size F s V ip (off / BSIZE) off); [done|done|done|done|done|lia|..].
    - apply (may_alloc_le _ _ (nblk off n + cind i)); [fold i; lia|]. apply MW.
    - intros Hd. apply (mw_ind _ _ _ _ _ MW). lia. }
  2: { intros e [-> He]. by apply HE. }
  intros a s1 (V1 & i1 & j & W1 & -> & Hne & Hj & Hj0 & F1 & T1). fold i in W1, Hj, Hj0.
  assert (baddr V1 i1 (off / BSIZE) ∈ F) as HaF.
  { destruct (wr_addr _ _ _ _ _ _ _ _ W1 (off / BSIZE) Hr) as [Ea|[_ Hin]].
    - rewrite Ea in *. apply (mw_data _ _ _ _ _ MW); [lia|lia|done].
    - apply (mw_alloc _ _ _ _ _ MW). apply elem_of_take_add_le with j; [lia|done]. }
  pose proof (wr_wf _ _ _ _ _ _ _ _ W1) as Wf1. pose proof (wr_len _ _ _ _ _ _ _ _ W1) as Hlen.
  pose proof (tx_home _ _ _ _ _ _ T1 _ HaF).
  wapply (wp_tx_bread start size F s1 V1 ∅ (baddr V1 i1 (off / BSIZE))); [done|lia|done|rewrite map_size_empty; lia|].
  intros bp s2 (F2 & T2 & N2 & D2 & C2). rewrite insert_empty in T2.
  apply (wpp_tx_update_then start size F s2 V1 {[bp := baddr V1 i1 (off / BSIZE)]} bp (baddr V1 i1 (off / BSIZE))
           (splice (Z.to_nat (off mod BSIZE)) bs)); [done|by rewrite lookup_singleton_eq|done|..].
  { rewrite length_splice; rewrite Hlen; [done|lia]. }
  intros s3 F3 T3. rewrite delete_singleton_eq in T3.
  eapply (Hk s3 _ i1 j); [|done|done| |exact T3].
  - replace j with (j + 0)%nat by lia. change bs with ([] ++ bs).
    eapply (wrote_trans start V i V1 i1); [lia|simpl; lia|exact W1|].
    simpl. rewrite Z.add_0_r. apply wrote_data; [done|apply W1|done|lia|lia|lia|done].
  - etrans; [done|]. by etrans.
Qed.

Lemma wpp_writei_loop F ip n : forall fuel tot off src s V,
  tx start size F s V ∅ -> (ip < length (k_inodes s))%nat -> let i := k_inodes s !!! ip in
  alloc_wf start V -> file_wf start V i -> 0 <= off -> 0 <= tot <= n ->
  off + (n - tot) <= MAXFILE * BSIZE -> n - tot <= Z.of_nat (length src) ->
  may_write F V i off (n - tot) -> (1 <= fuel)%nat ->
  n = tot \/ off mod BSIZE + (n - tot) <= BSIZE * (Z.of_nat fuel - 1) ->
  wpp (loop fuel (fun '(tot, off, src) =>
      if tot <? n then
        a ← bmap ip (off / BSIZE);
        bp ← bread 1 a;
        let m := Z.min (n - tot) (BSIZE - off mod BSIZE) in
        modify (upd_buf bp (fun r => set_b_data
          (splice (Z.to_nat (off mod BSIZE)) (take (Z.to_nat m) src) (b_data r)) r));;
        log_write bp;;
        brelse bp;;
        mret (inl (tot + m, off + m, drop (Z.to_nat m) src))
      else mret (inr off)) (tot, off, src))
    (fun r s' => r = off + (n - tot) /\ exists V' i' k,
       wrote start V i V' i' off (take (Z.to_nat (n - tot)) src) k /\
       (k + cind i' <= nblk off (n - tot) + cind i)%nat /\
       ((forall x, off <= x < off + (n - tot) -> mapped V i x) -> k = 0%nat) /\
       tframe (upd_inode ip (fun _ => i') s) s' /\ tx start size F s' V' ∅)
    (fun e => e = "balloc: out of blocks"%string /\
       (length (free_blocks V) < nblk off (n - tot) + cind i)%nat) s.
Proof.
  assert (BSIZE = 512) as EB by reflexivity.
  induction fuel as [|fuel IH]; intros tot off src s V T Hip i Ha W Ho Ht Hmax Hsrc MW H1 Hf; [lia|].
  apply wpp_loop. destruct (Z.ltb_spec tot n) as [Hlt|Hge].
  2: { wstep. replace (n - tot) with 0 by lia. split; [lia|]. exists V, i, 0%nat.
       split; [apply wrote_refl; [intros x; apply (tx_vlen _ _ _ _ _ _ x T)|done..]|].
       rewrite upd_inode_id by done. split_and!; [lia|done|done|done]. }
  destruct Hf as [->|Hf]; [lia|]. cbv zeta. set (m := Z.min (n - tot) (BSIZE - off mod BSIZE)).
  pose proof (Z.mod_pos_bound off BSIZE ltac:(lia)). pose proof (Z.div_mod off BSIZE ltac:(lia)).
  assert (length (take (Z.to_nat m) src) = Z.to_nat m) as Hlm by (rewrite length_take; lia).
  pose proof (nblk_step off (n - tot) Ho ltac:(lia)) as En. cbv zeta in En. fold m in En.
  apply (wpp_write_block F s V ip off (take (Z.to_nat m) src) (n - tot)); [done|done|done|done|lia|lia|done|lia|lia|..].
  2: { fold i. intros He. split; [done|]. lia. }
  intros s1 V1 i1 j W1 Hj Hj0 F1 T1. fold i in W1, Hj, Hj0. wstep.
  assert (k_inodes s1 !!! ip = i1) as Ei1 by (rewrite (tframe_inodes _ _ F1); by apply alter_self_eq).
  assert (n - (tot + m) = n - tot - m) as Ent by lia.
  eapply wpp_weaken.
  { apply (IH (tot + m) (off + m) (drop (Z.to_nat m) src) s1 V1); rewrite ?Ei1, ?Ent; [done| |apply W1|apply W1|lia|lia|lia| | |lia|].
    - rewrite (tframe_inodes _ _ F1). simpl. by rewrite length_alter.
    - rewrite length_drop. lia.
    - by apply (may_write_step start F V i V1 i1 off (n - tot) (take (Z.to_nat m) src) j); [lia|lia|..].
    - destruct (decide (m = n - tot)); [left; lia|right].
      replace (off + m) with (0 + (off / BSIZE + 1) * BSIZE) by lia.
      rewrite Z.mod_add, Z.mod_0_l by lia. lia. }
  - rewrite Ei1, Ent. intros r s2 (-> & V2 & i2 & k & W2 & Hk & Hk0 & F2 & T2).
    split; [lia|]. exists V2, i2, (j + k)%nat. split; [|split_and!].
    + replace (Z.to_nat (n - tot)) with (Z.to_nat m + Z.to_nat (n - tot - m))%nat by lia.
      rewrite <- take_take_drop. apply (wrote_trans start V i V1 i1 V2 i2); [lia| |done|].
      * rewrite Hlm, length_take, length_drop. lia.
      * rewrite Hlm, Z2Nat.id by lia. done.
    + lia.
    + intros Hm. rewrite Hj0 by (apply Hm; lia). apply Hk0. intros x Hx.
      apply (wrote_mapped start V i V1 i1 off (take (Z.to_nat m) src) j); [done|lia|apply Hm; lia].
    + etrans; [|exact F2]. rewrite <- (upd_inode_twice ip (fun _ => i2) (fun _ => i1)). by apply tframe_inode.
    + done.
  - rewrite Ei1, Ent. intros e [-> He]. split; [done|].
    rewrite (wr_free _ _ _ _ _ _ _ _ W1), length_drop in He. lia.
Qed.

End Writei.

(** ** Files as byte strings *)

(** The contents of a file: the specification of [readi] and [writei] is in
    terms of [slice] and [splice] on it. *)
Definition content (V : Z -> list Z) (i : inode) : list Z := fbytes V i 0 (i_size i).

Lemma length_content V i : length (content V i) = Z.to_nat (i_size i).
Proof. apply length_fbytes. Qed.

Lemma lookup_fbytes V i off n k :
  (k < Z.to_nat n)%nat -> fbytes V i off n !! k = Some (fbyte V i (off + Z.of_nat k)).
Proof. intros Hk. unfold fbytes. by rewrite list_lookup_fmap, lookup_seqZ_lt by lia. Qed.

Lemma fbytes_slice V i off n :
  0 <= off -> 0 <= n -> off + n <= i_size i ->
  fbytes V i off n = slice (Z.to_nat off) (Z.to_nat n) (content V i).
Proof.
  intros Ho Hn Hs. apply list_eq. intros k. destruct (decide (k < Z.to_nat n)%nat) as [Hk|Hk].
  - rewrite lookup_slice, lookup_fbytes by done. unfold content. rewrite lookup_fbytes by lia.
    do 2 f_equal. lia.
  - rewrite !lookup_ge_None_2; [done| |rewrite length_fbytes; lia].
    rewrite length_slice; [lia|rewrite length_content; lia].
Qed.

Section Content.
Context (start : Z).
Implicit Types (V : Z -> list Z) (i : inode).

(** Sectors that differ in blocks no file and no bitmap uses. *)
Lemma baddr_same V V' i bn :
  (indirect i <> 0 -> V' (indirect i) = V (indirect i)) -> baddr V' i bn = baddr V i bn.
Proof.
  intros E. unfold baddr. destruct (bn <? NDIRECT); [done|].
  destruct (Z.eqb_spec (indirect i) 0); [done|]. by rewrite E.
Qed.

Lemma in_file_same V V' i a :
  (indirect i <> 0 -> V' (indirect i) = V (indirect i)) -> in_file V' i a <-> in_file V i a.
Proof. intros E. unfold in_file. by setoid_rewrite (fun bn => baddr_same V V' i bn E). Qed.

Lemma content_same V V' i :
  (forall a, in_file V i a -> V' a = V a) -> file_wf start V i -> content V' i = content V i.
Proof.
  intros Hk W.
  assert (indirect i <> 0 -> V' (indirect i) = V (indirect i)) as Hi.
  { intros Hne. apply Hk. split; [done|by left]. }
  unfold content, fbytes. apply list_fmap_ext. intros k x [Ex Hx]%lookup_seqZ. subst x. unfold fbyte.
  rewrite (baddr_same V V' i _ Hi). f_equal. apply Hk. pose proof (fw_size _ _ _ W).
  pose proof (mapped_range (0 + Z.of_nat k) ltac:(lia)) as Hr.
  split; [|right; by eexists]. apply (file_mapped start V i); [done|lia].
Qed.

(** A file all of whose blocks are kept stays as it is. *)
Lemma file_wf_same V V' i :
  sbv V' = sbv V -> (forall a, in_file V i a -> V' a = V a /\ a ∉ free_blocks V') ->
  file_wf start V i -> file_wf start V' i /\ content V' i = content V i.
Proof.
  intros Esb Hk W.
  assert (indirect i <> 0 -> V' (indirect i) = V (indirect i)) as Hi.
  { intros Hne. apply Hk. split; [done|by left]. }
  assert (first_data V' = first_data V) as Efd by (unfold first_data, bmblock; by rewrite Esb).
  pose proof (fun bn => baddr_same V V' i bn Hi) as Eb. split.
  - split; rewrite ?Esb, ?Efd; try apply W.
    + intros a Hin. rewrite (in_file_same V V' i a Hi) in Hin. split; [by apply (fw_data _ _ _ W)|by apply Hk].
    + intros bn bn'. rewrite !Eb. apply (fw_inj _ _ _ W).
    + intros bn. rewrite !Eb. apply (fw_ind _ _ _ W).
    + intros bn. rewrite !Eb. apply (fw_mapped _ _ _ W).
  - apply content_same; [|done]. intros a Ha. by apply Hk.
Qed.

Lemma elem_of_take_sub (a : Z) l k : a ∈ take k l -> a ∈ l.
Proof. intros Ha. rewrite <- (take_drop k l). apply elem_of_app. by left. Qed.

(** Two files share no block. *)
Definition apart V i j : Prop := forall a, in_file V i a -> ~ in_file V j a.

Lemma wrote_apart V i V' i' off bs k j :
  wrote start V i V' i' off bs k -> file_wf start V j -> apart V i j ->
  file_wf start V' j /\ content V' j = content V j.
Proof.
  intros W Wj Hap. apply file_wf_same; [apply W| |done]. intros a Ha.
  destruct (fw_data _ _ _ Wj a Ha) as [Hr Hn]. split.
  - apply (wr_keep _ _ _ _ _ _ _ _ W); [lia| |intros Hc; by apply (Hap a)].
    intros Hin. apply Hn. by apply (elem_of_take_sub _ _ k).
  - rewrite (wr_free _ _ _ _ _ _ _ _ W). intros Hin. apply Hn.
    rewrite <- (take_drop k). apply elem_of_app. by right.
Qed.

(** Inode blocks lie below the bitmap. *)
Lemma IBLOCK_range V inum :
  0 <= inum < sb_ninodes (sbv V) -> 2 <= IBLOCK inum < sb_ninodes (sbv V) / IPB + 3.
Proof.
  intros Hi. unfold IBLOCK. assert (IPB = 8) as EI by reflexivity.
  assert (0 <= inum / IPB) by (apply Z.div_pos; lia).
  assert (inum / IPB <= sb_ninodes (sbv V) / IPB) by (apply Z.div_le_mono; lia). lia.
Qed.

Lemma put_inode_wf V i j :
  alloc_wf start V -> 0 <= i_inum i < sb_ninodes (sbv V) -> file_wf start V j ->
  sbv (put_inode V i) = sbv V /\ free_blocks (put_inode V i) = free_blocks V /\
  alloc_wf start (put_inode V i) /\
  file_wf start (put_inode V i) j /\ content (put_inode V i) j = content V j.
Proof.
  intros Ha Hi Wj. pose proof (IBLOCK_range V _ Hi) as Hb.
  assert (forall b, 0 <= b < sb_size (sbv V) -> bmblock V b <> IBLOCK (i_inum i)) as Hne.
  { intros b Hb'. pose proof (bmblock_range V b Hb'). lia. }
  destruct (insert_other_wf start V (IBLOCK (i_inum i))
    (put_dinode (dinode_off (i_inum i)) i (V (IBLOCK (i_inum i)))) Ha ltac:(lia) Hne) as (E1 & E2 & E3).
  fold (put_inode V i) in E1, E2, E3. do 3 (split; [done|]). apply file_wf_same; [done| |done].
  intros a Hin. rewrite E2. destruct (fw_data _ _ _ Wj a Hin) as [Hr Hn]. split; [|done].
  pose proof (bmblock_range V 0 ltac:(pose proof (aw_size _ _ Ha); lia)).
  unfold put_inode. rewrite fn_lookup_insert_ne; [done|lia].
Qed.

(** [wrote] as a change of the contents, once the size is right. *)
Lemma wrote_size V i V' i' off bs k :
  wrote start V i V' i' off bs k -> 0 <= off <= i_size i ->
  off + Z.of_nat (length bs) <= MAXFILE * BSIZE -> file_wf start V i ->
  let i2 := set_i_size (Z.max (i_size i) (off + Z.of_nat (length bs))) i' in
  file_wf start V' i2 /\ content V' i2 = splice (Z.to_nat off) bs (content V i).
Proof.
  intros W Ho Hmax Wf i2. pose proof (wr_wf _ _ _ _ _ _ _ _ W) as W'.
  assert (BSIZE = 512) as EB by reflexivity.
  assert (i_size i' = i_size i) as Es by (rewrite (wr_inode _ _ _ _ _ _ _ _ W); done).
  pose proof (fun x => file_mapped start V i x Wf) as Hm.
  split.
  - split; try apply W'.
    + simpl. pose proof (fw_size _ _ _ Wf). lia.
    + simpl. intros bn Hbn Hs. change (baddr V' i2 bn) with (baddr V' i' bn).
      destruct (decide (bn * BSIZE < i_size i)); [by apply (fw_mapped _ _ _ W'); [lia|rewrite Es]|].
      replace bn with (bn * BSIZE / BSIZE) by (rewrite Z.div_mul; lia).
      apply (wr_mapped _ _ _ _ _ _ _ _ W). lia.
  - pose proof (length_content V i) as Hlc. pose proof (fw_size _ _ _ Wf).
    set (sz := Z.max _ _) in i2.
    assert (forall x : nat, Z.of_nat x < sz -> content V' i2 !! x = Some (fbyte V' i' (Z.of_nat x))) as Hc.
    { intros x Hx. unfold content. rewrite lookup_fbytes by (simpl; lia). done. }
    apply list_eq. intros x. unfold splice. destruct (decide (x < Z.to_nat off)%nat) as [H1|H1].
    { rewrite lookup_app_l by (rewrite length_take; lia). rewrite lookup_take_lt by done.
      rewrite Hc by lia. unfold content. rewrite lookup_fbytes by lia. f_equal.
      apply (wr_other _ _ _ _ _ _ _ _ W); [lia|lia|apply Hm; lia]. }
    rewrite lookup_app_r by (rewrite length_take; lia).
    rewrite length_take, Hlc, Nat.min_l by lia.
    destruct (decide (x < Z.to_nat off + length bs)%nat) as [H2|H2].
    { rewrite lookup_app_l by lia. rewrite Hc by lia.
      rewrite (wr_bytes _ _ _ _ _ _ _ _ W) by lia.
      replace (Z.to_nat (Z.of_nat x - off)) with (x - Z.to_nat off)%nat by lia.
      symmetry. apply list_lookup_lookup_total_lt. lia. }
    rewrite lookup_app_r, lookup_drop by lia.
    replace (Z.to_nat off + length bs + (x - Z.to_nat off - length bs))%nat with x by lia.
    destruct (decide (Z.of_nat x < i_size i)) as [H3|H3].
    { rewrite Hc by lia. unfold content. rewrite lookup_fbytes by lia. f_equal.
      apply (wr_other _ _ _ _ _ _ _ _ W); [lia|lia|apply Hm; lia]. }
    rewrite !lookup_ge_None_2; [done|lia|rewrite length_content; simpl; lia].
Qed.

End Content.

(** ** [writei] *)

(** What a write of the bytes [bs] at [off] makes of a file and of the rest of
    the file system: the bytes are spliced in, the inode on disk keeps up with
    the one in memory, the other inodes and the files that share no block with
    this one are as before. *)
Record written (start : Z) (V : Z -> list Z) (i : inode) (V' : Z -> list Z) (i' : inode)
    (off : Z) (bs : list Z) : Prop := {
  wn_alloc : alloc_wf start V';
  wn_wf : file_wf start V' i';
  wn_inode : i' = set_i_size (Z.max (i_size i) (off + Z.of_nat (length bs)))
                    (set_i_addrs (i_addrs i') i);
  wn_content : content V' i' = splice (Z.to_nat off) bs (content V i);
  wn_dino : dino V (i_inum i) = dinode_of i -> dino V' (i_inum i) = dinode_of i';
  wn_dinos : forall j, 0 <= j < sb_ninodes (sbv V) -> j <> i_inum i -> dino V' j = dino V j;
  wn_apart : forall j, file_wf start V j -> apart V i j ->
    file_wf start V' j /\ content V' j = content V j;
}.

(** The fields of an inode that [file_wf] does not bound. *)
Definition short_fields (i : inode) : Prop :=
  -32768 <= i_type i < 32768 /\ -32768 <= i_major i < 32768 /\
  -32768 <= i_minor i < 32768 /\ -32768 <= i_nlink i < 32768.

Lemma file_ranges start V i :
  file_wf start V i -> alloc_wf start V -> start < 4294967296 -> short_fields i -> inode_ranges i.
Proof.
  intros W Ha Hs (H1 & H2 & H3 & H4). pose proof (fw_size _ _ _ W). pose proof (aw_low _ _ Ha).
  assert (MAXFILE * BSIZE = 71680) as EM by reflexivity. assert (NDIRECT = 12) as EN by reflexivity.
  split; auto; try lia; [|apply W].
  apply Forall_forall. intros x Hx. apply list_elem_of_lookup in Hx as [k Hk].
  pose proof (lookup_lt_Some _ _ _ Hk) as Hlt. rewrite (fw_len _ _ _ W) in Hlt.
  apply list_lookup_total_correct in Hk. destruct (decide (x = 0)) as [|Hne]; [lia|].
  destruct (fw_data _ _ _ W x); [|lia]. split; [done|]. destruct (decide (k = 12%nat)) as [->|].
  - by left.
  - right. exists (Z.of_nat k). assert (MAXFILE = 140) as EM' by reflexivity. split; [lia|].
    unfold baddr. destruct (Z.ltb_spec (Z.of_nat k) NDIRECT); [|lia]. by rewrite Nat2Z.id.
Qed.

Section WrittenLemmas.
Context (start : Z).
Implicit Types (V : Z -> list Z) (i : inode).

(** A write that stays inside the file: the inode does not change. *)
Lemma written_inside V i V' off bs :
  wrote start V i V' i off bs 0 -> file_wf start V i -> 0 <= off ->
  off + Z.of_nat (length bs) <= i_size i -> written start V i V' i off bs.
Proof.
  intros W Wf Ho Hs. pose proof (fw_size _ _ _ Wf).
  destruct (wrote_size start V i V' i off bs 0 W) as [W2 Hc]; [lia|lia|done|].
  rewrite Z.max_l in W2, Hc by lia. replace (set_i_size (i_size i) i) with i in * by (by destruct i).
  assert (forall j, 0 <= j < sb_ninodes (sbv V) -> dino V' j = dino V j) as Hd.
  { intros j Hj. unfold dino. rewrite (wr_meta _ _ _ _ _ _ _ _ W); [done|]. by apply IBLOCK_range. }
  split; auto.
  - apply W.
  - rewrite Z.max_l by lia. by destruct i.
  - intros E. rewrite Hd; [done|apply Wf].
  - intros j Wj Hap. by apply (wrote_apart start V i V' i off bs 0).
Qed.

(** A write that extends the file: the new size goes to disk. *)
Lemma written_extend V i V' i' off bs k :
  wrote start V i V' i' off bs k -> file_wf start V i -> start < 4294967296 -> short_fields i ->
  0 <= off <= i_size i -> i_size i < off + Z.of_nat (length bs) <= MAXFILE * BSIZE ->
  let i2 := set_i_size (off + Z.of_nat (length bs)) i' in
  written start V i (put_inode V' i2) i2 off bs.
Proof.
  intros W Wf Hst Hsf Ho Hs i2.
  destruct (wrote_size start V i V' i' off bs k W) as [W2 Hc]; [lia|lia|done|].
  rewrite Z.max_r in W2, Hc by lia. fold i2 in W2, Hc.
  pose proof (wr_alloc _ _ _ _ _ _ _ _ W) as Ha.
  destruct (put_inode_wf start V' i2 i2 Ha (fw_inum _ _ _ W2) W2) as (E1 & E2 & E3 & E4 & E5).
  assert (i_inum i2 = i_inum i) as Ei by (unfold i2; rewrite (wr_inode _ _ _ _ _ _ _ _ W); done).
  assert (short_fields i2) as Hsf2.
  { unfold i2. rewrite (wr_inode _ _ _ _ _ _ _ _ W). done. }
  pose proof (file_ranges start V' i2 W2 Ha Hst Hsf2) as Hr.
  pose proof (wr_len _ _ _ _ _ _ _ _ W) as Hlen. pose proof (fw_inum _ _ _ W2) as Hin.
  split; auto.
  - unfold i2. rewrite Z.max_r, (wr_inode _ _ _ _ _ _ _ _ W) by lia. done.
  - by rewrite E5.
  - intros _. rewrite <- Ei, dino_put by (done || lia). by rewrite decide_True.
  - intros j Hj Hne. rewrite dino_put, decide_False by (done || lia || congruence). unfold dino.
    rewrite (wr_meta _ _ _ _ _ _ _ _ W); [done|]. by apply IBLOCK_range.
  - intros j Wj Hap. destruct (wrote_apart start V i V' i' off bs k j W Wj Hap) as [Wj' Hcj].
    destruct (put_inode_wf start V' i2 j Ha Hin Wj') as (_ & _ & _ & F4 & F5).
    split; [done|congruence].
Qed.

End WrittenLemmas.

Section WriteiSpec.
Context {WF : WakeFuel}.
Context (start size : Z).
Implicit Types (V : Z -> list Z) (F : gset Z).

(** The offsets [writei] refuses. *)
Lemma writei_checks off n sz :
  0 <= off < 4294967296 -> 0 <= n < 4294967296 ->
  (sz <? off) || (u32 (off + n) <? off) = false -> u32 (off + n) = off + n.
Proof.
  intros Ho Hn [_ H]%orb_false_iff. apply u32_id. destruct (decide (off + n < 4294967296)); [lia|].
  apply Z.ltb_ge in H. unfold u32 in H. change (2 ^ 32) with 4294967296 in H.
  rewrite <- (Z.mod_unique_pos _ _ 1 (off + n - 4294967296)) in H; lia.
Qed.

Lemma wpp_writei F s V ip src off n :
  tx start size F s V ∅ -> (ip < length (k_inodes s))%nat -> let i := k_inodes s !!! ip in
  alloc_wf start V -> file_wf start V i -> short_fields i -> i_type i <> T_DEV ->
  0 <= off < 4294967296 -> 0 <= n < 4294967296 -> n <= Z.of_nat (length src) ->
  may_write F V i off n -> IBLOCK (i_inum i) ∈ F ->
  wpp (writei ip src off n)
    (fun r s' =>
       if (i_size i <? off) || (MAXFILE * BSIZE <? off + n) then r = -1 /\ s' = s
       else r = n /\ exists V' i', written start V i V' i' off (take (Z.to_nat n) src) /\
         tframe (upd_inode ip (fun _ => i') s) s' /\ tx start size F s' V' ∅)
    (fun e => e = "balloc: out of blocks"%string /\
       (length (free_blocks V) < nblk off n + cind i)%nat) s.
Proof.
  intros T Hip i Ha W Hsf Hty Ho Hn Hsrc MW HFi. assert (BSIZE = 512) as EB by reflexivity.
  assert (MAXFILE = 140) as EM by reflexivity. unfold writei. wstep. fold i.
  rewrite (proj2 (Z.eqb_neq _ _) Hty).
  destruct ((i_size i <? off) || (u32 (off + n) <? off)) eqn:Ec1.
  { wstep. assert ((i_size i <? off) || (MAXFILE * BSIZE <? off + n) = true) as ->; [|done].
    apply orb_true_iff in Ec1 as [->|H%Z.ltb_lt]; [done|]. apply orb_true_iff. right. apply Z.ltb_lt.
    destruct (decide (off + n < 4294967296)); [|lia]. rewrite u32_id in H; lia. }
  rewrite (writei_checks off n (i_size i)) by done. apply orb_false_iff in Ec1 as [Hs _]. rewrite Hs.
  destruct (Z.ltb_spec (MAXFILE * BSIZE) (off + n)) as [|Hmax]; [by wstep|]. cbn [orb].
  apply Z.ltb_ge in Hs. rewrite (fw_dev _ _ _ W).
  pose proof (Z.mod_pos_bound off BSIZE ltac:(lia)). pose proof (Z.mod_pos_bound n BSIZE ltac:(lia)).
  pose proof (Z.div_mod n BSIZE ltac:(lia)). assert (0 <= n / BSIZE) by (apply Z.div_pos; lia).
  apply wpp_bind. eapply wpp_weaken.
  { apply (wpp_writei_loop start size F ip n); rewrite ?Z.sub_0_r; [done|done|done|done|lia|lia|lia|lia|done|lia|right; lia]. }
  2: { rewrite Z.sub_0_r. intros e [-> He]. done. }
  rewrite Z.sub_0_r. intros r s1 (-> & V1 & i1 & k & W1 & Hk & Hk0 & F1 & T1). fold i in W1, Hk, Hk0.
  assert (k_inodes s1 !!! ip = i1) as Ei1 by (rewrite (tframe_inodes _ _ F1); by apply alter_self_eq).
  assert (i_size i1 = i_size i) as Es by (rewrite (wr_inode _ _ _ _ _ _ _ _ W1); done).
  assert (length (take (Z.to_nat n) src) = Z.to_nat n) as Hlt by (rewrite length_take; lia).
  wstep. rewrite Ei1, Es. destruct (Z.ltb_spec (i_size i) (off + n)) as [Hgrow|Hin].
  - destruct (Z.ltb_spec 0 n); [|lia]. cbn [andb when].
    pose proof (written_extend start V i V1 i1 off _ k W1 W (tx_start _ _ _ _ _ _ T) Hsf ltac:(lia)) as Hw.
    rewrite Hlt, Z2Nat.id in Hw by lia. specialize (Hw ltac:(lia)). cbv zeta in Hw.
    set (i2 := set_i_size (off + n) i1) in *. pose proof (wn_wf _ _ _ _ _ _ _ Hw) as W2.
    assert (i_inum i2 = i_inum i) as Ein by (unfold i2; rewrite (wr_inode _ _ _ _ _ _ _ _ W1); done).
    assert (ip < length (k_inodes s1))%nat as Hip1.
    { rewrite (tframe_inodes _ _ F1). simpl. by rewrite length_alter. }
    apply wpp_bind, wpp_wp. wstep. set (s2 := upd_inode ip _ s1).
    assert (k_inodes s2 !!! ip = i2) as Ei2.
    { unfold s2. simpl. rewrite alter_self_eq by done. by rewrite Ei1. }
    wapply (wp_iupdate start size F s2 V1 ∅ ip); rewrite ?Ei2; [by apply tx_inodes|rewrite map_size_empty; lia|
      apply W2|apply W2|apply W2|by rewrite Ein|done|].
    intros [] s3 (F3 & T3). wstep. split; [done|]. exists (put_inode V1 i2), i2.
    split; [done|]. split; [|done]. etrans; [|exact F3]. unfold s2.
    rewrite (upd_inode_ext ip _ (fun _ => i2) s1) by (by rewrite Ei1).
    rewrite <- (upd_inode_twice ip (fun _ => i2) (fun _ => i1)). by apply tframe_inode.
  - assert (k = 0%nat) as ->.
    { apply Hk0. intros x Hx. apply (file_mapped start); [done|lia]. }
    pose proof (wr_same _ _ _ _ _ _ _ _ W1 eq_refl) as ->. rewrite andb_false_r. cbn [when]. wstep. wstep.
    split; [done|]. exists V1, i. split; [|done].
    apply written_inside; [done|done|lia|rewrite Hlt; lia].
Qed.

End WriteiSpec.
