(* ===== verification/DirSpec.v ===== *)
(** * Directories

    The contents of a directory as a list of entries: [dirlookup] finds the
    first entry in use with the name, [dirlink] puts a new entry into the first
    free slot. *)

From S2P Require Import Prelude Monad State Strings Sched Bio BioSpec Layout Log Crash LogSpec.
From S2P Require Import LogCrash Txn Inode FsSpec InodeSpec Console Content ReadSpec WriteSpec.
From S2P Require Import ContentSpec.

(** ** Entries *)

Definition dent (c : list Z) (k : nat) : dirent := dec_dirent (slice (16 * k) 16 c).
Definition dents (c : list Z) : list dirent := dent c <$> seq 0 (length c / 16).

(** Names are the same when their first 14 bytes are, up to a NUL. *)
Definition same_name (a b : list Z) : Prop := take DIRSIZ (cstr a) = take DIRSIZ (cstr b).

(** An entry in use, with this name. *)
Definition names (name : list Z) (de : dirent) : Prop :=
  de_inum de <> 0 /\ same_name name (de_name de).
#[export] Instance names_dec name de : Decision (names name de).
Proof. unfold names, same_name. apply _. Defined.

Definition dir_find (name c : list Z) : option (nat * dirent) := list_find (names name) (dents c).

(** The first slot that is free, or the end. *)
Definition dir_slot (c : list Z) : nat :=
  match list_find (fun de => de_inum de = 0) (dents c) with
  | Some (k, _) => k
  | None => length (dents c)
  end.

Lemma names_spec name de :
  names name de <-> (de_inum de =? 0) = false /\ (namecmp name (de_name de) =? 0) = true.
Proof. unfold names, namecmp. by rewrite Z.eqb_neq, Z.eqb_eq, strncmp_l_eq. Qed.

Lemma length_dents c : length (dents c) = (length c / 16)%nat.
Proof. unfold dents. by rewrite length_fmap, length_seq. Qed.

Lemma lookup_dents c k : (k < length c / 16)%nat -> dents c !! k = Some (dent c k).
Proof. intros Hk. unfold dents. by rewrite list_lookup_fmap, lookup_seq_lt. Qed.

Lemma drop_dents c k :
  (k < length c / 16)%nat -> drop k (dents c) = dent c k :: drop (S k) (dents c).
Proof. intros Hk. by rewrite (drop_S _ (dent c k)) by (by apply lookup_dents). Qed.

Lemma dir_slot_le c : (dir_slot c <= length c / 16)%nat.
Proof.
  unfold dir_slot. rewrite <- length_dents. destruct (list_find _ _) as [[k de]|] eqn:E; [|lia].
  apply list_find_Some in E as [Hk _]. apply lookup_lt_Some in Hk. lia.
Qed.

(** An entry lies within one block. *)
Lemma nblk_dirent k : nblk (16 * Z.of_nat k) 16 = 1%nat.
Proof.
  unfold nblk, BSIZE. cbn [Z.leb Z.compare].
  assert ((16 * Z.of_nat k + 16 - 1) / 512 = 16 * Z.of_nat k / 512) as ->; [|lia].
  pose proof (Z.div_mod (16 * Z.of_nat k) 512 ltac:(lia)).
  pose proof (Z.mod_pos_bound (16 * Z.of_nat k) 512 ltac:(lia)).
  assert ((16 * Z.of_nat k) mod 512 = 16 * (Z.of_nat k mod 32)) as E.
  { change 512 with (16 * 32). by rewrite Zmult_mod_distr_l. }
  pose proof (Z.mod_pos_bound (Z.of_nat k) 32 ltac:(lia)).
  symmetry. apply (Z.div_unique_pos _ _ _ ((16 * Z.of_nat k) mod 512 + 15)); lia.
Qed.

(** The entry [dirlink] writes. *)
Definition new_dirent (name : list Z) (inum : Z) : dirent := mkdirent (u16 inum) (strncpy_l DIRSIZ name).

Lemma length_strncpy_l n t : length (strncpy_l n t) = n.
Proof. unfold strncpy_l. rewrite length_app, length_replicate, length_take. lia. Qed.

Lemma length_enc_dirent name inum : length (enc_dirent (new_dirent name inum)) = 16%nat.
Proof. unfold enc_dirent. rewrite length_app, length_le_enc. simpl. by rewrite length_strncpy_l. Qed.

(** ** The entries after [dirlink] *)

Lemma dec_enc_dirent name inum : dec_dirent (enc_dirent (new_dirent name inum)) = new_dirent name inum.
Proof.
  unfold dec_dirent, enc_dirent, new_dirent, rd, slice. cbn [de_inum de_name].
  rewrite drop_0. rewrite take_app_le, firstn_all2 by (rewrite length_le_enc; lia).
  rewrite drop_app_ge by (rewrite length_le_enc; lia). rewrite length_le_enc, Nat.sub_diag, drop_0.
  rewrite firstn_all2 by (rewrite length_strncpy_l; lia). f_equal.
  apply le_dec_enc_id, u16_range.
Qed.

Lemma cstr_take_pad n t m : cstr (take n (cstr t) ++ replicate m 0) = take n (cstr t).
Proof.
  revert n. induction t as [|c t IH]; intros n; simpl.
  - rewrite take_nil. by destruct m.
  - destruct (Z.eqb_spec c 0) as [->|Hc]; [rewrite take_nil; by destruct m|].
    destruct n; [by destruct m|]. simpl. rewrite (proj2 (Z.eqb_neq c 0) Hc). by rewrite IH.
Qed.

Lemma same_name_new name inum : same_name name (de_name (new_dirent name inum)).
Proof.
  unfold same_name, new_dirent. cbn [de_name]. unfold strncpy_l. rewrite cstr_take_pad.
  by rewrite take_take, Nat.min_id.
Qed.

Section Entries.
Context (c : list Z) (name : list Z) (inum : Z).
Context (Hlen : (length c mod 16 = 0)%nat) (Hnew : u16 inum <> 0).
Context (Hfresh : dir_find name c = None).
#[local, warnings="-notation-for-abbreviation"]
Notation k := (dir_slot c).
#[local, warnings="-notation-for-abbreviation"]
Notation c' := (splice (16 * k) (enc_dirent (new_dirent name inum)) c).

Lemma slot_in : (16 * k <= length c)%nat.
Proof. pose proof (dir_slot_le c). pose proof (Nat.div_mod_eq (length c) 16). lia. Qed.

Lemma length_dents_link : length (dents c') = Nat.max (length (dents c)) (S k).
Proof.
  rewrite !length_dents, length_splice_max by apply slot_in. rewrite length_enc_dirent.
  pose proof (Nat.div_mod_eq (length c) 16). pose proof slot_in.
  assert (Nat.max (length c) (16 * k + 16) = Nat.max (length c / 16) (S k) * 16)%nat as -> by lia.
  by rewrite Nat.div_mul.
Qed.

Lemma dents_link j : dents c' !! j = if decide (j = k) then Some (new_dirent name inum) else dents c !! j.
Proof.
  pose proof slot_in as Hs. pose proof length_dents_link as Hl. rewrite !length_dents in Hl.
  pose proof (dir_slot_le c).
  assert (forall j, (j < length c' / 16)%nat -> j <> k -> dent c' j = dent c j) as Hother.
  { intros j' _ Hne. unfold dent. rewrite slice_splice_other; [done|done|]. rewrite length_enc_dirent. lia. }
  case_decide as E; [subst j|].
  - rewrite lookup_dents by lia. unfold dent. rewrite <- (length_enc_dirent name inum) at 2.
    by rewrite slice_splice, dec_enc_dirent.
  - destruct (decide (j < length c' / 16)%nat).
    + rewrite lookup_dents, Hother by done. rewrite lookup_dents; [done|]. lia.
    + rewrite !lookup_ge_None_2; [done|rewrite length_dents; lia..].
Qed.

(** The slot was not in use. *)
Lemma slot_free de : dents c !! k = Some de -> de_inum de = 0.
Proof.
  unfold dir_slot. destruct (list_find _ _) as [[k de']|] eqn:E.
  - apply list_find_Some in E as (Hk & H0 & _). congruence.
  - intros H%lookup_lt_Some. lia.
Qed.

Lemma dir_find_new : dir_find name c' = Some (k, new_dirent name inum).
Proof.
  apply list_find_Some. rewrite dents_link, decide_True by done. split; [done|].
  split; [split; [done|apply same_name_new]|]. intros j de. rewrite dents_link. intros Hj Hlt.
  rewrite decide_False in Hj by lia. apply list_find_None in Hfresh.
  by apply (Forall_lookup_1 _ _ _ _ Hfresh Hj).
Qed.

Lemma dir_find_other name2 : ~ same_name name2 name -> dir_find name2 c' = dir_find name2 c.
Proof.
  intros Hne.
  assert (~ names name2 (new_dirent name inum)) as Hnn.
  { intros [_ Hs]. apply Hne. unfold same_name in *. rewrite Hs. symmetry. apply same_name_new. }
  assert (forall de, dents c !! k = Some de -> ~ names name2 de) as Hk.
  { intros de Hd [H0 _]. by apply H0, slot_free. }
  destruct (dir_find name2 c) as [[j de]|] eqn:E.
  - apply list_find_Some in E as (Hj & Hn & Hmin). apply list_find_Some.
    assert (j <> k) as Hjk by (intros ->; by apply (Hk de)).
    rewrite dents_link, decide_False by done. split; [done|]. split; [done|].
    intros j' de'. rewrite dents_link. case_decide; [by intros [= <-]|]. apply Hmin.
  - apply list_find_None in E. apply list_find_None. apply Forall_lookup. intros j de.
    rewrite dents_link. case_decide; [by intros [= <-]|]. intros Hj. by apply (Forall_lookup_1 _ _ _ _ E Hj).
Qed.

End Entries.

Section Dirlookup.
Context {WF : WakeFuel}.
Context (start size : Z).
Implicit Types (V : Z -> list Z) (F : gset Z).

(** The inode of a directory whose size is a whole number of entries. *)
Record dir_wf (V : Z -> list Z) (i : inode) : Prop := {
  dw_file : file_wf start V i;
  dw_type : i_type i = T_DIR;
  dw_size : i_size i mod 16 = 0;
}.

Lemma dir_size V i : dir_wf V i -> i_size i = 16 * Z.of_nat (length (content V i) / 16).
Proof.
  intros [W _ Hs]. rewrite length_content. pose proof (fw_size _ _ _ W).
  rewrite Nat2Z.inj_div, Z2Nat.id by lia. pose proof (Z.div_mod (i_size i) 16). lia.
Qed.

(** Reading entry [k]. *)
Lemma wp_read_entry s V dp k :
  txn_inv start size s V ∅ -> let i := k_inodes s !!! dp in dir_wf V i ->
  (k < length (content V i) / 16)%nat ->
  wp (readi dp (16 * Z.of_nat k) DIRENT_SIZE) (fun r s' =>
    r = (DIRENT_SIZE, slice (16 * k) 16 (content V i)) /\
    bio_frame s s' /\ txn_inv start size s' V ∅ /\ k_disk s' = k_disk s) s.
Proof.
  intros T i D Hk. pose proof (dir_size V i D) as Hs. destruct D as [W Hty _].
  assert (MAXFILE * BSIZE = 71680) as EM by reflexivity. pose proof (fw_size _ _ _ W).
  assert (DIRENT_SIZE = 16) as ED by reflexivity.
  eapply wp_mono; [apply (wp_readi start size s V dp (16 * Z.of_nat k) DIRENT_SIZE T W)|].
  - fold i. rewrite Hty. done.
  - lia.
  - done.
  - intros r s' (-> & Fr & T' & Ed). fold i. split; [|done].
    rewrite (proj2 (Z.ltb_ge (i_size i) _)), (proj2 (Z.leb_gt _ _)) by lia. cbn [orb].
    rewrite Z.min_l by lia. f_equal. rewrite fbytes_slice by lia. f_equal; lia.
Qed.

Lemma wpp_dirlookup_loop V dp name i : forall fuel k s,
  txn_inv start size s V ∅ -> k_inodes s !!! dp = i -> dir_wf V i ->
  icache_wf (k_inodes s) -> (LkIcache ∉ k_held s) ->
  (k <= length (content V i) / 16)%nat -> (length (content V i) / 16 - k < fuel)%nat ->
  wpp (loop fuel (fun off =>
      d ← getinode dp;
      if off <? i_size d then
        '(r, de) ← readi dp off DIRENT_SIZE;
        if negb (r =? DIRENT_SIZE) then panic "dirlink read"
        else
          let de := dec_dirent de in
          if de_inum de =? 0 then mret (inl (off + DIRENT_SIZE))
          else if namecmp name (de_name de) =? 0 then
            ip ← iget (i_dev d) (de_inum de);
            mret (inr (Some (ip, off)))
          else mret (inl (off + DIRENT_SIZE))
      else mret (inr None)) (16 * Z.of_nat k))
    (fun r s' => exists s1, bio_frame s s1 /\ txn_inv start size s1 V ∅ /\ k_disk s1 = k_disk s /\
       match list_find (names name) (drop k (dents (content V i))) with
       | None => r = None /\ s' = s1
       | Some (j, de) => exists ip, r = Some (ip, 16 * Z.of_nat (k + j)) /\ (ip < NINODE)%nat /\
           s' = upd_inode ip (gotten 1 (de_inum de)) s1 /\
           (caches 1 (de_inum de) (k_inodes s !!! ip) = true \/
            i_ref (k_inodes s !!! ip) = 0 /\
            forall j, (j < NINODE)%nat -> caches 1 (de_inum de) (k_inodes s !!! j) = false)
       end)
    (fun e => e = "iget: no inodes"%string /\
       is_Some (list_find (names name) (drop k (dents (content V i)))) /\
       forall j, (j < NINODE)%nat -> i_ref (k_inodes s !!! j) <> 0) s.
Proof.
  induction fuel as [|fuel IH]; intros k s T Ei D IW Hl Hk Hf; [lia|].
  pose proof (dir_size V i D) as Hs. apply wpp_loop. wstep. rewrite Ei.
  destruct (Z.ltb_spec (16 * Z.of_nat k) (i_size i)) as [Hlt|Hge].
  2: { wstep. exists s. split; [done|]. split; [done|]. split; [done|].
       rewrite drop_ge; [done|]. rewrite length_dents. lia. }
  assert (k < length (content V i) / 16)%nat as Hk' by lia.
  wapply (wp_read_entry s V dp k T); [by rewrite Ei|by rewrite Ei|].
  rewrite Ei. intros r s1 (-> & Fr & T1 & Ed). cbn [negb Z.eqb]. rewrite Z.eqb_refl. cbn [negb].
  fold (dent (content V i) k). rewrite drop_dents by done. cbn [list_find].
  assert (k_inodes s1 = k_inodes s) as Ek by (by apply bio_frame_inodes).
  assert (16 * Z.of_nat k + DIRENT_SIZE = 16 * Z.of_nat (S k)) as Enext by (unfold DIRENT_SIZE; lia).
  destruct (decide (names name (dent (content V i) k))) as [Hn|Hn].
  - apply names_spec in Hn as [E1 E2]. cbv zeta. rewrite E1, E2, (fw_dev _ _ _ (dw_file _ _ D)).
    apply wpp_bind. eapply wpp_weaken; [apply wpp_iget; [by rewrite Ek|by rewrite (bio_frame_held _ _ Fr)]|..].
    + intros ip s2 (Hip & -> & Hc). wstep. exists s1. do 3 (split; [done|]).
      exists ip. rewrite Ek in Hc. split; [do 3 f_equal; lia|done].
    + intros e [-> He]. split; [done|]. split; [by eexists|]. intros j Hj. rewrite <- Ek. by apply He.
  - assert ((if de_inum (dent (content V i) k) =? 0 then mret (inl (16 * Z.of_nat k + DIRENT_SIZE))
             else if namecmp name (de_name (dent (content V i) k)) =? 0
                  then ip ← iget (i_dev i) (de_inum (dent (content V i) k));
                       mret (inr (Some (ip, 16 * Z.of_nat k)))
                  else mret (inl (16 * Z.of_nat k + DIRENT_SIZE)))
            = (mret (inl (16 * Z.of_nat (S k))) : K (Z + option (nat * Z)))) as ->.
    { rewrite Enext. rewrite names_spec in Hn. destruct (de_inum _ =? 0); [done|].
      destruct (namecmp _ _ =? 0); [|done]. by destruct Hn. }
    wstep. eapply wpp_weaken.
    { apply (IH (S k) s1); rewrite ?Ek, ?(bio_frame_held _ _ Fr); done || lia. }
    + intros r s2 (s3 & F3 & T3 & E3 & HQ). exists s3. split; [by etrans|]. split; [done|].
      split; [by rewrite E3|]. destruct (list_find _ _) as [[j de]|]; simpl; [|done].
      destruct HQ as (ip & -> & HQ). exists ip. split; [do 3 f_equal; lia|]. by rewrite <- Ek.
    + intros e (-> & He & Hr). split; [done|]. split; [by apply fmap_is_Some|]. by rewrite <- Ek.
Qed.

Lemma wpp_dirlookup s V dp name :
  txn_inv start size s V ∅ -> let i := k_inodes s !!! dp in dir_wf V i ->
  icache_wf (k_inodes s) -> (LkIcache ∉ k_held s) ->
  wpp (dirlookup dp name)
    (fun r s' => exists s1, bio_frame s s1 /\ txn_inv start size s1 V ∅ /\ k_disk s1 = k_disk s /\
       match dir_find name (content V i) with
       | None => r = None /\ s' = s1
       | Some (k, de) => exists ip, r = Some (ip, 16 * Z.of_nat k) /\ (ip < NINODE)%nat /\
           s' = upd_inode ip (gotten 1 (de_inum de)) s1 /\
           (caches 1 (de_inum de) (k_inodes s !!! ip) = true \/
            i_ref (k_inodes s !!! ip) = 0 /\
            forall j, (j < NINODE)%nat -> caches 1 (de_inum de) (k_inodes s !!! j) = false)
       end)
    (fun e => e = "iget: no inodes"%string /\ is_Some (dir_find name (content V i)) /\
       forall j, (j < NINODE)%nat -> i_ref (k_inodes s !!! j) <> 0) s.
Proof.
  intros T i D IW Hl. unfold dirlookup. wstep. fold i. rewrite (dw_type _ _ D), Z.eqb_refl. cbn [negb].
  pose proof (dir_size V i D) as Hs.
  eapply wpp_weaken.
  { apply (wpp_dirlookup_loop V dp name i _ 0); try done; [lia|].
    rewrite Hs. unfold DIRENT_SIZE. rewrite (Z.mul_comm 16), Z.div_mul by lia. lia. }
  - intros r s' (s1 & F1 & T1 & E1 & HQ). exists s1. do 3 (split; [done|]).
    rewrite drop_0 in HQ. unfold dir_find. destruct (list_find _ _) as [[j de]|]; [|done]. simpl in HQ. done.
  - done.
Qed.

(** ** [iput] when no truncation is due *)

Lemma iput_run s ip :
  (LkIcache ∉ k_held s) -> let i := k_inodes s !!! ip in
  (i_ref i =? 1) && has (i_flags i) I_VALID && (i_nlink i =? 0) = false ->
  iput ip s = Ret tt (upd_inode ip (fun i => set_i_ref (i_ref i - 1) i) s).
Proof.
  intros Hl i Hc. unfold iput. kstep_by ltac:(by apply acquire_ok). kstep. simpl. fold i. rewrite Hc.
  cbn [when]. do 2 kstep. erewrite release_ok; [|done|done]. by destruct s.
Qed.

(** The reference [dirlookup] took is given back. *)
Definition ungot (inum : Z) (i : inode) : inode :=
  let j := gotten 1 inum i in set_i_ref (i_ref j - 1) j.

Lemma gotten_no_trunc inum i :
  0 <= i_ref i -> let j := gotten 1 inum i in
  (i_ref j =? 1) && has (i_flags j) I_VALID && (i_nlink j =? 0) = false.
Proof.
  intros Hr j. unfold j, gotten. destruct (caches 1 inum i) eqn:E; [|done]. simpl.
  apply caches_spec in E as (? & _). rewrite (proj2 (Z.eqb_neq _ 1)) by lia. done.
Qed.

(** ** [dirlink] *)

Lemma wp_slot_loop V dp i : forall fuel k s,
  txn_inv start size s V ∅ -> k_inodes s !!! dp = i -> dir_wf V i ->
  (k <= length (content V i) / 16)%nat -> (length (content V i) / 16 - k < fuel)%nat ->
  wp (loop fuel (fun off =>
        d ← getinode dp;
        if off <? i_size d then
          '(r, de) ← readi dp off DIRENT_SIZE;
          if negb (r =? DIRENT_SIZE) then panic "dirlink read"
          else if de_inum (dec_dirent de) =? 0 then mret (inr off)
          else mret (inl (off + DIRENT_SIZE))
        else mret (inr off)) (16 * Z.of_nat k))
    (fun off s' => bio_frame s s' /\ txn_inv start size s' V ∅ /\ k_disk s' = k_disk s /\
       off = 16 * Z.of_nat (match list_find (fun de => de_inum de = 0) (drop k (dents (content V i))) with
                            | Some (j, _) => k + j
                            | None => length (dents (content V i))
                            end)) s.
Proof.
  induction fuel as [|fuel IH]; intros k s T Ei D Hk Hf; [lia|].
  pose proof (dir_size V i D) as Hs. apply wp_loop. wstep. rewrite Ei.
  destruct (Z.ltb_spec (16 * Z.of_nat k) (i_size i)) as [Hlt|Hge].
  2: { wstep. do 3 (split; [done|]). rewrite drop_ge by (rewrite length_dents; lia). simpl.
       rewrite length_dents. lia. }
  assert (k < length (content V i) / 16)%nat as Hk' by lia.
  wapply (wp_read_entry s V dp k T); [by rewrite Ei|by rewrite Ei|].
  rewrite Ei. intros r s1 (-> & Fr & T1 & Ed). rewrite Z.eqb_refl. cbn [negb].
  fold (dent (content V i) k). rewrite drop_dents by done. cbn [list_find].
  assert (k_inodes s1 = k_inodes s) as Ek by (by apply bio_frame_inodes).
  destruct (Z.eqb_spec (de_inum (dent (content V i) k)) 0) as [E0|E0].
  - rewrite decide_True by done. wstep. do 3 (split; [done|]). lia.
  - rewrite decide_False by done. wstep.
    replace (16 * Z.of_nat k + DIRENT_SIZE) with (16 * Z.of_nat (S k)) by (unfold DIRENT_SIZE; lia).
    eapply wp_mono; [apply (IH (S k) s1); rewrite ?Ek; done || lia|].
    intros off s2 (F2 & T2 & E2 & ->). split; [by etrans|]. split; [done|]. split; [by rewrite E2|].
    destruct (list_find _ _) as [[j de]|]; simpl; lia.
Qed.

End Dirlookup.

Section Dirlink.
Context {WF : WakeFuel}.
Context (start size : Z).
Implicit Types (V : Z -> list Z) (F : gset Z).

Lemma tx_reads F s s' V :
  tx start size F s V ∅ -> bio_frame s s' -> txn_inv start size s' V ∅ -> tx start size F s' V ∅.
Proof. intros T Fr. apply (tx_frame start size F s s' V V ∅ ∅ T); [by apply bio_frame_log|by apply bio_frame_held]. Qed.

Lemma wpp_dirlink F s V dp name inum :
  tx start size F s V ∅ -> (dp < length (k_inodes s))%nat -> let i := k_inodes s !!! dp in
  dir_wf start V i -> alloc_wf start V -> short_fields i ->
  icache_wf (k_inodes s) -> (LkIcache ∉ k_held s) ->
  let off := 16 * Z.of_nat (dir_slot (content V i)) in
  may_write F V i off 16 -> IBLOCK (i_inum i) ∈ F -> off + 16 <= MAXFILE * BSIZE ->
  wpp (dirlink dp name inum)
    (fun r s' =>
       match dir_find name (content V i) with
       | Some (k, de) => r = -1 /\ tx start size F s' V ∅ /\
           exists ip, k_inodes s' = alter (ungot (de_inum de)) ip (k_inodes s)
       | None => r = 0 /\ exists V' i',
           written start V i V' i' off (enc_dirent (new_dirent name inum)) /\
           tframe (upd_inode dp (fun _ => i') s) s' /\ tx start size F s' V' ∅
       end)
    (fun e => e = "iget: no inodes"%string /\ is_Some (dir_find name (content V i)) /\
         (forall j, (j < NINODE)%nat -> i_ref (k_inodes s !!! j) <> 0) \/
       e = "balloc: out of blocks"%string /\ (length (free_blocks V) < 1 + cind i)%nat) s.
Proof.
  intros T Hdp i D Ha Hsf IW Hl off MW HFi Hmax. unfold dirlink.
  assert (DIRENT_SIZE = 16) as ED by reflexivity.
  apply wpp_bind. eapply wpp_weaken; [apply (wpp_dirlookup start size); [apply T|done|done|done]|..].
  2: { intros e He. by left. }
  fold i. intros r s0 (s1 & F1 & T1 & E1 & HQ). pose proof (tx_reads F s s1 V T F1 T1) as X1.
  assert (k_inodes s1 = k_inodes s) as Ek by (by apply bio_frame_inodes).
  destruct (dir_find name (content V i)) as [[k de]|].
  - destruct HQ as (ip & -> & Hip & -> & _).
    assert (k_inodes (upd_inode ip (gotten 1 (de_inum de)) s1) !!! ip = gotten 1 (de_inum de) (k_inodes s !!! ip)) as Eg.
    { simpl. rewrite alter_self_eq; [by rewrite Ek|]. rewrite Ek, (ic_len _ IW). done. }
    apply wpp_bind, wpp_wp. eexists tt, _. split.
    { apply iput_run; [simpl; by rewrite (bio_frame_held _ _ F1)|]. rewrite Eg.
      apply gotten_no_trunc, (ic_ref _ IW ip Hip). }
    wstep. split; [done|]. split; [by do 2 apply tx_inodes|]. exists ip.
    simpl. rewrite Ek. rewrite list_alter_alter_eq. done.
  - destruct HQ as [-> ->]. wstep. rewrite Ek. fold i.
    wapply (wp_slot_loop start size V dp i _ 0 s1); [done|by rewrite Ek|done|lia| |].
    { rewrite (dir_size start V i D). unfold DIRENT_SIZE. rewrite (Z.mul_comm 16), Z.div_mul by lia. lia. }
    intros off' s2 (F2 & T2 & E2 & Eoff). rewrite drop_0 in Eoff.
    assert (off' = off) as ->.
    { rewrite Eoff. unfold off, dir_slot. destruct (list_find _ _) as [[j de]|]; done. }
    assert (k_inodes s2 = k_inodes s) as Ek2 by (rewrite <- Ek; by apply bio_frame_inodes).
    pose proof (tx_reads F s1 s2 V X1 F2 T2) as X2. fold (new_dirent name inum).
    apply wpp_bind. eapply wpp_weaken.
    { apply (wpp_writei start size F s2 V dp _ off DIRENT_SIZE X2); rewrite ?Ek2, ?ED; try done.
      - apply D.
      - fold i. rewrite (dw_type _ _ _ D). done.
      - assert (MAXFILE * BSIZE = 71680) as EM by reflexivity. unfold off in *. lia.
      - by rewrite length_enc_dirent. }
    + rewrite Ek2. fold i. rewrite ED. intros r s3 HW.
      pose proof (dir_slot_le (content V i)). pose proof (dir_size start V i D).
      rewrite (proj2 (Z.ltb_ge _ off)), (proj2 (Z.ltb_ge _ _) Hmax) in HW by (unfold off; lia). cbn [orb] in HW.
      destruct HW as (-> & V' & i' & Hw & Fr & X3). rewrite Z.eqb_refl. cbn [negb]. wstep. split; [done|].
      rewrite firstn_all2 in Hw by (rewrite length_enc_dirent; lia).
      exists V', i'. split; [done|]. split; [|done]. etrans; [|exact Fr].
      apply tframe_inode. etrans; by apply tframe_bio.
    + rewrite Ek2. fold i. intros e [-> He]. right. split; [done|].
      rewrite ED in He. unfold off in He. by rewrite nblk_dirent in He.
Qed.

End Dirlink.
