(* ===== verification/Mkfs.v ===== *)
(** * The file system builder ([mkfs.c])

    The program that writes [fs.img] on the build machine, as state passing
    over the image and the three counters.  A sector is its 512 bytes; the
    fields of structures are their values, which [xshort] and [xint] put into
    little-endian bytes, so that [enc_dinode] and its relatives are the
    stores.  [perror]; [exit(1)] and a failed [assert] are [Panic].  The files
    named on the command line are given as names and contents.  The [printf]s
    are left out. *)

From S2P Require Import Prelude Monad State Layout Strings Inode.

(** ** Constants of [mkfs.c] *)

Definition mk_nblocks : Z := 995 - LOGSIZE.
Definition mk_nlog : Z := LOGSIZE.
Definition mk_ninodes : Z := 200.
Definition mk_size : Z := 1024.
Definition mk_zeroes : list Z := replicate 512 0.

(** ** The state: the image and the counters *)

Record mkfs := mkmkfs {
  mk_img : gmap Z (list Z);
  mk_freeblock : Z;
  mk_usedblocks : Z;
  mk_freeinode : Z;
}.

Definition set_mk_img (v : gmap Z (list Z)) (r : mkfs) : mkfs :=
  mkmkfs v (mk_freeblock r) (mk_usedblocks r) (mk_freeinode r).
Definition set_mk_freeinode (v : Z) (r : mkfs) : mkfs :=
  mkmkfs (mk_img r) (mk_freeblock r) (mk_usedblocks r) v.

Notation MK := (M mkfs).

Definition xshort (x : Z) : Z := u16 x.
Definition xint (x : Z) : Z := u32 x.

Definition massert (b : bool) : MK unit := if b then mret tt else panic "assert".

(** ** Sectors and inodes *)

Definition wsect (sec : Z) (buf : list Z) : MK unit :=
  modify (fun r => set_mk_img (<[sec := buf]> (mk_img r)) r).

Definition rsect (sec : Z) : MK (list Z) :=
  img ← gets mk_img;
  match img !! sec with
  | Some buf => mret buf
  | None => panic "read"
  end.

Definition i2b (inum : Z) : Z := inum / IPB + 2.

Definition winode (inum : Z) (ip : dinode) : MK unit :=
  let bn := i2b inum in
  buf ← rsect bn;
  wsect bn (splice (dinode_off inum) (enc_dinode ip) buf).

Definition rinode (inum : Z) : MK dinode :=
  let bn := i2b inum in
  buf ← rsect bn;
  mret (dec_dinode (dinode_off inum) buf).

Definition mk_ialloc (type : Z) : MK Z :=
  inum ← gets mk_freeinode;
  modify (set_mk_freeinode (inum + 1));;
  winode inum (mkdinode (s16 (xshort type)) 0 0 1 (xint 0) (replicate 13 0));;
  mret inum.

(** [freeblock++] together with the [usedblocks++] that goes with it. *)
Definition next_block : MK Z :=
  b ← gets mk_freeblock;
  modify (fun r => mkmkfs (mk_img r) (mk_freeblock r + 1) (mk_usedblocks r + 1) (mk_freeinode r));;
  mret b.

Definition mk_balloc (used : Z) : MK unit :=
  massert (used <? 512 * 8);;
  let buf := foldl (fun buf (i : nat) => mark_bit (Z.of_nat i) buf) mk_zeroes (seq 0 (Z.to_nat used)) in
  wsect (mk_ninodes / IPB + 3) buf.

(** ** [iappend] *)

(** The body of the loop up to the block number [x]. *)
Definition iappend_block (din : dinode) (fbn : Z) : MK (dinode * Z) :=
  let slot k a := mkdinode (d_type din) (d_major din) (d_minor din) (d_nlink din) (d_size din)
                           (<[k := a]> (d_addrs din)) in
  if fbn <? NDIRECT then
    let a := d_addrs din !!! Z.to_nat fbn in
    if xint a =? 0 then
      b ← next_block;
      mret (slot (Z.to_nat fbn) (xint b), xint b)
    else mret (din, xint a)
  else
    din ←
      (if xint (d_addrs din !!! Z.to_nat NDIRECT) =? 0 then
         b ← next_block;
         mret (slot (Z.to_nat NDIRECT) (xint b))
       else mret din);
    let ind := xint (d_addrs din !!! Z.to_nat NDIRECT) in
    indirect ← rsect ind;
    let k := (4 * Z.to_nat (fbn - NDIRECT))%nat in
    if rd 4 k indirect =? 0 then
      b ← next_block;
      wsect ind (wr 4 k (xint b) indirect);;
      mret (din, xint b)
    else mret (din, xint (rd 4 k indirect)).

Definition iappend (inum : Z) (xp : list Z) : MK unit :=
  din ← rinode inum;
  r ← loop (S (length xp)) (fun '(din, off, p) =>
    match p with
    | [] => mret (inr (din, off))
    | _ =>
        let fbn := off / 512 in
        massert (fbn <? MAXFILE);;
        '(din, x) ← iappend_block din fbn;
        let n1 := Z.min (Z.of_nat (length p)) ((fbn + 1) * 512 - off) in
        buf ← rsect x;
        wsect x (splice (Z.to_nat (off - fbn * 512)) (take (Z.to_nat n1) p) buf);;
        mret (inl (din, off + n1, drop (Z.to_nat n1) p))
    end) (din, xint (d_size din), xp);
  let '(din, off) := r in
  winode inum (mkdinode (d_type din) (d_major din) (d_minor din) (d_nlink din) (xint off) (d_addrs din)).

(** ** [main] *)

Definition mk_dirent (inum : Z) (name : list Z) : list Z :=
  enc_dirent (mkdirent (xshort inum) (strncpy_l DIRSIZ name)).

(** The chunks [read(fd, buf, sizeof(buf))] returns of a file. *)
Fixpoint chunks (fuel : nat) (l : list Z) : list (list Z) :=
  match fuel, l with
  | S fuel, _ :: _ => take 512 l :: chunks fuel (drop 512 l)
  | _, _ => []
  end.

Definition ch_underscore : Z := 95.

Definition mk_file (f : list Z * list Z) (rootino : Z) : MK unit :=
  let '(name, data) := f in
  massert (bool_decide (47 ∉ name));;
  let name := match name with c :: t => if c =? ch_underscore then t else name | [] => [] end in
  inum ← mk_ialloc T_FILE;
  iappend rootino (mk_dirent inum name);;
  for_each (chunks (length data) data) (fun buf => iappend inum buf).

Definition mk_init : mkfs := mkmkfs ∅ 0 0 1.

Definition mkfs_main (files : list (list Z * list Z)) : MK unit :=
  let bitblocks := mk_size / (512 * 8) + 1 in
  let used := mk_ninodes / IPB + 3 + bitblocks in
  modify (fun r => mkmkfs (mk_img r) used used (mk_freeinode r));;
  massert (mk_nblocks + used + mk_nlog =? mk_size);;
  for_each (seq 0 (Z.to_nat (mk_nblocks + used + mk_nlog))) (fun i => wsect (Z.of_nat i) mk_zeroes);;
  let sb := mksb (xint mk_size) (xint mk_nblocks) (xint mk_ninodes) (xint mk_nlog) in
  wsect 1 (splice 0 (enc_superblock sb) mk_zeroes);;
  rootino ← mk_ialloc T_DIR;
  massert (rootino =? ROOTINO);;
  iappend rootino (mk_dirent rootino [46]);;
  iappend rootino (mk_dirent rootino [46; 46]);;
  for_each files (fun f => mk_file f rootino);;
  din ← rinode rootino;
  let off := xint (d_size din) in
  let off := (off / BSIZE + 1) * BSIZE in
  winode rootino (mkdinode (d_type din) (d_major din) (d_minor din) (d_nlink din) (xint off) (d_addrs din));;
  used ← gets mk_usedblocks;
  mk_balloc used.

(** The image as a disk of [sb.size] sectors. *)
Definition mkfs_disk (files : list (list Z * list Z)) : disk :=
  match mkfs_main files mk_init with
  | Ret _ r => mkdisk (mk_img r) mk_size []
  | _ => mkdisk ∅ 0 []
  end.
