(* ===== verification/FsDemo.v ===== *)
(** * A booted kernel on an image from [mkfs]

    The state the examples of the file system theorems run in: [mkfs] builds
    an image with one file, the kernel boots from it, and a system call has
    begun its transaction. *)

From S2P Require Import Prelude Monad State Strings Sched Bio BioSpec Layout Log Crash LogSpec.
From S2P Require Import LogCrash Txn LogProps Inode FsSpec InodeSpec Console Content ReadSpec.
From S2P Require Import WriteSpec ContentSpec Mkfs.

(** The file [a] with 700 bytes. *)
Definition fs_disk : disk := mkfs_disk [([95; 97], replicate 700 7)].
#[warnings="-notation-for-abbreviation"]
Notation fs_V := (blk fs_disk).

Lemma fresh_reset d : fresh d (reset_state d).
Proof.
  split; [done|done|by rewrite NBUF_eq| |by rewrite NPROC_eq|done].
  intros i Hi. rewrite NBUF_eq in Hi. unfold reset_state. cbn [k_bufs].
  rewrite lookup_total_replicate_2 by lia. done.
Qed.

Lemma blk_length d :
  map_Forall (fun _ x => length x = 512%nat) (dk_blocks d) ->
  forall n, length (blk d n) = Z.to_nat BSIZE.
Proof.
  intros H n. unfold blk. destruct (dk_blocks d !! n) as [x|] eqn:E; [|done]. simpl.
  by apply (H n x).
Qed.

Lemma fs_vlen n : length (fs_V n) = Z.to_nat BSIZE.
Proof.
  apply blk_length. refine (bool_decide_unpack _ _). vm_compute. exact I.
Qed.

Lemma head_wf_zero start size data : head_n data = 0 -> 1 <= size -> head_wf start size data.
Proof. intros Hh Hs. split; rewrite Hh; [by rewrite LOGSIZE_eq|lia|intros; lia]. Qed.

Lemma fs_crash_inv : crash_inv 994 30 fs_disk fs_V.
Proof.
  assert (head_n (blk fs_disk 994) = 0) as Hh by (vm_compute; reflexivity).
  split.
  - split; [done|done|vm_compute; discriminate|vm_compute; reflexivity].
  - done.
  - vm_compute. reflexivity.
  - vm_compute. reflexivity.
  - apply fs_vlen.
  - exact (head_wf_zero 994 30 (blk fs_disk 994) Hh ltac:(lia)).
  - intros n _. exact (replay_clear 994 (blk fs_disk) n (Z.eq_le_incl _ _ Hh)).
Qed.

(** One system call has begun its transaction, and nothing is logged yet. *)
Definition op_begun (s : kstate) : Prop :=
  l_n (k_log s) = 0 /\ l_outstanding (k_log s) = 1 /\ l_committing (k_log s) = false /\ k_held s = [].

Lemma op_begun_inodes l s : op_begun s -> op_begun (set_k_inodes l s).
Proof. done. Qed.

Section Boot.
Context {WF : WakeFuel}.

(** The state in which a system call's transaction has begun. *)
Definition boot_state (d : disk) : kstate :=
  match (reboot;; begin_op) (reset_state d) with
  | Ret _ s => s
  | _ => reset_state d
  end.

Context (start size : Z) (d : disk).
Context (Hci : crash_inv start size d (blk d)).
Context (Hclear : wr 4 0 0 (blk d start) = blk d start) (Hhead : head_n (blk d start) = 0).

Lemma recover_clear n : blk (dwrites (recover_writes start (blk d)) d) n = blk d n.
Proof.
  rewrite blk_dwrites. unfold recover_writes, install_writes. rewrite Hhead, Hclear. simpl.
  destruct (decide (n = start)) as [->|Hne].
  - by rewrite fn_lookup_insert.
  - by rewrite fn_lookup_insert_ne.
Qed.

Lemma wp_boot :
  wp (reboot;; begin_op) (fun _ s => txn_inv start size s (blk d) ∅ /\ l_n (k_log s) = 0 /\
    l_outstanding (k_log s) = 1 /\ l_committing (k_log s) = false /\ k_held s = []) (reset_state d).
Proof.
  wapply (wp_reboot_txn start size); [apply Hci|apply fresh_reset|].
  intros [] s1 (T1 & _ & E1 & N1 & O1 & C1 & H1). simpl in O1, C1.
  eexists tt, _. split.
  { apply begin_op_run; [rewrite H1; apply not_elem_of_nil|].
    split; rewrite ?N1, ?O1, ?C1; [done|]. unfold MAXOPBLOCKS. rewrite LOGSIZE_eq. lia. }
  split; [|simpl; rewrite O1; done].
  apply (txn_inv_proper start size _ (blk (k_disk s1))); [intros n; rewrite E1; apply recover_clear|].
  destruct T1 as [B W Hn Hc I]. by split; [|split; apply W| | |].
Qed.

Lemma boot_state_ok : txn_inv start size (boot_state d) (blk d) ∅ /\ l_n (k_log (boot_state d)) = 0 /\
  l_outstanding (k_log (boot_state d)) = 1 /\ l_committing (k_log (boot_state d)) = false /\
  k_held (boot_state d) = [].
Proof. destruct wp_boot as (a & s & Hr & HQ). unfold boot_state. by rewrite Hr. Qed.

Lemma tx_set_inodes F s V H l :
  tx start size F s V H -> tx start size F (set_k_inodes l s) V H.
Proof. intros [[] ? ? ? ?]. split; auto. by split. Qed.

(** Any footprint that fits will do, and any inodes may be cached. *)
Lemma boot_tx F l :
  (forall n, n ∈ F -> 2 <= n < start) -> Z.of_nat (base.size F) <= size - 2 ->
  tx start size F (set_k_inodes l (boot_state d)) (blk d) ∅.
Proof.
  intros HF Hs. destruct boot_state_ok as (T & N & O & C & L). apply tx_set_inodes. split; auto.
  - unfold logged, txn. rewrite N. simpl. rewrite (left_id_L ∅ (∪)). lia.
  - lia.
  - rewrite L. apply not_elem_of_nil.
Qed.

Lemma boot_ops l : op_begun (set_k_inodes l (boot_state d)).
Proof. apply op_begun_inodes. exact (proj2 boot_state_ok). Qed.

End Boot.

Section FsBoot.
Context {WF : WakeFuel}.

Definition fs_state (l : list inode) : kstate := set_k_inodes l (boot_state fs_disk).

Lemma fs_clear : wr 4 0 0 (blk fs_disk 994) = blk fs_disk 994 /\ head_n (blk fs_disk 994) = 0.
Proof. split; vm_compute; reflexivity. Qed.

Lemma fs_tx F l :
  (forall n, n ∈ F -> 2 <= n < 994) -> Z.of_nat (base.size F) <= 28 ->
  tx 994 30 F (fs_state l) (blk fs_disk) ∅.
Proof.
  exact (boot_tx 994 30 fs_disk fs_crash_inv (proj1 fs_clear) (proj2 fs_clear) F l).
Qed.

Lemma fs_ops l : op_begun (fs_state l).
Proof.
  exact (boot_ops 994 30 fs_disk fs_crash_inv (proj1 fs_clear) (proj2 fs_clear) l).
Qed.

Lemma fs_txn l : txn_inv 994 30 (fs_state l) (blk fs_disk) ∅.
Proof. apply (tx_inv 994 30 ∅). apply fs_tx; [set_solver|rewrite size_empty; lia]. Qed.

End FsBoot.

(** ** Checking the invariants of an image

    [alloc_ok] and [file_ok] decide [alloc_wf] and [file_wf] by computation. *)

Definition alloc_ok (start : Z) (V : Z -> list Z) : bool :=
  (0 <? sb_size (sbv V)) && (0 <=? sb_ninodes (sbv V)) && (first_data V <=? start) &&
  forallb (fun b => first_data V <=? b) (free_blocks V).

Definition block_ok (start : Z) (V : Z -> list Z) (a : Z) : bool :=
  if a =? 0 then true
  else (first_data V <=? a) && (a <? start) && bool_decide (a ∉ free_blocks V).

Definition file_ok (start : Z) (V : Z -> list Z) (i : inode) : bool :=
  let addrs := baddr V i <$> seqZ 0 MAXFILE in
  (i_dev i =? 1) && (0 <=? i_inum i) && (i_inum i <? sb_ninodes (sbv V)) &&
  (length (i_addrs i) =? 13)%nat && (0 <=? i_size i) && (i_size i <=? MAXFILE * BSIZE) &&
  block_ok start V (indirect i) && forallb (block_ok start V) addrs &&
  bool_decide (NoDup (filter (fun a => a <> 0) addrs)) &&
  forallb (fun a => (a =? 0) || negb (a =? indirect i)) addrs &&
  forallb (fun bn => (i_size i <=? bn * BSIZE) || negb (baddr V i bn =? 0)) (seqZ 0 MAXFILE).

Lemma alloc_ok_wf start V : alloc_ok start V = true -> alloc_wf start V.
Proof.
  unfold alloc_ok. rewrite !andb_true_iff, Z.ltb_lt, !Z.leb_le, forallb_forall.
  intros (((H1 & H2) & H3) & H4). split; auto.
  intros b Hb. apply Z.leb_le, H4. by apply list_elem_of_In.
Qed.

(** Entries of a list without repetitions among its nonzero elements. *)
Lemma NoDup_filter_lookup (l : list Z) i j x :
  NoDup (filter (fun a => a <> 0) l) -> x <> 0 -> l !! i = Some x -> l !! j = Some x -> i = j.
Proof.
  intros Hnd Hx. revert i j. induction l as [|y l IH]; intros i j Hi Hj; [done|].
  assert (forall k, l !! k = Some x -> x ∈ filter (fun a => a <> 0) l) as Hin.
  { intros k Hk. apply list_elem_of_filter. split; [done|]. by eapply list_elem_of_lookup_2. }
  rewrite filter_cons in Hnd. destruct i as [|i], j as [|j]; simpl in *; simplify_eq; auto.
  - rewrite decide_True in Hnd by done. apply NoDup_cons in Hnd as [Hn _]. by apply Hin in Hj.
  - rewrite decide_True in Hnd by done. apply NoDup_cons in Hnd as [Hn _]. by apply Hin in Hi.
  - f_equal. apply IH; [|done|done]. case_decide; [by apply NoDup_cons in Hnd as [_ ?]|done].
Qed.

Lemma block_ok_spec start V a :
  block_ok start V a = true -> a <> 0 -> first_data V <= a < start /\ a ∉ free_blocks V.
Proof.
  unfold block_ok. destruct (Z.eqb_spec a 0); [done|].
  rewrite !andb_true_iff, Z.leb_le, Z.ltb_lt. intros [? H%bool_decide_eq_true] _. done.
Qed.

Lemma file_ok_wf start V i : file_ok start V i = true -> file_wf start V i.
Proof.
  unfold file_ok. cbv zeta. rewrite !andb_true_iff, !forallb_forall, !Z.leb_le, Z.ltb_lt, Z.eqb_eq, Nat.eqb_eq.
  intros ((((((((((H1 & H2) & H3) & H4) & H5) & H6) & H7) & H8) & H9%bool_decide_eq_true) & H10) & H11).
  assert (MAXFILE = 140) as EM by reflexivity. assert (BSIZE = 512) as EB by reflexivity.
  assert (forall bn, 0 <= bn < MAXFILE ->
    (baddr V i <$> seqZ 0 MAXFILE) !! Z.to_nat bn = Some (baddr V i bn)) as Hlk.
  { intros bn Hbn. rewrite list_lookup_fmap, lookup_seqZ_lt by lia. simpl. do 2 f_equal. lia. }
  assert (forall bn, 0 <= bn < MAXFILE -> In (baddr V i bn) (baddr V i <$> seqZ 0 MAXFILE)) as Hin.
  { intros bn Hbn. apply list_elem_of_In. eapply list_elem_of_lookup_2. by apply Hlk. }
  split; auto.
  - intros a [Ha [->|(bn & Hbn & <-)]]; apply block_ok_spec; auto.
  - intros bn bn' Hb Hb' Hne E. enough (Z.to_nat bn = Z.to_nat bn') by lia.
    apply (NoDup_filter_lookup _ _ _ (baddr V i bn) H9 Hne); [by apply Hlk|rewrite E; by apply Hlk].
  - intros bn Hbn Hne E. specialize (H10 _ (Hin bn Hbn)). rewrite E, Z.eqb_refl in H10.
    apply orb_true_iff in H10 as [H10%Z.eqb_eq|]; [congruence|done].
  - intros bn Hbn Hs E. specialize (H11 bn). rewrite E in H11.
    assert (In bn (seqZ 0 MAXFILE)) as Hi by (apply list_elem_of_In, elem_of_seqZ; lia).
    apply H11, orb_true_iff in Hi as [Hi%Z.leb_le|]; [lia|done].
Qed.

(** The file [a], locked, in slot 0 of the inode cache. *)
Definition fs_inode (inum : Z) : inode :=
  load_dinode (dino (blk fs_disk) inum) (mkinode 1 inum 1 3 0 0 0 0 0 []).

Lemma fs_alloc_wf : alloc_wf 994 (blk fs_disk).
Proof. apply alloc_ok_wf. vm_compute. reflexivity. Qed.

Lemma fs_file_wf : file_wf 994 (blk fs_disk) (fs_inode 2).
Proof. apply file_ok_wf. vm_compute. reflexivity. Qed.

(** The bitmap of the image: its sector, and the first free blocks. *)
Lemma fs_free : take 3 (free_blocks (blk fs_disk)) = [32; 33; 34].
Proof. vm_compute. reflexivity. Qed.

Lemma fs_enough : (3 <= length (free_blocks (blk fs_disk)))%nat.
Proof. apply Nat.leb_le. vm_compute. reflexivity. Qed.

Lemma fs_bmblock b : 0 <= b < 4096 -> bmblock (blk fs_disk) b = 28.
Proof.
  intros Hb. assert (sb_ninodes (sbv (blk fs_disk)) = 200) as E by (vm_compute; reflexivity).
  unfold bmblock, BBLOCK. rewrite E, (Z.div_small b BPB); [done|exact Hb].
Qed.

Lemma fs_may_alloc (F : gset Z) :
  28 ∈ F -> 32 ∈ F -> 33 ∈ F -> 34 ∈ F -> may_alloc F (blk fs_disk) 3.
Proof.
  intros H1 H2 H3 H4 b Hb. rewrite fs_free in Hb. rewrite fs_bmblock; [|set_unfold; lia].
  split; [|done]. repeat (apply elem_of_cons in Hb as [->|Hb]; [done|]). by apply not_elem_of_nil in Hb.
Qed.
