(* ===== verification/FsProps.v ===== *)
(** * The properties of files, inodes and blocks

    The theorems about the allocator, the inode cache and the contents of
    files, each with a run on the image that [mkfs] builds. *)

From S2P Require Import Prelude Monad State Strings Sched Bio BioSpec Layout Log Crash LogSpec.
From S2P Require Import LogCrash Txn LogProps Inode FsSpec InodeSpec Console Content ReadSpec.
From S2P Require Import WriteSpec ContentSpec Mkfs FsDemo.

(** The file with number [inum] as a disk holds it. *)
Definition disk_file (d : disk) (inum : Z) : list Z :=
  content (blk d) (load_dinode (dino (blk d) inum) inhabitant).

(** A file on a disk that holds [V] below the log. *)
Lemma disk_file_ext start d V i :
  (forall n, n < start -> blk d n = V n) -> file_wf start V i -> alloc_wf start V ->
  dino V (i_inum i) = dinode_of i -> disk_file d (i_inum i) = content V i.
Proof.
  intros E W A Hd. unfold disk_file. pose proof (IBLOCK_range V (i_inum i) (fw_inum _ _ _ W)).
  pose proof (aw_bitmap _ _ A). pose proof (aw_size _ _ A).
  pose proof (bmblock_range V (sb_size (sbv V) - 1) ltac:(lia)).
  assert (dino (blk d) (i_inum i) = dino V (i_inum i)) as ->.
  { unfold dino. rewrite E; [done|]. unfold first_data in *. lia. }
  rewrite Hd. transitivity (content (blk d) i); [done|].
  apply (content_same start); [|done]. intros a Ha. apply E, (fw_data _ _ _ W a Ha).
Qed.

(** The checks at the head of [writei]. *)
Lemma writei_refused {WF : WakeFuel} s ip src off n :
  let i := k_inodes s !!! ip in i_type i <> T_DEV ->
  0 <= off < 4294967296 -> 0 <= n < 4294967296 ->
  i_size i < off \/ MAXFILE * BSIZE < off + n -> writei ip src off n s = Ret (-1) s.
Proof.
  intros i Hty Ho Hn Hbad. assert (MAXFILE * BSIZE = 71680) as EM by reflexivity.
  unfold writei. kstep. fold i. rewrite (proj2 (Z.eqb_neq _ _) Hty).
  destruct (Z.ltb_spec (i_size i) off); [done|]. simpl.
  destruct (Z.ltb_spec (u32 (off + n)) off); [done|].
  destruct (Z.ltb_spec (MAXFILE * BSIZE) (u32 (off + n))) as [|Hm]; [done|].
  destruct (decide (off + n < 4294967296)) as [Hs|Hs]; [rewrite u32_id in Hm; lia|].
  assert (u32 (off + n) = off + n - 4294967296) by (unfold u32; rewrite <- (Z.mod_unique_pos (off + n) (2 ^ 32) 1 (off + n - 4294967296)); lia).
  lia.
Qed.

Section FsProps.
Context {WF : WakeFuel}.
Context (start size : Z).
Implicit Types (V : Z -> list Z) (F : gset Z).

(** C10: [balloc] takes the first free block of the bitmap: it marks that block
    and no other as used, returns it filled with zeros, and changes no other
    sector.  With no free block it panics. *)
Theorem balloc_first_free F s V :
  tx start size F s V ∅ -> alloc_wf start V ->
  (forall b, head (free_blocks V) = Some b -> b ∈ F /\ bmblock V b ∈ F) ->
  match free_blocks V with
  | [] => exists s', balloc 1 s = Panic "balloc: out of blocks" s'
  | b :: fl => exists s' V', balloc 1 s = Ret b s' /\ tx start size F s' V' ∅ /\
      free_blocks V' = fl /\ V' b = replicate (Z.to_nat BSIZE) 0 /\
      forall n, n <> b -> n <> bmblock V b -> V' n = V n
  end.
Proof.
  intros T W HF.
  destruct (wpp_balloc start size F s V ∅ T W) as [(b & s' & Hr & fl & Hfl & Fr & T')|(e & s' & Hr & -> & Hfl)].
  - split; [rewrite map_size_empty; lia|done].
  - intros b fl E. apply HF. by rewrite E.
  - rewrite Hfl. exists s', (alloc_block V b). split; [done|]. split; [done|].
    pose proof (fun n => tx_vlen _ _ _ _ _ _ n T) as Hlen.
    destruct (alloc_block_wf start V b fl Hlen W Hfl) as (_ & E & _). split; [done|].
    unfold alloc_block. split; [by rewrite fn_lookup_insert|].
    intros n H1 H2. by rewrite !fn_lookup_insert_ne.
  - rewrite Hfl. by exists s'.
Qed.

(** [bfree] returns exactly one block to the free list, and panics on a
    block that is free already. *)
Theorem bfree_frees F s V b :
  tx start size F s V ∅ -> alloc_wf start V -> 0 <= b < sb_size (sbv V) -> bmblock V b ∈ F ->
  if free V b then exists s', bfree 1 b s = Panic "freeing free block" s'
  else exists s' V', bfree 1 b s = Ret tt s' /\ tx start size F s' V' ∅ /\
    (forall c, c ∈ free_blocks V' <-> (c ∈ free_blocks V) \/ c = b) /\
    forall n, n <> bmblock V b -> V' n = V n.
Proof.
  intros T W Hb HF. pose proof (fun n => tx_vlen _ _ _ _ _ _ n T) as Hlen.
  destruct (wpp_bfree start size F s V ∅ b T W) as [([] & s' & Hr & Ef & Fr & T')|(e & s' & Hr & -> & Ef)];
    [split; [rewrite map_size_empty; lia|done]|done|done|rewrite Ef..]; [|by exists s'].
  exists s', (free_block V b). split; [done|]. split; [done|]. split.
  - intros c. pose proof (bmblock_range V b Hb). pose proof (aw_low _ _ W).
    assert (0 <= sb_ninodes (sbv V) / IPB) by (apply Z.div_pos; [apply (aw_ninodes _ _ W)|done]).
    destruct (free_set_bit V b true (unmark_bit (b mod BPB) (V (bmblock V b)))) as [E1 E2];
      [apply W|done|done|lia| |].
    { intros bj Hj. apply bit_clear_unmark; [done|apply Z.mod_pos_bound; done|done]. }
    fold (free_block V b) in E1, E2. rewrite !elem_of_free_blocks, E1. split.
    + intros [Hc Hf]. rewrite E2 in Hf by done. case_decide; auto.
    + intros [[Hc Hf]| ->]; (split; [done|]); rewrite E2 by done; case_decide; done.
  - intros n Hn. unfold free_block. by rewrite fn_lookup_insert_ne.
Qed.

(** C7: [readi] of a file or directory returns the bytes of its contents from
    [off] on, as many as there are up to [n], for every offset and length,
    across direct and indirect blocks, and changes nothing; an offset behind
    the end or a range that wraps around is an error. *)
Theorem readi_content s V ip off n :
  txn_inv start size s V ∅ -> let i := k_inodes s !!! ip in
  file_wf start V i -> i_type i <> T_DEV -> 0 <= off < 4294967296 -> 0 <= n < 4294967296 ->
  exists s', txn_inv start size s' V ∅ /\ k_disk s' = k_disk s /\ k_inodes s' = k_inodes s /\
    readi ip off n s =
      (if (i_size i <? off) || (4294967296 <=? off + n) then Ret (-1, []) s'
       else let m := Z.min n (i_size i - off) in
            Ret (m, slice (Z.to_nat off) (Z.to_nat m) (content V i)) s').
Proof.
  intros T i W Hty Ho Hn.
  destruct (wp_readi start size s V ip off n T W Hty Ho Hn) as (r & s' & Hr & E & Fr & T' & Ed).
  exists s'. split; [done|]. split; [done|]. split; [by apply bio_frame_inodes|].
  rewrite Hr, E. fold i. destruct ((i_size i <? off) || (4294967296 <=? off + n)) eqn:Ec; [done|].
  apply orb_false_iff in Ec as [Hs%Z.ltb_ge _]. cbv zeta. by rewrite fbytes_slice by lia.
Qed.

(** C3: [writei] splices the bytes into the file: it allocates the blocks the
    file lacks, extends the size when the write goes past the end, and keeps
    the inode on disk up to date; the other inodes, and the files that share
    no block with this one, are as before.  An offset behind the end or a
    range past the maximal size is refused without any effect.  It panics
    only when the free blocks run out. *)
Theorem writei_content F s V ip src off n :
  tx start size F s V ∅ -> (ip < length (k_inodes s))%nat -> let i := k_inodes s !!! ip in
  alloc_wf start V -> file_wf start V i -> short_fields i -> i_type i <> T_DEV ->
  0 <= off < 4294967296 -> 0 <= n < 4294967296 -> n <= Z.of_nat (length src) ->
  may_write F V i off n -> IBLOCK (i_inum i) ∈ F ->
  (i_size i < off \/ MAXFILE * BSIZE < off + n -> writei ip src off n s = Ret (-1) s) /\
  (off <= i_size i -> off + n <= MAXFILE * BSIZE ->
   (nblk off n + cind i <= length (free_blocks V))%nat ->
   exists s' V' i', writei ip src off n s = Ret n s' /\ tx start size F s' V' ∅ /\
     k_inodes s' = alter (fun _ => i') ip (k_inodes s) /\
     written start V i V' i' off (take (Z.to_nat n) src)) /\
  (forall e s', writei ip src off n s = Panic e s' ->
     e = "balloc: out of blocks"%string /\ (length (free_blocks V) < nblk off n + cind i)%nat).
Proof.
  intros T Hip i Ha W Hsf Hty Ho Hn Hsrc MW HFi.
  pose proof (wpp_writei start size F s V ip src off n T Hip Ha W Hsf Hty Ho Hn Hsrc MW HFi) as H.
  fold i in H. split; [by apply writei_refused|].
  destruct H as [(r & s' & Hr & HQ)|(e & s' & Hr & -> & Hlt)]; rewrite Hr; (split; [|done || by intros ? ? [= <- <-]]).
  - intros H1 H2 _. rewrite (proj2 (Z.ltb_ge _ _) H1), (proj2 (Z.ltb_ge _ _) H2) in HQ.
    destruct HQ as (-> & V' & i' & Hw & Fr & T'). exists s', V', i'. split; [done|].
    split; [done|]. split; [by rewrite (tframe_inodes _ _ Fr)|done].
  - intros _ _ Hle. lia.
Qed.

(** *** Writes inside the limits *)

Section Write.
Context (F : gset Z) (s : kstate) (V : Z -> list Z) (ip : nat) (src : list Z) (off n : Z).
#[local, warnings="-notation-for-abbreviation"]
Notation i := (k_inodes s !!! ip).
Context (Htx : tx start size F s V ∅) (Hip : (ip < length (k_inodes s))%nat).
Context (Halloc : alloc_wf start V) (Hwf : file_wf start V i).
Context (Hshort : short_fields i) (Htype : i_type i <> T_DEV).
Context (Hoff : 0 <= off <= i_size i) (Hn : 0 <= n) (Hmax : off + n <= MAXFILE * BSIZE).
Context (Hsrc : n <= Z.of_nat (length src)).
Context (Hmay : may_write F V i off n) (Hiblock : IBLOCK (i_inum i) ∈ F).
Context (Hfree : (nblk off n + cind i <= length (free_blocks V))%nat).

Lemma writei_ok : exists s' V' i', writei ip src off n s = Ret n s' /\
  written start V i V' i' off (take (Z.to_nat n) src) /\
  tframe (upd_inode ip (fun _ => i') s) s' /\ tx start size F s' V' ∅ /\
  k_inodes s' !!! ip = i' /\ i_size i' = Z.max (i_size i) (off + n) /\
  i_type i' = i_type i /\ i_inum i' = i_inum i.
Proof.
  assert (MAXFILE * BSIZE = 71680) as EM by reflexivity. pose proof (fw_size _ _ _ Hwf).
  destruct (wpp_writei start size F s V ip src off n Htx Hip Halloc Hwf Hshort Htype ltac:(lia)
    ltac:(lia) Hsrc Hmay Hiblock) as [(r & s2 & Hr & HQ)|(e & s2 & Hr & -> & Hlt)]; [|lia].
  rewrite (proj2 (Z.ltb_ge _ off)), (proj2 (Z.ltb_ge _ _) Hmax) in HQ by lia.
  destruct HQ as (-> & V' & i' & Hw & Fr & T'). exists s2, V', i'. do 4 (split; [done|]).
  split; [rewrite (tframe_inodes _ _ Fr); by apply (alter_self_eq ip (fun _ => i'))|].
  rewrite (wn_inode _ _ _ _ _ _ _ Hw). simpl. rewrite length_take. split; [lia|done].
Qed.

(** C6: Bytes written are the bytes read back: after [writei] has stored [n]
    bytes at [off], [readi] at [off] returns these bytes, and [readi] of the
    whole file returns the old contents with the bytes spliced in. *)
Theorem writei_readi :
  exists s1 s2 s3, (writei ip src off n;; readi ip off n) s = Ret (n, take (Z.to_nat n) src) s1 /\
    writei ip src off n s = Ret n s2 /\
    let m := Z.max (i_size i) (off + n) in
    readi ip 0 m s2 = Ret (m, splice (Z.to_nat off) (take (Z.to_nat n) src) (content V i)) s3.
Proof.
  assert (MAXFILE * BSIZE = 71680) as EM by reflexivity.
  destruct writei_ok as (s2 & V' & i' & Hr & Hw & _ & T' & Ei & Es & Et & _).
  pose proof (wn_wf _ _ _ _ _ _ _ Hw) as W'. pose proof (fw_size _ _ _ W').
  assert (length (take (Z.to_nat n) src) = Z.to_nat n) as El by (rewrite length_take; lia).
  assert (forall o m, 0 <= o -> 0 <= m -> o + m <= i_size i' -> exists s3, readi ip o m s2 =
    Ret (m, slice (Z.to_nat o) (Z.to_nat m) (content V' i')) s3) as Hread.
  { intros o m H1 H2 H3. destruct (wp_readi start size s2 V' ip o m) as (r & s3 & Hr' & E & _);
      rewrite ?Ei; [apply T'|done|by rewrite Et|lia|lia|].
    exists s3. rewrite Hr', E, Ei.
    rewrite (proj2 (Z.ltb_ge (i_size i') o)), (proj2 (Z.leb_gt _ (o + m))) by lia.
    cbn [orb]. rewrite Z.min_l by lia. by rewrite fbytes_slice by lia. }
  destruct (Hread off n) as (s1 & H1); [lia..|]. destruct (Hread 0 (i_size i')) as (s3 & H3); [lia..|].
  rewrite (wn_content _ _ _ _ _ _ _ Hw) in H1, H3. exists s1, s2, s3. split; [|split; [done|]].
  - rewrite (bind_Ret _ _ _ _ _ Hr), H1.
    pose proof (slice_splice (Z.to_nat off) (take (Z.to_nat n) src) (content V i)) as E.
    rewrite El, length_content in E. by rewrite E by lia.
  - cbv zeta. rewrite <- Es, H3. do 2 f_equal. unfold slice. rewrite drop_0.
    apply firstn_all2. rewrite length_splice_max; rewrite length_content; lia.
Qed.

Context (Hln : l_n (k_log s) = 0) (Hout : l_outstanding (k_log s) = 1).
Context (Hcm : l_committing (k_log s) = false) (Hdino : dino V (i_inum i) = dinode_of i).

(** C2: A write is atomic with respect to crashes: when a system call's
    [writei] is committed by [end_op] and the machine stops after any prefix of
    the disk writes, booting again leaves the file with its old contents or
    with the bytes spliced in, nothing between, and without a crash the disk
    holds the new contents. *)
Theorem write_crash_atomic :
  let old := content V i in let new := splice (Z.to_nat off) (take (Z.to_nat n) src) old in
  disk_file (k_disk s) (i_inum i) = old /\
  exists s' w, (writei ip src off n;; end_op) s = Ret tt s' /\
    k_disk s' = dwrites w (k_disk s) /\ disk_file (k_disk s') (i_inum i) = new /\
    forall k d s0, crashes (dwrites (take k w) (k_disk s)) d -> fresh d s0 ->
      exists s1, reboot s0 = Ret tt s1 /\
        (disk_file (k_disk s1) (i_inum i) = old \/ disk_file (k_disk s1) (i_inum i) = new).
Proof.
  intros old new.
  assert (forall m, m < start -> blk (k_disk s) m = V m) as Edk.
  { intros m _. symmetry. apply (bio_off_disk s V ∅ (logged (k_log s))); [apply Htx|done|].
    unfold logged, txn. rewrite Hln. apply not_elem_of_empty. }
  split; [by apply (disk_file_ext start)|].
  destruct writei_ok as (s2 & V' & i' & Hr & Hw & Fr & T' & _ & _ & _ & Ei).
  destruct (tf_ops _ _ Fr) as [Eo Ec]. simpl in Eo, Ec. pose proof (tf_disk _ _ Fr) as Ed. simpl in Ed.
  destruct (end_op_atomic start size s2 V' (tx_inv _ _ _ _ _ _ T')) as (s' & w & He & Edisk & Hnew & Hcrash);
    [by rewrite Eo|by rewrite Ec|apply (tx_lock _ _ _ _ _ _ T')|].
  rewrite Ed in Edisk, Hcrash.
  assert (forall d, (forall m, m < start -> blk d m = V' m) -> disk_file d (i_inum i) = new) as Hdf.
  { intros d E. rewrite <- Ei, (disk_file_ext start d V' i'); [by rewrite (wn_content _ _ _ _ _ _ _ Hw)|done|..];
      rewrite ?Ei; by apply Hw. }
  exists s', w. split; [by rewrite (bind_Ret _ _ _ _ _ Hr)|]. split; [done|]. split; [by apply Hdf|].
  intros k d s0 Hc Hf. destruct (Hcrash k d s0 Hc Hf) as (s1 & Hb & [E|E]); exists s1; (split; [done|]).
  - left. apply (disk_file_ext start); [|done..]. intros m Hlt. rewrite E by done. by apply Edk.
  - right. by apply Hdf.
Qed.

End Write.

(** *** The inode cache *)

(** C24: The inode cache never holds an inode twice: [iget] returns the entry
    that caches the inode when there is one and recycles an unreferenced entry
    otherwise, takes one reference and leaves the other entries alone, and a
    second [iget] returns the same entry.  It panics only when no entry caches
    the inode and all of them are referenced. *)
Theorem iget_unique s dev inum :
  icache_wf (k_inodes s) -> (LkIcache ∉ k_held s) ->
  (exists ip s', iget dev inum s = Ret ip s' /\ (ip < NINODE)%nat /\
     k_inodes s' = alter (gotten dev inum) ip (k_inodes s) /\ icache_wf (k_inodes s') /\
     (forall jp, (jp < NINODE)%nat -> caches dev inum (k_inodes s !!! jp) = true -> jp = ip) /\
     caches dev inum (k_inodes s' !!! ip) = true /\
     exists s2, iget dev inum s' = Ret ip s2) \/
  (exists s', iget dev inum s = Panic "iget: no inodes" s' /\
     forall jp, (jp < NINODE)%nat -> caches dev inum (k_inodes s !!! jp) = false /\
       i_ref (k_inodes s !!! jp) <> 0).
Proof.
  intros W Hl. destruct (wpp_iget s dev inum W Hl) as [(ip & s' & Hr & Hip & -> & Hc)|(e & s' & Hr & -> & Hno)];
    [left|right; by exists s'].
  pose proof (ic_ref _ W ip Hip) as Href. set (s' := upd_inode ip (gotten dev inum) s) in *.
  assert (icache_wf (k_inodes s')) as W'.
  { apply icache_wf_get; [done|done|]. destruct Hc as [Hc|[_ Hc]]; auto. }
  assert (caches dev inum (k_inodes s' !!! ip) = true) as Hci.
  { unfold s'. simpl. rewrite alter_self_eq by (rewrite (ic_len _ W); done).
    by apply caches_gotten_self. }
  exists ip, s'. do 4 (split; [done|]). split; [|split; [done|]].
  - intros jp Hj H1. destruct Hc as [Hc|[_ Hc]]; [by apply (ic_uniq _ W dev inum)|by rewrite Hc in H1].
  - destruct (wpp_iget s' dev inum W' Hl) as [(jp & s2 & Hr2 & Hjp & _ & Hc2)|(e & s2 & _ & _ & Hno)].
    + exists s2. rewrite Hr2. f_equal. destruct Hc2 as [Hc2|[_ Hc2]]; [|by rewrite Hc2 in Hci].
      by apply (ic_uniq _ W' dev inum).
    + destruct (Hno ip Hip) as [E _]. by rewrite E in Hci.
Qed.

(** What [iupdate] stores, [ilock] loads: an entry that was recycled and
    refers to the inode again gets back every field the disk keeps, and the
    other inodes on disk are as before. *)
Theorem iupdate_ilock F s V ip j :
  tx start size F s V ∅ -> (LkIcache ∉ k_held s) -> (ip < length (k_inodes s))%nat ->
  let i := k_inodes s !!! ip in
  i_dev i = 1 -> 0 <= i_inum i -> inode_ranges i -> i_type i <> 0 -> IBLOCK (i_inum i) ∈ F ->
  i_dev j = 1 -> i_inum j = i_inum i -> 1 <= i_ref j -> i_flags j = 0 ->
  exists s' V', (iupdate ip;; modify (upd_inode ip (fun _ => j));; ilock ip) s = Ret tt s' /\
    dinode_of (k_inodes s' !!! ip) = dinode_of i /\
    txn_inv start size s' V' ∅ /\ dino V' (i_inum i) = dinode_of i /\
    forall n, 0 <= n -> n <> i_inum i -> dino V' n = dino V n.
Proof.
  intros T Hl Hip i Hd Hi R Ht HF Hdj Hij Hrj Hfj.
  pose proof (tx_home _ _ _ _ _ _ T _ HF) as Hh.
  destruct (wp_iupdate start size F s V ∅ ip T) as ([] & s1 & Hr1 & Fr & T1);
    [rewrite map_size_empty; lia|done|done|apply R|done|done|]. fold i in T1.
  pose proof (fun n => tx_vlen _ _ _ _ _ _ n T) as Hlen.
  pose proof (fun n => dino_put V i n Hlen R Hi) as Edino.
  set (s2 := upd_inode ip (fun _ => j) s1).
  assert (k_inodes s2 !!! ip = j) as Ej.
  { unfold s2. simpl. rewrite (tframe_inodes _ _ Fr). by apply (alter_self_eq ip (fun _ => j)). }
  destruct (wpp_ilock start size s2 (put_inode V i) ip) as [([] & s3 & Hr3 & T3 & _ & F3)|(e & s3 & _ & _ & _ & E)];
    rewrite ?Ej, ?Hij; [by apply txn_inv_inodes, T1|simpl; by rewrite (tframe_held _ _ Fr)|
      simpl; rewrite length_alter, (tframe_inodes _ _ Fr); done|done|by rewrite Hfj|done|lia| |].
  - exists s3, (put_inode V i). split.
    { rewrite (bind_Ret _ _ _ _ _ Hr1). by rewrite (bind_Ret _ _ _ tt s2). }
    rewrite Ej in F3. rewrite (bio_frame_inodes _ _ F3). simpl.
    rewrite (alter_self_eq ip (fun _ => locked (put_inode V i) j)) by
      (rewrite length_alter, (tframe_inodes _ _ Fr); done).
    split; [|split; [done|split]].
    + unfold locked. rewrite Hfj. simpl. rewrite Hij, Edino, decide_True by done. by destruct i.
    + by rewrite Edino, decide_True.
    + intros n Hn Hne. by rewrite Edino, decide_False.
  - rewrite Ej, Hij, Edino, decide_True in E by done. done.
Qed.

End FsProps.

(** ** On the image of [mkfs] *)

(** The file [a] is locked in entry 0; the footprint covers its inode block,
    the bitmap, its second block and three free blocks. *)
Definition fs_F : gset Z := {[2; 28; 31; 32; 33; 34]}.
#[local, warnings="-notation-for-abbreviation"]
Notation fs_s := (fs_state (WF := 1%nat) [fs_inode 2]).

Lemma fs_F_tx l : tx 994 30 fs_F (fs_state (WF := 1%nat) l) (blk fs_disk) ∅.
Proof.
  apply (fs_tx (WF := 1%nat)); [|vm_compute; discriminate].
  intros n. unfold fs_F. set_unfold. lia.
Qed.

Lemma fs_baddr bn : 1 <= bn < 4 -> baddr (blk fs_disk) (fs_inode 2) bn = if decide (bn = 1) then 31 else 0.
Proof.
  intros Hb. assert (bn = 1 \/ bn = 2 \/ bn = 3) as [->|[->| ->]] by lia; vm_compute; reflexivity.
Qed.

Lemma fs_may_write : may_write fs_F (blk fs_disk) (fs_inode 2) 700 600.
Proof.
  assert (nblk 700 600 = 2%nat /\ cind (fs_inode 2) = 1%nat) as [E1 E2] by (split; vm_compute; reflexivity).
  split.
  - rewrite E1, E2. apply fs_may_alloc; clear; unfold fs_F; set_unfold; lia.
  - intros bn H1 H2 Hne. change (700 / BSIZE) with 1 in H1. change BSIZE with 512 in H2.
    rewrite fs_baddr in * by lia. clear E1 E2. case_decide; [|contradiction].
    unfold fs_F. set_unfold. lia.
  - intros H1. vm_compute in H1. discriminate H1.
Qed.

Lemma fs_free_cons : exists fl, free_blocks (blk fs_disk) = 32 :: fl.
Proof.
  pose proof fs_free as E. destruct (free_blocks (blk fs_disk)) as [|b fl]; [discriminate E|].
  injection E as -> _. by exists fl.
Qed.

Lemma fs_head b :
  head (free_blocks (blk fs_disk)) = Some b -> b ∈ fs_F /\ bmblock (blk fs_disk) b ∈ fs_F.
Proof.
  destruct fs_free_cons as (fl & E). rewrite E. clear E. simpl. intros [= <-].
  rewrite fs_bmblock by lia. split; unfold fs_F; set_unfold; lia.
Qed.

Lemma fs_s_inode : k_inodes fs_s = [fs_inode 2].
Proof. reflexivity. Qed.

Lemma fs_s_len : (0 < length (k_inodes fs_s))%nat.
Proof. rewrite fs_s_inode. simpl. lia. Qed.

(** What the theorems ask of the file [a]. *)
Lemma fs_inode_ok : short_fields (fs_inode 2) /\ i_type (fs_inode 2) <> T_DEV /\
  i_size (fs_inode 2) = 700 /\ IBLOCK (i_inum (fs_inode 2)) ∈ fs_F /\
  dino (blk fs_disk) (i_inum (fs_inode 2)) = dinode_of (fs_inode 2) /\ cind (fs_inode 2) = 1%nat.
Proof.
  split; [unfold short_fields; repeat split; vm_compute; (discriminate || reflexivity)|].
  split; [vm_compute; discriminate|]. split; [vm_compute; reflexivity|].
  split; [vm_compute; reflexivity|]. split; vm_compute; reflexivity.
Qed.

Lemma balloc_first_free_witness :
  exists s' V', balloc (WF := 1%nat) 1 fs_s = Ret 32 s' /\ V' 32 = replicate (Z.to_nat BSIZE) 0.
Proof.
  destruct fs_free_cons as (fl & E).
  pose proof (balloc_first_free (WF := 1%nat) 994 30 fs_F fs_s (blk fs_disk) (fs_F_tx _) fs_alloc_wf fs_head) as H.
  rewrite E in H. destruct H as (s' & V' & Hr & _ & _ & HV & _).
  exists s', V'. split; [exact Hr|exact HV].
Defined.

Lemma fs_used : free (blk fs_disk) 31 = false /\ 0 <= 31 < sb_size (sbv (blk fs_disk)).
Proof. split; [vm_compute; reflexivity|]. split; [discriminate|vm_compute; reflexivity]. Qed.

Lemma bfree_frees_witness :
  exists s' V', bfree (WF := 1%nat) 1 31 fs_s = Ret tt s' /\ 31 ∈ free_blocks V'.
Proof.
  destruct fs_used as [E Hr].
  pose proof (bfree_frees (WF := 1%nat) 994 30 fs_F fs_s (blk fs_disk) 31 (fs_F_tx _) fs_alloc_wf Hr) as H.
  rewrite E, fs_bmblock in H by lia. destruct H as (s' & V' & Hb & _ & Hf & _).
  - unfold fs_F. set_unfold. lia.
  - exists s', V'. split; [exact Hb|]. apply Hf. right. reflexivity.
Defined.

Lemma fs_content : content (blk fs_disk) (fs_inode 2) = replicate 700 7.
Proof. vm_compute. reflexivity. Qed.

Lemma readi_content_witness :
  exists s', readi (WF := 1%nat) 0 500 600 fs_s = Ret (200, replicate 200 7) s'.
Proof.
  destruct fs_inode_ok as (_ & Ht & Hs & _).
  destruct (readi_content (WF := 1%nat) 994 30 fs_s (blk fs_disk) 0 500 600 (fs_txn (WF := 1%nat) _)
    fs_file_wf Ht ltac:(lia) ltac:(lia)) as (s' & _ & _ & _ & Hr).
  change (k_inodes fs_s !!! 0%nat) with (fs_inode 2) in Hr. rewrite Hs, fs_content in Hr.
  exists s'. exact Hr.
Defined.

(** The write of 600 bytes at the end of the file. *)
Lemma fs_write : 0 <= 700 <= i_size (fs_inode 2) /\ 700 + 600 <= MAXFILE * BSIZE /\
  600 <= Z.of_nat (length (replicate 600 9)) /\
  (nblk 700 600 + cind (fs_inode 2) <= length (free_blocks (blk fs_disk)))%nat.
Proof.
  destruct fs_inode_ok as (_ & _ & Hs & _ & _ & Hc). rewrite Hs, Hc. clear Hs Hc.
  split; [lia|]. split; [done|]. split; [done|]. exact fs_enough.
Qed.

Lemma writei_content_witness :
  exists s' V' i', writei (WF := 1%nat) 0 (replicate 600 9) 700 600 fs_s = Ret 600 s' /\
    written 994 (blk fs_disk) (fs_inode 2) V' i' 700 (replicate 600 9).
Proof.
  destruct fs_inode_ok as (Hsf & Ht & _ & HF & _ & _). destruct fs_write as (W1 & W2 & W3 & W4).
  destruct (writei_content (WF := 1%nat) 994 30 fs_F fs_s (blk fs_disk) 0 (replicate 600 9) 700 600
    (fs_F_tx _) fs_s_len fs_alloc_wf fs_file_wf Hsf Ht ltac:(lia) ltac:(lia) W3
    fs_may_write HF) as (_ & H & _).
  destruct (H (proj2 W1) W2 W4) as (s' & V' & i' & Hr & _ & _ & Hw).
  exists s', V', i'. split; [exact Hr|exact Hw].
Defined.

Lemma writei_readi_witness :
  exists s', (writei (WF := 1%nat) 0 (replicate 600 9) 700 600;; readi (WF := 1%nat) 0 700 600) fs_s =
    Ret (600, replicate 600 9) s'.
Proof.
  destruct fs_inode_ok as (Hsf & Ht & _ & HF & _ & _). destruct fs_write as (W1 & W2 & W3 & W4).
  destruct (writei_readi (WF := 1%nat) 994 30 fs_F fs_s (blk fs_disk) 0 (replicate 600 9) 700 600
    (fs_F_tx _) fs_s_len fs_alloc_wf fs_file_wf Hsf Ht W1 ltac:(lia) W2 W3 fs_may_write HF W4)
    as (s1 & s2 & s3 & Hr & _).
  exists s1. exact Hr.
Defined.

Lemma write_crash_atomic_witness :
  exists s' w, (writei (WF := 1%nat) 0 (replicate 600 9) 700 600;; end_op (WF := 1%nat)) fs_s = Ret tt s' /\
    disk_file (k_disk s') 2 = splice 700 (replicate 600 9) (replicate 700 7) /\
    k_disk s' = dwrites w (k_disk fs_s).
Proof.
  destruct fs_inode_ok as (Hsf & Ht & _ & HF & Hd & _). destruct fs_write as (W1 & W2 & W3 & W4).
  destruct (fs_ops (WF := 1%nat) [fs_inode 2]) as (N & O & C & _).
  destruct (write_crash_atomic (WF := 1%nat) 994 30 fs_F fs_s (blk fs_disk) 0 (replicate 600 9) 700 600
    (fs_F_tx _) fs_s_len fs_alloc_wf fs_file_wf Hsf Ht W1 ltac:(lia) W2 W3 fs_may_write HF W4 N O C Hd)
    as (_ & s' & w & Hr & E & Hn & _).
  exists s', w. split; [exact Hr|]. split; [|exact E].
  rewrite <- fs_content. exact Hn.
Defined.

(** A cache in which nothing is referenced. *)
Lemma icache_wf_unused l :
  length l = NINODE -> Forall (fun i => i_ref i = 0) l -> icache_wf l.
Proof.
  intros Hl Hr. assert (forall i, (i < NINODE)%nat -> i_ref (l !!! i) = 0) as H0.
  { intros i Hi. rewrite <- Hl in Hi. apply (Forall_lookup_total_1 _ _ i Hr Hi). }
  split; [done|intros i Hi; rewrite H0; done|].
  intros dev inum i j Hi Hj Hc. apply caches_spec in Hc as (Hc & _). rewrite H0 in Hc; [lia|done].
Qed.

Lemma fs_held l : LkIcache ∉ k_held (fs_state (WF := 1%nat) l).
Proof. destruct (fs_ops (WF := 1%nat) l) as (_ & _ & _ & L). rewrite L. apply not_elem_of_nil. Qed.

Lemma iget_unique_witness :
  let s := fs_state (WF := 1%nat) (replicate NINODE (mkinode 0 0 0 0 0 0 0 0 0 [])) in
  exists ip s', iget 1 2 s = Ret ip s' /\ caches 1 2 (k_inodes s' !!! ip) = true.
Proof.
  intros s. set (l := replicate NINODE (mkinode 0 0 0 0 0 0 0 0 0 [])) in s.
  assert (icache_wf l) as W by (apply icache_wf_unused; [reflexivity|by apply Forall_replicate]).
  destruct (iget_unique s 1 2 W (fs_held l)) as [(ip & s' & Hr & _ & _ & _ & _ & Hc & _)|(s' & _ & Hno)].
  - exists ip, s'. split; [exact Hr|exact Hc].
  - destruct (Hno 0%nat) as [_ E]; [rewrite NINODE_eq; lia|]. contradiction E. reflexivity.
Defined.

Lemma fs_ranges : inode_ranges (fs_inode 2) /\ i_type (fs_inode 2) <> 0.
Proof.
  split; [|vm_compute; discriminate].
  exact (file_ranges 994 (blk fs_disk) (fs_inode 2) fs_file_wf fs_alloc_wf eq_refl (proj1 fs_inode_ok)).
Qed.

Lemma iupdate_ilock_witness :
  exists s', (iupdate (WF := 1%nat) 0;; modify (upd_inode 0 (fun _ => mkinode 1 2 1 0 0 0 0 0 0 []));;
    ilock (WF := 1%nat) 0) fs_s = Ret tt s' /\
    dinode_of (k_inodes s' !!! 0%nat) = dinode_of (fs_inode 2).
Proof.
  destruct fs_inode_ok as (_ & _ & _ & HF & _). destruct fs_ranges as [R Ht].
  destruct (iupdate_ilock (WF := 1%nat) 994 30 fs_F fs_s (blk fs_disk) 0 (mkinode 1 2 1 0 0 0 0 0 0 [])
    (fs_F_tx _) (fs_held _) fs_s_len (fw_dev _ _ _ fs_file_wf) (proj1 (fw_inum _ _ _ fs_file_wf)) R Ht HF
    eq_refl eq_refl ltac:(simpl; lia) eq_refl) as (s' & V' & Hr & E & _).
  exists s'. split; [exact Hr|exact E].
Defined.
