(* ===== verification/DirProps.v ===== *)
(** * The properties of directories *)

From S2P Require Import Prelude Monad State Strings Sched Bio BioSpec Layout Log Crash LogSpec.
From S2P Require Import LogCrash Txn LogProps Inode FsSpec InodeSpec Console Content ReadSpec.
From S2P Require Import WriteSpec ContentSpec DirSpec Mkfs FsDemo.

(** An entry of the cache changes in fields that do not identify it. *)
Lemma icache_wf_same l ip i' :
  icache_wf l -> (ip < NINODE)%nat ->
  i_ref i' = i_ref (l !!! ip) -> i_dev i' = i_dev (l !!! ip) -> i_inum i' = i_inum (l !!! ip) ->
  icache_wf (alter (fun _ => i') ip l).
Proof.
  intros [Hl Hr Hu] Hip E1 E2 E3.
  assert (forall j, (j < NINODE)%nat -> let a := alter (fun _ => i') ip l !!! j in
    i_ref a = i_ref (l !!! j) /\ i_dev a = i_dev (l !!! j) /\ i_inum a = i_inum (l !!! j)) as Hs.
  { intros j Hj. rewrite lookup_total_alter by lia. case_decide; subst; done. }
  assert (forall j dev inum, (j < NINODE)%nat ->
    caches dev inum (alter (fun _ => i') ip l !!! j) = caches dev inum (l !!! j)) as Hc.
  { intros j dev inum Hj. destruct (Hs j Hj) as (A & B & C). unfold caches. by rewrite A, B, C. }
  split; [by rewrite length_alter|intros j Hj; destruct (Hs j Hj) as (-> & _); by apply Hr|].
  intros dev inum j j' Hj Hj'. rewrite !Hc by done. by apply Hu.
Qed.

Section DirProps.
Context {WF : WakeFuel}.
Context (start size : Z).
Implicit Types (V : Z -> list Z) (F : gset Z).

Lemma dir_length V i : dir_wf start V i -> (length (content V i) mod 16 = 0)%nat.
Proof.
  intros D. pose proof (dir_size start V i D). pose proof (fw_size _ _ _ (dw_file _ _ _ D)).
  assert (length (content V i) = Z.to_nat (i_size i)) as E by apply length_content.
  pose proof (Nat.div_mod_eq (length (content V i)) 16). lia.
Qed.

Lemma linked_dir_wf V i V' i' name inum :
  dir_wf start V i ->
  written start V i V' i' (16 * Z.of_nat (dir_slot (content V i))) (enc_dirent (new_dirent name inum)) ->
  dir_wf start V' i'.
Proof.
  intros [W Ht Hs] Hw. split; [apply Hw|rewrite (wn_inode _ _ _ _ _ _ _ Hw); done|].
  rewrite (wn_inode _ _ _ _ _ _ _ Hw). cbn [i_size set_i_size]. rewrite length_enc_dirent.
  destruct (Z.max_spec (i_size i) (16 * Z.of_nat (dir_slot (content V i)) + Z.of_nat 16)) as [[_ ->]|[_ ->]]; [|done].
  apply Z.mod_divide; [lia|]. exists (Z.of_nat (dir_slot (content V i)) + 1). lia.
Qed.

(** C9: [dirlookup] returns the first entry in use whose name agrees with the one
    asked for in the first 14 bytes: its offset, and an entry of the inode cache
    that holds its inode; without such an entry it returns null.  It changes
    neither the directory nor the disk, and panics only when it has to cache an
    inode and every entry of the cache is referenced. *)
Theorem dirlookup_finds s V dp name :
  txn_inv start size s V ∅ -> let i := k_inodes s !!! dp in dir_wf start V i ->
  icache_wf (k_inodes s) -> (LkIcache ∉ k_held s) ->
  match dir_find name (content V i) with
  | None => exists s', dirlookup dp name s = Ret None s' /\ txn_inv start size s' V ∅ /\
      k_disk s' = k_disk s /\ k_inodes s' = k_inodes s
  | Some (k, de) =>
      (exists s' ip, dirlookup dp name s = Ret (Some (ip, 16 * Z.of_nat k)) s' /\
         txn_inv start size s' V ∅ /\ k_disk s' = k_disk s /\
         k_inodes s' = alter (gotten 1 (de_inum de)) ip (k_inodes s) /\ icache_wf (k_inodes s') /\
         caches 1 (de_inum de) (k_inodes s' !!! ip) = true) \/
      (exists s', dirlookup dp name s = Panic "iget: no inodes" s' /\
         forall j, (j < NINODE)%nat -> i_ref (k_inodes s !!! j) <> 0)
  end.
Proof.
  intros T i D IW Hl.
  pose proof (wpp_dirlookup start size s V dp name T D IW Hl) as H. fold i in H.
  destruct H as [(r & s' & Hr & s1 & F1 & T1 & E1 & HQ)|(e & s' & Hr & -> & [x Hx] & Hno)].
  2: { rewrite Hx. destruct x as [k de]. right. by exists s'. }
  pose proof (bio_frame_inodes _ _ F1) as Ek. rewrite Hr.
  destruct (dir_find name (content V i)) as [[k de]|].
  - left. destruct HQ as (ip & -> & Hip & -> & Hc).
    exists (upd_inode ip (gotten 1 (de_inum de)) s1), ip. split; [done|].
    split; [by apply txn_inv_inodes|]. split; [done|]. cbn [upd_inode k_inodes set_k_inodes]. rewrite Ek.
    split; [done|]. split; [apply icache_wf_get; [done|done|]; destruct Hc as [|[_ ?]]; auto|].
    rewrite alter_self_eq by (rewrite (ic_len _ IW); done). apply caches_gotten_self.
    apply (ic_ref _ IW ip Hip).
  - destruct HQ as [-> ->]. by exists s1.
Qed.

(** C8: What [dirlink] adds, [dirlookup] finds: linking an absent name puts the
    new entry into the first free slot, every other name resolves as before,
    and looking the name up returns the new inode.  A name that is there already
    is refused with -1, without a change on disk. *)
Theorem dirlink_dirlookup F s V dp name inum :
  tx start size F s V ∅ -> (dp < NINODE)%nat -> let i := k_inodes s !!! dp in
  let c := content V i in let off := 16 * Z.of_nat (dir_slot c) in
  dir_wf start V i -> alloc_wf start V -> short_fields i ->
  icache_wf (k_inodes s) -> (LkIcache ∉ k_held s) ->
  (exists j, (j < NINODE)%nat /\ i_ref (k_inodes s !!! j) = 0) ->
  may_write F V i off 16 -> IBLOCK (i_inum i) ∈ F -> off + 16 <= MAXFILE * BSIZE ->
  u16 inum <> 0 -> (1 + cind i <= length (free_blocks V))%nat ->
  match dir_find name c with
  | Some _ => exists s', dirlink dp name inum s = Ret (-1) s' /\ tx start size F s' V ∅
  | None => exists s' V' i', dirlink dp name inum s = Ret 0 s' /\ tx start size F s' V' ∅ /\
      k_inodes s' = alter (fun _ => i') dp (k_inodes s) /\ dir_wf start V' i' /\
      dir_find name (content V' i') = Some (dir_slot c, new_dirent name inum) /\
      (forall name2, ~ same_name name2 name ->
         dir_find name2 (content V' i') = dir_find name2 c) /\
      exists s2 ip, dirlookup dp name s' = Ret (Some (ip, off)) s2 /\
        caches 1 (u16 inum) (k_inodes s2 !!! ip) = true
  end.
Proof.
  intros T Hdp i c off D Ha Hsf IW Hl [j0 [Hj0 Hfree0]] MW HFi Hmax Hnew Hfree.
  pose proof (wpp_dirlink start size F s V dp name inum T) as H. cbv zeta in H. fold i c off in H.
  specialize (H ltac:(rewrite (ic_len _ IW); done) D Ha Hsf IW Hl MW HFi Hmax).
  destruct H as [(r & s' & Hr & HQ)|(e & s' & _ & [(_ & _ & Hno)|[_ ?]])]; [|by destruct (Hno j0)|lia].
  destruct (dir_find name c) as [[k de]|] eqn:Ef.
  { destruct HQ as (-> & T' & _). by exists s'. }
  destruct HQ as (-> & V' & i' & Hw & Fr & T'). exists s', V', i'. split; [done|]. split; [done|].
  pose proof (tframe_inodes _ _ Fr) as Ek. split; [done|].
  pose proof (linked_dir_wf V i V' i' name inum D Hw) as D'. split; [done|].
  pose proof (dir_size start V i D) as Hs. fold c in Hs.
  assert (length c mod 16 = 0)%nat as Hlen by (apply (dir_length V i D)).
  assert (content V' i' = splice (16 * dir_slot c) (enc_dirent (new_dirent name inum)) c) as Ec.
  { rewrite (wn_content _ _ _ _ _ _ _ Hw). f_equal. unfold off. lia. }
  assert (dir_find name (content V' i') = Some (dir_slot c, new_dirent name inum)) as Ef'.
  { rewrite Ec. by apply dir_find_new. }
  split; [done|]. split; [intros name2 Hne; rewrite Ec; by apply dir_find_other|].
  assert (k_inodes s' !!! dp = i') as Ei'.
  { rewrite Ek. apply (alter_self_eq dp (fun _ => i')). by rewrite (ic_len _ IW). }
  assert (icache_wf (k_inodes s')) as IW'.
  { rewrite Ek. apply icache_wf_same; [done|done|..]; by rewrite (wn_inode _ _ _ _ _ _ _ Hw). }
  pose proof (wpp_dirlookup start size s' V' dp name (tx_inv _ _ _ _ _ _ T')) as H.
  cbv zeta in H. rewrite Ei', Ef' in H. specialize (H D' IW').
  destruct H as [(r & s2 & Hr2 & s1 & F1 & _ & _ & ip & -> & Hip & -> & _)|(e & s2 & _ & _ & _ & Hno)].
  - by rewrite (tframe_held _ _ Fr).
  - exists (upd_inode ip (gotten 1 (u16 inum)) s1), ip. split; [done|]. simpl.
    rewrite (bio_frame_inodes _ _ F1). rewrite alter_self_eq by (rewrite (ic_len _ IW'); done).
    apply caches_gotten_self, (ic_ref _ IW' ip Hip).
  - destruct (Hno j0 Hj0). rewrite Ek. simpl. rewrite lookup_total_alter by (rewrite (ic_len _ IW); done).
    case_decide; [|done]. subst. by rewrite (wn_inode _ _ _ _ _ _ _ Hw).
Qed.

End DirProps.

(** ** The root directory of the image of [mkfs] *)

Definition free_inode : inode := mkinode 0 0 0 0 0 0 0 0 0 [].
Definition root_cache : list inode := fs_inode 1 :: replicate 49 free_inode.
#[local, warnings="-notation-for-abbreviation"]
Notation root_state := (fs_state (WF := 1%nat) root_cache).

Lemma root_wf : dir_wf 994 (blk fs_disk) (fs_inode 1).
Proof.
  split; [apply file_ok_wf; vm_compute; reflexivity|vm_compute; reflexivity|vm_compute; reflexivity].
Qed.

Lemma root_find name :
  dir_find name (content (blk fs_disk) (fs_inode 1)) =
  dir_find name (mk_dirent 1 [46] ++ mk_dirent 1 [46; 46] ++ mk_dirent 2 [97] ++ replicate 464 0).
Proof.
  assert (content (blk fs_disk) (fs_inode 1) =
    mk_dirent 1 [46] ++ mk_dirent 1 [46; 46] ++ mk_dirent 2 [97] ++ replicate 464 0) as ->; [|done].
  vm_compute. reflexivity.
Qed.

Lemma root_lookup i : (i < NINODE)%nat ->
  root_cache !!! i = if decide (i = 0%nat) then fs_inode 1 else free_inode.
Proof.
  intros Hi. rewrite NINODE_eq in Hi. unfold root_cache. destruct i as [|i]; [done|].
  rewrite decide_False by done. change ((replicate 49 free_inode : list inode) !!! i = free_inode).
  apply lookup_total_replicate_2. lia.
Qed.

Lemma root_cache_wf : icache_wf root_cache.
Proof.
  assert (0 <= i_ref (fs_inode 1)) as H1 by (simpl; lia).
  split; [by rewrite NINODE_eq|..].
  - intros i Hi. rewrite root_lookup by done. by case_decide.
  - intros dev inum i j Hi Hj. rewrite !root_lookup by done. by repeat case_decide; subst.
Qed.

Lemma root_held : LkIcache ∉ k_held root_state.
Proof. destruct (fs_ops (WF := 1%nat) root_cache) as (_ & _ & _ & L). rewrite L. apply not_elem_of_nil. Qed.

Lemma dirlookup_finds_witness :
  exists s' ip, dirlookup (WF := 1%nat) 0 [97] root_state = Ret (Some (ip, 32)) s' /\
    caches 1 2 (k_inodes s' !!! ip) = true.
Proof.
  pose proof (dirlookup_finds (WF := 1%nat) 994 30 root_state (blk fs_disk) 0 [97]
    (fs_txn (WF := 1%nat) _) root_wf root_cache_wf root_held) as H.
  change (k_inodes root_state !!! 0%nat) with (fs_inode 1) in H. rewrite root_find in H.
  destruct H as [(s' & ip & Hr & _ & _ & _ & _ & Hc)|(s' & _ & Hno)].
  - exists s', ip. split; [exact Hr|exact Hc].
  - destruct (Hno 1%nat); [rewrite NINODE_eq; lia|]. reflexivity.
Defined.

Definition root_F : gset Z := {[2; 28; 29; 32; 33; 34]}.

Lemma root_tx : tx 994 30 root_F root_state (blk fs_disk) ∅.
Proof.
  apply (fs_tx (WF := 1%nat)); [|vm_compute; discriminate].
  intros n. unfold root_F. set_unfold. lia.
Qed.

Lemma root_slot : dir_slot (content (blk fs_disk) (fs_inode 1)) = 3%nat.
Proof. vm_compute. reflexivity. Qed.

Lemma root_may_write : may_write root_F (blk fs_disk) (fs_inode 1) 48 16.
Proof.
  assert (cind (fs_inode 1) = 1%nat) as E by (vm_compute; reflexivity).
  split.
  - rewrite E. apply may_alloc_le with 3%nat; [vm_compute; lia|].
    apply fs_may_alloc; clear; unfold root_F; set_unfold; lia.
  - intros bn H1 H2 Hne. change (48 / BSIZE) with 0 in H1. change BSIZE with 512 in H2.
    assert (bn = 0) as -> by lia. assert (baddr (blk fs_disk) (fs_inode 1) 0 = 29) as -> by (vm_compute; reflexivity).
    clear. unfold root_F. set_unfold. lia.
  - intros H1. vm_compute in H1. discriminate H1.
Qed.

Lemma root_ok : short_fields (fs_inode 1) /\ IBLOCK (i_inum (fs_inode 1)) ∈ root_F /\
  (1 + cind (fs_inode 1) <= length (free_blocks (blk fs_disk)))%nat.
Proof.
  split; [unfold short_fields; repeat split; vm_compute; (discriminate || reflexivity)|].
  split; [vm_compute; reflexivity|]. pose proof fs_enough.
  assert (cind (fs_inode 1) = 1%nat) as -> by (vm_compute; reflexivity). lia.
Qed.

Lemma dirlink_dirlookup_witness :
  exists s' s2 ip, dirlink (WF := 1%nat) 0 [98; 99] 3 root_state = Ret 0 s' /\
    dirlookup (WF := 1%nat) 0 [98; 99] s' = Ret (Some (ip, 48)) s2 /\
    caches 1 3 (k_inodes s2 !!! ip) = true.
Proof.
  destruct root_ok as (R1 & R2 & R3).
  pose proof (dirlink_dirlookup (WF := 1%nat) 994 30 root_F root_state (blk fs_disk) 0 [98; 99] 3 root_tx) as H.
  cbv zeta in H. change (k_inodes root_state !!! 0%nat) with (fs_inode 1) in H.
  rewrite root_slot, root_find in H.
  destruct (H ltac:(rewrite NINODE_eq; lia) root_wf fs_alloc_wf R1 root_cache_wf root_held)
    as (s' & V' & i' & Hr & _ & _ & _ & _ & _ & s2 & ip & Hl & Hc).
  - exists 1%nat. split; [rewrite NINODE_eq; lia|]. reflexivity.
  - exact root_may_write.
  - exact R2.
  - discriminate.
  - discriminate.
  - exact R3.
  - exists s', s2, ip. split; [exact Hr|]. split; [exact Hl|exact Hc].
Defined.
