(* ===== verification/MkfsProps.v ===== *)
(** * Images built by [mkfs]: the bitmap, and where builder and kernel disagree *)

From S2P Require Import Prelude Monad State Strings Sched Bio BioSpec Layout Log Crash LogSpec.
From S2P Require Import LogCrash Txn LogProps Inode FsSpec InodeSpec Console Content ReadSpec.
From S2P Require Import WriteSpec ContentSpec Mkfs FsDemo.

#[local] Instance one_wakeup : WakeFuel := 1%nat.

(** ** The bitmap of an image *)




























(** Six files of the maximal size and one of 117 blocks: every block below the
    log is in use. *)
Definition full_files : list (list Z * list Z) :=
  replicate 6 ([97], replicate (Z.to_nat (MAXFILE * BSIZE)) 1) ++ [([98], replicate (117 * 512) 1)].

(** On the image of these files [balloc] hands out sector 994, the header of
    the log. *)
Example balloc_hands_out_log :
  match (sb ← readsb 1; b ← balloc 1; mret (sb, b)) (boot_state (mkfs_disk full_files)) with
  | Ret (sb, b) _ => b = 994 /\ b = sb_size sb - sb_nlog sb
  | _ => False
  end.
Proof. vm_compute. split; reflexivity. Qed.

(** The root directory of an image may have a hole: [mkfs] rounds its size up
    to the next block even when it is a multiple of the block size already.
    With 30 files, 32 entries fill one block exactly; the size becomes 1024
    and the second block is missing, so that a [readi] there, outside of a
    transaction as in [fileread], makes the kernel panic. *)
Theorem mkfs_root_hole :
  let d := mkfs_disk (replicate 30 ([97], [])) in
  d_size (dino (blk d) ROOTINO) = 1024 /\ d_addrs (dino (blk d) ROOTINO) !!! 1%nat = 0 /\
  match (reboot;; ip ← iget 1 ROOTINO; ilock ip;; readi ip 512 16) (reset_state d) with
  | Panic e _ => e = "log_write outside of trans"%string
  | _ => False
  end.
Proof. vm_compute. repeat split; reflexivity. Qed.
