(* ===== verification/Kalloc.v ===== *)
(** * The physical page allocator ([kalloc.c])

    Free pages are linked through their first word; the list lives in
    [k_mem].  The linker's symbols [end] and [data] are parameters. *)

From S2P Require Import Prelude Monad State Strings.

Definition PGSIZE : Z := 4096.
Definition KERNBASE : Z := 2147483648.
Definition EXTMEM : Z := 1048576.
Definition PHYSTOP : Z := 234881024.
Definition KERNLINK : Z := KERNBASE + EXTMEM.
Definition DEVSPACE : Z := 4261412864.

Definition PGROUNDUP (sz : Z) : Z := Z.land (u32 (sz + PGSIZE - 1)) (Z.lnot (PGSIZE - 1)).
Definition PGROUNDDOWN (a : Z) : Z := Z.land a (Z.lnot (PGSIZE - 1)).

Definition v2p (a : Z) : Z := u32 (a - KERNBASE).
Definition p2v (a : Z) : Z := u32 (a + KERNBASE).

(** What the linker and the assembly files contribute: the addresses [end]
    and [data] that [kernel.ld] defines, the entry points [forkret] and
    [trapret] start from, the bytes of [initcode] and of the code at
    [EXIT_BEGIN]. *)
Class KernelImage := {
  img_end : Z;
  img_data : Z;
  img_forkret : Z;
  img_trapret : Z;
  img_initcode : list Z;
  img_exit_begin : list Z;
}.

(** 32-bit words of memory. *)
Definition ldw (m : mem) (a : Z) : Z := le_dec (load a 4 m).
Definition stw (a x : Z) (m : mem) : mem := store a (le_enc 4 x) m.

Section Kalloc.
Context {KI : KernelImage}.

Definition kfree (v : Z) : K unit :=
  if negb (v mod PGSIZE =? 0) || (v <? img_end) || (PHYSTOP <=? v2p v) then panic "kfree"
  else
    modify (fun s => set_k_mem (memset v 1 PGSIZE (k_mem s)) s);;
    use_lock ← gets k_uselock;
    when use_lock (acquire LkKmem);;
    modify (fun s => set_k_mem (stw v (k_freelist s) (k_mem s)) s);;
    modify (set_k_freelist v);;
    when use_lock (release LkKmem).

Definition kalloc : K Z :=
  use_lock ← gets k_uselock;
  when use_lock (acquire LkKmem);;
  r ← gets k_freelist;
  when (negb (r =? 0)) (modify (fun s => set_k_freelist (ldw (k_mem s) r) s));;
  when use_lock (release LkKmem);;
  mret r.

(** [freerange]: one round per page between the two addresses. *)
Definition freerange (vstart vend : Z) : K unit :=
  loop (Z.to_nat ((vend - vstart) / PGSIZE) + 2) (fun p =>
    if p + PGSIZE <=? vend then kfree p;; mret (inl (p + PGSIZE))
    else mret (inr tt)) (PGROUNDUP vstart).

Definition kinit1 (vstart vend : Z) : K unit :=
  modify (set_k_uselock false);;
  freerange vstart vend.

Definition kinit2 (vstart vend : Z) : K unit :=
  freerange vstart vend;;
  modify (set_k_uselock true).

(** ** The free list *)

(** A page [kfree] accepts. *)
Definition page (v : Z) : Prop :=
  v mod PGSIZE = 0 /\ img_end <= v /\ v2p v < PHYSTOP /\ 0 < v < 4294967296.

(** The pages reachable from [r] through [next], in order. *)
Fixpoint flist (m : mem) (r : Z) (l : list Z) : Prop :=
  match l with
  | [] => r = 0
  | v :: l' => r = v /\ page v /\ flist m (ldw m v) l'
  end.

Definition kmem_inv (s : kstate) (l : list Z) : Prop :=
  flist (k_mem s) (k_freelist s) l /\ NoDup l.

(** Memory that agrees outside one page. *)
Definition same_outside (v : Z) (m m' : mem) : Prop :=
  forall a, ~ (v <= a < v + PGSIZE) -> m' !! a = m !! a.

#[export] Instance same_outside_trans v : Transitive (same_outside v).
Proof. intros m1 m2 m3 H1 H2 a Ha. by rewrite H2, H1. Qed.

Lemma store_outside v a l m :
  v <= a -> a + Z.of_nat (length l) <= v + PGSIZE -> same_outside v m (store a l m).
Proof. intros H1 H2 x Hx. rewrite lookup_store, decide_False; [done|lia]. Qed.

Lemma load_outside v m m' a n :
  same_outside v m m' -> a + Z.of_nat n <= v \/ v + PGSIZE <= a -> load a n m' = load a n m.
Proof.
  intros Hs Ha. unfold load. apply map_ext_in. intros i Hi%in_seq. unfold ldb.
  rewrite Hs; [done|lia].
Qed.

(** Two pages are equal or disjoint. *)
Lemma page_disjoint v w : page v -> page w -> v <> w -> w + PGSIZE <= v \/ v + PGSIZE <= w.
Proof.
  intros (Hv & _) (Hw & _) Hne. unfold PGSIZE in *.
  pose proof (Z.div_mod v 4096). pose proof (Z.div_mod w 4096). lia.
Qed.

Lemma flist_outside v m m' r l :
  same_outside v m m' -> page v -> v ∉ l -> flist m r l -> flist m' r l.
Proof.
  intros Hs Hv. revert r. induction l as [|w l IH]; intros r Hn; [done|].
  intros (-> & Hw & Hl). simpl. split; [done|]. split; [done|].
  replace (ldw m' w) with (ldw m w); [apply IH; [set_solver|done]|].
  unfold ldw. f_equal. symmetry. apply (load_outside v); [done|].
  destruct (page_disjoint v w); [done|done|set_solver|..]; unfold PGSIZE in *; lia.
Qed.

Lemma ldw_stw a x m : ldw (stw a x m) a = u32 x.
Proof.
  unfold ldw, stw. rewrite <- (length_le_enc 4 x) at 1. rewrite load_store.
  apply le_dec_enc.
Qed.

Lemma flist_head m r l : flist m r l -> r = match l with [] => 0 | v :: _ => v end.
Proof. by destruct l; [|intros [-> _]]. Qed.

Lemma kfree_run v s :
  page v -> LkKmem ∉ k_held s ->
  kfree v s = Ret tt (set_k_freelist v
    (set_k_mem (stw v (k_freelist s) (store v (replicate (Z.to_nat PGSIZE) 1) (k_mem s))) s)).
Proof.
  intros (Hm & He & Hp & Hr) Hl. unfold kfree.
  rewrite (proj2 (Z.eqb_eq _ 0) Hm), (proj2 (Z.ltb_ge _ _) He), (proj2 (Z.leb_gt _ _) Hp).
  cbn [negb orb]. kstep. rewrite memset_ok by (unfold PGSIZE; lia). change (u8 1) with 1. kstep.
  cbn [k_uselock set_k_mem]. destruct (k_uselock s); cbn [when].
  - kstep_by ltac:(by apply acquire_ok). do 2 kstep. rewrite (release_ok LkKmem (k_held s)) by done.
    apply (f_equal (Ret tt)). kst_eq.
  - do 3 kstep. apply (f_equal (Ret tt)). kst_eq.
Qed.

(** [kfree] puts the page at the front of the free list and touches no other
    page. *)
Lemma wp_kfree v l s :
  page v -> LkKmem ∉ k_held s -> kmem_inv s l -> v ∉ l ->
  wp (kfree v) (fun _ s' => kmem_inv s' (v :: l) /\
    s' = set_k_freelist v (set_k_mem (k_mem s') s) /\
    same_outside v (k_mem s) (k_mem s')) s.
Proof.
  intros Hv Hl [Hf Hnd] Hn. eexists tt, _. split; [by apply kfree_run|].
  assert (same_outside v (k_mem s)
    (stw v (k_freelist s) (store v (replicate (Z.to_nat PGSIZE) 1) (k_mem s)))) as Hs.
  { etrans; apply store_outside; rewrite ?length_replicate, ?length_le_enc; unfold PGSIZE; lia. }
  split; [split|split; [kst_eq|exact Hs]]; [|by apply NoDup_cons].
  cbn [flist k_mem k_freelist set_k_mem set_k_freelist].
  split; [reflexivity|]. split; [exact Hv|]. rewrite ldw_stw.
  replace (u32 (k_freelist s)) with (k_freelist s).
  - eapply flist_outside; [exact Hs|exact Hv|exact Hn|exact Hf].
  - rewrite (flist_head _ _ _ Hf). destruct l as [|w l]; [reflexivity|].
    destruct Hf as (_ & (_ & _ & _ & Hw) & _). symmetry. apply u32_id. lia.
Qed.

Lemma kalloc_run s :
  LkKmem ∉ k_held s ->
  kalloc s = Ret (k_freelist s) (if k_freelist s =? 0 then s
    else set_k_freelist (ldw (k_mem s) (k_freelist s)) s).
Proof.
  intros Hl. unfold kalloc. kstep. destruct (k_uselock s); cbn [when].
  - kstep_by ltac:(by apply acquire_ok). kstep. cbn [k_freelist set_k_held].
    destruct (k_freelist s =? 0); cbn [negb when]; kstep;
      (kstep_by ltac:(by apply release_ok)); by destruct s.
  - do 2 kstep. destruct (k_freelist s =? 0); cbn [negb when]; do 2 kstep; by destruct s.
Qed.

(** [kalloc] takes the first page of the free list, or returns 0. *)
Lemma wp_kalloc l s :
  LkKmem ∉ k_held s -> kmem_inv s l ->
  wp kalloc (fun r s' =>
    match l with
    | [] => r = 0 /\ s' = s
    | v :: l' => r = v /\ page v /\ (v ∉ l') /\ kmem_inv s' l' /\
        s' = set_k_freelist (k_freelist s') s
    end) s.
Proof.
  intros Hl [Hf Hnd]. eexists _, _. split; [by apply kalloc_run|].
  destruct l as [|v l]; simpl in Hf.
  - by rewrite Hf.
  - destruct Hf as (-> & Hv & Hf). apply NoDup_cons in Hnd as [Hn Hnd].
    destruct Hv as (Hm & He & Hp & Hr). rewrite (proj2 (Z.eqb_neq _ 0)) by lia.
    split; [done|]. split; [done|]. split; [done|]. split; [by split|]. by destruct s.
Qed.

(** ** Filling the free list *)

Lemma PGROUNDDOWN_eq a : PGROUNDDOWN a = a / PGSIZE * PGSIZE.
Proof.
  unfold PGROUNDDOWN, PGSIZE. change (4096 - 1) with (Z.ones 12).
  rewrite <- Z.ldiff_land, Z.ldiff_ones_r by lia.
  rewrite Z.shiftl_mul_pow2, Z.shiftr_div_pow2 by lia. done.
Qed.

Lemma PGROUNDUP_eq a :
  0 <= a -> a + PGSIZE <= 4294967296 -> PGROUNDUP a = (a + PGSIZE - 1) / PGSIZE * PGSIZE.
Proof.
  intros. unfold PGROUNDUP. rewrite u32_id by (unfold PGSIZE in *; lia). apply PGROUNDDOWN_eq.
Qed.

(** The whole pages between two addresses, lowest first. *)
Definition pages_from (a : Z) (n : nat) : list Z :=
  map (fun i : nat => a + Z.of_nat i * PGSIZE) (seq 0 n).

Lemma pages_from_S a n : pages_from a (S n) = a :: pages_from (a + PGSIZE) n.
Proof.
  unfold pages_from. cbn [seq map]. f_equal; [lia|].
  rewrite <- seq_shift, map_map. apply map_ext. intros i. lia.
Qed.

Lemma wp_freerange_loop fuel p vend n l s :
  (n < fuel)%nat -> vend - PGSIZE < p + Z.of_nat n * PGSIZE <= vend ->
  Forall page (pages_from p n) -> (forall v, v ∈ pages_from p n -> v ∉ l) ->
  LkKmem ∉ k_held s -> kmem_inv s l ->
  wp (loop fuel (fun p =>
        if p + PGSIZE <=? vend then kfree p;; mret (inl (p + PGSIZE))
        else mret (inr tt)) p)
    (fun _ s' => kmem_inv s' (reverse (pages_from p n) ++ l) /\
       s' = set_k_freelist (k_freelist s') (set_k_mem (k_mem s') s)) s.
Proof.
  revert p n l s. induction fuel as [|fuel IH]; intros p n l s Hf Hr Hp Hn Hl HI; [lia|].
  cbn [loop]. apply wp_bind. destruct n as [|n].
  - rewrite (proj2 (Z.leb_gt _ _)) by lia. do 2 apply wp_ret. split; [done|]. by destruct s.
  - rewrite (proj2 (Z.leb_le _ _)) by (unfold PGSIZE in *; lia).
    rewrite pages_from_S in *. apply Forall_cons in Hp as [Hp0 Hp].
    assert (NoDup (p :: pages_from (p + PGSIZE) n)) as Hnd.
    { rewrite <- pages_from_S. unfold pages_from. change (@map nat Z) with (@fmap list _ nat Z).
      apply NoDup_fmap; [|apply NoDup_seq]. intros i j. unfold PGSIZE. lia. }
    apply NoDup_cons in Hnd as [Hnp _].
    wapply (wp_kfree p l s); [done|done|done|apply Hn; set_solver|].
    intros [] s1 (HI1 & E1 & _). apply wp_ret.
    eapply wp_mono; [apply (IH (p + PGSIZE) n (p :: l)); auto|].
    + lia.
    + lia.
    + intros v Hv [->|Hv']%elem_of_cons; [done|]. apply (Hn v); set_solver.
    + rewrite E1. done.
    + intros [] s2 (HI2 & E2). split.
      * rewrite reverse_cons, <- app_assoc. done.
      * rewrite E2 at 1. rewrite E1 at 1. by destruct s.
Qed.

(** Number of whole pages in a range. *)
Definition npages (vstart vend : Z) : nat := Z.to_nat ((vend - PGROUNDUP vstart) / PGSIZE).

Lemma wp_freerange vstart vend l s :
  0 <= vstart -> vstart + PGSIZE <= vend -> vend < 4294967296 ->
  let ps := pages_from (PGROUNDUP vstart) (npages vstart vend) in
  Forall page ps -> (forall v, v ∈ ps -> v ∉ l) -> LkKmem ∉ k_held s -> kmem_inv s l ->
  wp (freerange vstart vend)
    (fun _ s' => kmem_inv s' (reverse ps ++ l) /\
       s' = set_k_freelist (k_freelist s') (set_k_mem (k_mem s') s)) s.
Proof.
  intros H0 H1 H2 ps Hp Hn Hl HI. unfold freerange.
  assert (vstart <= PGROUNDUP vstart < vstart + PGSIZE) as Hup.
  { rewrite PGROUNDUP_eq by lia. pose proof (Z.div_mod (vstart + PGSIZE - 1) PGSIZE).
    pose proof (Z.mod_pos_bound (vstart + PGSIZE - 1) PGSIZE). unfold PGSIZE in *. lia. }
  apply wp_freerange_loop; auto; unfold npages.
  - pose proof (Z.div_le_mono (vend - PGROUNDUP vstart) (vend - vstart) PGSIZE).
    pose proof (Z.div_pos (vend - PGROUNDUP vstart) PGSIZE). unfold PGSIZE in *. lia.
  - pose proof (Z.div_mod (vend - PGROUNDUP vstart) PGSIZE).
    pose proof (Z.mod_pos_bound (vend - PGROUNDUP vstart) PGSIZE).
    pose proof (Z.div_pos (vend - PGROUNDUP vstart) PGSIZE). unfold PGSIZE in *. lia.
Qed.

(** ** Pages are handed out exclusively

    The kernel's clients call [kalloc] and [kfree] in any order and write to
    the pages they hold, [us], and to memory no page of the allocator lies in;
    [kfree] gets pages the caller holds. *)

Inductive kmem_step : kstate * list Z -> kstate * list Z -> Prop :=
| ks_alloc s us v s' : kalloc s = Ret v s' -> v <> 0 -> kmem_step (s, us) (s', v :: us)
| ks_empty s us s' : kalloc s = Ret 0 s' -> kmem_step (s, us) (s', us)
| ks_free s us1 v us2 s' : kfree v s = Ret tt s' -> kmem_step (s, us1 ++ v :: us2) (s', us1 ++ us2)
| ks_write s us m : (forall a, m !! a <> k_mem s !! a ->
      exists v, v ∈ us /\ v <= a < v + PGSIZE) -> kmem_step (s, us) (set_k_mem m s, us).

Definition kmem_ok (all : list Z) (c : kstate * list Z) : Prop :=
  exists l, kmem_inv c.1 l /\ l ++ c.2 ≡ₚ all /\ (LkKmem ∉ k_held c.1).

Lemma flist_write us m m' r l :
  (forall a, m' !! a <> m !! a -> exists v, v ∈ us /\ v <= a < v + PGSIZE) ->
  Forall page us -> NoDup (l ++ us) -> flist m r l -> flist m' r l.
Proof.
  intros Hw Hus. revert r. induction l as [|v l IH]; intros r Hnd; [done|].
  intros (-> & Hv & Hf). simpl. split; [done|]. split; [done|].
  simpl in Hnd. apply NoDup_cons in Hnd as [Hn Hnd].
  replace (ldw m' v) with (ldw m v); [by apply IH|]. unfold ldw. f_equal.
  unfold load. apply map_ext_in. intros i Hi%in_seq. unfold ldb. f_equal.
  destruct (decide (m' !! (v + Z.of_nat i) = m !! (v + Z.of_nat i))) as [|Hne]; [done|].
  apply Hw in Hne as (w & Hin & Ha). pose proof (proj1 (Forall_forall _ _) Hus w Hin) as Hpw.
  destruct (page_disjoint v w Hv Hpw) as [|]; [intros ->; apply Hn, elem_of_app; by right|..];
    unfold PGSIZE in *; lia.
Qed.

Lemma kmem_step_ok all c c' :
  NoDup all -> Forall page all -> kmem_ok all c -> kmem_step c c' -> kmem_ok all c'.
Proof.
  intros Hnd Hpg (l & HI & HP & Hl) Hs. assert (NoDup (l ++ c.2)) as Hd by (by rewrite HP).
  assert (Forall page (l ++ c.2)) as Hp by (by rewrite HP).
  destruct Hs as [s us v s' Hr Hv|s us s' Hr|s us1 v us2 s' Hr|s us m Hw]; simpl in *.
  - destruct (wp_kalloc l s Hl HI) as (r & s1 & Hr1 & HQ). rewrite Hr in Hr1. simplify_eq.
    destruct l as [|w l]; [by destruct HQ|]. destruct HQ as (-> & _ & _ & HI' & E).
    exists l. split; [done|]. simpl. split; [|by rewrite E]. rewrite <- HP. simpl. by rewrite Permutation_middle.
  - destruct (wp_kalloc l s Hl HI) as (r & s1 & Hr1 & HQ). rewrite Hr in Hr1. simplify_eq.
    destruct l as [|w l]; [destruct HQ as [_ ->]; by exists []|].
    destruct HQ as (<- & (_ & _ & _ & ?) & _). lia.
  - assert (page v /\ v ∉ l) as [Hv Hn].
    { apply Forall_app in Hp as [_ [_ Hp]%Forall_app]. apply Forall_cons in Hp as [? _]. split; [done|].
      apply NoDup_app in Hd as (_ & Hd & _). intros Hin. apply (Hd v Hin), elem_of_app. right. by left. }
    destruct (wp_kfree v l s Hv Hl HI Hn) as ([] & s1 & Hr1 & HI' & E & _). rewrite Hr in Hr1. simplify_eq.
    exists (v :: l). split; [done|]. split; [|by rewrite E]. rewrite <- HP. simpl.
    by rewrite app_assoc, (Permutation_middle (l ++ us1)), <- app_assoc.
  - exists l. split; [|done]. destruct HI as [Hf Hn]. split; [|done].
    apply Forall_app in Hp as [_ Hp]. by apply (flist_write us (k_mem s)).
Qed.

(** C28: The page allocator keeps every page exactly once, on the free list or with
    one client, through any sequence of [kalloc], [kfree] and writes of the
    clients to their pages; and [kalloc] fails only when the free list is
    empty. *)
Theorem kalloc_exclusive s0 all s us :
  kmem_inv s0 all -> (LkKmem ∉ k_held s0) -> rtc kmem_step (s0, []) (s, us) ->
  exists l, kmem_inv s l /\ l ++ us ≡ₚ all /\ NoDup (l ++ us) /\ Forall page (l ++ us) /\
    exists s', kalloc s = Ret (match l with [] => 0 | v :: _ => v end) s'.
Proof.
  intros HI Hl Hr. assert (Forall page all) as Hp.
  { destruct HI as [Hf _]. revert Hf. generalize (k_freelist s0). induction all as [|v l' IH]; intros r; [done|].
    intros (_ & ? & ?). constructor; eauto. }
  assert (NoDup all) as Hnd by apply HI.
  assert (kmem_ok all (s, us)) as (l & HI' & HP & Hl').
  { eapply (rtc_inv _ (kmem_ok all)); [intros; by eapply kmem_step_ok| |exact Hr].
    exists all. simpl. by rewrite app_nil_r. }
  simpl in *. exists l. split; [done|]. split; [done|]. rewrite HP. split; [done|]. split; [done|].
  destruct (wp_kalloc l s Hl' HI') as (r & s' & Hr' & HQ). exists s'. rewrite Hr'.
  destruct l; [by destruct HQ as [-> _]|by destruct HQ as [-> _]].
Qed.

End Kalloc.

(** A machine with one free page. *)
#[local] Instance demo_image : KernelImage := Build_KernelImage (KERNLINK + 4096) KERNLINK 0 0 [] [].

Lemma kalloc_exclusive_witness :
  let s := set_k_freelist (KERNLINK + 8192) (reset_state (mkdisk ∅ 0 [])) in
  exists l s', l ++ [KERNLINK + 8192] ≡ₚ [KERNLINK + 8192] /\ kalloc (set_k_freelist 0 s) = Ret 0 s'.
Proof.
  intros s. assert (page (KERNLINK + 8192)) as Hp by (split; [done|]; repeat split; discriminate || reflexivity).
  destruct (kalloc_exclusive s [KERNLINK + 8192] (set_k_freelist 0 s) [KERNLINK + 8192])
    as (l & HI & HP & _ & _ & s' & Hr).
  - split; [|apply NoDup_singleton]. split; [reflexivity|]. split; [exact Hp|reflexivity].
  - apply not_elem_of_nil.
  - eapply rtc_l; [|apply rtc_refl]. apply ks_alloc; [reflexivity|discriminate].
  - exists l, s'. split; [exact HP|]. rewrite Hr. apply Permutation_length in HP.
    rewrite length_app in HP. simpl in HP. destruct l; [reflexivity|simpl in HP; lia].
Defined.
