(* ===== verification/Pipe.v ===== *)
(** * Pipes ([pipe.c])

    A pipe is named by the address of its page.  [pipewrite] takes the bytes
    at [addr], [piperead] returns the bytes it stores there.  [pipealloc] is
    in file [File], with the file table it needs. *)

From S2P Require Import Prelude Monad State Strings Sched Kalloc.

Definition PIPESIZE : Z := 512.

Definition getpipe (p : Z) : K pipe :=
  ps ← gets k_pipes;
  match ps !! p with
  | Some r => mret r
  | None => undef
  end.

(** [p->data[p->nwrite++ % PIPESIZE] = c] *)
Definition pipe_put (c : Z) (r : pipe) : pipe :=
  mkpipe (<[Z.to_nat (pi_nwrite r mod PIPESIZE) := c]> (pi_data r))
         (pi_nread r) (u32 (pi_nwrite r + 1)) (pi_readopen r) (pi_writeopen r).

(** [p->data[p->nread++ % PIPESIZE]]: the byte, and the pipe after. *)
Definition pipe_head (r : pipe) : Z := pi_data r !!! Z.to_nat (pi_nread r mod PIPESIZE).
Definition pipe_pop (r : pipe) : pipe := set_pi_nread (u32 (pi_nread r + 1)) r.

Definition pipe_full (r : pipe) : bool := pi_nwrite r =? u32 (pi_nread r + PIPESIZE).
Definition pipe_empty (r : pipe) : bool := pi_nread r =? pi_nwrite r.

Section Pipe.
Context {WF : WakeFuel} {KI : KernelImage}.

Definition pipeclose (p : Z) (writable : bool) : K unit :=
  acquire (LkPipe p);;
  getpipe p;;
  (if writable then
     modify (upd_pipe p (set_pi_writeopen false));;
     wakeup (ChNread p)
   else
     modify (upd_pipe p (set_pi_readopen false));;
     wakeup (ChNwrite p));;
  r ← getpipe p;
  if negb (pi_readopen r) && negb (pi_writeopen r) then
    release (LkPipe p);;
    kfree p;;
    modify (fun s => set_k_pipes (delete p (k_pipes s)) s)
  else release (LkPipe p).

Definition pipewrite (p : Z) (src : list Z) (n : Z) : K Z :=
  acquire (LkPipe p);;
  ok ← loop (S (Z.to_nat n)) (fun i =>
    if i <? n then
      ok ← loop (S wake_fuel) (fun _ : unit =>
        r ← getpipe p;
        if pipe_full r then
          c ← curproc;
          pr ← getproc c;
          if negb (pi_readopen r) || p_killed pr then
            release (LkPipe p);;
            mret (inr false)
          else
            wakeup (ChNread p);;
            sleep (ChNwrite p) (LkPipe p);;
            mret (inl tt)
        else mret (inr true)) tt;
      if negb ok then mret (inr false)
      else
        modify (upd_pipe p (pipe_put (src !!! Z.to_nat i)));;
        mret (inl (i + 1))
    else mret (inr true)) 0;
  if negb ok then mret (-1)
  else
    wakeup (ChNread p);;
    release (LkPipe p);;
    mret n.

Definition piperead (p : Z) (n : Z) : K (Z * list Z) :=
  acquire (LkPipe p);;
  ok ← loop (S wake_fuel) (fun _ : unit =>
    r ← getpipe p;
    if pipe_empty r && pi_writeopen r then
      c ← curproc;
      pr ← getproc c;
      if p_killed pr then
        release (LkPipe p);;
        mret (inr false)
      else
        sleep (ChNread p) (LkPipe p);;
        mret (inl tt)
    else mret (inr true)) tt;
  if negb ok then mret (-1, [])
  else
    '(i, dst) ← loop (S (Z.to_nat n)) (fun '(i, dst) =>
      if i <? n then
        r ← getpipe p;
        if pipe_empty r then mret (inr (i, dst))
        else
          modify (upd_pipe p pipe_pop);;
          mret (inl (i + 1, dst ++ [pipe_head r]))
      else mret (inr (i, dst))) (0, []);
    wakeup (ChNwrite p);;
    release (LkPipe p);;
    mret (i, dst).

End Pipe.

(** ** A pipe is a queue of at most 512 bytes

    [nread] and [nwrite] count modulo [2^32], a multiple of [PIPESIZE], so
    the queue survives the wrap-around of both. *)

(** Number of bytes in the pipe. *)
Definition pipe_len (r : pipe) : Z := u32 (pi_nwrite r - pi_nread r).

Definition pipe_queue (r : pipe) : list Z :=
  map (fun i : nat => pi_data r !!! Z.to_nat (u32 (pi_nread r + Z.of_nat i) mod PIPESIZE))
      (seq 0 (Z.to_nat (pipe_len r))).

Record pipe_wf (r : pipe) : Prop := {
  pw_data : length (pi_data r) = Z.to_nat PIPESIZE;
  pw_nread : 0 <= pi_nread r < 4294967296;
  pw_nwrite : 0 <= pi_nwrite r < 4294967296;
  pw_len : pipe_len r <= PIPESIZE;
}.

Lemma u32_add_l a b : u32 (u32 a + b) = u32 (a + b).
Proof. unfold u32. by rewrite Zplus_mod_idemp_l. Qed.
Lemma u32_sub_l a b : u32 (u32 a - b) = u32 (a - b).
Proof. unfold u32. by rewrite Zminus_mod_idemp_l. Qed.
Lemma u32_sub_r a b : u32 (a - u32 b) = u32 (a - b).
Proof. unfold u32. by rewrite Zminus_mod_idemp_r. Qed.

Lemma u32_mod_pipesize a : u32 a mod PIPESIZE = a mod PIPESIZE.
Proof.
  unfold u32, PIPESIZE. change (2 ^ 32) with (512 * 8388608).
  rewrite Z.rem_mul_r by lia. rewrite (Z.mul_comm 512 (_ mod _)), Z_mod_plus_full.
  by rewrite Z.mod_mod by lia.
Qed.

Lemma pipe_nwrite r : pipe_wf r -> pi_nwrite r = u32 (pi_nread r + pipe_len r).
Proof.
  intros []. unfold pipe_len. rewrite Z.add_comm, u32_add_l.
  replace (pi_nwrite r - pi_nread r + pi_nread r) with (pi_nwrite r) by lia. by rewrite u32_id.
Qed.

Lemma pipe_len_range r : 0 <= pipe_len r.
Proof. apply u32_range. Qed.

Lemma pipe_full_spec r : pipe_wf r -> pipe_full r = true <-> pipe_len r = PIPESIZE.
Proof.
  intros W. unfold pipe_full. rewrite Z.eqb_eq. pose proof W as [_ Hr Hw Hl]. split.
  - intros E. unfold pipe_len. rewrite E, u32_sub_l.
    replace (pi_nread r + PIPESIZE - pi_nread r) with PIPESIZE by lia. done.
  - intros E. rewrite (pipe_nwrite r W). by rewrite E.
Qed.

Lemma pipe_empty_spec r : pipe_wf r -> pipe_empty r = true <-> pipe_queue r = [].
Proof.
  intros W. unfold pipe_empty. rewrite Z.eqb_eq. pose proof (pipe_len_range r) as Hr. split.
  - intros E. unfold pipe_queue, pipe_len. by rewrite E, Z.sub_diag.
  - intros E. assert (pipe_len r = 0) as H0.
    { apply (f_equal length) in E. unfold pipe_queue in E. rewrite length_map, length_seq in E.
      simpl in E. lia. }
    rewrite (pipe_nwrite r W), H0, Z.add_0_r. symmetry. apply u32_id, W.
Qed.

Lemma length_pipe_queue r : length (pipe_queue r) = Z.to_nat (pipe_len r).
Proof. unfold pipe_queue. by rewrite length_map, length_seq. Qed.

(** Two indices less than a buffer apart name different cells. *)
Lemma ring_ne a i j : 0 <= i < PIPESIZE -> 0 <= j < PIPESIZE -> i <> j ->
  (a + i) mod PIPESIZE <> (a + j) mod PIPESIZE.
Proof.
  unfold PIPESIZE. intros Hi Hj Hne E.
  pose proof (Z.div_mod (a + i) 512). pose proof (Z.div_mod (a + j) 512). lia.
Qed.

Lemma pipe_put_ok c r :
  pipe_wf r -> pipe_full r = false ->
  pipe_wf (pipe_put c r) /\ pipe_queue (pipe_put c r) = pipe_queue r ++ [c].
Proof.
  intros W Hf. pose proof W as [Hd Hr Hw Hl]. pose proof (pipe_len_range r) as Hlr.
  assert (pipe_len r < PIPESIZE) as Hlt.
  { destruct (decide (pipe_len r = PIPESIZE)) as [E|]; [|lia].
    apply (pipe_full_spec r W) in E. congruence. }
  assert (pipe_len (pipe_put c r) = pipe_len r + 1) as Hlen.
  { unfold pipe_len, pipe_put in *. simpl. rewrite u32_sub_l.
    replace (pi_nwrite r + 1 - pi_nread r) with (pi_nwrite r - pi_nread r + 1) by lia.
    rewrite <- u32_add_l. apply u32_id. unfold PIPESIZE in *. lia. }
  split.
  - split; simpl; [by rewrite length_insert|done|apply u32_range|lia].
  - unfold pipe_queue at 1. rewrite Hlen.
    replace (Z.to_nat (pipe_len r + 1)) with (S (Z.to_nat (pipe_len r))) by lia.
    rewrite seq_S, map_app. cbn [map Nat.add]. f_equal.
    + apply map_ext_in. intros i Hi%in_seq. simpl. apply list_lookup_total_insert_ne.
      rewrite (pipe_nwrite r W), !u32_mod_pipesize. intros E%Z2Nat.inj.
      * revert E. apply ring_ne; lia.
      * apply Z.mod_pos_bound. unfold PIPESIZE. lia.
      * apply Z.mod_pos_bound. unfold PIPESIZE. lia.
    + f_equal. simpl. rewrite (pipe_nwrite r W), !u32_mod_pipesize, Z2Nat.id by lia.
      apply list_lookup_total_insert_eq. rewrite Hd.
      pose proof (Z.mod_pos_bound (pi_nread r + pipe_len r) PIPESIZE). unfold PIPESIZE in *. lia.
Qed.

Lemma pipe_pop_ok r :
  pipe_wf r -> pipe_empty r = false ->
  pipe_wf (pipe_pop r) /\ pipe_queue r = pipe_head r :: pipe_queue (pipe_pop r).
Proof.
  intros W He. pose proof W as [Hd Hr Hw Hl]. pose proof (pipe_len_range r) as Hlr.
  assert (pipe_len r <> 0) as Hne.
  { intros E. assert (pipe_empty r = true); [|congruence]. unfold pipe_empty. apply Z.eqb_eq.
    rewrite (pipe_nwrite r W), E, Z.add_0_r. symmetry. by apply u32_id. }
  assert (pipe_len (pipe_pop r) = pipe_len r - 1) as Hlen.
  { unfold pipe_len, pipe_pop in *. simpl. rewrite u32_sub_r.
    replace (pi_nwrite r - (pi_nread r + 1)) with (pi_nwrite r - pi_nread r - 1) by lia.
    rewrite <- u32_sub_l. apply u32_id. unfold PIPESIZE in *. lia. }
  split.
  - split; simpl; [done|apply u32_range|done|lia].
  - unfold pipe_queue. rewrite Hlen.
    replace (Z.to_nat (pipe_len r)) with (S (Z.to_nat (pipe_len r - 1))) by lia.
    cbn [seq map]. f_equal.
    + unfold pipe_head. by rewrite u32_mod_pipesize, Z.add_0_r.
    + rewrite <- seq_shift, map_map. apply map_ext. intros i. simpl.
      rewrite u32_add_l. do 4 f_equal. lia.
Qed.

(** ** Reading and writing *)

Section PipeSpec.
Context {WF : WakeFuel}.

(** The pipe [p] is open, well formed and free to be locked. *)
Record pipe_at (p : Z) (r : pipe) (s : kstate) : Prop := {
  pa_pipe : k_pipes s !! p = Some r;
  pa_wf : pipe_wf r;
  pa_lock : LkPipe p ∉ k_held s;
  pa_ptable : LkPtable ∉ k_held s;
  pa_procs : (length (k_procs s) <= NPROC)%nat;
}.

(** The state after the pipe has become [r] and [ch] was woken. *)
Definition pipe_upd (p : Z) (r : pipe) (ch : chan) (s : kstate) : kstate :=
  set_k_procs (wake ch <$> k_procs s) (set_k_pipes (<[p := r]> (k_pipes s)) s).

Lemma getpipe_ok p r s : k_pipes s !! p = Some r -> getpipe p s = Ret r s.
Proof. intros H. unfold getpipe, mbind, M_bind. simpl. by rewrite H. Qed.

Lemma upd_pipe_insert p f r s :
  k_pipes s !! p = Some r -> upd_pipe p f s = set_k_pipes (<[p := f r]> (k_pipes s)) s.
Proof.
  intros H. unfold upd_pipe. f_equal. apply map_eq. intros q. destruct (decide (q = p)) as [->|Hne].
  - by rewrite lookup_alter_eq, lookup_insert_eq, H.
  - by rewrite lookup_alter_ne, lookup_insert_ne by done.
Qed.

(** The tail of [piperead] and [pipewrite]. *)
Lemma wake_release {A} p ch (x : A) h s :
  k_held s = LkPipe p :: h -> LkPipe p ∉ h -> LkPtable ∉ h -> (length (k_procs s) <= NPROC)%nat ->
  (wakeup ch;; release (LkPipe p);; mret x) s
  = Ret x (set_k_held h (set_k_procs (wake ch <$> k_procs s) s)).
Proof.
  intros Hh Hl Hp Hn. kstep_by ltac:(apply wakeup_ok; [rewrite Hh; set_solver|done]).
  kstep_by ltac:(by apply release_ok). done.
Qed.

(** The copy loop of [piperead]. *)
Lemma wp_read_loop fuel p n i dst r s :
  0 <= i -> (Z.to_nat (n - i) < fuel)%nat -> k_pipes s !! p = Some r -> pipe_wf r ->
  wp (loop fuel (fun '(i, dst) =>
      if i <? n then
        r ← getpipe p;
        if pipe_empty r then mret (inr (i, dst))
        else
          modify (upd_pipe p pipe_pop);;
          mret (inl (i + 1, dst ++ [pipe_head r]))
      else mret (inr (i, dst))) (i, dst))
    (fun '(i', dst') s' => exists r', s' = set_k_pipes (<[p := r']> (k_pipes s)) s /\
       pipe_wf r' /\ pi_readopen r' = pi_readopen r /\ pi_writeopen r' = pi_writeopen r /\
       let q := pipe_queue r in let m := Z.to_nat (n - i) in
       i' = i + Z.of_nat (length (take m q)) /\
       dst' = dst ++ take m q /\ pipe_queue r' = drop m q) s.
Proof.
  revert i dst r s. induction fuel as [|fuel IH]; intros i dst r s Hi Hf Hp W; [lia|].
  assert (s = set_k_pipes (<[p := r]> (k_pipes s)) s) as Hs.
  { destruct s. simpl in *. by rewrite insert_id. }
  cbn [loop]. apply wp_bind. destruct (Z.ltb_spec i n).
  - apply wp_bind. exists r, s. split; [by apply getpipe_ok|].
    destruct (pipe_empty r) eqn:E.
    + do 2 apply wp_ret. exists r. apply (pipe_empty_spec r W) in E. rewrite E.
      rewrite take_nil, drop_nil, app_nil_r. split_and!; auto. simpl. lia.
    + destruct (pipe_pop_ok r W E) as [W' Hq]. wstep. apply wp_ret.
      rewrite (upd_pipe_insert p pipe_pop r) by done.
      eapply wp_mono; [apply (IH (i + 1) _ (pipe_pop r)); auto|].
      * lia.
      * lia.
      * simpl. by rewrite lookup_insert_eq.
      * intros [i' dst'] s' (r' & -> & W'' & Hro & Hwo & Ei & Ed & Eq). exists r'.
        replace (Z.to_nat (n - i)) with (S (Z.to_nat (n - (i + 1)))) by lia.
        rewrite Hq. cbn [take drop length]. split.
        { destruct s. simpl. by rewrite insert_insert_eq. }
        split_and!; auto; [lia|]. by rewrite Ed, <- app_assoc.
  - do 2 apply wp_ret. exists r. replace (Z.to_nat (n - i)) with 0%nat by lia.
    rewrite take_0, drop_0, app_nil_r. split_and!; auto. simpl. lia.
Qed.

Lemma wp_piperead p n r s :
  pipe_at p r s -> 0 <= n -> pipe_queue r <> [] \/ pi_writeopen r = false ->
  wp (piperead p n) (fun '(i, dst) s' =>
    let q := pipe_queue r in
    dst = take (Z.to_nat n) q /\ i = Z.of_nat (length dst) /\
    exists r', pipe_wf r' /\ pipe_queue r' = drop (Z.to_nat n) q /\
      pi_readopen r' = pi_readopen r /\ pi_writeopen r' = pi_writeopen r /\
      s' = pipe_upd p r' (ChNwrite p) s) s.
Proof.
  intros [Hp W Hl Hpt Hn] Hn0 Hq. unfold piperead.
  apply wp_bind. eexists tt, _. split; [by apply acquire_ok|].
  apply wp_bind. eexists true, _. split.
  { cbn [loop]. erewrite bind_Ret; [|erewrite bind_Ret by (by apply getpipe_ok)].
    2: { replace (pipe_empty r && pi_writeopen r) with false; [reflexivity|].
         destruct (pipe_empty r) eqn:E; [|done]. destruct Hq as [Hq| ->]; [|done].
         by apply (pipe_empty_spec r W) in E. }
    reflexivity. }
  cbn [negb]. apply wp_bind. eapply wp_mono; [apply (wp_read_loop _ p n 0 [] r)|].
  - lia.
  - lia.
  - done.
  - done.
  - intros [i dst] s1 (r' & -> & W' & Hro & Hwo & Ei & Ed & Eq). cbv beta.
    rewrite Z.sub_0_r in *. simpl in Ed. subst dst.
    eexists (i, _), _. split; [apply (wake_release p _ _ (k_held s)); done|].
    split; [done|]. split; [lia|]. exists r'. split_and!; auto.
Qed.

(** The store loop of [pipewrite], as long as there is room. *)
Lemma wp_write_loop fuel p src n i r s :
  0 <= i -> (Z.to_nat (n - i) < fuel)%nat -> k_pipes s !! p = Some r -> pipe_wf r ->
  n - i <= PIPESIZE - pipe_len r -> n <= Z.of_nat (length src) ->
  wp (loop fuel (fun i =>
    if i <? n then
      ok ← loop (S wake_fuel) (fun _ : unit =>
        r ← getpipe p;
        if pipe_full r then
          c ← curproc;
          pr ← getproc c;
          if negb (pi_readopen r) || p_killed pr then
            release (LkPipe p);;
            mret (inr false)
          else
            wakeup (ChNread p);;
            sleep (ChNwrite p) (LkPipe p);;
            mret (inl tt)
        else mret (inr true)) tt;
      if negb ok then mret (inr false)
      else
        modify (upd_pipe p (pipe_put (src !!! Z.to_nat i)));;
        mret (inl (i + 1))
    else mret (inr true)) i)
    (fun ok s' => ok = true /\ exists r', s' = set_k_pipes (<[p := r']> (k_pipes s)) s /\
       pipe_wf r' /\ pi_readopen r' = pi_readopen r /\ pi_writeopen r' = pi_writeopen r /\
       pipe_queue r' = pipe_queue r ++ slice (Z.to_nat i) (Z.to_nat (n - i)) src) s.
Proof.
  revert i r s. induction fuel as [|fuel IH]; intros i r s Hi Hf Hp W Hroom Hsrc; [lia|].
  cbn [loop]. apply wp_bind. destruct (Z.ltb_spec i n) as [Hlt|Hge].
  - assert (pipe_full r = false) as Hnf.
    { destruct (pipe_full r) eqn:E; [|done]. apply (pipe_full_spec r W) in E. lia. }
    apply wp_bind. eexists true, s. split.
    { erewrite bind_Ret; [|erewrite bind_Ret by (by apply getpipe_ok); rewrite Hnf; reflexivity].
      reflexivity. }
    cbn [negb]. wstep. apply wp_ret. rewrite (upd_pipe_insert p _ r) by done.
    destruct (pipe_put_ok (src !!! Z.to_nat i) r W Hnf) as [W' Hq].
    eapply wp_mono; [apply (IH (i + 1) (pipe_put (src !!! Z.to_nat i) r)); auto|].
    + lia.
    + lia.
    + simpl. by rewrite lookup_insert_eq.
    + pose proof (length_pipe_queue (pipe_put (src !!! Z.to_nat i) r)) as Hl1.
      rewrite Hq, length_app, length_pipe_queue in Hl1. simpl in Hl1.
      pose proof (pipe_len_range r). pose proof (pipe_len_range (pipe_put (src !!! Z.to_nat i) r)). lia.
    + intros ok s' (-> & r' & -> & W'' & Hro & Hwo & Eq). split; [done|]. exists r'.
      split; [destruct s; simpl; by rewrite insert_insert_eq|].
      split_and!; auto. rewrite Eq, Hq, <- app_assoc. f_equal. simpl.
      replace (Z.to_nat (n - i)) with (S (Z.to_nat (n - (i + 1)))) by lia.
      unfold slice. replace (Z.to_nat (i + 1)) with (S (Z.to_nat i)) by lia.
      destruct (lookup_lt_is_Some_2 src (Z.to_nat i)) as [x Hx]; [lia|].
      rewrite (drop_S _ _ _ Hx), (list_lookup_total_correct _ _ _ Hx). done.
  - do 2 apply wp_ret. split; [done|]. exists r. split.
    { destruct s. simpl in *. by rewrite insert_id. }
    replace (Z.to_nat (n - i)) with 0%nat by lia. unfold slice. rewrite take_0, app_nil_r. done.
Qed.

Lemma wp_pipewrite p src n r s :
  pipe_at p r s -> 0 <= n <= Z.of_nat (length src) -> n <= PIPESIZE - pipe_len r ->
  wp (pipewrite p src n) (fun i s' => i = n /\
    exists r', pipe_wf r' /\ pipe_queue r' = pipe_queue r ++ take (Z.to_nat n) src /\
      pi_readopen r' = pi_readopen r /\ pi_writeopen r' = pi_writeopen r /\
      s' = pipe_upd p r' (ChNread p) s) s.
Proof.
  intros [Hp W Hl Hpt Hn] Hn0 Hroom. unfold pipewrite.
  apply wp_bind. eexists tt, _. split; [by apply acquire_ok|].
  apply wp_bind. eapply wp_mono; [apply (wp_write_loop _ p src n 0 r); try done; lia|].
  intros ok s1 (-> & r' & -> & W' & Hro & Hwo & Eq). cbn [negb].
  eexists n, _. split; [apply (wake_release p _ _ (k_held s)); done|].
  split; [done|]. exists r'. rewrite Z.sub_0_r in Eq. unfold slice in Eq. rewrite drop_0 in Eq.
  split_and!; auto.
Qed.

Lemma pipe_at_upd p r r' ch s :
  pipe_at p r s -> pipe_wf r' -> pipe_at p r' (pipe_upd p r' ch s).
Proof.
  intros [Hp W Hl Hpt Hn] W'. split; simpl; auto.
  - apply lookup_insert_eq.
  - by rewrite length_fmap.
Qed.

(** What [pipewrite] puts into a pipe with room, [piperead] takes out behind
    the bytes that were there before, and the two leave a pipe of the same
    state behind; neither sleeps. *)
Theorem pipewrite_piperead p src n r s :
  pipe_at p r s -> 0 <= n <= Z.of_nat (length src) -> n <= PIPESIZE - pipe_len r ->
  pipe_queue r ++ take (Z.to_nat n) src <> [] \/ pi_writeopen r = false ->
  let q := pipe_queue r ++ take (Z.to_nat n) src in
  exists s' r', (pipewrite p src n;; piperead p (pipe_len r + n)) s =
    Ret (Z.of_nat (length q), q) s' /\ k_pipes s' !! p = Some r' /\ pipe_queue r' = [].
Proof.
  intros HA Hn Hroom Hq q. pose proof (length_pipe_queue r) as Elen.
  pose proof (pipe_len_range r) as Hlen.
  destruct (wp_pipewrite p src n r s HA Hn Hroom) as (i & s1 & Hr1 & -> & r1 & W1 & Eq1 & _ & Ew1 & ->).
  destruct (wp_piperead p (pipe_len r + n) r1 (pipe_upd p r1 (ChNread p) s)) as ([i dst] & s2 & Hr2 & Ed & Ei & r2 & W2 & Eq2 & _ & _ & E2).
  - by apply (pipe_at_upd p r).
  - lia.
  - rewrite Eq1, Ew1. done.
  - exists s2, r2. rewrite (bind_Ret _ _ _ _ _ Hr1), Hr2, Ei, Ed.
    assert (length q <= Z.to_nat (pipe_len r + n))%nat as Hle.
    { unfold q. rewrite length_app, length_take. lia. }
    rewrite Eq1. fold q. rewrite firstn_all2 by done. split; [done|]. split.
    + rewrite E2. simpl. apply lookup_insert_eq.
    + rewrite Eq2, Eq1. by apply drop_ge.
Qed.

(** *** Blocking *)

Lemma curproc_ok c s : k_cur s = Some c -> curproc s = Ret c s.
Proof. intros Hc. unfold curproc, mbind, M_bind. simpl. by rewrite Hc. Qed.

Lemma sleep_blocks ch lk s p :
  lk <> LkPtable -> k_held s = [lk] -> k_cur s = Some p -> (p < length (k_procs s))%nat ->
  switches (sleep ch lk) s (asleep p ch s).
Proof. intros H1 H2 H3 H4. destruct (sleep_switch ch lk s p H1 H2 H3 H4) as (k & E & _). by exists k. Qed.

Context (p : Z) (r : pipe) (s : kstate) (c : nat).
Context (HA : pipe_at p r s) (Hheld : k_held s = []).
Context (Hcur : k_cur s = Some c) (Hproc : (c < length (k_procs s))%nat).
#[local, warnings="-notation-for-abbreviation"]
Notation killed := (p_killed (k_procs s !!! c)).

(** What a reader of an empty pipe and a writer to a full one get: the reader
    gets 0 bytes when no writer is left, the writer -1 when no reader is left;
    a killed process gets -1; any other process gives up the CPU asleep on the
    channel the other side wakes, the writer after it has woken the
    readers. *)
Theorem pipe_blocks n src :
  (pipe_queue r = [] -> 0 <= n ->
   if pi_writeopen r then
     if killed then piperead p n s = Ret (-1, []) s
     else switches (piperead p n) s (asleep c (ChNread p) s)
   else exists s', piperead p n s = Ret (0, []) s') /\
  (pipe_len r = PIPESIZE -> 0 < n ->
   if negb (pi_readopen r) || killed then pipewrite p src n s = Ret (-1) s
   else switches (pipewrite p src n) s
          (asleep c (ChNwrite p) (set_k_procs (wake (ChNread p) <$> k_procs s) s))).
Proof.
  pose proof HA as [Hp W Hl Hpt Hn].
  assert (release (LkPipe p) (set_k_held [LkPipe p] s) = Ret tt s) as Hunlock.
  { rewrite (release_ok (LkPipe p) []) by (done || apply not_elem_of_nil).
    f_equal. destruct s; simpl in *; by subst. }
  split.
  - intros Hq H0. destruct (pi_writeopen r) eqn:Ew.
    2: { destruct (wp_piperead p n r s HA H0 (or_intror Ew)) as ([i dst] & s' & Hr & Ed & Ei & _).
         exists s'. rewrite Hr, Ei, Ed, Hq, take_nil. done. }
    assert (pipe_empty r = true) as Ee by (by apply pipe_empty_spec).
    destruct killed eqn:Ek.
    + unfold piperead. rewrite (bind_Ret _ _ _ _ _ (acquire_ok _ _ Hl)), Hheld.
      erewrite (bind_Ret _ _ _ false s); [done|]. apply loop_done.
      erewrite bind_Ret by (by apply getpipe_ok). rewrite Ee, Ew. cbn [andb].
      erewrite bind_Ret by (by apply curproc_ok). erewrite (bind_Ret (getproc c) _ _ (k_procs s !!! c)) by reflexivity. rewrite Ek.
      by rewrite (bind_Ret _ _ _ _ _ Hunlock).
    + unfold piperead. eapply switches_then; [by apply acquire_ok|]. rewrite Hheld.
      apply switches_first, switches_loop. eapply switches_then; [by apply getpipe_ok|]. rewrite Ee, Ew. cbn [andb].
      eapply switches_then; [by apply curproc_ok|].
      eapply (switches_then (getproc c) _ (k_procs s !!! c)); [reflexivity|]. rewrite Ek.
      apply switches_first. by apply (sleep_blocks (ChNread p) (LkPipe p) (set_k_held [LkPipe p] s)).
  - intros Hfull H0. assert (pipe_full r = true) as Ef by (by apply pipe_full_spec).
    assert ((0 <? n) = true) as E0 by (by apply Z.ltb_lt).
    destruct (negb (pi_readopen r) || killed) eqn:Ek.
    + unfold pipewrite. rewrite (bind_Ret _ _ _ _ _ (acquire_ok _ _ Hl)), Hheld.
      erewrite (bind_Ret _ _ _ false s); [done|]. apply loop_done. rewrite E0.
      erewrite (bind_Ret _ _ _ false s); [done|]. apply loop_done.
      erewrite bind_Ret by (by apply getpipe_ok). rewrite Ef.
      erewrite bind_Ret by (by apply curproc_ok). erewrite (bind_Ret (getproc c) _ _ (k_procs s !!! c)) by reflexivity. rewrite Ek.
      by rewrite (bind_Ret _ _ _ _ _ Hunlock).
    + unfold pipewrite. eapply switches_then; [by apply acquire_ok|]. rewrite Hheld.
      apply switches_first, switches_loop. rewrite E0. apply switches_first, switches_loop.
      eapply switches_then; [by apply getpipe_ok|]. rewrite Ef. eapply switches_then; [by apply curproc_ok|].
      eapply (switches_then (getproc c) _ (k_procs s !!! c)); [reflexivity|]. rewrite Ek.
      eapply switches_then; [apply wakeup_ok; [set_solver|done]|]. apply switches_first.
      match goal with |- switches _ ?s1 _ =>
        apply (sleep_blocks (ChNwrite p) (LkPipe p) s1); [done..|] end.
      simpl. by rewrite length_fmap.
Qed.

End PipeSpec.

(** A pipe as [pipealloc] makes it. *)
Definition pipe_new : pipe := mkpipe (replicate (Z.to_nat PIPESIZE) 0) 0 0 true true.

Lemma pipe_new_wf : pipe_wf pipe_new.
Proof. by split. Qed.

(** A process with a new pipe. *)
Definition pipe_state (r : pipe) : kstate :=
  set_k_pipes {[4096 := r]} (set_k_cur (Some 0%nat) (reset_state (mkdisk ∅ 0 []))).

Lemma pipe_state_ok r : pipe_wf r -> pipe_at 4096 r (pipe_state r).
Proof.
  intros W. split; [apply lookup_insert_eq|done|apply not_elem_of_nil..|]. rewrite NPROC_eq. done.
Qed.

Lemma pipewrite_piperead_witness :
  exists s', (pipewrite (WF := 1%nat) 4096 [7; 8] 2;; piperead (WF := 1%nat) 4096 2) (pipe_state pipe_new) =
    Ret (2, [7; 8]) s'.
Proof.
  destruct (pipewrite_piperead (WF := 1%nat) 4096 [7; 8] 2 pipe_new (pipe_state pipe_new))
    as (s' & r' & Hr & _).
  - apply pipe_state_ok, pipe_new_wf.
  - simpl. lia.
  - discriminate.
  - left. discriminate.
  - exists s'. exact Hr.
Defined.

Lemma pipe_blocks_witness :
  switches (piperead (WF := 1%nat) 4096 5) (pipe_state pipe_new) (asleep 0 (ChNread 4096) (pipe_state pipe_new)).
Proof.
  destruct (pipe_blocks (WF := 1%nat) 4096 pipe_new (pipe_state pipe_new) 0) with (n := 5) (src := @nil Z) as [H _].
  - apply pipe_state_ok, pipe_new_wf.
  - reflexivity.
  - reflexivity.
  - simpl. lia.
  - apply H; [reflexivity|lia].
Defined.
