(* ===== verification/PipeProps.v ===== *)
(** * Readers and writers of a pipe in any interleaving

    The code of [pipewrite], [piperead] and [pipeclose] run by any number of
    processes.  A process gives up the CPU in [sleep] and nowhere else while
    it has the lock of the pipe, so the calls interleave at their sleeps; a
    call that sleeps goes on with whatever the others have made of the pipe
    meanwhile. *)

From S2P Require Import Prelude Monad State Strings Sched Kalloc Pipe.

(** ** Code that is interleaved at its switches

    [iwp own env I Q g o]: with [g] what is known of the shared data when a
    stretch of code begins, [I g] ties it to the state.  At each switch the
    code has changed [g] as [own] allows; it goes on for every [g] that the
    others, bound by [env], can have made of it.  It does not panic, and it
    returns with [Q], given the [g] of its last stretch. *)
Section Interleaved.
Context {G : Type} (own env : G -> G -> Prop) (I : G -> kstate -> Prop) (c : nat).

(** The scheduler has switched to process [c]. *)
Definition resumed (s : kstate) : Prop :=
  k_held s = [LkPtable] /\ k_cur s = Some c.

Fixpoint iwp {A} (Q : A -> G -> kstate -> Prop) (g : G) (o : outcome kstate A) : Prop :=
  match o with
  | Ret a s => Q a g s
  | Switch s k =>
      exists g1, own g g1 /\ I g1 s /\
        forall g2 s', env g1 g2 -> I g2 s' -> resumed s' -> iwp Q g2 (k s')
  | NoFuel _ => True
  | _ => False
  end.

Lemma iwp_bind {A B} (Q' : A -> G -> kstate -> Prop) (Q : B -> G -> kstate -> Prop) o f : forall g,
  iwp Q' g o -> (forall a g s, Q' a g s -> iwp Q g (f a s)) -> iwp Q g (obind o f).
Proof.
  induction o as [a s|e s|s|s|s k IH]; intros g H Hf; simpl in *; auto.
  destruct H as (g1 & Ho & HI & Hk). exists g1. split_and!; [done..|].
  intros g2 s' He HI' Hr. apply IH; auto.
Qed.

Lemma iwp_mono {A} (Q Q' : A -> G -> kstate -> Prop) o : forall g,
  iwp Q g o -> (forall a g s, Q a g s -> Q' a g s) -> iwp Q' g o.
Proof.
  induction o as [a s|e s|s|s|s k IH]; intros g H Hf; simpl in *; auto.
  destruct H as (g1 & Ho & HI & Hk). exists g1. split_and!; [done..|].
  intros g2 s' He HI' Hr. apply IH; auto.
Qed.

Lemma iwp_then {A B} (Q' : A -> G -> kstate -> Prop) (Q : B -> G -> kstate -> Prop)
    (m : K A) (f : A -> K B) g s :
  iwp Q' g (m s) -> (forall a g s, Q' a g s -> iwp Q g (f a s)) -> iwp Q g ((m ≫= f) s).
Proof. apply iwp_bind. Qed.

Lemma iwp_ret_then {A B} (Q : B -> G -> kstate -> Prop) (m : K A) (f : A -> K B) a g s s' :
  m s = Ret a s' -> iwp Q g (f a s') -> iwp Q g ((m ≫= f) s).
Proof. intros H. by rewrite (bind_Ret _ _ _ _ _ H). Qed.
End Interleaved.

Section PipeCalls.
Context {WF : WakeFuel}.
Context (p : Z) (N : nat).
Hypothesis HN : (N <= NPROC)%nat.

(** The pipe holds the bytes [q]; the process table has [N] entries. *)
Definition pipe_in (q : list Z) (s : kstate) : Prop :=
  length (k_procs s) = N /\ exists r, k_pipes s !! p = Some r /\ pipe_wf r /\ pipe_queue r = q.

Definition locked (c : nat) (s : kstate) : Prop :=
  k_held s = [LkPipe p] /\ k_cur s = Some c /\ length (k_procs s) = N.

(** A sleep with the lock of the pipe. *)
Lemma iwp_sleep {G} (own env : G -> G -> Prop) (I : G -> list Z) c ch g g1 s :
  (c < N)%nat -> locked c s -> own g g1 -> pipe_in (I g1) s ->
  iwp own env (fun g => pipe_in (I g)) c
    (fun _ g2 s' => env g1 g2 /\ pipe_in (I g2) s' /\ locked c s') g (sleep ch (LkPipe p) s).
Proof.
  intros HcN (Hh & Hc & Hp) Ho HI.
  destruct (sleep_switch ch (LkPipe p) s c) as (k & E & Hk); [done|done|done|lia|].
  rewrite E. exists g1. split; [done|]. split.
  { destruct HI as [Hl HI]. split; [simpl; by rewrite length_alter|exact HI]. }
  intros g2 s' He HI' (Hh' & Hc'). rewrite Hk by done. split; [done|]. destruct HI' as [Hl HI'].
  split; split; [simpl; by rewrite length_alter|exact HI'|done|].
  split; [done|simpl; by rewrite length_alter].
Qed.

(** ** [pipewrite] *)

Section Write.
Context (src : list Z) (n : Z) (c : nat).
Hypothesis HcN : (c < N)%nat.
Hypothesis Hn : 0 <= n <= Z.of_nat (length src).

(** A stretch that begins with [j] bytes of the call in the pipe or past it
    and [q] in the pipe: it adds the next bytes of the call. *)
Definition wg : Type := nat * list Z.
Definition wrote (g : wg) (i : nat) : list Z := g.2 ++ slice g.1 (i - g.1) src.
Definition w_own (g g' : wg) : Prop :=
  (g.1 <= g'.1 <= Z.to_nat n)%nat /\ g'.2 = wrote g g'.1.
Definition w_env (g g' : wg) : Prop := g'.1 = g.1.

#[local, warnings="-notation-for-abbreviation"]
Notation iw := (iwp w_own w_env (fun g => pipe_in g.2) c).

Lemma wrote_same g : wrote g g.1 = g.2.
Proof. unfold wrote, slice. by rewrite Nat.sub_diag, take_0, app_nil_r. Qed.

Lemma wrote_next g i :
  (g.1 <= i < length src)%nat -> wrote g (S i) = wrote g i ++ [src !!! i].
Proof.
  intros Hi. unfold wrote, slice. rewrite <- app_assoc. f_equal.
  replace (S i - g.1)%nat with (S (i - g.1)) by lia.
  rewrite (take_S_r _ _ (src !!! i)); [done|]. rewrite lookup_drop.
  replace (g.1 + (i - g.1))%nat with i by lia. apply list_lookup_lookup_total_lt. lia.
Qed.

(** The wait for room. *)
Definition room_body (_ : unit) : K (unit + bool) :=
  r ← getpipe p;
  if pipe_full r then
    c ← curproc;
    pr ← getproc c;
    if negb (pi_readopen r) || p_killed pr then
      release (LkPipe p);;
      mret (inr false)
    else
      wakeup (ChNread p);;
      sleep (ChNwrite p) (LkPipe p);;
      mret (inl tt)
  else mret (inr true).

(** Why a call of [pipewrite] gives up. *)
Definition no_room (r : pipe) (s : kstate) : Prop :=
  pipe_full r = true /\ negb (pi_readopen r) || p_killed (k_procs s !!! c) = true.

Definition room (i : nat) (ok : bool) (g : wg) (s : kstate) : Prop :=
  (g.1 <= i)%nat /\ length (k_procs s) = N /\ exists r, k_pipes s !! p = Some r /\ pipe_wf r /\ pipe_queue r = wrote g i /\
    if ok then locked c s /\ pipe_full r = false else k_held s = [] /\ no_room r s.

Lemma iwp_room_body i g s :
  (g.1 <= i <= Z.to_nat n)%nat -> locked c s -> pipe_in (wrote g i) s ->
  iw (fun x g s => match x with
                   | inl _ => g.1 = i /\ locked c s /\ pipe_in (wrote g i) s
                   | inr ok => room i ok g s
                   end) g (room_body tt s).
Proof.
  intros Hi L (_ & r & Hr & W & Hq). pose proof L as (Hh & Hc & Hp). unfold room_body.
  eapply iwp_ret_then; [by apply getpipe_ok|]. destruct (pipe_full r) eqn:Ef.
  2: { split; [lia|]. split; [done|]. by exists r. }
  eapply iwp_ret_then; [by apply curproc_ok|].
  eapply (iwp_ret_then _ _ _ _ _ (getproc c)); [reflexivity|].
  destruct (negb (pi_readopen r) || p_killed (k_procs s !!! c)) eqn:Ek.
  - eapply iwp_ret_then; [apply (release_ok _ []); [done|apply not_elem_of_nil]|].
    split; [lia|]. split; [done|]. by exists r.
  - eapply iwp_ret_then; [apply wakeup_ok; [rewrite Hh; set_solver|lia]|].
    eapply iwp_then; [apply (iwp_sleep w_own w_env snd c _ g (i, wrote g i))|].
    + done.
    + split; [done|]. split; [done|]. simpl. by rewrite length_fmap.
    + split; [simpl; lia|done].
    + split; [simpl; by rewrite length_fmap|]. by exists r.
    + intros _ g2 s2 (E & HI & L2). unfold w_env in E. simpl in E. split; [done|]. split; [done|].
      rewrite <- E, wrote_same. done.
Qed.

Lemma iwp_room f : forall i g s,
  (g.1 <= i <= Z.to_nat n)%nat -> locked c s -> pipe_in (wrote g i) s ->
  iw (room i) g (loop f room_body tt s).
Proof.
  induction f as [|f IH]; intros i g s Hi L HI; [done|]. cbn [loop].
  eapply iwp_then; [by apply (iwp_room_body i)|]. intros [[]|ok] g2 s2 H; [|exact H].
  destruct H as (E & L2 & HI2). apply IH; [lia|done|done].
Qed.

(** The loop over the bytes. *)
Definition write_body (i : Z) : K (Z + bool) :=
  if i <? n then
    ok ← loop (S wake_fuel) room_body tt;
    if negb ok then mret (inr false)
    else
      modify (upd_pipe p (pipe_put (src !!! Z.to_nat i)));;
      mret (inl (i + 1))
  else mret (inr true).

Definition written (ok : bool) (g : wg) (s : kstate) : Prop :=
  if ok then (g.1 <= Z.to_nat n)%nat /\ locked c s /\ pipe_in (wrote g (Z.to_nat n)) s
  else exists i r, (g.1 <= i < Z.to_nat n)%nat /\ k_pipes s !! p = Some r /\ pipe_wf r /\
         pipe_queue r = wrote g i /\ k_held s = [] /\ length (k_procs s) = N /\ no_room r s.

Lemma iwp_write_loop f : forall i g s,
  (g.1 <= i <= Z.to_nat n)%nat -> locked c s -> pipe_in (wrote g i) s ->
  iw written g (loop f write_body (Z.of_nat i) s).
Proof.
  induction f as [|f IH]; intros i g s Hi L HI; [done|]. cbn [loop].
  eapply (iwp_then _ _ _ _ (fun x g s => match x with
    | inl i' => i' = Z.of_nat (S i) /\ (g.1 <= S i <= Z.to_nat n)%nat /\ locked c s /\
        pipe_in (wrote g (S i)) s
    | inr ok => written ok g s end)).
  - unfold write_body. destruct (Z.ltb_spec (Z.of_nat i) n) as [Hlt|Hge].
    2: { replace i with (Z.to_nat n) in * by lia. split; [lia|done]. }
    eapply iwp_then; [by apply iwp_room|]. intros ok g2 s2 (Hi2 & Hl2 & r & Hr & W & Hq & H).
    destruct ok; simpl.
    + destruct H as [L2 Hf]. destruct (pipe_put_ok (src !!! i) r W Hf) as [W' Hq'].
      rewrite Nat2Z.id, (upd_pipe_insert p _ r) by done. split; [lia|]. split; [lia|]. split; [done|].
      split; [done|]. exists (pipe_put (src !!! i) r). simpl. rewrite lookup_insert_eq, Hq', Hq, wrote_next by lia. done.
    + destruct H as [U H]. exists i, r. split_and!; try done; lia.
  - intros [i'|ok] g2 s2 H; [|exact H]. destruct H as (-> & Hi2 & L2 & HI2). by apply IH.
Qed.

(** The whole call: on success all of its bytes have gone in, in order; it
    gives up only when the pipe is full and has no reader, or the process was
    killed. *)
Definition write_returns (v : Z) (g : wg) (s : kstate) : Prop :=
  length (k_procs s) = N /\ exists i r, (g.1 <= i <= Z.to_nat n)%nat /\ k_pipes s !! p = Some r /\
    pipe_wf r /\ pipe_queue r = wrote g i /\
    ((v = n /\ i = Z.to_nat n) \/ (v = -1 /\ (i < Z.to_nat n)%nat /\ no_room r s)).

Lemma iwp_pipewrite q s :
  k_held s = [] -> k_cur s = Some c -> pipe_in q s ->
  iw write_returns (0%nat, q) (pipewrite p src n s).
Proof.
  intros Hh Hc HI. pose proof HI as [Hp _]. unfold pipewrite.
  eapply iwp_ret_then; [apply acquire_ok; rewrite Hh; apply not_elem_of_nil|]. rewrite Hh.
  eapply iwp_then.
  { apply (iwp_write_loop _ 0); [simpl; lia|done|].
    pose proof (wrote_same (0%nat, q)) as E. simpl in E. by rewrite E. }
  intros ok g s1 H. destruct ok; simpl.
  - destruct H as (Hg & (Hh1 & Hc1 & Hp1) & _ & r & Hr & W & Hq).
    rewrite (wake_release p _ _ []) by (done || apply not_elem_of_nil || lia).
    split; [simpl; by rewrite length_fmap|].
    exists (Z.to_nat n), r. split_and!; [lia..|done|done|done|]. by left.
  - destruct H as (i & r & Hi & Hr & W & Hq & U & Hl & Hno). split; [done|]. exists i, r.
    split_and!; [lia..|done|done|done|]. right. split_and!; [done|lia|done..].
Qed.
End Write.

(** ** [piperead] *)

Section Read.
Context (n : Z) (c : nat).
Hypothesis HcN : (c < N)%nat.
Hypothesis Hn : 0 <= n.

(** A stretch that begins with [q] in the pipe; a call changes nothing before
    it sleeps. *)
Definition r_own (q q' : list Z) : Prop := q' = q.
Definition r_env (q q' : list Z) : Prop := True.

#[local, warnings="-notation-for-abbreviation"]
Notation ir := (iwp r_own r_env pipe_in c).

Definition data_body (_ : unit) : K (unit + bool) :=
  r ← getpipe p;
  if pipe_empty r && pi_writeopen r then
    c ← curproc;
    pr ← getproc c;
    if p_killed pr then
      release (LkPipe p);;
      mret (inr false)
    else
      sleep (ChNread p) (LkPipe p);;
      mret (inl tt)
  else mret (inr true).

(** The wait for data ends with data, at the end of the stream or with the
    process killed. *)
Definition data (ok : bool) (q : list Z) (s : kstate) : Prop :=
  length (k_procs s) = N /\
  exists r, k_pipes s !! p = Some r /\ pipe_wf r /\ pipe_queue r = q /\
    if ok then locked c s /\ (q = [] -> pi_writeopen r = false)
    else k_held s = [] /\ q = [] /\ p_killed (k_procs s !!! c) = true.

Lemma iwp_data_body q s :
  locked c s -> pipe_in q s ->
  ir (fun x q s => match x with inl _ => locked c s /\ pipe_in q s | inr ok => data ok q s end)
    q (data_body tt s).
Proof.
  intros L HI. pose proof HI as (Hl & r & Hr & W & Hq). pose proof L as (Hh & Hc & Hp). unfold data_body.
  eapply iwp_ret_then; [by apply getpipe_ok|]. destruct (pipe_empty r && pi_writeopen r) eqn:Ee.
  - apply andb_true_iff in Ee as [Ee Ew]. apply (pipe_empty_spec r W) in Ee.
    eapply iwp_ret_then; [by apply curproc_ok|].
    eapply (iwp_ret_then _ _ _ _ _ (getproc c)); [reflexivity|].
    destruct (p_killed (k_procs s !!! c)) eqn:Ek.
    + eapply iwp_ret_then; [apply (release_ok _ []); [done|apply not_elem_of_nil]|].
      split; [done|]. exists r. do 4 (split; [done|]). split; [congruence|done].
    + eapply iwp_then; [apply (iwp_sleep r_own r_env id c _ q q); [done..]|].
      intros _ q2 s2 (_ & HI2 & L2). done.
  - split; [done|]. exists r. do 4 (split; [done|]). intros E. rewrite <- Hq in E. apply (pipe_empty_spec r W) in E.
    by rewrite E in Ee.
Qed.

Lemma iwp_data f : forall q s,
  locked c s -> pipe_in q s -> ir data q (loop f data_body tt s).
Proof.
  induction f as [|f IH]; intros q s L HI; [done|]. cbn [loop].
  eapply iwp_then; [by apply iwp_data_body|]. intros [[]|ok] q2 s2 H; [|exact H].
  destruct H as [L2 HI2]. by apply IH.
Qed.

(** The whole call: it takes the first bytes of the pipe, as many as there
    are up to [n]. *)
Definition read_returns (x : Z * list Z) (q : list Z) (s : kstate) : Prop :=
  length (k_procs s) = N /\ exists r, k_pipes s !! p = Some r /\ pipe_wf r /\
    ((x = (-1, []) /\ q = [] /\ pipe_queue r = [] /\ p_killed (k_procs s !!! c) = true) \/
     (x = (Z.of_nat (length (take (Z.to_nat n) q)), take (Z.to_nat n) q) /\
      pipe_queue r = drop (Z.to_nat n) q /\ (q = [] -> pi_writeopen r = false))).

Lemma iwp_piperead q s :
  k_held s = [] -> k_cur s = Some c -> pipe_in q s ->
  ir read_returns q (piperead p n s).
Proof.
  intros Hh Hc HI. pose proof HI as [Hp _]. unfold piperead.
  eapply iwp_ret_then; [apply acquire_ok; rewrite Hh; apply not_elem_of_nil|]. rewrite Hh.
  eapply iwp_then; [by apply (iwp_data _ q)|]. intros ok q1 s1 (Hl & r & Hr & W & Hq & H).
  destruct ok; simpl.
  - destruct H as [(Hh1 & Hc1 & Hp1) Hw].
    destruct (wp_read_loop (S (Z.to_nat n)) p n 0 [] r s1) as ([i dst] & s2 & E & r' & -> & W' & _ & Ew & Ei & Ed & Eq);
      [lia|lia|done|done|]. rewrite Z.sub_0_r, Hq in *. simpl in Ed.
    eapply iwp_ret_then; [exact E|]. cbv beta iota.
    rewrite (wake_release p _ _ []) by (done || apply not_elem_of_nil || (simpl; lia)).
    split; [simpl; by rewrite length_fmap|]. exists r'. simpl.
    rewrite lookup_insert_eq. split_and!; [done..|]. right. split_and!; [by rewrite Ei, Ed|done|].
    intros E0. rewrite Ew. auto.
  - destruct H as (U & E & Hk). split; [done|]. exists r. split_and!; [done..|]. left.
    split_and!; [done..|by rewrite Hq|done].
Qed.
End Read.

(** ** Calls on the pipe *)

Context {KI : KernelImage}.

Inductive pipe_op := OpWrite (src : list Z) (n : Z) | OpRead (n : Z).

(** A write returns no bytes. *)
Definition op_code (op : pipe_op) : K (Z * list Z) :=
  match op with
  | OpWrite src n => v ← pipewrite p src n; mret (v, [])
  | OpRead n => piperead p n
  end.

Definition op_ok (op : pipe_op) : bool :=
  match op with
  | OpWrite src n => (0 <=? n) && (n <=? Z.of_nat (length src))
  | OpRead n => 0 <=? n
  end.

(** A call of a process: asleep with the code that remains, or returned. *)
Record call := mkcall {
  cl_proc : nat;
  cl_op : pipe_op;
  cl_rest : (kstate -> outcome kstate (Z * list Z)) + (Z * list Z);
}.

(** The kernel, the calls in the order they were made, and the bytes of the
    reads in the order they returned. *)
Record psys := mkpsys { sy_state : kstate; sy_calls : list call; sy_read : list Z }.

(** The CPU runs process [c] with the locks [h]. *)
Definition runs (h : list lockid) (c : nat) (s : kstate) : kstate :=
  set_k_held h (set_k_cur (Some c) s).

(** A call after it has run up to its next sleep or its return. *)
Definition finish (c : nat) (op : pipe_op) (o : outcome kstate (Z * list Z)) : option (kstate * call * list Z) :=
  match o with
  | Ret (v, dst) s => Some (s, mkcall c op (inr (v, dst)), dst)
  | Switch s k => Some (s, mkcall c op (inl k), [])
  | _ => None
  end.

(** Process [c] makes a call, call [i] goes on, or one end is closed while the
    other is open. *)
Inductive event := Call (c : nat) (op : pipe_op) | Resume (i : nat) | Close (writable : bool).

Definition pipe_event (x : psys) (e : event) : option psys :=
  match e with
  | Call c op =>
      if (c <? N)%nat && op_ok op then
        '(s, cl, dst) ← finish c op (op_code op (runs [] c (sy_state x)));
        Some (mkpsys s (sy_calls x ++ [cl]) (sy_read x ++ dst))
      else None
  | Resume i =>
      cl ← sy_calls x !! i;
      match cl_rest cl with
      | inl k =>
          '(s, cl', dst) ← finish (cl_proc cl) (cl_op cl) (k (runs [LkPtable] (cl_proc cl) (sy_state x)));
          Some (mkpsys s (<[i := cl']> (sy_calls x)) (sy_read x ++ dst))
      | inr _ => None
      end
  | Close writable =>
      r ← k_pipes (sy_state x) !! p;
      if (if writable then pi_readopen r else pi_writeopen r) then
        match pipeclose p writable (runs [] 0 (sy_state x)) with
        | Ret _ s => Some (mkpsys s (sy_calls x) (sy_read x))
        | _ => None
        end
      else None
  end.

Inductive psys_step (x : psys) : psys -> Prop :=
| pe_event e y : pipe_event x e = Some y -> psys_step x y
| pe_other s : (** the rest of the kernel, which leaves the pipe alone *)
    k_pipes s !! p = k_pipes (sy_state x) !! p -> length (k_procs s) = length (k_procs (sy_state x)) ->
    psys_step x (mkpsys s (sy_calls x) (sy_read x)).

(** The bytes that call [i] has put in, of all that went in, each with the
    number of its call. *)
Definition bytes_of (i : nat) (w : list (nat * Z)) : list Z := (filter (fun x => x.1 = i) w).*2.

(** What a call can have put in before it returns. *)
Definition so_far (op : pipe_op) (bs : list Z) : Prop :=
  match op with
  | OpWrite src n => exists j, (j <= Z.to_nat n)%nat /\ bs = take j src
  | OpRead n => bs = []
  end.

(** What call and result say of the bytes [bs] that the call has put in. *)
Definition accounted (cl : call) (bs : list Z) : Prop :=
  match cl_op cl, cl_rest cl with
  | op, inl _ => so_far op bs
  | OpWrite src n, inr (v, _) =>
      (v = n /\ bs = take (Z.to_nat n) src) \/
      (v = -1 /\ exists j, (j < Z.to_nat n)%nat /\ bs = take j src)
  | OpRead n, inr (v, dst) => bs = [] /\ (length dst <= Z.to_nat n)%nat /\
      (v = Z.of_nat (length dst) \/ (v = -1 /\ dst = []))
  end.

(** *** The invariant *)

Definition write_post src n c (x : Z * list Z) (g : wg) (s : kstate) : Prop :=
  x.2 = [] /\ write_returns src n c x.1 g s.

(** A call of which [j] bytes have gone in runs on with [q] in the pipe. *)
Definition op_iwp (c : nat) (op : pipe_op) (j : nat) (q : list Z) (o : outcome kstate (Z * list Z)) : Prop :=
  match op with
  | OpWrite src n => iwp (w_own src n) w_env (fun g => pipe_in g.2) c (write_post src n c) (j, q) o
  | OpRead n => iwp r_own r_env pipe_in c (read_returns n c) q o
  end.

Definition rest_ok (c : nat) (op : pipe_op) (j : nat) (k : kstate -> outcome kstate (Z * list Z)) : Prop :=
  forall q s, pipe_in q s -> resumed c s -> op_iwp c op j q (k s).

Definition call_inv (cl : call) (bs : list Z) : Prop :=
  (cl_proc cl < N)%nat /\ op_ok (cl_op cl) = true /\ accounted cl bs /\
  match cl_rest cl with inl k => rest_ok (cl_proc cl) (cl_op cl) (length bs) k | inr _ => True end.

Record sys_inv (w : list (nat * Z)) (x : psys) : Prop := {
  si_pipe : exists q, pipe_in q (sy_state x) /\ w.*2 = sy_read x ++ q;
  si_calls : forall i cl, sy_calls x !! i = Some cl -> call_inv cl (bytes_of i w);
  si_new : forall i, (length (sy_calls x) <= i)%nat -> bytes_of i w = [];
}.

Lemma bytes_of_app i w w' : bytes_of i (w ++ w') = bytes_of i w ++ bytes_of i w'.
Proof. unfold bytes_of. by rewrite filter_app, fmap_app. Qed.

Lemma bytes_of_same (i : nat) (l : list Z) : bytes_of i (pair i <$> l) = l.
Proof.
  unfold bytes_of. induction l as [|x l IH]; [done|]. cbn [fmap list_fmap].
  rewrite filter_cons_True by done. simpl. f_equal. exact IH.
Qed.

Lemma bytes_of_other (i j : nat) (l : list Z) : i <> j -> bytes_of i (pair j <$> l) = [].
Proof.
  intros Hne. unfold bytes_of. induction l as [|x l IH]; [done|]. cbn [fmap list_fmap].
  rewrite filter_cons_False by (simpl; congruence). exact IH.
Qed.

Lemma pair_snd (i : nat) (l : list Z) : (pair i <$> l).*2 = l.
Proof. induction l as [|x l IH]; [done|]. cbn. by f_equal. Qed.

Lemma take_slice (src : list Z) j i : (j <= i)%nat -> take j src ++ slice j (i - j) src = take i src.
Proof.
  intros Hi. unfold slice. rewrite take_drop_commute. replace (j + (i - j))%nat with i by lia.
  rewrite <- (take_drop j (take i src)) at 2. rewrite take_take. by replace (j `min` i)%nat with j by lia.
Qed.

(** A call runs up to its next sleep or its return: it puts the bytes [new]
    behind those in the pipe, or takes [dst] from its front. *)
Lemma finish_write c src n bs q o s cl dst :
  (c < N)%nat -> op_ok (OpWrite src n) = true -> so_far (OpWrite src n) bs ->
  op_iwp c (OpWrite src n) (length bs) q o -> finish c (OpWrite src n) o = Some (s, cl, dst) ->
  exists new q', pipe_in q' s /\ call_inv cl (bs ++ new) /\ q ++ new = dst ++ q'.
Proof.
  intros Hc Hok (j & Hj & ->) Hi Hf. pose proof Hok as Hok'. unfold op_ok in Hok.
  rewrite andb_true_iff, !Z.leb_le in Hok.
  rewrite length_take, Nat.min_l in Hi by lia. unfold op_iwp in Hi.
  destruct o as [[v d] s1|e s1|s1|s1|s1 k]; try done; injection Hf as <- <- <-; simpl in Hi.
  - destruct Hi as (E & Hl & i & r & Hij & Hr & W & Hq & Hv). simpl in E, Hij. subst d.
    exists (slice j (i - j) src), (pipe_queue r). split; [split; [done|by exists r]|].
    split; [|exact (eq_sym Hq)]. rewrite take_slice by lia. do 2 (split; [done|]). split; [|done].
    simpl in Hv. destruct Hv as [[-> ->]|(-> & Hi & _)]; [by left|]. right. split; [done|]. by exists i.
  - destruct Hi as ([i q'] & [Hij Hq] & HI & Hk). simpl in Hij, Hq, HI.
    exists (slice j (i - j) src), q'. split; [done|]. split; [|exact (eq_sym Hq)].
    rewrite take_slice by lia. split_and!; [done|done|exists i; split; [lia|done]|].
    intros q2 s2 HI2 Hr2. simpl. rewrite length_take, Nat.min_l by lia. by apply Hk.
Qed.

Lemma finish_read c n bs q o s cl dst :
  (c < N)%nat -> op_ok (OpRead n) = true -> so_far (OpRead n) bs ->
  op_iwp c (OpRead n) (length bs) q o -> finish c (OpRead n) o = Some (s, cl, dst) ->
  exists new q', pipe_in q' s /\ call_inv cl (bs ++ new) /\ q ++ new = dst ++ q'.
Proof.
  intros Hc Hok E Hi Hf. simpl in E. subst bs. exists [].
  destruct o as [[v d] s1|e s1|s1|s1|s1 k]; try done; injection Hf as <- <- <-; simpl in Hi.
  - destruct Hi as (Hl & r & Hr & W & Hv). exists (pipe_queue r). split; [split; [done|by exists r]|].
    rewrite !app_nil_r. destruct Hv as [(E & -> & Hq & _)|(E & Hq & _)]; injection E as -> ->.
    + split; [|by rewrite Hq]. do 2 (split; [done|]). split; [|done].
      split; [done|]. split; [simpl; lia|by right].
    + split; [|rewrite Hq; by rewrite take_drop]. do 2 (split; [done|]). split; [|done].
      split; [done|]. split; [rewrite length_take; lia|by left].
  - destruct Hi as (q' & -> & HI & Hk). exists q. rewrite !app_nil_r. split; [done|]. split; [|done].
    do 3 (split; [done|]). intros q2 s2 HI2 Hr2. by apply Hk.
Qed.

Lemma finish_ok c op bs q o s cl dst :
  (c < N)%nat -> op_ok op = true -> so_far op bs -> op_iwp c op (length bs) q o ->
  finish c op o = Some (s, cl, dst) ->
  exists new q', pipe_in q' s /\ call_inv cl (bs ++ new) /\ q ++ new = dst ++ q'.
Proof. destruct op; [apply finish_write|apply finish_read]. Qed.

Lemma start_ok c op q s :
  (c < N)%nat -> op_ok op = true -> pipe_in q s -> op_iwp c op 0 q (op_code op (runs [] c s)).
Proof.
  intros Hc Hok HI. destruct op as [src n|n]; unfold op_ok in Hok.
  - rewrite andb_true_iff, !Z.leb_le in Hok. unfold op_iwp, op_code. eapply iwp_then.
    + by apply iwp_pipewrite.
    + intros v g s1 H. split; [done|exact H].
  - apply Z.leb_le in Hok. by apply iwp_piperead.
Qed.

Lemma inv_put w x i (new : list Z) s cl dst q q' cs :
  sys_inv w x -> w.*2 = sy_read x ++ q -> call_inv cl (bytes_of i w ++ new) -> pipe_in q' s ->
  q ++ new = dst ++ q' -> cs !! i = Some cl -> (forall j, j <> i -> cs !! j = sy_calls x !! j) ->
  sys_inv (w ++ (pair i <$> new)) (mkpsys s cs (sy_read x ++ dst)).
Proof.
  intros [_ Hcalls Hnew] Hw Hcl HI Hq Hi Hj. split; simpl.
  - exists q'. split; [done|]. by rewrite fmap_app, Hw, pair_snd, <- !app_assoc, Hq.
  - intros j cl' Hj'. rewrite bytes_of_app. destruct (decide (j = i)) as [->|Hne].
    + rewrite bytes_of_same. by simplify_eq.
    + rewrite bytes_of_other, app_nil_r by done. apply Hcalls. by rewrite <- Hj.
  - intros j Hl. assert (j <> i) as Hne.
    { intros ->. apply lookup_lt_Some in Hi. lia. }
    rewrite bytes_of_app, bytes_of_other, app_nil_r by done. apply Hnew.
    apply lookup_ge_None. rewrite <- Hj by done. by apply lookup_ge_None.
Qed.

(** Closing one end while the other is open touches nothing but its flag. *)
Lemma close_ok (writable : bool) q s r :
  pipe_in q s -> k_pipes s !! p = Some r -> (if writable then pi_readopen r else pi_writeopen r) = true ->
  exists s', pipeclose p writable (runs [] 0 s) = Ret tt s' /\ pipe_in q s'.
Proof.
  intros (Hl & r' & Hr' & W & Hq) Hr Ho. rewrite Hr in Hr'. injection Hr' as <-.
  unfold pipeclose. kstep_by ltac:(apply acquire_ok, not_elem_of_nil).
  kstep_by ltac:(apply (getpipe_ok p r); done).
  set (f := if writable then set_pi_writeopen false else set_pi_readopen false).
  set (ch := if writable then ChNread p else ChNwrite p).
  set (s1 := set_k_pipes (<[p := f r]> (k_pipes s)) (set_k_held [LkPipe p] (runs [] 0 s))).
  erewrite bind_Ret.
  2: { instantiate (1 := set_k_procs (wake ch <$> k_procs s) s1). instantiate (1 := tt).
       destruct writable; kstep; rewrite (upd_pipe_insert p _ r) by done;
         (rewrite wakeup_ok; [done|simpl; set_solver|simpl; lia]). }
  kstep_by ltac:(apply (getpipe_ok p (f r)); simpl; apply lookup_insert_eq).
  assert (negb (pi_readopen (f r)) && negb (pi_writeopen (f r)) = false) as Hb.
  { unfold f. destruct writable; simpl; by rewrite Ho. }
  rewrite Hb, (release_ok (LkPipe p) []) by (done || apply not_elem_of_nil).
  eexists. split; [done|]. split; [simpl; by rewrite length_fmap|]. exists (f r). simpl.
  rewrite lookup_insert_eq. destruct writable; split_and!; try done; split; apply W.
Qed.

Lemma psys_step_inv w x y : sys_inv w x -> psys_step x y -> exists w', sys_inv w' y.
Proof.
  intros Hinv Hs. pose proof Hinv as [(q & HI & Hw) Hcalls Hnew].
  destruct Hs as [e y He|s Hp Hl].
  2: { exists w. destruct HI as (Hl' & r & Hr & W & Hq). split; [|done|done]. exists q. split; [|done].
       split; [simpl; congruence|]. exists r. simpl. by rewrite Hp. }
  destruct e as [c op|i|b]; cbn [pipe_event] in He.
  - destruct (Nat.ltb_spec c N) as [Hc|]; [|done]. destruct (op_ok op) eqn:Eo; [|done]. cbn [andb] in He.
    apply bind_Some in He as ([[s cl] dst] & Hf & He). injection He as <-.
    pose proof (Hnew (length (sy_calls x)) ltac:(lia)) as Hb.
    assert (so_far op []) as Hso by (destruct op; [exists 0%nat; split; [lia|done]|done]).
    destruct (finish_ok c op [] q _ s cl dst Hc Eo Hso (start_ok c op q _ Hc Eo HI) Hf)
      as (new & q' & HI' & Hcl & Hq). eexists. eapply inv_put; try done.
    + by rewrite Hb.
    + by apply list_lookup_middle.
    + intros j Hne. destruct (decide (j < length (sy_calls x))%nat).
      * by apply lookup_app_l.
      * rewrite !lookup_ge_None_2; [done|lia|rewrite length_app; simpl; lia].
  - apply bind_Some in He as (cl & Hi & He). destruct cl as [c op [k|]]; [|done]. cbn [cl_rest cl_proc cl_op] in He.
    apply bind_Some in He as ([[s cl'] dst] & Hf & He). injection He as <-.
    destruct (Hcalls i _ Hi) as (Hc & Eo & Ha & Hk). cbn [cl_rest cl_proc cl_op] in *.
    assert (so_far op (bytes_of i w)) as Hso by (destruct op; exact Ha).
    destruct (finish_ok c op (bytes_of i w) q _ s cl' dst Hc Eo Hso
      (Hk q (runs [LkPtable] c (sy_state x)) HI (conj eq_refl eq_refl)) Hf) as (new & q' & HI' & Hcl & Hq).
    eexists. eapply inv_put; try done.
    + apply list_lookup_insert_eq. by eapply lookup_lt_Some.
    + intros j Hne. by apply list_lookup_insert_ne.
  - apply bind_Some in He as (r & Hr & He).
    destruct (if b then pi_readopen r else pi_writeopen r) eqn:Eo; [|done].
    destruct (close_ok b q _ r HI Hr Eo) as (s' & E & HI'). rewrite E in He. injection He as <-.
    exists w. split; [|done|done]. by exists q.
Qed.

Lemma op_iwp_safe c op j q o :
  op_iwp c op j q o -> match o with Panic _ _ | Undef _ => False | _ => True end.
Proof. by destruct op, o. Qed.
End PipeCalls.

(** C33: Whatever the interleaving of the calls of [pipewrite] and [piperead]
    of any number of processes at their sleeps, of closes and of the rest of
    the kernel, and across the wrap-around of the 32-bit counters, a pipe is a
    queue.  The bytes the reads have returned so far, followed by the at most
    512 bytes in the ring buffer, are all the bytes that went in, in their
    order; and what went in are the bytes of the writes: of each write that
    returned [n] exactly its [n] bytes, of one that sleeps or returned -1 a
    prefix, in order.  A read returns as many bytes as it says, at most as
    many as it was asked for.  None of the calls panics, from its start or
    from its sleep. *)
Theorem pipe_fifo {WF : WakeFuel} {KI : KernelImage} p s0 r0 x :
  k_pipes s0 !! p = Some r0 -> pipe_wf r0 -> pipe_queue r0 = [] ->
  (length (k_procs s0) <= NPROC)%nat ->
  rtc (psys_step p (length (k_procs s0))) (mkpsys s0 [] []) x ->
  (exists r w, k_pipes (sy_state x) !! p = Some r /\ w.*2 = sy_read x ++ pipe_queue r /\
     (length (pipe_queue r) <= Z.to_nat PIPESIZE)%nat /\
     (forall i cl, sy_calls x !! i = Some cl -> accounted cl (bytes_of i w)) /\
     (forall i, (length (sy_calls x) <= i)%nat -> bytes_of i w = [])) /\
  (forall c op, (c < length (k_procs s0))%nat -> op_ok op = true ->
     match op_code p op (runs [] c (sy_state x)) with Panic _ _ | Undef _ => False | _ => True end) /\
  (forall i c op k, sy_calls x !! i = Some (mkcall c op (inl k)) ->
     match k (runs [LkPtable] c (sy_state x)) with Panic _ _ | Undef _ => False | _ => True end).
Proof.
  intros Hp W Hq HN Hr. set (N := length (k_procs s0)) in *.
  assert (exists w, sys_inv p N w x) as (w & [(q & HI & Hw) Hcalls Hnew]).
  { eapply (rtc_ind_r (fun x => exists w, sys_inv p N w x)); [| |exact Hr].
    - exists []. split; [|done|done]. exists []. split; [|done]. split; [done|]. by exists r0.
    - intros y z _ Hs [w I]. by eapply (psys_step_inv p N HN w y). }
  split_and!.
  - destruct HI as (Hl & r & Hr' & W' & <-). exists r, w. split_and!; [done..| | |done].
    + rewrite length_pipe_queue. pose proof (pw_len _ W'). lia.
    + intros i cl Hi. by apply (Hcalls i cl Hi).
  - intros c op Hc Ho. by eapply op_iwp_safe, start_ok.
  - intros i c op k Hi. destruct (Hcalls i _ Hi) as (Hc & Eo & _ & Hk).
    eapply op_iwp_safe, (Hk q); done.
Qed.

(** A reader sleeps on an empty pipe, a writer puts three bytes in and the
    reader goes on. *)
Definition fifo_events : list event := [Call 1 (OpRead 2); Call 0 (OpWrite [7; 8; 9] 3); Resume 0].

#[local] Instance fifo_wakeups : WakeFuel := 1%nat.
#[local] Instance fifo_image : KernelImage := Build_KernelImage 0 0 0 0 [] [].

Fixpoint pipe_events (x : psys) (l : list event) : option psys :=
  match l with
  | [] => Some x
  | e :: l => y ← pipe_event 4096 NPROC x e; pipe_events y l
  end.

Lemma pipe_events_rtc x l y : pipe_events x l = Some y -> rtc (psys_step 4096 NPROC) x y.
Proof.
  revert x. induction l as [|e l IH]; intros x H; [injection H as ->; constructor|].
  cbn [pipe_events] in H. apply bind_Some in H as (z & Hz & H).
  eapply rtc_l; [by eapply pe_event|by apply IH].
Qed.

Definition fifo_start : psys := mkpsys (pipe_state pipe_new) [] [].
Definition fifo_end : psys := default fifo_start (pipe_events fifo_start fifo_events).

Lemma fifo_reach : rtc (psys_step 4096 NPROC) fifo_start fifo_end.
Proof.
  apply (pipe_events_rtc _ fifo_events). unfold fifo_end.
  destruct (pipe_events fifo_start fifo_events) as [y|] eqn:E; [done|].
  exfalso. assert (is_Some (pipe_events fifo_start fifo_events)) as [y Hy]; [|congruence].
  apply (bool_decide_eq_true (is_Some _)). vm_compute. reflexivity.
Qed.

Lemma pipe_fifo_witness :
  sy_read fifo_end = [7; 8] /\
  exists r (w : list (nat * Z)), k_pipes (sy_state fifo_end) !! 4096 = Some r /\ w.*2 = sy_read fifo_end ++ pipe_queue r.
Proof.
  split; [vm_compute; reflexivity|].
  destruct (pipe_fifo 4096 (pipe_state pipe_new) pipe_new fifo_end) as [(r & w & H1 & H2 & _) _].
  - reflexivity.
  - exact pipe_new_wf.
  - reflexivity.
  - apply Nat.leb_le. vm_compute. reflexivity.
  - exact fifo_reach.
  - exists r, w. split; [exact H1|exact H2].
Defined.
