(* ===== verification/File.v ===== *)
(** * The file table ([file.c]) and [pipealloc] ([pipe.c])

    [fileread] returns the bytes it stores at [addr], [filewrite] takes the
    bytes there. *)

From S2P Require Import Prelude Monad State Strings Sched Bio BioSpec Layout Log Inode Console.
From S2P Require Import Content Kalloc Pipe.

Section File.
Context {WF : WakeFuel} {KI : KernelImage}.

Definition filealloc : K (option nat) :=
  acquire LkFtable;;
  r ← scan (seq 0 NFILE) (fun f =>
    r ← getfile f;
    if f_ref r =? 0 then
      modify (upd_file f (set_f_ref 1));;
      release LkFtable;;
      mret (Some f)
    else mret None);
  match r with
  | Some f => mret (Some f)
  | None => release LkFtable;; mret None
  end.

Definition filedup (f : nat) : K nat :=
  acquire LkFtable;;
  r ← getfile f;
  if f_ref r <? 1 then panic "filedup"
  else
    modify (upd_file f (set_f_ref (f_ref r + 1)));;
    release LkFtable;;
    mret f.

Definition fileclose (f : nat) : K unit :=
  acquire LkFtable;;
  r ← getfile f;
  if f_ref r <? 1 then panic "fileclose"
  else
    modify (upd_file f (set_f_ref (f_ref r - 1)));;
    if 0 <? f_ref r - 1 then release LkFtable
    else
      ff ← getfile f;
      modify (upd_file f (set_f_ref 0));;
      modify (upd_file f (set_f_type FD_NONE));;
      release LkFtable;;
      match f_type ff with
      | FD_PIPE => pipeclose (f_pipe ff) (f_writable ff)
      | FD_INODE =>
          begin_op;;
          iput (f_ip ff);;
          end_op
      | FD_NONE => mret tt
      end.

Definition filestat (f : nat) : K (option stat) :=
  r ← getfile f;
  match f_type r with
  | FD_INODE =>
      ilock (f_ip r);;
      st ← stati (f_ip r);
      iunlock (f_ip r);;
      mret (Some st)
  | _ => mret None
  end.

Definition fileread (f : nat) (n : Z) : K (Z * list Z) :=
  r ← getfile f;
  if negb (f_readable r) then mret (-1, [])
  else
    match f_type r with
    | FD_PIPE => piperead (f_pipe r) n
    | FD_INODE =>
        ilock (f_ip r);;
        r ← getfile f;
        '(x, dst) ← readi (f_ip r) (f_off r) (u32 n);
        let x := s32 x in
        when (0 <? x) (modify (upd_file f (fun r => set_f_off (u32 (f_off r + x)) r)));;
        iunlock (f_ip r);;
        mret (x, dst)
    | FD_NONE => panic "fileread"
    end.

(** [max] of [filewrite]. *)
Definition filewrite_max : Z := (LOGSIZE - 1 - 1 - 2) / 2 * 512.

Definition filewrite (f : nat) (src : list Z) (n : Z) : K Z :=
  r ← getfile f;
  if negb (f_writable r) then mret (-1)
  else
    match f_type r with
    | FD_PIPE => pipewrite (f_pipe r) src n
    | FD_INODE =>
        i ← loop (Z.to_nat (n / filewrite_max) + 3) (fun i =>
          if i <? n then
            let n1 := Z.min (n - i) filewrite_max in
            begin_op;;
            r ← getfile f;
            ilock (f_ip r);;
            r ← getfile f;
            x ← writei (f_ip r) (drop (Z.to_nat i) src) (f_off r) n1;
            when (0 <? x) (modify (upd_file f (fun r => set_f_off (u32 (f_off r + x)) r)));;
            iunlock (f_ip r);;
            end_op;;
            if x <? 0 then mret (inr i)
            else if negb (x =? n1) then panic "short filewrite"
            else mret (inl (i + x))
          else mret (inr i)) 0;
        mret (if i =? n then n else -1)
    | FD_NONE => panic "filewrite"
    end.

(** [pipealloc].  The locals [*f0] and [*f1] are options; the label [bad]
    closes whatever was opened. *)
Definition close_opt (f : option nat) : K unit :=
  match f with
  | Some f => fileclose f
  | None => mret tt
  end.

Definition pipe_ends (p : Z) (f0 f1 : nat) : K unit :=
  modify (upd_file f0 (set_f_type FD_PIPE));;
  modify (upd_file f0 (set_f_readable true));;
  modify (upd_file f0 (set_f_writable false));;
  modify (upd_file f0 (set_f_pipe p));;
  modify (upd_file f1 (set_f_type FD_PIPE));;
  modify (upd_file f1 (set_f_readable false));;
  modify (upd_file f1 (set_f_writable true));;
  modify (upd_file f1 (set_f_pipe p)).

Definition pipealloc : K (option (nat * nat)) :=
  f0 ← filealloc;
  match f0 with
  | None => mret None
  | Some f0 =>
      f1 ← filealloc;
      match f1 with
      | None => close_opt (Some f0);; close_opt None;; mret None
      | Some f1 =>
          p ← kalloc;
          if p =? 0 then close_opt (Some f0);; close_opt (Some f1);; mret None
          else
            m ← gets k_mem;
            modify (fun s => set_k_pipes
              (<[p := mkpipe (load (p + 52) (Z.to_nat PIPESIZE) m) 0 0 true true]> (k_pipes s)) s);;
            pipe_ends p f0 f1;;
            mret (Some (f0, f1))
      end
  end.

End File.
