(* ===== verification/Vm.v ===== *)
(** * Virtual memory ([vm.c])

    Page directories and page tables live in [k_mem], in pages from
    [kalloc]; a [pde_t*] or [pte_t*] is an address, 0 the null pointer.
    Segment descriptors and the task state segment ([seginit], and the part
    of [switchuvm] that sets the kernel stack) are in [Segments.v]. *)

From S2P Require Import Prelude Monad State Strings Sched Bio BioSpec Layout Log Inode Console.
From S2P Require Import Content Kalloc.

Definition PTE_P : Z := 1.
Definition PTE_W : Z := 2.
Definition PTE_U : Z := 4.
Definition NPDENTRIES : Z := 1024.
Definition NPTENTRIES : Z := 1024.

Definition PDX (va : Z) : Z := Z.land (Z.shiftr va 22) 1023.
Definition PTX (va : Z) : Z := Z.land (Z.shiftr va 12) 1023.
Definition PTE_ADDR (pte : Z) : Z := Z.land pte (Z.lnot 4095).
Definition PTE_FLAGS (pte : Z) : Z := Z.land pte 4095.

Definition ldmem (a : Z) : K Z := gets (fun s => ldw (k_mem s) a).
Definition stmem (a x : Z) : K unit := modify (fun s => set_k_mem (stw a x (k_mem s)) s).
Definition setmem (a c n : Z) : K unit := modify (fun s => set_k_mem (memset a c n (k_mem s)) s).
Definition putmem (a : Z) (l : list Z) : K unit := modify (fun s => set_k_mem (store a l (k_mem s)) s).

Section Vm.
Context {WF : WakeFuel} {KI : KernelImage}.

Definition walkpgdir (pgdir va : Z) (alloc : bool) : K Z :=
  let pde := pgdir + 4 * PDX va in
  e ← ldmem pde;
  if has e PTE_P then mret (p2v (PTE_ADDR e) + 4 * PTX va)
  else if negb alloc then mret 0
  else
    pgtab ← kalloc;
    if pgtab =? 0 then mret 0
    else
      setmem pgtab 0 PGSIZE;;
      stmem pde (Z.lor (Z.lor (Z.lor (v2p pgtab) PTE_P) PTE_W) PTE_U);;
      mret (pgtab + 4 * PTX va).

(** [mappages]: one round per page. *)
Definition mappages (pgdir va size pa perm : Z) : K Z :=
  let last := PGROUNDDOWN (u32 (va + size - 1)) in
  loop (Z.to_nat (size / PGSIZE) + 3) (fun '(a, pa) =>
    pte ← walkpgdir pgdir a true;
    if pte =? 0 then mret (inr (-1))
    else
      e ← ldmem pte;
      if has e PTE_P then panic "remap"
      else
        stmem pte (Z.lor (Z.lor pa perm) PTE_P);;
        if a =? last then mret (inr 0)
        else mret (inl (u32 (a + PGSIZE), u32 (pa + PGSIZE)))) (PGROUNDDOWN va, pa).

(** The table [kmap]: virtual address, physical start and end, permissions. *)
Definition kmap : list (Z * Z * Z * Z) :=
  [ (KERNBASE, 0, EXTMEM, PTE_W);
    (KERNLINK, v2p KERNLINK, v2p img_data, 0);
    (img_data, v2p img_data, PHYSTOP, PTE_W);
    (DEVSPACE, DEVSPACE, 0, PTE_W) ].

Definition setupkvm : K Z :=
  pgdir ← kalloc;
  if pgdir =? 0 then mret 0
  else
    setmem pgdir 0 PGSIZE;;
    if DEVSPACE <? p2v PHYSTOP then panic "PHYSTOP too high"
    else
      r ← scan kmap (fun '(virt, start, stop, perm) =>
        x ← mappages pgdir virt (u32 (stop - start)) start perm;
        mret (if x <? 0 then Some tt else None));
      mret (match r with Some _ => 0 | None => pgdir end).

Definition switchkvm : K unit :=
  kpgdir ← gets k_kpgdir;
  modify (set_k_cr3 (v2p kpgdir)).

Definition kvmalloc : K unit :=
  p ← setupkvm;
  modify (set_k_kpgdir p);;
  switchkvm.

Definition switchuvm (p : nat) : K unit :=
  r ← getproc p;
  if p_pgdir r =? 0 then panic "switchuvm: no pgdir"
  else modify (set_k_cr3 (v2p (p_pgdir r))).

Definition inituvm (pgdir : Z) (init : list Z) (sz : Z) : K unit :=
  if PGSIZE <=? sz then panic "inituvm: more than a page"
  else
    m ← kalloc;
    if m =? 0 then undef
    else
      setmem m 0 PGSIZE;;
      mappages pgdir 0 PGSIZE (v2p m) (Z.lor PTE_W PTE_U);;
      putmem m (take (Z.to_nat sz) init).

Definition loaduvm (pgdir addr : Z) (ip : nat) (offset sz : Z) : K Z :=
  if negb (addr mod PGSIZE =? 0) then panic "loaduvm: addr must be page aligned"
  else
    loop (Z.to_nat (sz / PGSIZE) + 2) (fun i =>
      if i <? sz then
        pte ← walkpgdir pgdir (u32 (addr + i)) false;
        if pte =? 0 then panic "loaduvm: address should exist"
        else
          e ← ldmem pte;
          let pa := PTE_ADDR e in
          let n := if sz - i <? PGSIZE then sz - i else PGSIZE in
          '(r, dst) ← readi ip (u32 (offset + i)) n;
          putmem (p2v pa) dst;;
          if negb (u32 r =? n) then mret (inr (-1)) else mret (inl (i + PGSIZE))
      else mret (inr 0)) 0.

Definition deallocuvm (pgdir oldsz newsz : Z) : K Z :=
  if oldsz <=? newsz then mret oldsz
  else
    loop (Z.to_nat (oldsz / PGSIZE) + 2) (fun a =>
      if a <? oldsz then
        pte ← walkpgdir pgdir a false;
        if pte =? 0 then mret (inl (u32 (a + (NPTENTRIES - 1) * PGSIZE + PGSIZE)))
        else
          e ← ldmem pte;
          if has e PTE_P then
            let pa := PTE_ADDR e in
            if pa =? 0 then panic "kfree"
            else
              kfree (p2v pa);;
              stmem pte 0;;
              mret (inl (u32 (a + PGSIZE)))
          else mret (inl (u32 (a + PGSIZE)))
      else mret (inr newsz)) (PGROUNDUP newsz).

(** ["allocuvm out of memory\n"] *)
Definition str_allocuvm : list Z :=
  [97; 108; 108; 111; 99; 117; 118; 109; 32; 111; 117; 116; 32; 111; 102; 32; 109; 101; 109;
   111; 114; 121; 10].

Definition allocuvm (pgdir oldsz newsz : Z) : K Z :=
  if KERNBASE <=? newsz then mret 0
  else if newsz <? oldsz then mret oldsz
  else
    loop (Z.to_nat (newsz / PGSIZE) + 2) (fun a =>
      if a <? newsz then
        m ← kalloc;
        if m =? 0 then
          cprintf str_allocuvm [];;
          deallocuvm pgdir newsz oldsz;;
          mret (inr 0)
        else
          setmem m 0 PGSIZE;;
          mappages pgdir a PGSIZE (v2p m) (Z.lor PTE_W PTE_U);;
          mret (inl (a + PGSIZE))
      else mret (inr newsz)) (PGROUNDUP oldsz).

Definition freevm (pgdir : Z) : K unit :=
  if pgdir =? 0 then panic "freevm: no pgdir"
  else
    deallocuvm pgdir KERNBASE 0;;
    for_each (seq 0 (Z.to_nat NPDENTRIES)) (fun i =>
      e ← ldmem (pgdir + 4 * Z.of_nat i);
      when (has e PTE_P) (kfree (p2v (PTE_ADDR e))));;
    kfree pgdir.

Definition clearpteu (pgdir uva : Z) : K unit :=
  pte ← walkpgdir pgdir uva false;
  if pte =? 0 then panic "clearpteu"
  else
    e ← ldmem pte;
    stmem pte (Z.land e (Z.lnot PTE_U)).

Definition copyuvm (pgdir sz : Z) : K Z :=
  d ← setupkvm;
  if d =? 0 then mret 0
  else
    loop (Z.to_nat (sz / PGSIZE) + 2) (fun i =>
      if i <? sz then
        pte ← walkpgdir pgdir i false;
        if pte =? 0 then panic "copyuvm: pte should exist"
        else
          e ← ldmem pte;
          if negb (has e PTE_P) then panic "copyuvm: page not present"
          else
            m ← kalloc;
            if m =? 0 then freevm d;; mret (inr 0)
            else
              modify (fun s => set_k_mem (memmove m (p2v (PTE_ADDR e)) PGSIZE (k_mem s)) s);;
              x ← mappages d i PGSIZE (v2p m) (PTE_FLAGS e);
              if x <? 0 then freevm d;; mret (inr 0)
              else mret (inl (i + PGSIZE))
      else mret (inr d)) 0.

Definition uva2ka (pgdir uva : Z) : K Z :=
  pte ← walkpgdir pgdir uva false;
  if pte =? 0 then undef
  else
    e ← ldmem pte;
    if negb (has e PTE_P) then mret 0
    else if negb (has e PTE_U) then mret 0
    else mret (p2v (PTE_ADDR e)).

Definition copyout (pgdir va : Z) (buf : list Z) (len : Z) : K Z :=
  loop (Z.to_nat (len / PGSIZE) + 3) (fun '(va, buf, len) =>
    if 0 <? len then
      let va0 := PGROUNDDOWN va in
      pa0 ← uva2ka pgdir va0;
      if pa0 =? 0 then mret (inr (-1))
      else
        let n := Z.min (PGSIZE - (va - va0)) len in
        putmem (pa0 + (va - va0)) (take (Z.to_nat n) buf);;
        mret (inl (u32 (va0 + PGSIZE), drop (Z.to_nat n) buf, len - n))
    else mret (inr 0)) (va, buf, len).

(** ** User memory under the page table in use

    The kernel follows user pointers through the current page table; an
    address that is not mapped traps, and a trap in the kernel panics.  A
    store also needs [PTE_W], since [entry.S] sets [CR0_WP]; the test is left
    out because the kernel maps every user page with [PTE_W]. *)

Definition user_addr (va : Z) : K Z :=
  cr3 ← gets k_cr3;
  pde ← ldmem (p2v cr3 + 4 * PDX va);
  if negb (has pde PTE_P) then panic "trap"
  else
    pte ← ldmem (p2v (PTE_ADDR pde) + 4 * PTX va);
    if negb (has pte PTE_P) then panic "trap"
    else mret (p2v (PTE_ADDR pte) + va mod PGSIZE).

Definition uload1 (va : Z) : K Z :=
  a ← user_addr va;
  gets (fun s => ldb (k_mem s) a).

Definition ustore1 (va x : Z) : K unit :=
  a ← user_addr va;
  modify (fun s => set_k_mem (stb a x (k_mem s)) s).

Fixpoint uload (va : Z) (n : nat) : K (list Z) :=
  match n with
  | O => mret []
  | S n' =>
      x ← uload1 va;
      l ← uload (va + 1) n';
      mret (x :: l)
  end.

Fixpoint ustore (va : Z) (l : list Z) : K unit :=
  match l with
  | [] => mret tt
  | x :: l' =>
      ustore1 va x;;
      ustore (va + 1) l'
  end.

End Vm.
