(* ===== verification/VmSpec.v ===== *)
(** * Page tables as maps ([vm.c])

    A page directory stands for the map from page addresses to the entries of
    its page tables.  [walkpgdir] finds an entry or adds a table, [mappages]
    fills a range of entries, and neither touches other pages. *)

From S2P Require Import Prelude Monad State Strings Sched Bio BioSpec Layout Log Inode Console.
From S2P Require Import Content Kalloc Vm.

(** ** Words and pages *)

Lemma load_agree a n m m' :
  (forall x, a <= x < a + Z.of_nat n -> m' !! x = m !! x) -> load a n m' = load a n m.
Proof.
  intros H. unfold load. apply map_ext_in. intros i Hi%in_seq. unfold ldb. rewrite H; [done|lia].
Qed.

Lemma ldw_agree a m m' : (forall x, a <= x < a + 4 -> m' !! x = m !! x) -> ldw m' a = ldw m a.
Proof. intros H. unfold ldw. f_equal. by apply load_agree. Qed.

Lemma stw_out a x m y : ~ (a <= y < a + 4) -> stw a x m !! y = m !! y.
Proof. intros H. unfold stw. apply store_out. rewrite length_le_enc. lia. Qed.

Lemma ldw_stw_ne a b x m : a + 4 <= b \/ b + 4 <= a -> ldw (stw a x m) b = ldw m b.
Proof. intros H. apply ldw_agree. intros y Hy. apply stw_out. lia. Qed.

Lemma ldw_zero a n c m :
  a <= c -> c + 4 <= a + Z.of_nat n -> ldw (store a (replicate n 0) m) c = 0.
Proof.
  intros H1 H2. unfold ldw.
  assert (load c 4 (store a (replicate n 0) m) = replicate 4 0) as ->; [|done].
  apply list_eq. intros i. destruct (decide (i < 4)%nat) as [Hi|Hi].
  - rewrite lookup_load by done. rewrite lookup_replicate_2 by done. f_equal. unfold ldb.
    rewrite lookup_store, decide_True by (rewrite length_replicate; lia).
    rewrite lookup_replicate_2 by lia. done.
  - rewrite !lookup_ge_None_2; [done|rewrite length_replicate; lia|rewrite length_load; lia].
Qed.

#[local] Opaque memset store.

Lemma setmem_run a c n s : setmem a c n s = Ret tt (set_k_mem (memset a c n (k_mem s)) s).
Proof. reflexivity. Qed.
Lemma stmem_run a x s : stmem a x s = Ret tt (set_k_mem (stw a x (k_mem s)) s).
Proof. reflexivity. Qed.

Section Vm.
Context {WF : WakeFuel} {KI : KernelImage}.

(** Pages lie above [KERNBASE], where physical memory is mapped. *)
Lemma page_kern v : page v -> KERNBASE <= v < KERNBASE + PHYSTOP /\ v mod 4096 = 0.
Proof.
  intros (Hm & _ & Hp & Hr). unfold v2p, u32 in Hp. change (2 ^ 32) with 4294967296 in Hp.
  unfold KERNBASE, PHYSTOP, PGSIZE in *. split; [|done].
  destruct (decide (2147483648 <= v)) as [H|H].
  - rewrite Z.mod_small in Hp by lia. lia.
  - rewrite <- (Z.mod_unique (v - 2147483648) 4294967296 (-1) (v + 2147483648)) in Hp by lia. lia.
Qed.

Lemma v2p_page v : page v -> v2p v = v - KERNBASE.
Proof.
  intros [H _]%page_kern. unfold v2p, KERNBASE, PHYSTOP in *. apply u32_id. lia.
Qed.

Lemma p2v_v2p v : page v -> p2v (v2p v) = v.
Proof.
  intros Hp. rewrite v2p_page by done. apply page_kern in Hp as [Hv _]. unfold p2v, KERNBASE, PHYSTOP in *.
  rewrite u32_id; lia.
Qed.

(** An aligned address with flags. *)
Lemma lor_flags pa f : pa mod 4096 = 0 -> 0 <= f < 4096 -> Z.lor pa f = pa + f.
Proof.
  intros Hp Hf. symmetry. apply Z.add_nocarry_lor, Z.bits_inj'. intros n Hn. rewrite Z.land_spec, Z.bits_0.
  destruct (decide (n < 12)) as [H|H].
  - assert (Z.testbit pa n = false) as ->; [|done].
    rewrite <- (Z.mod_pow2_bits_low pa 12 n) by lia. change (2 ^ 12) with 4096. by rewrite Hp, Z.bits_0.
  - assert (Z.testbit f n = false) as ->; [|apply andb_false_r].
    rewrite <- (Z.mod_small f (2 ^ 12)) by (change (2 ^ 12) with 4096; lia). apply Z.mod_pow2_bits_high. lia.
Qed.

Lemma PTE_ADDR_eq e : PTE_ADDR e = e / 4096 * 4096.
Proof.
  unfold PTE_ADDR. change 4095 with (Z.ones 12). rewrite <- Z.ldiff_land, Z.ldiff_ones_r by lia.
  by rewrite Z.shiftl_mul_pow2, Z.shiftr_div_pow2 by lia.
Qed.

Lemma PTE_FLAGS_eq e : PTE_FLAGS e = e mod 4096.
Proof. unfold PTE_FLAGS. change 4095 with (Z.ones 12). by rewrite Z.land_ones by lia. Qed.

Lemma PTE_ADDR_flags pa f : pa mod 4096 = 0 -> 0 <= f < 4096 -> PTE_ADDR (Z.lor pa f) = pa.
Proof.
  intros Hp Hf. rewrite lor_flags, PTE_ADDR_eq by done. pose proof (Z.div_mod pa 4096).
  rewrite <- (Z.div_unique (pa + f) 4096 (pa / 4096) f); lia.
Qed.

Lemma PTE_FLAGS_flags pa f : pa mod 4096 = 0 -> 0 <= f < 4096 -> PTE_FLAGS (Z.lor pa f) = f.
Proof.
  intros Hp Hf. rewrite lor_flags, PTE_FLAGS_eq by done. rewrite Z.add_mod, Hp, Z.add_0_l, Z.mod_mod by lia.
  apply Z.mod_small. lia.
Qed.

Lemma has_P e : has e PTE_P = Z.odd e.
Proof.
  unfold has, PTE_P. change 1 with (Z.ones 1) at 1. rewrite Z.land_ones by lia. change (2 ^ 1) with 2.
  rewrite Zmod_odd. by destruct (Z.odd e).
Qed.

Lemma PDX_eq va : PDX va = (va / 4194304) mod 1024.
Proof.
  unfold PDX. change 1023 with (Z.ones 10). rewrite Z.land_ones by lia.
  by rewrite Z.shiftr_div_pow2 by lia.
Qed.

Lemma PTX_eq va : PTX va = (va / 4096) mod 1024.
Proof.
  unfold PTX. change 1023 with (Z.ones 10). rewrite Z.land_ones by lia.
  by rewrite Z.shiftr_div_pow2 by lia.
Qed.

(** Pages of the address space: aligned 32-bit addresses. *)
Definition vpage (va : Z) : Prop := va mod 4096 = 0 /\ 0 <= va < 4294967296.

Lemma PDX_range va : 0 <= PDX va < 1024.
Proof. rewrite PDX_eq. apply Z.mod_pos_bound. lia. Qed.
Lemma PTX_range va : 0 <= PTX va < 1024.
Proof. rewrite PTX_eq. apply Z.mod_pos_bound. lia. Qed.

Lemma vpage_inj va va' : vpage va -> vpage va' -> PDX va = PDX va' -> PTX va = PTX va' -> va = va'.
Proof.
  intros [Ha Hr] [Ha' Hr']. rewrite !PDX_eq, !PTX_eq.
  assert (forall x, 0 <= x < 4294967296 -> x / 4194304 = x / 4096 / 1024) as E.
  { intros x Hx. rewrite Z.div_div by lia. done. }
  rewrite !E by done. pose proof (Z.div_mod va 4096). pose proof (Z.div_mod va' 4096).
  pose proof (Z.div_mod (va / 4096) 1024). pose proof (Z.div_mod (va' / 4096) 1024).
  intros HD HT.
  assert (0 <= va / 4096 / 1024 < 1024) as B by (rewrite Z.div_div by lia; split; [apply Z.div_pos; lia|apply Z.div_lt_upper_bound; lia]).
  assert (0 <= va' / 4096 / 1024 < 1024) as B' by (rewrite Z.div_div by lia; split; [apply Z.div_pos; lia|apply Z.div_lt_upper_bound; lia]).
  rewrite !Z.mod_small in HD by lia. lia.
Qed.

(** ** Page tables *)

(** A page directory with its page tables, by index. *)
Record ptab := mkptab { pt_dir : Z; pt_tabs : gmap Z Z }.

Definition owns (P : ptab) (v : Z) : Prop := v = pt_dir P \/ exists i, pt_tabs P !! i = Some v.

Definition pde (t : Z) : Z := Z.lor (Z.lor (Z.lor (v2p t) PTE_P) PTE_W) PTE_U.

Record pt_wf (m : mem) (P : ptab) : Prop := {
  pw_dir : page (pt_dir P);
  pw_tab i t : pt_tabs P !! i = Some t -> page t /\ 0 <= i < 1024 /\ ldw m (pt_dir P + 4 * i) = pde t;
  pw_none i : 0 <= i < 1024 -> pt_tabs P !! i = None -> has (ldw m (pt_dir P + 4 * i)) PTE_P = false;
  pw_inj i j t : pt_tabs P !! i = Some t -> pt_tabs P !! j = Some t -> i = j;
  pw_ne i : pt_tabs P !! i <> Some (pt_dir P);
}.

(** The entry of a page; 0 when its table is missing. *)
Definition ent (m : mem) (P : ptab) (va : Z) : Z :=
  match pt_tabs P !! PDX va with
  | Some t => ldw m (t + 4 * PTX va)
  | None => 0
  end.

(** Memory that agrees on the pages that are neither free nor of the table. *)
Definition keeps (l : list Z) (P : ptab) (m m' : mem) : Prop :=
  forall v a, page v -> (v ∉ l) -> ~ owns P v -> v <= a < v + PGSIZE -> m' !! a = m !! a.

(** The table and the free pages [l]. *)
Record vm_inv (s : kstate) (P : ptab) (l : list Z) : Prop := {
  vi_kmem : kmem_inv s l;
  vi_wf : pt_wf (k_mem s) P;
  vi_own v : v ∈ l -> ~ owns P v;
  vi_lock : LkKmem ∉ k_held s;
}.

Lemma pde_addr t : page t -> p2v (PTE_ADDR (pde t)) = t /\ has (pde t) PTE_P = true /\ 0 <= pde t < 4294967296.
Proof.
  intros Hp. pose proof (page_kern t Hp) as [Hr Hm]. pose proof (v2p_page t Hp) as E.
  assert (v2p t mod 4096 = 0) as Hm'.
  { rewrite E. unfold KERNBASE. rewrite Zminus_mod, Hm. done. }
  assert (pde t = Z.lor (v2p t) 7) as ->.
  { unfold pde. rewrite <- !Z.lor_assoc. done. }
  split_and!.
  - rewrite PTE_ADDR_flags by (done || lia). by apply p2v_v2p.
  - rewrite has_P, lor_flags by (done || lia). rewrite Z.odd_add.
    pose proof (Z.div_mod (v2p t) 4096) as Hd. rewrite Hm' in Hd.
    replace (v2p t) with (2 * (2048 * (v2p t / 4096))) by lia. by rewrite Z.odd_mul.
  - rewrite lor_flags by (done || lia). unfold KERNBASE, PHYSTOP in *. lia.
  - rewrite lor_flags by (done || lia). unfold KERNBASE, PHYSTOP in *. lia.
Qed.

Lemma page_word v i : page v -> 0 <= i < 1024 -> v <= v + 4 * i /\ v + 4 * i + 4 <= v + PGSIZE.
Proof. unfold PGSIZE. lia. Qed.

(** A word of one page is not in another. *)
Lemma page_words v w i : page v -> page w -> v <> w -> 0 <= i < 1024 ->
  forall a, w <= a < w + PGSIZE -> ~ (v + 4 * i <= a < v + 4 * i + 4).
Proof.
  intros Hv Hw Hne Hi a Ha. pose proof (page_disjoint v w Hv Hw Hne). unfold PGSIZE in *. lia.
Qed.

(** A table grows by pages from the front of the free list. *)
Definition grows (P P' : ptab) (l l' : list Z) : Prop :=
  pt_dir P' = pt_dir P /\ exists news, l = news ++ l' /\
    (forall v, owns P' v <-> owns P v \/ v ∈ news) /\ size (pt_tabs P') = (size (pt_tabs P) + length news)%nat.

Definition only_mem (s s' : kstate) : Prop := s' = set_k_freelist (k_freelist s') (set_k_mem (k_mem s') s).

Lemma only_mem_refl s : only_mem s s.
Proof. unfold only_mem. by destruct s. Qed.

Lemma only_mem_trans s1 s2 s3 : only_mem s1 s2 -> only_mem s2 s3 -> only_mem s1 s3.
Proof. unfold only_mem. intros -> E. rewrite E at 1. by destruct s1, s3. Qed.

Lemma grows_refl P l : grows P P l l.
Proof. split; [done|]. exists []. split; [done|]. split; [set_solver|simpl; lia]. Qed.

Lemma grows_trans P1 P2 P3 l1 l2 l3 : grows P1 P2 l1 l2 -> grows P2 P3 l2 l3 -> grows P1 P3 l1 l3.
Proof.
  intros [E1 (n1 & -> & O1 & S1)] [E2 (n2 & -> & O2 & S2)]. split; [congruence|].
  exists (n1 ++ n2). split; [by rewrite app_assoc|]. split; [|rewrite length_app; lia].
  intros v. rewrite O2, O1, elem_of_app. tauto.
Qed.

Lemma keeps_trans l1 l2 P1 P2 m1 m2 m3 :
  keeps l1 P1 m1 m2 -> keeps l2 P2 m2 m3 -> grows P1 P2 l1 l2 -> keeps l1 P1 m1 m3.
Proof.
  intros K1 K2 [_ (n & -> & O & _)] v a Hv Hl Ho Ha. rewrite (K2 v), (K1 v); try done; [set_solver|]. rewrite O. set_solver.
Qed.

(** Writing a word of a page of the table keeps the free list and the other
    pages. *)
Lemma kmem_inv_write s l v m :
  kmem_inv s l -> page v -> v ∉ l -> same_outside v (k_mem s) m -> kmem_inv (set_k_mem m s) l.
Proof. intros [Hf Hn] Hv Hl Hs. split; [|done]. by eapply flist_outside. Qed.

Lemma flist_pages m r l : flist m r l -> Forall page l.
Proof.
  revert r. induction l as [|v l IH]; intros r; [by constructor|]. intros (_ & Hv & Hl). constructor; [done|by eapply IH].
Qed.

Lemma owns_page m P v : pt_wf m P -> owns P v -> page v.
Proof. intros W [->|[i Hi]]; [apply W|by destruct (pw_tab m P W i v Hi)]. Qed.

Lemma walk_found s P va t b :
  pt_wf (k_mem s) P -> pt_tabs P !! PDX va = Some t ->
  walkpgdir (pt_dir P) va b s = Ret (t + 4 * PTX va) s.
Proof.
  intros W Ht. destruct (pw_tab _ _ W _ _ Ht) as (Hp & _ & E). unfold walkpgdir. kstep.
  rewrite E. destruct (pde_addr t Hp) as (E1 & E2 & _). by rewrite E2, E1.
Qed.

Lemma walk_none s P va :
  pt_wf (k_mem s) P -> pt_tabs P !! PDX va = None -> walkpgdir (pt_dir P) va false s = Ret 0 s.
Proof.
  intros W Ht. unfold walkpgdir. kstep. rewrite (pw_none _ _ W); [done|apply PDX_range|done].
Qed.

Lemma walk_full s P va :
  vm_inv s P [] -> pt_tabs P !! PDX va = None -> walkpgdir (pt_dir P) va true s = Ret 0 s.
Proof.
  intros [Hk W _ Hl] Ht. unfold walkpgdir. kstep. rewrite (pw_none _ _ W); [|apply PDX_range|done]. cbn [negb].
  destruct (wp_kalloc [] s Hl Hk) as (r & s1 & Hr & -> & ->). by rewrite (bind_Ret _ _ _ _ _ Hr).
Qed.

(** The memory after a new table was added. *)
Lemma new_table m P i t l :
  pt_wf m P -> page t -> ~ owns P t -> t ∉ l -> 0 <= i < 1024 -> pt_tabs P !! i = None ->
  let m' := stw (pt_dir P + 4 * i) (pde t) (memset t 0 PGSIZE m) in
  let P' := mkptab (pt_dir P) (<[i := t]> (pt_tabs P)) in
  pt_wf m' P' /\ (forall va, ent m' P' va = ent m P va) /\ keeps (t :: l) P m m' /\
  (forall a, ~ (t <= a < t + PGSIZE) -> ~ (pt_dir P <= a < pt_dir P + PGSIZE) -> m' !! a = m !! a).
Proof.
  intros W Ht Ho Hl Hi Hn. cbv zeta. rewrite memset_ok by (unfold PGSIZE; lia). change (u8 0) with 0.
  set (m1 := store t _ m). pose proof (pw_dir _ _ W) as Hd.
  assert (t <> pt_dir P) as Htd by (intros ->; apply Ho; by left).
  assert (forall a, ~ (t <= a < t + PGSIZE) -> m1 !! a = m !! a) as M0.
  { intros a Ha. unfold m1. apply store_out. rewrite length_replicate. unfold PGSIZE in *. lia. }
  assert (forall v a, page v -> v <> t -> v <= a < v + PGSIZE -> m1 !! a = m !! a) as M1.
  { intros v a Hv Hne Ha. apply M0. pose proof (page_disjoint v t Hv Ht Hne). unfold PGSIZE in *. lia. }
  assert (forall j, 0 <= j < 1024 -> ldw m1 (t + 4 * j) = 0) as Z1.
  { intros j Hj. unfold m1. apply ldw_zero; unfold PGSIZE; lia. }
  clearbody m1.
  assert (forall v a, page v -> v <> t -> v <> pt_dir P -> v <= a < v + PGSIZE ->
    stw (pt_dir P + 4 * i) (pde t) m1 !! a = m !! a) as M2.
  { intros v a Hv Hne Hnd Ha. rewrite stw_out by (by apply (page_words (pt_dir P) v)). by apply (M1 v). }
  assert (forall v j, page v -> v <> t -> v <> pt_dir P -> 0 <= j < 1024 ->
    ldw (stw (pt_dir P + 4 * i) (pde t) m1) (v + 4 * j) = ldw m (v + 4 * j)) as L2.
  { intros v j Hv Hne Hnd Hj. apply ldw_agree. intros x Hx. apply (M2 v); try done. unfold PGSIZE. lia. }
  assert (forall j, 0 <= j < 1024 -> j <> i ->
    ldw (stw (pt_dir P + 4 * i) (pde t) m1) (pt_dir P + 4 * j) = ldw m (pt_dir P + 4 * j)) as L3.
  { intros j Hj Hne. rewrite ldw_stw_ne by lia. apply ldw_agree. intros x Hx. apply (M1 (pt_dir P)); try done.
    unfold PGSIZE. lia. }
  split; [|split; [|split; [|intros a H1 H2; rewrite stw_out; [by apply M0|unfold PGSIZE in *; lia]]]].
  - split; cbn [pt_dir pt_tabs].
    + done.
    + intros j u [[<- <-]|[Hne Hj]]%lookup_insert_Some.
      * split; [done|]. split; [done|]. rewrite ldw_stw. apply u32_id. apply pde_addr. done.
      * destruct (pw_tab _ _ W j u Hj) as (? & ? & E). split; [done|]. split; [done|]. by rewrite L3.
    + intros j Hj [Hj' Hne]%lookup_insert_None. rewrite L3 by done. by apply W.
    + intros j k u [[<- <-]|[Hne Hj]]%lookup_insert_Some [[<- E]|[Hne' Hk]]%lookup_insert_Some; try done.
      * exfalso. apply Ho. right. eauto.
      * subst u. exfalso. apply Ho. right. eauto.
      * by eapply (pw_inj _ _ W).
    + intros j [[_ E]|[_ Hj]]%lookup_insert_Some; [done|by apply (pw_ne _ _ W) in Hj].
  - intros va. unfold ent. cbn [pt_tabs]. destruct (decide (PDX va = i)) as [->|Hne].
    + rewrite lookup_insert_eq, Hn. rewrite ldw_stw_ne.
      * pose proof (PTX_range va). apply Z1. lia.
      * pose proof (page_disjoint t (pt_dir P) Ht Hd Htd). pose proof (PTX_range va). unfold PGSIZE in *. lia.
    + rewrite lookup_insert_ne by done. destruct (pt_tabs P !! PDX va) as [u|] eqn:Eu; [|done].
      destruct (pw_tab _ _ W _ _ Eu) as (Hu & _). apply L2; [done| | |apply PTX_range].
      * intros ->. apply Ho. right. eauto.
      * intros ->. by apply (pw_ne _ _ W) in Eu.
  - intros v a Hv Hvl Hov Ha. apply (M2 v); try done; [set_solver|]. intros ->. apply Hov. by left.
Qed.

(** What [walkpgdir] with [alloc] does: the entry is there, or a table from
    the free list is added for it, or there is no free page. *)
Lemma walk_alloc s P l va :
  vm_inv s P l ->
  (exists s' P' l' t, walkpgdir (pt_dir P) va true s = Ret (t + 4 * PTX va) s' /\ vm_inv s' P' l' /\
     pt_tabs P' !! PDX va = Some t /\ grows P P' l l' /\
     (forall va', ent (k_mem s') P' va' = ent (k_mem s) P va') /\ keeps l P (k_mem s) (k_mem s') /\ only_mem s s') \/
  (walkpgdir (pt_dir P) va true s = Ret 0 s /\ pt_tabs P !! PDX va = None /\ l = []).
Proof.
  intros HI. destruct (pt_tabs P !! PDX va) as [t|] eqn:Et.
  { left. exists s, P, l, t. split; [apply walk_found; [apply HI|done]|]. split; [done|]. split; [done|].
    split; [apply grows_refl|]. split; [done|]. split; [done|apply only_mem_refl]. }
  destruct HI as [Hk W Ho Hl]. pose proof (PDX_range va) as Hi. unfold walkpgdir. kstep.
  rewrite (pw_none _ _ W) by done. cbn [negb].
  destruct (wp_kalloc l s Hl Hk) as (r & s1 & Hr & HQ). rewrite (bind_Ret _ _ _ _ _ Hr).
  destruct l as [|v l]; [right; by destruct HQ as [-> ->]|left]. destruct HQ as (-> & Hv & Hvl & Hk1 & E1).
  pose proof Hv as (_ & _ & _ & Hv0). rewrite (proj2 (Z.eqb_neq v 0)) by lia.
  assert (k_mem s1 = k_mem s) as Em by (by rewrite E1).
  assert (~ owns P v) as Hov by (apply Ho; by left).
  destruct (new_table (k_mem s) P (PDX va) v l W Hv Hov Hvl Hi Et) as (W' & He & HK & Hm). cbv zeta in *.
  rewrite (bind_Ret _ _ _ _ _ (setmem_run _ _ _ _)), (bind_Ret _ _ _ _ _ (stmem_run _ _ _)).
  cbn [k_mem set_k_mem]. rewrite Em. fold (pde v).
  set (m' := stw (pt_dir P + 4 * PDX va) (pde v) (memset v 0 PGSIZE (k_mem s))) in *. clearbody m'.
  eexists _, (mkptab (pt_dir P) (<[PDX va := v]> (pt_tabs P))), l, v. split; [done|].
  assert (forall x, owns (mkptab (pt_dir P) (<[PDX va := v]> (pt_tabs P))) x <-> owns P x \/ x ∈ [v]) as Hown.
  { intros x. unfold owns. cbn [pt_dir pt_tabs]. rewrite list_elem_of_singleton. split.
    - intros [->|[i [[_ ->]|[_ Hx]]%lookup_insert_Some]]; [by left; left|by right|left; right; eauto].
    - intros [[->|[i Hx]]| ->]; [by left| |right; exists (PDX va); apply lookup_insert_eq].
      right. exists i. rewrite lookup_insert_ne; [done|]. intros <-. congruence. }
  split; [|split; [by apply lookup_insert_eq|split; [|split; [exact He|split; [exact HK|]]]]].
  - destruct Hk1 as [Hf Hn]. split; cbn [k_mem set_k_mem k_held].
    + split; [|done]. cbn [k_mem k_freelist set_k_mem].
      eapply (flist_write [v; pt_dir P] (k_mem s1)); [| | |exact Hf].
      * intros a Ha. destruct (decide (v <= a < v + PGSIZE)); [exists v; split; [by left|done]|].
        destruct (decide (pt_dir P <= a < pt_dir P + PGSIZE)); [exists (pt_dir P); split; [by right; left|done]|].
        destruct Ha. rewrite Em. by apply Hm.
      * constructor; [done|]. constructor; [apply W|done].
      * assert (pt_dir P ∉ v :: l) as Hd by (intros Hin; apply (Ho _ Hin); by left).
        apply not_elem_of_cons in Hd as [Hd1 Hd2]. apply NoDup_app. split; [done|]. split.
        -- intros x Hx [->|[->|[]%elem_of_nil]%elem_of_cons]%elem_of_cons; done.
        -- apply NoDup_cons. split; [|apply NoDup_singleton]. by intros ?%list_elem_of_singleton.
    + exact W'.
    + intros x Hx. rewrite Hown. intros [Hx'|Hx']; [by apply (Ho x); [right|]|]. apply list_elem_of_singleton in Hx' as ->. done.
    + rewrite E1. done.
  - split; [done|]. exists [v]. split; [done|]. split; [exact Hown|]. cbn [pt_tabs length]. rewrite map_size_insert_None by done. lia.
  - unfold only_mem. rewrite E1. by destruct s.
Qed.

(** Storing an entry. *)
Lemma set_entry m P va t x :
  pt_wf m P -> vpage va -> pt_tabs P !! PDX va = Some t -> 0 <= x < 4294967296 ->
  let m' := stw (t + 4 * PTX va) x m in
  pt_wf m' P /\ (forall va', vpage va' -> ent m' P va' = if decide (va' = va) then x else ent m P va') /\
  same_outside t m m' /\ page t.
Proof.
  intros W Hva Ht Hx. cbv zeta. pose proof (PTX_range va) as Hj.
  destruct (pw_tab _ _ W _ _ Ht) as (Hp & _ & _).
  assert (forall v j, page v -> v <> t -> 0 <= j < 1024 ->
    ldw (stw (t + 4 * PTX va) x m) (v + 4 * j) = ldw m (v + 4 * j)) as L.
  { intros v j Hv Hne Hj'. apply ldw_stw_ne. pose proof (page_disjoint v t Hv Hp Hne). unfold PGSIZE in *. lia. }
  assert (pt_dir P <> t) as Hd by (intros E; rewrite <- E in Ht; by apply (pw_ne _ _ W) in Ht).
  split; [|split; [|split; [|done]]].
  - destruct W as [Wd Wt Wn Wi We]. split; try done.
    + intros i u Hu. destruct (Wt i u Hu) as (? & ? & E). split; [done|]. split; [done|]. by rewrite L.
    + intros i Hi Hn. rewrite L by done. by apply Wn.
  - intros va' Hva'. unfold ent. case_decide as E.
    + subst va'. rewrite Ht, ldw_stw. by apply u32_id.
    + destruct (pt_tabs P !! PDX va') as [u|] eqn:Eu; [|done]. destruct (decide (u = t)) as [->|Hne].
      * apply ldw_stw_ne. assert (PDX va' = PDX va) as ED by (by eapply (pw_inj _ _ W)).
        assert (PTX va' <> PTX va) by (intros ET; by apply E, vpage_inj). lia.
      * apply L; [|done|apply PTX_range]. by destruct (pw_tab _ _ W _ _ Eu).
  - intros a Ha. apply stw_out. unfold PGSIZE in *. lia.
Qed.

Lemma entry_value pa f :
  vpage pa -> 0 <= f < 4096 ->
  0 <= Z.lor (Z.lor pa f) PTE_P < 4294967296 /\ has (Z.lor (Z.lor pa f) PTE_P) PTE_P = true /\
  PTE_ADDR (Z.lor (Z.lor pa f) PTE_P) = pa /\ PTE_FLAGS (Z.lor (Z.lor pa f) PTE_P) = Z.lor f PTE_P.
Proof.
  intros [Hm Hr] Hf. rewrite <- Z.lor_assoc.
  assert (0 <= Z.lor f PTE_P < 4096) as Hf'.
  { split; [apply Z.lor_nonneg; unfold PTE_P; lia|].
    destruct (decide (f = 0)) as [->|]; [done|].
    change 4096 with (2 ^ 12). apply Z.log2_lt_pow2.
    - assert (0 <= Z.lor f PTE_P) by (apply Z.lor_nonneg; unfold PTE_P; lia).
      assert (Z.lor f PTE_P <> 0); [|lia]. intros E. apply Z.lor_eq_0_iff in E as [_ E]. discriminate E.
    - rewrite Z.log2_lor by (unfold PTE_P; lia). apply Z.max_lub_lt; [apply Z.log2_lt_pow2; lia|done]. }
  split_and!.
  - rewrite lor_flags by done. lia.
  - rewrite lor_flags by done. pose proof (Z.div_mod pa 4096). lia.
  - rewrite has_P, lor_flags by done. rewrite Z.odd_add.
    assert (Z.odd (Z.lor f PTE_P) = true) as ->.
    { rewrite <- Z.bit0_odd, Z.lor_spec. unfold PTE_P. apply orb_true_r. }
    pose proof (Z.div_mod pa 4096) as Hd. rewrite Hm in Hd.
    replace pa with (2 * (2048 * (pa / 4096))) by lia. by rewrite Z.odd_mul.
  - by apply PTE_ADDR_flags.
  - by apply PTE_FLAGS_flags.
Qed.

(** ** [mappages] *)

Definition map_body (pgdir last perm : Z) : Z * Z -> K (Z * Z + Z) := fun '(a, pa) =>
  pte ← walkpgdir pgdir a true;
  if pte =? 0 then mret (inr (-1))
  else
    e ← ldmem pte;
    if has e PTE_P then panic "remap"
    else
      stmem pte (Z.lor (Z.lor pa perm) PTE_P);;
      if a =? last then mret (inr 0)
      else mret (inl (u32 (a + PGSIZE), u32 (pa + PGSIZE))).

(** The pages [a], [a + 4096], ... of a range of [n]. *)
Definition in_range (a : Z) (n : nat) (va : Z) : Prop := a <= va < a + Z.of_nat n * 4096.
#[global] Instance in_range_dec a n va : Decision (in_range a n va).
Proof. unfold in_range. apply _. Defined.

(** One round. *)
Lemma map_round s P l a pa last perm :
  vm_inv s P l -> vpage a -> vpage pa -> 0 <= perm < 4096 -> has (ent (k_mem s) P a) PTE_P = false ->
  (exists s' P' l', map_body (pt_dir P) last perm (a, pa) s =
       Ret (if a =? last then inr 0 else inl (u32 (a + PGSIZE), u32 (pa + PGSIZE))) s' /\
     vm_inv s' P' l' /\ grows P P' l l' /\
     (forall va, vpage va -> ent (k_mem s') P' va =
        if decide (va = a) then Z.lor (Z.lor pa perm) PTE_P else ent (k_mem s) P va) /\
     keeps l P (k_mem s) (k_mem s') /\ only_mem s s') \/
  (map_body (pt_dir P) last perm (a, pa) s = Ret (inr (-1)) s /\ l = []).
Proof.
  intros HI Ha Hpa Hf Hno. unfold map_body.
  destruct (walk_alloc s P l a HI) as [(s1 & P1 & l1 & t & Hr & HI1 & Ht & HG & He & HK & HO)|(Hr & _ & Hl)];
    rewrite (bind_Ret _ _ _ _ _ Hr); [left|by right].
  destruct HI1 as [Hk1 W1 Ho1 Hl1]. destruct (entry_value pa perm Hpa Hf) as (Hx & _).
  destruct (set_entry (k_mem s1) P1 a t _ W1 Ha Ht Hx) as (W2 & He2 & Hso & Hp). cbv zeta in *.
  pose proof (PTX_range a). pose proof Hp as (_ & _ & _ & Hp0). rewrite (proj2 (Z.eqb_neq _ 0)) by lia.
  assert (ldmem (t + 4 * PTX a) s1 = Ret (ent (k_mem s1) P1 a) s1) as Hld by (unfold ent; by rewrite Ht).
  rewrite (bind_Ret _ _ _ _ _ Hld), He, Hno, (bind_Ret _ _ _ _ _ (stmem_run _ _ _)).
  set (m2 := stw _ _ (k_mem s1)) in *. clearbody m2.
  assert (t ∉ l1) as Htl by (intros Hin; apply (Ho1 t Hin); right; eauto).
  exists (set_k_mem m2 s1), P1, l1. split; [by destruct (a =? last)|]. split; [|split; [done|split; [|split]]].
  - split; [by eapply kmem_inv_write|done..].
  - intros va Hva. cbn [k_mem set_k_mem]. rewrite He2 by done. by case_decide.
  - intros v x Hv Hvl Hov Hx'. cbn [k_mem set_k_mem]. rewrite Hso; [by eapply HK|].
    assert (v <> t) as Hne.
    { intros ->. destruct HG as [_ (news & -> & HO' & _)]. destruct (proj1 (HO' t)) as [|Hin]; [right; eauto|done|].
      apply Hvl, elem_of_app. by left. }
    pose proof (page_disjoint v t Hv Hp Hne). unfold PGSIZE in *. lia.
  - unfold only_mem in *. rewrite HO. by destruct s.
Qed.

(** What [mappages] leaves of the entries. *)
Definition mapped (a : Z) (n : nat) (pa perm : Z) (P P' : ptab) (m m' : mem) : Prop :=
  forall va, vpage va -> ent m' P' va =
    if decide (in_range a n va) then Z.lor (Z.lor (pa + (va - a)) perm) PTE_P else ent m P va.

Lemma vpage_step a k : vpage a -> 0 <= k -> a + k * 4096 < 4294967296 -> vpage (a + k * 4096).
Proof. intros [Hm Hr] Hk H. split; [by rewrite Z.mod_add|lia]. Qed.

Lemma map_loop n fuel s P l a pa perm :
  (n < fuel)%nat -> vm_inv s P l -> vpage a -> vpage pa -> 0 <= perm < 4096 ->
  a + Z.of_nat (S n) * 4096 <= 4294967296 -> pa + Z.of_nat (S n) * 4096 <= 4294967296 ->
  (forall va, vpage va -> in_range a (S n) va -> has (ent (k_mem s) P va) PTE_P = false) ->
  exists r s' P' l', loop fuel (map_body (pt_dir P) (a + Z.of_nat n * 4096) perm) (a, pa) s = Ret r s' /\
    vm_inv s' P' l' /\ grows P P' l l' /\ keeps l P (k_mem s) (k_mem s') /\ only_mem s s' /\
    (forall va, vpage va -> ~ in_range a (S n) va -> ent (k_mem s') P' va = ent (k_mem s) P va) /\
    ((r = 0 /\ mapped a (S n) pa perm P P' (k_mem s) (k_mem s')) \/ (r = -1 /\ l' = [])).
Proof.
  revert n s P l a pa. induction fuel as [|fuel IH]; intros n s P l a pa Hf HI Ha Hpa Hperm Hba Hbp Hno; [lia|].
  assert (in_range a (S n) a) as Hra by (unfold in_range; lia).
  destruct (map_round s P l a pa (a + Z.of_nat n * 4096) perm HI Ha Hpa Hperm (Hno a Ha Hra))
    as [(s1 & P1 & l1 & Hr & HI1 & HG & He & HK & HO)|(Hr & Hl)].
  2: { exists (-1), s, P, l. split; [by apply loop_done|]. split; [done|]. split; [apply grows_refl|].
       split; [done|]. split; [apply only_mem_refl|]. split; [done|by right]. }
  destruct n as [|n].
  - rewrite Z.add_0_r, Z.eqb_refl in Hr. exists 0, s1, P1, l1. rewrite Z.add_0_r.
    split; [by apply loop_done|]. split; [done|]. split; [done|]. split; [done|]. split; [done|]. split; [|left; split; [done|]].
    + intros va Hva Hn. rewrite He, decide_False; [done| |done]. intros ->. done.
    + intros va Hva. rewrite He by done. destruct (decide (va = a)) as [->|Hne].
      * rewrite decide_True by done. by rewrite Z.sub_diag, Z.add_0_r.
      * rewrite decide_False; [done|]. destruct Ha as [Ha _], Hva as [Hva _]. unfold in_range.
        pose proof (Z.div_mod a 4096). pose proof (Z.div_mod va 4096). lia.
  - rewrite (proj2 (Z.eqb_neq _ _)) in Hr by lia.
    assert (vpage (a + PGSIZE)) as Ha' by (apply (vpage_step a 1); [done|lia|lia]).
    assert (vpage (pa + PGSIZE)) as Hpa' by (apply (vpage_step pa 1); [done|lia|lia]).
    rewrite (u32_id (a + PGSIZE)) in Hr by (apply Ha'). rewrite (u32_id (pa + PGSIZE)) in Hr by (apply Hpa').
    rewrite (loop_next _ _ _ _ _ _ Hr). pose proof HG as [Ed _]. rewrite <- Ed.
    replace (a + Z.of_nat (S n) * 4096) with (a + PGSIZE + Z.of_nat n * 4096) by (unfold PGSIZE; lia).
    unfold PGSIZE in *.
    destruct (IH n s1 P1 l1 (a + 4096) (pa + 4096)) as (r & s2 & P2 & l2 & Hr2 & HI2 & HG2 & HK2 & HO2 & Hout & Hres);
      [lia|done|done|done|done|lia|lia| |].
    { intros va Hva Hin. rewrite He, decide_False; [apply Hno; [done|unfold in_range in *; lia]| |done].
      intros ->. unfold in_range in *. lia. }
    exists r, s2, P2, l2. split; [done|]. split; [done|]. split; [by eapply grows_trans|].
    split; [by eapply keeps_trans|]. split; [by eapply only_mem_trans|]. split.
    + intros va Hva Hn. rewrite Hout by (done || (unfold in_range in *; lia)).
      rewrite He, decide_False; [done| |done]. intros ->. done.
    + destruct Hres as [[-> Hm]|[-> ->]]; [left|by right]. split; [done|]. intros va Hva. rewrite Hm by done.
      destruct (decide (in_range (a + 4096) (S n) va)) as [Hin|Hin].
      * rewrite decide_True by (unfold in_range in *; lia). f_equal. f_equal. lia.
      * rewrite He by done. destruct (decide (va = a)) as [->|Hne].
        -- rewrite decide_True by done. by rewrite Z.sub_diag, Z.add_0_r.
        -- rewrite decide_False; [done|]. destruct Ha as [Ha _], Hva as [Hva _]. unfold in_range in *.
           pose proof (Z.div_mod a 4096). pose proof (Z.div_mod va 4096). lia.
Qed.

(** [mappages] on [S n] pages. *)
Lemma mappages_run n s P l va sz pa perm :
  vm_inv s P l -> vpage va -> vpage pa -> 0 <= perm < 4096 ->
  Z.of_nat n * 4096 < sz <= Z.of_nat (S n) * 4096 ->
  va + Z.of_nat (S n) * 4096 <= 4294967296 -> pa + Z.of_nat (S n) * 4096 <= 4294967296 ->
  (forall a, vpage a -> in_range va (S n) a -> has (ent (k_mem s) P a) PTE_P = false) ->
  exists r s' P' l', mappages (pt_dir P) va sz pa perm s = Ret r s' /\
    vm_inv s' P' l' /\ grows P P' l l' /\ keeps l P (k_mem s) (k_mem s') /\ only_mem s s' /\
    (forall a, vpage a -> ~ in_range va (S n) a -> ent (k_mem s') P' a = ent (k_mem s) P a) /\
    ((r = 0 /\ mapped va (S n) pa perm P P' (k_mem s) (k_mem s')) \/ (r = -1 /\ l' = [])).
Proof.
  intros HI Hva Hpa Hperm Hsz Hb1 Hb2 Hno. unfold mappages. fold (map_body (pt_dir P) (PGROUNDDOWN (u32 (va + sz - 1))) perm).
  assert (PGROUNDDOWN va = va) as ->.
  { rewrite PGROUNDDOWN_eq. destruct Hva as [Hm _]. pose proof (Z.div_mod va 4096). unfold PGSIZE. lia. }
  assert (PGROUNDDOWN (u32 (va + sz - 1)) = va + Z.of_nat n * 4096) as ->.
  { destruct Hva as [Hm Hr]. rewrite u32_id by lia. rewrite PGROUNDDOWN_eq. unfold PGSIZE.
    pose proof (Z.div_mod va 4096).
    rewrite <- (Z.div_unique (va + sz - 1) 4096 (va / 4096 + Z.of_nat n) (sz - 1 - Z.of_nat n * 4096)); lia. }
  apply map_loop; try done.
  pose proof (Z.div_le_mono (Z.of_nat n * 4096) sz PGSIZE ltac:(unfold PGSIZE; lia) ltac:(lia)).
  unfold PGSIZE in *. rewrite Z.div_mul in * by lia. lia.
Qed.

Lemma tabs_size m P : pt_wf m P -> (size (pt_tabs P) <= 1024)%nat.
Proof.
  intros W. rewrite <- size_dom. transitivity (size (list_to_set (seqZ 0 1024) : gset Z)).
  - apply subseteq_size. intros i [t Hi]%elem_of_dom. destruct (pw_tab _ _ W i t Hi) as (_ & ? & _).
    apply elem_of_list_to_set, elem_of_seqZ. lia.
  - rewrite size_list_to_set; [rewrite length_seqZ; lia|apply NoDup_seqZ].
Qed.

(** With 1024 free pages there is room for every table. *)
Lemma mappages_room n s P l va sz pa perm :
  vm_inv s P l -> vpage va -> vpage pa -> 0 <= perm < 4096 ->
  Z.of_nat n * 4096 < sz <= Z.of_nat (S n) * 4096 ->
  va + Z.of_nat (S n) * 4096 <= 4294967296 -> pa + Z.of_nat (S n) * 4096 <= 4294967296 ->
  (forall a, vpage a -> in_range va (S n) a -> has (ent (k_mem s) P a) PTE_P = false) ->
  (1024 < length l + size (pt_tabs P))%nat ->
  exists s' P' l', mappages (pt_dir P) va sz pa perm s = Ret 0 s' /\
    vm_inv s' P' l' /\ grows P P' l l' /\ keeps l P (k_mem s) (k_mem s') /\ only_mem s s' /\
    mapped va (S n) pa perm P P' (k_mem s) (k_mem s').
Proof.
  intros HI Hva Hpa Hperm Hsz Hb1 Hb2 Hno Hlen.
  destruct (mappages_run n s P l va sz pa perm HI Hva Hpa Hperm Hsz Hb1 Hb2 Hno)
    as (r & s' & P' & l' & Hr & HI' & HG & HK & HO & Hout & [[-> Hm]|[-> ->]]); [by exists s', P', l'|exfalso].
  destruct HG as [_ (news & -> & _ & Hs)]. pose proof (tabs_size _ _ (vi_wf _ _ _ HI')).
  rewrite length_app in Hlen. simpl in Hlen. lia.
Qed.

(** Another table is not affected. *)
Lemma pt_wf_frame m m' P :
  (forall v a, owns P v -> v <= a < v + PGSIZE -> m' !! a = m !! a) -> pt_wf m P ->
  pt_wf m' P /\ forall va, ent m' P va = ent m P va.
Proof.
  intros Hf W.
  assert (forall v j, owns P v -> 0 <= j < 1024 -> ldw m' (v + 4 * j) = ldw m (v + 4 * j)) as L.
  { intros v j Hv Hj. apply ldw_agree. intros x Hx. apply (Hf v); [done|]. unfold PGSIZE. lia. }
  split.
  - destruct W as [Wd Wt Wn Wi We]. split; try done.
    + intros i t Ht. destruct (Wt i t Ht) as (? & ? & E). split; [done|]. split; [done|]. rewrite L; [done|by left|done].
    + intros i Hi Hn. rewrite L; [by apply Wn|by left|done].
  - intros va. unfold ent. destruct (pt_tabs P !! PDX va) as [t|] eqn:Et; [|done].
    apply L; [right; eauto|apply PTX_range].
Qed.

End Vm.
