(* ===== verification/VmProps.v ===== *)
(** * Properties of virtual memory ([vm.c])

    [mappages], the kernel part of an address space that [setupkvm] builds,
    and the copy [copyuvm] makes for [fork]. *)

From S2P Require Import Prelude Monad State Strings Sched Bio BioSpec Layout Log Inode Console.
From S2P Require Import Content Kalloc Vm VmSpec.

#[local] Opaque memset store memmove.

(** Side conditions on the addresses of [kmap]. *)
Ltac kside :=
  solve [ done | by left | by right
        | unfold DEVSPACE, KERNLINK, KERNBASE, EXTMEM, PHYSTOP in *; lia
        | split; [done|]; unfold DEVSPACE, KERNLINK, KERNBASE, EXTMEM, PHYSTOP in *; lia ].

Section Vm.
Context {WF : WakeFuel} {KI : KernelImage}.

(** [mappages] maps exactly the pages it is asked to: for a range of pages
    without entries it returns 0 with the entry of every page of the range set
    to the matching physical page, the permissions and the present bit, or -1
    when no page is left for a page table; entries outside the range and every
    page that is neither free nor part of the page table stay as they are. *)
Theorem mappages_maps n s P l va sz pa perm :
  vm_inv s P l -> vpage va -> vpage pa -> 0 <= perm < 4096 ->
  Z.of_nat n * 4096 < sz <= Z.of_nat (S n) * 4096 ->
  va + Z.of_nat (S n) * 4096 <= 4294967296 -> pa + Z.of_nat (S n) * 4096 <= 4294967296 ->
  (forall a, vpage a -> in_range va (S n) a -> has (ent (k_mem s) P a) PTE_P = false) ->
  exists r s' P' l', mappages (pt_dir P) va sz pa perm s = Ret r s' /\
    vm_inv s' P' l' /\ keeps l P (k_mem s) (k_mem s') /\ only_mem s s' /\
    (forall a, vpage a -> ~ in_range va (S n) a -> ent (k_mem s') P' a = ent (k_mem s) P a) /\
    ((r = 0 /\ forall a, vpage a -> in_range va (S n) a ->
        ent (k_mem s') P' a = Z.lor (Z.lor (pa + (a - va)) perm) PTE_P) \/
     (r = -1 /\ l' = [])).
Proof.
  intros HI Hva Hpa Hperm Hsz Hb1 Hb2 Hno.
  destruct (mappages_run n s P l va sz pa perm HI Hva Hpa Hperm Hsz Hb1 Hb2 Hno)
    as (r & s' & P' & l' & Hr & HI' & HG & HK & HO & Hout & Hres).
  exists r, s', P', l'. split_and!; try done. destruct Hres as [[-> Hm]|[-> ->]]; [left|by right].
  split; [done|]. intros a Ha Hin. rewrite Hm by done. by rewrite decide_True.
Qed.

(** ** Pages for the table's owner *)

Lemma vm_kalloc s P v l :
  vm_inv s P (v :: l) ->
  exists s1, kalloc s = Ret v s1 /\ vm_inv s1 P l /\ page v /\ (v ∉ l) /\ ~ owns P v /\
    k_mem s1 = k_mem s /\ only_mem s s1.
Proof.
  intros [Hk W Ho Hl]. destruct (wp_kalloc _ s Hl Hk) as (r & s1 & Hr & -> & Hv & Hvl & Hk1 & E).
  exists s1. assert (k_mem s1 = k_mem s) as Em by (by rewrite E). split; [done|]. split.
  - split; [done|by rewrite Em| |by rewrite E]. intros x Hx. apply Ho. by right.
  - split; [done|]. split; [done|]. split; [apply Ho; by left|]. split; [done|]. unfold only_mem. rewrite E. by destruct s.
Qed.

Lemma vm_write s P l v m :
  vm_inv s P l -> page v -> v ∉ l -> ~ owns P v -> same_outside v (k_mem s) m ->
  vm_inv (set_k_mem m s) P l /\ forall va, ent m P va = ent (k_mem s) P va.
Proof.
  intros [Hk W Ho Hl] Hv Hvl Hov Hs.
  destruct (pt_wf_frame (k_mem s) m P) as [W' He]; [|done|].
  - intros w a Hw Ha. apply Hs. assert (w <> v) as Hne by (by intros ->).
    pose proof (page_disjoint w v (owns_page _ _ _ W Hw) Hv Hne). unfold PGSIZE in *. lia.
  - split; [|exact He]. split; [by eapply kmem_inv_write|done..].
Qed.

(** ** The kernel's part *)

(** What [kernel.ld] says of the image: the data segment starts on a page of
    its own behind the first one, and the kernel ends behind it. *)
Definition image_ok : Prop :=
  img_data mod 4096 = 0 /\ KERNLINK < img_data < KERNBASE + PHYSTOP /\ img_data <= img_end.

(** A region of [kmap] on a table without entries there. *)
Lemma map_region s P l virt start stop perm k :
  vm_inv s P l -> vpage virt -> vpage start -> 0 <= perm < 4096 ->
  u32 (stop - start) = k * 4096 -> 0 < k -> virt + k * 4096 <= 4294967296 -> start + k * 4096 <= 4294967296 ->
  (forall a, vpage a -> virt <= a < virt + k * 4096 -> ent (k_mem s) P a = 0) ->
  (1024 < length l + size (pt_tabs P))%nat ->
  exists s' P' l', mappages (pt_dir P) virt (u32 (stop - start)) start perm s = Ret 0 s' /\
    vm_inv s' P' l' /\ grows P P' l l' /\ keeps l P (k_mem s) (k_mem s') /\ only_mem s s' /\
    forall a, vpage a -> ent (k_mem s') P' a =
      if decide (virt <= a < virt + k * 4096) then Z.lor (Z.lor (start + (a - virt)) perm) PTE_P
      else ent (k_mem s) P a.
Proof.
  intros HI Hv Hs Hp E Hk B1 B2 Hno Hlen. rewrite E.
  destruct (mappages_room (Z.to_nat k - 1) s P l virt (k * 4096) start perm)
    as (s' & P' & l' & Hr & HI' & HG & HK & HO & Hm); try done; try lia.
  - intros a Ha Hin. rewrite Hno; [done|done|]. unfold in_range in Hin. lia.
  - exists s', P', l'. split_and!; try done. intros a Ha. rewrite Hm by done. unfold in_range.
    replace (Z.of_nat (S (Z.to_nat k - 1))) with k by lia. repeat case_decide; done || lia.
Qed.

Lemma zero_page v m :
  exists m', memset v 0 PGSIZE m = m' /\ same_outside v m m' /\
    forall i, 0 <= i < 1024 -> ldw m' (v + 4 * i) = 0.
Proof.
  eexists. split; [reflexivity|]. rewrite memset_ok by (unfold PGSIZE; lia). split.
  - apply store_outside; [lia|]. rewrite length_replicate. unfold PGSIZE. lia.
  - intros i Hi. apply ldw_zero; unfold PGSIZE; lia.
Qed.

Lemma new_dir s v l :
  kmem_inv s (v :: l) -> (LkKmem ∉ k_held s) ->
  exists s1, kalloc s = Ret v s1 /\ page v /\ (v ∉ l) /\
    vm_inv (set_k_mem (memset v 0 PGSIZE (k_mem s1)) s1) (mkptab v ∅) l /\
    only_mem s (set_k_mem (memset v 0 PGSIZE (k_mem s1)) s1) /\
    same_outside v (k_mem s) (memset v 0 PGSIZE (k_mem s1)).
Proof.
  intros Hk Hl. destruct (wp_kalloc _ s Hl Hk) as (r & s1 & Hr & -> & Hv & Hvl & Hk1 & E).
  exists s1. split; [done|]. split; [done|]. split; [done|].
  assert (k_mem s1 = k_mem s) as Em by (by rewrite E).
  destruct (zero_page v (k_mem s1)) as (m & -> & Hso & Hz). rewrite Em in Hso.
  split; [|split; [unfold only_mem; rewrite E; by destruct s|done]].
  split; cbn [k_mem set_k_mem k_held].
  - eapply kmem_inv_write; [done|done|done|by rewrite Em].
  - split; cbn [pt_dir pt_tabs]; try done. intros i Hi _. by rewrite Hz.
  - intros x Hx [->|[i Hi]]; cbn [pt_dir pt_tabs] in *; [done|]. by rewrite lookup_empty in Hi.
  - by rewrite E.
Qed.

Definition kmap_body (pgdir : Z) : Z * Z * Z * Z -> K (option unit) := fun '(virt, start, stop, perm) =>
  x ← mappages pgdir virt (u32 (stop - start)) start perm;
  mret (if x <? 0 then Some tt else None).

(** The entries of a table on which [kmap] has been mapped up to [top]. *)
Definition kernel_upto (m : mem) (P : ptab) (top : Z) : Prop :=
  forall a, vpage a ->
    if decide (KERNBASE <= a < top) then
      has (ent m P a) PTE_P = true /\ PTE_ADDR (ent m P a) = a - KERNBASE /\ has (ent m P a) PTE_U = false
    else ent m P a = 0.

(** A region that goes on where the last one ended, mapped without
    [PTE_U]. *)
Lemma kmap_step s P l virt stop perm k rest :
  vm_inv s P l -> kernel_upto (k_mem s) P virt -> KERNBASE <= virt -> vpage virt -> perm = 0 \/ perm = PTE_W ->
  stop = virt - KERNBASE + k * 4096 -> 0 < k -> virt + k * 4096 <= 4294967296 ->
  (1024 < length l + size (pt_tabs P))%nat ->
  exists s' P' l', scan ((virt, virt - KERNBASE, stop, perm) :: rest) (kmap_body (pt_dir P)) s =
      scan rest (kmap_body (pt_dir P')) s' /\
    vm_inv s' P' l' /\ grows P P' l l' /\ keeps l P (k_mem s) (k_mem s') /\ only_mem s s' /\
    kernel_upto (k_mem s') P' (virt + k * 4096).
Proof.
  intros HI HU Hb Hv Hp -> Hk B Hlen.
  assert (vpage (virt - KERNBASE)) as Hv'.
  { destruct Hv as [Hm Hr]. unfold KERNBASE in *. split; [|lia]. rewrite Zminus_mod, Hm. done. }
  assert (0 <= perm < 4096) as Hp' by (destruct Hp; subst; unfold PTE_W; lia).
  destruct (map_region s P l virt (virt - KERNBASE) (virt - KERNBASE + k * 4096) perm k)
    as (s' & P' & l' & Hr & HI' & HG & HK & HO & Hm); try done; try (unfold KERNBASE in *; lia).
  { rewrite u32_id; unfold KERNBASE in *; destruct Hv; lia. }
  { intros a Ha Hin. specialize (HU a Ha). rewrite decide_False in HU by lia. done. }
  exists s', P', l'. split.
  { assert (kmap_body (pt_dir P) (virt, virt - KERNBASE, virt - KERNBASE + k * 4096, perm) s = Ret None s') as Hbody
      by (unfold kmap_body; by rewrite (bind_Ret _ _ _ _ _ Hr)).
    cbn [scan]. rewrite (bind_Ret _ _ _ _ _ Hbody). by destruct HG as [-> _]. }
  split_and!; try done. intros a Ha. specialize (HU a Ha). rewrite Hm by done.
  destruct (decide (virt <= a < virt + k * 4096)) as [Hin|Hin].
  - rewrite decide_True by lia. replace (virt - KERNBASE + (a - virt)) with (a - KERNBASE) by lia.
    assert (vpage (a - KERNBASE)) as Ha'.
    { destruct Ha as [Hm' Hr']. unfold KERNBASE in *. split; [|lia]. rewrite Zminus_mod, Hm'. done. }
    destruct (entry_value (a - KERNBASE) perm Ha' Hp') as (_ & E1 & E2 & E3). split; [done|]. split; [done|].
    assert (forall e, has e PTE_U = has (PTE_FLAGS e) PTE_U) as Hfl.
    { intros e. unfold has, PTE_FLAGS. by rewrite <- Z.land_assoc. }
    rewrite Hfl, E3. by destruct Hp as [-> | ->].
  - destruct (decide (KERNBASE <= a < virt)).
    + by rewrite decide_True by lia.
    + by rewrite decide_False by lia.
Qed.

Lemma setupkvm_run s l :
  image_ok -> kmem_inv s l -> (LkKmem ∉ k_held s) -> (1026 <= length l)%nat ->
  exists s' D l', setupkvm s = Ret (pt_dir D) s' /\ vm_inv s' D l' /\
    (exists news, l = news ++ l' /\ (forall v, owns D v <-> v ∈ news) /\ length news = S (size (pt_tabs D))) /\
    only_mem s s' /\
    (forall v a, page v -> (v ∉ l) -> v <= a < v + PGSIZE -> k_mem s' !! a = k_mem s !! a) /\
    (forall a, vpage a -> a < DEVSPACE ->
       if decide (KERNBASE <= a < KERNBASE + PHYSTOP) then
         has (ent (k_mem s') D a) PTE_P = true /\ PTE_ADDR (ent (k_mem s') D a) = a - KERNBASE /\
         has (ent (k_mem s') D a) PTE_U = false
       else ent (k_mem s') D a = 0).
Proof.
  intros (Hdm & Hdr & _) Hk Hl Hlen. destruct l as [|v l]; [simpl in Hlen; lia|].
  destruct (new_dir s v l Hk Hl) as (s1 & Hr & Hv & Hvl & HI & HO & Hso).
  set (s2 := set_k_mem _ s1) in *. set (P0 := mkptab v ∅) in *.
  assert (img_data mod 4096 = 0) by done.
  assert (kernel_upto (k_mem s2) P0 KERNBASE) as U0.
  { intros a Ha. rewrite decide_False by lia. unfold ent, P0. cbn [pt_tabs]. by rewrite lookup_empty. }
  assert (size (pt_tabs P0) = 0%nat) as S0 by done. simpl in Hlen.
  destruct (kmap_step s2 P0 l KERNBASE EXTMEM PTE_W 256 (tail kmap))
    as (s3 & P1 & l1 & R1 & HI1 & G1 & K1 & O1 & U1); [kside..|].
  assert (forall P l P' l', grows P P' l l' -> (length l + size (pt_tabs P) = length l' + size (pt_tabs P'))%nat) as Glen.
  { intros P l0 P' l' [_ (n & -> & _ & E)]. rewrite length_app. lia. }
  pose proof (Glen _ _ _ _ G1) as L1. change (KERNBASE + 256 * 4096) with KERNLINK in U1.
  set (k2 := (img_data - KERNLINK) / 4096). set (k3 := (KERNBASE + PHYSTOP - img_data) / 4096).
  assert (img_data - KERNLINK = k2 * 4096) as E2.
  { unfold k2. pose proof (Z.div_mod (img_data - KERNLINK) 4096). rewrite Zminus_mod, Hdm in *.
    change (KERNLINK mod 4096) with 0 in *. change ((0 - 0) mod 4096) with 0 in *. lia. }
  assert (KERNBASE + PHYSTOP - img_data = k3 * 4096) as E3.
  { unfold k3. pose proof (Z.div_mod (KERNBASE + PHYSTOP - img_data) 4096). rewrite Zminus_mod, Hdm in *.
    change ((KERNBASE + PHYSTOP) mod 4096) with 0 in *. change ((0 - 0) mod 4096) with 0 in *. lia. }
  assert (v2p img_data = img_data - KERNBASE) as Ed.
  { unfold v2p. apply u32_id. unfold KERNLINK, KERNBASE, EXTMEM, PHYSTOP in *. lia. }
  destruct (kmap_step s3 P1 l1 KERNLINK (v2p img_data) 0 k2 (tail (tail kmap)))
    as (s4 & P2 & l2 & R2 & HI2 & G2 & K2 & O2 & U2); [kside..|].
  pose proof (Glen _ _ _ _ G2) as L2. replace (KERNLINK + k2 * 4096) with img_data in U2 by lia.
  destruct (kmap_step s4 P2 l2 img_data PHYSTOP PTE_W k3 (tail (tail (tail kmap))))
    as (s5 & P3 & l3 & R3 & HI3 & G3 & K3 & O3 & U3); [kside..|].
  pose proof (Glen _ _ _ _ G3) as L3. replace (img_data + k3 * 4096) with (KERNBASE + PHYSTOP) in U3 by lia.
  destruct (map_region s5 P3 l3 DEVSPACE DEVSPACE 0 PTE_W 8192)
    as (s6 & P4 & l4 & R4 & HI4 & G4 & K4 & O4 & M4); [kside..| |kside|].
  { intros a Ha Hin. specialize (U3 a Ha). by rewrite decide_False in U3 by kside. }
  assert (scan kmap (kmap_body v) s2 = Ret None s6) as Hscan.
  { change kmap with ((KERNBASE, KERNBASE - KERNBASE, EXTMEM, PTE_W) :: tail kmap). change v with (pt_dir P0).
    rewrite R1. change (tail kmap) with ((KERNLINK, KERNLINK - KERNBASE, v2p img_data, 0) :: tail (tail kmap)).
    rewrite R2. change (tail (tail kmap)) with ((img_data, v2p img_data, PHYSTOP, PTE_W) :: tail (tail (tail kmap))).
    rewrite Ed, R3. change (tail (tail (tail kmap))) with [(DEVSPACE, DEVSPACE, 0, PTE_W)]. cbn [scan].
    assert (kmap_body (pt_dir P3) (DEVSPACE, DEVSPACE, 0, PTE_W) s5 = Ret None s6) as Hb
      by (unfold kmap_body; by rewrite (bind_Ret _ _ _ _ _ R4)).
    by rewrite (bind_Ret _ _ _ _ _ Hb). }
  pose proof (grows_trans _ _ _ _ _ _ G1 (grows_trans _ _ _ _ _ _ G2 (grows_trans _ _ _ _ _ _ G3 G4))) as G.
  exists s6, P4, l4. split.
  { unfold setupkvm. rewrite (bind_Ret _ _ _ _ _ Hr). pose proof Hv as (_ & _ & _ & Hv0).
    rewrite (proj2 (Z.eqb_neq v 0)) by lia. rewrite (bind_Ret _ _ _ _ _ (setmem_run _ _ _ _)). fold s2.
    change (DEVSPACE <? p2v PHYSTOP) with false. cbv iota. fold (kmap_body v).
    rewrite (bind_Ret _ _ _ _ _ Hscan). by destruct G as [-> _]. }
  split; [done|]. split; [|split; [|split]].
  - destruct G as [_ (n & -> & On & Sn)]. exists (v :: n). split; [done|]. split; [|simpl; lia].
    intros x. rewrite On, elem_of_cons. unfold owns, P0. cbn [pt_dir pt_tabs]. split.
    + intros [[->|[i Hi]]|Hx]; [by left|by rewrite lookup_empty in Hi|by right].
    + intros [->|Hx]; [by left; left|by right].
  - by eapply only_mem_trans, only_mem_trans, only_mem_trans, only_mem_trans.
  - pose proof (keeps_trans _ _ _ _ _ _ _ K1 (keeps_trans _ _ _ _ _ _ _ K2 (keeps_trans _ _ _ _ _ _ _ K3 K4 G3) G2) G1) as HK.
    intros x a Hx Hxl Ha. apply not_elem_of_cons in Hxl as [Hxv Hxl]. rewrite (HK x a Hx Hxl); [| |done].
    + apply Hso. pose proof (page_disjoint x v Hx Hv Hxv). unfold PGSIZE in *. lia.
    + intros [->|[i Hi]]; [done|]. cbn [pt_tabs P0] in Hi. by rewrite lookup_empty in Hi.
  - intros a Ha Hd. specialize (U3 a Ha). rewrite (M4 a Ha), (decide_False (P := DEVSPACE <= a < _)) by lia. exact U3.
Qed.

(** Every process has the kernel mapped the same way: with enough free pages
    [setupkvm] returns a page directory in which the addresses from [KERNBASE]
    on are physical memory, page by page, none of them accessible to user
    code, and in which no address below [KERNBASE] is mapped. *)
Theorem setupkvm_maps s l :
  image_ok -> kmem_inv s l -> (LkKmem ∉ k_held s) -> (1026 <= length l)%nat ->
  exists s' D l', setupkvm s = Ret (pt_dir D) s' /\ pt_dir D <> 0 /\ vm_inv s' D l' /\
    (forall a, vpage a -> KERNBASE <= a < KERNBASE + PHYSTOP ->
       has (ent (k_mem s') D a) PTE_P = true /\ PTE_ADDR (ent (k_mem s') D a) = a - KERNBASE /\
       has (ent (k_mem s') D a) PTE_U = false) /\
    (forall a, vpage a -> a < KERNBASE -> ent (k_mem s') D a = 0).
Proof.
  intros Hi Hk Hl Hlen. destruct (setupkvm_run s l Hi Hk Hl Hlen) as (s' & D & l' & Hr & HI & _ & _ & _ & He).
  exists s', D, l'. split; [done|]. split.
  { destruct (pw_dir _ _ (vi_wf _ _ _ HI)) as (_ & _ & _ & ?). lia. }
  split; [done|]. split; intros a Ha Hr'; specialize (He a Ha).
  - rewrite decide_True in He by done. apply He. kside.
  - rewrite decide_False in He by kside. apply He. kside.
Qed.

(** ** Copying the user part *)

Definition copy_body (pgdir d sz : Z) : Z -> K (Z + Z) := fun i =>
  if i <? sz then
    pte ← walkpgdir pgdir i false;
    if pte =? 0 then panic "copyuvm: pte should exist"
    else
      e ← ldmem pte;
      if negb (has e PTE_P) then panic "copyuvm: page not present"
      else
        m ← kalloc;
        if m =? 0 then freevm d;; mret (inr 0)
        else
          modify (fun s => set_k_mem (memmove m (p2v (PTE_ADDR e)) PGSIZE (k_mem s)) s);;
          x ← mappages d i PGSIZE (v2p m) (PTE_FLAGS e);
          if x <? 0 then freevm d;; mret (inr 0)
          else mret (inl (i + PGSIZE))
  else mret (inr d).

(** The physical page behind an entry. *)
Definition frame (e : Z) : Z := p2v (PTE_ADDR e).

(** The bytes of a page. *)
Definition page_bytes (v : Z) (m : mem) : list Z := load v (Z.to_nat PGSIZE) m.

(** A page of user memory: mapped to a page that is not free and not part of
    the table. *)
Definition user_page (m : mem) (P : ptab) (l : list Z) (a : Z) : Prop :=
  let e := ent m P a in
  has e PTE_P = true /\ page (frame e) /\ (frame e ∉ l) /\ ~ owns P (frame e).

Section Copy.
Context (P : ptab) (m0 : mem) (l0 : list Z).
Context (HP : pt_wf m0 P) (HPl : forall v, owns P v -> v ∉ l0) (Hnd0 : NoDup l0).

Abbreviation up a := (frame (ent m0 P a)).

(** [k] pages have been copied, into [ms]. *)
Record copied (s : kstate) (D : ptab) (l : list Z) (k : nat) (ms : list Z) : Prop := {
  cp_inv : vm_inv s D l;
  cp_frame v a : page v -> (v ∉ l0) -> v <= a < v + PGSIZE -> k_mem s !! a = m0 !! a;
  cp_used : exists used, l0 = used ++ l /\ (forall v, owns D v -> v ∈ used) /\ ms ⊆ used /\
              length used = (S (size (pt_tabs D)) + k)%nat;
  cp_len : length ms = k;
  cp_nodup : NoDup ms;
  cp_own v : v ∈ ms -> page v /\ ~ owns D v;
  cp_ent j v : ms !! j = Some v -> let a := Z.of_nat j * 4096 in
    ent (k_mem s) D a = Z.lor (Z.lor (v2p v) (PTE_FLAGS (ent m0 P a))) PTE_P /\
    page_bytes v (k_mem s) = page_bytes (up a) m0;
  cp_rest a : vpage a -> Z.of_nat k * 4096 <= a < KERNBASE -> ent (k_mem s) D a = 0;
}.

Lemma copied_parent s D l k ms :
  copied s D l k ms -> pt_wf (k_mem s) P /\ forall va, ent (k_mem s) P va = ent m0 P va.
Proof.
  intros C. apply pt_wf_frame; [|exact HP]. intros v a Hv Ha.
  apply (cp_frame _ _ _ _ _ C v); [by eapply owns_page|by apply HPl|done].
Qed.

Lemma load_page_agree v m m' : (forall a, v <= a < v + PGSIZE -> m' !! a = m !! a) -> page_bytes v m' = page_bytes v m.
Proof. intros H. apply load_agree. intros x Hx. apply H. unfold PGSIZE in *. lia. Qed.

(** Copying one page. *)
Lemma page_copied v src m :
  exists m', memmove v src PGSIZE m = m' /\ same_outside v m m' /\ page_bytes v m' = page_bytes src m.
Proof.
  eexists. split; [reflexivity|]. rewrite memmove_ok by (unfold PGSIZE; lia). unfold page_bytes.
  pose proof (length_load src (Z.to_nat PGSIZE) m) as Hlen. set (d := load src _ m) in *. clearbody d. split.
  - apply store_outside; [lia|]. rewrite Hlen. unfold PGSIZE. lia.
  - rewrite <- Hlen. apply load_store.
Qed.

(** The code of one round. *)
Lemma copy_round s D v l sz a :
  vm_inv s D (v :: l) -> pt_wf (k_mem s) P -> (forall va, ent (k_mem s) P va = ent m0 P va) ->
  vpage a -> 0 <= a < sz -> sz <= KERNBASE -> has (ent m0 P a) PTE_P = true -> ent (k_mem s) D a = 0 ->
  (1024 < length l + size (pt_tabs D))%nat ->
  exists s' D' l' m1, copy_body (pt_dir P) (pt_dir D) sz a s = Ret (inl (a + PGSIZE)) s' /\
    vm_inv s' D' l' /\ grows D D' l l' /\ page v /\ (v ∉ l) /\ ~ owns D v /\
    same_outside v (k_mem s) m1 /\ page_bytes v m1 = page_bytes (up a) (k_mem s) /\
    keeps l D m1 (k_mem s') /\ only_mem s s' /\
    forall b, vpage b -> ent (k_mem s') D' b =
      if decide (b = a) then Z.lor (Z.lor (v2p v) (PTE_FLAGS (ent m0 P a))) PTE_P else ent (k_mem s) D b.
Proof.
  intros HI W He Ha Har Hsz Hp H0 Hlen.
  assert (exists t, pt_tabs P !! PDX a = Some t) as [t Ht].
  { unfold ent in Hp. destruct (pt_tabs P !! PDX a); [eauto|discriminate Hp]. }
  pose proof (PTX_range a). destruct (pw_tab _ _ W _ _ Ht) as ((_ & _ & _ & Ht0) & _).
  assert (ldmem (t + 4 * PTX a) s = Ret (ent m0 P a) s) as Hld by (rewrite <- He; unfold ent; by rewrite Ht).
  destruct (vm_kalloc s D v l HI) as (s1 & Hr1 & HI1 & Hv & Hvl & Hov & Em & O1).
  pose proof Hv as (_ & _ & _ & Hv0).
  destruct (page_copied v (up a) (k_mem s1)) as (m1 & Emv & Hso & Hld1). rewrite Em in *.
  destruct (vm_write s1 D l v m1 HI1 Hv Hvl Hov) as [HI2 He2]; [by rewrite Em|].
  assert (vpage (v2p v)) as Hvp.
  { pose proof (page_kern v Hv) as [Hr Hm]. rewrite v2p_page by done. unfold KERNBASE, PHYSTOP in *.
    split; [rewrite Zminus_mod, Hm; done|lia]. }
  destruct (mappages_room 0 (set_k_mem m1 s1) D l a PGSIZE (v2p v) (PTE_FLAGS (ent m0 P a)))
    as (s2 & D' & l' & Hr2 & HI3 & HG & HK & HO & Hm); [exact HI2|exact Ha|exact Hvp| | | | | |exact Hlen|].
  - rewrite PTE_FLAGS_eq. apply Z.mod_pos_bound. lia.
  - unfold PGSIZE. lia.
  - unfold KERNBASE in *. destruct Ha as [Ha _]. pose proof (Z.div_mod a 4096). lia.
  - pose proof (page_kern v Hv) as [Hr _]. rewrite v2p_page by done. unfold KERNBASE, PHYSTOP in *. lia.
  - intros b Hb Hin. cbn [k_mem set_k_mem]. rewrite He2, Em. assert (b = a) as ->; [|by rewrite H0].
    destruct Ha as [Ha _], Hb as [Hb _]. unfold in_range in Hin. pose proof (Z.div_mod a 4096). pose proof (Z.div_mod b 4096). lia.
  - exists s2, D', l', m1. split.
    + unfold copy_body. rewrite (proj2 (Z.ltb_lt a sz)) by lia.
      rewrite (bind_Ret _ _ _ _ _ (walk_found s P a t false W Ht)), (proj2 (Z.eqb_neq _ 0)) by lia.
      rewrite (bind_Ret _ _ _ _ _ Hld), Hp. cbn [negb]. rewrite (bind_Ret _ _ _ _ _ Hr1), (proj2 (Z.eqb_neq v 0)) by lia.
      kstep. unfold frame in Emv. rewrite Em, Emv, (bind_Ret _ _ _ _ _ Hr2). done.
    + split; [exact HI3|]. split; [exact HG|]. split; [exact Hv|]. split; [exact Hvl|]. split; [exact Hov|].
      split; [exact Hso|]. split; [exact Hld1|]. split; [exact HK|]. split.
      * unfold only_mem in *. rewrite HO, O1. by destruct s.
      * intros b Hb. rewrite Hm by done. cbn [k_mem set_k_mem]. rewrite He2, Em. unfold in_range.
        destruct (decide (b = a)) as [->|Hne].
        -- rewrite decide_True by lia. by rewrite Z.sub_diag, Z.add_0_r.
        -- rewrite decide_False; [done|]. destruct Ha as [Ha _], Hb as [Hb _].
           pose proof (Z.div_mod a 4096). pose proof (Z.div_mod b 4096). lia.
Qed.

Lemma copied_room s D l k ms :
  copied s D l k ms -> (1026 + k < length l0)%nat ->
  exists v l1, l = v :: l1 /\ (1024 < length l1 + size (pt_tabs D))%nat.
Proof.
  intros C Hlen. destruct (cp_used _ _ _ _ _ C) as (used & E & _ & _ & Hu).
  pose proof (tabs_size _ _ (vi_wf _ _ _ (cp_inv _ _ _ _ _ C))). rewrite E, length_app in Hlen.
  destruct l as [|v l1]; simpl in Hlen; [lia|]. exists v, l1. split; [done|lia].
Qed.

Lemma vpage_index k : Z.of_nat k * 4096 < KERNBASE -> vpage (Z.of_nat k * 4096).
Proof. intros H. split; [by rewrite Z.mod_mul|unfold KERNBASE in *; lia]. Qed.

Lemma copy_step s D l k ms sz :
  copied s D l k ms -> Z.of_nat k * 4096 < sz -> sz <= KERNBASE -> user_page m0 P l0 (Z.of_nat k * 4096) ->
  (1026 + k < length l0)%nat ->
  exists s' D' l' v, copy_body (pt_dir P) (pt_dir D) sz (Z.of_nat k * 4096) s = Ret (inl (Z.of_nat (S k) * 4096)) s' /\
    copied s' D' l' (S k) (ms ++ [v]) /\ pt_dir D' = pt_dir D /\ only_mem s s'.
Proof.
  intros C Hk Hsz (Hp & Hup & Hupl & _) Hlen.
  destruct (copied_room _ _ _ _ _ C Hlen) as (v & l1 & -> & Hroom).
  destruct (copied_parent _ _ _ _ _ C) as [W He]. pose proof (vpage_index k ltac:(lia)) as Ha.
  destruct (copy_round s D v l1 sz _ (cp_inv _ _ _ _ _ C) W He Ha ltac:(lia) Hsz Hp) as
    (s' & D' & l' & m1 & Hr & HI & HG & Hv & Hvl & Hov & Hso & Hld & HK & HO & Hent);
    [apply (cp_rest _ _ _ _ _ C); [exact Ha|lia]|exact Hroom|].
  replace (Z.of_nat k * 4096 + PGSIZE) with (Z.of_nat (S k) * 4096) in Hr by (unfold PGSIZE; lia).
  exists s', D', l', v. split; [exact Hr|]. split; [|split; [apply HG|exact HO]].
  destruct C as [CI CF (used & El & Cu & Cms & Clen) Clm Cnd Cown Cent Crest].
  destruct HG as [Ed (news & En & HOw & Hsz')].
  assert ((v ∉ used) /\ (forall x, x ∈ used -> x ∉ l1)) as [Hvu Hul].
  { rewrite El in Hnd0. apply NoDup_app in Hnd0 as (_ & Hd & _). split; [intros Hin; apply (Hd v Hin); by left|].
    intros x Hx Hxl. apply (Hd x Hx). by right. }
  assert (forall x a, page x -> x ∉ l1 -> ~ owns D x -> x <> v -> x <= a < x + PGSIZE -> k_mem s' !! a = k_mem s !! a) as Hsame.
  { intros x a Hx Hxl Hxo Hxv Hxa. rewrite (HK x a Hx Hxl Hxo Hxa). apply Hso.
    pose proof (page_disjoint x v Hx Hv Hxv). unfold PGSIZE in *. lia. }
  assert (forall x, x ∈ ms -> x <> v /\ x ∉ l1) as Hmsv.
  { intros x Hx%Cms. split; [intros ->; exact (Hvu Hx)|exact (Hul x Hx)]. }
  split.
  - exact HI.
  - intros x a Hx Hxl Hxa. rewrite (Hsame x a Hx); [by apply (CF x)| | | |exact Hxa].
    + intros Hin. apply Hxl. rewrite El. apply elem_of_app. right. by right.
    + intros Ho%Cu. apply Hxl. rewrite El. apply elem_of_app. by left.
    + intros ->. apply Hxl. rewrite El. apply elem_of_app. right. by left.
  - exists (used ++ v :: news). split; [rewrite El, En; by rewrite <- app_assoc|]. split_and!.
    + intros x [Hx|Hx]%HOw; apply elem_of_app; [left; by apply Cu|right; by right].
    + intros x [Hx|Hx]%elem_of_app; apply elem_of_app; [left; by apply Cms|].
      right. apply list_elem_of_singleton in Hx as ->. by left.
    + rewrite length_app. simpl. lia.
  - rewrite length_app. simpl. lia.
  - apply NoDup_app. split; [done|]. split; [|apply NoDup_singleton].
    intros x Hx Hx'. apply list_elem_of_singleton in Hx' as ->. destruct (Hmsv v Hx) as [Hc _]. exact (Hc eq_refl).
  - intros x [Hx|Hx]%elem_of_app.
    + destruct (Cown x Hx) as [Hxp Hxo]. split; [exact Hxp|]. rewrite HOw. intros [Ho|Hin]; [exact (Hxo Ho)|].
      apply (Hmsv x Hx). rewrite En. apply elem_of_app. by left.
    + apply list_elem_of_singleton in Hx as ->. split; [exact Hv|]. rewrite HOw. intros [Ho|Hin]; [exact (Hov Ho)|].
      apply Hvl. rewrite En. apply elem_of_app. by left.
  - intros j x Hj. cbv zeta. apply lookup_app_Some in Hj as [Hj|[Hge Hj]].
    + pose proof (lookup_lt_Some _ _ _ Hj) as Hlt. destruct (Cent j x Hj) as [E1 E2]. cbv zeta in E1, E2.
      pose proof (list_elem_of_lookup_2 _ _ _ Hj) as Hin. destruct (Cown x Hin) as [Hxp Hxo].
      destruct (Hmsv x Hin) as [Hxv Hxl]. split.
      * rewrite Hent by (apply vpage_index; lia). rewrite decide_False by lia. exact E1.
      * rewrite <- E2. apply load_page_agree. intros a Hxa. by apply (Hsame x).
    + destruct (j - length ms)%nat eqn:Ej; simpl in Hj; [|done]. injection Hj as <-.
      assert (j = k) as -> by lia. split.
      * rewrite Hent by exact Ha. by rewrite decide_True.
      * transitivity (page_bytes v m1); [apply load_page_agree; intros a Hxa; by apply (HK v)|].
        rewrite Hld. apply load_page_agree. intros a Hxa. by apply (CF (up (Z.of_nat k * 4096))).
  - intros b Hb Hr'. rewrite Hent by exact Hb. rewrite decide_False by lia. apply Crest; [exact Hb|lia].
Qed.

Lemma copy_loop n fuel s D l k ms sz :
  copied s D l k ms -> Z.of_nat (k + n) * 4096 < sz + 4096 -> sz <= Z.of_nat (k + n) * 4096 -> sz <= KERNBASE ->
  (n < fuel)%nat -> (1026 + k + n <= length l0)%nat ->
  (forall a, vpage a -> a < sz -> user_page m0 P l0 a) ->
  exists s' D' l' ms', loop fuel (copy_body (pt_dir P) (pt_dir D) sz) (Z.of_nat k * 4096) s = Ret (pt_dir D') s' /\
    copied s' D' l' (k + n) ms' /\ only_mem s s'.
Proof.
  revert fuel s D l k ms. induction n as [|n IH]; intros [|fuel] s D l k ms C H1 H2 H3 Hf Hlen Hu; try lia.
  - exists s, D, l, ms. rewrite Nat.add_0_r in *. split; [|split; [exact C|apply only_mem_refl]].
    apply loop_done. unfold copy_body. by rewrite (proj2 (Z.ltb_ge _ _)) by lia.
  - destruct (copy_step s D l k ms sz C) as (s1 & D1 & l1 & v & Hr & C1 & Ed & O1); [lia|done| |lia|].
    { apply Hu; [apply vpage_index; lia|lia]. }
    rewrite (loop_next _ _ _ _ _ _ Hr), <- Ed.
    destruct (IH fuel s1 D1 l1 (S k) (ms ++ [v]) C1) as (s2 & D2 & l2 & ms2 & Hr2 & C2 & O2);
      [lia|lia|lia|lia|lia|done|].
    exists s2, D2, l2, ms2. split; [exact Hr2|]. rewrite <- Nat.add_succ_comm. split; [exact C2|by eapply only_mem_trans].
Qed.

End Copy.

Lemma flags_present e : has e PTE_P = true -> Z.lor (PTE_FLAGS e) PTE_P = PTE_FLAGS e.
Proof.
  rewrite has_P. intros Ho. rewrite PTE_FLAGS_eq. apply Z.bits_inj'. intros n Hn. rewrite Z.lor_spec.
  unfold PTE_P. change 1 with (2 ^ 0). rewrite Z.pow2_bits_eqb by lia.
  destruct (Z.eqb_spec 0 n) as [<-|_]; [|by rewrite orb_false_r].
  rewrite orb_true_r. symmetry. change 4096 with (2 ^ 12). rewrite Z.mod_pow2_bits_low by lia. by rewrite Z.bit0_odd.
Qed.

(** The entry of a copied page. *)
Lemma copied_entry v e :
  page v -> has e PTE_P = true ->
  let e' := Z.lor (Z.lor (v2p v) (PTE_FLAGS e)) PTE_P in
  frame e' = v /\ PTE_FLAGS e' = PTE_FLAGS e /\ has e' PTE_P = true.
Proof.
  intros Hv He. cbv zeta. assert (vpage (v2p v)) as Hvp.
  { pose proof (page_kern v Hv) as [Hr Hm]. rewrite v2p_page by done. unfold KERNBASE, PHYSTOP in *.
    split; [rewrite Zminus_mod, Hm; done|lia]. }
  destruct (entry_value (v2p v) (PTE_FLAGS e) Hvp) as (_ & E0 & E1 & E2).
  { rewrite PTE_FLAGS_eq. apply Z.mod_pos_bound. lia. }
  unfold frame. rewrite E1, E2, flags_present, p2v_v2p by done. done.
Qed.

(** A page of the copy. *)
Lemma copied_page P m0 l0 s D l n ms a :
  copied P m0 l0 s D l n ms -> vpage a -> a < Z.of_nat n * 4096 -> has (ent m0 P a) PTE_P = true ->
  exists v, ms !! Z.to_nat (a / 4096) = Some v /\
    let e := ent m0 P a in let e' := ent (k_mem s) D a in
    frame e' = v /\ PTE_FLAGS e' = PTE_FLAGS e /\ page_bytes v (k_mem s) = page_bytes (frame e) m0 /\
    has e' PTE_P = true.
Proof.
  intros C Ha Han Hp. pose proof Ha as [Hm Hr]. pose proof (Z.div_mod a 4096) as Hd.
  destruct (lookup_lt_is_Some_2 ms (Z.to_nat (a / 4096))) as [v Hv].
  { rewrite (cp_len _ _ _ _ _ _ _ _ C). lia. }
  exists v. split; [exact Hv|]. destruct (cp_ent _ _ _ _ _ _ _ _ C _ _ Hv) as [E1 E2]. cbv zeta in *.
  replace (Z.of_nat (Z.to_nat (a / 4096)) * 4096) with a in E1, E2 by lia.
  destruct (cp_own _ _ _ _ _ _ _ _ C v (list_elem_of_lookup_2 _ _ _ Hv)) as [Hvp _].
  destruct (copied_entry v _ Hvp Hp) as (E3 & E4 & E5). cbv zeta in *. rewrite E1, E3, E4, E5.
  split; [reflexivity|]. split; [reflexivity|]. split; [exact E2|reflexivity].
Qed.

(** [copyuvm] with enough free pages: every page is copied. *)
Lemma copyuvm_run s P l sz n :
  image_ok -> vm_inv s P l -> 0 <= sz <= KERNBASE -> sz <= Z.of_nat n * 4096 < sz + 4096 ->
  (forall a, vpage a -> a < sz -> user_page (k_mem s) P l a) -> (1027 + n <= length l)%nat ->
  exists s' D l' ms, copyuvm (pt_dir P) sz s = Ret (pt_dir D) s' /\ copied P (k_mem s) l s' D l' n ms /\ only_mem s s'.
Proof.
  intros Hi HI Hsz Hn Hu Hlen. pose proof HI as [Hk W Ho Hl].
  destruct (setupkvm_run s l Hi Hk Hl ltac:(lia)) as (s1 & D1 & l1 & Hr1 & HI1 & (news & El & Hown & Hnews) & O1 & F1 & He1).
  assert (forall v, owns P v -> v ∉ l) as HPl by (intros v Hv Hin; exact (Ho v Hin Hv)).
  assert (copied P (k_mem s) l s1 D1 l1 0 []) as C0.
  { split; try done.
    - exists news. split; [exact El|]. split; [intros v; apply Hown|]. split; [set_solver|lia].
    - constructor.
    - intros v Hv. by apply elem_of_nil in Hv.
    - intros a Ha Hr. specialize (He1 a Ha). rewrite decide_False in He1 by lia. apply He1. kside. }
  destruct (copy_loop P (k_mem s) l W HPl (proj2 Hk) n (Z.to_nat (sz / PGSIZE) + 2) s1 D1 l1 0 [] sz C0)
    as (s2 & D & l2 & ms & Hr2 & C & O2); [lia|lia|lia| |lia|exact Hu|].
  { pose proof (Z.div_mod sz 4096). pose proof (Z.mod_pos_bound sz 4096). unfold PGSIZE. lia. }
  exists s2, D, l2, ms. split; [|split; [exact C|by eapply only_mem_trans]].
  unfold copyuvm. rewrite (bind_Ret _ _ _ _ _ Hr1). destruct (pw_dir _ _ (vi_wf _ _ _ HI1)) as (_ & _ & _ & ?).
  rewrite (proj2 (Z.eqb_neq _ 0)) by lia. exact Hr2.
Qed.

(** [fork] copies memory: with enough free pages [copyuvm] returns a page
    directory in which every user page has the bytes and the permissions it has
    in the original, in a physical page of its own that was free before; no
    page in use, the original's among them, is changed. *)
Theorem copyuvm_copies s P l sz n :
  image_ok -> vm_inv s P l -> 0 <= sz <= KERNBASE -> sz <= Z.of_nat n * 4096 < sz + 4096 ->
  (forall a, vpage a -> a < sz -> user_page (k_mem s) P l a) -> (1027 + n <= length l)%nat ->
  exists s' D l', copyuvm (pt_dir P) sz s = Ret (pt_dir D) s' /\ pt_dir D <> 0 /\ vm_inv s' D l' /\ only_mem s s' /\
    (forall a, vpage a -> a < sz ->
       let e := ent (k_mem s) P a in let e' := ent (k_mem s') D a in
       PTE_FLAGS e' = PTE_FLAGS e /\ page_bytes (frame e') (k_mem s') = page_bytes (frame e) (k_mem s) /\
       (frame e' ∈ l) /\ (frame e' ∉ l')) /\
    (forall a b, vpage a -> vpage b -> a < sz -> b < sz ->
       frame (ent (k_mem s') D a) = frame (ent (k_mem s') D b) -> a = b) /\
    (forall v x, page v -> (v ∉ l) -> v <= x < v + PGSIZE -> k_mem s' !! x = k_mem s !! x).
Proof.
  intros Hi HI Hsz Hn Hu Hlen. pose proof HI as [Hk W Ho Hl].
  destruct (copyuvm_run s P l sz n Hi HI Hsz Hn Hu Hlen) as (s2 & D & l2 & ms & Hrun & C & O).
  exists s2, D, l2. split; [exact Hrun|].
  pose proof (cp_inv _ _ _ _ _ _ _ _ C) as HI2. split.
  { destruct (pw_dir _ _ (vi_wf _ _ _ HI2)) as (_ & _ & _ & ?). lia. }
  split; [exact HI2|]. split; [exact O|].
  assert (forall a, vpage a -> a < sz -> exists v, ms !! Z.to_nat (a / 4096) = Some v /\
    let e' := ent (k_mem s2) D a in frame e' = v /\ PTE_FLAGS e' = PTE_FLAGS (ent (k_mem s) P a) /\
    page_bytes v (k_mem s2) = page_bytes (frame (ent (k_mem s) P a)) (k_mem s)) as Hpg.
  { intros a Ha Has. destruct (Hu a Ha Has) as (Hp & _).
    destruct (copied_page P (k_mem s) l s2 D l2 n ms a C Ha ltac:(lia) Hp) as (v & Hv & E1 & E2 & E3 & _).
    exists v. cbv zeta in *. split; [exact Hv|]. split; [exact E1|]. split; [exact E2|exact E3]. }
  destruct (cp_used _ _ _ _ _ _ _ _ C) as (used & Eu & _ & Hms & _). split; [|split].
  - intros a Ha Has. destruct (Hpg a Ha Has) as (v & Hv & E1 & E2 & E3). cbv zeta in *. rewrite E1, E2.
    pose proof (Hms v (list_elem_of_lookup_2 _ _ _ Hv)) as Hin. split; [done|]. split; [exact E3|]. split.
    + rewrite Eu. apply elem_of_app. by left.
    + pose proof (proj2 Hk) as Hnd. rewrite Eu in Hnd. apply NoDup_app in Hnd as (_ & Hd & _). exact (Hd v Hin).
  - intros a b Ha Hb Has Hbs E. destruct (Hpg a Ha Has) as (v & Hv & E1 & _), (Hpg b Hb Hbs) as (w & Hw & E2 & _).
    rewrite E1, E2 in E. subst w. pose proof (NoDup_lookup _ _ _ _ (cp_nodup _ _ _ _ _ _ _ _ C) Hv Hw) as Eab.
    destruct Ha as [Ha Hra], Hb as [Hb Hrb]. pose proof (Z.div_mod a 4096). pose proof (Z.div_mod b 4096).
    pose proof (Z.div_pos a 4096). pose proof (Z.div_pos b 4096). lia.
  - intros v x Hv Hvl Hx. exact (cp_frame _ _ _ _ _ _ _ _ C v x Hv Hvl Hx).
Qed.

(** [allocuvm] does not look at what [mappages] returns: when the last free
    page goes to the user and none is left for the page table, it reports
    success with the page unmapped and lost. *)
Lemma allocuvm_unmapped s P v a :
  vm_inv s P [v] -> vpage a -> a + 4096 < KERNBASE -> pt_tabs P !! PDX a = None ->
  exists s', allocuvm (pt_dir P) a (a + 4096) s = Ret (a + 4096) s' /\ vm_inv s' P [] /\ ent (k_mem s') P a = 0.
Proof.
  intros HI Ha Hr Ht. destruct (vm_kalloc s P v [] HI) as (s1 & Hr1 & HI1 & Hv & Hvl & Hov & Em & _).
  destruct (zero_page v (k_mem s1)) as (m & Emset & Hso & _).
  destruct (vm_write s1 P [] v m HI1 Hv Hvl Hov Hso) as [HI2 He].
  exists (set_k_mem m s1). assert (ent (k_mem (set_k_mem m s1)) P a = 0) as H0 by (unfold ent; by rewrite Ht).
  split; [|split; [exact HI2|exact H0]]. pose proof Hv as (_ & _ & _ & Hv0).
  assert (PGROUNDUP a = a) as Eup.
  { destruct Ha as [Hm Hra]. unfold KERNBASE in *. rewrite PGROUNDUP_eq by (unfold PGSIZE; lia). unfold PGSIZE.
    pose proof (Z.div_mod a 4096). rewrite <- (Z.div_unique (a + 4096 - 1) 4096 (a / 4096) 4095); lia. }
  assert (mappages (pt_dir P) a PGSIZE (v2p v) (Z.lor PTE_W PTE_U) (set_k_mem m s1) = Ret (-1) (set_k_mem m s1)) as Hmap.
  { unfold mappages. replace (PGROUNDDOWN a) with a.
    2:{ rewrite PGROUNDDOWN_eq. destruct Ha as [Hm _]. pose proof (Z.div_mod a 4096). unfold PGSIZE. lia. }
    rewrite Nat.add_comm. apply loop_done.
    by rewrite (bind_Ret _ _ _ _ _ (walk_full _ _ _ HI2 Ht)). }
  unfold allocuvm. rewrite (proj2 (Z.leb_gt _ _)), (proj2 (Z.ltb_ge _ _)), Eup, Nat.add_comm by lia. cbn [Nat.add].
  rewrite (loop_next _ _ _ (a + PGSIZE) _ (set_k_mem m s1)).
  - apply loop_done. by rewrite (proj2 (Z.ltb_ge _ _)) by (unfold PGSIZE; lia).
  - rewrite (proj2 (Z.ltb_lt _ _)) by lia. rewrite (bind_Ret _ _ _ _ _ Hr1), (proj2 (Z.eqb_neq v 0)) by lia.
    by rewrite (bind_Ret _ _ _ _ _ (setmem_run _ _ _ _)), Emset, (bind_Ret _ _ _ _ _ Hmap).
Qed.

End Vm.

(** ** A machine after boot *)

#[local] Instance vm_image : KernelImage := Build_KernelImage (KERNLINK + 4096) (KERNLINK + 4096) 0 0 [] [].
#[local] Instance vm_fuel : WakeFuel := 0%nat.

Lemma vm_image_ok : image_ok.
Proof. split; [reflexivity|]. split; [split; reflexivity|discriminate]. Qed.

(** Four thousand pages behind the kernel, as [freerange] leaves them. *)
Abbreviation ram_start := (KERNLINK + 8192).
Abbreviation ram_end := (KERNLINK + 8192 + 4000 * 4096).

Lemma ram_pages : Forall page (pages_from ram_start 4000).
Proof.
  unfold pages_from. apply Forall_map, Forall_seq. intros i Hi. split.
  - unfold PGSIZE. rewrite Z.mod_add by lia. reflexivity.
  - unfold img_end, vm_image, v2p, PGSIZE, KERNLINK, KERNBASE, EXTMEM, PHYSTOP. rewrite u32_id; lia.
Qed.

Lemma boot_pages :
  exists s l, kmem_inv s l /\ (LkKmem ∉ k_held s) /\ length l = 4000%nat /\ only_mem (reset_state (mkdisk ∅ 0 [])) s.
Proof.
  destruct (wp_freerange ram_start ram_end [] (reset_state (mkdisk ∅ 0 []))) as ([] & s & _ & HI & E).
  - discriminate.
  - discriminate.
  - reflexivity.
  - exact ram_pages.
  - intros v _. apply not_elem_of_nil.
  - apply not_elem_of_nil.
  - split; [reflexivity|constructor].
  - eexists s, _. split; [exact HI|]. split; [rewrite E; apply not_elem_of_nil|]. split; [|exact E].
    rewrite app_nil_r, length_reverse. unfold pages_from. rewrite length_map, length_seq. reflexivity.
Qed.

Lemma setupkvm_maps_witness :
  exists s s' D, setupkvm s = Ret (pt_dir D) s' /\ has (ent (k_mem s') D (KERNBASE + 4096)) PTE_P = true /\
    ent (k_mem s') D 4096 = 0.
Proof.
  destruct boot_pages as (s & l & Hk & Hl & Hlen & _).
  destruct (setupkvm_maps s l vm_image_ok Hk Hl) as (s' & D & l' & Hr & _ & _ & H1 & H2).
  - rewrite Hlen. lia.
  - exists s, s', D. split; [exact Hr|]. split.
    + apply H1; [split; [reflexivity|split; [discriminate|reflexivity]]|split; [discriminate|reflexivity]].
    + apply H2; [split; [reflexivity|split; [discriminate|reflexivity]]|reflexivity].
Defined.

(** A process with the page 0: its page table, and the free pages left. *)
Lemma one_page_process :
  exists s P l, vm_inv s P l /\ (1100 <= length l)%nat /\
    (forall a, vpage a -> a < 4096 -> user_page (k_mem s) P l a) /\
    (forall a, vpage a -> 4096 <= a < KERNBASE -> ent (k_mem s) P a = 0) /\
    has (ent (k_mem s) P 0) PTE_U = true /\ only_mem (reset_state (mkdisk ∅ 0 [])) s.
Proof.
  destruct boot_pages as (s & l & Hk & Hl & Hlen & Os).
  destruct (setupkvm_run s l vm_image_ok Hk Hl) as (s1 & P & l1 & _ & HI & (news & El & _ & Hn) & O1 & _ & He); [lia|].
  assert (forall a, vpage a -> a < KERNBASE -> ent (k_mem s1) P a = 0) as H0.
  { intros a Ha Hr. specialize (He a Ha). rewrite decide_False in He by lia. apply He. kside. }
  pose proof (tabs_size _ _ (vi_wf _ _ _ HI)) as Hts. rewrite El, length_app in Hlen.
  destruct l1 as [|v l1]; [simpl in Hlen; lia|]. simpl in Hlen.
  destruct (vm_kalloc s1 P v l1 HI) as (s2 & _ & HI2 & Hv & Hvl & Hov & Em & O2).
  assert (vpage 0) as V0 by (split; [reflexivity|lia]).
  assert (vpage (v2p v)) as Vv.
  { pose proof (page_kern v Hv) as [Hr Hm]. rewrite v2p_page by done. unfold KERNBASE, PHYSTOP in *.
    split; [rewrite Zminus_mod, Hm; done|lia]. }
  destruct (mappages_room 0 s2 P l1 0 4096 (v2p v) 6) as (s3 & P3 & l3 & _ & HI3 & HG & _ & O3 & Hm);
    [exact HI2|exact V0|exact Vv|lia|lia|lia| | |lia|].
  { pose proof (page_kern v Hv) as [Hr _]. rewrite v2p_page by done. kside. }
  { intros a Ha Hin. rewrite Em, H0; [reflexivity|exact Ha|unfold in_range in Hin; kside]. }
  exists s3, P3, l3. split; [exact HI3|]. destruct HG as [_ (n3 & En & HOw & Hs)].
  split; [pose proof (tabs_size _ _ (vi_wf _ _ _ HI3)); rewrite En, length_app in Hlen; lia|]. split; [|split; [|split]].
  - intros a Ha Hlt. assert (a = 0) as ->.
    { destruct Ha as [Ha Hr]. pose proof (Z.div_mod a 4096). lia. }
    unfold user_page. rewrite (Hm 0 V0), decide_True by (unfold in_range; lia). rewrite Z.sub_diag, Z.add_0_r.
    destruct (entry_value (v2p v) 6 Vv ltac:(lia)) as (_ & E1 & E2 & _). unfold frame. rewrite E2, p2v_v2p by done.
    split; [exact E1|]. split; [exact Hv|]. split.
    + intros Hin. apply Hvl. rewrite En. apply elem_of_app. by right.
    + rewrite HOw. intros [Ho|Hin]; [exact (Hov Ho)|]. apply Hvl. rewrite En. apply elem_of_app. by left.
  - intros a Ha Hr. rewrite (Hm a Ha), decide_False by (unfold in_range; lia). rewrite Em. apply H0; [exact Ha|lia].
  - rewrite (Hm 0 V0), decide_True by (unfold in_range; lia). rewrite Z.sub_diag, Z.add_0_r.
    destruct (entry_value (v2p v) 6 Vv ltac:(lia)) as (_ & _ & _ & E).
    unfold has. change PTE_U with (Z.land 4095 PTE_U). rewrite Z.land_assoc. fold (PTE_FLAGS (Z.lor (Z.lor (v2p v) 6) PTE_P)). by rewrite E.
  - exact (only_mem_trans _ _ _ Os (only_mem_trans _ _ _ O1 (only_mem_trans _ _ _ O2 O3))).
Qed.

Lemma mappages_maps_witness :
  exists s P r s' P', mappages (pt_dir P) 4096 4096 8192 6 s = Ret r s' /\
    (r = 0 /\ ent (k_mem s') P' 4096 = 8199 \/ r = -1) /\ ent (k_mem s') P' 8192 = 0.
Proof.
  destruct one_page_process as (s & P & l & HI & _ & _ & H0 & _).
  assert (vpage 4096 /\ vpage 8192) as (V4 & V8) by (unfold vpage; repeat split; lia || reflexivity).
  destruct (mappages_maps 0 s P l 4096 4096 8192 6) as (r & s' & P' & l' & Hr & HI' & _ & _ & Hout & Hres).
  - exact HI.
  - exact V4.
  - exact V8.
  - lia.
  - lia.
  - lia.
  - lia.
  - intros a Ha Hin. rewrite H0; [reflexivity|exact Ha|unfold in_range in Hin; kside].
  - exists s, P, r, s', P'. split; [exact Hr|]. split.
    + destruct Hres as [[-> Hm]|[-> _]]; [left|right; reflexivity]. split; [reflexivity|].
      rewrite Hm; [reflexivity|exact V4|unfold in_range; lia].
    + rewrite Hout; [apply H0; [exact V8|kside]|exact V8|unfold in_range; lia].
Defined.

Lemma copyuvm_copies_witness :
  exists s P s' D, copyuvm (pt_dir P) 100 s = Ret (pt_dir D) s' /\
    page_bytes (frame (ent (k_mem s') D 0)) (k_mem s') = page_bytes (frame (ent (k_mem s) P 0)) (k_mem s).
Proof.
  destruct one_page_process as (s & P & l & HI & Hlen & Hu & _).
  destruct (copyuvm_copies s P l 100 1) as (s' & D & l' & Hr & _ & _ & _ & Hc & _).
  - exact vm_image_ok.
  - exact HI.
  - split; discriminate.
  - lia.
  - intros a Ha Hlt. apply Hu; [exact Ha|lia].
  - lia.
  - exists s, P, s', D. split; [exact Hr|]. apply Hc; [split; [reflexivity|lia]|lia].
Defined.
