(* ===== verification/VmFree.v ===== *)
(** * Giving memory back ([vm.c])

    [deallocuvm] unmaps the pages of a range and [freevm] takes an address
    space apart: the user pages, the page tables and the directory go back to
    the free list, each once, and nothing else changes. *)

From S2P Require Import Prelude Monad State Strings Sched Bio BioSpec Layout Log Inode Console.
From S2P Require Import Content Kalloc Vm VmSpec VmProps.

#[local] Opaque memset store memmove.

Section Free.
Context {WF : WakeFuel} {KI : KernelImage}.

(** The physical pages of the user pages mapped among [n] pages from [a]. *)
Fixpoint frames (m : mem) (P : ptab) (a : Z) (n : nat) : list Z :=
  match n with
  | O => []
  | S n' =>
      let e := ent m P a in
      if has e PTE_P then frame e :: frames m P (a + PGSIZE) n' else frames m P (a + PGSIZE) n'
  end.

Lemma elem_of_frames m P a n v :
  v ∈ frames m P a n <->
  exists k, (k < n)%nat /\ let e := ent m P (a + Z.of_nat k * 4096) in has e PTE_P = true /\ frame e = v.
Proof.
  revert a. induction n as [|n IH]; intros a; simpl.
  { split; [by intros ?%elem_of_nil|intros (k & ? & _); lia]. }
  assert (v ∈ frames m P (a + PGSIZE) n <-> exists k, (k < n)%nat /\
    let e := ent m P (a + Z.of_nat (S k) * 4096) in has e PTE_P = true /\ frame e = v) as IH'.
  { rewrite IH. f_equiv. intros k. by replace (a + PGSIZE + Z.of_nat k * 4096) with (a + Z.of_nat (S k) * 4096) by (unfold PGSIZE; lia). }
  split.
  - intros Hin. assert (has (ent m P a) PTE_P = true /\ v = frame (ent m P a) \/ v ∈ frames m P (a + PGSIZE) n) as [[Hh ->]|Hv].
    { destruct (has (ent m P a) PTE_P); [|by right]. apply elem_of_cons in Hin as [->|]; [by left|by right]. }
    + exists 0%nat. split; [lia|]. simpl. by rewrite Z.add_0_r.
    + apply IH' in Hv as (k & Hk & H). exists (S k). split; [lia|exact H].
  - intros ([|k] & Hk & Hh & Hv).
    + rewrite Z.add_0_r in Hh, Hv. rewrite Hh. rewrite Hv. by left.
    + assert (v ∈ frames m P (a + PGSIZE) n) as Hin by (apply IH'; exists k; split; [lia|done]).
      destruct (has (ent m P a) PTE_P); [by right|done].
Qed.

Lemma frames_ext m m' P a n :
  (forall k, (k < n)%nat -> ent m' P (a + Z.of_nat k * 4096) = ent m P (a + Z.of_nat k * 4096)) ->
  frames m' P a n = frames m P a n.
Proof.
  revert a. induction n as [|n IH]; intros a H; [done|]. simpl.
  pose proof (H 0%nat ltac:(lia)) as H0. rewrite Z.add_0_r in H0. rewrite H0.
  rewrite (IH (a + PGSIZE)); [done|]. intros k Hk.
  replace (a + PGSIZE + Z.of_nat k * 4096) with (a + Z.of_nat (S k) * 4096) by (unfold PGSIZE; lia).
  apply H. lia.
Qed.

Lemma frames_app m P a k n : frames m P a (k + n) = frames m P a k ++ frames m P (a + Z.of_nat k * 4096) n.
Proof.
  revert a. induction k as [|k IH]; intros a; [by rewrite Z.add_0_r|]. cbn [Nat.add frames].
  rewrite IH. replace (a + PGSIZE + Z.of_nat k * 4096) with (a + Z.of_nat (S k) * 4096) by (unfold PGSIZE; lia).
  by destruct (has _ _).
Qed.

Lemma reverse_frames1 m P a : reverse (frames m P a 1) = frames m P a 1.
Proof. cbn [frames]. by case_match. Qed.

Lemma frames_none m P a n :
  (forall k, (k < n)%nat -> has (ent m P (a + Z.of_nat k * 4096)) PTE_P = false) -> frames m P a n = [].
Proof.
  intros H. destruct (frames m P a n) as [|v l] eqn:E; [done|]. exfalso.
  assert (v ∈ frames m P a n) as (k & Hk & Hh & _)%elem_of_frames by (rewrite E; by left).
  by rewrite H in Hh.
Qed.

(** A page of user memory that can be given back. *)
Definition freeable (P : ptab) (l fs : list Z) : Prop :=
  NoDup fs /\ forall v, v ∈ fs -> page v /\ v <> KERNBASE /\ (v ∉ l) /\ ~ owns P v.

(** Memory that agrees outside of the pages given back and the table. *)
Definition keeps_rest (fs : list Z) (P : ptab) (m m' : mem) : Prop :=
  forall v a, page v -> (v ∉ fs) -> ~ owns P v -> v <= a < v + PGSIZE -> m' !! a = m !! a.

Definition dealloc_body (pgdir oldsz newsz : Z) : Z -> K (Z + Z) := fun a =>
  if a <? oldsz then
    pte ← walkpgdir pgdir a false;
    if pte =? 0 then mret (inl (u32 (a + (NPTENTRIES - 1) * PGSIZE + PGSIZE)))
    else
      e ← ldmem pte;
      if has e PTE_P then
        let pa := PTE_ADDR e in
        if pa =? 0 then panic "kfree"
        else
          kfree (p2v pa);;
          stmem pte 0;;
          mret (inl (u32 (a + PGSIZE)))
      else mret (inl (u32 (a + PGSIZE)))
  else mret (inr newsz).

(** One page whose table is there. *)
Lemma dealloc_page s P l a oldsz newsz t :
  vm_inv s P l -> vpage a -> a < oldsz -> oldsz <= KERNBASE -> pt_tabs P !! PDX a = Some t ->
  freeable P l (frames (k_mem s) P a 1) ->
  exists s', dealloc_body (pt_dir P) oldsz newsz a s = Ret (inl (a + PGSIZE)) s' /\
    vm_inv s' P (frames (k_mem s) P a 1 ++ l) /\ only_mem s s' /\
    keeps_rest (frames (k_mem s) P a 1) P (k_mem s) (k_mem s') /\
    (forall b, vpage b -> b <> a -> ent (k_mem s') P b = ent (k_mem s) P b) /\
    has (ent (k_mem s') P a) PTE_P = false.
Proof.
  intros HI Ha Hlt Hold Ht [_ Hfs]. pose proof HI as [Hk W Ho Hl]. pose proof (PTX_range a).
  destruct (pw_tab _ _ W _ _ Ht) as (Htp & _). pose proof Htp as (_ & _ & _ & Ht0).
  assert (ldmem (t + 4 * PTX a) s = Ret (ent (k_mem s) P a) s) as Hld by (unfold ent; by rewrite Ht).
  assert (u32 (a + PGSIZE) = a + PGSIZE) as Eu by (destruct Ha; apply u32_id; unfold KERNBASE, PGSIZE in *; lia).
  unfold dealloc_body. rewrite (proj2 (Z.ltb_lt a oldsz)) by lia.
  rewrite (bind_Ret _ _ _ _ _ (walk_found s P a t false W Ht)), (proj2 (Z.eqb_neq _ 0)) by lia.
  rewrite (bind_Ret _ _ _ _ _ Hld). cbn [frames] in *. destruct (has (ent (k_mem s) P a) PTE_P) eqn:Hh; rewrite Eu.
  2: { exists s. split; [done|]. split; [exact HI|]. split; [apply only_mem_refl|]. split; [by intros v x|]. split; [done|exact Hh]. }
  destruct (Hfs (frame (ent (k_mem s) P a))) as (Hv & Hv0 & Hvl & Hov); [by left|].
  set (v := frame (ent (k_mem s) P a)) in *.
  rewrite (proj2 (Z.eqb_neq (PTE_ADDR (ent (k_mem s) P a)) 0)).
  2: { intros E. apply Hv0. unfold v, frame. by rewrite E. }
  fold v. change (p2v (PTE_ADDR (ent (k_mem s) P a))) with v.
  destruct (wp_kfree v l s Hv Hl Hk Hvl) as ([] & s1 & Hr & Hk1 & E1 & Hso). rewrite (bind_Ret _ _ _ _ _ Hr).
  destruct (pt_wf_frame (k_mem s) (k_mem s1) P) as [W1 He1]; [|exact W|].
  { intros w x Hw Hx. apply Hso. assert (w <> v) as Hne by (by intros ->).
    pose proof (page_disjoint w v (owns_page _ _ _ W Hw) Hv Hne). unfold PGSIZE in *. lia. }
  destruct (set_entry (k_mem s1) P a t 0 W1 Ha Ht ltac:(lia)) as (W2 & He2 & Hso2 & _). cbv zeta in *.
  rewrite (bind_Ret _ _ _ _ _ (stmem_run _ _ _)). set (m2 := stw _ _ (k_mem s1)) in *. clearbody m2.
  assert (t ∉ v :: l) as Htl.
  { intros [->|Hin]%elem_of_cons; [apply Hov|apply (Ho t Hin)]; right; eauto. }
  exists (set_k_mem m2 s1). split; [done|]. cbn [k_mem set_k_mem]. split; [|split; [|split; [|split]]].
  - split; [exact (kmem_inv_write s1 (v :: l) t m2 Hk1 Htp Htl Hso2)|exact W2| |by rewrite E1].
    intros x [->|Hx]%elem_of_cons; [exact Hov|by apply Ho].
  - unfold only_mem. rewrite E1. by destruct s.
  - intros w x Hw Hwv Hwo Hx. rewrite Hso2, Hso; [done| |].
    + assert (w <> v) as Hne by (intros ->; apply Hwv; by left).
      pose proof (page_disjoint w v Hw Hv Hne). unfold PGSIZE in *. lia.
    + assert (w <> t) as Hne by (intros ->; apply Hwo; right; eauto).
      pose proof (page_disjoint w t Hw Htp Hne). unfold PGSIZE in *. lia.
  - intros b Hb Hne. rewrite He2 by done. rewrite decide_False by done. apply He1.
  - rewrite He2 by done. by rewrite decide_True.
Qed.

(** The addresses the loop looks at: a table that is missing is skipped from
    its first page on. *)
Definition reached (P : ptab) (a : Z) : Prop := a mod 4194304 = 0 \/ is_Some (pt_tabs P !! PDX a).

Lemma reached_next P a : vpage a -> a + 4096 < 4294967296 -> reached P a -> is_Some (pt_tabs P !! PDX a) -> reached P (a + 4096).
Proof.
  intros [Hm Hr] Hb _ Ht. unfold reached. destruct (decide ((a + 4096) mod 4194304 = 0)) as [|Hne]; [by left|right].
  replace (PDX (a + 4096)) with (PDX a); [done|]. rewrite !PDX_eq. f_equal.
  pose proof (Z.div_mod a 4096). pose proof (Z.div_mod a 4194304). pose proof (Z.mod_pos_bound a 4194304).
  pose proof (Z.div_mod (a + 4096) 4194304). pose proof (Z.mod_pos_bound (a + 4096) 4194304).
  assert (a mod 4194304 + 4096 <> 4194304) as Hc.
  { intros E. apply Hne. replace (a + 4096) with ((a / 4194304 + 1) * 4194304) by lia. apply Z.mod_mul. lia. }
  assert (a mod 4194304 mod 4096 = 0) as Hd.
  { replace (a mod 4194304) with (a + - (a / 4194304 * 1024) * 4096) by lia. by rewrite Z.mod_add by lia. }
  pose proof (Z.div_mod (a mod 4194304) 4096). apply (Z.div_unique _ _ _ (a mod 4194304 + 4096)); lia.
Qed.

(** The pages under a table that is missing. *)
Lemma missing_table m P a k :
  vpage a -> a mod 4194304 = 0 -> pt_tabs P !! PDX a = None -> (k < 1024)%nat -> ent m P (a + Z.of_nat k * 4096) = 0.
Proof.
  intros [_ Hr] Ha Ht Hk. unfold ent. replace (PDX (a + Z.of_nat k * 4096)) with (PDX a); [by rewrite Ht|].
  rewrite !PDX_eq. f_equal. pose proof (Z.div_mod a 4194304).
  apply (Z.div_unique _ _ _ (Z.of_nat k * 4096)); lia.
Qed.

Lemma freeable_app P l f1 f2 :
  freeable P l (f1 ++ f2) -> freeable P l f1 /\ freeable P (f1 ++ l) f2 /\ (forall v, v ∈ f2 -> v ∉ f1).
Proof.
  intros [Hnd Hf]. apply NoDup_app in Hnd as (H1 & Hd & H2). split; [|split].
  - split; [done|]. intros v Hv. apply Hf, elem_of_app. by left.
  - split; [done|]. intros v Hv. destruct (Hf v) as (? & ? & ? & ?); [apply elem_of_app; by right|].
    split; [done|]. split; [done|]. split; [|done]. intros [Hin|Hin]%elem_of_app; [by apply (Hd v)|done].
  - intros v Hv Hv'. by apply (Hd v).
Qed.

Lemma dealloc_loop fuel n s P l a oldsz newsz :
  vm_inv s P l -> a mod 4096 = 0 -> 0 <= a -> reached P a -> oldsz <= KERNBASE ->
  oldsz <= a + Z.of_nat n * 4096 -> (n = 0%nat \/ a + Z.of_nat n * 4096 < oldsz + 4096) -> (n < fuel)%nat ->
  freeable P l (frames (k_mem s) P a n) ->
  exists s', loop fuel (dealloc_body (pt_dir P) oldsz newsz) a s = Ret newsz s' /\
    vm_inv s' P (reverse (frames (k_mem s) P a n) ++ l) /\ only_mem s s' /\
    keeps_rest (frames (k_mem s) P a n) P (k_mem s) (k_mem s') /\
    (forall b, vpage b -> ~ in_range a n b -> ent (k_mem s') P b = ent (k_mem s) P b) /\
    (forall b, vpage b -> in_range a n b -> has (ent (k_mem s') P b) PTE_P = false).
Proof.
  revert n s l a. induction fuel as [|fuel IH]; intros n s l a HI Hm Ha Hre Hold Hn Hn' Hf Hfs; [lia|].
  destruct (decide (a < oldsz)) as [Hlt|Hge].
  2: { assert (n = 0%nat) as -> by lia. exists s. split.
       { apply loop_done. unfold dealloc_body. by rewrite (proj2 (Z.ltb_ge _ _)) by lia. }
       split; [exact HI|]. split; [apply only_mem_refl|]. split; [by intros v x|]. split; [done|].
       intros b _ Hb. unfold in_range in Hb. lia. }
  assert (vpage a) as Hva by (split; [done|unfold KERNBASE in *; lia]).
  destruct (pt_tabs P !! PDX a) as [t|] eqn:Ht.
  - destruct n as [|n]; [lia|]. change (S n) with (1 + n)%nat in Hfs |- *. rewrite frames_app in Hfs |- *.
    change (Z.of_nat 1 * 4096) with 4096 in *. apply freeable_app in Hfs as (Hf1 & Hf2 & Hf12).
    destruct (dealloc_page s P l a oldsz newsz t HI Hva Hlt Hold Ht Hf1) as (s1 & Hr & HI1 & O1 & K1 & E1 & P1).
    rewrite (loop_next _ _ _ _ _ _ Hr). change PGSIZE with 4096.
    assert (frames (k_mem s1) P (a + 4096) n = frames (k_mem s) P (a + 4096) n) as Efr.
    { apply frames_ext. intros k Hk. apply E1; [|lia]. split; [|unfold KERNBASE in *; lia].
      rewrite Z.mod_add by lia. rewrite Zplus_mod, Hm. done. }
    destruct (IH n s1 (frames (k_mem s) P a 1 ++ l) (a + 4096) HI1) as (s2 & Hr2 & HI2 & O2 & K2 & E2 & P2).
    + rewrite Zplus_mod, Hm. done.
    + lia.
    + apply reached_next; [done|unfold KERNBASE in *; lia|done|eauto].
    + done.
    + lia.
    + lia.
    + lia.
    + rewrite Efr. exact Hf2.
    + rewrite Efr in *. exists s2. split; [exact Hr2|]. split.
      { rewrite reverse_app, <- app_assoc.
        rewrite reverse_frames1. exact HI2. }
      split; [by eapply only_mem_trans|]. split; [|split].
      * intros v x Hv Hvf Hvo Hx. rewrite elem_of_app in Hvf. rewrite (K2 v x), (K1 v x); tauto.
      * intros b Hb Hin. rewrite E2, E1; [done|done| |done|]; [intros ->|intros H]; apply Hin; unfold in_range in *; lia.
      * intros b Hb Hin. destruct (decide (in_range (a + 4096) n b)) as [Hin'|Hin']; [by apply P2|].
        rewrite E2 by done. replace b with a; [exact P1|]. destruct Hb as [Hbm _]. unfold in_range in *.
        pose proof (Z.div_mod a 4096). pose proof (Z.div_mod b 4096). lia.
  - assert (a mod 4194304 = 0) as Hal by (destruct Hre as [|[t Ht']]; [done|congruence]).
    assert (forall k, (k < 1024)%nat -> ent (k_mem s) P (a + Z.of_nat k * 4096) = 0) as Hz
      by (intros k Hk; by apply missing_table).
    assert (dealloc_body (pt_dir P) oldsz newsz a s = Ret (inl (a + 4194304)) s) as Hr.
    { unfold dealloc_body. rewrite (proj2 (Z.ltb_lt _ _)) by lia.
      rewrite (bind_Ret _ _ _ _ _ (walk_none s P a (vi_wf _ _ _ HI) Ht)). cbn [Z.eqb].
      rewrite u32_id by (unfold NPTENTRIES, PGSIZE, KERNBASE in *; lia).
      by replace (a + (NPTENTRIES - 1) * PGSIZE + PGSIZE) with (a + 4194304) by (unfold NPTENTRIES, PGSIZE; lia). }
    rewrite (loop_next _ _ _ _ _ _ Hr). set (k := (n `min` 1024)%nat).
    assert (n = (k + (n - k))%nat) as En by lia.
    assert (frames (k_mem s) P a k = []) as Ek by (apply frames_none; intros j Hj; by rewrite Hz by lia).
    assert (frames (k_mem s) P a n = frames (k_mem s) P (a + 4194304) (n - k)) as Efr.
    { rewrite En at 1. rewrite frames_app, Ek. simpl. destruct (decide (n <= 1024)%nat).
      - by replace (n - k)%nat with 0%nat by lia.
      - by replace (Z.of_nat k * 4096) with 4194304 by lia. }
    destruct (IH (n - k)%nat s l (a + 4194304) HI) as (s2 & Hr2 & HI2 & O2 & K2 & E2 & P2).
    + change 4194304 with (1024 * 4096). by rewrite Z.mod_add by lia.
    + lia.
    + left. rewrite Zplus_mod, Hal. done.
    + done.
    + lia.
    + lia.
    + lia.
    + rewrite <- Efr. exact Hfs.
    + rewrite Efr. exists s2. split; [exact Hr2|]. split; [exact HI2|]. split; [exact O2|]. split; [exact K2|]. split.
      * intros b Hb Hin. apply E2; [done|]. intros H. apply Hin. unfold in_range in *. lia.
      * intros b Hb Hin. destruct (decide (in_range (a + 4194304) (n - k) b)) as [Hin'|Hin']; [by apply P2|].
        rewrite E2 by done. destruct Hb as [Hbm Hbr]. unfold in_range in *.
        pose proof (Z.div_mod a 4096). pose proof (Z.div_mod b 4096).
        replace b with (a + Z.of_nat (Z.to_nat ((b - a) / 4096)) * 4096).
        -- rewrite Hz; [done|]. assert ((b - a) / 4096 < 1024); [|lia]. apply Z.div_lt_upper_bound; lia.
        -- assert ((b - a) / 4096 = b / 4096 - a / 4096) as ->; [|lia].
           symmetry. apply (Z.div_unique _ _ _ 0); lia.
Qed.

(** ** [freevm] *)

(** The tables with an index from [i] on. *)
Definition tabs (P : ptab) (i n : nat) : list Z := omap (fun j => pt_tabs P !! Z.of_nat j) (seq i n).

Lemma elem_of_tabs P i n v :
  v ∈ tabs P i n <-> exists j, (i <= j < i + n)%nat /\ pt_tabs P !! Z.of_nat j = Some v.
Proof.
  unfold tabs. rewrite list_elem_of_omap. split.
  - intros (j & Hj%elem_of_seq & H). eauto.
  - intros (j & Hj & H). exists j. split; [by apply elem_of_seq|done].
Qed.

Definition free_tab (dir : Z) (i : nat) : K unit :=
  e ← ldmem (dir + 4 * Z.of_nat i);
  when (has e PTE_P) (kfree (p2v (PTE_ADDR e))).

Lemma free_tabs n i s P l :
  pt_wf (k_mem s) P -> kmem_inv s l -> (LkKmem ∉ k_held s) -> (i + n <= 1024)%nat ->
  (forall v, v ∈ tabs P i n -> v ∉ l) ->
  exists s' l', for_each (seq i n) (free_tab (pt_dir P)) s = Ret tt s' /\ pt_wf (k_mem s') P /\
    kmem_inv s' l' /\ only_mem s s' /\ (forall v, v ∈ l' <-> v ∈ l \/ v ∈ tabs P i n) /\
    (forall v a, page v -> (v ∉ tabs P i n) -> v <= a < v + PGSIZE -> k_mem s' !! a = k_mem s !! a).
Proof.
  revert i s l. induction n as [|n IH]; intros i s l W Hk Hl Hn Hd.
  { exists s, l. split; [done|]. split; [done|]. split; [done|]. split; [apply only_mem_refl|]. split; [|done].
    intros v. rewrite (elem_of_nil v). tauto. }
  assert (exists s1 l1, free_tab (pt_dir P) i s = Ret tt s1 /\ pt_wf (k_mem s1) P /\ kmem_inv s1 l1 /\ only_mem s s1 /\
    (forall v, v ∈ l1 <-> v ∈ l \/ v ∈ tabs P i 1) /\
    (forall v a, page v -> (v ∉ tabs P i 1) -> v <= a < v + PGSIZE -> k_mem s1 !! a = k_mem s !! a))
    as (s1 & l1 & Hr & W1 & Hk1 & O1 & L1 & K1).
  { unfold free_tab. kstep. unfold tabs in *. cbn [seq omap list_omap] in *.
    destruct (pt_tabs P !! Z.of_nat i) as [t|] eqn:Et.
    - destruct (pw_tab _ _ W _ _ Et) as (Ht & _ & E). destruct (pde_addr t Ht) as (E1 & E2 & _).
      rewrite E, E2, E1. cbn [when].
      destruct (wp_kfree t l s Ht Hl Hk) as ([] & s1 & Hr & Hk1 & E3 & Hso); [apply Hd; by left|].
      exists s1, (t :: l). split; [done|]. split.
      { destruct W as [Wd Wt Wn Wi We]. assert (pt_dir P <> t) as Hne by (intros Ed; rewrite <- Ed in Et; by apply We in Et).
        assert (forall j, 0 <= j < 1024 -> ldw (k_mem s1) (pt_dir P + 4 * j) = ldw (k_mem s) (pt_dir P + 4 * j)) as L.
        { intros j Hj. apply ldw_agree. intros x Hx. apply Hso. pose proof (page_disjoint _ _ Wd Ht Hne). unfold PGSIZE in *. lia. }
        split; try done.
        - intros j u Hu. destruct (Wt j u Hu) as (? & ? & ?). by rewrite L.
        - intros j Hj Hj'. rewrite L by done. by apply Wn. }
      split; [done|]. split; [unfold only_mem; rewrite E3; by destruct s|]. split.
      + intros v. rewrite elem_of_cons, list_elem_of_singleton. tauto.
      + intros v a Hv Hvt Ha. apply Hso. assert (v <> t) as Hne by (intros ->; apply Hvt; by left).
        pose proof (page_disjoint _ _ Hv Ht Hne). unfold PGSIZE in *. lia.
    - rewrite (pw_none _ _ W) by (lia || done). exists s, l. split; [done|]. split; [done|]. split; [done|].
      split; [apply only_mem_refl|]. split; [|done]. intros v. rewrite (elem_of_nil v). tauto. }
  assert (forall v, v ∈ tabs P i (S n) <-> v ∈ tabs P i 1 \/ v ∈ tabs P (S i) n) as Happ.
  { intros v. rewrite !elem_of_tabs. split.
    - intros (j & Hj & E). destruct (decide (j = i)); [left|right]; exists j; split; done || lia.
    - intros [(j & Hj & E)|(j & Hj & E)]; exists j; split; done || lia. }
  destruct (IH (S i) s1 l1 W1 Hk1) as (s2 & l2 & Hr2 & W2 & Hk2 & O2 & L2 & K2).
  - unfold only_mem in O1. by rewrite O1.
  - lia.
  - intros v Hv. rewrite L1. intros [Hin|Hin]; [apply (Hd v); [apply Happ; by right|done]|].
    apply elem_of_tabs in Hv as (j & Hj & Ej), Hin as (j' & Hj' & Ej').
    pose proof (pw_inj _ _ W _ _ _ Ej Ej'). lia.
  - exists s2, l2. cbn [seq for_each]. rewrite (bind_Ret _ _ _ _ _ Hr). split; [exact Hr2|]. split; [exact W2|].
    split; [exact Hk2|]. split; [by eapply only_mem_trans|]. split.
    + intros v. rewrite L2, L1, Happ. tauto.
    + intros v a Hv Hvt Ha. rewrite Happ in Hvt. rewrite (K2 v a), (K1 v a); tauto.
Qed.

(** A page of the address space [P] that user code sees. *)
Definition user_frame (m : mem) (P : ptab) (v : Z) : Prop :=
  exists a, vpage a /\ a < KERNBASE /\ has (ent m P a) PTE_P = true /\ frame (ent m P a) = v.

(** The memory of a process: its user pages are pages of the allocator that
    are not free, not part of the page table, and mapped once. *)
Record space_ok (s : kstate) (P : ptab) (l : list Z) : Prop := {
  so_inv : vm_inv s P l;
  so_page a : vpage a -> a < KERNBASE -> has (ent (k_mem s) P a) PTE_P = true -> user_page (k_mem s) P l a;
  so_inj a b : vpage a -> vpage b -> a < KERNBASE -> b < KERNBASE ->
    has (ent (k_mem s) P a) PTE_P = true -> has (ent (k_mem s) P b) PTE_P = true ->
    frame (ent (k_mem s) P a) = frame (ent (k_mem s) P b) -> a = b;
}.

Lemma flist_agree m m' r l :
  (forall v a, v ∈ l -> v <= a < v + PGSIZE -> m' !! a = m !! a) -> flist m r l -> flist m' r l.
Proof.
  revert r. induction l as [|v l IH]; intros r Hk; [done|]. intros (-> & Hv & Hf). split; [done|]. split; [done|].
  replace (ldw m' v) with (ldw m v); [apply IH; [intros w a Hw; apply Hk; by right|done]|].
  symmetry. apply ldw_agree. intros x Hx. apply (Hk v); [by left|unfold PGSIZE; lia].
Qed.

(** Changes outside of the page table and of the free pages. *)
Lemma space_ok_frame s s' P l :
  (forall v a, owns P v \/ v ∈ l -> v <= a < v + PGSIZE -> k_mem s' !! a = k_mem s !! a) ->
  k_freelist s' = k_freelist s -> (LkKmem ∉ k_held s') -> space_ok s P l ->
  space_ok s' P l /\ forall a, ent (k_mem s') P a = ent (k_mem s) P a.
Proof.
  intros Hk Hf Hh [[[Hfl Hnd] W Ho Hl] Hu Hi].
  destruct (pt_wf_frame (k_mem s) (k_mem s') P) as [W' He]; [intros v a Hv; apply Hk; by left|exact W|].
  split; [|exact He]. split.
  - split; [|exact W'|exact Ho|exact Hh]. split; [|exact Hnd]. rewrite Hf. eapply flist_agree; [|exact Hfl].
    intros v a Hv. apply Hk. by right.
  - intros a Ha Hak. unfold user_page. rewrite He. by apply Hu.
  - intros a b. rewrite !He. by apply Hi.
Qed.

Lemma user_frame_ext m m' P : (forall a, ent m' P a = ent m P a) -> forall v, user_frame m' P v <-> user_frame m P v.
Proof. intros He v. unfold user_frame. by setoid_rewrite He. Qed.

(** [kfree] of a page that the address space does not use. *)
Lemma space_ok_kfree s P l v :
  space_ok s P l -> page v -> (v ∉ l) -> ~ owns P v -> ~ user_frame (k_mem s) P v ->
  exists s', kfree v s = Ret tt s' /\ space_ok s' P (v :: l) /\ only_mem s s' /\
    same_outside v (k_mem s) (k_mem s') /\ forall a, ent (k_mem s') P a = ent (k_mem s) P a.
Proof.
  intros [[Hk W Ho Hl] Hu Hi] Hv Hvl Hov Huv.
  destruct (wp_kfree v l s Hv Hl Hk Hvl) as ([] & s' & Hr & Hk' & E & Hso). exists s'. split; [exact Hr|].
  destruct (pt_wf_frame (k_mem s) (k_mem s') P) as [W' He]; [|exact W|].
  { intros w x Hw Hx. apply Hso. assert (w <> v) as Hne by (by intros ->).
    pose proof (page_disjoint w v (owns_page _ _ _ W Hw) Hv Hne). unfold PGSIZE in *. lia. }
  split; [|split; [unfold only_mem; rewrite E; by destruct s|split; [exact Hso|exact He]]]. split.
  - split; [exact Hk'|exact W'| |by rewrite E]. intros x [->|Hx]%elem_of_cons; [exact Hov|by apply Ho].
  - intros a Ha Hak. unfold user_page. rewrite He. intros Hh. destruct (Hu a Ha Hak Hh) as (H1 & H2 & H3 & H4).
    split; [done|]. split; [done|]. split; [|done]. intros [E'|Hin]%elem_of_cons; [|done].
    apply Huv. exists a. done.
  - intros a b. rewrite !He. by apply Hi.
Qed.

Lemma space_ok_kalloc s P v l :
  space_ok s P (v :: l) ->
  exists s1, kalloc s = Ret v s1 /\ space_ok s1 P l /\ page v /\ (v ∉ l) /\ ~ owns P v /\ ~ user_frame (k_mem s) P v /\
    k_mem s1 = k_mem s /\ only_mem s s1.
Proof.
  intros [HI Hu Hi]. destruct (vm_kalloc s P v l HI) as (s1 & Hr & HI1 & Hv & Hvl & Hov & Em & O).
  exists s1. split; [exact Hr|]. split.
  - split; [exact HI1| |intros a b; rewrite Em; by apply Hi].
    intros a Ha Hak. rewrite Em. intros Hh. destruct (Hu a Ha Hak Hh) as (H1 & H2 & H3 & H4).
    apply not_elem_of_cons in H3 as [_ H3]. done.
  - split_and!; try done. intros (a & Ha & Hak & Hh & E). destruct (Hu a Ha Hak Hh) as (_ & _ & H3 & _).
    rewrite E in H3. apply H3. by left.
Qed.

Lemma frames_nodup m P a n :
  (forall i j, (i < n)%nat -> (j < n)%nat ->
     let x := ent m P (a + Z.of_nat i * 4096) in let y := ent m P (a + Z.of_nat j * 4096) in
     has x PTE_P = true -> has y PTE_P = true -> frame x = frame y -> i = j) ->
  NoDup (frames m P a n).
Proof.
  revert a. induction n as [|n IH]; intros a H; [constructor|]. cbn [frames].
  assert (forall k, a + PGSIZE + Z.of_nat k * 4096 = a + Z.of_nat (S k) * 4096) as E by (intros; unfold PGSIZE; lia).
  assert (NoDup (frames m P (a + PGSIZE) n)) as Hnd.
  { apply IH. intros i j Hi Hj. rewrite !E. cbv zeta. intros H1 H2 H3.
    assert (S i = S j); [|lia]. apply H; done || lia. }
  destruct (has (ent m P a) PTE_P) eqn:Hh; [|done]. apply NoDup_cons. split; [|done].
  intros (k & Hk & H1 & H2)%elem_of_frames. rewrite E in H1, H2.
  assert (0%nat = S k); [|lia]. apply H; rewrite ?Z.add_0_r; done || lia.
Qed.

Lemma frames_user m P n v :
  KERNBASE = Z.of_nat n * 4096 -> v ∈ frames m P 0 n <-> user_frame m P v.
Proof.
  intros En. rewrite elem_of_frames. split.
  - intros (k & Hk & H1 & H2). exists (0 + Z.of_nat k * 4096). split; [|split; [lia|done]].
    split; [by rewrite Z.add_0_l, Z.mod_mul|unfold KERNBASE in *; lia].
  - intros (a & [Hm Hr] & Ha & H1 & H2). pose proof (Z.div_mod a 4096). exists (Z.to_nat (a / 4096)).
    replace (0 + Z.of_nat (Z.to_nat (a / 4096)) * 4096) with a by lia. split; [lia|done].
Qed.

(** The user part of an address space. *)
Lemma dealloc_all s P l :
  KERNBASE < img_end -> space_ok s P l ->
  exists s' l', deallocuvm (pt_dir P) KERNBASE 0 s = Ret 0 s' /\ vm_inv s' P l' /\ only_mem s s' /\
    (forall v, v ∈ l' <-> v ∈ l \/ user_frame (k_mem s) P v) /\
    (forall v a, page v -> ~ owns P v -> ~ user_frame (k_mem s) P v -> v <= a < v + PGSIZE ->
       k_mem s' !! a = k_mem s !! a).
Proof.
  intros Himg [HI Hu Hinj]. assert (exists n, KERNBASE = Z.of_nat n * 4096) as [n En] by (exists (Z.to_nat 524288); unfold KERNBASE; lia).
  assert (forall k, (k < n)%nat -> vpage (0 + Z.of_nat k * 4096)) as Hvp.
  { intros k Hk. split; [by rewrite Z.add_0_l, Z.mod_mul|unfold KERNBASE in *; lia]. }
  destruct (dealloc_loop (Z.to_nat (KERNBASE / PGSIZE) + 2) n s P l 0 KERNBASE 0 HI) as (s' & Hr & HI' & O & K & _).
  - done.
  - lia.
  - by left.
  - lia.
  - lia.
  - lia.
  - rewrite En. unfold PGSIZE. rewrite Z.div_mul by lia. lia.
  - split.
    + apply frames_nodup. intros i j Hi Hj. cbv zeta. intros H1 H2 H3.
      assert (0 + Z.of_nat i * 4096 = 0 + Z.of_nat j * 4096); [|lia].
      apply Hinj; [by apply Hvp|by apply Hvp|lia|lia|done..].
    + intros v (a & Hva & Ha & Hh & <-)%(frames_user _ _ n _ En).
      destruct (Hu a Hva Ha Hh) as (_ & Hp & Hl & Ho). split; [done|]. split; [|done].
      destruct Hp as (_ & ? & _). lia.
  - exists s', (reverse (frames (k_mem s) P 0 n) ++ l). split.
    { unfold deallocuvm. rewrite (proj2 (Z.leb_gt _ _)) by (unfold KERNBASE; lia).
      change (PGROUNDUP 0) with 0. exact Hr. }
    split; [exact HI'|]. split; [exact O|]. split.
    + intros v. rewrite elem_of_app, elem_of_reverse, (frames_user _ _ n _ En). tauto.
    + intros v a Hv Hvo Hvf Ha. apply (K v a Hv); [|done|done]. by rewrite (frames_user _ _ n _ En).
Qed.

(** [freevm] takes an address space apart without losing or doubling a page:
    afterwards the free pages are those that were free, the pages of the page
    table and the user pages, each once, and no other page has changed. *)
Lemma freevm_run s P l :
  KERNBASE < img_end -> space_ok s P l ->
  exists s' l', freevm (pt_dir P) s = Ret tt s' /\ kmem_inv s' l' /\ only_mem s s' /\
    (forall v, v ∈ l' <-> v ∈ l \/ owns P v \/ user_frame (k_mem s) P v) /\
    (forall v a, page v -> ~ owns P v -> ~ user_frame (k_mem s) P v -> v <= a < v + PGSIZE ->
       k_mem s' !! a = k_mem s !! a).
Proof.
  intros Himg HS. pose proof (so_inv _ _ _ HS) as HI. pose proof (vi_wf _ _ _ HI) as W0.
  destruct (dealloc_all s P l Himg HS) as (s1 & l1 & Hr1 & [Hk1 W1 Ho1 Hl1] & O1 & L1 & K1).
  assert (forall v, v ∈ tabs P 0 (Z.to_nat NPDENTRIES) <-> exists i, pt_tabs P !! i = Some v) as Htabs.
  { intros v. rewrite elem_of_tabs. split; [intros (j & _ & E); eauto|]. intros (i & E). exists (Z.to_nat i).
    destruct (pw_tab _ _ W0 i v E) as (_ & Hi & _). rewrite Z2Nat.id by lia. split; [unfold NPDENTRIES; lia|done]. }
  destruct (free_tabs (Z.to_nat NPDENTRIES) 0 s1 P l1 W1 Hk1 Hl1) as (s2 & l2 & Hr2 & W2 & Hk2 & O2 & L2 & K2).
  { unfold NPDENTRIES. lia. }
  { intros v [i Hi]%Htabs Hin. apply (Ho1 v Hin). right. eauto. }
  destruct (wp_kfree (pt_dir P) l2 s2 (pw_dir _ _ W0)) as ([] & s3 & Hr3 & Hk3 & E3 & Hso).
  { unfold only_mem in O2. by rewrite O2. }
  { done. }
  { rewrite L2, Htabs. intros [Hin|[i Hi]]; [apply (Ho1 _ Hin); by left|by apply (pw_ne _ _ W0) in Hi]. }
  exists s3, (pt_dir P :: l2). split.
  { unfold freevm. destruct (pw_dir _ _ W0) as (_ & _ & _ & ?). rewrite (proj2 (Z.eqb_neq _ 0)) by lia.
    rewrite (bind_Ret _ _ _ _ _ Hr1). fold (free_tab (pt_dir P)). rewrite (bind_Ret _ _ _ _ _ Hr2). exact Hr3. }
  split; [exact Hk3|]. split.
  { eapply only_mem_trans; [exact O1|]. eapply only_mem_trans; [exact O2|]. unfold only_mem. rewrite E3. by destruct s2. }
  split.
  - intros v. rewrite elem_of_cons, L2, L1, Htabs. unfold owns. tauto.
  - intros v a Hv Hvo Hvf Ha. rewrite Hso, (K2 v a Hv), (K1 v a); try done.
    + rewrite Htabs. intros H. apply Hvo. by right.
    + assert (v <> pt_dir P) as Hne by (intros ->; apply Hvo; by left).
      pose proof (page_disjoint _ _ Hv (pw_dir _ _ W0) Hne). unfold PGSIZE in *. lia.
Qed.

(** ** The pages of a copy *)

Lemma copied_space P m0 l0 s D l n ms sz :
  NoDup l0 -> copied P m0 l0 s D l n ms -> Z.of_nat n * 4096 < sz + 4096 -> Z.of_nat n * 4096 <= KERNBASE ->
  (forall a, vpage a -> a < sz -> user_page m0 P l0 a) ->
  space_ok s D l /\ forall v, user_frame (k_mem s) D v <-> v ∈ ms.
Proof.
  intros Hnd C Hn Hnk Hu. pose proof (cp_used _ _ _ _ _ _ _ _ C) as (used & El & _ & Hms & _).
  assert (forall v, v ∈ used -> v ∉ l) as Hul by (rewrite El in Hnd; apply NoDup_app in Hnd as (_ & Hd & _); exact Hd).
  assert (forall a, vpage a -> a < KERNBASE -> has (ent (k_mem s) D a) PTE_P = true ->
    ms !! Z.to_nat (a / 4096) = Some (frame (ent (k_mem s) D a))) as Hpg.
  { intros a Ha Hak Hh. destruct (decide (a < Z.of_nat n * 4096)) as [Hlt|Hge].
    - destruct (Hu a Ha) as (Hp & _).
      { destruct Ha as [Hm _]. pose proof (Z.div_mod a 4096). lia. }
      destruct (copied_page _ _ _ _ _ _ _ _ a C Ha Hlt Hp) as (v & Hv & E & _). cbv zeta in E. by rewrite E.
    - rewrite (cp_rest _ _ _ _ _ _ _ _ C a Ha) in Hh by lia. discriminate Hh. }
  split; [split|].
  - apply C.
  - intros a Ha Hak Hh. pose proof (list_elem_of_lookup_2 _ _ _ (Hpg a Ha Hak Hh)) as Hin.
    destruct (cp_own _ _ _ _ _ _ _ _ C _ Hin) as [Hp Ho]. split; [exact Hh|]. split; [exact Hp|]. split; [|exact Ho].
    apply Hul, Hms, Hin.
  - intros a b Ha Hb Hak Hbk Hha Hhb E. pose proof (Hpg a Ha Hak Hha) as H1. pose proof (Hpg b Hb Hbk Hhb) as H2.
    rewrite <- E in H2. pose proof (NoDup_lookup _ _ _ _ (cp_nodup _ _ _ _ _ _ _ _ C) H1 H2) as Eab.
    destruct Ha as [Ha Hra], Hb as [Hb Hrb]. pose proof (Z.div_mod a 4096). pose proof (Z.div_mod b 4096).
    pose proof (Z.div_pos a 4096). pose proof (Z.div_pos b 4096). lia.
  - intros v. split.
    + intros (a & Ha & Hak & Hh & <-). by eapply list_elem_of_lookup_2, Hpg.
    + intros [j Hj]%list_elem_of_lookup_1. pose proof (lookup_lt_Some _ _ _ Hj) as Hlt.
      rewrite (cp_len _ _ _ _ _ _ _ _ C) in Hlt. exists (Z.of_nat j * 4096).
      assert (vpage (Z.of_nat j * 4096)) as Ha by (apply vpage_index; lia).
      destruct (Hu _ Ha ltac:(lia)) as (Hp & _).
      destruct (copied_page _ _ _ _ _ _ _ _ _ C Ha ltac:(lia) Hp) as (w & Hw & E & _ & _ & Hh). cbv zeta in *.
      rewrite Z.div_mul, Nat2Z.id, Hj in Hw by lia. injection Hw as <-. split; [exact Ha|]. split; [lia|]. split; [exact Hh|exact E].
Qed.

(** The original keeps its memory. *)
Lemma copied_original P s0 l0 s D l n ms :
  space_ok s0 P l0 -> copied P (k_mem s0) l0 s D l n ms ->
  space_ok s P l /\ (forall v, owns P v \/ user_frame (k_mem s) P v -> v ∉ l0).
Proof.
  intros HS C. destruct (cp_used _ _ _ _ _ _ _ _ C) as (used & El & _).
  assert (forall v, v ∈ l -> v ∈ l0) as Hsub by (intros v Hv; rewrite El; apply elem_of_app; by right).
  destruct HS as [[_ W Ho _] Hu Hi].
  destruct (pt_wf_frame (k_mem s0) (k_mem s) P) as [W' He]; [|exact W|].
  { intros v a Hv Ha. apply (cp_frame _ _ _ _ _ _ _ _ C v); [by eapply owns_page| |done]. intros Hin. exact (Ho v Hin Hv). }
  split; [split|].
  - destruct (cp_inv _ _ _ _ _ _ _ _ C) as [Hk _ _ Hl]. split; [exact Hk|exact W'| |exact Hl].
    intros v Hv. apply Ho, Hsub, Hv.
  - intros a Ha Hak. unfold user_page. rewrite He. intros Hh. destruct (Hu a Ha Hak Hh) as (H1 & H2 & H3 & H4).
    split; [done|]. split; [done|]. split; [|done]. intros Hin. by apply H3, Hsub.
  - intros a b. rewrite !He. by apply Hi.
  - intros v [Hv|(a & Ha & Hak & Hh & E)] Hin; [exact (Ho v Hin Hv)|]. rewrite He in Hh, E.
    destruct (Hu a Ha Hak Hh) as (_ & _ & H3 & _). by rewrite E in H3.
Qed.

(** A list that is used up by distinct elements. *)
Lemma used_up (xs used : list Z) : NoDup xs -> xs ⊆ used -> length used = length xs -> used ⊆ xs.
Proof.
  intros Hnd Hs Hlen. assert (xs ≡ₚ used) as Hp.
  { apply submseteq_length_Permutation; [|lia]. apply NoDup_submseteq; [done|]. intros x. apply Hs. }
  intros x Hx. by rewrite Hp.
Qed.

(** The pages a copy has taken are its tables and its user pages. *)
Lemma copied_used P m0 l0 s D l n ms :
  NoDup l0 -> copied P m0 l0 s D l n ms -> forall v, v ∈ l0 <-> v ∈ l \/ owns D v \/ v ∈ ms.
Proof.
  intros Hnd C. pose proof (cp_used _ _ _ _ _ _ _ _ C) as (used & El & Hown & Hms & Hlen).
  pose proof (vi_wf _ _ _ (cp_inv _ _ _ _ _ _ _ _ C)) as W.
  set (ts := (map_to_list (pt_tabs D)).*2).
  assert (forall v, v ∈ ts <-> exists i, pt_tabs D !! i = Some v) as Hts.
  { intros v. unfold ts. rewrite list_elem_of_fmap. split.
    - intros ([i w] & -> & Hi%elem_of_map_to_list). eauto.
    - intros [i Hi]. exists (i, v). split; [done|by apply elem_of_map_to_list]. }
  assert (NoDup (pt_dir D :: ts ++ ms)) as Hnd'.
  { apply NoDup_cons. split.
    - intros [[i Hi]%Hts|Hin]%elem_of_app; [by apply (pw_ne _ _ W) in Hi|].
      apply (cp_own _ _ _ _ _ _ _ _ C) in Hin as [_ Ho]. apply Ho. by left.
    - apply NoDup_app. split; [|split].
      + unfold ts. apply NoDup_fmap_2_strong; [|apply NoDup_map_to_list].
        intros [i x] [j y] Hx%elem_of_map_to_list Hy%elem_of_map_to_list E. simpl in E. subst y.
        f_equal. by eapply (pw_inj _ _ W).
      + intros v [i Hi]%Hts Hin. apply (cp_own _ _ _ _ _ _ _ _ C) in Hin as [_ Ho]. apply Ho. right. eauto.
      + apply C. }
  assert (used ⊆ pt_dir D :: ts ++ ms) as Hup.
  { apply used_up; [exact Hnd'| |].
    - intros v [->|[[i Hi]%Hts|Hin]%elem_of_app]%elem_of_cons; [apply Hown; by left|apply Hown; right; eauto|by apply Hms].
    - cbn [length]. rewrite length_app, (cp_len _ _ _ _ _ _ _ _ C), Hlen. unfold ts.
      rewrite length_fmap, length_map_to_list. lia. }
  intros v. rewrite El, elem_of_app. split.
  - intros [Hin%Hup|]; [|by left]. right. apply elem_of_cons in Hin as [->|[Hin|Hin]%elem_of_app]; [left; by left| |by right].
    left. right. by apply Hts.
  - intros [|[Ho|Hin]]; [by right|left; by apply Hown|left; by apply Hms].
Qed.

(** C29: No page is lost when a process comes and goes: with enough free pages,
    [freevm] of the address space [copyuvm] has made leaves exactly the pages
    free that were free before, and every page in use as it was. *)
Theorem copyuvm_freevm s P l sz n :
  image_ok -> vm_inv s P l -> 0 <= sz <= KERNBASE -> sz <= Z.of_nat n * 4096 < sz + 4096 ->
  (forall a, vpage a -> a < sz -> user_page (k_mem s) P l a) -> (1027 + n <= length l)%nat ->
  exists d s1 s2 l2, copyuvm (pt_dir P) sz s = Ret d s1 /\ freevm d s1 = Ret tt s2 /\
    kmem_inv s2 l2 /\ l2 ≡ₚ l /\ only_mem s s2 /\
    (forall v x, page v -> (v ∉ l) -> v <= x < v + PGSIZE -> k_mem s2 !! x = k_mem s !! x).
Proof.
  intros Hi HI Hsz Hn Hu Hlen. pose proof (proj2 (vi_kmem _ _ _ HI)) as Hnd.
  destruct (copyuvm_run s P l sz n Hi HI Hsz Hn Hu Hlen) as (s1 & D & l1 & ms & Hr & C & O).
  assert (Z.of_nat n * 4096 <= KERNBASE) as Hnk by (unfold KERNBASE in *; lia).
  destruct (copied_space P (k_mem s) l s1 D l1 n ms sz Hnd C ltac:(lia) Hnk Hu) as [HS Huf].
  destruct (freevm_run s1 D l1) as (s2 & l2 & Hr2 & Hk2 & O2 & L2 & K2); [|exact HS|].
  { destruct Hi as (_ & Hd & He). unfold KERNLINK, KERNBASE, EXTMEM in *. lia. }
  pose proof (copied_used _ _ _ _ _ _ _ _ Hnd C) as Hall.
  exists (pt_dir D), s1, s2, l2. split; [exact Hr|]. split; [exact Hr2|]. split; [exact Hk2|]. split; [|split].
  - apply NoDup_Permutation; [apply Hk2|exact Hnd|]. intros v. rewrite L2, Huf. symmetry. apply Hall.
  - by eapply only_mem_trans.
  - intros v x Hv Hvl Hx. rewrite Hall in Hvl. rewrite (K2 v x Hv), (cp_frame _ _ _ _ _ _ _ _ C v x Hv); try tauto.
    + rewrite Hall. tauto.
    + rewrite Huf. tauto.
Qed.

End Free.

#[local] Existing Instance vm_image.
#[local] Existing Instance vm_fuel.

Lemma copyuvm_freevm_witness :
  exists s P l d s1 s2 l2, copyuvm (pt_dir P) 100 s = Ret d s1 /\ freevm d s1 = Ret tt s2 /\
    kmem_inv s l /\ kmem_inv s2 l2 /\ l2 ≡ₚ l.
Proof.
  destruct one_page_process as (s & P & l & HI & Hlen & Hu & _).
  destruct (copyuvm_freevm s P l 100 1) as (d & s1 & s2 & l2 & Hr & Hr2 & Hk & Hp & _).
  - exact vm_image_ok.
  - exact HI.
  - split; discriminate.
  - lia.
  - intros a Ha Hlt. apply Hu; [exact Ha|lia].
  - lia.
  - exists s, P, l, d, s1, s2, l2. split; [exact Hr|]. split; [exact Hr2|]. split; [apply HI|]. split; [exact Hk|exact Hp].
Defined.
