(* ===== verification/UserMem.v ===== *)
(** * User memory through a page table ([vm.c])

    Loads and stores at user addresses, by the kernel following the page table
    in use ([uload], [ustore]) and by [copyout] following another one. *)

From S2P Require Import Prelude Monad State Strings Sched Bio BioSpec Layout Log Inode Console.
From S2P Require Import Content Kalloc Vm VmSpec VmProps VmFree.

#[local] Opaque memset store memmove.

Section UserMem.
Context {WF : WakeFuel} {KI : KernelImage}.

(** ** Addresses *)

(** The first byte of the page of an address. *)
Abbreviation pg va := (va / 4096 * 4096).

Lemma pg_vpage va : 0 <= va < 4294967296 -> vpage (pg va).
Proof.
  intros Hr. split; [by apply Z.mod_mul|]. pose proof (Z.div_mod va 4096). pose proof (Z.mod_pos_bound va 4096).
  pose proof (Z.div_pos va 4096). lia.
Qed.

Lemma pg_off a o : a mod 4096 = 0 -> 0 <= o < 4096 -> pg (a + o) = a /\ (a + o) mod 4096 = o.
Proof.
  intros Ha Ho. pose proof (Z.div_mod a 4096).
  assert ((a + o) / 4096 = a / 4096) as -> by (symmetry; apply (Z.div_unique _ _ _ o); lia).
  split; [lia|]. symmetry. apply (Z.mod_unique _ _ (a / 4096)); lia.
Qed.

Lemma ent_pg m P va : ent m P (pg va) = ent m P va.
Proof.
  unfold ent. assert (forall k, pg va / 4096 / k = va / 4096 / k) as E by (intros; by rewrite Z.div_mul).
  rewrite !PDX_eq, !PTX_eq. change 4194304 with (4096 * 1024). rewrite <- !Z.div_div, E, Z.div_mul by lia. done.
Qed.

(** Where the byte of a user address lies. *)
Definition upos (m : mem) (P : ptab) (va : Z) : Z := frame (ent m P va) + va mod 4096.

(** The byte can be reached. *)
Definition umapped (m : mem) (P : ptab) (va : Z) : Prop := has (ent m P va) PTE_P = true.

Lemma umapped_page s P l va :
  space_ok s P l -> 0 <= va < KERNBASE -> umapped (k_mem s) P va ->
  let v := frame (ent (k_mem s) P va) in
  page v /\ (v ∉ l) /\ ~ owns P v /\ v <= upos (k_mem s) P va < v + PGSIZE.
Proof.
  intros HS Hr Hm. cbv zeta. assert (vpage (pg va)) as Hp by (apply pg_vpage; unfold KERNBASE in *; lia).
  destruct (so_page _ _ _ HS (pg va) Hp) as (_ & H1 & H2 & H3).
  - pose proof (Z.div_mod va 4096). pose proof (Z.mod_pos_bound va 4096). lia.
  - by rewrite ent_pg.
  - rewrite ent_pg in *. split; [done|]. split; [done|]. split; [done|]. unfold upos, PGSIZE.
    pose proof (Z.mod_pos_bound va 4096). lia.
Qed.

(** Different addresses have different bytes. *)
Lemma upos_inj s P l a b :
  space_ok s P l -> 0 <= a < KERNBASE -> 0 <= b < KERNBASE ->
  umapped (k_mem s) P a -> umapped (k_mem s) P b -> upos (k_mem s) P a = upos (k_mem s) P b -> a = b.
Proof.
  intros HS Ha Hb Hma Hmb E. unfold umapped in *.
  destruct (umapped_page s P l a HS Ha Hma) as (P1 & _ & _ & R1).
  destruct (umapped_page s P l b HS Hb Hmb) as (P2 & _ & _ & R2).
  assert (frame (ent (k_mem s) P a) = frame (ent (k_mem s) P b)) as Ef.
  { destruct (decide (frame (ent (k_mem s) P a) = frame (ent (k_mem s) P b))) as [|Hne]; [done|].
    pose proof (page_disjoint _ _ P1 P2 Hne). unfold PGSIZE in *. lia. }
  assert (pg a = pg b) as Ep.
  { pose proof (Z.div_mod a 4096). pose proof (Z.mod_pos_bound a 4096).
    pose proof (Z.div_mod b 4096). pose proof (Z.mod_pos_bound b 4096).
    apply (so_inj _ _ _ HS); try (apply pg_vpage; unfold KERNBASE in *; lia); try lia; by rewrite !ent_pg. }
  unfold upos in E. pose proof (Z.div_mod a 4096). pose proof (Z.div_mod b 4096). lia.
Qed.

(** ** Stores *)

(** [m'] is [m] with the bytes [bs] at the user addresses from [va] on. *)
Definition ustored (P : ptab) (m : mem) (va : Z) (bs : list Z) (m' : mem) : Prop :=
  (forall j b, bs !! j = Some b -> m' !! upos m P (va + Z.of_nat j) = Some b) /\
  (forall x, (forall j, (j < length bs)%nat -> x <> upos m P (va + Z.of_nat j)) -> m' !! x = m !! x).

(** The bytes of a range can be reached. *)
Definition urange (m : mem) (P : ptab) (va : Z) (n : nat) : Prop :=
  0 <= va /\ va + Z.of_nat n <= KERNBASE /\ forall j, (j < n)%nat -> umapped m P (va + Z.of_nat j).

Lemma ustored_nil P m va : ustored P m va [] m.
Proof. split; [by intros j b ?|done]. Qed.

(** A store at mapped addresses leaves the table and the free list alone. *)
Lemma ustored_space s P l va bs m' :
  space_ok s P l -> urange (k_mem s) P va (length bs) -> ustored P (k_mem s) va bs m' ->
  space_ok (set_k_mem m' s) P l /\ (forall a, ent m' P a = ent (k_mem s) P a) /\
  (forall v a, page v -> ~ user_frame (k_mem s) P v -> v <= a < v + PGSIZE -> m' !! a = k_mem s !! a).
Proof.
  intros HS (H0 & H1 & Hm) [_ Hout].
  assert (forall v a, page v -> ~ user_frame (k_mem s) P v -> v <= a < v + PGSIZE -> m' !! a = k_mem s !! a) as Hk.
  { intros v a Hv Hnu Ha. apply Hout. intros j Hj ->. apply Hnu.
    destruct (umapped_page s P l (va + Z.of_nat j) HS ltac:(lia) (Hm j Hj)) as (Hp & _ & _ & Hr).
    set (w := frame _) in *. assert (v = w) as ->.
    { destruct (decide (v = w)) as [|Hne]; [done|]. pose proof (page_disjoint _ _ Hv Hp Hne). unfold PGSIZE in *. lia. }
    exists (pg (va + Z.of_nat j)). rewrite ent_pg. split; [apply pg_vpage; unfold KERNBASE in *; lia|].
    split; [|split; [by apply Hm|done]]. pose proof (Z.div_mod (va + Z.of_nat j) 4096). pose proof (Z.mod_pos_bound (va + Z.of_nat j) 4096). lia. }
  destruct (space_ok_frame s (set_k_mem m' s) P l) as [HS' He]; [|done|apply (vi_lock _ _ _ (so_inv _ _ _ HS))|exact HS|done].
  intros v a Hv Ha. apply (Hk v); [| |done].
  - destruct Hv as [Hv|Hv]; [by eapply owns_page, Hv; apply HS|]. destruct (vi_kmem _ _ _ (so_inv _ _ _ HS)) as [Hf _].
    by apply (proj1 (Forall_forall _ _) (flist_pages _ _ _ Hf)).
  - intros (x & Hx & Hxk & Hh & E). destruct (so_page _ _ _ HS x Hx Hxk Hh) as (_ & _ & Hn1 & Hn2). rewrite E in *.
    destruct Hv; [by apply Hn2|by apply Hn1].
Qed.

(** Two stores one behind the other. *)
Lemma ustored_app s P l va bs1 bs2 m1 m2 :
  space_ok s P l -> urange (k_mem s) P va (length (bs1 ++ bs2)) ->
  ustored P (k_mem s) va bs1 m1 -> ustored P m1 (va + Z.of_nat (length bs1)) bs2 m2 ->
  ustored P (k_mem s) va (bs1 ++ bs2) m2.
Proof.
  intros HS Hr H1 H2. rewrite length_app in Hr. pose proof Hr as (R0 & R1 & Rm).
  destruct (ustored_space s P l va bs1 m1 HS) as (_ & He & _); [|done|].
  { split; [done|]. split; [lia|]. intros j Hj. apply Rm. lia. }
  assert (forall a, upos m1 P a = upos (k_mem s) P a) as Eu by (intros; unfold upos; by rewrite He).
  destruct H1 as [S1 O1], H2 as [S2 O2]. split.
  - intros j b [Hj|[Hge Hj]]%lookup_app_Some.
    + pose proof (lookup_lt_Some _ _ _ Hj). rewrite O2; [by apply S1|]. intros i Hi. rewrite Eu. intros E.
      apply (upos_inj s P l) in E; [lia|done|lia|lia|apply Rm; lia|].
      replace (va + Z.of_nat (length bs1) + Z.of_nat i) with (va + Z.of_nat (length bs1 + i)) by lia. apply Rm. lia.
    + apply S2 in Hj. rewrite Eu in Hj.
      by replace (va + Z.of_nat (length bs1) + Z.of_nat (j - length bs1)) with (va + Z.of_nat j) in Hj by lia.
  - intros x Hx. rewrite O2, O1; [done| |].
    + intros j Hj. apply Hx. rewrite length_app. lia.
    + intros j Hj. rewrite Eu.
      replace (va + Z.of_nat (length bs1) + Z.of_nat j) with (va + Z.of_nat (length bs1 + j)) by lia.
      apply Hx. rewrite length_app. lia.
Qed.

(** ** The page table in use *)

Lemma user_addr_run s P va :
  pt_wf (k_mem s) P -> p2v (k_cr3 s) = pt_dir P -> umapped (k_mem s) P va ->
  user_addr va s = Ret (upos (k_mem s) P va) s.
Proof.
  intros W Hc Hm. unfold umapped, upos, ent in *. destruct (pt_tabs P !! PDX va) as [t|] eqn:Et; [|discriminate Hm].
  destruct (pw_tab _ _ W _ _ Et) as (Ht & _ & E). destruct (pde_addr t Ht) as (E1 & E2 & _).
  unfold user_addr. do 2 kstep. rewrite Hc, E, E2. cbn [negb]. kstep. rewrite E1, Hm. done.
Qed.

Lemma ustore_run bs s P l va :
  space_ok s P l -> p2v (k_cr3 s) = pt_dir P -> urange (k_mem s) P va (length bs) -> Forall (fun b => 0 <= b < 256) bs ->
  exists m', ustore va bs s = Ret tt (set_k_mem m' s) /\ ustored P (k_mem s) va bs m'.
Proof.
  revert s va. induction bs as [|b bs IH]; intros s va HS Hc Hr Hb.
  { exists (k_mem s). split; [by destruct s|apply ustored_nil]. }
  apply Forall_cons in Hb as [Hb0 Hb]. pose proof Hr as (R0 & R1 & Rm).
  pose proof (Rm 0%nat ltac:(simpl; lia)) as M0. rewrite Z.add_0_r in M0.
  set (m1 := <[upos (k_mem s) P va := b]> (k_mem s)).
  assert (ustored P (k_mem s) va [b] m1) as S1.
  { split.
    - intros [|j] b' E; [|done]. injection E as <-. rewrite Z.add_0_r. apply lookup_insert_eq.
    - intros x Hx. apply lookup_insert_ne. intros <-. apply (Hx 0%nat); [simpl; lia|]. by rewrite Z.add_0_r. }
  assert (ustore1 va b s = Ret tt (set_k_mem m1 s)) as Hr1.
  { unfold ustore1. rewrite (bind_Ret _ _ _ _ _ (user_addr_run s P va (vi_wf _ _ _ (so_inv _ _ _ HS)) Hc M0)).
    unfold modify. f_equal. unfold m1, stb. by rewrite u8_id by lia. }
  destruct (ustored_space s P l va [b] m1 HS) as (HS1 & He & _); [|done|].
  { split; [done|]. split; [simpl in *; lia|]. intros j Hj. apply Rm. simpl in *. lia. }
  destruct (IH (set_k_mem m1 s) (va + 1) HS1 Hc) as (m2 & Hr2 & S2); [|exact Hb|].
  { split; [lia|]. split; [simpl in R1; lia|]. intros j Hj. unfold umapped. cbn [k_mem set_k_mem]. rewrite He.
    replace (va + 1 + Z.of_nat j) with (va + Z.of_nat (S j)) by lia. apply Rm. simpl. lia. }
  exists m2. split.
  - cbn [ustore]. rewrite (bind_Ret _ _ _ _ _ Hr1), Hr2. by destruct s.
  - apply (ustored_app s P l va [b] bs m1 m2); [done|done|done|]. exact S2.
Qed.

Lemma uload_run n s P va :
  pt_wf (k_mem s) P -> p2v (k_cr3 s) = pt_dir P -> (forall j, (j < n)%nat -> umapped (k_mem s) P (va + Z.of_nat j)) ->
  uload va n s = Ret (map (fun j => ldb (k_mem s) (upos (k_mem s) P (va + Z.of_nat j))) (seq 0 n)) s.
Proof.
  intros W Hc. revert va. induction n as [|n IH]; intros va Hm; [done|].
  pose proof (Hm 0%nat ltac:(lia)) as M0. rewrite Z.add_0_r in M0.
  assert (uload1 va s = Ret (ldb (k_mem s) (upos (k_mem s) P va)) s) as H1.
  { unfold uload1. by rewrite (bind_Ret _ _ _ _ _ (user_addr_run s P va W Hc M0)). }
  assert (uload (va + 1) n s = Ret (map (fun j => ldb (k_mem s) (upos (k_mem s) P (va + 1 + Z.of_nat j))) (seq 0 n)) s) as H2.
  { apply IH. intros j Hj. replace (va + 1 + Z.of_nat j) with (va + Z.of_nat (S j)) by lia. apply Hm. lia. }
  cbn [uload]. rewrite (bind_Ret _ _ _ _ _ H1), (bind_Ret _ _ _ _ _ H2). unfold mret, M_ret. f_equal.
  cbn [seq map]. rewrite Z.add_0_r. f_equal. rewrite <- seq_shift, map_map. apply map_ext. intros j.
  by replace (va + 1 + Z.of_nat j) with (va + Z.of_nat (S j)) by lia.
Qed.

(** The page of a reachable byte. *)
Lemma umapped_frame m P va : 0 <= va < KERNBASE -> umapped m P va -> user_frame m P (frame (ent m P va)).
Proof.
  intros Hr Hm. exists (pg va). rewrite ent_pg. pose proof (Z.div_mod va 4096). pose proof (Z.mod_pos_bound va 4096).
  split; [apply pg_vpage; unfold KERNBASE in *; lia|]. split; [lia|]. done.
Qed.

(** What has been stored is loaded, as long as the pages of the address space
    are kept. *)
Lemma ustored_uload s s' P l va bs m' :
  space_ok s P l -> urange (k_mem s) P va (length bs) -> ustored P (k_mem s) va bs m' ->
  (forall v a, page v -> owns P v \/ user_frame (k_mem s) P v -> v <= a < v + PGSIZE -> k_mem s' !! a = m' !! a) ->
  p2v (k_cr3 s') = pt_dir P -> uload va (length bs) s' = Ret bs s'.
Proof.
  intros HS Hr Hst Hkeep Hc. destruct (ustored_space s P l va bs m' HS Hr Hst) as (HS' & He & _).
  destruct (pt_wf_frame m' (k_mem s') P) as [W4 He4]; [|apply HS'|].
  { intros v a Hv Ha. apply (Hkeep v); [by eapply owns_page, Hv; apply HS|by left|done]. }
  destruct Hr as (R0 & R1 & Rm). rewrite (uload_run (length bs) s' P va W4 Hc).
  2: { intros j Hj. unfold umapped. rewrite He4, He. by apply Rm. }
  f_equal. apply (list_eq_same_length _ _ (length bs)); [done|by rewrite length_map, length_seq|].
  intros j x y Hj Hx Hy. change (@map nat Z) with (@fmap list _ nat Z) in Hx.
  rewrite list_lookup_fmap, lookup_seq_lt in Hx by done. simpl in Hx. injection Hx as <-.
  destruct (umapped_page s P l (va + Z.of_nat j) HS ltac:(lia) (Rm j Hj)) as (Hf & _ & _ & Hrg).
  unfold ldb, upos. rewrite He4, He. fold (upos (k_mem s) P (va + Z.of_nat j)).
  rewrite (Hkeep _ _ Hf); [by rewrite (proj1 Hst j y Hy)| |exact Hrg].
  right. apply umapped_frame; [lia|by apply Rm].
Qed.

(** ** [copyout] *)

(** User code may access the page. *)
Definition uaccess (m : mem) (P : ptab) (va : Z) : Prop := has (ent m P va) PTE_P = true /\ has (ent m P va) PTE_U = true.

Lemma uva2ka_run s P va :
  pt_wf (k_mem s) P -> uaccess (k_mem s) P va -> uva2ka (pt_dir P) va s = Ret (frame (ent (k_mem s) P va)) s.
Proof.
  intros W [Hp Hu]. unfold ent in *. destruct (pt_tabs P !! PDX va) as [t|] eqn:Et; [|discriminate Hp].
  destruct (pw_tab _ _ W _ _ Et) as ((_ & _ & _ & Ht) & _). pose proof (PTX_range va).
  unfold uva2ka. rewrite (bind_Ret _ _ _ _ _ (walk_found s P va t false W Et)), (proj2 (Z.eqb_neq _ 0)) by lia.
  kstep. by rewrite Hp, Hu.
Qed.

(** A store that does not cross a page. *)
Lemma putmem_ustored m P va bs :
  0 <= va -> va mod 4096 + Z.of_nat (length bs) <= 4096 -> ustored P m va bs (store (upos m P va) bs m).
Proof.
  intros H0 Hlen. assert (forall j, (j < length bs)%nat -> upos m P (va + Z.of_nat j) = upos m P va + Z.of_nat j) as E.
  { intros j Hj. pose proof (Z.div_mod va 4096) as Hd. pose proof (Z.mod_pos_bound va 4096).
    destruct (pg_off (pg va) (va mod 4096 + Z.of_nat j)) as [E1 E2]; [by apply Z.mod_mul|lia|].
    replace (pg va + (va mod 4096 + Z.of_nat j)) with (va + Z.of_nat j) in * by lia.
    unfold upos. rewrite E2, <- (ent_pg m P (va + Z.of_nat j)), E1, ent_pg. lia. }
  split.
  - intros j b Hj. pose proof (lookup_lt_Some _ _ _ Hj). rewrite E by done. rewrite lookup_store, decide_True by lia.
    by replace (Z.to_nat (upos m P va + Z.of_nat j - upos m P va)) with j by lia.
  - intros x Hx. apply store_out. intros Hin. apply (Hx (Z.to_nat (x - upos m P va))); [lia|]. rewrite E by lia. lia.
Qed.

Definition copyout_body (pgdir : Z) : Z * list Z * Z -> K (Z * list Z * Z + Z) := fun '(va, buf, len) =>
  if 0 <? len then
    let va0 := PGROUNDDOWN va in
    pa0 ← uva2ka pgdir va0;
    if pa0 =? 0 then mret (inr (-1))
    else
      let n := Z.min (PGSIZE - (va - va0)) len in
      putmem (pa0 + (va - va0)) (take (Z.to_nat n) buf);;
      mret (inl (u32 (va0 + PGSIZE), drop (Z.to_nat n) buf, len - n))
  else mret (inr 0).

(** The bytes of a range are user memory. *)
Definition uwritable (m : mem) (P : ptab) (va : Z) (n : nat) : Prop :=
  0 <= va /\ va + Z.of_nat n <= KERNBASE /\ forall j, (j < n)%nat -> uaccess m P (va + Z.of_nat j).

Lemma uwritable_urange m P va n : uwritable m P va n -> urange m P va n.
Proof. intros (H0 & H1 & H). split; [done|]. split; [done|]. intros j Hj. apply H, Hj. Qed.

(** One round: the bytes up to the end of the page. *)
Lemma copyout_round s P l va bs :
  space_ok s P l -> uwritable (k_mem s) P va (length bs) -> bs <> [] ->
  let n := Z.to_nat (Z.min (4096 - va mod 4096) (Z.of_nat (length bs))) in
  exists m1, copyout_body (pt_dir P) (va, bs, Z.of_nat (length bs)) s =
    Ret (inl (pg va + 4096, drop n bs, Z.of_nat (length (drop n bs)))) (set_k_mem m1 s) /\
    ustored P (k_mem s) va (take n bs) m1.
Proof.
  intros HS Hw Hne n. pose proof Hw as (R0 & R1 & Ra). pose proof (Z.mod_pos_bound va 4096) as Hmod. pose proof (Z.div_mod va 4096) as Hd.
  assert (0 < length bs)%nat as Hlen by (destruct bs; [done|simpl; lia]).
  pose proof (Ra 0%nat Hlen) as A0. rewrite Z.add_0_r in A0.
  destruct (umapped_page s P l va HS ltac:(lia) (proj1 A0)) as ((_ & _ & _ & Hf0) & _).
  exists (store (upos (k_mem s) P va) (take n bs) (k_mem s)). split.
  - unfold copyout_body. rewrite (proj2 (Z.ltb_lt _ _)) by lia. rewrite PGROUNDDOWN_eq. change PGSIZE with 4096.
    assert (uva2ka (pt_dir P) (pg va) s = Ret (frame (ent (k_mem s) P va)) s) as Hk.
    { rewrite (uva2ka_run s P (pg va) (vi_wf _ _ _ (so_inv _ _ _ HS))); [by rewrite ent_pg|].
      unfold uaccess. rewrite ent_pg. exact A0. }
    rewrite (bind_Ret _ _ _ _ _ Hk), (proj2 (Z.eqb_neq _ 0)) by lia.
    replace (va - pg va) with (va mod 4096) by lia. fold (upos (k_mem s) P va).
    change (Z.to_nat (Z.min (4096 - va mod 4096) (Z.of_nat (length bs)))) with n.
    kstep. rewrite u32_id by (unfold KERNBASE in *; lia).
    replace (Z.of_nat (length (drop n bs))) with (Z.of_nat (length bs) - Z.min (4096 - va mod 4096) (Z.of_nat (length bs)))
      by (rewrite length_drop; lia).
    reflexivity.
  - apply putmem_ustored; [lia|]. rewrite length_take. lia.
Qed.

Lemma copyout_loop fuel s P l va bs :
  space_ok s P l -> uwritable (k_mem s) P va (length bs) -> (0 < fuel)%nat ->
  va mod 4096 + Z.of_nat (length bs) <= 4096 * (Z.of_nat fuel - 1) ->
  exists m', loop fuel (copyout_body (pt_dir P)) (va, bs, Z.of_nat (length bs)) s = Ret 0 (set_k_mem m' s) /\
    ustored P (k_mem s) va bs m'.
Proof.
  revert s va bs. induction fuel as [|fuel IH]; intros s va bs HS Hw Hf Hlen; [lia|].
  destruct (decide (bs = [])) as [->|Hne].
  { exists (k_mem s). split; [|apply ustored_nil]. apply loop_done. by destruct s. }
  pose proof (Z.mod_pos_bound va 4096) as Hmod. pose proof (Z.div_mod va 4096) as Hd.
  assert (0 < length bs)%nat as Hlen0 by (destruct bs; [done|simpl; lia]).
  destruct (copyout_round s P l va bs HS Hw Hne) as (m1 & Hr & S1). set (n := Z.to_nat _) in *.
  assert (n <= length bs)%nat as Hn by lia.
  destruct (ustored_space s P l va (take n bs) m1 HS) as (HS1 & He & _); [|exact S1|].
  { apply uwritable_urange. destruct Hw as (W0 & W1 & Wa). rewrite length_take. split; [done|]. split; [lia|].
    intros j Hj. apply Wa. lia. }
  destruct (decide (n = length bs)) as [En|Hlt].
  { rewrite En, drop_all in Hr. exists m1. split; [|by rewrite En, firstn_all in S1].
    rewrite (loop_next _ _ _ _ _ _ Hr). destruct fuel as [|fuel]; [lia|]. by apply loop_done. }
  assert (pg va + 4096 = va + Z.of_nat n) as Eva by lia.
  rewrite (loop_next _ _ _ _ _ _ Hr), Eva.
  destruct (IH (set_k_mem m1 s) (va + Z.of_nat n) (drop n bs) HS1) as (m2 & Hr2 & S2).
  - rewrite length_drop. destruct Hw as (W0 & W1 & Wa). split; [lia|]. split; [lia|]. intros j Hj.
    unfold uaccess. cbn [k_mem set_k_mem]. rewrite He.
    replace (va + Z.of_nat n + Z.of_nat j) with (va + Z.of_nat (n + j)) by lia. apply Wa. lia.
  - lia.
  - rewrite <- Eva, length_drop. rewrite Zplus_mod, Z.mod_mul by lia. change ((0 + 4096 mod 4096) mod 4096) with 0. lia.
  - exists m2. split; [rewrite Hr2; by destruct s|]. rewrite <- (take_drop n bs) at 1.
    apply (ustored_app s P l va _ _ m1 m2); [done| |done|].
    + rewrite take_drop. by apply uwritable_urange.
    + rewrite length_take, Nat.min_l by done. exact S2.
Qed.

Lemma copyout_run s P l va bs :
  space_ok s P l -> uwritable (k_mem s) P va (length bs) ->
  exists m', copyout (pt_dir P) va bs (Z.of_nat (length bs)) s = Ret 0 (set_k_mem m' s) /\ ustored P (k_mem s) va bs m'.
Proof.
  intros HS Hw. unfold copyout. fold (copyout_body (pt_dir P)). apply (copyout_loop _ _ _ l); [done|done|lia|].
  pose proof (Z.mod_pos_bound va 4096). pose proof (Z.div_mod (Z.of_nat (length bs)) 4096).
  pose proof (Z.mod_pos_bound (Z.of_nat (length bs)) 4096). pose proof (Z.div_pos (Z.of_nat (length bs)) 4096). unfold PGSIZE. lia.
Qed.

(** C30: What [copyout] copies into an address space, a process that runs in it
    reads: when the range is user memory [copyout] returns 0, loads through
    this page table give exactly the bytes, across page boundaries, and every
    byte of memory that is not in the range, the page tables and all free
    pages included, is as it was. *)
Theorem copyout_uload s P l va bs :
  space_ok s P l -> uwritable (k_mem s) P va (length bs) ->
  exists m', copyout (pt_dir P) va bs (Z.of_nat (length bs)) s = Ret 0 (set_k_mem m' s) /\
    (let s' := set_k_mem m' (set_k_cr3 (v2p (pt_dir P)) s) in uload va (length bs) s' = Ret bs s') /\
    space_ok (set_k_mem m' s) P l /\
    (forall x, (forall j, (j < length bs)%nat -> x <> upos (k_mem s) P (va + Z.of_nat j)) -> m' !! x = k_mem s !! x).
Proof.
  intros HS Hw. destruct (copyout_run s P l va bs HS Hw) as (m' & Hr & Hst). pose proof (uwritable_urange _ _ _ _ Hw) as Hu.
  exists m'. split; [exact Hr|]. destruct (ustored_space s P l va bs m' HS Hu Hst) as (HS' & _ & _).
  split; [|split; [exact HS'|apply Hst]].
  apply (ustored_uload s _ P l va bs m'); [exact HS|exact Hu|exact Hst|done|].
  cbn [k_cr3 set_k_cr3]. apply p2v_v2p, (pw_dir _ _ (vi_wf _ _ _ (so_inv _ _ _ HS))).
Qed.

End UserMem.

#[local] Existing Instance vm_image.
#[local] Existing Instance vm_fuel.

(** A process with one page. *)
Lemma one_page_space :
  exists s P l, space_ok s P l /\ (1100 <= length l)%nat /\ only_mem (reset_state (mkdisk ∅ 0 [])) s /\
    (forall a, vpage a -> a < 4096 -> user_page (k_mem s) P l a) /\ uwritable (k_mem s) P 0 (Z.to_nat 4096) /\
    ~ umapped (k_mem s) P 4096.
Proof.
  destruct one_page_process as (s & P & l & HI & Hlen & Hu & H0 & HU & HO). exists s, P, l.
  assert (vpage 0) as V0 by (split; [reflexivity|lia]).
  assert (forall a, vpage a -> a < KERNBASE -> has (ent (k_mem s) P a) PTE_P = true -> a = 0) as Hz.
  { intros a Ha Hak Hh. destruct (decide (4096 <= a)) as [Hge|Hlt].
    - rewrite (H0 a Ha) in Hh by lia. discriminate Hh.
    - destruct Ha as [Hm Hr]. pose proof (Z.div_mod a 4096). lia. }
  split; [split|split; [exact Hlen|split; [exact HO|split; [exact Hu|split]]]].
  - exact HI.
  - intros a Ha Hak Hh. rewrite (Hz a Ha Hak Hh). apply Hu; [exact V0|lia].
  - intros a b Ha Hb Hak Hbk Hha Hhb _. by rewrite (Hz a), (Hz b).
  - split; [lia|]. split; [unfold KERNBASE; lia|]. intros j Hj. unfold uaccess.
    rewrite <- ent_pg, Z.add_0_l, (Z.div_small (Z.of_nat j) 4096), Z.mul_0_l by lia.
    split; [apply (Hu 0 V0); lia|exact HU].
  - unfold umapped. rewrite H0; [discriminate|split; [reflexivity|lia]|unfold KERNBASE; lia].
Qed.

Lemma copyout_uload_witness :
  exists s P m', copyout (pt_dir P) 8 [104; 105; 0] 3 s = Ret 0 (set_k_mem m' s) /\
    (let s' := set_k_mem m' (set_k_cr3 (v2p (pt_dir P)) s) in uload 8 3 s' = Ret [104; 105; 0] s').
Proof.
  destruct one_page_space as (s & P & l & HS & _ & _ & _ & (H0 & H1 & Ha) & _).
  destruct (copyout_uload s P l 8 [104; 105; 0]) as (m' & Hr & Hl & _).
  - exact HS.
  - split; [lia|]. split; [unfold KERNBASE; simpl; lia|]. intros j Hj. simpl in Hj.
    replace (8 + Z.of_nat j) with (0 + Z.of_nat (8 + j)) by lia. apply Ha. lia.
  - exists s, P, m'. split; [exact Hr|exact Hl].
Defined.
