(* ===== verification/Process.v ===== *)
(** * Processes ([proc.c])

    The life of a process: [allocproc], [userinit], [fork], [exit], [wait],
    [growproc], [forkret], the system call [pstat] and [procdump].  The trap
    frame and the context of a process lie in its kernel stack; they are the
    fields [p_tf] and [p_context]. *)

From S2P Require Import Prelude Monad State Strings Sched Bio BioSpec Layout Log Inode Console.
From S2P Require Import Content Kalloc Pipe File Vm.

Definition TRAPFRAME_SIZE : Z := 76.
Definition SEG_UCODE : Z := 4.
Definition SEG_UDATA : Z := 5.
Definition DPL_USER : Z := 3.
Definition FL_IF : Z := 512.

(** ["initcode"] and ["/"] *)
Definition str_initcode : list Z := [105; 110; 105; 116; 99; 111; 100; 101].
Definition str_root : list Z := [47].

(** [safestrcpy(p->name, s, sizeof(p->name))] *)
Definition name_copy (s name : list Z) : list Z := splice 0 (safestrcpy_l 16 s) name.

Definition tf_zero : trapframe := mktf 0 0 0 0 0 0 0 0 0 0 0 0 0 0 0 0 0 0 0.
Definition ctx_zero : context := mkctx 0 0 0 0 0.

(** [struct procstat] as it is laid out in user memory. *)
Definition procstate_code (st : procstate) : Z :=
  match st with
  | UNUSED => 0 | EMBRYO => 1 | SLEEPING => 2 | RUNNABLE => 3 | RUNNING => 4 | ZOMBIE => 5
  end.
Definition enc_procstat (ps : procstat) : list Z :=
  ps_name ps ++ le_enc 4 (ps_sz ps) ++ le_enc 4 (ps_nofile ps)
  ++ le_enc 4 (procstate_code (ps_state ps)).

(** The number of open files [pstat] reports. *)
Definition count_open (ofile : list (option nat)) : Z :=
  foldl (fun n f => match f with Some _ => n + 1 | None => n end) 0 (take NOFILE ofile).

(** The record [pstat] fills in. *)
Definition procstat_of (r : proc) : procstat :=
  mkprocstat (take 16 (p_name r)) (p_sz r) (count_open (p_ofile r)) (p_state r).

Section Process.
Context {WF : WakeFuel} {KI : KernelImage}.

Definition allocproc : K (option nat) :=
  acquire LkPtable;;
  found ← scan (seq 0 NPROC) (fun p =>
    r ← getproc p;
    mret (if bool_decide (p_state r = UNUSED) then Some p else None));
  match found with
  | None => release LkPtable;; mret None
  | Some p =>
      modify (upd_proc p (set_p_state EMBRYO));;
      pid ← gets k_nextpid;
      modify (upd_proc p (set_p_pid pid));;
      modify (set_k_nextpid (s32 (pid + 1)));;
      release LkPtable;;
      kstack ← kalloc;
      modify (upd_proc p (set_p_kstack kstack));;
      if kstack =? 0 then
        modify (upd_proc p (set_p_state UNUSED));;
        mret None
      else
        stmem (kstack + KSTACKSIZE - TRAPFRAME_SIZE - 4) img_trapret;;
        modify (upd_proc p (set_p_context (set_cx_eip img_forkret ctx_zero)));;
        mret (Some p)
  end.

Definition userinit : K unit :=
  np ← allocproc;
  modify (set_k_initproc np);;
  match np with
  | None => undef
  | Some p =>
      pgdir ← setupkvm;
      modify (upd_proc p (set_p_pgdir pgdir));;
      if pgdir =? 0 then panic "userinit: out of memory?"
      else
        inituvm pgdir img_initcode (Z.of_nat (length img_initcode));;
        modify (upd_proc p (set_p_sz PGSIZE));;
        let cs := Z.lor (Z.shiftl SEG_UCODE 3) DPL_USER in
        let ds := Z.lor (Z.shiftl SEG_UDATA 3) DPL_USER in
        modify (upd_proc p (set_p_tf
          (set_tf_eip 0 (set_tf_esp PGSIZE (set_tf_eflags FL_IF
            (set_tf_ss ds (set_tf_es ds (set_tf_ds ds (set_tf_cs cs tf_zero)))))))));;
        modify (upd_proc p (fun r => set_p_name (name_copy str_initcode (p_name r)) r));;
        cwd ← namei str_root;
        modify (upd_proc p (set_p_cwd cwd));;
        modify (upd_proc p (set_p_state RUNNABLE))
  end.

Definition growproc (n : Z) : K Z :=
  p ← curproc;
  r ← getproc p;
  let sz := p_sz r in
  if 0 <? n then
    sz ← allocuvm (p_pgdir r) sz (u32 (sz + n));
    if sz =? 0 then mret (-1)
    else
      modify (upd_proc p (set_p_sz sz));;
      switchuvm p;;
      mret 0
  else if n <? 0 then
    sz ← deallocuvm (p_pgdir r) sz (u32 (sz + n));
    if sz =? 0 then mret (-1)
    else
      modify (upd_proc p (set_p_sz sz));;
      switchuvm p;;
      mret 0
  else
    switchuvm p;;
    mret 0.

Definition fork : K Z :=
  np ← allocproc;
  match np with
  | None => mret (-1)
  | Some np =>
      cur ← curproc;
      c ← getproc cur;
      pgdir ← copyuvm (p_pgdir c) (p_sz c);
      modify (upd_proc np (set_p_pgdir pgdir));;
      if pgdir =? 0 then
        r ← getproc np;
        kfree (p_kstack r);;
        modify (upd_proc np (set_p_kstack 0));;
        modify (upd_proc np (set_p_state UNUSED));;
        mret (-1)
      else
        c ← getproc cur;
        modify (upd_proc np (set_p_sz (p_sz c)));;
        modify (upd_proc np (set_p_parent (Some cur)));;
        modify (upd_proc np (set_p_tf (set_tf_eax 0 (p_tf c))));;
        for_each (seq 0 NOFILE) (fun i =>
          c ← getproc cur;
          match p_ofile c !!! i with
          | Some f =>
              f ← filedup f;
              modify (upd_proc np (fun r => set_p_ofile (<[i := Some f]> (p_ofile r)) r))
          | None => mret tt
          end);;
        c ← getproc cur;
        match p_cwd c with
        | None => undef
        | Some cwd =>
            cwd ← idup cwd;
            modify (upd_proc np (set_p_cwd (Some cwd)));;
            modify (upd_proc np (fun r => set_p_name (name_copy (p_name c) (p_name r)) r));;
            r ← getproc np;
            acquire LkPtable;;
            modify (upd_proc np (set_p_state RUNNABLE));;
            release LkPtable;;
            mret (p_pid r)
        end
  end.

(** [exit] gives up the files and the directory of the process. *)
Definition exit_close (cur : nat) : K unit :=
  for_each (seq 0 NOFILE) (fun fd =>
    c ← getproc cur;
    match p_ofile c !!! fd with
    | Some f =>
        fileclose f;;
        modify (upd_proc cur (fun r => set_p_ofile (<[fd := None]> (p_ofile r)) r))
    | None => mret tt
    end);;
  begin_op;;
  c ← getproc cur;
  match p_cwd c with
  | None => undef
  | Some cwd => iput cwd
  end;;
  end_op;;
  modify (upd_proc cur (set_p_cwd None)).

Definition wakeup_proc (q : option nat) : K unit :=
  match q with
  | Some q => wakeup1 (ChProc q)
  | None => mret tt
  end.

(** It passes its children to [initproc]. *)
Definition exit_reparent (cur : nat) (init : option nat) : K unit :=
  for_each (seq 0 NPROC) (fun p =>
    r ← getproc p;
    when (bool_decide (p_parent r = Some cur))
      (modify (upd_proc p (set_p_parent init));;
       when (bool_decide (p_state r = ZOMBIE)) (wakeup_proc init))).

(** [exit] does not return: the scheduler never resumes a zombie. *)
Definition exit {A} (status : Z) : K A :=
  cur ← curproc;
  init ← gets k_initproc;
  if bool_decide (init = Some cur) then panic "init exiting"
  else
    exit_close cur;;
    modify (upd_proc cur (set_p_status status));;
    acquire LkPtable;;
    c ← getproc cur;
    wakeup_proc (p_parent c);;
    exit_reparent cur init;;
    modify (upd_proc cur (set_p_state ZOMBIE));;
    sched;;
    panic "zombie exit".

(** What [wait] does to the table entry of the zombie it has found. *)
Definition reap (p : nat) : K unit :=
  r ← getproc p;
  kfree (p_kstack r);;
  modify (upd_proc p (set_p_kstack 0));;
  r ← getproc p;
  freevm (p_pgdir r);;
  modify (upd_proc p (set_p_state UNUSED));;
  modify (upd_proc p (set_p_pid 0));;
  modify (upd_proc p (set_p_parent None));;
  modify (upd_proc p (fun r => set_p_name (<[0%nat := 0]> (p_name r)) r));;
  modify (upd_proc p (set_p_killed false)).

Definition wait (status : Z) : K Z :=
  acquire LkPtable;;
  loop (S wake_fuel) (fun _ : unit =>
    cur ← curproc;
    found ← loop (S NPROC) (fun '(p, havekids) =>
      if bool_decide (p = NPROC) then mret (inr (inr havekids))
      else
        r ← getproc p;
        if bool_decide (p_parent r = Some cur) then
          if bool_decide (p_state r = ZOMBIE) then
            when (negb (status =? 0)) (ustore status (le_enc 4 (p_status r)));;
            reap p;;
            release LkPtable;;
            mret (inr (inl (p_pid r)))
          else mret (inl (S p, true))
        else mret (inl (S p, havekids))) (0%nat, false);
    match found with
    | inl pid => mret (inr pid)
    | inr havekids =>
        c ← getproc cur;
        if negb havekids || p_killed c then
          release LkPtable;;
          mret (inr (-1))
        else
          sleep (ChProc cur) LkPtable;;
          mret (inl tt)
    end) tt.

Definition forkret : K unit :=
  release LkPtable;;
  first ← gets k_first;
  when first
    (modify (set_k_first false);;
     initlog).

(** [pstat pid stat]: [stat] is a user address. *)
Definition pstat (pid stat : Z) : K Z :=
  acquire LkPtable;;
  r ← scan (seq 0 NPROC) (fun p =>
        r ← getproc p;
        if p_pid r =? pid then
          ustore stat (enc_procstat (procstat_of r));;
          release LkPtable;;
          mret (Some 0)
        else mret None);
  match r with
  | Some x => mret x
  | None => release LkPtable;; mret (-1)
  end.

(** One round of the scheduler for the process [p]: what happens before and
    after the switch to it. *)
Definition scheduler_enter (p : nat) : K unit :=
  modify (set_k_cur (Some p));;
  switchuvm p;;
  modify (upd_proc p (set_p_state RUNNING)).

Definition scheduler_leave : K unit :=
  switchkvm;;
  modify (set_k_cur None).

(** ** The process listing *)

(** [getcallerpcs]: the saved program counters up the stack. *)
Fixpoint callerpcs (n : nat) (m : mem) (ebp : Z) : list Z :=
  match n with
  | O => []
  | S n' =>
      if (ebp =? 0) || (ebp <? KERNBASE) || (ebp =? 4294967295) then replicate n 0
      else ldw m (ebp + 4) :: callerpcs n' m (ldw m ebp)
  end.

Definition getcallerpcs (v : Z) (m : mem) : list Z := callerpcs 10 m (u32 (v - 8)).

Definition state_name (st : procstate) : list Z :=
  match st with
  | UNUSED => [117; 110; 117; 115; 101; 100]
  | EMBRYO => [101; 109; 98; 114; 121; 111]
  | SLEEPING => [115; 108; 101; 101; 112; 32]
  | RUNNABLE => [114; 117; 110; 98; 108; 101]
  | RUNNING => [114; 117; 110; 32; 32; 32]
  | ZOMBIE => [122; 111; 109; 98; 105; 101]
  end.

(** ["%d %s %s"], [" %p"], ["\n"] *)
Definition fmt_proc : list Z := [37; 100; 32; 37; 115; 32; 37; 115].
Definition fmt_pc : list Z := [32; 37; 112].
Definition fmt_nl : list Z := [10].

Fixpoint nonzero_prefix (l : list Z) : list Z :=
  match l with
  | [] => []
  | x :: l' => if x =? 0 then [] else x :: nonzero_prefix l'
  end.

Definition procdump : K unit :=
  for_each (seq 0 NPROC) (fun p =>
    r ← getproc p;
    when (negb (bool_decide (p_state r = UNUSED)))
      (cprintf fmt_proc [AInt (p_pid r); AStr (Some (state_name (p_state r)));
                         AStr (Some (cstr (p_name r)))];;
       when (bool_decide (p_state r = SLEEPING))
         (m ← gets k_mem;
          for_each (nonzero_prefix (getcallerpcs (u32 (cx_ebp (p_context r) + 8)) m))
            (fun pc => cprintf fmt_pc [AInt pc]));;
       cprintf fmt_nl [])).

End Process.
