(* ===== verification/ProcProps.v ===== *)
(** * Exit and wait ([proc.c])

    What [wait] finds in the process table, what it gives back of a child that
    has exited, and how the status gets from [exit] to [wait]. *)

From S2P Require Import Prelude Monad State Strings Sched Bio BioSpec Layout Log Inode Console.
From S2P Require Import Content Kalloc Pipe File Vm VmSpec VmProps VmFree UserMem Process.

#[local] Opaque memset store memmove.

Section Wait.
Context {WF : WakeFuel} {KI : KernelImage}.

(** ** The scan of the process table *)

Definition wait_body (status : Z) (cur : nat) : nat * bool -> K (nat * bool + (Z + bool)) := fun '(p, havekids) =>
  if bool_decide (p = NPROC) then mret (inr (inr havekids))
  else
    r ← getproc p;
    if bool_decide (p_parent r = Some cur) then
      if bool_decide (p_state r = ZOMBIE) then
        when (negb (status =? 0)) (ustore status (le_enc 4 (p_status r)));;
        reap p;;
        release LkPtable;;
        mret (inr (inl (p_pid r)))
      else mret (inl (S p, true))
    else mret (inl (S p, havekids)).

Definition wait_round (status : Z) : unit -> K (unit + Z) := fun _ =>
  cur ← curproc;
  found ← loop (S NPROC) (wait_body status cur) (0%nat, false);
  match found with
  | inl pid => mret (inr pid)
  | inr havekids =>
      c ← getproc cur;
      if negb havekids || p_killed c then
        release LkPtable;;
        mret (inr (-1))
      else
        sleep (ChProc cur) LkPtable;;
        mret (inl tt)
  end.

Lemma wait_eq status s : wait status s = (acquire LkPtable;; loop (S wake_fuel) (wait_round status) tt) s.
Proof. reflexivity. Qed.

Definition child_of (cur : nat) (r : proc) : bool := bool_decide (p_parent r = Some cur).
Definition zombie_child (cur : nat) (r : proc) : Prop := p_parent r = Some cur /\ p_state r = ZOMBIE.

Lemma wait_skip status cur s k p h fuel :
  (p + k <= NPROC)%nat -> (forall i, (p <= i < p + k)%nat -> ~ zombie_child cur (k_procs s !!! i)) ->
  loop (k + fuel) (wait_body status cur) (p, h) s =
  loop fuel (wait_body status cur)
    ((p + k)%nat, h || existsb (fun i => child_of cur (k_procs s !!! i)) (seq p k)) s.
Proof.
  revert p h. induction k as [|k IH]; intros p h Hle Hz.
  { by rewrite Nat.add_0_r, orb_false_r. }
  assert (wait_body status cur (p, h) s = Ret (inl (S p, h || child_of cur (k_procs s !!! p))) s) as Hr.
  { unfold wait_body. rewrite bool_decide_false by lia. kstep. unfold child_of.
    pose proof (Hz p ltac:(lia)) as Hzp. unfold zombie_child in Hzp. case_bool_decide as E1.
    - rewrite bool_decide_false by tauto. by rewrite orb_true_r.
    - by rewrite orb_false_r. }
  cbn [Nat.add]. rewrite (loop_next _ _ _ _ _ _ Hr), IH by (try intros i Hi; try apply Hz; lia).
  cbn [seq existsb]. rewrite <- orb_assoc. by replace (p + S k)%nat with (S p + k)%nat by lia.
Qed.

(** ** Blocking *)

Lemma sleep_ptable ch s p :
  k_held s = [LkPtable] -> k_cur s = Some p -> (p < length (k_procs s))%nat ->
  exists k, sleep ch LkPtable s = Switch (upd_proc p (fun r => set_p_state SLEEPING (set_p_chan (Some ch) r)) s) k /\
    forall s', k_cur s' = Some p -> k s' = Ret tt (upd_proc p (set_p_chan None) s').
Proof.
  intros Hh Hc Hp. unfold sleep, sleep_with. kstep. rewrite Hc, bool_decide_false by tauto. do 3 kstep.
  match goal with |- context [sched ≫= _] => unfold mbind at 1, M_bind at 1 end.
  rewrite (sched_switch _ p); [|done|done|].
  2: { unfold upd_proc. cbn [k_procs set_k_procs].
       rewrite list_alter_alter_eq, lookup_total_alter, decide_True by done. done. }
  cbn [obind]. eexists. split; [f_equal; kst_eq; by rewrite list_alter_alter_eq|].
  intros s' Hc'. simpl. unfold curproc, mbind, M_bind. cbn [obind gets]. rewrite Hc'. done.
Qed.

(** Some process is a child of [cur]. *)
Definition has_child (cur : nat) (ps : list proc) : Prop := exists r, r ∈ ps /\ p_parent r = Some cur.

Lemma existsb_child cur ps :
  length ps = NPROC -> existsb (fun i => child_of cur (ps !!! i)) (seq 0 NPROC) = true <-> has_child cur ps.
Proof.
  intros Hlen. rewrite existsb_exists. unfold has_child, child_of. split.
  - intros (i & Hi%in_seq & Hc%bool_decide_eq_true). exists (ps !!! i). split; [|done].
    apply list_elem_of_lookup_2 with i. apply list_lookup_lookup_total_lt. lia.
  - intros (r & [i Hi]%list_elem_of_lookup_1 & Hp). exists i. pose proof (lookup_lt_Some _ _ _ Hi).
    split; [apply in_seq; lia|]. rewrite (list_lookup_total_correct _ _ _ Hi). by apply bool_decide_eq_true.
Qed.

(** [wait] without a child that has exited: it returns -1 at once, with nothing
    changed, when the caller has no children or has been killed; otherwise the
    caller is asleep on its own entry, which [exit] of a child wakes, with the
    lock of the process table held for the scheduler. *)
Theorem wait_blocks status s cur :
  k_cur s = Some cur -> k_held s = [] -> length (k_procs s) = NPROC -> (cur < NPROC)%nat ->
  (forall r, r ∈ k_procs s -> ~ zombie_child cur r) ->
  (~ has_child cur (k_procs s) \/ p_killed (k_procs s !!! cur) = true -> wait status s = Ret (-1) s) /\
  (has_child cur (k_procs s) -> p_killed (k_procs s !!! cur) = false ->
   exists k, wait status s = Switch
     (upd_proc cur (fun r => set_p_state SLEEPING (set_p_chan (Some (ChProc cur)) r)) (set_k_held [LkPtable] s)) k).
Proof.
  intros Hc Hh Hlen Hcur Hz. rewrite wait_eq.
  assert (acquire LkPtable s = Ret tt (set_k_held [LkPtable] s)) as Ha.
  { rewrite acquire_ok by (rewrite Hh; apply not_elem_of_nil). by rewrite Hh. }
  rewrite (bind_Ret _ _ _ _ _ Ha).
  set (s1 := set_k_held [LkPtable] s).
  assert (curproc s1 = Ret cur s1) as Hcp by (by apply curproc_ok).
  set (h := existsb (fun i => child_of cur (k_procs s !!! i)) (seq 0 NPROC)).
  assert (loop (S NPROC) (wait_body status cur) (0%nat, false) s1 = Ret (inr h) s1) as Hscan.
  { rewrite <- Nat.add_1_r. rewrite wait_skip; [|lia|].
    - apply loop_done. unfold wait_body. by rewrite bool_decide_true.
    - intros i Hi. apply Hz. apply list_elem_of_lookup_2 with i. apply list_lookup_lookup_total_lt.
      cbn [s1 k_procs set_k_held]. lia. }
  assert (h = true <-> has_child cur (k_procs s)) as Hhc by (by apply existsb_child).
  split.
  - intros Hno. apply loop_done. unfold wait_round. rewrite (bind_Ret _ _ _ _ _ Hcp), (bind_Ret _ _ _ _ _ Hscan). kstep.
    assert (negb h || p_killed (k_procs s1 !!! cur) = true) as ->.
    { destruct h; [|done]. destruct Hno as [Hno|Hk]; [destruct Hno; by apply Hhc|exact Hk]. }
    rewrite (bind_Ret _ _ _ _ _ (release_ok LkPtable [] s1 eq_refl (not_elem_of_nil _))).
    apply (f_equal (Ret (inr (-1)))). unfold s1. kst_eq. done.
  - intros Hyes Hk.
    assert (h = true) as -> by (by apply Hhc).
    destruct (sleep_ptable (ChProc cur) s1 cur eq_refl Hc) as (k & Hs & _); [cbn [s1 k_procs set_k_held]; lia|].
    eexists. cbn [loop]. unfold mbind at 1, M_bind at 1. unfold wait_round at 1.
    rewrite (bind_Ret _ _ _ _ _ Hcp), (bind_Ret _ _ _ _ _ Hscan). kstep.
    change (p_killed (k_procs s1 !!! cur)) with (p_killed (k_procs s !!! cur)). rewrite Hk. cbn [negb orb].
    unfold mbind at 1, M_bind at 1. rewrite Hs. cbn [obind]. reflexivity.
Qed.

(** ** Reaping *)

(** The table entry of a child after [wait]. *)
Definition reaped (r : proc) : proc :=
  set_p_killed false (set_p_name (<[0%nat := 0]> (p_name r)) (set_p_parent None (set_p_pid 0
    (set_p_state UNUSED (set_p_kstack 0 r))))).

(** The memory of a process with the kernel stack [kst] and the page table [P]. *)
Record proc_mem (s : kstate) (P : ptab) (kst : Z) (l : list Z) : Prop := {
  pm_space : space_ok s P l;
  pm_kst : page kst;
  pm_free : kst ∉ l;
  pm_own : ~ owns P kst;
  pm_user : ~ user_frame (k_mem s) P kst;
}.

(** The pages of such a process. *)
Definition proc_page (m : mem) (P : ptab) (kst v : Z) : Prop := v = kst \/ owns P v \/ user_frame m P v.

Lemma reap_run s P l p r :
  KERNBASE < img_end -> (p < length (k_procs s))%nat -> k_procs s !!! p = r -> p_pgdir r = pt_dir P ->
  proc_mem s P (p_kstack r) l ->
  exists s' l', reap p s = Ret tt s' /\
    s' = set_k_procs (<[p := reaped r]> (k_procs s)) (set_k_freelist (k_freelist s') (set_k_mem (k_mem s') s)) /\
    kmem_inv s' l' /\ (forall v, v ∈ l' <-> v ∈ l \/ proc_page (k_mem s) P (p_kstack r) v) /\
    (forall v a, page v -> ~ proc_page (k_mem s) P (p_kstack r) v -> v <= a < v + PGSIZE -> k_mem s' !! a = k_mem s !! a).
Proof.
  intros Himg Hp Hr Hpg [HS Hk Hkl Hko Hku].
  destruct (space_ok_kfree s P l _ HS Hk Hkl Hko Hku) as (s1 & R1 & HS1 & O1 & Hso & He).
  assert (k_procs s1 = k_procs s) as Ep by (unfold only_mem in O1; by rewrite O1).
  set (s2 := upd_proc p (set_p_kstack 0) s1).
  destruct (space_ok_frame s1 s2 P (p_kstack r :: l)) as [HS2 _];
    [done|done|apply (vi_lock _ _ _ (so_inv _ _ _ HS1))|exact HS1|].
  destruct (freevm_run s2 P (p_kstack r :: l) Himg HS2) as (s3 & l' & R3 & Hk3 & O3 & L3 & K3).
  change (k_mem s2) with (k_mem s1) in *.
  assert (k_procs s3 = alter (set_p_kstack 0) p (k_procs s)) as Ep3.
  { unfold only_mem in O3. rewrite O3. cbn [k_procs set_k_freelist set_k_mem s2 upd_proc set_k_procs]. by rewrite Ep. }
  pose proof (user_frame_ext (k_mem s) (k_mem s1) P He) as Huf.
  set (f := fun r => set_p_killed false (set_p_name (<[0%nat := 0]> (p_name r)) (set_p_parent None (set_p_pid 0 (set_p_state UNUSED r))))).
  exists (upd_proc p f s3), l'. split; [|split; [|split; [exact Hk3|split]]].
  - unfold reap. kstep. rewrite Hr, (bind_Ret _ _ _ _ _ R1). kstep. fold s2. kstep.
    assert (p_pgdir (k_procs s2 !!! p) = pt_dir P) as ->.
    { cbn [s2 upd_proc k_procs set_k_procs]. rewrite Ep, lookup_total_alter, decide_True, Hr by done. done. }
    rewrite (bind_Ret _ _ _ _ _ R3). do 4 kstep. unfold modify. apply (f_equal (Ret tt)).
    kst_eq. by rewrite !list_alter_alter_eq.
  - unfold only_mem in O1, O3. rewrite O3 at 1. unfold s2. rewrite O1 at 1.
    apply kst_ext; kst_simpl; try reflexivity. rewrite list_alter_alter_eq, (alter_insert_total _ _ _ Hp), Hr. reflexivity.
  - intros v. rewrite L3, elem_of_cons, Huf. unfold proc_page. tauto.
  - intros v a Hv Hn Ha. unfold proc_page in Hn. cbn [k_mem upd_proc set_k_procs]. rewrite (K3 v a Hv); [| |rewrite Huf|done]; [|tauto..].
    apply Hso. assert (v <> p_kstack r) as Hne by tauto. pose proof (page_disjoint _ _ Hv Hk Hne). unfold PGSIZE in *. lia.
Qed.

(** The parent, with the page table [Q] in use, shares no page with the child. *)
Record apart (s : kstate) (Q P : ptab) (kst : Z) : Prop := {
  ap_own v : owns Q v -> ~ proc_page (k_mem s) P kst v;
  ap_user v : user_frame (k_mem s) Q v -> ~ proc_page (k_mem s) P kst v;
}.

(** The store of the status leaves the memory of the child alone. *)
Lemma status_apart s Q P kst l va bs m' :
  space_ok s Q l -> proc_mem s P kst l -> apart s Q P kst -> urange (k_mem s) Q va (length bs) ->
  ustored Q (k_mem s) va bs m' ->
  proc_mem (set_k_mem m' s) P kst l /\ (forall v, proc_page m' P kst v <-> proc_page (k_mem s) P kst v).
Proof.
  intros HQ [HS Hk Hkl Hko Hku] [_ Hap] Hr Hst.
  destruct (ustored_space s Q l va bs m' HQ Hr Hst) as (_ & _ & Hkeep).
  destruct (space_ok_frame s (set_k_mem m' s) P l) as [HS' He]; [|done|apply (vi_lock _ _ _ (so_inv _ _ _ HS))|exact HS|].
  { intros v a Hv Ha. apply (Hkeep v); [| |done].
    - destruct Hv as [Hv|Hv]; [by eapply owns_page, Hv; apply HS|]. destruct (vi_kmem _ _ _ (so_inv _ _ _ HS)) as [Hf _].
      by apply (proj1 (Forall_forall _ _) (flist_pages _ _ _ Hf)).
    - intros Hu. destruct Hv as [Hv|Hv]; [apply (Hap v Hu); right; by left|].
      destruct Hu as (a' & Ha' & Hak & Hh & E). destruct (so_page _ _ _ HQ a' Ha' Hak Hh) as (_ & _ & Hn & _). by rewrite E in Hn. }
  pose proof (user_frame_ext (k_mem s) m' P He) as Huf.
  split; [split; try done; cbn [k_mem set_k_mem]; by rewrite Huf|]. intros v. unfold proc_page. by rewrite Huf.
Qed.

(** The part of [wait] that stores the status. *)
Lemma status_store s Q P kst l va x :
  space_ok s Q l -> proc_mem s P kst l -> apart s Q P kst -> p2v (k_cr3 s) = pt_dir Q ->
  va <> 0 -> urange (k_mem s) Q va 4 ->
  exists m', when (negb (va =? 0)) (ustore va (le_enc 4 x)) s = Ret tt (set_k_mem m' s) /\
    ustored Q (k_mem s) va (le_enc 4 x) m' /\ proc_mem (set_k_mem m' s) P kst l /\
    (forall v, proc_page m' P kst v <-> proc_page (k_mem s) P kst v).
Proof.
  intros HQ HP Hap Hc Hva Hr. rewrite (proj2 (Z.eqb_neq va 0)) by done. cbn [negb when].
  destruct (ustore_run (le_enc 4 x) s Q l va HQ Hc) as (m' & Hr' & Hst); [by rewrite length_le_enc|apply le_enc_bytes|].
  exists m'. split; [exact Hr'|]. split; [exact Hst|]. eapply status_apart; try done. by rewrite length_le_enc.
Qed.

(** [wait] when the entry [p] is the first child that has exited. *)
Lemma wait_found va s cur p r Q P l :
  KERNBASE < img_end -> k_cur s = Some cur -> k_held s = [] -> length (k_procs s) = NPROC -> (p < NPROC)%nat ->
  (forall i, (i < p)%nat -> ~ zombie_child cur (k_procs s !!! i)) ->
  k_procs s !!! p = r -> zombie_child cur r -> p_pgdir r = pt_dir P ->
  space_ok s Q l -> proc_mem s P (p_kstack r) l -> apart s Q P (p_kstack r) ->
  p2v (k_cr3 s) = pt_dir Q -> va <> 0 -> urange (k_mem s) Q va 4 ->
  exists s' l', wait va s = Ret (p_pid r) s' /\
    s' = set_k_procs (<[p := reaped r]> (k_procs s)) (set_k_freelist (k_freelist s') (set_k_mem (k_mem s') s)) /\
    kmem_inv s' l' /\ (forall v, v ∈ l' <-> v ∈ l \/ proc_page (k_mem s) P (p_kstack r) v) /\
    uload va 4 s' = Ret (le_enc 4 (p_status r)) s'.
Proof.
  intros Himg Hc Hh Hlen Hp Hbefore Hr [Hpar Hz] Hpg HQ HP Hap Hcr Hva Hur.
  set (s1 := set_k_held [LkPtable] s).
  assert (forall R l0, space_ok s R l0 -> space_ok s1 R l0) as Hs1.
  { intros R l0 H. destruct (space_ok_frame s s1 R l0) as [H' _]; [done|done|by cbn; set_solver|exact H|exact H']. }
  assert (proc_mem s1 P (p_kstack r) l) as HP1 by (destruct HP; split; auto).
  destruct (status_store s1 Q P (p_kstack r) l va (p_status r) (Hs1 _ _ HQ) HP1) as (m' & R2 & Hst & HP2 & Hpp);
    [by destruct Hap; split|exact Hcr|exact Hva|exact Hur|].
  destruct (reap_run (set_k_mem m' s1) P l p r Himg) as (s3 & l' & R3 & E3 & Hk3 & L3 & K3);
    [cbn [k_procs set_k_mem s1 set_k_held]; lia|exact Hr|exact Hpg|exact HP2|].
  cbn [k_mem set_k_mem] in *. set (s4 := set_k_held [] s3).
  assert (release LkPtable s3 = Ret tt s4) as R4 by (apply release_ok; [by rewrite E3|apply not_elem_of_nil]).
  exists s4, l'. split; [|split; [|split; [exact Hk3|split]]].
  - rewrite wait_eq.
    assert (acquire LkPtable s = Ret tt s1) as Ha by (rewrite acquire_ok by (rewrite Hh; apply not_elem_of_nil); by rewrite Hh).
    rewrite (bind_Ret _ _ _ _ _ Ha). apply loop_done. unfold wait_round.
    rewrite (bind_Ret _ _ _ _ _ (curproc_ok cur s1 Hc)).
    replace (S NPROC) with (p + S (NPROC - p))%nat by lia.
    assert (loop (p + S (NPROC - p)) (wait_body va cur) (0%nat, false) s1 = Ret (inl (p_pid r)) s4) as Hl.
    { rewrite (wait_skip va cur s1 p 0) by (lia || (intros i Hi; apply Hbefore; lia)). apply loop_done.
      unfold wait_body. cbn [Nat.add]. rewrite bool_decide_false by lia. kstep.
      change (k_procs s1 !!! p) with (k_procs s !!! p). rewrite Hr, !bool_decide_true by done.
      by rewrite (bind_Ret _ _ _ _ _ R2), (bind_Ret _ _ _ _ _ R3), (bind_Ret _ _ _ _ _ R4). }
    by rewrite (bind_Ret _ _ _ _ _ Hl).
  - unfold s4. rewrite E3 at 1. unfold s1. apply kst_ext; kst_simpl; done.
  - intros v. rewrite L3, Hpp. done.
  - (* the status is not touched by the reaping *)
    assert (forall v a, page v -> owns Q v \/ user_frame (k_mem s) Q v -> v <= a < v + PGSIZE -> k_mem s4 !! a = m' !! a) as Hq.
    { intros v a Hv Hvq Ha. apply (K3 v a Hv); [|done]. rewrite Hpp. destruct Hap as [A1 A2]. destruct Hvq; [by apply A1|by apply A2]. }
    pose proof (ustored_uload s s4 Q l va (le_enc 4 (p_status r)) m' HQ) as Hul. rewrite length_le_enc in Hul.
    apply Hul; [exact Hur|exact Hst|exact Hq|]. unfold s4. by rewrite E3.
Qed.

(** ** [exit] *)

Definition reparent (cur : nat) (init : option nat) (r : proc) : proc :=
  if bool_decide (p_parent r = Some cur) then set_p_parent init r else r.

Lemma reparent_state cur init st r : reparent cur init (set_p_state st r) = set_p_state st (reparent cur init r).
Proof. unfold reparent. cbn [p_parent set_p_state]. by case_bool_decide. Qed.

Lemma woken_reparent cur init i ps ps' :
  woken ps ps' -> woken (alter (reparent cur init) i ps) (alter (reparent cur init) i ps').
Proof.
  intros Hw. apply Forall2_alter; [exact Hw|]. intros x y _ _ [->|[Hs ->]]; [by left|right].
  rewrite reparent_state. split; [|done]. unfold reparent. by case_bool_decide.
Qed.

Lemma woken_reparents cur init ix ps ps' :
  woken ps ps' -> woken (alter_all (reparent cur init) ix ps) (alter_all (reparent cur init) ix ps').
Proof.
  revert ps ps'. induction ix as [|i ix IH]; intros ps ps' Hw; [exact Hw|]. apply IH. by apply woken_reparent.
Qed.

Lemma wakeup_proc_run q s :
  length (k_procs s) = NPROC ->
  exists ps, wakeup_proc q s = Ret tt (set_k_procs ps s) /\ woken (k_procs s) ps /\
    ps = match q with Some q => wake (ChProc q) <$> k_procs s | None => k_procs s end.
Proof.
  intros Hlen. destruct q as [q|]; cbn [wakeup_proc].
  - eexists. split; [apply wakeup1_ok; lia|]. split; [apply woken_wake|done].
  - exists (k_procs s). split; [by destruct s|]. split; [apply woken_refl|done].
Qed.

Lemma exit_reparent_run cur init s :
  length (k_procs s) = NPROC ->
  exists ps, exit_reparent cur init s = Ret tt (set_k_procs ps s) /\ woken (reparent cur init <$> k_procs s) ps.
Proof.
  intros Hlen. rewrite <- (alter_all_fmap _ NPROC) by lia. unfold exit_reparent.
  generalize (seq 0 NPROC) as ix. intros ix. revert s Hlen. induction ix as [|i ix IH]; intros s Hlen.
  { exists (k_procs s). split; [by destruct s|apply woken_refl]. }
  cbn [for_each]. set (body := fun p : nat => _). fold body in IH.
  assert (exists ps1, body i s = Ret tt (set_k_procs ps1 s) /\ woken (alter (reparent cur init) i (k_procs s)) ps1)
    as (ps1 & Hr & Hw).
  { unfold body. kstep. case_bool_decide as Hp; cbn [when].
    - assert (alter (reparent cur init) i (k_procs s) = alter (set_p_parent init) i (k_procs s)) as ->.
      { apply list_eq. intros j. destruct (decide (i = j)) as [<-|Hne]; [|by rewrite !list_lookup_alter_ne].
        rewrite !list_lookup_alter_eq. destruct (k_procs s !! i) as [r|] eqn:Er; [|done]. simpl. f_equal.
        rewrite (list_lookup_total_correct _ _ _ Er) in Hp. unfold reparent. by rewrite bool_decide_true. }
      kstep. case_bool_decide; cbn [when].
      + destruct (wakeup_proc_run init (upd_proc i (set_p_parent init) s)) as (ps & Hr & Hw & _).
        { cbn [k_procs upd_proc set_k_procs]. by rewrite length_alter. }
        exists ps. split; [rewrite Hr; by destruct s|exact Hw].
      + eexists. split; [reflexivity|apply woken_refl].
    - exists (k_procs s). split; [by destruct s|].
      replace (alter (reparent cur init) i (k_procs s)) with (k_procs s); [apply woken_refl|].
      symmetry. apply list_eq. intros j. destruct (decide (i = j)) as [<-|Hne]; [|by rewrite list_lookup_alter_ne].
      rewrite list_lookup_alter_eq. destruct (k_procs s !! i) as [r|] eqn:Er; [|done]. simpl. f_equal.
      rewrite (list_lookup_total_correct _ _ _ Er) in Hp. unfold reparent. by rewrite bool_decide_false. }
  destruct (IH (set_k_procs ps1 s)) as (ps & Hr2 & Hw2).
  { cbn [k_procs set_k_procs]. rewrite (woken_length _ _ Hw), length_alter. exact Hlen. }
  exists ps. split; [rewrite (bind_Ret _ _ _ _ _ Hr), Hr2; by destruct s|].
  etrans; [|exact Hw2]. cbn [k_procs set_k_procs]. cbn [alter_all foldl]. by apply woken_reparents.
Qed.

(** An entry before and after wakeups. *)
Lemma woken_entry ps ps' i :
  woken ps ps' -> (i < length ps)%nat -> exists st, ps' !!! i = set_p_state st (ps !!! i) /\
    (st = p_state (ps !!! i) \/ st = RUNNABLE).
Proof.
  intros Hw Hi. destruct (lookup_lt_is_Some_2 ps i Hi) as [r Hr].
  destruct (Forall2_lookup_l _ _ _ _ _ Hw Hr) as (r' & Hr' & Hrel).
  rewrite (list_lookup_total_correct _ _ _ Hr), (list_lookup_total_correct _ _ _ Hr').
  destruct Hrel as [->|[_ ->]]; [exists (p_state r); split; [by destruct r|by left]|exists RUNNABLE; split; [done|by right]].
Qed.

(** What [exit] leaves behind: the zombie, the woken parent, the children
    passed on. *)
Record exited (cur : nat) (status : Z) (init : option nat) (s1 s2 : kstate) : Prop := {
  ex_held : k_held s2 = [LkPtable];
  ex_len : length (k_procs s2) = NPROC;
  ex_cur : k_procs s2 !!! cur = set_p_state ZOMBIE (set_p_status status (k_procs s1 !!! cur));
  ex_parent q : p_parent (k_procs s1 !!! cur) = Some q -> q <> cur -> (q < NPROC)%nat ->
    p_state (k_procs s1 !!! q) = SLEEPING -> p_chan (k_procs s1 !!! q) = Some (ChProc q) ->
    p_state (k_procs s2 !!! q) = RUNNABLE;
  ex_children p : (p < NPROC)%nat -> p <> cur -> p_parent (k_procs s2 !!! p) =
    if bool_decide (p_parent (k_procs s1 !!! p) = Some cur) then init else p_parent (k_procs s1 !!! p);
  ex_rest : s2 = set_k_procs (k_procs s2) (set_k_held [LkPtable] s1);
}.

(** The steps of [exit] on the process table: the wakeup of the parent, the
    passing on of the children, the state. *)
Lemma exited_table cur status init s1 ps2 ps3 :
  let r1 := set_p_status status (k_procs s1 !!! cur) in
  let ps1 := alter (set_p_status status) cur (k_procs s1) in
  length (k_procs s1) = NPROC -> (cur < NPROC)%nat -> p_parent r1 <> Some cur -> woken ps1 ps2 ->
  ps2 = match p_parent r1 with Some q => wake (ChProc q) <$> ps1 | None => ps1 end ->
  woken (reparent cur init <$> ps2) ps3 ->
  exited cur status init s1 (set_k_procs (alter (set_p_state ZOMBIE) cur ps3) (set_k_held [LkPtable] s1)).
Proof.
  intros r1 ps1 Hlen Hcur Hpar W2 E2 W3.
  assert (length ps1 = NPROC) as Hl1 by (unfold ps1; by rewrite length_alter).
  assert (length ps2 = NPROC) as Hl2 by (by rewrite (woken_length _ _ W2)).
  assert (length ps3 = NPROC) as Hl3 by (by rewrite (woken_length _ _ W3), length_fmap).
  assert (ps1 !!! cur = r1) as Ecur by (unfold ps1; by rewrite lookup_total_alter, decide_True by lia).
  assert (forall i, (i < NPROC)%nat -> exists st, ps3 !!! i = set_p_state st (reparent cur init (ps1 !!! i)) /\
    (p_state (ps2 !!! i) = RUNNABLE -> st = RUNNABLE)) as Hent.
  { intros i Hi'. destruct (woken_entry _ _ i W3) as (st & E & Hst); [rewrite length_fmap; lia|].
    destruct (woken_entry _ _ i W2) as (st' & E' & _); [lia|].
    rewrite (list_lookup_total_fmap (reparent cur init)) in E, Hst by lia.
    assert (p_state (reparent cur init (ps2 !!! i)) = p_state (ps2 !!! i)) as Es by (unfold reparent; by case_bool_decide).
    rewrite Es in Hst. exists st. split; [rewrite E, E', reparent_state; done|]. intros Hrun. destruct Hst; congruence. }
  split; cbn [k_held k_procs set_k_procs set_k_held].
  - done.
  - by rewrite length_alter.
  - rewrite lookup_total_alter, decide_True by lia.
    destruct (Hent cur Hcur) as (st & -> & _). rewrite Ecur. unfold reparent. by rewrite bool_decide_false.
  - intros q Hq Hne Hql Hsl Hch. rewrite lookup_total_alter, decide_False by lia.
    destruct (Hent q Hql) as (st & -> & Hst). cbn [p_state set_p_state]. apply Hst.
    rewrite E2. unfold r1. cbn [p_parent set_p_status]. rewrite Hq, (list_lookup_total_fmap (wake (ChProc q))) by lia.
    unfold ps1. rewrite lookup_total_alter, decide_False by lia. unfold wake. by rewrite bool_decide_true.
  - intros p Hp Hne. rewrite lookup_total_alter, decide_False by lia.
    destruct (Hent p Hp) as (st & -> & _). cbn [p_parent set_p_state].
    unfold ps1. rewrite lookup_total_alter, decide_False by lia. unfold reparent. by case_bool_decide.
  - done.
Qed.

Lemma exit_run {A} s s1 cur status :
  k_cur s = Some cur -> k_initproc s <> Some cur -> exit_close cur s = Ret tt s1 ->
  k_cur s1 = Some cur -> k_held s1 = [] -> length (k_procs s1) = NPROC -> (cur < NPROC)%nat ->
  p_parent (k_procs s1 !!! cur) <> Some cur ->
  exists s2 k, exit (A := A) status s = Switch s2 k /\ exited cur status (k_initproc s) s1 s2.
Proof.
  intros Hc Hi Hcl Hc1 Hh1 Hlen Hcur Hpar. set (init := k_initproc s).
  set (s1' := set_k_held [LkPtable] (upd_proc cur (set_p_status status) s1)).
  assert (k_procs s1' !!! cur = set_p_status status (k_procs s1 !!! cur)) as Ecur.
  { cbn [s1' k_procs set_k_held upd_proc set_k_procs]. by rewrite lookup_total_alter, decide_True by lia. }
  assert (length (k_procs s1') = NPROC) as Hlen' by (cbn [s1' k_procs set_k_held upd_proc set_k_procs]; by rewrite length_alter).
  destruct (wakeup_proc_run (p_parent (k_procs s1' !!! cur)) s1' Hlen') as (ps2 & R2 & W2 & E2).
  destruct (exit_reparent_run cur init (set_k_procs ps2 s1')) as (ps3 & R3 & W3).
  { cbn [k_procs set_k_procs]. by rewrite (woken_length _ _ W2). }
  rewrite Ecur in E2. pose proof (exited_table cur status init s1 ps2 ps3 Hlen Hcur Hpar W2 E2 W3) as Hex.
  set (s2 := set_k_procs (alter (set_p_state ZOMBIE) cur ps3) (set_k_held [LkPtable] s1)) in *.
  exists s2. eexists. split; [|exact Hex].
  unfold exit. rewrite (bind_Ret _ _ _ _ _ (curproc_ok cur s Hc)). kstep. fold init.
  rewrite bool_decide_false by done. rewrite (bind_Ret _ _ _ _ _ Hcl). kstep.
  kstep_by ltac:(apply acquire_ok; cbn [k_held upd_proc set_k_procs]; rewrite Hh1; apply not_elem_of_nil).
  cbn [k_held upd_proc set_k_procs]. rewrite Hh1. fold s1'. kstep.
  rewrite (bind_Ret _ _ _ _ _ R2), (bind_Ret _ _ _ _ _ R3). kstep.
  match goal with |- context [upd_proc cur (set_p_state ZOMBIE) ?x] =>
    change (upd_proc cur (set_p_state ZOMBIE) x) with s2 end.
  unfold mbind at 1, M_bind at 1. rewrite (sched_switch s2 cur); [reflexivity|done|exact Hc1|].
  by rewrite (ex_cur _ _ _ _ _ Hex).
Qed.

(** C11: The status of a process reaches its parent: [exit] gives up the CPU as a
    zombie that holds the status, with a parent asleep in [wait] made runnable
    and every child passed on to [initproc]; when the parent calls [wait] with
    a pointer into its memory, and no earlier entry of the table is a child
    that has exited too, it gets the number of the process, the word at the
    pointer is the status, the entry is free again, and the kernel stack, the
    page table and the user pages of the process, each once, are back on the
    free list. *)
Theorem exit_wait {A} s s1 cur q status :
  k_cur s = Some cur -> k_initproc s <> Some cur -> exit_close cur s = Ret tt s1 ->
  k_cur s1 = Some cur -> k_held s1 = [] -> length (k_procs s1) = NPROC -> (cur < NPROC)%nat ->
  let r := k_procs s1 !!! cur in
  p_parent r = Some q -> q <> cur ->
  exists s2 k, exit (A := A) status s = Switch s2 k /\ exited cur status (k_initproc s) s1 s2 /\
    forall s3 va P Q l, KERNBASE < img_end ->
      k_cur s3 = Some q -> k_held s3 = [] -> length (k_procs s3) = NPROC -> k_procs s3 !!! cur = k_procs s2 !!! cur ->
      (forall i, (i < cur)%nat -> ~ zombie_child q (k_procs s3 !!! i)) ->
      p_pgdir r = pt_dir P -> space_ok s3 Q l -> proc_mem s3 P (p_kstack r) l -> apart s3 Q P (p_kstack r) ->
      p2v (k_cr3 s3) = pt_dir Q -> va <> 0 -> urange (k_mem s3) Q va 4 ->
      exists s4 l', wait va s3 = Ret (p_pid r) s4 /\ uload va 4 s4 = Ret (le_enc 4 status) s4 /\
        p_state (k_procs s4 !!! cur) = UNUSED /\ (forall i, i <> cur -> k_procs s4 !!! i = k_procs s3 !!! i) /\
        kmem_inv s4 l' /\ forall v, v ∈ l' <-> v ∈ l \/ proc_page (k_mem s3) P (p_kstack r) v.
Proof.
  intros Hc Hi Hcl Hc1 Hh1 Hlen Hcur r Hq Hne.
  destruct (exit_run (A := A) s s1 cur status Hc Hi Hcl Hc1 Hh1 Hlen Hcur) as (s2 & k & Hr & Hex); [fold r; congruence|].
  exists s2, k. split; [exact Hr|]. split; [exact Hex|].
  intros s3 va P Q l Himg Hc3 Hh3 Hlen3 E3 Hbefore Hpg HQ HP Hap Hcr Hva Hur.
  rewrite (ex_cur _ _ _ _ _ Hex) in E3.
  destruct (wait_found va s3 q cur _ Q P l Himg Hc3 Hh3 Hlen3 Hcur Hbefore E3) as (s4 & l' & Hw & E4 & Hk & L & Hu);
    [by split|exact Hpg|exact HQ|exact HP|exact Hap|exact Hcr|exact Hva|exact Hur|].
  exists s4, l'. split; [exact Hw|]. split; [exact Hu|].
  assert (k_procs s4 = <[cur := reaped (set_p_state ZOMBIE (set_p_status status r))]> (k_procs s3)) as Ep by (by rewrite E4).
  split; [|split; [|split; [exact Hk|exact L]]].
  - rewrite Ep, list_lookup_total_insert_eq by lia. done.
  - intros i Hni. by rewrite Ep, list_lookup_total_insert_ne by done.
Qed.

End Wait.

(** ** A family of two *)

#[local] Existing Instance vm_image.
#[local] Existing Instance vm_fuel.

(** The parent, entry 0, waits for its child, entry 1, which is running; both
    have the same directory. *)
Definition family (d kst x : Z) (m : mem) : kstate :=
  let parent := set_p_chan (Some (ChProc 0)) (set_p_state SLEEPING (set_p_pid 3 inhabitant)) in
  let child := set_p_cwd (Some 0%nat) (set_p_parent (Some 0%nat) (set_p_kstack kst (set_p_pgdir d
    (set_p_state RUNNING (set_p_pid 4 inhabitant))))) in
  let s := set_k_freelist x (set_k_mem m (reset_state (mkdisk ∅ 0 []))) in
  upd_inode 0 (set_i_ref 2) (set_k_cur (Some 1%nat)
    (set_k_procs (parent :: child :: replicate 62 inhabitant) s)).

Lemma family_close d kst x m :
  exit_close 1 (family d kst x m) =
  Ret tt (upd_inode 0 (set_i_ref 1) (upd_proc 1 (set_p_cwd None) (family d kst x m))).
Proof. vm_compute. reflexivity. Qed.

(** The memory of the family: the child has a copy of the page of the parent. *)
Lemma family_memory :
  exists s P Q kst l, space_ok s Q l /\ proc_mem s P kst l /\ apart s Q P kst /\ urange (k_mem s) Q 16 4.
Proof.
  destruct one_page_space as (s0 & Q & l0 & HQ & Hlen & _ & Hu & HW & _).
  destruct (copyuvm_run s0 Q l0 4096 1) as (s1 & P & l1 & ms & _ & C & _);
    [exact vm_image_ok|apply HQ|unfold KERNBASE; lia|lia|exact Hu|lia|].
  pose proof (proj2 (vi_kmem _ _ _ (so_inv _ _ _ HQ))) as Hnd.
  destruct (copied_space Q (k_mem s0) l0 s1 P l1 1 ms 4096 Hnd C) as [HP Huf]; [lia|unfold KERNBASE; lia|exact Hu|].
  destruct (copied_original Q s0 l0 s1 P l1 1 ms HQ C) as [HQ1 Hap].
  pose proof (copied_used _ _ _ _ _ _ _ _ Hnd C) as Hall.
  destruct l1 as [|kst l].
  { exfalso. destruct (cp_used _ _ _ _ _ _ _ _ C) as (used & El & _ & _ & Hu'). rewrite El, app_nil_r in Hlen.
    pose proof (tabs_size _ _ (vi_wf _ _ _ (cp_inv _ _ _ _ _ _ _ _ C))). lia. }
  destruct (space_ok_kalloc s1 P kst l HP) as (s & Hr & HP2 & Hk & Hkl & Hko & Hku & Em & _).
  destruct (space_ok_kalloc s1 Q kst l HQ1) as (s' & Hr' & HQ2 & _). assert (s' = s) as -> by congruence.
  assert (forall v, owns Q v \/ user_frame (k_mem s) Q v -> ~ proc_page (k_mem s) P kst v) as Hsep.
  { rewrite Em. intros v Hv Hp. apply (Hap v Hv), Hall.
    destruct Hp as [->|[Ho|Hf]]; [left; by left|right; by left|right; right; by apply Huf]. }
  exists s, P, Q, kst, l. split; [exact HQ2|]. split; [split; try done; by rewrite Em|]. split; [split; auto|].
  apply uwritable_urange in HW as (_ & _ & HW). split; [lia|]. split; [unfold KERNBASE; lia|]. intros j Hj.
  unfold umapped. rewrite Em. destruct (copied_parent Q (k_mem s0) l0) with s1 P (kst :: l) 1%nat ms as [_ He];
    [apply HQ|intros v Hv Hin; exact (vi_own _ _ _ (so_inv _ _ _ HQ) v Hin Hv)|exact C|].
  rewrite He. replace (16 + Z.of_nat j) with (0 + Z.of_nat (16 + j)) by lia. apply HW. lia.
Qed.

Lemma exit_wait_witness :
  exists s s2 k s3 s4, exit (A := unit) 7 s = Switch s2 k /\ p_state (k_procs s2 !!! 0%nat) = RUNNABLE /\
    k_procs s3 = k_procs s2 /\ wait 16 s3 = Ret 4 s4 /\ uload 16 4 s4 = Ret [7; 0; 0; 0] s4.
Proof.
  destruct family_memory as (sm & P & Q & kst & l & HQ & HP & Hap & Hur).
  set (s := family (pt_dir P) kst (k_freelist sm) (k_mem sm)).
  destruct (exit_wait (A := unit) s _ 1 0 7 eq_refl ltac:(discriminate) (family_close _ _ _ _))
    as (s2 & k & Hr & Hex & Hw); [reflexivity..|rewrite NPROC_eq; lia|reflexivity|lia|].
  set (s3 := set_k_held [] (set_k_cur (Some 0%nat) (set_k_cr3 (v2p (pt_dir Q)) s2))).
  assert (k_mem s3 = k_mem sm /\ k_freelist s3 = k_freelist sm) as [Em Ef].
  { unfold s3. rewrite (ex_rest _ _ _ _ _ Hex). split; reflexivity. }
  assert (forall R, space_ok sm R l -> space_ok s3 R l) as Hs3.
  { intros R H. destruct (space_ok_frame sm s3 R l) as [H' _];
      [intros; by rewrite Em|exact Ef|apply not_elem_of_nil|exact H|exact H']. }
  destruct (Hw s3 16 P Q l) as (s4 & l' & Hw4 & Hu4 & _).
  - reflexivity.
  - reflexivity.
  - reflexivity.
  - exact (ex_len _ _ _ _ _ Hex).
  - reflexivity.
  - intros i Hi [Hc _]. assert (i = 0%nat) as -> by lia. revert Hc.
    change (k_procs s3) with (k_procs s2). rewrite (ex_children _ _ _ _ _ Hex) by (rewrite ?NPROC_eq; lia). discriminate.
  - reflexivity.
  - exact (Hs3 Q HQ).
  - destruct HP as [H1 H2 H3 H4 H5]. split; [exact (Hs3 P H1)|exact H2|exact H3|exact H4|]. rewrite Em. exact H5.
  - destruct Hap as [H1 H2]. split; rewrite Em; [exact H1|exact H2].
  - cbn [s3 k_cr3 set_k_cr3 set_k_cur set_k_held]. apply p2v_v2p, (pw_dir _ _ (vi_wf _ _ _ (so_inv _ _ _ HQ))).
  - discriminate.
  - rewrite Em. exact Hur.
  - exists s, s2, k, s3, s4. split; [exact Hr|]. split; [|split; [reflexivity|split; [exact Hw4|exact Hu4]]].
    apply (ex_parent _ _ _ _ _ Hex); try reflexivity; rewrite ?NPROC_eq; lia.
Defined.

Lemma wait_blocks_witness :
  let s := set_k_cur (Some 0%nat) (family 0 0 0 ∅) in
  (exists k, wait 16 s = Switch
     (upd_proc 0 (fun r => set_p_state SLEEPING (set_p_chan (Some (ChProc 0)) r)) (set_k_held [LkPtable] s)) k) /\
  wait 16 (set_k_cur (Some 2%nat) s) = Ret (-1) (set_k_cur (Some 2%nat) s).
Proof.
  intros s. split.
  - apply (wait_blocks 16 s 0).
    + reflexivity.
    + reflexivity.
    + reflexivity.
    + rewrite NPROC_eq. lia.
    + intros r [->|[->|[-> _]%elem_of_replicate]%elem_of_cons]%elem_of_cons [? ?]; discriminate.
    + eexists. split; [right; left; reflexivity|reflexivity].
    + reflexivity.
  - apply (wait_blocks 16 (set_k_cur (Some 2%nat) s) 2).
    + reflexivity.
    + reflexivity.
    + reflexivity.
    + rewrite NPROC_eq. lia.
    + intros r [->|[->|[-> _]%elem_of_replicate]%elem_of_cons]%elem_of_cons [? ?]; discriminate.
    + left. intros (r & [->|[->|[-> _]%elem_of_replicate]%elem_of_cons]%elem_of_cons & ?); discriminate.
Defined.
