(* ===== verification/ForkProps.v ===== *)
(** * [fork] ([proc.c])

    The entry [allocproc] finds, the copies [fork] makes of memory, trap frame,
    files and directory, and what it leaves alone. *)

From S2P Require Import Prelude Monad State Strings Sched Bio BioSpec Layout Log Inode Console.
From S2P Require Import Content Kalloc Pipe File Vm VmSpec VmProps VmFree UserMem Process.
From S2P Require Import ProcProps.

#[local] Opaque memset store memmove.

Section Fork.
Context {WF : WakeFuel} {KI : KernelImage}.

(** ** [allocproc] *)

Definition unused (r : proc) : bool := bool_decide (p_state r = UNUSED).

(** The first entry of the table that is not in use. *)
Definition first_unused (ps : list proc) (np : nat) : Prop :=
  (np < NPROC)%nat /\ p_state (ps !!! np) = UNUSED /\ forall i, (i < np)%nat -> p_state (ps !!! i) <> UNUSED.

Lemma scan_unused s n i np :
  (i <= np < i + n)%nat -> p_state (k_procs s !!! np) = UNUSED ->
  (forall j, (i <= j < np)%nat -> p_state (k_procs s !!! j) <> UNUSED) ->
  scan (seq i n) (fun p => r ← getproc p; mret (if bool_decide (p_state r = UNUSED) then Some p else None)) s
  = Ret (Some np) s.
Proof.
  revert i. induction n as [|n IH]; intros i Hr Hu Hn; [lia|]. cbn [seq scan]. kstep.
  destruct (decide (i = np)) as [->|Hne].
  - by rewrite bool_decide_true.
  - rewrite bool_decide_false by (apply Hn; lia). apply IH; [lia|done|]. intros j Hj. apply Hn. lia.
Qed.

(** The entry [allocproc] hands out. *)
Definition embryo (pid kst : Z) (r : proc) : proc :=
  set_p_context (set_cx_eip img_forkret ctx_zero) (set_p_kstack kst (set_p_pid pid (set_p_state EMBRYO r))).

Lemma allocproc_run s np P kst l :
  k_held s = [] -> length (k_procs s) = NPROC -> first_unused (k_procs s) np -> space_ok s P (kst :: l) ->
  exists s1, allocproc s = Ret (Some np) s1 /\
    s1 = set_k_nextpid (s32 (k_nextpid s + 1)) (set_k_procs (alter (embryo (k_nextpid s) kst) np (k_procs s))
           (set_k_freelist (k_freelist s1) (set_k_mem (k_mem s1) s))) /\
    space_ok s1 P l /\ page kst /\ (kst ∉ l) /\ ~ owns P kst /\ ~ user_frame (k_mem s1) P kst /\
    same_outside kst (k_mem s) (k_mem s1) /\ (forall a, ent (k_mem s1) P a = ent (k_mem s) P a).
Proof.
  intros Hh Hlen (Hnp & Hu & Hfirst) HS.
  set (s0 := set_k_nextpid (s32 (k_nextpid s + 1)) (upd_proc np (fun r => set_p_pid (k_nextpid s) (set_p_state EMBRYO r)) s)).
  destruct (space_ok_frame s s0 P (kst :: l)) as [HS0 _]; [done|done|cbn [s0 k_held set_k_nextpid upd_proc set_k_procs]; rewrite Hh; apply not_elem_of_nil|exact HS|].
  destruct (space_ok_kalloc s0 P kst l HS0) as (s1 & Hr & HS1 & Hk & Hkl & Hko & Hku & Em & O).
  set (s2 := upd_proc np (set_p_kstack kst) s1).
  set (m3 := stw (kst + KSTACKSIZE - TRAPFRAME_SIZE - 4) img_trapret (k_mem s1)).
  assert (same_outside kst (k_mem s) m3) as Hso.
  { intros a Ha. unfold m3. rewrite stw_out by (unfold PGSIZE, KSTACKSIZE, TRAPFRAME_SIZE in *; lia). by rewrite Em. }
  set (s3 := upd_proc np (set_p_context (set_cx_eip img_forkret ctx_zero)) (set_k_mem m3 s2)).
  assert (forall v a, page v -> v <> kst -> v <= a < v + PGSIZE -> m3 !! a = k_mem s !! a) as Hm3.
  { intros v a Hv Hne Ha. apply Hso. pose proof (page_disjoint _ _ Hv Hk Hne). unfold PGSIZE in *. lia. }
  destruct (space_ok_frame s1 s3 P l) as [HS3 He]; [|done|apply (vi_lock _ _ _ (so_inv _ _ _ HS1))|exact HS1|].
  { intros v a Hv Ha. change (k_mem s3) with m3. rewrite (Hm3 v a); [by rewrite Em| | |done].
    - destruct Hv as [Hv|Hv]; [by eapply owns_page, Hv; apply HS|]. destruct (vi_kmem _ _ _ (so_inv _ _ _ HS1)) as [Hf _].
      by apply (proj1 (Forall_forall _ _) (flist_pages _ _ _ Hf)).
    - intros ->. by destruct Hv. }
  rewrite Em in He. change (k_mem s3) with m3 in *.
  exists s3. split; [|split; [|split; [exact HS3|]]].
  - unfold allocproc.
    assert (acquire LkPtable s = Ret tt (set_k_held [LkPtable] s)) as Ha
      by (rewrite acquire_ok by (rewrite Hh; apply not_elem_of_nil); by rewrite Hh).
    rewrite (bind_Ret _ _ _ _ _ Ha).
    kstep_by ltac:(apply (scan_unused _ _ _ np); [lia|exact Hu|intros j Hj; apply Hfirst; lia]).
    cbv iota. do 4 kstep. kstep_by ltac:(apply (release_ok LkPtable []); [reflexivity|apply not_elem_of_nil]).
    match goal with |- (kalloc ≫= _) ?x = _ => replace x with s0 end.
    2: { unfold s0. kst_eq; [by rewrite Hh|by rewrite list_alter_alter_eq]. }
    rewrite (bind_Ret _ _ _ _ _ Hr). kstep. fold s2. pose proof Hk as (_ & _ & _ & Hk0).
    rewrite (proj2 (Z.eqb_neq kst 0)) by lia. kstep_by ltac:(apply stmem_run). kstep. reflexivity.
  - unfold only_mem in O. unfold s3, s2. rewrite O at 1. unfold s0. kst_eq. by rewrite !list_alter_alter_eq.
  - split; [exact Hk|]. split; [exact Hkl|]. split; [exact Hko|]. split; [|split; [exact Hso|exact He]].
    intros Hc%(user_frame_ext (k_mem s) m3 P He). exact (Hku Hc).
Qed.

(** ** Files *)

(** The descriptors of [fs] that refer to the file [f]. *)
Definition refs_to (f : nat) (fs : list (option nat)) : Z :=
  Z.of_nat (length (filter (fun x => x = Some f) fs)).

Lemma filedup_run f s :
  (LkFtable ∉ k_held s) -> 1 <= f_ref (k_files s !!! f) ->
  filedup f s = Ret f (upd_file f (fun r => set_f_ref (f_ref r + 1) r) s).
Proof.
  intros Hl Hr. unfold filedup. kstep_by ltac:(by apply acquire_ok). kstep. cbn [k_files set_k_held].
  rewrite (proj2 (Z.ltb_ge _ _)) by lia. kstep. kstep_by ltac:(by apply release_ok).
  unfold mret, M_ret. f_equal. kst_eq.
  apply list_eq. intros j. destruct (decide (f = j)) as [<-|Hne]; [|by rewrite !list_lookup_alter_ne].
  rewrite !list_lookup_alter_eq. destruct (k_files s !! f) as [r|] eqn:E; [|done]. simpl.
  by rewrite (list_lookup_total_correct _ _ _ E).
Qed.

(** The files after each descriptor of [fs] has been duplicated. *)
Definition dup_all (fs : list (option nat)) (fl : list file) : list file :=
  foldl (fun fl x => match x with Some f => alter (fun r => set_f_ref (f_ref r + 1) r) f fl | None => fl end) fl fs.

Lemma length_dup_all fs fl : length (dup_all fs fl) = length fl.
Proof.
  revert fl. induction fs as [|[f|] fs IH]; intros fl; [done| |by apply IH].
  cbn [dup_all foldl]. fold (dup_all fs (alter (fun r => set_f_ref (f_ref r + 1) r) f fl)). by rewrite IH, length_alter.
Qed.

Lemma dup_all_spec fs fl f :
  (f < length fl)%nat -> dup_all fs fl !!! f = set_f_ref (f_ref (fl !!! f) + refs_to f fs) (fl !!! f).
Proof.
  revert fl. induction fs as [|x fs IH]; intros fl Hf.
  { unfold refs_to. simpl. rewrite Z.add_0_r. by destruct (fl !!! f). }
  cbn [dup_all foldl]. destruct x as [g|].
  - fold (dup_all fs (alter (fun r => set_f_ref (f_ref r + 1) r) g fl)). rewrite IH by (by rewrite length_alter).
    unfold refs_to. rewrite filter_cons. destruct (decide (g = f)) as [->|Hne].
    + rewrite decide_True by done. rewrite lookup_total_alter, decide_True by done. cbn [length].
      destruct (fl !!! f) as [x1 x2 x3 x4 x5 x6 x7]. unfold set_f_ref. simpl. f_equal. lia.
    + rewrite decide_False by congruence. rewrite !list_lookup_total_alt, list_lookup_alter_ne by done. done.
  - fold (dup_all fs fl). rewrite IH by done. unfold refs_to. by rewrite filter_cons, decide_False by done.
Qed.

Definition dup_fd (cur np i : nat) : K unit :=
  c ← getproc cur;
  match p_ofile c !!! i with
  | Some f =>
      f ← filedup f;
      modify (upd_proc np (fun r => set_p_ofile (<[i := Some f]> (p_ofile r)) r))
  | None => mret tt
  end.

(** The loop over the descriptors: those below [i] have been copied. *)
Lemma fork_files n i s cur np fs :
  (LkFtable ∉ k_held s) -> np <> cur -> (np < length (k_procs s))%nat -> (i + n)%nat = NOFILE -> length fs = NOFILE ->
  p_ofile (k_procs s !!! cur) = fs -> p_ofile (k_procs s !!! np) = take i fs ++ replicate n None ->
  (forall f, Some f ∈ fs -> (f < length (k_files s))%nat /\ 1 <= f_ref (k_files s !!! f)) ->
  for_each (seq i n) (dup_fd cur np) s =
  Ret tt (set_k_files (dup_all (drop i fs) (k_files s)) (upd_proc np (set_p_ofile fs) s)).
Proof.
  revert i s. induction n as [|n IH]; intros i s Hl Hne Hnp Hi Hlen Hc Ho Hf.
  { rewrite drop_ge by lia. cbn [seq for_each dup_all foldl]. unfold mret, M_ret. f_equal. kst_eq.
    rewrite app_nil_r, firstn_all2 in Ho by lia. rewrite (alter_insert_total _ _ _ Hnp). symmetry. apply list_insert_id.
    rewrite list_lookup_lookup_total_lt by done. f_equal. by rewrite <- Ho; destruct (k_procs s !!! np). }
  destruct (lookup_lt_is_Some_2 fs i) as [x Hx]; [lia|]. cbn [seq for_each].
  assert (take (S i) fs = take i fs ++ [x]) as Etake by (by apply take_S_r).
  rewrite (drop_S _ _ _ Hx). destruct x as [f|].
  - destruct (Hf f) as [Hfl Hfr]; [by eapply list_elem_of_lookup_2|].
    set (s1 := upd_proc np (fun r => set_p_ofile (<[i := Some f]> (p_ofile r)) r) (upd_file f (fun r => set_f_ref (f_ref r + 1) r) s)).
    assert (dup_fd cur np i s = Ret tt s1) as Hr.
    { unfold dup_fd. kstep. rewrite Hc, (list_lookup_total_correct _ _ _ Hx).
      by rewrite (bind_Ret _ _ _ _ _ (filedup_run f s Hl Hfr)). }
    rewrite (bind_Ret _ _ _ _ _ Hr), (IH (S i) s1); try done.
    + f_equal. unfold s1. kst_eq. by rewrite list_alter_alter_eq.
    + cbn [s1 k_procs upd_proc set_k_procs upd_file set_k_files]. by rewrite length_alter.
    + lia.
    + cbn [s1 k_procs upd_proc set_k_procs upd_file set_k_files]. by rewrite lookup_total_alter, decide_False by done.
    + cbn [s1 k_procs upd_proc set_k_procs upd_file set_k_files]. rewrite lookup_total_alter, decide_True by done.
      cbn [p_ofile set_p_ofile]. rewrite Ho, Etake, insert_app_r_alt by (rewrite length_take; lia).
      rewrite length_take, Nat.min_l, Nat.sub_diag by lia. by rewrite <- app_assoc.
    + intros g Hg. destruct (Hf g Hg) as [Hgl Hgr]. cbn [s1 k_files upd_proc set_k_procs upd_file set_k_files].
      rewrite length_alter. split; [done|]. rewrite lookup_total_alter by done. case_decide; subst; cbn [f_ref set_f_ref]; lia.
  - assert (dup_fd cur np i s = Ret tt s) as Hr.
    { unfold dup_fd. kstep. by rewrite Hc, (list_lookup_total_correct _ _ _ Hx). }
    rewrite (bind_Ret _ _ _ _ _ Hr), (IH (S i) s); try done; [lia|]. rewrite Ho, Etake, <- app_assoc. done.
Qed.

Lemma idup_run ip s :
  (LkIcache ∉ k_held s) -> idup ip s = Ret ip (upd_inode ip (fun i => set_i_ref (i_ref i + 1) i) s).
Proof.
  intros Hl. unfold idup. kstep_by ltac:(by apply acquire_ok). kstep. kstep_by ltac:(by apply release_ok).
  unfold mret, M_ret. f_equal.
Qed.

(** ** The child *)

(** The entry of the child of [c], when the entry was [r] before. *)
Definition child (cur : nat) (c : proc) (pid kst pgdir : Z) (r : proc) : proc :=
  mkproc (p_sz c) pgdir kst RUNNABLE pid (Some cur) (set_tf_eax 0 (p_tf c)) (set_cx_eip img_forkret ctx_zero)
    (p_chan r) (p_killed r) (p_ofile c) (p_cwd c) (name_copy (p_name c) (p_name r)) (p_status r).

(** The code behind [copyuvm]. *)
Lemma fork_rest s cur np ip pgdir :
  pgdir <> 0 -> k_held s = [] -> length (k_procs s) = NPROC -> (np < NPROC)%nat -> np <> cur ->
  let c := k_procs s !!! cur in let r := k_procs s !!! np in
  length (p_ofile c) = NOFILE -> p_ofile r = replicate NOFILE None ->
  (forall f, Some f ∈ p_ofile c -> (f < length (k_files s))%nat /\ 1 <= f_ref (k_files s !!! f)) -> p_cwd c = Some ip ->
  p_context r = set_cx_eip img_forkret ctx_zero ->
  (modify (upd_proc np (set_p_sz (p_sz c)));;
   modify (upd_proc np (set_p_parent (Some cur)));;
   modify (upd_proc np (set_p_tf (set_tf_eax 0 (p_tf c))));;
   for_each (seq 0 NOFILE) (dup_fd cur np);;
   c ← getproc cur;
   match p_cwd c with
   | None => undef
   | Some cwd =>
       cwd ← idup cwd;
       modify (upd_proc np (set_p_cwd (Some cwd)));;
       modify (upd_proc np (fun r => set_p_name (name_copy (p_name c) (p_name r)) r));;
       r ← getproc np;
       acquire LkPtable;;
       modify (upd_proc np (set_p_state RUNNABLE));;
       release LkPtable;;
       mret (p_pid r)
   end) (upd_proc np (set_p_pgdir pgdir) s) =
  Ret (p_pid r) (set_k_procs (<[np := child cur c (p_pid r) (p_kstack r) pgdir r]> (k_procs s))
    (set_k_files (dup_all (p_ofile c) (k_files s)) (upd_inode ip (fun i => set_i_ref (i_ref i + 1) i) s))).
Proof.
  intros Hpg Hh Hlen Hnp Hne c r Hfl Hfr Hfs Hcwd Hcx. do 3 kstep.
  match goal with |- (for_each _ _;; _) ?x = _ => set (s1 := x) end.
  assert (k_procs s1 !!! cur = c) as Ec0.
  { cbn [s1 k_procs upd_proc set_k_procs]. by rewrite !lookup_total_alter, !decide_False by (rewrite ?length_alter; lia). }
  assert (length (k_procs s1) = NPROC) as Hlen1 by (cbn [s1 k_procs upd_proc set_k_procs]; by rewrite !length_alter).
  pose proof (fork_files NOFILE 0 s1 cur np (p_ofile c)) as Hloop. rewrite drop_0 in Hloop.
  rewrite (bind_Ret _ _ _ _ _ (Hloop ltac:(cbn; rewrite Hh; apply not_elem_of_nil) Hne
    ltac:(lia) eq_refl Hfl ltac:(f_equal; exact Ec0) ltac:(cbn [s1 k_procs upd_proc set_k_procs];
      rewrite !lookup_total_alter, !decide_True by (rewrite ?length_alter; done || lia); exact Hfr) Hfs)).
  kstep. cbn [k_procs set_k_files upd_proc set_k_procs]. rewrite lookup_total_alter, decide_False, Ec0, Hcwd by lia.
  kstep_by ltac:(apply idup_run; cbn; rewrite Hh; apply not_elem_of_nil). do 3 kstep.
  kstep_by ltac:(apply acquire_ok; cbn; rewrite Hh; apply not_elem_of_nil). kstep.
  kstep_by ltac:(apply (release_ok LkPtable []); [cbn; by rewrite Hh|apply not_elem_of_nil]).
  unfold mret, M_ret, s1. kst_simpl. rewrite !list_alter_alter_eq.
  rewrite !(alter_insert_total _ (k_procs s) np) by lia. rewrite list_lookup_total_insert_eq by lia. fold r.
  f_equal. kst_eq; [done|]. f_equal. unfold child, compose. rewrite <- Hcwd, <- Hcx. by destruct r.
Qed.

(** What [fork] needs: a running process [c] with the page table [P], a free
    entry [np], open files with references, and free pages. *)
Record can_fork (s : kstate) (cur np ip : nat) (P : ptab) (kst : Z) (l : list Z) (n : nat) : Prop := {
  cf_image : image_ok;
  cf_held : k_held s = [];
  cf_cur : k_cur s = Some cur;
  cf_len : length (k_procs s) = NPROC;
  cf_used : p_state (k_procs s !!! cur) <> UNUSED;
  cf_first : first_unused (k_procs s) np;
  cf_pgdir : p_pgdir (k_procs s !!! cur) = pt_dir P;
  cf_space : space_ok s P (kst :: l);
  cf_sz : 0 <= p_sz (k_procs s !!! cur) <= KERNBASE;
  cf_pages : p_sz (k_procs s !!! cur) <= Z.of_nat n * 4096 < p_sz (k_procs s !!! cur) + 4096;
  cf_user a : vpage a -> a < p_sz (k_procs s !!! cur) -> has (ent (k_mem s) P a) PTE_P = true;
  cf_room : (1027 + n <= length l)%nat;
  cf_ofile : length (p_ofile (k_procs s !!! cur)) = NOFILE;
  cf_new : p_ofile (k_procs s !!! np) = replicate NOFILE None;
  cf_files f : Some f ∈ p_ofile (k_procs s !!! cur) -> (f < length (k_files s))%nat /\ 1 <= f_ref (k_files s !!! f);
  cf_cwd : p_cwd (k_procs s !!! cur) = Some ip;
}.

(** The memory after [fork]: the child's is a copy, apart from the parent's. *)
Record forked_mem (s s' : kstate) (P D : ptab) (kst sz : Z) (l' : list Z) : Prop := {
  fm_parent : space_ok s' P l';
  fm_child : proc_mem s' D kst l';
  fm_apart : apart s' P D kst;
  fm_copy a : vpage a -> a < sz ->
    PTE_FLAGS (ent (k_mem s') D a) = PTE_FLAGS (ent (k_mem s) P a) /\
    page_bytes (frame (ent (k_mem s') D a)) (k_mem s') = page_bytes (frame (ent (k_mem s) P a)) (k_mem s);
  fm_keep v a : page v -> owns P v \/ user_frame (k_mem s) P v -> v <= a < v + PGSIZE -> k_mem s' !! a = k_mem s !! a;
}.

(** [allocproc] and [copyuvm], on memory. *)
Lemma fork_memory s s1 s2 P D kst l l2 n ms sz :
  space_ok s P (kst :: l) -> space_ok s1 P l -> page kst -> (kst ∉ l) -> ~ owns P kst -> ~ user_frame (k_mem s1) P kst ->
  same_outside kst (k_mem s) (k_mem s1) -> (forall a, ent (k_mem s1) P a = ent (k_mem s) P a) ->
  copied P (k_mem s1) l s2 D l2 n ms -> sz <= Z.of_nat n * 4096 < sz + 4096 -> Z.of_nat n * 4096 <= KERNBASE ->
  (forall a, vpage a -> a < sz -> has (ent (k_mem s) P a) PTE_P = true) ->
  forked_mem s s2 P D kst sz l2.
Proof.
  intros HS HS1 Hk Hkl Hko Hku Hso He1 C Hn Hnk Hu. pose proof (proj2 (vi_kmem _ _ _ (so_inv _ _ _ HS1))) as Hnd.
  destruct (copied_original P s1 l s2 D l2 n ms HS1 C) as [HP2 Hap].
  assert (forall a, vpage a -> a < sz -> user_page (k_mem s1) P l a) as Hup.
  { intros a Ha Has. apply (so_page _ _ _ HS1); [done|lia|]. rewrite He1. by apply Hu. }
  destruct (copied_space P (k_mem s1) l s2 D l2 n ms sz Hnd C ltac:(lia) Hnk Hup) as [HD Huf].
  pose proof (copied_used _ _ _ _ _ _ _ _ Hnd C) as Hall.
  assert (forall v a, page v -> v <> kst -> (v ∉ l) -> v <= a < v + PGSIZE -> k_mem s2 !! a = k_mem s !! a) as Hkeep.
  { intros v a Hv Hne Hvl Ha. rewrite (cp_frame _ _ _ _ _ _ _ _ C v a Hv Hvl Ha). apply Hso.
    pose proof (page_disjoint _ _ Hv Hk Hne). unfold PGSIZE in *. lia. }
  assert (forall v, owns P v \/ user_frame (k_mem s) P v -> v <> kst /\ (v ∉ l)) as Hpl.
  { intros v Hv. rewrite <- (user_frame_ext _ _ P He1) in Hv. split.
    - intros ->. by destruct Hv.
    - destruct Hv as [Hv|(a & Ha & Hak & Hh & E)].
      + intros Hin. exact (vi_own _ _ _ (so_inv _ _ _ HS1) v Hin Hv).
      + destruct (so_page _ _ _ HS1 a Ha Hak Hh) as (_ & _ & H & _). by rewrite E in H. }
  assert (forall v, user_frame (k_mem s2) P v <-> user_frame (k_mem s) P v) as Hufp.
  { apply user_frame_ext. destruct (copied_parent P (k_mem s1) l) with s2 D l2 n ms as [_ E];
      [apply HS1|intros v Hv Hin; exact (vi_own _ _ _ (so_inv _ _ _ HS1) v Hin Hv)|exact C|]. intros a. by rewrite E. }
  assert (forall v, proc_page (k_mem s2) D kst v -> v = kst \/ v ∈ l) as Hpp.
  { intros v [->|[Ho|Hf]]; [by left|right; apply Hall; right; by left|right; apply Hall; right; right; by apply Huf]. }
  split.
  - exact HP2.
  - split; [exact HD|exact Hk| | |].
    + intros Hin. apply Hkl, Hall. by left.
    + intros Ho. apply Hkl, Hall. right. by left.
    + intros Hf. apply Hkl, Hall. right. right. by apply Huf.
  - split; intros v Hv Hp%Hpp; rewrite ?Hufp in Hv; destruct (Hpl v) as [H1 H2]; tauto.
  - intros a Ha Has. pose proof (Hup a Ha Has) as (Hh & Hpg & Hpgl & _).
    destruct (copied_page _ _ _ _ _ _ _ _ a C Ha ltac:(lia) Hh) as (v & _ & E1 & E2 & E3 & _). cbv zeta in *.
    rewrite E1, E2, E3, He1. split; [reflexivity|]. rewrite He1 in *.
    apply load_page_agree. intros x Hx. apply Hso.
    assert (frame (ent (k_mem s) P a) <> kst) as Hne.
    { apply Hpl. right. exists a. split; [done|]. split; [lia|]. by split. }
    pose proof (page_disjoint _ _ Hpg Hk Hne). unfold PGSIZE in *. lia.
  - intros v a Hv Hvp Ha. destruct (Hpl v Hvp) as [H1 H2]. by apply (Hkeep v).
Qed.

(** C12: [fork] makes a copy of the process: it returns the next process number,
    which the child, the first free entry of the table, has; the child is
    runnable, has the caller as parent, its size, trap frame with 0 as the
    result, open files and directory, whose reference counts have gone up by
    the number of descriptors, and a copy of its memory, page by page, in pages
    of its own; all other processes, the caller and its memory are as they
    were. *)
Theorem fork_child s cur np ip P kst l n :
  can_fork s cur np ip P kst l n ->
  let c := k_procs s !!! cur in
  exists s' D l', fork s = Ret (k_nextpid s) s' /\
    k_procs s' = <[np := child cur c (k_nextpid s) kst (pt_dir D) (k_procs s !!! np)]> (k_procs s) /\
    (forall f, (f < length (k_files s))%nat ->
       k_files s' !!! f = set_f_ref (f_ref (k_files s !!! f) + refs_to f (p_ofile c)) (k_files s !!! f)) /\
    k_inodes s' = alter (fun i => set_i_ref (i_ref i + 1) i) ip (k_inodes s) /\
    k_nextpid s' = s32 (k_nextpid s + 1) /\ forked_mem s s' P D kst (p_sz c) l'.
Proof.
  intros [Hi Hh Hc Hlen Hus (Hnp & Hun & Hfirst) Hpg HS Hsz Hn Hu Hroom Hof Hnew Hfs Hcwd] c.
  assert (np <> cur) as Hne by (intros ->; done).
  destruct (allocproc_run s np P kst l Hh Hlen) as (s1 & R1 & E1 & HS1 & Hk & Hkl & Hko & Hku & Hso & He1); [done|exact HS|].
  assert (k_procs s1 = alter (embryo (k_nextpid s) kst) np (k_procs s)) as Ep1 by (by rewrite E1).
  assert (k_procs s1 !!! cur = c) as Ec1 by (rewrite Ep1, lookup_total_alter, decide_False by lia; done).
  assert (k_procs s1 !!! np = embryo (k_nextpid s) kst (k_procs s !!! np)) as Enp1
    by (rewrite Ep1, lookup_total_alter, decide_True by lia; done).
  destruct (copyuvm_run s1 P l (p_sz c) n Hi (so_inv _ _ _ HS1) Hsz Hn) as (s2 & D & l2 & ms & R2 & C & O2); [|exact Hroom|].
  { intros a Ha Has. apply (so_page _ _ _ HS1); [done|fold c in Hsz; lia|]. rewrite He1. by apply Hu. }
  pose proof (pw_dir _ _ (vi_wf _ _ _ (cp_inv _ _ _ _ _ _ _ _ C))) as (_ & _ & _ & Hd0).
  assert (k_procs s2 = k_procs s1) as Ep2 by (unfold only_mem in O2; by rewrite O2).
  assert (k_held s2 = [] /\ k_files s2 = k_files s /\ k_inodes s2 = k_inodes s /\ k_nextpid s2 = s32 (k_nextpid s + 1))
    as (Eh2 & Ef2 & Ei2 & En2).
  { unfold only_mem in O2. rewrite O2, E1. by split_and!. }
  pose proof (fork_rest s2 cur np ip (pt_dir D) ltac:(lia) Eh2) as R3. rewrite Ep2, Ec1, Enp1 in R3.
  specialize (R3 ltac:(rewrite Ep1, length_alter; done) Hnp Hne Hof Hnew ltac:(rewrite Ef2; exact Hfs) Hcwd eq_refl).
  cbn [embryo p_pid p_kstack set_p_context set_p_kstack set_p_pid set_p_state] in R3.
  eexists _, D, l2. split; [|split; [|split; [|split; [|split]]]].
  - unfold fork. rewrite (bind_Ret _ _ _ _ _ R1).
    assert (k_cur s1 = Some cur) as Hc1 by (by rewrite E1).
    rewrite (bind_Ret _ _ _ _ _ (curproc_ok cur s1 Hc1)). kstep. rewrite Ec1. fold c in Hpg. rewrite Hpg.
    rewrite (bind_Ret _ _ _ _ _ R2). kstep. rewrite (proj2 (Z.eqb_neq _ 0)) by lia. kstep.
    fold (dup_fd cur np). replace (k_procs (upd_proc np (set_p_pgdir (pt_dir D)) s2) !!! cur) with c; [exact R3|].
    cbn [k_procs upd_proc set_k_procs]. rewrite lookup_total_alter, decide_False, Ep2, Ec1; [done|lia|].
    rewrite Ep2, Ep1, length_alter. lia.
  - cbn [k_procs set_k_procs]. rewrite Ep1, (alter_insert_total _ _ _) by lia. by rewrite list_insert_insert_eq.
  - intros f Hf. cbn [k_files set_k_procs set_k_files]. rewrite Ef2. by apply dup_all_spec.
  - cbn [k_inodes set_k_procs set_k_files upd_inode set_k_inodes]. by rewrite Ei2.
  - exact En2.
  - assert (forked_mem s s2 P D kst (p_sz c) l2) as FM.
    { apply (fork_memory s s1 s2 P D kst l l2 n ms); try done. fold c in Hsz, Hn. unfold KERNBASE in *. lia. }
    destruct FM as [F1 F2 F3 F4 F5].
    match goal with |- forked_mem _ ?x _ _ _ _ _ => set (s3 := x) end.
    assert (forall R, space_ok s2 R l2 -> space_ok s3 R l2) as Hs3.
    { intros R H. destruct (space_ok_frame s2 s3 R l2) as [H' _]; [done|done|apply (vi_lock _ _ _ (so_inv _ _ _ H))|exact H|exact H']. }
    split; [by apply Hs3| |by destruct F3; split|exact F4|exact F5].
    destruct F2 as [G1 G2 G3 G4 G5]. split; [by apply Hs3|exact G2|exact G3|exact G4|exact G5].
Qed.

End Fork.

#[local] Existing Instance vm_image.
#[local] Existing Instance vm_fuel.

(** A process with one page and two descriptors for one file. *)
Definition forker (d x : Z) (m : mem) : kstate :=
  let p := set_p_cwd (Some 0%nat) (set_p_ofile (Some 0%nat :: Some 0%nat :: replicate 14 None)
    (set_p_sz 100 (set_p_pgdir d (set_p_state RUNNING (set_p_pid 3 inhabitant))))) in
  let s := set_k_freelist x (set_k_mem m (reset_state (mkdisk ∅ 0 []))) in
  upd_inode 0 (set_i_ref 1) (upd_file 0 (set_f_ref 2) (set_k_nextpid 4 (set_k_cur (Some 0%nat)
    (set_k_procs (p :: replicate 63 (set_p_ofile (replicate 16 None) inhabitant)) s)))).

Lemma fork_child_witness :
  exists s s', fork s = Ret 4 s' /\ p_state (k_procs s' !!! 1%nat) = RUNNABLE /\
    tf_eax (p_tf (k_procs s' !!! 1%nat)) = 0 /\ f_ref (k_files s' !!! 0%nat) = 4.
Proof.
  destruct one_page_space as (sm & P & l & HS & Hlen & _ & Hu & _).
  destruct l as [|kst l]; [simpl in Hlen; lia|]. simpl in Hlen.
  set (s := forker (pt_dir P) (k_freelist sm) (k_mem sm)).
  destruct (fork_child s 0 1 0 P kst l 1) as (s' & D & l' & Hr & Ep & Ef & _).
  - split.
    + exact vm_image_ok.
    + reflexivity.
    + reflexivity.
    + reflexivity.
    + discriminate.
    + split; [rewrite NPROC_eq; lia|]. split; [reflexivity|]. intros i Hi. assert (i = 0%nat) as -> by lia. discriminate.
    + reflexivity.
    + destruct (space_ok_frame sm s P (kst :: l)) as [H _]; [reflexivity|reflexivity|apply not_elem_of_nil|exact HS|exact H].
    + split; discriminate.
    + cbn. lia.
    + intros a Ha Hlt. cbn in Hlt. apply Hu; [exact Ha|lia].
    + lia.
    + reflexivity.
    + reflexivity.
    + intros f Hf. assert (f = 0%nat) as ->; [|cbn; lia].
      apply list_elem_of_In in Hf. cbn in Hf. intuition congruence.
    + reflexivity.
  - exists s, s'. split; [exact Hr|]. rewrite Ep, (Ef 0%nat) by (cbn; lia). cbn. auto.
Defined.
