(* ===== verification/Sysarg.v ===== *)
(** * System call arguments ([syscall.c], first half)

    Arguments are fetched from the user stack and checked against the size
    of the process.  The functions return [None] where the C functions return
    -1; [fetchstr] returns the string it has walked over. *)

From S2P Require Import Prelude Monad State Strings Sched Kalloc Vm.

Section Sysarg.
Context {KI : KernelImage}.

(** [proc], dereferenced *)
Definition cur_proc : K proc :=
  p ← curproc;
  getproc p.

Definition fetchint (addr : Z) : K (option Z) :=
  c ← cur_proc;
  if (p_sz c <=? addr) || (p_sz c <? u32 (addr + 4)) then mret None
  else
    l ← uload addr 4;
    mret (Some (s32 (le_dec l))).

(** [fetchstr]: the bytes up to the NUL. *)
Definition fetchstr (addr : Z) : K (option (list Z)) :=
  c ← cur_proc;
  if p_sz c <=? addr then mret None
  else
    loop (S (Z.to_nat (p_sz c - addr))) (fun '(s, acc) =>
      if s <? p_sz c then
        x ← uload1 s;
        if x =? 0 then mret (inr (Some acc)) else mret (inl (s + 1, acc ++ [x]))
      else mret (inr None)) (addr, []).

Definition argint (n : Z) : K (option Z) :=
  c ← cur_proc;
  fetchint (u32 (tf_esp (p_tf c) + 4 + 4 * n)).

Definition argptr (n size : Z) : K (option Z) :=
  x ← argint n;
  match x with
  | None => mret None
  | Some i =>
      c ← cur_proc;
      let i := u32 i in
      if (p_sz c <=? i) || (p_sz c <? u32 (i + size)) then mret None
      else mret (Some i)
  end.

Definition argstr (n : Z) : K (option (list Z)) :=
  x ← argint n;
  match x with
  | None => mret None
  | Some addr => fetchstr (u32 addr)
  end.

End Sysarg.
