(* ===== verification/Exec.v ===== *)
(** * [exec] ([exec.c]) *)

From S2P Require Import Prelude Monad State Strings Sched Bio BioSpec Layout Log Inode Console.
From S2P Require Import Content Kalloc Vm.

Definition ELF_MAGIC : Z := 1179403647.
Definition ELF_PROG_LOAD : Z := 1.
(** [sizeof(struct elfhdr)] and [sizeof(struct proghdr)] *)
Definition ELFHDR_SIZE : Z := 52.
Definition PROGHDR_SIZE : Z := 32.

Record elfhdr := mkelf { elf_magic : Z; elf_entry : Z; elf_phoff : Z; elf_phnum : Z }.
Record proghdr := mkph {
  ph_type : Z; ph_off : Z; ph_vaddr : Z; ph_filesz : Z; ph_memsz : Z;
}.

Definition dec_elf (l : list Z) : elfhdr :=
  mkelf (rd 4 0 l) (rd 4 24 l) (rd 4 28 l) (rd 2 44 l).
Definition dec_ph (l : list Z) : proghdr :=
  mkph (rd 4 0 l) (rd 4 4 l) (rd 4 8 l) (rd 4 16 l) (rd 4 20 l).

(** The last component of a path: [last] of [exec]. *)
Fixpoint basename (last s : list Z) : list Z :=
  match s with
  | [] => last
  | c :: s' => basename (if c =? ch_slash then s' else last) s'
  end.

Section Exec.
Context {WF : WakeFuel} {KI : KernelImage}.

(** The label [bad]: free the page table and the inode if they are there. *)
Definition exec_bad (pgdir : Z) (ip : option nat) : K Z :=
  when (negb (pgdir =? 0)) (freevm pgdir);;
  match ip with
  | Some ip => iunlockput ip;; end_op
  | None => mret tt
  end;;
  mret (-1).

(** Load the segments: the new size, or [None] to go to [bad]. *)
Definition exec_load (pgdir : Z) (ip : nat) (elf : elfhdr) : K (option Z) :=
  loop (S (Z.to_nat (elf_phnum elf))) (fun '(i, off, sz) =>
    if i <? elf_phnum elf then
      '(r, l) ← readi ip (u32 off) PROGHDR_SIZE;
      if negb (r =? PROGHDR_SIZE) then mret (inr None)
      else
        let ph := dec_ph l in
        if negb (ph_type ph =? ELF_PROG_LOAD) then mret (inl (i + 1, off + PROGHDR_SIZE, sz))
        else if ph_memsz ph <? ph_filesz ph then mret (inr None)
        else
          sz ← allocuvm pgdir sz (u32 (ph_vaddr ph + ph_memsz ph));
          if sz =? 0 then mret (inr None)
          else
            x ← loaduvm pgdir (ph_vaddr ph) ip (ph_off ph) (ph_filesz ph);
            if x <? 0 then mret (inr None)
            else mret (inl (i + 1, off + PROGHDR_SIZE, sz))
    else mret (inr (Some sz))) (0, elf_phoff elf, 0).

(** Push the argument strings: the stack pointer and the addresses, or
    [None]. *)
Definition exec_args (pgdir sp : Z) (argv : list (list Z)) : K (option (Z * list Z)) :=
  loop (S (length argv)) (fun '(argv, sp, ustack) =>
    match argv with
    | [] => mret (inr (Some (sp, ustack)))
    | a :: argv' =>
        if (MAXARG <=? length ustack)%nat then mret (inr None)
        else
          let len := Z.of_nat (length a) + 1 in
          let sp := Z.land (u32 (sp - len)) (Z.lnot 3) in
          x ← copyout pgdir sp (a ++ [0]) len;
          if x <? 0 then mret (inr None)
          else mret (inl (argv', sp, ustack ++ [sp]))
    end) (argv, sp, []).

Definition exec (path : list Z) (argv : list (list Z)) : K Z :=
  begin_op;;
  r ← namei path;
  match r with
  | None => end_op;; mret (-1)
  | Some ip =>
      ilock ip;;
      '(r, l) ← readi ip 0 ELFHDR_SIZE;
      let elf := dec_elf l in
      if u32 r <? ELFHDR_SIZE then exec_bad 0 (Some ip)
      (* [-1 < sizeof(elf)] is false: the header is read uninitialised *)
      else if r <? 0 then undef
      else if negb (elf_magic elf =? ELF_MAGIC) then exec_bad 0 (Some ip)
      else
        pgdir ← setupkvm;
        if pgdir =? 0 then exec_bad 0 (Some ip)
        else
          loaded ← exec_load pgdir ip elf;
          match loaded with
          | None => exec_bad pgdir (Some ip)
          | Some sz =>
              iunlockput ip;;
              end_op;;
              let sz := PGROUNDUP sz in
              sz ← allocuvm pgdir sz (u32 (sz + 2 * PGSIZE));
              if sz =? 0 then exec_bad pgdir None
              else
                clearpteu pgdir (u32 (sz - 2 * PGSIZE));;
                pushed ← exec_args pgdir sz argv;
                match pushed with
                | None => exec_bad pgdir None
                | Some (sp, args) =>
                    let argc := Z.of_nat (length args) in
                    let sp := u32 (sp - 16) in
                    copyout pgdir sp img_exit_begin 16;;
                    let ustack := [sp; argc; u32 (sp - (argc + 1) * 4)] ++ args ++ [0] in
                    let sp := u32 (sp - (3 + argc + 1) * 4) in
                    x ← copyout pgdir sp (concat (le_enc 4 <$> ustack)) ((3 + argc + 1) * 4);
                    if x <? 0 then exec_bad pgdir None
                    else
                      cur ← curproc;
                      modify (upd_proc cur (fun r => set_p_name
                        (splice 0 (safestrcpy_l 16 (basename path path)) (p_name r)) r));;
                      c ← getproc cur;
                      modify (upd_proc cur (set_p_pgdir pgdir));;
                      modify (upd_proc cur (set_p_sz sz));;
                      modify (upd_proc cur (fun r => set_p_tf
                        (set_tf_esp sp (set_tf_eip (elf_entry elf) (p_tf r))) r));;
                      switchuvm cur;;
                      freevm (p_pgdir c);;
                      mret 0
                end
          end
  end.

End Exec.
