(* ===== verification/Sysfile.v ===== *)
(** * File system calls ([sysfile.c]) *)

From S2P Require Import Prelude Monad State Strings Sched Bio BioSpec Layout Log Inode Console.
From S2P Require Import Content Kalloc Pipe File Vm Sysarg Exec.

(** ["."] and [".."] *)
Definition str_dot : list Z := [46].
Definition str_dotdot : list Z := [46; 46].

(** [struct stat] in user memory: two bytes of padding after each [short]. *)
Definition STAT_SIZE : Z := 20.
Definition enc_stat_at (addr : Z) (st : stat) : list (Z * list Z) :=
  [ (addr, le_enc 2 (st_type st)); (addr + 4, le_enc 4 (st_dev st));
    (addr + 8, le_enc 4 (st_ino st)); (addr + 12, le_enc 2 (st_nlink st));
    (addr + 16, le_enc 4 (st_size st)) ].

Section Sysfile.
Context {WF : WakeFuel} {KI : KernelImage}.

(** [argfd]: the descriptor and its file. *)
Definition argfd (n : Z) : K (option (Z * nat)) :=
  x ← argint n;
  match x with
  | None => mret None
  | Some fd =>
      c ← cur_proc;
      if (fd <? 0) || (Z.of_nat NOFILE <=? fd) then mret None
      else
        match p_ofile c !!! Z.to_nat fd with
        | None => mret None
        | Some f => mret (Some (fd, f))
        end
  end.

Definition fdalloc (f : nat) : K Z :=
  p ← curproc;
  r ← scan (seq 0 NOFILE) (fun fd =>
    c ← getproc p;
    match p_ofile c !!! fd with
    | None =>
        modify (upd_proc p (fun r => set_p_ofile (<[fd := Some f]> (p_ofile r)) r));;
        mret (Some (Z.of_nat fd))
    | Some _ => mret None
    end);
  mret (default (-1) r).

(** [proc->ofile[fd] = 0] *)
Definition fdclear (fd : Z) : K unit :=
  p ← curproc;
  modify (upd_proc p (fun r => set_p_ofile (<[Z.to_nat fd := None]> (p_ofile r)) r)).

Definition sys_dup : K Z :=
  x ← argfd 0;
  match x with
  | None => mret (-1)
  | Some (_, f) =>
      fd ← fdalloc f;
      if fd <? 0 then mret (-1)
      else
        filedup f;;
        mret fd
  end.

Definition sys_read : K Z :=
  x ← argfd 0;
  match x with
  | None => mret (-1)
  | Some (_, f) =>
      n ← argint 2;
      match n with
      | None => mret (-1)
      | Some n =>
          p ← argptr 1 n;
          match p with
          | None => mret (-1)
          | Some p =>
              '(r, l) ← fileread f n;
              ustore p l;;
              mret r
          end
      end
  end.

Definition sys_write : K Z :=
  x ← argfd 0;
  match x with
  | None => mret (-1)
  | Some (_, f) =>
      n ← argint 2;
      match n with
      | None => mret (-1)
      | Some n =>
          p ← argptr 1 n;
          match p with
          | None => mret (-1)
          | Some p =>
              l ← uload p (Z.to_nat n);
              filewrite f l n
          end
      end
  end.

Definition sys_close : K Z :=
  x ← argfd 0;
  match x with
  | None => mret (-1)
  | Some (fd, f) =>
      fdclear fd;;
      fileclose f;;
      mret 0
  end.

Definition sys_fstat : K Z :=
  x ← argfd 0;
  match x with
  | None => mret (-1)
  | Some (_, f) =>
      p ← argptr 1 STAT_SIZE;
      match p with
      | None => mret (-1)
      | Some p =>
          r ← filestat f;
          match r with
          | None => mret (-1)
          | Some st =>
              for_each (enc_stat_at p st) (fun '(a, l) => ustore a l);;
              mret 0
          end
      end
  end.

Definition sys_link : K Z :=
  old ← argstr 0;
  match old with
  | None => mret (-1)
  | Some old =>
    new ← argstr 1;
    match new with
    | None => mret (-1)
    | Some new =>
      begin_op;;
      r ← namei old;
      match r with
      | None => end_op;; mret (-1)
      | Some ip =>
        ilock ip;;
        i ← getinode ip;
        if i_type i =? T_DIR then
          iunlockput ip;;
          end_op;;
          mret (-1)
        else
          modify (upd_inode ip (fun i => set_i_nlink (s16 (i_nlink i + 1)) i));;
          iupdate ip;;
          iunlock ip;;
          let bad :=
            ilock ip;;
            modify (upd_inode ip (fun i => set_i_nlink (s16 (i_nlink i - 1)) i));;
            iupdate ip;;
            iunlockput ip;;
            end_op;;
            mret (-1) in
          '(dp, name) ← nameiparent new (replicate DIRSIZ 0);
          match dp with
          | None => bad
          | Some dp =>
              ilock dp;;
              d ← getinode dp;
              i ← getinode ip;
              r ← (if negb (i_dev d =? i_dev i) then mret (-1) else dirlink dp name (i_inum i));
              if r <? 0 then
                iunlockput dp;;
                bad
              else
                iunlockput dp;;
                iput ip;;
                end_op;;
                mret 0
          end
      end
    end
  end.

Definition isdirempty (dp : nat) : K bool :=
  d ← getinode dp;
  loop (Z.to_nat (i_size d / DIRENT_SIZE) + 2) (fun off =>
    d ← getinode dp;
    if off <? i_size d then
      '(r, de) ← readi dp off DIRENT_SIZE;
      if negb (r =? DIRENT_SIZE) then panic "isdirempty: readi"
      else if negb (de_inum (dec_dirent de) =? 0) then mret (inr false)
      else mret (inl (off + DIRENT_SIZE))
    else mret (inr true)) (2 * DIRENT_SIZE).

Definition sys_unlink : K Z :=
  path ← argstr 0;
  match path with
  | None => mret (-1)
  | Some path =>
    begin_op;;
    '(dp, name) ← nameiparent path (replicate DIRSIZ 0);
    match dp with
    | None => end_op;; mret (-1)
    | Some dp =>
      ilock dp;;
      let bad :=
        iunlockput dp;;
        end_op;;
        mret (-1) in
      if (namecmp name str_dot =? 0) || (namecmp name str_dotdot =? 0) then bad
      else
        r ← dirlookup dp name;
        match r with
        | None => bad
        | Some (ip, off) =>
          ilock ip;;
          i ← getinode ip;
          if i_nlink i <? 1 then panic "unlink: nlink < 1"
          else
            nonempty ←
              (if i_type i =? T_DIR then e ← isdirempty ip; mret (negb e) else mret false);
            if (nonempty : bool) then
              iunlockput ip;;
              bad
            else
              x ← writei dp (replicate (Z.to_nat DIRENT_SIZE) 0) off DIRENT_SIZE;
              if negb (x =? DIRENT_SIZE) then panic "unlink: writei"
              else
                i ← getinode ip;
                when (i_type i =? T_DIR)
                  (modify (upd_inode dp (fun d => set_i_nlink (s16 (i_nlink d - 1)) d));;
                   iupdate dp);;
                iunlockput dp;;
                modify (upd_inode ip (fun i => set_i_nlink (s16 (i_nlink i - 1)) i));;
                iupdate ip;;
                iunlockput ip;;
                end_op;;
                mret 0
        end
    end
  end.

(** [create]: the new inode, locked, or [None]. *)
Definition create (path : list Z) (type major minor : Z) : K (option nat) :=
  '(dp, name) ← nameiparent path (replicate DIRSIZ 0);
  match dp with
  | None => mret None
  | Some dp =>
    ilock dp;;
    r ← dirlookup dp name;
    match r with
    | Some (ip, _) =>
      iunlockput dp;;
      ilock ip;;
      i ← getinode ip;
      if (type =? T_FILE) && (i_type i =? T_FILE) then mret (Some ip)
      else
        iunlockput ip;;
        mret None
    | None =>
      d ← getinode dp;
      ip ← ialloc (i_dev d) type;
      ilock ip;;
      modify (upd_inode ip (set_i_major major));;
      modify (upd_inode ip (set_i_minor minor));;
      modify (upd_inode ip (set_i_nlink 1));;
      iupdate ip;;
      when (type =? T_DIR)
        (modify (upd_inode dp (fun d => set_i_nlink (s16 (i_nlink d + 1)) d));;
         iupdate dp;;
         i ← getinode ip;
         x ← dirlink ip str_dot (i_inum i);
         if x <? 0 then panic "create dots"
         else
           d ← getinode dp;
           x ← dirlink ip str_dotdot (i_inum d);
           if x <? 0 then panic "create dots" else mret tt);;
      i ← getinode ip;
      x ← dirlink dp name (i_inum i);
      if x <? 0 then panic "create: dirlink"
      else
        iunlockput dp;;
        mret (Some ip)
    end
  end.

Definition sys_open : K Z :=
  path ← argstr 0;
  match path with
  | None => mret (-1)
  | Some path =>
    omode ← argint 1;
    match omode with
    | None => mret (-1)
    | Some omode =>
      begin_op;;
      ip ←
        (if has omode O_CREATE then create path T_FILE 0 0
         else
           r ← namei path;
           match r with
           | None => mret None
           | Some ip =>
               ilock ip;;
               i ← getinode ip;
               if (i_type i =? T_DIR) && negb (omode =? O_RDONLY) then
                 iunlockput ip;;
                 mret None
               else mret (Some ip)
           end);
      match ip with
      | None => end_op;; mret (-1)
      | Some ip =>
        f ← filealloc;
        fd ← (match f with Some f => fdalloc f | None => mret (-1) end);
        match f with
        | Some f =>
            if fd <? 0 then
              fileclose f;;
              iunlockput ip;;
              end_op;;
              mret (-1)
            else
              iunlock ip;;
              end_op;;
              modify (upd_file f (set_f_type FD_INODE));;
              modify (upd_file f (set_f_ip ip));;
              modify (upd_file f (set_f_off 0));;
              modify (upd_file f (set_f_readable (negb (has omode O_WRONLY))));;
              modify (upd_file f (set_f_writable (has omode O_WRONLY || has omode O_RDWR)));;
              mret fd
        | None =>
            iunlockput ip;;
            end_op;;
            mret (-1)
        end
      end
    end
  end.

Definition sys_mkdir : K Z :=
  begin_op;;
  path ← argstr 0;
  ip ← (match path with Some path => create path T_DIR 0 0 | None => mret None end);
  match ip with
  | None => end_op;; mret (-1)
  | Some ip =>
      iunlockput ip;;
      end_op;;
      mret 0
  end.

Definition sys_mknod : K Z :=
  begin_op;;
  path ← argstr 0;
  ip ←
    (match path with
     | None => mret None
     | Some path =>
         major ← argint 1;
         match major with
         | None => mret None
         | Some major =>
             minor ← argint 2;
             match minor with
             | None => mret None
             | Some minor => create path T_DEV (s16 major) (s16 minor)
             end
         end
     end);
  match ip with
  | None => end_op;; mret (-1)
  | Some ip =>
      iunlockput ip;;
      end_op;;
      mret 0
  end.

Definition sys_chdir : K Z :=
  begin_op;;
  path ← argstr 0;
  ip ← (match path with Some path => namei path | None => mret None end);
  match ip with
  | None => end_op;; mret (-1)
  | Some ip =>
      ilock ip;;
      i ← getinode ip;
      if negb (i_type i =? T_DIR) then
        iunlockput ip;;
        end_op;;
        mret (-1)
      else
        iunlock ip;;
        p ← curproc;
        c ← getproc p;
        match p_cwd c with
        | None => undef
        | Some cwd => iput cwd
        end;;
        end_op;;
        modify (upd_proc p (set_p_cwd (Some ip)));;
        mret 0
  end.

Definition sys_exec : K Z :=
  path ← argstr 0;
  match path with
  | None => mret (-1)
  | Some path =>
    uargv ← argint 1;
    match uargv with
    | None => mret (-1)
    | Some uargv =>
      argv ← loop (S MAXARG) (fun '(i, argv) =>
        if Z.of_nat MAXARG <=? i then mret (inr None)
        else
          uarg ← fetchint (u32 (uargv + 4 * i));
          match uarg with
          | None => mret (inr None)
          | Some uarg =>
              if uarg =? 0 then mret (inr (Some argv))
              else
                s ← fetchstr (u32 uarg);
                match s with
                | None => mret (inr None)
                | Some s => mret (inl (i + 1, argv ++ [s]))
                end
          end) (0, []);
      match argv with
      | None => mret (-1)
      | Some argv => exec path argv
      end
    end
  end.

Definition sys_pipe : K Z :=
  x ← argptr 0 8;
  match x with
  | None => mret (-1)
  | Some fd =>
    r ← pipealloc;
    match r with
    | None => mret (-1)
    | Some (rf, wf) =>
      fd0 ← fdalloc rf;
      fd1 ← (if fd0 <? 0 then mret (-1) else fdalloc wf);
      if (fd0 <? 0) || (fd1 <? 0) then
        when (0 <=? fd0) (fdclear fd0);;
        fileclose rf;;
        fileclose wf;;
        mret (-1)
      else
        ustore fd (le_enc 4 fd0);;
        ustore (fd + 4) (le_enc 4 fd1);;
        mret 0
    end
  end.

End Sysfile.
