(* ===== verification/Kbd.v ===== *)
(** * The keyboard driver ([kbd.c], [kbd.h])

    [kbdgetc] as a function of its static variable [shift] and of the byte
    the controller holds, if any. *)

From S2P Require Import Prelude State.

Definition SHIFT : Z := 1.
Definition CTL : Z := 2.
Definition ALT : Z := 4.
Definition CAPSLOCK : Z := 8.
Definition NUMLOCK : Z := 16.
Definition SCROLLLOCK : Z := 32.
Definition E0ESC : Z := 64.

(** A 256-entry table: its first entries, and designated initialisers. *)
Definition table (first : list Z) (more : list (nat * Z)) : list Z :=
  foldl (fun t '(i, x) => <[i := x]> t) (first ++ replicate (256 - length first) 0) more.

Definition shiftcode : list Z :=
  table [] [(29%nat, CTL); (42%nat, SHIFT); (54%nat, SHIFT); (56%nat, ALT); (157%nat, CTL); (184%nat, ALT)].
Definition togglecode : list Z :=
  table [] [(58%nat, CAPSLOCK); (69%nat, NUMLOCK); (70%nat, SCROLLLOCK)].

Definition normalmap : list Z :=
  table
  [0; 27; 49; 50; 51; 52; 53; 54; 55; 56; 57; 48; 45; 61; 8; 9; 113; 119; 101; 114;
   116; 121; 117; 105; 111; 112; 91; 93; 10; 0; 97; 115; 100; 102; 103; 104; 106; 107;
   108; 59; 39; 96; 0; 92; 122; 120; 99; 118; 98; 110; 109; 44; 46; 47; 0; 42; 0; 32;
   0; 0; 0; 0; 0; 0; 0; 0; 0; 0; 0; 0; 0; 55; 56; 57; 45; 52; 53; 54; 43; 49; 50; 51;
   48; 46; 0; 0; 0; 0]
  [(156%nat, 10); (181%nat, 47); (200%nat, 226); (208%nat, 227); (201%nat, 230);
   (209%nat, 231); (203%nat, 228); (205%nat, 229); (151%nat, 224); (207%nat, 225);
   (210%nat, 232); (211%nat, 233)].

Definition shiftmap : list Z :=
  table
  [0; 27; 33; 64; 35; 36; 37; 94; 38; 42; 40; 41; 95; 43; 8; 9; 81; 87; 69; 82; 84; 89;
   85; 73; 79; 80; 123; 125; 10; 0; 65; 83; 68; 70; 71; 72; 74; 75; 76; 58; 34; 126; 0;
   124; 90; 88; 67; 86; 66; 78; 77; 60; 62; 63; 0; 42; 0; 32; 0; 0; 0; 0; 0; 0; 0; 0;
   0; 0; 0; 0; 0; 55; 56; 57; 45; 52; 53; 54; 43; 49; 50; 51; 48; 46; 0; 0; 0; 0]
  [(156%nat, 10); (181%nat, 47); (200%nat, 226); (208%nat, 227); (201%nat, 230);
   (209%nat, 231); (203%nat, 228); (205%nat, 229); (151%nat, 224); (207%nat, 225);
   (210%nat, 232); (211%nat, 233)].

Definition ctlmap : list Z :=
  table
  [0; 0; 0; 0; 0; 0; 0; 0; 0; 0; 0; 0; 0; 0; 0; 0; 17; 23; 5; 18; 20; 25; 21; 9; 15;
   16; 0; 0; 13; 0; 1; 19; 4; 6; 7; 8; 10; 11; 12; 0; 0; 0; 0; 28; 26; 24; 3; 22; 2;
   14; 13; 0; 0; 239; 0; 0]
  [(156%nat, 13); (181%nat, 239); (200%nat, 226); (208%nat, 227); (201%nat, 230);
   (209%nat, 231); (203%nat, 228); (205%nat, 229); (151%nat, 224); (207%nat, 225);
   (210%nat, 232); (211%nat, 233)].

Definition charcode : list (list Z) := [normalmap; shiftmap; ctlmap; ctlmap].

(** [kbdgetc]: the new [shift] and the result; -1 when there is no data.
    [None] is a read outside of a table. *)
Definition kbdgetc (shift : Z) (data : option Z) : option (Z * Z) :=
  match data with
  | None => Some (shift, -1)
  | Some data =>
      if data =? 224 then Some (set_flag shift E0ESC, 0)
      else if has data 128 then
        let data := if has shift E0ESC then data else Z.land data 127 in
        m ← shiftcode !! Z.to_nat data;
        Some (clear_flag shift (Z.lor m E0ESC), 0)
      else
        let '(data, shift) :=
          if has shift E0ESC then (Z.lor data 128, clear_flag shift E0ESC) else (data, shift) in
        m ← shiftcode !! Z.to_nat data;
        let shift := Z.lor shift m in
        g ← togglecode !! Z.to_nat data;
        let shift := Z.lxor shift g in
        map ← charcode !! Z.to_nat (Z.land shift (Z.lor CTL SHIFT));
        c ← map !! Z.to_nat data;
        let c :=
          if has shift CAPSLOCK then
            if (97 <=? c) && (c <=? 122) then c - 32
            else if (65 <=? c) && (c <=? 90) then c + 32
            else c
          else c in
        Some (shift, c)
  end.

(** The characters a sequence of scan codes produces, 0 for none. *)
Fixpoint kbd_run (shift : Z) (codes : list Z) : option (Z * list Z) :=
  match codes with
  | [] => Some (shift, [])
  | d :: codes' =>
      '(shift, c) ← kbdgetc shift (Some d);
      '(shift, cs) ← kbd_run shift codes';
      Some (shift, c :: cs)
  end.
