(* ===== verification/ConsoleIntr.v ===== *)
(** * Console input ([consoleintr] of [console.c])

    The interrupt handler edits a line in the ring buffer [input]: the bytes
    from [r] to [w] can be read, those from [w] to [e] can still be edited. *)

From S2P Require Import Prelude Monad State Strings Sched Bio BioSpec Layout Log Inode Console.
From S2P Require Import Content Kalloc Pipe File Vm Process.

Definition ch_ctl_p : Z := 16.
Definition ch_ctl_u : Z := 21.
Definition ch_ctl_h : Z := 8.
Definition ch_del : Z := 127.
Definition ch_cr : Z := 13.

(** [input.buf[i % INPUT_BUF]] *)
Definition in_at (i : Z) (inp : inputbuf) : Z := in_buf inp !!! Z.to_nat (i mod INPUT_BUF).

(** [input.buf[input.e++ % INPUT_BUF] = c] *)
Definition in_push (c : Z) (inp : inputbuf) : inputbuf :=
  mkinput (<[Z.to_nat (in_e inp mod INPUT_BUF) := u8 c]> (in_buf inp))
          (in_r inp) (in_w inp) (u32 (in_e inp + 1)).

Section ConsoleIntr.
Context {WF : WakeFuel} {KI : KernelImage}.

(** Kill line: at most [INPUT_BUF] characters are erased. *)
Definition kill_line : K unit :=
  loop (S (Z.to_nat INPUT_BUF)) (fun _ : unit =>
    inp ← gets k_input;
    if negb (in_e inp =? in_w inp) && negb (in_at (u32 (in_e inp - 1)) inp =? ch_nl) then
      modify (set_k_input (set_in_e (u32 (in_e inp - 1)) inp));;
      consputc BACKSPACE;;
      mret (inl tt)
    else mret (inr tt)) tt.

Definition erase_char : K unit :=
  inp ← gets k_input;
  when (negb (in_e inp =? in_w inp))
    (modify (set_k_input (set_in_e (u32 (in_e inp - 1)) inp));;
     consputc BACKSPACE).

Definition input_char (c : Z) : K unit :=
  inp ← gets k_input;
  when (negb (c =? 0) && (u32 (in_e inp - in_r inp) <? INPUT_BUF))
    (let c := if c =? ch_cr then ch_nl else c in
     modify (set_k_input (in_push c inp));;
     consputc c;;
     inp ← gets k_input;
     when ((c =? ch_nl) || (c =? ch_eof) || (in_e inp =? u32 (in_r inp + INPUT_BUF)))
       (modify (set_k_input (set_in_w (in_e inp) inp));;
        wakeup ChInput)).

(** [consoleintr] on the characters [getc] returns before -1. *)
Definition consoleintr (cs : list Z) : K unit :=
  acquire LkInput;;
  for_each cs (fun c =>
    if c =? ch_ctl_p then procdump
    else if c =? ch_ctl_u then kill_line
    else if (c =? ch_ctl_h) || (c =? ch_del) then erase_char
    else input_char c);;
  release LkInput.

End ConsoleIntr.
