(* ===== verification/Syscall.v ===== *)
(** * System calls and traps ([sysproc.c], [syscall.c], [trap.c]) *)

From S2P Require Import Prelude Monad State Strings Sched Bio BioSpec Layout Log Inode Console.
From S2P Require Import Content Kalloc Pipe File Vm Process Sysarg Exec Sysfile Kbd.
From S2P Require Import ConsoleIntr.

Section Sysproc.
Context {WF : WakeFuel} {KI : KernelImage}.

Definition sys_fork : K Z := fork.

Definition sys_exit : K Z :=
  x ← argint 0;
  match x with
  | None => mret (-1)
  | Some status => exit status
  end.

Definition sys_wait : K Z :=
  x ← argptr 0 4;
  match x with
  | None => mret (-1)
  | Some status => wait status
  end.

Definition sys_kill : K Z :=
  x ← argint 0;
  match x with
  | None => mret (-1)
  | Some pid => kill pid
  end.

Definition sys_getpid : K Z :=
  c ← cur_proc;
  mret (p_pid c).

Definition sys_sbrk : K Z :=
  x ← argint 0;
  match x with
  | None => mret (-1)
  | Some n =>
      c ← cur_proc;
      r ← growproc n;
      mret (if r <? 0 then -1 else p_sz c)
  end.

Definition sys_sleep : K Z :=
  x ← argint 0;
  match x with
  | None => mret (-1)
  | Some n =>
      acquire LkTicks;;
      ticks0 ← gets k_ticks;
      loop (S wake_fuel) (fun _ : unit =>
        ticks ← gets k_ticks;
        if u32 (ticks - ticks0) <? u32 n then
          c ← cur_proc;
          if p_killed c then
            release LkTicks;;
            mret (inr (-1))
          else
            sleep ChTicks LkTicks;;
            mret (inl tt)
        else
          release LkTicks;;
          mret (inr 0)) tt
  end.

Definition sys_uptime : K Z :=
  acquire LkTicks;;
  xticks ← gets k_ticks;
  release LkTicks;;
  mret (s32 xticks).

(** [sizeof(stat)] is the size of a pointer. *)
Definition sys_pstat : K Z :=
  x ← argint 0;
  match x with
  | None => mret (-1)
  | Some pid =>
      y ← argptr 1 4;
      match y with
      | None => mret (-1)
      | Some stat => pstat pid stat
      end
  end.

(** The table [syscalls], by number. *)
Definition syscalls (num : Z) : option (K Z) :=
  match num with
  | 1 => Some sys_fork
  | 2 => Some sys_exit
  | 3 => Some sys_wait
  | 4 => Some sys_pipe
  | 5 => Some sys_read
  | 6 => Some sys_kill
  | 7 => Some sys_exec
  | 8 => Some sys_fstat
  | 9 => Some sys_chdir
  | 10 => Some sys_dup
  | 11 => Some sys_getpid
  | 12 => Some sys_sbrk
  | 13 => Some sys_sleep
  | 14 => Some sys_uptime
  | 15 => Some sys_open
  | 16 => Some sys_write
  | 17 => Some sys_mknod
  | 18 => Some sys_unlink
  | 19 => Some sys_link
  | 20 => Some sys_mkdir
  | 21 => Some sys_close
  | 22 => Some sys_pstat
  | _ => None
  end.

(** ["%d %s: unknown sys call %d\n"] *)
Definition fmt_unknown : list Z :=
  [37; 100; 32; 37; 115; 58; 32; 117; 110; 107; 110; 111; 119; 110; 32; 115; 121; 115; 32;
   99; 97; 108; 108; 32; 37; 100; 10].

(** [proc->tf->eax = r] *)
Definition set_eax (r : Z) : K unit :=
  p ← curproc;
  modify (upd_proc p (fun c => set_p_tf (set_tf_eax (u32 r) (p_tf c)) c)).

Definition syscall : K unit :=
  c ← cur_proc;
  let num := s32 (tf_eax (p_tf c)) in
  match syscalls num with
  | Some f =>
      r ← f;
      set_eax r
  | None =>
      cprintf fmt_unknown [AInt (p_pid c); AStr (Some (cstr (p_name c))); AInt num];;
      set_eax (-1)
  end.

End Sysproc.

(** ** Traps *)

Definition T_SYSCALL : Z := 64.
Definition T_IRQ0 : Z := 32.
Definition IRQ_TIMER : Z := 0.
Definition IRQ_KBD : Z := 1.
Definition IRQ_COM1 : Z := 4.
Definition IRQ_IDE : Z := 14.
Definition IRQ_SPURIOUS : Z := 31.

(** What the hardware holds when a trap is taken: the number of the CPU, the
    fault address, the characters the keyboard and the serial port deliver. *)
Record hw := mkhw { hw_cpu : Z; hw_cr2 : Z; hw_kbd : list Z; hw_uart : list Z }.

(** ["cpu%d: spurious interrupt at %x:%x\n"] *)
Definition fmt_spurious : list Z :=
  [99; 112; 117; 37; 100; 58; 32; 115; 112; 117; 114; 105; 111; 117; 115; 32; 105; 110; 116;
   101; 114; 114; 117; 112; 116; 32; 97; 116; 32; 37; 120; 58; 37; 120; 10].
(** ["unexpected trap %d from cpu %d eip %x (cr2=0x%x)\n"] *)
Definition fmt_unexpected : list Z :=
  [117; 110; 101; 120; 112; 101; 99; 116; 101; 100; 32; 116; 114; 97; 112; 32; 37; 100; 32;
   102; 114; 111; 109; 32; 99; 112; 117; 32; 37; 100; 32; 101; 105; 112; 32; 37; 120; 32; 40;
   99; 114; 50; 61; 48; 120; 37; 120; 41; 10].
(** ["pid %d %s: trap %d err %d on cpu %d eip 0x%x addr 0x%x--kill proc\n"] *)
Definition fmt_killproc : list Z :=
  [112; 105; 100; 32; 37; 100; 32; 37; 115; 58; 32; 116; 114; 97; 112; 32; 37; 100; 32; 101;
   114; 114; 32; 37; 100; 32; 111; 110; 32; 99; 112; 117; 32; 37; 100; 32; 101; 105; 112; 32;
   48; 120; 37; 120; 32; 97; 100; 100; 114; 32; 48; 120; 37; 120; 45; 45; 107; 105; 108; 108;
   32; 112; 114; 111; 99; 10].

Section Trap.
Context {WF : WakeFuel} {KI : KernelImage}.

(** [proc && proc->killed] *)
Definition cur_killed : K bool :=
  c ← gets k_cur;
  match c with
  | None => mret false
  | Some p =>
      r ← getproc p;
      mret (p_killed r)
  end.

(** The switch of [trap].  Two of its calls are absent: [ideintr], whose state
    is the driver's own (file [Ide]), and [lapiceoi] at the end of each
    interrupt, a write to a device (file [Irq]). *)
Definition trap_switch (h : hw) (tf : trapframe) : K unit :=
  let n := tf_trapno tf in
  if n =? T_IRQ0 + IRQ_TIMER then
    when (hw_cpu h =? 0)
      (acquire LkTicks;;
       modify (fun s => set_k_ticks (u32 (k_ticks s + 1)) s);;
       wakeup ChTicks;;
       release LkTicks)
  else if (n =? T_IRQ0 + IRQ_IDE) || (n =? T_IRQ0 + IRQ_IDE + 1) then mret tt
  else if n =? T_IRQ0 + IRQ_KBD then consoleintr (hw_kbd h)
  else if n =? T_IRQ0 + IRQ_COM1 then consoleintr (hw_uart h)
  else if (n =? T_IRQ0 + 7) || (n =? T_IRQ0 + IRQ_SPURIOUS) then
    cprintf fmt_spurious [AInt (hw_cpu h); AInt (tf_cs tf); AInt (tf_eip tf)]
  else
    c ← gets k_cur;
    match c with
    | Some p =>
        if Z.land (tf_cs tf) 3 =? 0 then
          cprintf fmt_unexpected [AInt n; AInt (hw_cpu h); AInt (tf_eip tf); AInt (hw_cr2 h)];;
          panic "trap"
        else
          r ← getproc p;
          cprintf fmt_killproc
            [AInt (p_pid r); AStr (Some (cstr (p_name r))); AInt n; AInt (tf_err tf);
             AInt (hw_cpu h); AInt (tf_eip tf); AInt (hw_cr2 h)];;
          modify (upd_proc p (set_p_killed true))
    | None =>
        cprintf fmt_unexpected [AInt n; AInt (hw_cpu h); AInt (tf_eip tf); AInt (hw_cr2 h)];;
        panic "trap"
    end.

Definition exit_if_killed (user : bool) : K unit :=
  k ← cur_killed;
  if k && user then exit EXIT_STATUS_OK else mret tt.

Definition trap (h : hw) (tf : trapframe) : K unit :=
  if tf_trapno tf =? T_SYSCALL then
    p ← curproc;
    c ← getproc p;
    (if p_killed c then exit EXIT_STATUS_OK else mret tt);;
    modify (upd_proc p (set_p_tf tf));;
    syscall;;
    p ← curproc;
    c ← getproc p;
    (if p_killed c then exit EXIT_STATUS_OK else mret tt)
  else
    trap_switch h tf;;
    let user := Z.land (tf_cs tf) 3 =? DPL_USER in
    exit_if_killed user;;
    c ← gets k_cur;
    match c with
    | Some p =>
        r ← getproc p;
        when (bool_decide (p_state r = RUNNING) && (tf_trapno tf =? T_IRQ0 + IRQ_TIMER)) yield
    | None => mret tt
    end;;
    exit_if_killed user.

End Trap.
