(* ===== verification/SysargProps.v ===== *)
(** * System call arguments are checked ([syscall.c])

    Whatever a process leaves in its stack pointer and on its stack, fetching
    the arguments of a system call neither faults nor yields a pointer outside
    of the process. *)

From S2P Require Import Prelude Monad State Strings Sched Bio BioSpec Layout Log Inode Console.
From S2P Require Import Content Kalloc Pipe File Vm VmSpec VmProps VmFree UserMem Process.
From S2P Require Import ProcProps.
From S2P Require Import Sysarg Exec Sysfile Kbd ConsoleIntr Syscall.

#[local] Opaque memset store memmove.

Section Sysarg.
Context {WF : WakeFuel} {KI : KernelImage}.

(** The process [cur] runs in the page table [P], with all its memory mapped. *)
Record running (s : kstate) (cur : nat) (P : ptab) (l : list Z) : Prop := {
  rn_cur : k_cur s = Some cur;
  rn_cr3 : p2v (k_cr3 s) = pt_dir P;
  rn_space : space_ok s P l;
  rn_sz : 0 <= p_sz (k_procs s !!! cur) <= KERNBASE;
  rn_map va : 0 <= va < p_sz (k_procs s !!! cur) -> umapped (k_mem s) P va;
}.

(** The byte user code sees at an address. *)
Definition ubyte (s : kstate) (P : ptab) (va : Z) : Z := ldb (k_mem s) (upos (k_mem s) P va).
Definition ubytes (s : kstate) (P : ptab) (va : Z) (n : nat) : list Z :=
  map (fun j => ubyte s P (va + Z.of_nat j)) (seq 0 n).

Lemma cur_proc_run s cur : k_cur s = Some cur -> cur_proc s = Ret (k_procs s !!! cur) s.
Proof. intros Hc. unfold cur_proc. by rewrite (bind_Ret _ _ _ _ _ (curproc_ok cur s Hc)). Qed.

Lemma uload1_run s cur P l va :
  running s cur P l -> 0 <= va < p_sz (k_procs s !!! cur) -> uload1 va s = Ret (ubyte s P va) s.
Proof.
  intros [Hc Hcr HS Hsz Hm] Hva. unfold uload1.
  by rewrite (bind_Ret _ _ _ _ _ (user_addr_run s P va (vi_wf _ _ _ (so_inv _ _ _ HS)) Hcr (Hm va Hva))).
Qed.

(** What [fetchint] gives. *)
Lemma fetchint_run s cur P l addr :
  running s cur P l -> 0 <= addr < 4294967296 ->
  fetchint addr s = Ret (if decide (addr + 4 <= p_sz (k_procs s !!! cur)) then Some (s32 (le_dec (ubytes s P addr 4))) else None) s.
Proof.
  intros HR Ha. pose proof HR as [Hc Hcr HS Hsz Hm]. unfold fetchint.
  rewrite (bind_Ret _ _ _ _ _ (cur_proc_run s cur Hc)). set (sz := p_sz (k_procs s !!! cur)) in *.
  destruct (Z.leb_spec sz addr) as [Hle|Hlt]; [by rewrite decide_False by lia|].
  rewrite u32_id by (unfold KERNBASE in *; lia). cbn [orb].
  destruct (Z.ltb_spec sz (addr + 4)) as [Hlt'|Hle']; [by rewrite decide_False by lia|].
  rewrite decide_True by lia.
  assert (uload addr 4 s = Ret (ubytes s P addr 4) s) as Hu.
  { apply uload_run; [apply HS|exact Hcr|]. intros j Hj. apply Hm. lia. }
  by rewrite (bind_Ret _ _ _ _ _ Hu).
Qed.

Lemma ubytes_S s P va n : ubytes s P va (S n) = ubyte s P va :: ubytes s P (va + 1) n.
Proof.
  unfold ubytes. cbn [seq map]. rewrite Z.add_0_r. f_equal. rewrite <- seq_shift, map_map. apply map_ext. intros j.
  f_equal. lia.
Qed.

(** A string of user memory: it ends before the end of the process. *)
Definition ustring (s : kstate) (P : ptab) (sz addr : Z) (str : list Z) : Prop :=
  0 <= addr /\ addr + Z.of_nat (length str) < sz /\ (0 ∉ str) /\
  ubytes s P addr (S (length str)) = str ++ [0].

Definition fetchstr_body (sz : Z) : Z * list Z -> K (Z * list Z + option (list Z)) := fun '(s, acc) =>
  if s <? sz then
    x ← uload1 s;
    if x =? 0 then mret (inr (Some acc)) else mret (inl (s + 1, acc ++ [x]))
  else mret (inr None).

Lemma fetchstr_loop fuel s cur P l va acc :
  running s cur P l -> 0 <= va -> (Z.to_nat (p_sz (k_procs s !!! cur) - va) < fuel)%nat ->
  exists r, loop fuel (fetchstr_body (p_sz (k_procs s !!! cur))) (va, acc) s = Ret r s /\
    forall str, r = Some str -> exists rest, str = acc ++ rest /\ ustring s P (p_sz (k_procs s !!! cur)) va rest.
Proof.
  intros HR. set (sz := p_sz (k_procs s !!! cur)). revert va acc. induction fuel as [|fuel IH]; intros va acc H0 Hf; [lia|].
  destruct (Z.ltb_spec va sz) as [Hlt|Hge].
  2: { exists None. split; [apply loop_done; unfold fetchstr_body; by rewrite (proj2 (Z.ltb_ge _ _))|done]. }
  assert (uload1 va s = Ret (ubyte s P va) s) as Hu by (eapply uload1_run; [done|fold sz; lia]).
  destruct (Z.eqb_spec (ubyte s P va) 0) as [E|Hne].
  - exists (Some acc). split.
    + apply loop_done. unfold fetchstr_body. rewrite (proj2 (Z.ltb_lt _ _)) by done.
      by rewrite (bind_Ret _ _ _ _ _ Hu), E.
    + intros str [= <-]. exists []. split; [by rewrite app_nil_r|]. split; [done|]. split; [simpl; lia|].
      split; [apply not_elem_of_nil|]. rewrite ubytes_S, E. done.
  - assert (fetchstr_body sz (va, acc) s = Ret (inl (va + 1, acc ++ [ubyte s P va])) s) as Hr.
    { unfold fetchstr_body. rewrite (proj2 (Z.ltb_lt _ _)) by done. rewrite (bind_Ret _ _ _ _ _ Hu).
      by rewrite (proj2 (Z.eqb_neq _ 0)). }
    rewrite (loop_next _ _ _ _ _ _ Hr). destruct (IH (va + 1) (acc ++ [ubyte s P va])) as (r & Hl & Hs); [lia|fold sz; lia|].
    exists r. split; [exact Hl|]. intros str Hstr. destruct (Hs str Hstr) as (rest & -> & U0 & U1 & U2 & U3).
    exists (ubyte s P va :: rest). split; [by rewrite <- app_assoc|]. unfold ustring. cbn [length]. split; [lia|]. split; [unfold sz in *; lia|].
    split; [apply not_elem_of_cons; by split|]. rewrite ubytes_S, U3. done.
Qed.

(** C14: The arguments of system calls are safe to use: for a process whose memory
    is mapped, and whatever its stack pointer and stack hold, [argint],
    [argptr] and [argstr] return without a fault and change nothing; the word
    of [argint] lies inside of the process, a pointer from [argptr] is the
    start of a block of the size asked for inside of the process, and a string
    from [argstr] is terminated inside of the process. *)
Theorem args_checked s cur P l n size :
  running s cur P l -> 0 <= size < 2147483648 ->
  let sz := p_sz (k_procs s !!! cur) in
  let slot := u32 (tf_esp (p_tf (k_procs s !!! cur)) + 4 + 4 * n) in
  (exists r, argint n s = Ret r s /\
     forall x, r = Some x -> slot + 4 <= sz /\ x = s32 (le_dec (ubytes s P slot 4))) /\
  (exists r, argptr n size s = Ret r s /\ forall p, r = Some p -> 0 <= p /\ p < sz /\ p + size <= sz) /\
  (exists r, argstr n s = Ret r s /\ forall str, r = Some str -> exists addr, ustring s P sz addr str).
Proof.
  intros HR Hsize sz slot. pose proof HR as [Hc Hcr HS Hsz Hm]. fold sz in Hsz.
  assert (argint n s = Ret (if decide (slot + 4 <= sz) then Some (s32 (le_dec (ubytes s P slot 4))) else None) s) as Hai.
  { unfold argint. rewrite (bind_Ret _ _ _ _ _ (cur_proc_run s cur Hc)). apply (fetchint_run s cur P l); [done|apply u32_range]. }
  split; [|split].
  - eexists. split; [exact Hai|]. intros x. case_decide; [|done]. by intros [= <-].
  - unfold argptr. rewrite (bind_Ret _ _ _ _ _ Hai). case_decide; [|by exists None].
    rewrite (bind_Ret _ _ _ _ _ (cur_proc_run s cur Hc)). fold sz. set (i := u32 _). pose proof (u32_range (s32 (le_dec (ubytes s P slot 4)))) as Hi.
    fold i in Hi. destruct (Z.leb_spec sz i); cbn [orb]; [by exists None|].
    rewrite (u32_id (i + size)) by (unfold KERNBASE in *; lia).
    destruct (Z.ltb_spec sz (i + size)); [by exists None|]. exists (Some i). split; [done|]. intros p [= <-]. lia.
  - unfold argstr. rewrite (bind_Ret _ _ _ _ _ Hai). case_decide; [|by exists None].
    set (addr := u32 _). pose proof (u32_range (s32 (le_dec (ubytes s P slot 4)))) as Ha. fold addr in Ha.
    unfold fetchstr. rewrite (bind_Ret _ _ _ _ _ (cur_proc_run s cur Hc)). fold sz.
    destruct (Z.leb_spec sz addr); [by exists None|]. fold (fetchstr_body sz).
    destruct (fetchstr_loop (S (Z.to_nat (sz - addr))) s cur P l addr [] HR) as (r & Hr & Hs); [lia|fold sz; lia|].
    exists r. split; [exact Hr|]. intros str Hstr. destruct (Hs str Hstr) as (rest & -> & Hu). exists addr. exact Hu.
Qed.

(** ** The one call that is not checked *)

Lemma user_addr_fault s P va :
  pt_wf (k_mem s) P -> p2v (k_cr3 s) = pt_dir P -> ~ umapped (k_mem s) P va -> user_addr va s = Panic "trap" s.
Proof.
  intros W Hc Hn. apply not_true_is_false in Hn. unfold user_addr. do 2 kstep. rewrite Hc. unfold ent in Hn.
  destruct (pt_tabs P !! PDX va) as [t|] eqn:Et.
  - destruct (pw_tab _ _ W _ _ Et) as (Ht & _ & E). destruct (pde_addr t Ht) as (E1 & E2 & _).
    rewrite E, E2. cbn [negb]. kstep. by rewrite E1, Hn.
  - by rewrite (pw_none _ _ W _ (PDX_range va) Et).
Qed.

Lemma ustore_app l1 l2 va s s' :
  ustore va l1 s = Ret tt s' -> ustore va (l1 ++ l2) s = ustore (va + Z.of_nat (length l1)) l2 s'.
Proof.
  revert va s. induction l1 as [|x l1 IH]; intros va s; cbn [ustore app length].
  - intros [= ->]. by rewrite Z.add_0_r.
  - intros Hr. destruct (ustore1 va x s) as [[] s1| | | |] eqn:E1; unfold mbind, M_bind in *; rewrite E1 in *; try discriminate Hr.
    cbn [obind] in *. rewrite (IH _ _ Hr). f_equal. lia.
Qed.

(** A store that runs out of the process. *)
Lemma ustore_fault s cur P l va bs :
  running s cur P l -> let sz := p_sz (k_procs s !!! cur) in
  0 <= va < sz -> sz < va + Z.of_nat (length bs) -> ~ umapped (k_mem s) P sz -> Forall (fun b => 0 <= b < 256) bs ->
  exists s', ustore va bs s = Panic "trap" s'.
Proof.
  intros [Hc Hcr HS Hsz Hm] sz Hva Hlen Hno Hb. fold sz in Hsz, Hm. set (k := Z.to_nat (sz - va)).
  assert (urange (k_mem s) P va (length (take k bs))) as Hur.
  { rewrite length_take. split; [lia|]. split; [lia|]. intros j Hj. apply Hm. lia. }
  destruct (ustore_run (take k bs) s P l va HS Hcr Hur) as (m' & Hr & Hst); [by apply Forall_take|].
  destruct (ustored_space s P l va _ m' HS Hur Hst) as (HS' & He & _).
  rewrite <- (take_drop k bs). rewrite (ustore_app _ _ _ _ _ Hr), length_take, Nat.min_l by lia.
  replace (va + Z.of_nat k) with sz by lia.
  destruct (drop k bs) as [|x rest] eqn:Ed.
  { exfalso. apply (f_equal length) in Ed. rewrite length_drop in Ed. simpl in Ed. lia. }
  exists (set_k_mem m' s). cbn [ustore]. apply bind_Panic. unfold ustore1. apply bind_Panic.
  apply (user_addr_fault (set_k_mem m' s) P sz); [apply HS'|exact Hcr|]. unfold umapped. cbn [k_mem set_k_mem]. by rewrite He.
Qed.

Lemma running_held s cur P l h : (LkKmem ∉ h) -> running s cur P l -> running (set_k_held h s) cur P l.
Proof.
  intros Hh [Hc Hcr HS Hsz Hm]. split; [exact Hc|exact Hcr| |exact Hsz|exact Hm].
  destruct (space_ok_frame s (set_k_held h s) P l) as [H _]; [done|done|exact Hh|exact HS|exact H].
Qed.

(** The first entry of the table with the number [pid]. *)
Definition first_pid (ps : list proc) (pid : Z) (p : nat) : Prop :=
  (p < NPROC)%nat /\ p_pid (ps !!! p) = pid /\ forall i, (i < p)%nat -> p_pid (ps !!! i) <> pid.

Definition pstat_body (pid stat : Z) (p : nat) : K (option Z) :=
  r ← getproc p;
  if p_pid r =? pid then
    ustore stat (enc_procstat (procstat_of r));;
    release LkPtable;;
    mret (Some 0)
  else mret None.

Lemma pstat_scan s pid stat n i p :
  (i <= p < i + n)%nat -> p_pid (k_procs s !!! p) = pid -> (forall j, (i <= j < p)%nat -> p_pid (k_procs s !!! j) <> pid) ->
  exists rest, scan (seq i n) (pstat_body pid stat) s =
    (r ← pstat_body pid stat p; match r with Some x => mret (Some x) | None => scan rest (pstat_body pid stat) end) s.
Proof.
  revert i. induction n as [|n IH]; intros i Hr Hp Hn; [lia|]. destruct (decide (i = p)) as [->|Hne].
  - exists (seq (S p) n). reflexivity.
  - destruct (IH (S i)) as (rest & E); [lia|done|intros j Hj; apply Hn; lia|]. exists rest.
    assert (pstat_body pid stat i s = Ret None s) as Hb.
    { unfold pstat_body. kstep. by rewrite (proj2 (Z.eqb_neq _ _)) by (apply Hn; lia). }
    cbn [seq scan]. by rewrite (bind_Ret _ _ _ _ _ Hb).
Qed.

(** C40: [sys_pstat] asks for room for a pointer, not for a [struct procstat]: a
    process that passes a pointer to the last four bytes of its memory makes
    the kernel store behind them, and with nothing mapped there the kernel
    takes a fault and panics. *)
Theorem pstat_overrun s cur P l pid p :
  running s cur P l -> k_held s = [] -> 4 <= p_sz (k_procs s !!! cur) ->
  ~ umapped (k_mem s) P (p_sz (k_procs s !!! cur)) ->
  argint 0 s = Ret (Some pid) s -> argint 1 s = Ret (Some (p_sz (k_procs s !!! cur) - 4)) s ->
  first_pid (k_procs s) pid p -> Forall (fun b => 0 <= b < 256) (p_name (k_procs s !!! p)) ->
  exists s', sys_pstat s = Panic "trap" s'.
Proof.
  intros HR Hh Hsz4 Hno H0 H1 (Hp & Hpid & Hfirst) Hname. pose proof HR as [Hc Hcr HS Hsz Hm].
  set (sz := p_sz (k_procs s !!! cur)) in *. set (s1 := set_k_held [LkPtable] s).
  assert (running s1 cur P l) as HR1 by (apply running_held; [set_solver|exact HR]).
  destruct (ustore_fault s1 cur P l (sz - 4) (enc_procstat (procstat_of (k_procs s !!! p))) HR1) as (s' & Hf).
  - change (k_procs s1) with (k_procs s). fold sz. lia.
  - change (k_procs s1) with (k_procs s). fold sz. unfold enc_procstat. rewrite !length_app, !length_le_enc. lia.
  - exact Hno.
  - unfold enc_procstat. repeat (apply Forall_app; split); try apply le_enc_bytes. by apply Forall_take.
  - exists s'. unfold sys_pstat. rewrite (bind_Ret _ _ _ _ _ H0).
    assert (argptr 1 4 s = Ret (Some (sz - 4)) s) as Hp1.
    { unfold argptr. rewrite (bind_Ret _ _ _ _ _ H1), (bind_Ret _ _ _ _ _ (cur_proc_run s cur Hc)). fold sz.
      rewrite (u32_id (sz - 4)) by (unfold KERNBASE in *; lia).
      rewrite (proj2 (Z.leb_gt _ _)), (u32_id (sz - 4 + 4)), (proj2 (Z.ltb_ge _ _)) by (unfold KERNBASE in *; lia). done. }
    rewrite (bind_Ret _ _ _ _ _ Hp1). unfold pstat.
    assert (acquire LkPtable s = Ret tt s1) as Ha by (rewrite acquire_ok by (rewrite Hh; apply not_elem_of_nil); by rewrite Hh).
    rewrite (bind_Ret _ _ _ _ _ Ha). apply bind_Panic. fold (pstat_body pid (sz - 4)).
    destruct (pstat_scan s1 pid (sz - 4) NPROC 0 p) as (rest & ->); [lia|exact Hpid|intros j Hj; apply Hfirst; lia|].
    apply bind_Panic. unfold pstat_body. kstep. change (k_procs s1 !!! p) with (k_procs s !!! p).
    rewrite Hpid, Z.eqb_refl. by apply bind_Panic.
Qed.

End Sysarg.

#[local] Existing Instance vm_image.
#[local] Existing Instance vm_fuel.

(** A process with one page whose stack, from address 12 on, holds [bs]. *)
Lemma stack_process (bs : list Z) :
  (length bs <= 16)%nat -> Forall (fun b => 0 <= b < 256) bs ->
  exists s P l, running s 0 P l /\ k_held s = [] /\ p_sz (k_procs s !!! 0%nat) = 4096 /\
    tf_esp (p_tf (k_procs s !!! 0%nat)) = 8 /\ ~ umapped (k_mem s) P 4096 /\ p_pid (k_procs s !!! 0%nat) = 3 /\
    p_name (k_procs s !!! 0%nat) = [] /\ ubytes s P 12 (length bs) = bs.
Proof.
  intros Hlen Hbs. destruct one_page_space as (sm & P & l & HS & _ & O & Hu & HW & HN).
  set (p := set_p_tf (set_tf_esp 8 tf_zero) (set_p_sz 4096 (set_p_name [] (set_p_pid 3 inhabitant)))).
  set (s := set_k_cr3 (v2p (pt_dir P)) (set_k_cur (Some 0%nat) (set_k_procs (p :: replicate 63 inhabitant) sm))).
  assert (k_held sm = []) as Hh by (unfold only_mem in O; by rewrite O).
  destruct (space_ok_frame sm s P l) as [HSs _]; [done|done|change (k_held s) with (k_held sm); rewrite Hh; apply not_elem_of_nil|exact HS|].
  assert (p2v (k_cr3 s) = pt_dir P) as Hcr by (apply p2v_v2p, (pw_dir _ _ (vi_wf _ _ _ (so_inv _ _ _ HS)))).
  apply uwritable_urange in HW as (_ & _ & HW).
  assert (urange (k_mem s) P 12 (length bs)) as Hur.
  { split; [lia|]. split; [unfold KERNBASE; lia|]. intros j Hj. replace (12 + Z.of_nat j) with (0 + Z.of_nat (12 + j)) by lia. apply HW. lia. }
  destruct (ustore_run bs s P l 12 HSs Hcr Hur Hbs) as (m' & _ & Hst).
  destruct (ustored_space s P l 12 bs m' HSs Hur Hst) as (HS' & He & _).
  exists (set_k_mem m' s), P, l. split; [|split; [exact Hh|]].
  - split; [reflexivity|exact Hcr|exact HS'|split; discriminate|]. intros va Hva. unfold umapped.
    change (k_mem (set_k_mem m' s)) with m'. rewrite He. replace va with (0 + Z.of_nat (Z.to_nat va)) by lia.
    apply HW. change (p_sz _) with 4096 in Hva. lia.
  - do 2 (split; [reflexivity|]). split; [|split; [reflexivity|split; [reflexivity|]]].
    + unfold umapped. change (k_mem (set_k_mem m' s)) with m'. rewrite He. exact HN.
    + apply (list_eq_same_length _ _ (length bs)); [done|unfold ubytes; by rewrite length_map, length_seq|].
      intros j x y Hj Hx Hy. unfold ubytes in Hx. change (@map nat Z) with (@fmap list _ nat Z) in Hx.
      rewrite list_lookup_fmap, lookup_seq_lt in Hx by done. simpl in Hx. injection Hx as <-.
      unfold ubyte, ldb. change (k_mem (set_k_mem m' s)) with m'. unfold upos. rewrite He.
      fold (upos (k_mem s) P (12 + Z.of_nat j)). by rewrite (proj1 Hst j y Hy).
Qed.

Lemma args_checked_witness :
  exists s r1 r2 r3, argint 0 s = Ret r1 s /\ argptr 0 28 s = Ret r2 s /\ argstr 0 s = Ret r3 s.
Proof.
  destruct (stack_process [16; 0; 0; 0; 104; 105; 0]) as (s & P & l & HR & _); [simpl; lia|repeat constructor; lia|].
  destruct (args_checked s 0 P l 0 28 HR) as ((r1 & H1 & _) & (r2 & H2 & _) & (r3 & H3 & _)); [lia|].
  exists s, r1, r2, r3. split; [exact H1|]. split; [exact H2|exact H3].
Defined.

Lemma argint_stack s P l (n : Z) :
  running s 0 P l -> p_sz (k_procs s !!! 0%nat) = 4096 -> tf_esp (p_tf (k_procs s !!! 0%nat)) = 8 -> 0 <= n < 2 ->
  argint n s = Ret (Some (s32 (le_dec (ubytes s P (12 + 4 * n) 4)))) s.
Proof.
  intros HR Hsz Hesp Hn. unfold argint. rewrite (bind_Ret _ _ _ _ _ (cur_proc_run s 0 (rn_cur _ _ _ _ HR))), Hesp.
  rewrite u32_id by lia. replace (8 + 4 + 4 * n) with (12 + 4 * n) by lia.
  rewrite (fetchint_run s 0 P l) by (done || lia). by rewrite decide_True by lia.
Qed.

Lemma pstat_overrun_witness : exists s s', sys_pstat s = Panic "trap" s'.
Proof.
  destruct (stack_process [3; 0; 0; 0; 252; 15; 0; 0]) as (s & P & l & HR & Hh & Hsz & Hesp & Hno & Hpid & Hname & Hb);
    [simpl; lia|repeat constructor; lia|].
  cbn [length] in Hb. unfold ubytes in Hb. cbn [seq map] in Hb. injection Hb as E0 E1 E2 E3 E4 E5 E6 E7.
  assert (ubytes s P 12 4 = [3; 0; 0; 0] /\ ubytes s P 16 4 = [252; 15; 0; 0]) as [B0 B1].
  { unfold ubytes. cbn [seq map]. rewrite E0, E1, E2, E3. split; [reflexivity|].
    change (16 + Z.of_nat 0) with (12 + Z.of_nat 4). change (16 + Z.of_nat 1) with (12 + Z.of_nat 5).
    change (16 + Z.of_nat 2) with (12 + Z.of_nat 6). change (16 + Z.of_nat 3) with (12 + Z.of_nat 7).
    rewrite E4, E5, E6, E7. reflexivity. }
  exists s. apply (pstat_overrun s 0 P l 3 0).
  - exact HR.
  - exact Hh.
  - rewrite Hsz. discriminate.
  - rewrite Hsz. exact Hno.
  - rewrite (argint_stack s P l 0 HR Hsz Hesp) by lia. change (12 + 4 * 0) with 12. rewrite B0. reflexivity.
  - rewrite (argint_stack s P l 1 HR Hsz Hesp) by lia. change (12 + 4 * 1) with 16. rewrite B1, Hsz. reflexivity.
  - split; [rewrite NPROC_eq; lia|]. split; [exact Hpid|]. intros i Hi. lia.
  - rewrite Hname. constructor.
Defined.
