(* ===== verification/ShParse.v ===== *)
(** * The command parser of the shell ([sh.c])

    A [char *] into the command line is the suffix of the line it points to,
    so the end [es] is the empty list and the test [s < es] asks whether the
    suffix is empty.  The parser keeps its position [*ps] as state and leaves
    through [panic] on a syntax error.  [malloc] is taken to succeed, as the
    source does.  The node of [execcmd] gets its arguments while redirections
    are already wrapped around it, so [parseredirs] returns the redirections
    and [wrap] puts them around the finished node. *)

From S2P Require Import Prelude Monad State.

Abbreviation ptr := (list Z).

(** ** Commands

    [A] is what stands for a string: the two pointers [q] and [eq] of the
    parser, or the bytes between them. *)

Inductive cmd (A : Type) : Type :=
| EXEC (argv : list A)
| REDIR (c : cmd A) (file : A) (mode fd : Z)
| PIPE (left right : cmd A)
| LIST (left right : cmd A)
| BACK (c : cmd A).

Arguments EXEC {A} argv.
Arguments REDIR {A} c file mode fd.
Arguments PIPE {A} left right.
Arguments LIST {A} left right.
Arguments BACK {A} c.

Definition MAXARGS : nat := 10.

(** ** Characters *)

Definition whitespace : list Z := [32; 9; 13; 10; 11].
Definition symbols : list Z := [60; 124; 62; 38; 59; 40; 41].

(** [strchr] of [ulib.c]: whether the character occurs before the NUL. *)
Fixpoint strchr (s : list Z) (c : Z) : bool :=
  match s with
  | [] => false
  | x :: s => if x =? 0 then false else if x =? c then true else strchr s c
  end.

Definition is_ws (c : Z) : bool := strchr whitespace c.
Definition is_word (c : Z) : bool := negb (is_ws c) && negb (strchr symbols c).

(** [while(s < es && strchr(whitespace, *s)) s++;] *)
Fixpoint skip_ws (s : ptr) : ptr :=
  match s with
  | c :: t => if is_ws c then skip_ws t else s
  | [] => []
  end.

(** [while(s < es && !strchr(whitespace, *s) && !strchr(symbols, *s)) s++;] *)
Fixpoint skip_word (s : ptr) : ptr :=
  match s with
  | c :: t => if is_word c then skip_word t else s
  | [] => []
  end.

(** ** Tokens *)

Abbreviation P := (M ptr).

Definition tok_a : Z := 97.
Definition tok_append : Z := 43.

(** [gettoken]: the token, and the pointers [*q] and [*eq]. *)
Definition gettoken : P (Z * ptr * ptr) :=
  s ← gets skip_ws;
  let q := s in
  let '(ret, s) :=
    match s with
    | [] => (0, s)
    | c :: t =>
        if c =? 0 then (0, s)
        else if (c =? 124) || (c =? 40) || (c =? 41) || (c =? 59) || (c =? 38) || (c =? 60) then (c, t)
        else if c =? 62 then
          match t with
          | d :: t' => if d =? 62 then (tok_append, t') else (c, t)
          | [] => (c, t)
          end
        else (tok_a, skip_word s)
    end in
  modify (fun _ => skip_ws s);;
  mret (ret, q, s).

Definition peek (toks : list Z) : P bool :=
  modify skip_ws;;
  s ← gets (fun s => s);
  mret (match s with
        | c :: _ => negb (c =? 0) && strchr toks c
        | [] => false
        end).

(** ** Redirections *)

Record redir (A : Type) := mkredir {
  rd_file : A;
  rd_mode : Z;
  rd_fd : Z;
}.
Arguments mkredir {A} rd_file rd_mode rd_fd.
Arguments rd_file {A} r.
Arguments rd_mode {A} r.
Arguments rd_fd {A} r.

Definition wrap {A} (c : cmd A) (rs : list (redir A)) : cmd A :=
  foldl (fun c r => REDIR c (rd_file r) (rd_mode r) (rd_fd r)) c rs.

Definition redirection (tok : Z) (q eq : ptr) : list (redir (ptr * ptr)) :=
  if tok =? 60 then [mkredir (q, eq) O_RDONLY 0]
  else if tok =? 62 then [mkredir (q, eq) (Z.lor O_WRONLY O_CREATE) 1]
  else if tok =? tok_append then [mkredir (q, eq) (Z.lor O_WRONLY O_CREATE) 1]
  else [].

Definition parseredirs : P (list (redir (ptr * ptr))) :=
  n ← gets length;
  loop (S n) (fun rs =>
    b ← peek [60; 62];
    if b : bool then
      '(tok, _, _) ← gettoken;
      '(t, q, eq) ← gettoken;
      if negb (t =? tok_a) then panic "missing file for redirection"
      else mret (inl (rs ++ redirection tok q eq))
    else mret (inr rs)) [].

(** The loop of [parseexec]: the arguments and the redirections so far. *)
Definition parseargs (rs : list (redir (ptr * ptr))) : P (list (ptr * ptr) * list (redir (ptr * ptr))) :=
  n ← gets length;
  loop (S n) (fun '(argv, rs) =>
    b ← peek [124; 41; 38; 59];
    if b : bool then mret (inr (argv, rs))
    else
      '(tok, q, eq) ← gettoken;
      if tok =? 0 then mret (inr (argv, rs))
      else if negb (tok =? tok_a) then panic "syntax"
      else
        let argv := argv ++ [(q, eq)] in
        if (MAXARGS <=? length argv)%nat then panic "too many args"
        else
          rs' ← parseredirs;
          mret (inl (argv, rs ++ rs'))) ([], rs).

(** ** The grammar

    Each call uses one unit of fuel; [parse_fuel] is enough for a line. *)

Definition parse_fuel (s : ptr) : nat := 4 * length s + 4.

Fixpoint parseline (fuel : nat) : P (cmd (ptr * ptr)) :=
  match fuel with
  | O => fun s => NoFuel s
  | S fuel =>
      c ← parsepipe fuel;
      n ← gets length;
      c ← loop (S n) (fun c =>
        b ← peek [38];
        if b : bool then gettoken;; mret (inl (BACK c))
        else mret (inr c)) c;
      b ← peek [59];
      if b : bool then
        gettoken;;
        r ← parseline fuel;
        mret (LIST c r)
      else mret c
  end
with parsepipe (fuel : nat) : P (cmd (ptr * ptr)) :=
  match fuel with
  | O => fun s => NoFuel s
  | S fuel =>
      c ← parseexec fuel;
      b ← peek [124];
      if b : bool then
        gettoken;;
        r ← parsepipe fuel;
        mret (PIPE c r)
      else mret c
  end
with parseexec (fuel : nat) : P (cmd (ptr * ptr)) :=
  match fuel with
  | O => fun s => NoFuel s
  | S fuel =>
      b ← peek [40];
      if b : bool then parseblock fuel
      else
        rs ← parseredirs;
        '(argv, rs) ← parseargs rs;
        mret (wrap (EXEC argv) rs)
  end
with parseblock (fuel : nat) : P (cmd (ptr * ptr)) :=
  match fuel with
  | O => fun s => NoFuel s
  | S fuel =>
      b ← peek [40];
      if negb b then panic "parseblock"
      else
        gettoken;;
        c ← parseline fuel;
        b ← peek [41];
        if negb b then panic "syntax - missing )"
        else
          gettoken;;
          rs ← parseredirs;
          mret (wrap c rs)
  end.

(** ** [nulterminate]

    [buf] is the line with its NUL; a pointer into the line is the offset of
    its suffix. *)

Definition offset (line s : ptr) : nat := length line - length s.

Definition put_nul (line : ptr) (eq : ptr) (buf : list Z) : list Z := <[offset line eq := 0]> buf.

Fixpoint nulterminate (line : ptr) (c : cmd (ptr * ptr)) (buf : list Z) : list Z :=
  match c with
  | EXEC argv => foldl (fun buf a => put_nul line a.2 buf) buf argv
  | REDIR c file _ _ => put_nul line file.2 (nulterminate line c buf)
  | PIPE l r => nulterminate line r (nulterminate line l buf)
  | LIST l r => nulterminate line r (nulterminate line l buf)
  | BACK c => nulterminate line c buf
  end.

(** [parsecmd]: the command, and the buffer it points into. *)
Definition parsecmd : P (cmd (ptr * ptr) * list Z) :=
  line ← gets (fun s => s);
  c ← parseline (parse_fuel line);
  peek [];;
  s ← gets (fun s => s);
  if negb (bool_decide (s = [])) then panic "syntax"
  else mret (c, nulterminate line c (line ++ [0])).
