(* ===== verification/ShParseSpec.v ===== *)
(** * The shell's parser terminates and finds the tokens

    Every function of the parser returns or leaves with a message, whatever
    the line, and the pointers it puts into the command delimit words of the
    line. *)

From S2P Require Import Prelude Monad State ShParse.

(** ** Pure views of [gettoken] and [peek] *)

Definition token (s : ptr) : Z * ptr :=
  match s with
  | [] => (0, s)
  | c :: t =>
      if c =? 0 then (0, s)
      else if (c =? 124) || (c =? 40) || (c =? 41) || (c =? 59) || (c =? 38) || (c =? 60) then (c, t)
      else if c =? 62 then
        match t with
        | d :: t' => if d =? 62 then (tok_append, t') else (c, t)
        | [] => (c, t)
        end
      else (tok_a, skip_word s)
  end.

Definition starts (toks : list Z) (s : ptr) : bool :=
  match s with
  | c :: _ => negb (c =? 0) && strchr toks c
  | [] => false
  end.

Lemma gettoken_run s :
  let s0 := skip_ws s in
  gettoken s = Ret ((token s0).1, s0, (token s0).2) (skip_ws (token s0).2).
Proof.
  cbv zeta. unfold gettoken. kstep. fold (token (skip_ws s)). destruct (token (skip_ws s)) as [r s'].
  by kstep.
Qed.

Lemma peek_run toks s : peek toks s = Ret (starts toks (skip_ws s)) (skip_ws s).
Proof. unfold peek. do 2 kstep. done. Qed.

(** ** Skipping *)

Lemma skip_ws_suffix s : skip_ws s `suffix_of` s.
Proof.
  induction s as [|c s IH]; simpl; [done|]. destruct (is_ws c); [|done].
  by apply suffix_cons_r.
Qed.

Lemma skip_word_suffix s : skip_word s `suffix_of` s.
Proof.
  induction s as [|c s IH]; simpl; [done|]. destruct (is_word c); [|done].
  by apply suffix_cons_r.
Qed.

Lemma skip_ws_idemp s : skip_ws (skip_ws s) = skip_ws s.
Proof.
  induction s as [|c s IH]; simpl; [done|]. destruct (is_ws c) eqn:E; [done|]. simpl. by rewrite E.
Qed.

Lemma suffix_length' (s t : ptr) : s `suffix_of` t -> (length s <= length t)%nat.
Proof. intros [k ->]. rewrite length_app. lia. Qed.

(** The word at the head of a suffix. *)
Lemma skip_word_split s :
  exists w, s = w ++ skip_word s /\ Forall (fun c => is_word c = true) w /\
    match skip_word s with [] => True | c :: _ => is_word c = false end.
Proof.
  induction s as [|c s (w & E & Hw & He)]; simpl; [by exists []|].
  destruct (is_word c) eqn:Ec.
  - exists (c :: w). split; [by rewrite E at 1|]. split; [by constructor|done].
  - exists []. split; [done|]. split; [done|]. by rewrite Ec.
Qed.

(** ** Words *)

(** [q] and [eq] delimit a word of the line. *)
Definition tok_ok (line : ptr) (a : ptr * ptr) : Prop :=
  exists w, a.1 = w ++ a.2 /\ w <> [] /\ Forall (fun c => is_word c = true) w /\
    (match a.2 with [] => True | c :: _ => is_word c = false end) /\ a.1 `suffix_of` line.

Fixpoint tokens {A} (c : cmd A) : list A :=
  match c with
  | EXEC argv => argv
  | REDIR c file _ _ => tokens c ++ [file]
  | PIPE l r | LIST l r => tokens l ++ tokens r
  | BACK c => tokens c
  end.

Lemma tokens_wrap {A} (c : cmd A) rs : tokens (wrap c rs) = tokens c ++ map rd_file rs.
Proof.
  revert c. induction rs as [|r rs IH]; intros c; simpl; [by rewrite app_nil_r|].
  unfold wrap in *. simpl. rewrite IH. simpl. by rewrite <- app_assoc.
Qed.

(** The characters of the switch in [gettoken] are the symbols. *)
Lemma word_head c :
  c <> 0 -> is_ws c = false ->
  (c =? 124) || (c =? 40) || (c =? 41) || (c =? 59) || (c =? 38) || (c =? 60) = false ->
  (c =? 62) = false -> is_word c = true.
Proof.
  intros H0 Hw. rewrite !orb_false_iff, !Z.eqb_neq. intros (((((H1 & H2) & H3) & H4) & H5) & H6) H7.
  unfold is_word. rewrite Hw. unfold symbols. cbn [strchr negb andb].
  repeat match goal with
  | |- context [?n =? 0] => change (n =? 0) with false; cbv iota
  | |- context [?n =? c] => destruct (Z.eqb_spec n c); [congruence|]
  end. done.
Qed.

Section Line.
Context (line : ptr).
Context (Hline : Forall (fun c => c <> 0) line).

#[local, warnings="-notation-for-abbreviation"]
Notation in_line s := (s `suffix_of` line).

Lemma in_line_head c s : in_line (c :: s) -> c <> 0.
Proof.
  intros [k E]. pose proof Hline as H. rewrite E in H.
  apply Forall_app in H as [_ H]. by apply Forall_cons in H as [? _].
Qed.

Lemma in_line_skip s : in_line s -> in_line (skip_ws s) /\ (length (skip_ws s) <= length s)%nat.
Proof.
  intros Hs. pose proof (skip_ws_suffix s). split; [by etrans|by apply suffix_length'].
Qed.

(** What [gettoken] finds. *)
Lemma token_ok s :
  in_line s -> skip_ws s = s ->
  let '(t, e) := token s in
  e `suffix_of` s /\ (t = 0 -> s = []) /\ (t <> 0 -> (length e < length s)%nat) /\
  (t = tok_a -> tok_ok line (s, e)).
Proof.
  intros Hs Hsk. destruct s as [|c s]; [simpl; split_and!; done || discriminate|].
  pose proof (in_line_head c s Hs) as H0. simpl in Hsk.
  assert (is_ws c = false) as Hw.
  { destruct (is_ws c) eqn:E; [|done]. pose proof (suffix_length' _ _ (skip_ws_suffix s)) as Hl.
    rewrite Hsk in Hl. simpl in Hl. lia. }
  assert (in_line s) as Hs' by (etrans; [|exact Hs]; by apply suffix_cons_r).
  cbn [token]. rewrite (proj2 (Z.eqb_neq c 0) H0).
  destruct (_ || (c =? 60)) eqn:E1.
  { split_and!; simpl; [by apply suffix_cons_r|done|lia|]. intros ->. discriminate E1. }
  destruct (c =? 62) eqn:E2.
  { apply Z.eqb_eq in E2 as ->. destruct s as [|d s]; [split_and!; simpl; try (done || lia); by apply suffix_cons_r|].
    destruct (d =? 62); split_and!; simpl; try (done || lia); (by exists [62]) || (by exists [62; d]). }
  pose proof (word_head c H0 Hw E1 E2) as Hc.
  destruct (skip_word_split (c :: s)) as (w & E & Hww & He).
  assert (skip_word (c :: s) `suffix_of` s) as Hsuf.
  { simpl. rewrite Hc. apply skip_word_suffix. }
  split; [by apply suffix_cons_r|]. split; [done|]. split.
  { intros _. apply suffix_length' in Hsuf. simpl in *. lia. }
  intros _. exists w. simpl fst. simpl snd. split; [done|]. split; [|done].
  intros ->. simpl in E. rewrite Hc in E. apply suffix_length' in Hsuf. simpl in Hsuf. rewrite Hc in Hsuf.
  apply (f_equal length) in E. simpl in E. lia.
Qed.

(** [gettoken], as the functions of the parser use it. *)
Lemma wp_gettoken s :
  in_line s -> wp gettoken (fun '(t, q, e) s' =>
    in_line s' /\ q = skip_ws s /\ (t = 0 -> q = []) /\
    (t <> 0 -> (length s' < length q)%nat) /\ (length s' <= length q)%nat /\
    (t = tok_a -> tok_ok line (q, e)) /\ t = (token q).1) s.
Proof.
  intros Hs. eexists _, _. split; [apply gettoken_run|]. cbv zeta.
  destruct (in_line_skip s Hs) as [Hq _]. pose proof (token_ok (skip_ws s) Hq (skip_ws_idemp s)) as H.
  destruct (token (skip_ws s)) as [t e]. destruct H as (He & H0 & Hlt & Ha). simpl.
  pose proof (suffix_length' _ _ He). pose proof (suffix_length' _ _ (skip_ws_suffix e)).
  split; [by rewrite (skip_ws_suffix e), He|]. split; [done|]. split; [done|].
  split; [intros Ht; specialize (Hlt Ht); lia|]. split; [lia|done].
Qed.

(** The messages a syntax error leaves with. *)
Definition syntax_error (e : string) : Prop :=
  e ∈ ["missing file for redirection"; "syntax"; "too many args"; "syntax - missing )"]%string.

(** [peek], when it sees one of the characters, leaves a token behind. *)
Lemma starts_token toks s :
  in_line s -> skip_ws s = s -> starts toks s = true ->
  (token s).1 <> 0 /\ (0 < length s)%nat.
Proof.
  intros Hs Hsk Hst. pose proof (token_ok s Hs Hsk) as H. destruct (token s) as [t e].
  destruct H as (_ & H0 & _). simpl. destruct s; [done|]. split; [|simpl; lia]. intros Ht. by specialize (H0 Ht).
Qed.

Lemma wpp_parseredirs s :
  in_line s -> wpp parseredirs (fun rs s' =>
    in_line s' /\ (length s' <= length s)%nat /\ Forall (tok_ok line) (map rd_file rs))
    syntax_error s.
Proof.
  intros Hs. unfold parseredirs. wstep.
  assert (forall fuel rs s0, in_line s0 -> (length s0 <= length s)%nat -> (length s0 < fuel)%nat ->
    Forall (tok_ok line) (map rd_file rs) ->
    wpp (loop fuel (fun rs =>
      b ← peek [60; 62];
      if b : bool then
        '(tok, _, _) ← gettoken;
        '(t, q, eq) ← gettoken;
        if negb (t =? tok_a) then panic "missing file for redirection"
        else mret (inl (rs ++ redirection tok q eq))
      else mret (inr rs)) rs) (fun rs s' =>
    in_line s' /\ (length s' <= length s)%nat /\ Forall (tok_ok line) (map rd_file rs))
    syntax_error s0) as Hloop; [|apply Hloop; done || lia].
  induction fuel as [|fuel IH]; intros rs s0 Hs0 Hle Hf Hrs; [lia|].
  apply wpp_loop, wpp_bind, wpp_wp. eexists _, _. split; [apply peek_run|].
  destruct (in_line_skip s0 Hs0) as [Hq Hlq].
  destruct (starts [60; 62] (skip_ws s0)) eqn:Est; [|wstep; split_and!; done || lia].
  destruct (starts_token _ _ Hq (skip_ws_idemp s0) Est) as [Hne _].
  wapply (wp_gettoken (skip_ws s0) Hq). intros [[tok q0] e0] s1 (Hs1 & Eq0 & _ & Hlt & _ & _ & Et).
  rewrite skip_ws_idemp in Eq0. subst q0. rewrite <- Et in Hne. specialize (Hlt Hne).
  wapply (wp_gettoken s1 Hs1). intros [[t q] e] s2 (Hs2 & Eq & _ & _ & Hle2 & Ha & _).
  assert (length q <= length s1)%nat by (subst q; apply in_line_skip; done).
  destruct (Z.eqb_spec t tok_a) as [Eta|Eta]; cbn [negb]; [|apply wpp_panic; set_solver].
  wstep. apply IH; [done|lia|lia|]. rewrite map_app. apply Forall_app. split; [done|].
  unfold redirection. repeat (case_match; [by repeat constructor; apply Ha|]). constructor.
Qed.

Lemma wpp_parseargs rs s :
  in_line s -> Forall (tok_ok line) (map rd_file rs) ->
  wpp (parseargs rs) (fun '(argv, rs) s' =>
    in_line s' /\ (length s' <= length s)%nat /\ Forall (tok_ok line) argv /\
    Forall (tok_ok line) (map rd_file rs)) syntax_error s.
Proof.
  intros Hs Hrs. unfold parseargs. wstep.
  match goal with |- wpp (loop _ ?b _) _ _ _ => set (body := b) end.
  assert (forall fuel argv rs s0, in_line s0 -> (length s0 <= length s)%nat -> (length s0 < fuel)%nat ->
    Forall (tok_ok line) argv -> Forall (tok_ok line) (map rd_file rs) ->
    wpp (loop fuel body (argv, rs)) (fun '(argv, rs) s' =>
    in_line s' /\ (length s' <= length s)%nat /\ Forall (tok_ok line) argv /\
    Forall (tok_ok line) (map rd_file rs)) syntax_error s0) as Hloop; [|apply Hloop; done || lia].
  induction fuel as [|fuel IH]; intros argv rs0 s0 Hs0 Hle Hf Hargv Hrs0; [lia|].
  apply wpp_loop. unfold body at 1. apply wpp_bind, wpp_wp. eexists _, _. split; [apply peek_run|].
  destruct (in_line_skip s0 Hs0) as [Hq Hlq].
  destruct (starts _ (skip_ws s0)) eqn:Est; [wstep; split_and!; done || lia|].
  wapply (wp_gettoken (skip_ws s0) Hq). intros [[tok q] e] s1 (Hs1 & Eq & _ & Hlt & Hle1 & Ha & _).
  rewrite skip_ws_idemp in Eq. subst q.
  destruct (Z.eqb_spec tok 0) as [E0|E0]; [wstep; split_and!; done || lia|]. specialize (Hlt E0).
  destruct (Z.eqb_spec tok tok_a) as [Eta|Eta]; cbn [negb]; [|apply wpp_panic; set_solver].
  cbv zeta. destruct (_ <=? _)%nat; [apply wpp_panic; set_solver|].
  apply wpp_bind. eapply wpp_mono; [by apply wpp_parseredirs|]. intros rs1 s2 (Hs2 & Hle2 & Hrs1).
  wstep. apply IH; [done|lia|lia| |].
  - apply Forall_app. split; [done|]. constructor; [by apply Ha|done].
  - rewrite map_app. by apply Forall_app.
Qed.

(** What the functions of the grammar promise on the suffix [s]. *)
Definition parses (m : P (cmd (ptr * ptr))) (s : ptr) : Prop :=
  wpp m (fun c s' => in_line s' /\ (length s' <= length s)%nat /\ Forall (tok_ok line) (tokens c))
    syntax_error s.

Lemma parse_back c s :
  in_line s -> Forall (tok_ok line) (tokens c) ->
  wpp (loop (S (length s)) (fun c =>
        b ← peek [38];
        if b : bool then gettoken;; mret (inl (BACK c))
        else mret (inr c)) c)
    (fun c s' => in_line s' /\ (length s' <= length s)%nat /\ Forall (tok_ok line) (tokens c))
    syntax_error s.
Proof.
  intros Hs Hc. match goal with |- wpp (loop _ ?b _) _ _ _ => set (body := b) end.
  assert (forall fuel c s0, in_line s0 -> (length s0 <= length s)%nat -> (length s0 < fuel)%nat ->
    Forall (tok_ok line) (tokens c) ->
    wpp (loop fuel body c) (fun c s' => in_line s' /\ (length s' <= length s)%nat /\
      Forall (tok_ok line) (tokens c)) syntax_error s0) as Hloop; [|apply Hloop; done || lia].
  clear c Hc. induction fuel as [|fuel IH]; intros c s0 Hs0 Hle Hf Hc; [lia|].
  apply wpp_loop. unfold body at 1. apply wpp_bind, wpp_wp. eexists _, _. split; [apply peek_run|].
  destruct (in_line_skip s0 Hs0) as [Hq Hlq].
  destruct (starts _ (skip_ws s0)) eqn:Est; [|wstep; split_and!; done || lia].
  destruct (starts_token _ _ Hq (skip_ws_idemp s0) Est) as [Hne _].
  wapply (wp_gettoken (skip_ws s0) Hq). intros [[tok q] e] s1 (Hs1 & Eq & _ & Hlt & _ & _ & Et).
  rewrite skip_ws_idemp in Eq. subst q. rewrite <- Et in Hne. specialize (Hlt Hne).
  wstep. apply IH; [done|lia|lia|done].
Qed.

(** A separator and what follows it. *)
Lemma parse_sep toks (m : P (cmd (ptr * ptr))) (f : cmd (ptr * ptr) -> cmd (ptr * ptr)) c s :
  in_line s -> Forall (tok_ok line) (tokens c) ->
  (forall s', in_line s' -> (length s' < length s)%nat -> parses m s') ->
  (forall r, Forall (tok_ok line) (tokens r) -> Forall (tok_ok line) (tokens (f r))) ->
  wpp (b ← peek toks;
       if b : bool then gettoken;; r ← m; mret (f r) else mret c)
    (fun c s' => in_line s' /\ (length s' <= length s)%nat /\ Forall (tok_ok line) (tokens c))
    syntax_error s.
Proof.
  intros Hs Hc Hm Hf. apply wpp_bind, wpp_wp. eexists _, _. split; [apply peek_run|].
  destruct (in_line_skip s Hs) as [Hq Hlq].
  destruct (starts _ (skip_ws s)) eqn:Est; [|wstep; split_and!; done || lia].
  destruct (starts_token _ _ Hq (skip_ws_idemp s) Est) as [Hne _].
  wapply (wp_gettoken (skip_ws s) Hq). intros [[tok q] e] s1 (Hs1 & Eq & _ & Hlt & _ & _ & Et).
  rewrite skip_ws_idemp in Eq. subst q. rewrite <- Et in Hne. specialize (Hlt Hne).
  apply wpp_bind. eapply wpp_mono; [apply Hm; [done|lia]|]. intros r s2 (Hs2 & Hle2 & Hr).
  wstep. split; [done|]. split; [lia|]. by apply Hf.
Qed.

Lemma parse_spec fuel :
  (forall s, in_line s -> (4 * length s + 4 <= fuel)%nat -> parses (parseline fuel) s) /\
  (forall s, in_line s -> (4 * length s + 3 <= fuel)%nat -> parses (parsepipe fuel) s) /\
  (forall s, in_line s -> (4 * length s + 2 <= fuel)%nat -> parses (parseexec fuel) s) /\
  (forall s, in_line s -> (4 * length s + 1 <= fuel)%nat -> starts [40] (skip_ws s) = true ->
     parses (parseblock fuel) s).
Proof.
  induction fuel as [|fuel (IHl & IHp & IHe & IHb)]; [split_and!; intros; lia|].
  split_and!; intros s Hs Hf; unfold parses; cbn [parseline parsepipe parseexec parseblock].
  - apply wpp_bind. eapply wpp_mono; [apply IHp; [done|lia]|]. intros c s1 (Hs1 & Hl1 & Hc).
    wstep. apply wpp_bind. eapply wpp_mono; [by apply parse_back|]. intros c2 s2 (Hs2 & Hl2 & Hc2).
    eapply wpp_mono; [apply (parse_sep [59] (parseline fuel) (LIST c2) c2 s2 Hs2 Hc2)|].
    + intros s' Hs' Hl'. apply IHl; [done|lia].
    + intros r Hr. simpl. by apply Forall_app.
    + intros c' s' (?&?&?). split_and!; done || lia.
  - apply wpp_bind. eapply wpp_mono; [apply IHe; [done|lia]|]. intros c s1 (Hs1 & Hl1 & Hc).
    eapply wpp_mono; [apply (parse_sep [124] (parsepipe fuel) (PIPE c) c s1 Hs1 Hc)|].
    + intros s' Hs' Hl'. apply IHp; [done|lia].
    + intros r Hr. simpl. by apply Forall_app.
    + intros c' s' (?&?&?). split_and!; done || lia.
  - destruct (in_line_skip s Hs) as [Hq Hlq].
    apply wpp_bind, wpp_wp. eexists _, _. split; [apply peek_run|].
    destruct (starts [40] (skip_ws s)) eqn:Est.
    + eapply wpp_mono; [apply (IHb (skip_ws s)); [done|lia|by rewrite skip_ws_idemp]|].
      intros c s' (?&?&?). split_and!; done || lia.
    + apply wpp_bind. eapply wpp_mono; [by apply wpp_parseredirs|]. intros rs s1 (Hs1 & Hl1 & Hrs).
      apply wpp_bind. eapply wpp_mono; [by apply wpp_parseargs|].
      intros [argv rs'] s2 (Hs2 & Hl2 & Ha & Hr). wstep. split; [done|]. split; [lia|].
      rewrite tokens_wrap. by apply Forall_app.
  - intros Hst. destruct (in_line_skip s Hs) as [Hq Hlq].
    apply wpp_bind, wpp_wp. eexists _, _. split; [apply peek_run|]. rewrite Hst. cbn [negb].
    destruct (starts_token _ _ Hq (skip_ws_idemp s) Hst) as [Hne _].
    wapply (wp_gettoken (skip_ws s) Hq). intros [[tok q] e] s1 (Hs1 & Eq & _ & Hlt & _ & _ & Et).
    rewrite skip_ws_idemp in Eq. subst q. rewrite <- Et in Hne. specialize (Hlt Hne).
    apply wpp_bind. eapply wpp_mono; [apply IHl; [done|lia]|]. intros c s2 (Hs2 & Hl2 & Hc).
    apply wpp_bind, wpp_wp. eexists _, _. split; [apply peek_run|].
    destruct (in_line_skip s2 Hs2) as [Hq2 Hlq2].
    destruct (starts [41] (skip_ws s2)) eqn:Est; cbn [negb]; [|apply wpp_panic; set_solver].
    wapply (wp_gettoken (skip_ws s2) Hq2). intros [[tok2 q2] e2] s3 (Hs3 & Eq2 & _ & _ & Hl3 & _ & _).
    rewrite skip_ws_idemp in Eq2. subst q2.
    apply wpp_bind. eapply wpp_mono; [by apply wpp_parseredirs|]. intros rs s4 (Hs4 & Hl4 & Hrs).
    wstep. split; [done|]. split; [lia|]. rewrite tokens_wrap. by apply Forall_app.
Qed.

End Line.
