(* ===== verification/ShParseProps.v ===== *)
(** * Properties of the shell's parser *)

From S2P Require Import Prelude Monad State Strings ShParse ShParseSpec.

(** The bytes between the two pointers of a token. *)
Definition text (a : ptr * ptr) : list Z := take (length a.1 - length a.2) a.1.

(** ** [nulterminate] *)

Lemma nulterminate_ends line c buf :
  nulterminate line c buf = foldl (fun buf e => put_nul line e buf) buf (map snd (tokens c)).
Proof.
  revert buf. induction c as [argv|c IH file m fd|l IHl r IHr|l IHl r IHr|c IH]; intros buf; simpl.
  - revert buf. induction argv as [|a argv IH]; intros buf; simpl; [done|]. apply IH.
  - by rewrite map_app, foldl_app, IH.
  - by rewrite map_app, foldl_app, IHr, IHl.
  - by rewrite map_app, foldl_app, IHr, IHl.
  - apply IH.
Qed.

Lemma lookup_put_nuls line es buf i :
  foldl (fun buf e => put_nul line e buf) buf es !! i =
    if decide (i ∈ map (offset line) es) then (fun _ => 0) <$> buf !! i else buf !! i.
Proof.
  revert buf. induction es as [|e es IH]; intros buf; simpl; [done|].
  rewrite IH. unfold put_nul at 1 2. destruct (decide (i = offset line e)) as [->|Hne].
  - rewrite (decide_True (P := _ ∈ _ :: _)) by (by left).
    destruct (decide (offset line e < length buf)%nat).
    + rewrite list_lookup_insert_eq by done. destruct (lookup_lt_is_Some_2 buf (offset line e)) as [x ->]; [done|].
      by case_decide.
    + rewrite list_insert_ge by lia. rewrite lookup_ge_None_2 by lia. by case_decide.
  - rewrite list_lookup_insert_ne by done.
    assert (i ∈ offset line e :: map (offset line) es <-> i ∈ map (offset line) es) as Hiff.
    { rewrite elem_of_cons. naive_solver. }
    by rewrite (decide_ext _ _ _ _ Hiff).
Qed.

Lemma cstr_word l w :
  (forall i, (i < length w)%nat -> l !! i = w !! i) -> l !! length w = Some 0 ->
  Forall (fun c => c <> 0) w -> cstr l = w.
Proof.
  revert l. induction w as [|c w IH]; intros l Hl H0 Hw.
  - destruct l; simpl in *; simplify_eq. done.
  - apply Forall_cons in Hw as [Hc Hw]. pose proof (Hl 0%nat ltac:(simpl; lia)) as E.
    destruct l as [|d l]; simpl in *; simplify_eq. rewrite (proj2 (Z.eqb_neq c 0) Hc). f_equal.
    apply IH; [|done|done]. intros i Hi. apply (Hl (S i)). lia.
Qed.

(** The end of a token is not inside another one. *)
Lemma end_not_word line a i w k :
  tok_ok line a -> line !! offset line a.2 = w !! i -> (i < length w)%nat ->
  Forall (fun c => is_word c = true) w -> k = offset line a.2 -> (k < length line)%nat -> False.
Proof.
  intros (v & E & _ & _ & He & [p Hp]) Hl Hi Hw -> Hk.
  unfold offset in *. rewrite E in Hp. rewrite Hp in Hl, Hk. rewrite !length_app in Hl, Hk.
  replace (length p + (length v + length a.2) - length a.2)%nat with (length p + length v)%nat in Hl by lia.
  rewrite app_assoc, lookup_app_r, length_app, Nat.sub_diag in Hl by (rewrite length_app; lia).
  destruct a.2 as [|c e]; simpl in *; [lia|].
  symmetry in Hl. rewrite (proj1 (Forall_lookup _ _) Hw _ _ Hl) in He. done.
Qed.

Lemma nulterminate_token line c a :
  Forall (fun c => c <> 0) line -> Forall (tok_ok line) (tokens c) -> a ∈ tokens c ->
  cstr (drop (offset line a.1) (nulterminate line c (line ++ [0]))) = text a.
Proof.
  intros Hline Hc Ha. pose proof (proj1 (Forall_forall _ _) Hc a Ha) as (w & E & _ & Hw & _ & [p Hp]).
  assert (text a = w) as ->.
  { unfold text. rewrite E, length_app, Nat.add_sub. by rewrite take_app_length. }
  rewrite E in Hp. assert (offset line a.1 = length p) as ->.
  { unfold offset. rewrite Hp, E, !length_app. lia. }
  assert (length line = (length p + (length w + length a.2))%nat) as Hlen by (rewrite Hp, !length_app; done).
  assert (forall i, (i < length w)%nat -> line !! (length p + i)%nat = w !! i) as Hlw.
  { intros i Hi. rewrite Hp, lookup_app_r by lia. rewrite lookup_app_l by lia. f_equal. lia. }
  rewrite nulterminate_ends. apply cstr_word.
  - intros i Hi. rewrite lookup_drop, lookup_put_nuls, lookup_app_l by lia. rewrite <- (Hlw i Hi).
    case_decide as Hd; [|done]. exfalso.
    apply list_elem_of_In, in_map_iff in Hd as (e & Ee & He). apply in_map_iff in He as (b & <- & Hb).
    apply (end_not_word line b i w (length p + i)); [|by rewrite Ee, Hlw|done|done|done|lia].
    apply (proj1 (Forall_forall _ _) Hc). by apply list_elem_of_In.
  - rewrite lookup_drop, lookup_put_nuls, decide_True.
    + destruct (lookup_lt_is_Some_2 (line ++ [0]) (length p + length w)) as [x ->]; [|done].
      rewrite length_app. simpl. lia.
    + apply list_elem_of_In, in_map_iff. exists a.2. split; [unfold offset; lia|].
      apply in_map_iff. exists a. split; [done|]. by apply list_elem_of_In.
  - rewrite Hp in Hline. apply Forall_app in Hline as [_ Hline]. by apply Forall_app in Hline as [? _].
Qed.

(** C34: The parser is total on command lines: it returns a command or leaves with
    one of four messages, and never runs out of its fuel.  When it returns, the
    whole line was read, and after [nulterminate] every argument and file name
    of the command is the terminated string of the word it was parsed from:
    non-empty, and without blanks or symbols. *)
Theorem parsecmd_total line :
  Forall (fun c => c <> 0) line ->
  (exists c buf, parsecmd line = Ret (c, buf) [] /\ length buf = S (length line) /\
     forall a, a ∈ tokens c ->
       cstr (drop (offset line a.1) buf) = text a /\ text a <> [] /\
       Forall (fun x => is_word x = true) (text a)) \/
  (exists e s, parsecmd line = Panic e s /\ syntax_error e).
Proof.
  intros Hline. unfold parsecmd. kstep.
  destruct (proj1 (parse_spec line Hline (parse_fuel line)) line) as
    [(c & s & Hr & Hs & _ & Hc)|(e & s & Hr & He)]; [done|unfold parse_fuel; lia| |].
  2: { right. exists e, s. split; [|done]. by apply bind_Panic. }
  rewrite (bind_Ret _ _ _ _ _ Hr), (bind_Ret _ _ _ _ _ (peek_run [] s)). kstep.
  case_bool_decide as Hend; cbn [negb].
  2: { right. exists "syntax"%string, (skip_ws s). split; [done|]. unfold syntax_error. set_solver. }
  left. rewrite Hend. exists c, (nulterminate line c (line ++ [0])). split; [done|]. split.
  - rewrite nulterminate_ends.
    assert (forall es buf, length (foldl (fun buf e => put_nul line e buf) buf es) = length buf) as El.
    { induction es as [|e es IH]; intros buf; simpl; [done|]. rewrite IH. apply length_insert. }
    rewrite El, length_app. simpl. lia.
  - intros a Ha. split; [by apply nulterminate_token|].
    pose proof (proj1 (Forall_forall _ _) Hc a Ha) as (w & E & Hne & Hw & _).
    assert (text a = w) as ->; [|done]. unfold text. rewrite E, length_app, Nat.add_sub. by rewrite take_app_length.
Qed.

Lemma parsecmd_total_witness :
  exists c buf, parsecmd [97; 32; 60; 98] = Ret (c, buf) [] /\ forall a, a ∈ tokens c -> text a <> [].
Proof.
  destruct (parsecmd_total [97; 32; 60; 98]) as [(c & buf & Hr & _ & H)|(e & s & Hr & _)].
  - by repeat constructor.
  - exists c, buf. split; [exact Hr|]. intros a Ha. apply H. exact Ha.
  - vm_compute in Hr. discriminate Hr.
Defined.
