(* ===== verification/ShPrint.v ===== *)
(** * Printing commands, and parsing them back

    [print_cmd] writes a command in the shell's syntax, with parentheses where
    the grammar needs them.  The parser reads it back to the same command. *)

From S2P Require Import Prelude Monad State Strings ShParse ShParseSpec ShParseProps.

(** ** Printing

    The levels of the grammar: 0 for a line, 1 for the operand of [;] and of
    the background mark, 2 for a pipeline, 3 for the parts of a pipeline. *)

Definition paren (b : bool) (l : list Z) : list Z := if b then 40 :: l ++ [41] else l.

Definition print_redir (r : redir (list Z)) : list Z :=
  (if rd_fd r =? 0 then 60 else 62) :: rd_file r ++ [32].

Definition print_words (ws : list (list Z)) : list Z := concat (map (fun w => w ++ [32]) ws).

Fixpoint print (lvl : nat) (c : cmd (list Z)) : list Z :=
  match c with
  | EXEC ws => print_words ws
  | REDIR c f m fd => print 3 c ++ print_redir (mkredir f m fd)
  | PIPE l r => paren (2 <? lvl)%nat (print 3 l ++ 124 :: print 2 r)
  | LIST l r => paren (0 <? lvl)%nat (print 1 l ++ 59 :: print 0 r)
  | BACK c => paren (1 <? lvl)%nat (print 1 c ++ [38])
  end.

Definition print_cmd (c : cmd (list Z)) : list Z := print 0 c.

Definition wf_word (w : list Z) : Prop := w <> [] /\ Forall (fun c => is_word c = true /\ c <> 0) w.

Definition wf_redir (r : redir (list Z)) : Prop :=
  wf_word (rd_file r) /\
  (rd_mode r = O_RDONLY /\ rd_fd r = 0 \/ rd_mode r = Z.lor O_WRONLY O_CREATE /\ rd_fd r = 1).

Fixpoint wf_cmd (c : cmd (list Z)) : Prop :=
  match c with
  | EXEC ws => (length ws < MAXARGS)%nat /\ Forall wf_word ws
  | REDIR c f m fd => wf_cmd c /\ wf_redir (mkredir f m fd)
  | PIPE l r | LIST l r => wf_cmd l /\ wf_cmd r
  | BACK c => wf_cmd c
  end.

(** The command with strings in place of pointers. *)
Definition rmap {A B} (f : A -> B) (r : redir A) : redir B := mkredir (f (rd_file r)) (rd_mode r) (rd_fd r).

Fixpoint cmap {A B} (f : A -> B) (c : cmd A) : cmd B :=
  match c with
  | EXEC argv => EXEC (map f argv)
  | REDIR c file m fd => REDIR (cmap f c) (f file) m fd
  | PIPE l r => PIPE (cmap f l) (cmap f r)
  | LIST l r => LIST (cmap f l) (cmap f r)
  | BACK c => BACK (cmap f c)
  end.

Lemma cmap_wrap {A B} (f : A -> B) c rs : cmap f (wrap c rs) = wrap (cmap f c) (map (rmap f) rs).
Proof. revert c. unfold wrap. induction rs as [|r rs IH]; intros c; simpl; [done|]. by rewrite IH. Qed.

Lemma print_wrap c rs : print 3 (wrap c rs) = print 3 c ++ concat (map print_redir rs).
Proof.
  revert c. unfold wrap. induction rs as [|r rs IH]; intros c; simpl; [by rewrite app_nil_r|].
  rewrite IH. simpl. rewrite <- app_assoc. by destruct r.
Qed.

Lemma wf_wrap c rs : wf_cmd (wrap c rs) <-> wf_cmd c /\ Forall wf_redir rs.
Proof.
  revert c. unfold wrap. induction rs as [|r rs IH]; intros c; simpl; [by rewrite Forall_nil; tauto|].
  rewrite IH, Forall_cons. simpl. destruct r; simpl. tauto.
Qed.

(** ** Words *)

Lemma word_facts c : is_word c = true -> is_ws c = false /\ strchr symbols c = false.
Proof. unfold is_word. by rewrite andb_true_iff, !negb_true_iff. Qed.

Lemma word_not_symbol c x : is_word c = true -> c <> 0 -> x ∈ symbols -> (c =? x) = false.
Proof.
  intros [_ Hs]%word_facts _ Hx. apply Z.eqb_neq. intros ->. revert Hs. unfold symbols in *.
  repeat (apply elem_of_cons in Hx as [->|Hx]; [done|]). by apply not_elem_of_nil in Hx.
Qed.

Lemma token_word w t : wf_word w -> token (w ++ 32 :: t) = (tok_a, 32 :: t).
Proof.
  intros [Hne Hw]. assert (skip_word (w ++ 32 :: t) = 32 :: t) as Hs.
  { clear Hne. induction Hw as [|c w [Hc _] Hw IH]; [done|]. simpl. by rewrite Hc. }
  destruct w as [|c w]; [done|]. apply Forall_cons in Hw as [[Hc H0] Hw].
  change ((c :: w) ++ 32 :: t) with (c :: (w ++ 32 :: t)) in *. cbn [token]. rewrite Hs.
  rewrite (proj2 (Z.eqb_neq c 0) H0).
  rewrite !(word_not_symbol c _ Hc H0) by (unfold symbols; set_solver). done.
Qed.

Lemma skip_ws_word w t : wf_word w -> skip_ws (w ++ t) = w ++ t.
Proof.
  intros [Hne Hw]. destruct w as [|c w]; [done|]. apply Forall_cons in Hw as [[Hc _] _].
  simpl. by rewrite (proj1 (word_facts c Hc)).
Qed.

Lemma text_word w t : text (w ++ t, t) = w.
Proof. unfold text. simpl. rewrite length_app, Nat.add_sub. by rewrite take_app_length. Qed.

(** No word starts where one of these characters does. *)
Lemma starts_word toks w t : wf_word w -> incl toks symbols -> starts toks (w ++ t) = false.
Proof.
  intros [Hne Hw] Hin. destruct w as [|c w]; [done|]. apply Forall_cons in Hw as [[Hc H0] _].
  simpl. rewrite (proj2 (Z.eqb_neq c 0) H0). simpl.
  induction toks as [|x toks IH]; [done|]. simpl. destruct (x =? 0); [done|].
  rewrite Z.eqb_sym, (word_not_symbol c x Hc H0) by (apply list_elem_of_In, Hin; by left).
  apply IH. intros y Hy. apply Hin. by right.
Qed.

Lemma gettoken_word s w t :
  wf_word w -> skip_ws s = w ++ 32 :: t -> gettoken s = Ret (tok_a, w ++ 32 :: t, 32 :: t) (skip_ws t).
Proof. intros Hw Hs. rewrite gettoken_run. cbv zeta. by rewrite Hs, token_word. Qed.

(** A symbol other than [>]. *)
Lemma gettoken_symbol s c t :
  c ∈ [124; 40; 41; 59; 38; 60] -> skip_ws s = c :: t -> gettoken s = Ret (c, c :: t, t) (skip_ws t).
Proof.
  intros Hc Hs. rewrite gettoken_run. cbv zeta. rewrite Hs.
  repeat (apply elem_of_cons in Hc as [->|Hc]; [done|]). by apply not_elem_of_nil in Hc.
Qed.

Lemma gettoken_redir s r t :
  wf_redir r -> skip_ws s = print_redir r ++ t ->
  exists tok q e, gettoken s = Ret (tok, q, e) (rd_file r ++ 32 :: t) /\
    forall q e, redirection tok q e = [mkredir (q, e) (rd_mode r) (rd_fd r)].
Proof.
  intros [Hw Hm] Hs. unfold print_redir in Hs. simpl in Hs. rewrite <- app_assoc in Hs. simpl in Hs.
  rewrite gettoken_run. cbv zeta. rewrite Hs. pose proof (skip_ws_word (rd_file r) (32 :: t) Hw) as Hsk.
  destruct Hm as [[-> ->]|[-> ->]]; simpl.
  - eexists _, _, _. rewrite Hsk. done.
  - destruct (rd_file r) as [|c w]; [by destruct Hw|]. destruct Hw as [_ Hw].
    apply Forall_cons in Hw as [[Hc H0] _]. simpl.
    rewrite (word_not_symbol c 62 Hc H0) by (unfold symbols; set_solver). simpl in Hsk. simpl.
    eexists _, _, _. rewrite Hsk. done.
Qed.

(** What may follow at the end of a part. *)
Definition follows (toks : list Z) (rest : ptr) : Prop :=
  skip_ws rest = [] \/ starts toks (skip_ws rest) = true.

(** ** Redirections *)

Lemma starts_redir r t : wf_redir r -> starts [60; 62] (print_redir r ++ t) = true.
Proof. intros [_ Hm]. unfold print_redir. by destruct Hm as [[_ ->]|[_ ->]]. Qed.

Lemma skip_redir r t : skip_ws (print_redir r ++ t) = print_redir r ++ t.
Proof. unfold print_redir. by destruct (rd_fd r =? 0). Qed.

Lemma skip_redirs_length rs t :
  (length rs <= length (skip_ws (concat (map print_redir rs) ++ t)))%nat.
Proof.
  assert (length rs <= length (concat (map print_redir rs)))%nat as Hl.
  { induction rs as [|r rs IH]; [done|]. cbn [map concat]. rewrite length_app. simpl. lia. }
  destruct rs as [|r rs]; [simpl; lia|]. cbn [map concat] in *. rewrite <- app_assoc, skip_redir, !length_app.
  rewrite length_app in Hl. lia.
Qed.

Lemma parseredirs_print rs : forall s rest,
  Forall wf_redir rs -> starts [60; 62] (skip_ws rest) = false ->
  skip_ws s = skip_ws (concat (map print_redir rs) ++ rest) ->
  exists rs', parseredirs s = Ret rs' (skip_ws rest) /\ map (rmap text) rs' = rs.
Proof.
  intros s rest Hrs Hst Hs. unfold parseredirs. kstep.
  match goal with |- context [loop _ ?b _] => set (body := b) end.
  enough (forall n rs0 s, (length rs < n)%nat -> skip_ws s = skip_ws (concat (map print_redir rs) ++ rest) ->
    exists rs', loop n body rs0 s = Ret (rs0 ++ rs') (skip_ws rest) /\ map (rmap text) rs' = rs) as Hloop.
  { apply Hloop; [|done]. pose proof (skip_redirs_length rs rest).
    pose proof (suffix_length' _ _ (skip_ws_suffix s)) as Hle. rewrite Hs in Hle. lia. }
  clear s Hs. induction rs as [|r rs IH]; intros n rs0 s Hn Hs; (destruct n as [|n]; [simpl in Hn; lia|]).
  - exists []. split; [|done]. rewrite app_nil_r. apply loop_done. unfold body.
    rewrite (bind_Ret _ _ _ _ _ (peek_run _ s)). simpl in Hs. rewrite Hs, Hst. done.
  - apply Forall_cons in Hrs as [Hr Hrs]. cbn [map concat] in Hs. rewrite <- app_assoc, skip_redir in Hs.
    destruct (gettoken_redir (skip_ws s) r (concat (map print_redir rs) ++ rest) Hr) as (tok & q & e & Hg & Hred).
    { by rewrite skip_ws_idemp. }
    destruct (IH Hrs n (rs0 ++ redirection tok (rd_file r ++ 32 :: concat (map print_redir rs) ++ rest)
        (32 :: concat (map print_redir rs) ++ rest)) (skip_ws (concat (map print_redir rs) ++ rest)))
      as (rs' & Hl & Hm); [simpl in Hn; lia|by rewrite skip_ws_idemp|].
    exists (redirection tok (rd_file r ++ 32 :: concat (map print_redir rs) ++ rest)
        (32 :: concat (map print_redir rs) ++ rest) ++ rs'). split.
    + rewrite app_assoc, <- Hl. apply loop_next. unfold body.
      rewrite (bind_Ret _ _ _ _ _ (peek_run _ s)). rewrite Hs, starts_redir by done. rewrite <- Hs.
      rewrite (bind_Ret _ _ _ _ _ Hg).
      rewrite (bind_Ret _ _ _ _ _ (gettoken_word _ (rd_file r) _ (proj1 Hr) (skip_ws_word _ _ (proj1 Hr)))). done.
    + rewrite Hred. simpl. rewrite Hm. f_equal. unfold rmap. simpl. rewrite text_word. by destruct r.
Qed.

(** ** Arguments *)

Lemma strchr_spec toks c : 0 ∉ toks -> strchr toks c = bool_decide (c ∈ toks).
Proof.
  induction toks as [|x toks IH]; intros H0; cbn [strchr].
  { symmetry. apply bool_decide_false, not_elem_of_nil. }
  apply not_elem_of_cons in H0 as [Hx H0]. rewrite (proj2 (Z.eqb_neq x 0)) by done.
  destruct (Z.eqb_spec x c) as [->|Hne]; [by rewrite bool_decide_true by (by left)|].
  rewrite IH by done. apply bool_decide_ext. rewrite elem_of_cons. naive_solver.
Qed.

Lemma follows_incl toks toks' rest :
  0 ∉ toks' -> toks ⊆ toks' -> follows toks rest -> follows toks' rest.
Proof.
  intros H0 Hin [E|Hst]; [by left|right]. destruct (skip_ws rest) as [|c t]; [done|]. simpl in *.
  rewrite strchr_spec in * by set_solver. apply andb_true_iff in Hst as [-> Hst%bool_decide_eq_true]. simpl.
  apply bool_decide_true. set_solver.
Qed.

(** What follows does not start with anything else. *)
Lemma follows_not toks toks' rest :
  0 ∉ toks -> 0 ∉ toks' -> toks ## toks' -> follows toks rest -> starts toks' (skip_ws rest) = false.
Proof.
  intros H0 H0' Hd [->|Hst]; [done|]. destruct (skip_ws rest) as [|c t]; [done|]. simpl in *.
  rewrite strchr_spec in * by done. apply andb_true_iff in Hst as [-> Hst%bool_decide_eq_true]. simpl.
  apply bool_decide_false. set_solver.
Qed.

Lemma skip_words_length ws t :
  Forall wf_word ws -> (length ws <= length (skip_ws (print_words ws ++ t)))%nat.
Proof.
  intros Hws. assert (length ws <= length (print_words ws))%nat as Hl.
  { clear. unfold print_words. induction ws as [|w ws IH]; [done|]. cbn [map concat].
    rewrite !length_app. simpl. lia. }
  destruct ws as [|w ws]; [simpl; lia|]. apply Forall_cons in Hws as [Hw _].
  unfold print_words in *. cbn [map concat] in *. rewrite <- !app_assoc, skip_ws_word by done.
  rewrite !length_app in *. lia.
Qed.

Lemma parseargs_print ws rs s rest rs0 :
  Forall wf_word ws -> Forall wf_redir rs -> (length ws < MAXARGS)%nat -> (ws = [] -> rs = []) ->
  follows [124; 41; 38; 59] rest ->
  skip_ws s = skip_ws (print_words ws ++ concat (map print_redir rs) ++ rest) ->
  exists argv rs', parseargs rs0 s = Ret (argv, rs0 ++ rs') (skip_ws rest) /\
    map text argv = ws /\ map (rmap text) rs' = rs.
Proof.
  intros Hws Hrs Hlen Hnil Hfol Hs. unfold parseargs. kstep.
  match goal with |- context [loop _ ?b _] => set (body := b) end.
  assert (forall n argv0 rs0 s, (0 < n)%nat -> skip_ws s = skip_ws rest ->
    loop n body (argv0, rs0) s = Ret (argv0, rs0) (skip_ws rest)) as Hdone.
  { intros n argv0 rs1 s1 Hn Hs1. destruct n as [|n]; [lia|]. apply loop_done. unfold body.
    rewrite (bind_Ret _ _ _ _ _ (peek_run _ s1)), Hs1.
    destruct Hfol as [Hf|Hf]; rewrite Hf; [|done]. cbn [starts]. done. }
  enough (forall n argv0 rs0 s, (length ws < n)%nat -> (length argv0 + length ws < MAXARGS)%nat ->
    skip_ws s = skip_ws (print_words ws ++ concat (map print_redir rs) ++ rest) ->
    exists argv rs', loop n body (argv0, rs0) s = Ret (argv0 ++ argv, rs0 ++ rs') (skip_ws rest) /\
      map text argv = ws /\ map (rmap text) rs' = rs) as Hloop.
  { destruct (Hloop (S (length s)) [] rs0 s) as (argv & rs' & Hr & H1 & H2); [|done|done|by exists argv, rs'].
    pose proof (skip_words_length ws (concat (map print_redir rs) ++ rest) Hws) as Hle.
    rewrite <- Hs in Hle. pose proof (suffix_length' _ _ (skip_ws_suffix s)). lia. }
  clear s Hs Hlen. induction Hws as [|w ws Hw Hws IH]; intros n argv0 rs1 s Hn Hlen Hs.
  { rewrite (Hnil eq_refl) in *. exists [], []. rewrite !app_nil_r. split; [|done]. by apply Hdone. }
  destruct n as [|n]; [simpl in Hn; lia|]. unfold print_words in Hs. cbn [map concat] in Hs.
  fold (print_words ws) in Hs. rewrite <- !app_assoc, skip_ws_word in Hs by done. simpl app at 2 in Hs.
  set (t := print_words ws ++ concat (map print_redir rs) ++ rest) in *.
  set (a := (w ++ 32 :: t, 32 :: t)).
  assert (forall rs2 s2, parseredirs (skip_ws t) = Ret rs2 s2 ->
    loop (S n) body (argv0, rs1) s = loop n body (argv0 ++ [a], rs1 ++ rs2) s2) as Hstep.
  { intros rs2 s2 Hr. apply loop_next. unfold body. rewrite (bind_Ret _ _ _ _ _ (peek_run _ s)).
    rewrite Hs, starts_word by (done || (intros x Hx; simpl in *; tauto)). rewrite <- Hs.
    rewrite (bind_Ret _ _ _ _ _ (gettoken_word (skip_ws s) w t Hw ltac:(by rewrite skip_ws_idemp))).
    cbv beta iota zeta. change (tok_a =? 0) with false. change (tok_a =? tok_a) with true. cbn [negb].
    fold a. rewrite (proj2 (Nat.leb_gt _ _)); [by rewrite (bind_Ret _ _ _ _ _ Hr)|].
    rewrite length_app. simpl in *. lia. }
  assert (text a = w) as Ea by apply text_word.
  destruct ws as [|w2 ws].
  - destruct (parseredirs_print rs (skip_ws t) rest Hrs) as (rs2 & Hr & Hm).
    { apply (follows_not [124; 41; 38; 59]); set_solver. }
    { by rewrite skip_ws_idemp. }
    exists [a], rs2. rewrite (Hstep _ _ Hr). split; [|simpl; by rewrite Ea].
    apply Hdone; [simpl in Hn; lia|apply skip_ws_idemp].
  - destruct (parseredirs_print [] (skip_ws t) t) as (rs2 & Hr & Hm2); [done| |by rewrite skip_ws_idemp|].
    { apply Forall_cons in Hws as [Hw2 _]. unfold t, print_words. cbn [map concat].
      rewrite <- !app_assoc, skip_ws_word by done. apply starts_word; [done|].
      intros x Hx. simpl in *. tauto. }
    apply map_eq_nil in Hm2 as ->. destruct (IH ltac:(done) n (argv0 ++ [a]) (rs1 ++ []) (skip_ws t)) as (argv & rs' & Hl & Ha & Hm).
    + simpl in *. lia.
    + rewrite length_app. simpl in *. lia.
    + by rewrite skip_ws_idemp.
    + exists (a :: argv), rs'. rewrite (Hstep _ _ Hr), Hl. rewrite <- app_assoc, app_nil_r.
      split; [done|]. simpl. by rewrite Ea, Ha.
Qed.

(** A simple command starts with a word or a redirection. *)
Lemma starts_exec ws rs rest toks :
  Forall wf_word ws -> Forall wf_redir rs -> (0 ∉ toks) -> follows [124; 41; 38; 59] rest ->
  toks ## [60; 62; 124; 41; 38; 59] -> toks ⊆ symbols ->
  starts toks (skip_ws ((print_words ws ++ concat (map print_redir rs)) ++ rest)) = false.
Proof.
  intros Hws Hrs H0 Hfol Hd Hsym. destruct ws as [|w ws].
  - change (print_words []) with (@nil Z). rewrite app_nil_l.
    destruct rs as [|r rs]; [apply (follows_not [124; 41; 38; 59]); [set_solver..|done]|].
    cbn [map concat]. rewrite <- app_assoc, skip_redir. unfold print_redir. simpl. rewrite strchr_spec by done. destruct (rd_fd r =? 0); simpl; apply bool_decide_false; set_solver.
  - apply Forall_cons in Hws as [Hw _]. unfold print_words. cbn [map concat].
    rewrite <- !app_assoc, skip_ws_word by done. apply starts_word; [done|].
    intros x Hx. apply list_elem_of_In, Hsym. by apply list_elem_of_In.
Qed.

(** ** The levels of the grammar *)

Section Levels.
Context (line : ptr).
Context (Hline : Forall (fun c => c <> 0) line).
#[local, warnings="-notation-for-abbreviation"]
Notation in_line s := (s `suffix_of` line).

(** [m] reads [str] back as [c], up to what may follow. *)
Definition reads (m : nat -> P (cmd (ptr * ptr))) (k : nat) (toks : list Z) (str : list Z)
    (c : cmd (list Z)) : Prop :=
  forall fuel s rest, in_line s -> (4 * length s + k <= fuel)%nat -> follows toks rest ->
    skip_ws s = skip_ws (str ++ rest) ->
    exists c', m fuel s = Ret c' (skip_ws rest) /\ cmap text c' = c.

Definition reads_exec (c : cmd (list Z)) := reads parseexec 2 [124; 41; 38; 59] (print 3 c) c.
Definition reads_pipe (c : cmd (list Z)) := reads parsepipe 3 [41; 38; 59] (print 2 c) c.
Definition reads_line (c : cmd (list Z)) := reads parseline 4 [41] (print 0 c) c.

(** A state the parser leaves is a suffix of the line, and not longer. *)
Lemma parsed_in_line m s c s' :
  parses line m s -> m s = Ret c s' -> in_line s' /\ (length s' <= length s)%nat.
Proof.
  intros [(c2 & s2 & Hr & Hs & Hl & _)|(e & s2 & Hr & _)] E; rewrite E in Hr; simplify_eq. done.
Qed.

Lemma reads_exec_words ws rs :
  wf_cmd (wrap (EXEC ws) rs) -> reads_exec (wrap (EXEC ws) rs).
Proof.
  intros [[Hlen Hws] Hrs]%wf_wrap fuel s rest Hs Hf Hfol E. destruct fuel as [|fuel]; [lia|].
  rewrite print_wrap in E. cbn [print] in E. cbn [parseexec].
  assert (starts [40] (skip_ws s) = false) as Hst.
  { rewrite E. apply starts_exec; try done; unfold symbols; set_solver. }
  rewrite (bind_Ret _ _ _ _ _ (peek_run _ s)), Hst.
  destruct ws as [|w ws].
  - destruct (parseredirs_print rs (skip_ws s) rest Hrs) as (rs' & Hr & Hm).
    { apply (follows_not [124; 41; 38; 59]); set_solver. }
    { by rewrite skip_ws_idemp, E. }
    destruct (parseargs_print [] [] (skip_ws rest) rest rs') as (argv & rs2 & Ha & Hm1 & Hm2);
      [done|done|done|done|done|by rewrite skip_ws_idemp|].
    apply map_eq_nil in Hm1 as ->. apply map_eq_nil in Hm2 as ->. rewrite app_nil_r in Ha.
    rewrite (bind_Ret _ _ _ _ _ Hr), (bind_Ret _ _ _ _ _ Ha). eexists. split; [done|].
    by rewrite cmap_wrap, Hm.
  - destruct (parseredirs_print [] (skip_ws s) s) as (rs' & Hr & Hm); [done| |by rewrite skip_ws_idemp|].
    { rewrite E. unfold print_words. cbn [map concat]. apply Forall_cons in Hws as [Hw _].
      rewrite <- !app_assoc, skip_ws_word by done. apply starts_word; [done|intros x; simpl; tauto]. }
    apply map_eq_nil in Hm as ->.
    destruct (parseargs_print (w :: ws) rs (skip_ws s) rest []) as (argv & rs2 & Ha & Hm1 & Hm2);
      [done|done|done|done|done|by rewrite skip_ws_idemp, E, app_assoc|].
    rewrite (bind_Ret _ _ _ _ _ Hr), (bind_Ret _ _ _ _ _ Ha). eexists. split; [done|].
    simpl. rewrite cmap_wrap, Hm2. simpl. by rewrite Hm1.
Qed.

Lemma reads_exec_paren c rs :
  print 3 c = 40 :: print 0 c ++ [41] -> reads_line c -> Forall wf_redir rs -> reads_exec (wrap c rs).
Proof.
  intros Ep Hc Hrs fuel s rest Hs Hf Hfol E. do 2 (destruct fuel as [|fuel]; [lia|]).
  rewrite print_wrap, Ep in E. cbn [app] in E. rewrite <- !app_assoc in E. cbn [app] in E.
  set (t := concat (map print_redir rs) ++ rest) in *.
  change (skip_ws (40 :: print 0 c ++ 41 :: t)) with (40 :: print 0 c ++ 41 :: t) in E.
  destruct (in_line_skip line s Hs) as [Hs0 Hl0].
  assert (in_line (print 0 c ++ 41 :: t)) as Hs1.
  { etrans; [|exact Hs0]. rewrite E. by apply suffix_cons_r. }
  assert (S (length (print 0 c ++ 41%Z :: t)) <= length s)%nat as Hl1 by (rewrite E in Hl0; done).
  destruct (in_line_skip line _ Hs1) as [Hs2 Hl2].
  destruct (Hc fuel (skip_ws (print 0 c ++ 41 :: t)) (41 :: t) Hs2) as (c' & Hr & Em);
    [lia|by right|by rewrite skip_ws_idemp|].
  destruct (parseredirs_print rs (skip_ws t) rest Hrs) as (rs' & Hrr & Hm).
  { apply (follows_not [124; 41; 38; 59]); set_solver. }
  { by rewrite skip_ws_idemp. }
  exists (wrap c' rs'). split; [|by rewrite cmap_wrap, Em, Hm].
  cbn [parseexec]. rewrite (bind_Ret _ _ _ _ _ (peek_run _ s)), E.
  change (starts [40] (40 :: print 0 c ++ 41 :: t)) with true. cbn [parseblock].
  rewrite (bind_Ret _ _ _ _ _ (peek_run _ _)).
  change (skip_ws (40 :: print 0 c ++ 41 :: t)) with (40 :: print 0 c ++ 41 :: t).
  change (starts [40] (40 :: print 0 c ++ 41 :: t)) with true. cbn [negb].
  erewrite (bind_Ret gettoken); [|apply (gettoken_symbol _ 40); [set_solver|reflexivity]].
  rewrite (bind_Ret _ _ _ _ _ Hr), (bind_Ret _ _ _ _ _ (peek_run _ _)).
  change (skip_ws (skip_ws (41 :: t))) with (41 :: t). change (starts [41] (41 :: t)) with true. cbn [negb].
  erewrite (bind_Ret gettoken); [|apply (gettoken_symbol _ 41); [set_solver|reflexivity]].
  by rewrite (bind_Ret _ _ _ _ _ Hrr).
Qed.

Lemma reads_pipe_exec c : print 2 c = print 3 c -> reads_exec c -> reads_pipe c.
Proof.
  intros Ep Hc fuel s rest Hs Hf Hfol E. destruct fuel as [|fuel]; [lia|]. rewrite Ep in E.
  assert (follows [124; 41; 38; 59] rest) as Hfol'.
  { revert Hfol. apply follows_incl; set_solver. }
  destruct (Hc fuel s rest Hs) as (c' & Hr & Em); [lia|done|done|].
  exists c'. split; [|done]. cbn [parsepipe]. rewrite (bind_Ret _ _ _ _ _ Hr), (bind_Ret _ _ _ _ _ (peek_run _ _)).
  rewrite skip_ws_idemp. assert (starts [124] (skip_ws rest) = false) as ->; [|done].
  by apply (follows_not [41; 38; 59]); [set_solver..|].
Qed.

Lemma reads_pipe_pipe l r : reads_exec l -> reads_pipe r -> reads_pipe (PIPE l r).
Proof.
  intros Hl Hr fuel s rest Hs Hf Hfol E. destruct fuel as [|fuel]; [lia|].
  cbn [print paren Nat.ltb Nat.leb] in E. rewrite <- app_assoc in E. cbn [app] in E.
  destruct (Hl fuel s (124 :: print 2 r ++ rest) Hs) as (l' & Hrl & El); [lia|by right|done|].
  destruct (parsed_in_line (parseexec fuel) s l' _
    (proj1 (proj2 (proj2 (parse_spec line Hline fuel))) s Hs ltac:(lia)) Hrl) as [Hs1 Hl1].
  change (skip_ws (124 :: print 2 r ++ rest)) with (124 :: print 2 r ++ rest) in *.
  assert (in_line (print 2 r ++ rest)) as Hs2 by (etrans; [|exact Hs1]; by apply suffix_cons_r).
  destruct (in_line_skip line _ Hs2) as [Hs3 Hl3]. simpl in Hl1.
  destruct (Hr fuel (skip_ws (print 2 r ++ rest)) rest Hs3) as (r' & Hrr & Er);
    [lia|done|by rewrite skip_ws_idemp|].
  exists (PIPE l' r'). split; [|simpl; by rewrite El, Er]. cbn [parsepipe].
  rewrite (bind_Ret _ _ _ _ _ Hrl), (bind_Ret _ _ _ _ _ (peek_run _ _)).
  change (skip_ws (124 :: print 2 r ++ rest)) with (124 :: print 2 r ++ rest).
  change (starts [124] (124 :: print 2 r ++ rest)) with true. cbv iota.
  erewrite (bind_Ret gettoken); [|apply (gettoken_symbol _ 124); [set_solver|reflexivity]].
  by rewrite (bind_Ret _ _ _ _ _ Hrr).
Qed.

(** *** Background marks *)

Fixpoint backs (n : nat) {A} (c : cmd A) : cmd A :=
  match n with
  | O => c
  | S n => backs n (BACK c)
  end.

Lemma cmap_backs n {A B} (f : A -> B) c : cmap f (backs n c) = backs n (cmap f c).
Proof. revert c. induction n as [|n IH]; intros c; [done|]. simpl. by rewrite IH. Qed.

Lemma parse_backs n : forall fuel c s rest,
  (n < fuel)%nat -> starts [38] (skip_ws rest) = false -> skip_ws s = skip_ws (replicate n 38 ++ rest) ->
  loop fuel (fun c : cmd (ptr * ptr) =>
        b ← peek [38];
        if b : bool then gettoken;; mret (inl (BACK c))
        else mret (inr c)) c s = Ret (backs n c) (skip_ws rest).
Proof.
  induction n as [|n IH]; intros fuel c s rest Hf Hst E; (destruct fuel as [|fuel]; [lia|]).
  - change (replicate 0 38 ++ rest) with rest in E. apply loop_done.
    by rewrite (bind_Ret _ _ _ _ _ (peek_run _ _)), E, Hst.
  - change (skip_ws (replicate (S n) 38 ++ rest)) with (38 :: replicate n 38 ++ rest) in E.
    erewrite loop_next; [apply (IH fuel (BACK c) (skip_ws (replicate n 38 ++ rest))); [lia|done|apply skip_ws_idemp]|].
    rewrite (bind_Ret _ _ _ _ _ (peek_run _ _)), E.
    change (starts [38] (38 :: replicate n 38 ++ rest)) with true. cbv iota.
    erewrite (bind_Ret gettoken); [|apply (gettoken_symbol _ 38); [set_solver|reflexivity]]. done.
Qed.

(** [parseline] after its first part. *)
Lemma parseline_backs n p fuel s rest :
  reads_pipe p -> in_line s -> (4 * length s + 3 <= fuel)%nat -> follows [41; 59] rest ->
  skip_ws s = skip_ws (print 2 p ++ replicate n 38 ++ rest) ->
  exists c', cmap text c' = backs n p /\
    parseline (S fuel) s =
      (b ← peek [59];
       if b : bool then gettoken;; r ← parseline fuel; mret (LIST c' r) else mret c') (skip_ws rest) /\
    in_line (skip_ws rest) /\ (length (skip_ws rest) <= length s)%nat.
Proof.
  intros Hp Hs Hf Hfol E.
  destruct (Hp fuel s (replicate n 38 ++ rest) Hs Hf) as (p' & Hr & Em); [|done|].
  { destruct n; [|by right]. revert Hfol. apply follows_incl; set_solver. }
  destruct (parsed_in_line (parsepipe fuel) s p' _
    (proj1 (proj2 (parse_spec line Hline fuel)) s Hs ltac:(lia)) Hr) as [Hs1 Hl1].
  exists (backs n p'). split; [by rewrite cmap_backs, Em|].
  assert (rest `suffix_of` replicate n 38 ++ rest) as Hsuf by (by exists (replicate n 38)).
  split; [|].
  - cbn [parseline]. rewrite (bind_Ret _ _ _ _ _ Hr). kstep. erewrite bind_Ret; [reflexivity|].
    apply parse_backs; [|by apply (follows_not [41; 59]); [set_solver..|]|by rewrite skip_ws_idemp].
    destruct n as [|n]; [lia|]. change (skip_ws (replicate (S n) 38 ++ rest)) with (38 :: replicate n 38 ++ rest).
    cbn [length]. rewrite length_app, length_replicate. lia.
  - assert (skip_ws rest `suffix_of` skip_ws (replicate n 38 ++ rest)) as Hsuf2.
    { destruct n as [|n]; [done|]. change (skip_ws (replicate (S n) 38 ++ rest)) with (38 :: replicate n 38 ++ rest).
      etrans; [apply skip_ws_suffix|]. by exists (38 :: replicate n 38). }
    split; [by etrans|]. apply suffix_length' in Hsuf2. lia.
Qed.

Lemma reads_line_backs n p :
  reads_pipe p -> print 0 (backs n p) = print 2 p ++ replicate n 38 -> reads_line (backs n p).
Proof.
  intros Hp Ep fuel s rest Hs Hf Hfol E. destruct fuel as [|fuel]; [lia|].
  rewrite Ep, <- app_assoc in E.
  destruct (parseline_backs n p fuel s rest Hp Hs) as (c' & Em & Hr & _); [lia| |done|].
  { revert Hfol. apply follows_incl; set_solver. }
  exists c'. split; [|done]. rewrite Hr, (bind_Ret _ _ _ _ _ (peek_run _ _)), skip_ws_idemp.
  rewrite (follows_not [41] [59] rest); [done|set_solver..|done].
Qed.

Lemma reads_line_list n p r :
  reads_pipe p -> print 1 (backs n p) = print 2 p ++ replicate n 38 -> reads_line r ->
  reads_line (LIST (backs n p) r).
Proof.
  intros Hp Ep Hr fuel s rest Hs Hf Hfol E. destruct fuel as [|fuel]; [lia|].
  cbn [print paren Nat.ltb Nat.leb] in E. rewrite Ep, <- !app_assoc in E. cbn [app] in E.
  destruct (parseline_backs n p fuel s (59 :: print 0 r ++ rest) Hp Hs) as (c' & Em & Hl & Hs1 & Hl1);
    [lia|by right|done|].
  change (skip_ws (59 :: print 0 r ++ rest)) with (59 :: print 0 r ++ rest) in *.
  assert (in_line (print 0 r ++ rest)) as Hs2 by (etrans; [|exact Hs1]; by apply suffix_cons_r).
  destruct (in_line_skip line _ Hs2) as [Hs3 Hl3]. simpl in Hl1.
  destruct (Hr fuel (skip_ws (print 0 r ++ rest)) rest Hs3) as (r' & Hrr & Er);
    [lia|done|by rewrite skip_ws_idemp|].
  exists (LIST c' r'). split; [|simpl; by rewrite Em, Er].
  rewrite Hl, (bind_Ret _ _ _ _ _ (peek_run _ _)).
  change (skip_ws (59 :: print 0 r ++ rest)) with (59 :: print 0 r ++ rest).
  change (starts [59] (59 :: print 0 r ++ rest)) with true. cbv iota.
  erewrite (bind_Ret gettoken); [|apply (gettoken_symbol _ 59); [set_solver|reflexivity]].
  by rewrite (bind_Ret _ _ _ _ _ Hrr).
Qed.

(** *** All commands *)

Lemma print_backs n p : print 1 (backs n p) = print 1 p ++ replicate n 38.
Proof.
  revert p. induction n as [|n IH]; intros p; simpl; [by rewrite app_nil_r|].
  rewrite IH. cbn [print paren Nat.ltb Nat.leb]. by rewrite <- app_assoc.
Qed.

Lemma backs_S {A} n (c : cmd A) : BACK (backs n c) = backs (S n) c.
Proof. revert c. induction n as [|n IH]; intros c; [done|]. simpl in *. by rewrite IH. Qed.

Lemma wrap_snoc {A} (c : cmd A) rs r : REDIR (wrap c rs) (rd_file r) (rd_mode r) (rd_fd r) = wrap c (rs ++ [r]).
Proof. unfold wrap. by rewrite foldl_app. Qed.

(** The parts of a command the parser reads separately: the pipeline below the
    background marks, and what the redirections apply to. *)
Definition back_part (c : cmd (list Z)) : Prop :=
  exists n p, c = backs n p /\ print 1 p = print 2 p /\ reads_pipe p.

Definition redir_part (c : cmd (list Z)) : Prop :=
  exists b rs, c = wrap b rs /\
    ((exists ws, b = EXEC ws) \/ print 3 b = 40 :: print 0 b ++ [41] /\ reads_line b).

Record levels (c : cmd (list Z)) : Prop := {
  lv_exec : reads_exec c;
  lv_pipe : reads_pipe c;
  lv_line : reads_line c;
  lv_back : back_part c;
  lv_redir : redir_part c;
}.

Lemma redir_part_exec c : wf_cmd c -> redir_part c -> reads_exec c.
Proof.
  intros Hw (b & rs & -> & [[ws ->]|[Hp Hl]]); [by apply reads_exec_words|].
  apply reads_exec_paren; [done|done|]. by apply wf_wrap in Hw as [_ ?].
Qed.

(** A command that is a pipeline as it stands. *)
Lemma levels_pipe c :
  print 0 c = print 2 c -> print 1 c = print 2 c -> reads_pipe c -> reads_line c /\ back_part c.
Proof.
  intros E0 E1 Hp. split; [|by exists 0%nat, c].
  apply (reads_line_backs 0 c Hp). simpl. by rewrite app_nil_r.
Qed.

(** A simple command, with or without redirections. *)
Lemma levels_simple c :
  (forall i j, print i c = print j c) -> wf_cmd c -> redir_part c -> levels c.
Proof.
  intros Ep Hw Hr. pose proof (redir_part_exec c Hw Hr) as He.
  pose proof (reads_pipe_exec c (Ep _ _) He) as Hp.
  destruct (levels_pipe c (Ep _ _) (Ep _ _) Hp) as [Hl Hb]. by split.
Qed.

Lemma levels_all c : wf_cmd c -> levels c.
Proof.
  induction c as [argv|c IH f m fd|l IHl r IHr|l IHl r IHr|c IH]; intros Hw.
  - apply levels_simple; [done|done|]. exists (EXEC argv), []. split; [done|]. left. by exists argv.
  - apply levels_simple; [done|done|]. destruct Hw as [Hc _]. destruct (lv_redir c (IH Hc)) as (b & rs & -> & Hb).
    exists b, (rs ++ [mkredir f m fd]). split; [|done]. apply (wrap_snoc b rs (mkredir f m fd)).
  - destruct Hw as [Hl Hr]. pose proof (reads_pipe_pipe l r (lv_exec l (IHl Hl)) (lv_pipe r (IHr Hr))) as Hp.
    destruct (levels_pipe (PIPE l r) eq_refl eq_refl Hp) as [Hln Hb].
    assert (redir_part (PIPE l r)) as Hrp by (exists (PIPE l r), []; split; [done|by right]).
    split; [apply redir_part_exec; done|done..].
  - destruct Hw as [Hl Hr]. destruct (lv_back l (IHl Hl)) as (n & p & -> & Ep & Hp).
    assert (reads_line (LIST (backs n p) r)) as Hln.
    { apply reads_line_list; [done|by rewrite print_backs, Ep|apply IHr, Hr]. }
    assert (redir_part (LIST (backs n p) r)) as Hrp by (eexists _, []; split; [done|by right]).
    assert (reads_exec (LIST (backs n p) r)) as He by (apply redir_part_exec; done).
    pose proof (reads_pipe_exec (LIST (backs n p) r) eq_refl He) as Hpp. split; [done..| |done].
    by exists 0%nat, (LIST (backs n p) r).
  - destruct (lv_back c (IH Hw)) as (n & p & -> & Ep & Hp).
    assert (reads_line (BACK (backs n p))) as Hln.
    { rewrite backs_S. apply reads_line_backs; [done|]. rewrite <- backs_S.
      change (print 0 (BACK (backs n p))) with (print 1 (BACK (backs n p))).
      by rewrite backs_S, print_backs, Ep. }
    assert (redir_part (BACK (backs n p))) as Hrp by (eexists _, []; split; [done|by right]).
    assert (reads_exec (BACK (backs n p))) as He by (apply redir_part_exec; done).
    pose proof (reads_pipe_exec (BACK (backs n p)) eq_refl He) as Hpp. split; [done..| |done].
    exists (S n), p. by rewrite backs_S.
Qed.

End Levels.

(** Printed commands hold no NUL. *)
Lemma print_no_nul c : wf_cmd c -> forall lvl, Forall (fun x => x <> 0) (print lvl c).
Proof.
  assert (forall w, wf_word w -> Forall (fun x => x <> 0) (w ++ [32])) as Hword.
  { intros w [_ Hw]. apply Forall_app. split; [|by repeat constructor].
    apply (Forall_impl _ _ _ Hw). by intros x [_ ?]. }
  assert (forall b l, Forall (fun x => x <> 0) l -> Forall (fun x => x <> 0) (paren b l)) as Hparen.
  { intros [] l Hl; [|done]. constructor; [done|]. apply Forall_app. split; [done|by repeat constructor]. }
  induction c as [argv|c IH f m fd|l IHl r IHr|l IHl r IHr|c IH]; simpl; intros Hw lvl.
  - destruct Hw as [_ Hw]. unfold print_words. induction Hw as [|w ws Hw Hws IH]; [done|].
    simpl. apply Forall_app. auto.
  - destruct Hw as [Hc [Hf _]]. apply Forall_app. split; [by apply IH|]. unfold print_redir.
    constructor; [by destruct (_ =? 0)|]. apply (Hword f Hf).
  - destruct Hw as [Hl Hr]. apply Hparen, Forall_app. split; [by apply IHl|]. constructor; [done|by apply IHr].
  - destruct Hw as [Hl Hr]. apply Hparen, Forall_app. split; [by apply IHl|]. constructor; [done|by apply IHr].
  - apply Hparen, Forall_app. split; [by apply IH|by repeat constructor].
Qed.

(** C35: Parsing is the inverse of printing: for every command with fewer than
    [MAXARGS] arguments in each simple command, words without blanks and
    symbols, and redirections the syntax has, [parsecmd] of the printed command
    returns that command, with the pointers of its strings delimiting the
    strings.  So the parser finds every command of the language, with the
    intended precedence of [|], [&] and [;]. *)
Theorem parse_print c :
  wf_cmd c ->
  exists c' buf, parsecmd (print_cmd c) = Ret (c', buf) [] /\ cmap text c' = c.
Proof.
  intros Hw. set (line := print_cmd c).
  assert (Forall (fun x => x <> 0) line) as Hline by (by apply print_no_nul).
  destruct (lv_line line c (levels_all line Hline c Hw) (parse_fuel line) line []) as (c' & Hr & Em).
  - done.
  - unfold parse_fuel. lia.
  - by left.
  - by rewrite app_nil_r.
  - exists c', (nulterminate line c' (line ++ [0])). split; [|done]. unfold parsecmd. kstep.
    rewrite (bind_Ret _ _ _ _ _ Hr), (bind_Ret _ _ _ _ _ (peek_run _ _)). kstep. done.
Qed.

(** [a b > f & ; ( c ; d ) | e] *)
Definition demo_cmd : cmd (list Z) :=
  LIST (BACK (REDIR (EXEC [[97]; [98]]) [102] (Z.lor O_WRONLY O_CREATE) 1))
       (PIPE (LIST (EXEC [[99]]) (EXEC [[100]])) (EXEC [[101]])).

Lemma parse_print_witness :
  exists c' buf, parsecmd [97; 32; 98; 32; 62; 102; 32; 38; 59; 40; 99; 32; 59; 100; 32; 41; 124; 101; 32]
    = Ret (c', buf) [] /\ cmap text c' = demo_cmd.
Proof.
  apply (parse_print demo_cmd). unfold demo_cmd, wf_cmd, wf_redir, wf_word, MAXARGS. simpl.
  repeat split; try (left; done) || (right; done) || lia || (repeat constructor; done).
Defined.
