(* ===== verification/ShRun.v ===== *)
(** * Running commands ([runcmd] of [sh.c])

    A process of the shell is its table of file descriptors; [open], [dup] and
    [pipe] take the lowest free ones.  [runcmd] yields the programs that are
    executed, in the order the shell forks them, each with the table it starts
    with.  Whether [open] succeeds is a parameter, [fork] is taken to succeed;
    what a process writes does not matter here, so [wait], the messages and
    the process number it sends to the shell before [exec] are left out (what
    the shell receives is an argument of [ShJobs.start_job]). *)

From S2P Require Import Prelude Monad State ShParse ShParseProps ShPrint.

(** What a descriptor refers to: one the shell started with, a file opened by
    a redirection, an end of a pipe. *)
Inductive fdobj :=
| Inherited (n : Z)
| Opened (file : list Z) (mode : Z)
| PipeRead (id : nat)
| PipeWrite (id : nat).

#[export] Instance fdobj_eq_dec : EqDecision fdobj.
Proof. solve_decision. Defined.

Abbreviation fds := (gmap Z fdobj).

(** The lowest descriptor that is free; a process has [NOFILE] of them. *)
Definition lowest (T : fds) : option Z :=
  List.find (fun n => bool_decide (T !! n = None)) (seqZ 0 (Z.of_nat NOFILE)).

(** [close], the table after [dup] and [open], and [pipe] with the two
    descriptors it gets. *)
Definition fd_close (fd : Z) (T : fds) : fds := delete fd T.
Definition fd_open (o : fdobj) (T : fds) : fds :=
  match lowest T with
  | Some n => <[n := o]> T
  | None => T
  end.
Definition fd_dup (fd : Z) (T : fds) : fds :=
  match T !! fd with
  | Some o => fd_open o T
  | None => T
  end.
Definition fd_pipe (k : nat) (T : fds) : option (Z * Z * fds) :=
  p0 ← lowest T;
  let T1 := <[p0 := PipeRead k]> T in
  p1 ← lowest T1;
  Some (p0, p1, <[p1 := PipeWrite k]> T1).

Section Run.
(** Whether [open(file, mode)] succeeds. *)
Context (open_ok : list Z -> Z -> bool).

(** [runcmd cmd fdToShell] in a process with the table [T]; [k] counts the
    pipes made so far.  The result also holds the next pipe number. *)
Fixpoint runcmd (c : cmd (list Z)) (fdToShell : Z) (T : fds) (k : nat) : list (list (list Z) * fds) * nat :=
  match c with
  | EXEC argv =>
      match argv with
      | [] => ([], k)
      | _ => ([(argv, fd_close fdToShell T)], k)
      end
  | REDIR c file mode fd =>
      let T := fd_close fd T in
      if open_ok file mode then runcmd c fdToShell (fd_open (Opened file mode) T) k
      else ([], k)
  | LIST l r =>
      let '(ps, k) := runcmd l fdToShell T k in
      let '(qs, k) := runcmd r fdToShell T k in
      (ps ++ qs, k)
  | PIPE l r =>
      match fd_pipe k T with
      | None => ([], k)
      | Some (p0, p1, T) =>
          let Tl := fd_close p1 (fd_close p0 (fd_dup p1 (fd_close 1 T))) in
          let Tr := fd_close p1 (fd_close p0 (fd_dup p0 (fd_close 0 T))) in
          let '(ps, k) := runcmd l fdToShell Tl (S k) in
          let '(qs, k) := runcmd r fdToShell Tr k in
          (ps ++ qs, k)
      end
  | BACK c => runcmd c fdToShell T k
  end.

End Run.

(** ** Lowest free descriptors *)

Lemma find_seqZ (T : fds) len k n :
  k <= n < k + Z.of_nat len -> T !! n = None -> (forall m, k <= m < n -> is_Some (T !! m)) ->
  List.find (fun n => bool_decide (T !! n = None)) (seqZ k (Z.of_nat len)) = Some n.
Proof.
  revert k. induction len as [|len IH]; intros k Hk Hf Hm; [lia|].
  rewrite seqZ_cons by lia. simpl. case_bool_decide as Hc.
  - f_equal. destruct (decide (k = n)); [done|]. destruct (Hm k) as [x Hx]; [lia|]. congruence.
  - replace (Z.pred (Z.of_nat (S len))) with (Z.of_nat len) by lia.
    apply IH; [|done|intros m Hm'; apply Hm; lia].
    destruct (decide (k = n)) as [->|]; [done|lia].
Qed.

Lemma lowest_is (T : fds) n :
  0 <= n < Z.of_nat NOFILE -> T !! n = None -> (forall m, 0 <= m < n -> is_Some (T !! m)) -> lowest T = Some n.
Proof. intros Hn Hf Hm. by apply (find_seqZ T NOFILE 0 n). Qed.

Lemma lowest_free T n : lowest T = Some n -> T !! n = None /\ 0 <= n < Z.of_nat NOFILE.
Proof.
  intros [Hin Hn]%List.find_some. apply bool_decide_eq_true in Hn.
  apply list_elem_of_In, elem_of_seqZ in Hin. split; [done|lia].
Qed.

(** Closing standard input or output and opening something else puts it
    there. *)
Lemma reopen_0 o T : fd_open o (fd_close 0 T) = <[0 := o]> T.
Proof.
  unfold fd_open, fd_close. rewrite (lowest_is _ 0); [|done|apply lookup_delete_eq|lia]. apply insert_delete_eq.
Qed.

Lemma reopen_1 o T : is_Some (T !! 0) -> fd_open o (fd_close 1 T) = <[1 := o]> T.
Proof.
  intros H0. unfold fd_open, fd_close. rewrite (lowest_is _ 1); [apply insert_delete_eq|done|apply lookup_delete_eq|].
  intros m Hm. replace m with 0 by lia. by rewrite lookup_delete_ne.
Qed.

Lemma fd_pipe_inv k T p0 p1 T' :
  fd_pipe k T = Some (p0, p1, T') ->
  T !! p0 = None /\ T !! p1 = None /\ p0 <> p1 /\ T' = <[p1 := PipeWrite k]> (<[p0 := PipeRead k]> T).
Proof.
  unfold fd_pipe. intros H. destruct (lowest T) as [q0|] eqn:E0; [|done]. simpl in H.
  destruct (lowest (<[q0 := _]> T)) as [q1|] eqn:E1; [|done]. simplify_eq/=.
  apply lowest_free in E0 as [E0 _]. apply lowest_free in E1 as [E1 _].
  apply lookup_insert_None in E1 as [E1 N]. done.
Qed.

(** The tables of the two sides of a pipe: one descriptor replaced. *)
Lemma pipe_closed (T : fds) p0 p1 n r w o :
  T !! p0 = None -> T !! p1 = None -> is_Some (T !! n) -> p0 <> p1 ->
  fd_close p1 (fd_close p0 (<[n := o]> (<[p1 := w]> (<[p0 := r]> T)))) = <[n := o]> T.
Proof.
  intros H0 H1 [y Hn] N. unfold fd_close.
  assert (n <> p0) by congruence. assert (n <> p1) by congruence.
  rewrite !delete_insert_ne by done. rewrite !delete_insert_eq.
  by rewrite (delete_id T p0), delete_id.
Qed.

Lemma pipe_left k T p0 p1 T' :
  is_Some (T !! 0) -> is_Some (T !! 1) -> fd_pipe k T = Some (p0, p1, T') ->
  fd_close p1 (fd_close p0 (fd_dup p1 (fd_close 1 T'))) = <[1 := PipeWrite k]> T.
Proof.
  intros H0 H1 (F0 & F1 & N & ->)%fd_pipe_inv. unfold fd_dup.
  replace (_ !! p1) with (Some (PipeWrite k)).
  2:{ unfold fd_close. rewrite lookup_delete_ne, lookup_insert_eq; [done|]. intros <-. rewrite F1 in H1. by destruct H1. }
  rewrite reopen_1; [by apply pipe_closed|].
  rewrite !lookup_insert_ne; [done|..]; intros E; rewrite E, ?F0, ?F1 in *; by destruct H0.
Qed.

Lemma pipe_right k T p0 p1 T' :
  is_Some (T !! 0) -> fd_pipe k T = Some (p0, p1, T') ->
  fd_close p1 (fd_close p0 (fd_dup p0 (fd_close 0 T'))) = <[0 := PipeRead k]> T.
Proof.
  intros H0 (F0 & F1 & N & ->)%fd_pipe_inv. unfold fd_dup.
  replace (_ !! p0) with (Some (PipeRead k)).
  2:{ unfold fd_close. rewrite lookup_delete_ne, lookup_insert_ne, lookup_insert_eq; [done..|].
      intros <-. rewrite F0 in H0. by destruct H0. }
  rewrite reopen_0. by apply pipe_closed.
Qed.

(** ** What the programs start with *)

(** Redirections of standard input and standard output only, as the parser
    makes them. *)
Fixpoint std_redirs {A} (c : cmd A) : Prop :=
  match c with
  | EXEC _ => True
  | REDIR c _ _ fd => std_redirs c /\ (fd = 0 \/ fd = 1)
  | PIPE l r | LIST l r => std_redirs l /\ std_redirs r
  | BACK c => std_redirs c
  end.

Lemma std_redirs_wrap {A} (c : cmd A) rs :
  std_redirs c -> Forall (fun r => rd_fd r = 0 \/ rd_fd r = 1) rs -> std_redirs (wrap c rs).
Proof.
  unfold wrap. intros Hc Hrs. revert c Hc. induction Hrs as [|r rs Hr Hrs IH]; intros c Hc; [done|].
  simpl. apply IH. by split.
Qed.

Lemma std_redirs_cmap {A B} (f : A -> B) c : std_redirs c -> std_redirs (cmap f c).
Proof. induction c; simpl; naive_solver. Qed.

(** What a parser returns, when it does. *)
Definition yields {A} (m : P A) (Q : A -> Prop) : Prop := forall s a s', m s = Ret a s' -> Q a.

Lemma yields_ret {A} (a : A) (Q : A -> Prop) : Q a -> yields (mret a) Q.
Proof. intros HQ s b s' E. by injection E as -> _. Qed.

Lemma yields_bind {A B} (m : P A) (f : A -> P B) (R : A -> Prop) (Q : B -> Prop) :
  yields m R -> (forall a, R a -> yields (f a) Q) -> yields (m ≫= f) Q.
Proof. intros Hm Hf s b s' (a & s1 & H1 & H2)%bind_inv_Ret. by eapply Hf; [eapply Hm|]. Qed.

Lemma yields_any {A} (m : P A) : yields m (fun _ => True).
Proof. done. Qed.

Lemma yields_loop {I R} fuel (body : I -> P (I + R)) (J : I -> Prop) (Q : R -> Prop) i :
  (forall i, J i -> yields (body i) (fun r => match r with inl i => J i | inr x => Q x end)) ->
  J i -> yields (loop fuel body i) Q.
Proof.
  intros Hb. revert i. induction fuel as [|fuel IH]; intros i Hi; [done|]. simpl.
  eapply yields_bind; [by apply Hb|]. intros [i'|x] H; [by apply IH|by apply yields_ret].
Qed.

Ltac any := eapply yields_bind; [apply yields_any|intros ? _].

Abbreviation std rs := (Forall (fun r => rd_fd r = 0 \/ rd_fd r = 1) rs).

Lemma yields_parseredirs : yields parseredirs (fun rs => std rs).
Proof.
  unfold parseredirs. any. apply (yields_loop _ _ (fun rs => std rs)); [|constructor].
  intros rs Hrs. any. case_match; [|by apply yields_ret].
  any. do 2 case_match. any. do 2 case_match. case_match; [done|]. apply yields_ret.
  apply Forall_app. split; [done|]. unfold redirection.
  repeat (case_match; [by apply Forall_singleton; simpl; auto|]). constructor.
Qed.

Lemma yields_parseargs rs : std rs -> yields (parseargs rs) (fun '(_, rs) => std rs).
Proof.
  intros Hrs. unfold parseargs. any. apply (yields_loop _ _ (fun '(_, rs) => std rs)); [|done].
  intros [argv rs0] Hrs0. any. case_match; [by apply yields_ret|].
  any. do 2 case_match. case_match; [by apply yields_ret|]. case_match; [done|]. cbv zeta. case_match; [done|].
  eapply yields_bind; [apply yields_parseredirs|]. intros rs' Hrs'. apply yields_ret. by apply Forall_app.
Qed.

Lemma yields_parse fuel :
  yields (parseline fuel) std_redirs /\ yields (parsepipe fuel) std_redirs /\
  yields (parseexec fuel) std_redirs /\ yields (parseblock fuel) std_redirs.
Proof.
  induction fuel as [|fuel (IHl & IHp & IHe & IHb)]; [done|].
  split_and!; cbn [parseline parsepipe parseexec parseblock].
  - eapply yields_bind; [exact IHp|]. intros c Hc. any. eapply (yields_bind _ _ std_redirs).
    + apply (yields_loop _ _ std_redirs); [|done]. intros c' Hc'. any.
      case_match; [any|]; by apply yields_ret.
    + intros c' Hc'. any. case_match; [|by apply yields_ret]. any.
      eapply yields_bind; [exact IHl|]. intros r Hr. by apply yields_ret.
  - eapply yields_bind; [exact IHe|]. intros c Hc. any. case_match; [|by apply yields_ret]. any.
    eapply yields_bind; [exact IHp|]. intros r Hr. by apply yields_ret.
  - any. case_match; [done|]. eapply yields_bind; [apply yields_parseredirs|]. intros rs Hrs.
    eapply yields_bind; [by apply yields_parseargs|]. intros [argv rs'] Hrs'.
    apply yields_ret. by apply std_redirs_wrap.
  - any. case_match; [done|]. any. eapply yields_bind; [exact IHl|]. intros c Hc. any. case_match; [done|].
    any. eapply yields_bind; [apply yields_parseredirs|]. intros rs Hrs. apply yields_ret. by apply std_redirs_wrap.
Qed.

Lemma parsecmd_std_redirs line c buf s : parsecmd line = Ret (c, buf) s -> std_redirs c.
Proof.
  intros H. assert (yields parsecmd (fun '(c, _) => std_redirs c)) as Hy; [|by apply (Hy _ _ _ H)].
  unfold parsecmd. any. eapply yields_bind; [apply yields_parse|]. intros c' Hc'. any. any.
  case_match; [done|by apply yields_ret].
Qed.

(** A process of the shell with its standard input and output and the pipe to
    the shell, and what a program it executes starts with: the same
    descriptors but for the pipe. *)
Definition child_fds (fd : Z) (T : fds) : Prop :=
  is_Some (T !! 0) /\ is_Some (T !! 1) /\ fd <> 0 /\ fd <> 1.

Definition inherits (fd : Z) (T T' : fds) : Prop :=
  is_Some (T' !! 0) /\ is_Some (T' !! 1) /\ T' !! fd = None /\
  forall n, n <> 0 -> n <> 1 -> n <> fd -> T' !! n = T !! n.

Lemma child_insert fd T n o : n = 0 \/ n = 1 -> child_fds fd T -> child_fds fd (<[n := o]> T).
Proof. intros Hn (H0 & H1 & N0 & N1). split_and!; try done; by apply lookup_insert_is_Some'; right. Qed.

Lemma inherits_insert fd T T' n o : n = 0 \/ n = 1 -> inherits fd (<[n := o]> T) T' -> inherits fd T T'.
Proof.
  intros Hn (H0 & H1 & Hf & Ho). split_and!; try done. intros m ? ? ?. rewrite Ho by done.
  apply lookup_insert_ne. lia.
Qed.

Section Table.
Context (open_ok : list Z -> Z -> bool) (fd : Z).

Lemma runcmd_table c T k :
  child_fds fd T -> std_redirs c ->
  Forall (fun p => inherits fd T p.2) (runcmd open_ok c fd T k).1.
Proof.
  revert T k. induction c as [argv|c IH f m n|l IHl r IHr|l IHl r IHr|c IH]; intros T k HT Hc; cbn [runcmd].
  - destruct argv as [|a argv]; constructor; [|done]. destruct HT as (H0 & H1 & N0 & N1). unfold fd_close.
    split_and!; simpl; [by rewrite lookup_delete_ne..|apply lookup_delete_eq|].
    intros n ? ? ?. by rewrite lookup_delete_ne.
  - destruct Hc as [Hc Hn]. destruct (open_ok f m); [|done].
    assert (fd_open (Opened f m) (fd_close n T) = <[n := Opened f m]> T) as ->.
    { destruct Hn as [-> | ->]; [apply reopen_0|apply reopen_1, HT]. }
    eapply Forall_impl; [apply IH; [by apply child_insert|done]|]. intros p. by apply inherits_insert.
  - destruct Hc as [Hl Hr]. destruct (fd_pipe k T) as [[[p0 p1] T2]|] eqn:E; [|done].
    pose proof HT as (H0 & H1 & _). rewrite (pipe_left _ _ _ _ _ H0 H1 E), (pipe_right _ _ _ _ _ H0 E).
    pose proof (IHl (<[1 := PipeWrite k]> T) (S k) ltac:(apply child_insert; auto) Hl) as Pl.
    destruct (runcmd _ l _ _ _) as [ps k1].
    pose proof (IHr (<[0 := PipeRead k]> T) k1 ltac:(apply child_insert; auto) Hr) as Pr.
    destruct (runcmd _ r _ _ _) as [qs k2].
    apply Forall_app. split; [eapply Forall_impl; [exact Pl|]|eapply Forall_impl; [exact Pr|]];
      intros p; apply inherits_insert; auto.
  - destruct Hc as [Hl Hr]. pose proof (IHl T k HT Hl) as H1. destruct (runcmd _ l _ _ _) as [ps k1].
    pose proof (IHr T k1 HT Hr) as H2. destruct (runcmd _ r _ _ _) as [qs k2]. simpl in *. by apply Forall_app.
  - by apply IH.
Qed.

(** Whatever line is parsed, every program that is executed for its command
    starts with its standard input and output open, without the pipe to the
    shell, and with every other descriptor as the process that runs the
    command had it; all ends of the pipes made on the way are closed but for
    the ones that are standard input or output. *)
Theorem runcmd_no_leak line c buf s T k argv T' :
  parsecmd line = Ret (c, buf) s -> child_fds fd T ->
  (argv, T') ∈ (runcmd open_ok (cmap text c) fd T k).1 ->
  is_Some (T' !! 0) /\ is_Some (T' !! 1) /\ T' !! fd = None /\
  forall n, n <> 0 -> n <> 1 -> n <> fd -> T' !! n = T !! n.
Proof.
  intros Hp HT Hin. pose proof (std_redirs_cmap text c (parsecmd_std_redirs _ _ _ _ Hp)) as Hc.
  exact (proj1 (Forall_forall _ _) (runcmd_table _ T k HT Hc) _ Hin).
Qed.

(** ** Pipelines *)

(** A pipeline of simple commands, and the tables of its programs. *)
Fixpoint pipeline (a : list (list Z)) (l : list (list (list Z))) : cmd (list Z) :=
  match l with
  | [] => EXEC a
  | b :: l => PIPE (EXEC a) (pipeline b l)
  end.

Fixpoint wired (T : fds) (k : nat) (a : list (list Z)) (l : list (list (list Z)))
  : list (list (list Z) * fds) :=
  match l with
  | [] => [(a, delete fd T)]
  | b :: l => (a, delete fd (<[1 := PipeWrite k]> T)) :: wired (<[0 := PipeRead k]> T) (S k) b l
  end.

(** Two descriptors are free. *)
Definition room (T : fds) : Prop :=
  exists p0 p1, 0 <= p0 < 16 /\ 0 <= p1 < 16 /\ p0 <> p1 /\ T !! p0 = None /\ T !! p1 = None.

Lemma lowest_some T n : 0 <= n < 16 -> T !! n = None -> exists m, lowest T = Some m.
Proof.
  intros Hn HT. unfold lowest. destruct (List.find _ _) as [m|] eqn:E; [eauto|].
  pose proof (List.find_none _ _ E n) as H. rewrite bool_decide_eq_false in H. destruct H; [|done].
  apply list_elem_of_In, elem_of_seqZ. rewrite NOFILE_eq. lia.
Qed.

Lemma fd_pipe_room k T : room T -> exists p0 p1 T', fd_pipe k T = Some (p0, p1, T').
Proof.
  intros (p0 & p1 & H0 & H1 & N & F0 & F1). unfold fd_pipe.
  destruct (lowest_some T p0 H0 F0) as [q0 E0]. rewrite E0. simpl.
  assert (exists q1, lowest (<[q0 := PipeRead k]> T) = Some q1) as [q1 ->]; [|simpl; eauto].
  destruct (decide (q0 = p0)) as [->|N0].
  - apply (lowest_some _ p1 H1). by rewrite lookup_insert_ne.
  - apply (lowest_some _ p0 H0). by rewrite lookup_insert_ne.
Qed.

Lemma room_insert T n o : is_Some (T !! n) -> room T -> room (<[n := o]> T).
Proof.
  intros [y Hy] (p0 & p1 & H0 & H1 & N & F0 & F1). exists p0, p1.
  rewrite !lookup_insert_ne by congruence. done.
Qed.

(** A pipeline is wired as it reads: the programs are executed from left to
    right, standard output of each is the writing end of a pipe of its own
    whose reading end is standard input of the next, and the first reads from
    and the last writes to where the shell's process did.  Two free descriptors
    are enough for a pipeline of any length. *)
Theorem runcmd_pipeline a l T k :
  child_fds fd T -> room T -> Forall (fun argv => argv <> []) (a :: l) ->
  runcmd open_ok (pipeline a l) fd T k = (wired T k a l, (k + length l)%nat).
Proof.
  revert a T k. induction l as [|b l IH]; intros a T k HT HR Ha; apply Forall_cons in Ha as [Ha Hl].
  - simpl. destruct a; [done|]. by rewrite Nat.add_0_r.
  - cbn [pipeline runcmd wired]. destruct (fd_pipe_room k T HR) as (p0 & p1 & T2 & E). rewrite E.
    pose proof HT as (H0 & H1 & _). rewrite (pipe_left _ _ _ _ _ H0 H1 E), (pipe_right _ _ _ _ _ H0 E).
    destruct a as [|w a]; [done|]. rewrite IH; [|apply child_insert; auto|by apply room_insert|done].
    simpl. f_equal. lia.
Qed.

End Table.

Lemma runcmd_no_leak_witness :
  let T' := <[0 := Inherited 0]> (<[1 := PipeWrite 0]> {[2 := Inherited 2]}) : fds in
  is_Some (T' !! 0) /\ is_Some (T' !! 1) /\ T' !! 5 = None /\
  forall n, n <> 0 -> n <> 1 -> n <> 5 ->
    T' !! n = (<[5 := PipeWrite 7]> (<[0 := Inherited 0]> (<[1 := Inherited 1]> {[2 := Inherited 2]})) : fds) !! n.
Proof.
  eapply (runcmd_no_leak (fun _ _ => true) 5 [97; 124; 98] _ _ _
           (<[5 := PipeWrite 7]> (<[0 := Inherited 0]> (<[1 := Inherited 1]> {[2 := Inherited 2]}))) 0 [[97]]).
  - vm_compute. reflexivity.
  - repeat split; try discriminate; eexists; reflexivity.
  - apply list_elem_of_In. vm_compute. left. reflexivity.
Defined.

Lemma runcmd_pipeline_witness :
  let T := <[5 := PipeWrite 7]> (<[0 := Inherited 0]> (<[1 := Inherited 1]> {[2 := Inherited 2]})) : fds in
  runcmd (fun _ _ => true) (PIPE (EXEC [[97]]) (EXEC [[98]])) 5 T 0
  = ([([[97]], delete 5 (<[1 := PipeWrite 0]> T));
      ([[98]], delete 5 (<[0 := PipeRead 0]> T))], 1%nat).
Proof.
  apply (runcmd_pipeline (fun _ _ => true) 5 [[97]] [[[98]]]
           (<[5 := PipeWrite 7]> (<[0 := Inherited 0]> (<[1 := Inherited 1]> {[2 := Inherited 2]}))) 0).
  - repeat split; try discriminate; eexists; reflexivity.
  - exists 3, 4. repeat split; lia || reflexivity.
  - repeat constructor; discriminate.
Defined.
