(* ===== verification/Ulib.v ===== *)
(** * The C library of user programs ([ulib.c], [printf.c])

    Strings that are only read are lists of bytes, with a NUL behind their
    last byte; functions that store work on the memory of file [Strings].
    [read] delivers the bytes of a list, and [write] appends to the output. *)

From S2P Require Import Prelude Monad State Strings Sched Console.

(** ** Strings *)

(** [strcpy]: the memory after, [None] when no NUL is met within [fuel]
    bytes. *)
Fixpoint u_strcpy (fuel : nat) (s t : Z) (m : mem) : option mem :=
  match fuel with
  | O => None
  | S fuel =>
      let c := ldb m t in
      let m := <[s := c]> m in
      if c =? 0 then Some m else u_strcpy fuel (s + 1) (t + 1) m
  end.

Fixpoint u_strcmp (p q : list Z) : Z :=
  match p, q with
  | a :: p', b :: q' =>
      if negb (a =? 0) && (a =? b) then u_strcmp p' q' else a - b
  | _, _ => cchar p - cchar q
  end.

Definition u_strlen (s : list Z) : Z := Z.of_nat (length (cstr s)).

Definition u_memset (dst c n : Z) (m : mem) : mem := stosb (Z.to_nat n) dst c m.

(** [memmove]: upwards only. *)
Definition u_memmove (dst src n : Z) (m : mem) : mem := copy_up (Z.to_nat n) dst src m.

(** [gets]: the bytes stored in [buf], the NUL included, and the input that is
    left.  [n] is [max - i]. *)
Fixpoint gets_loop (n : nat) (input : list Z) : list Z * list Z :=
  match n with
  | S (S _ as n') =>
      match input with
      | [] => ([0], [])
      | c :: input =>
          if (c =? 10) || (c =? 13) then ([c; 0], input)
          else let '(buf, rest) := gets_loop n' input in (c :: buf, rest)
      end
  | _ => ([0], input)
  end.

Definition u_gets (max : Z) (input : list Z) : list Z * list Z := gets_loop (Z.to_nat max) input.

(** [atoi]: the additions are those of [int]. *)
Fixpoint atoi_loop (n : Z) (s : list Z) : Z :=
  match s with
  | c :: s => if (48 <=? c) && (c <=? 57) then atoi_loop (s32 (n * 10 + c - 48)) s else n
  | [] => n
  end.

Definition atoi (s : list Z) : Z := atoi_loop 0 s.

(** ** [printf] *)

Definition u_digit (d : Z) : Z := if d <? 10 then 48 + d else 55 + d.

Fixpoint u_print_digits (fuel : nat) (x base : Z) : list Z :=
  match fuel with
  | O => []
  | S fuel =>
      u_digit (x mod base) ::
      (if x / base =? 0 then [] else u_print_digits fuel (x / base) base)
  end.

(** The bytes [printint] writes. *)
Definition u_printint (xx base : Z) (sgn : bool) : list Z :=
  let neg := sgn && (xx <? 0) in
  let x := if neg then u32 (- xx) else u32 xx in
  reverse (u_print_digits 32 x base ++ (if neg then [45] else [])).

(** The bytes [printf] writes; [pct] is the state ['%'].  [None] when it reads
    an argument it was not given. *)
Fixpoint u_printf (pct : bool) (fmt : list Z) (ap : list arg) : option (list Z) :=
  match fmt with
  | [] => Some []
  | c :: fmt =>
      if negb pct then
        if c =? ch_percent then u_printf true fmt ap
        else cons c <$> u_printf false fmt ap
      else if c =? ch_d then
        match ap with
        | AInt x :: ap => app (u_printint x 10 true) <$> u_printf false fmt ap
        | _ => None
        end
      else if (c =? ch_x) || (c =? ch_p) then
        match ap with
        | AInt x :: ap => app (u_printint x 16 false) <$> u_printf false fmt ap
        | _ => None
        end
      else if c =? ch_s then
        match ap with
        | AStr s :: ap => app (default str_null s) <$> u_printf false fmt ap
        | _ => None
        end
      else if c =? 99 then
        match ap with
        | AInt x :: ap => cons (u8 x) <$> u_printf false fmt ap
        | _ => None
        end
      else if c =? ch_percent then cons c <$> u_printf false fmt ap
      else app [ch_percent; c] <$> u_printf false fmt ap
  end.

(** ** Decimal numbers *)

Definition dec_value (l : list Z) : Z := foldl (fun n c => n * 10 + (c - 48)) 0 l.

Lemma u_print_digits_ok fuel x :
  0 <= x < 10 ^ Z.of_nat fuel -> (0 < fuel)%nat ->
  dec_value (reverse (u_print_digits fuel x 10)) = x /\
  Forall (fun c => 48 <= c <= 57) (u_print_digits fuel x 10).
Proof.
  revert x. induction fuel as [|fuel IH]; intros x Hx Hf; [lia|]. cbn [u_print_digits].
  pose proof (Z.mod_pos_bound x 10 ltac:(lia)) as Hm. pose proof (Z.div_mod x 10 ltac:(lia)) as Hd.
  assert (u_digit (x mod 10) = 48 + x mod 10) as Ed.
  { unfold u_digit. by rewrite (proj2 (Z.ltb_lt _ _)) by lia. }
  rewrite reverse_cons. unfold dec_value. rewrite foldl_app, Ed. simpl.
  destruct (Z.eqb_spec (x / 10) 0) as [E|E].
  - split; [simpl; lia|]. constructor; [lia|constructor].
  - rewrite Nat2Z.inj_succ, Z.pow_succ_r in Hx by lia.
    assert (0 <= x / 10) by (apply Z.div_pos; lia).
    assert (0 < fuel)%nat by (destruct fuel; [simpl in Hx; lia|lia]).
    destruct (IH (x / 10)) as [E1 E2]; [lia|done|].
    unfold dec_value in E1. rewrite E1. split; [lia|]. constructor; [lia|done].
Qed.

Lemma atoi_digits l n :
  Forall (fun c => 48 <= c <= 57) l -> 0 <= n ->
  foldl (fun n c => n * 10 + (c - 48)) n l < 2147483648 ->
  atoi_loop n l = foldl (fun n c => n * 10 + (c - 48)) n l.
Proof.
  intros Hl. revert n. induction Hl as [|c l Hc Hl IH]; intros n Hn Hb; [done|]. cbn [atoi_loop].
  rewrite (proj2 (Z.leb_le 48 c)), (proj2 (Z.leb_le c 57)) by lia. cbn [andb foldl] in *.
  assert (forall l n, Forall (fun c => 48 <= c <= 57) l -> 0 <= n ->
    n <= foldl (fun n c => n * 10 + (c - 48)) n l) as Hmono.
  { clear. intros l. induction l as [|c l IH]; intros n Hl Hn; simpl; [lia|].
    apply Forall_cons in Hl as [Hc Hl]. specialize (IH (n * 10 + (c - 48)) Hl ltac:(lia)). lia. }
  pose proof (Hmono l (n * 10 + (c - 48)) Hl ltac:(lia)).
  rewrite s32_id by lia. replace (n * 10 + c - 48) with (n * 10 + (c - 48)) by lia.
  apply IH; [lia|done].
Qed.

(** [atoi] reads back what [printint] prints: for every [int] that is not
    negative, the decimal digits [printf] writes for [%d] are read as the same
    number. *)
Theorem atoi_printint n :
  0 <= n < 2147483648 -> u_printf false [ch_percent; ch_d] [AInt n] = Some (u_printint n 10 true) /\
  atoi (u_printint n 10 true) = n.
Proof.
  intros Hn. split; [simpl; by rewrite app_nil_r|].
  unfold u_printint. rewrite (proj2 (Z.ltb_ge n 0)) by lia. rewrite andb_false_r, app_nil_r.
  rewrite u32_id by lia.
  destruct (u_print_digits_ok 32 n) as [E Hd]; [split; [lia|]|lia|].
  { apply Z.lt_trans with 2147483648; [lia|reflexivity]. }
  unfold atoi. rewrite atoi_digits; [exact E| |lia|].
  - by apply Forall_reverse.
  - unfold dec_value in E. lia.
Qed.

Lemma atoi_printint_witness : atoi (u_printint 1907 10 true) = 1907.
Proof. apply (atoi_printint 1907). lia. Defined.

(** ** [gets] *)

(** [gets] never overruns its buffer: it stores at most [max] bytes, the last
    of them the NUL, and takes exactly the bytes before the NUL from the input;
    it stops behind the first end of line, at the end of the input, or when the
    buffer is full. *)
Theorem gets_bounds max input :
  0 < max ->
  exists l, u_gets max input = (l ++ [0], drop (length l) input) /\
    l = take (length l) input /\ (length l + 1 <= Z.to_nat max)%nat /\
    (forall i c, l !! i = Some c -> (S i < length l)%nat -> c <> 10 /\ c <> 13) /\
    ((length l + 1 = Z.to_nat max)%nat \/ length l = length input \/ last l = Some 10 \/ last l = Some 13).
Proof.
  intros Hmax. unfold u_gets. assert (0 < Z.to_nat max)%nat as Hn by lia.
  remember (Z.to_nat max) as n eqn:En. clear max Hmax En. revert input.
  induction n as [|[|n] IH]; intros input; [lia|by exists []; split_and!; done || lia || auto|].
  destruct input as [|c input]; [by exists []; split_and!; done || simpl; lia || auto|].
  cbn [gets_loop]. destruct ((c =? 10) || (c =? 13)) eqn:Ec.
  - exists [c]. split_and!; [done|done|simpl; lia| |].
    + intros i x Hi Hl. simpl in Hl. lia.
    + apply orb_true_iff in Ec as [->%Z.eqb_eq| ->%Z.eqb_eq]; auto.
  - destruct (IH ltac:(lia) input) as (l & E & El & Hl & Hnl & Hend). cbn [gets_loop] in E. rewrite E.
    apply orb_false_iff in Ec as [E1%Z.eqb_neq E2%Z.eqb_neq].
    exists (c :: l). split_and!; [done|simpl; by f_equal|simpl; lia| |].
    + intros [|i] x Hi Hlt; simpl in *; [by simplify_eq|]. apply (Hnl i); [done|lia].
    + destruct l as [|d l]; [destruct Hend as [?|[?|[?|?]]]; simpl in *; try done; lia|].
      destruct Hend as [?|[?|[?|?]]]; simpl in *; auto; lia.
Qed.

Lemma gets_bounds_witness : exists l, u_gets 100 [97; 10; 98] = (l ++ [0], drop (length l) [97; 10; 98]).
Proof. destruct (gets_bounds 100 [97; 10; 98]) as (l & E & _); [lia|]. exists l. exact E. Defined.

(** ** [memmove] of the library *)

(** The library's [memmove] agrees with the kernel's whenever the destination
    does not overlap the end of the source, but it copies upwards only: for
    [src < dst < src + n] it repeats the first bytes. *)
Theorem u_memmove_overlap :
  (forall dst src n m, 0 <= n -> dst <= src \/ src + n <= dst ->
     u_memmove dst src n m = memmove dst src n m) /\
  load 1 2 (u_memmove 1 0 2 (store 0 [5; 6; 7] ∅)) = [5; 5] /\
  load 1 2 (memmove 1 0 2 (store 0 [5; 6; 7] ∅)) = [5; 6].
Proof.
  split; [|split; vm_compute; reflexivity]. intros dst src n m Hn Hd. unfold u_memmove, memmove.
  destruct (Z.ltb_spec src dst), (Z.ltb_spec dst (src + n)); simpl; try done. lia.
Qed.
