(* ===== verification/ShJobs.v ===== *)
(** * Jobs of the shell ([sh.c])

    The shell's jobs and their processes are records of its heap, linked by
    their addresses; 0 is the null pointer, and an access through a pointer to
    no record is [Undef].  [malloc] gives an address that was never used; a
    block has the size asked for rounded up to whole units of eight bytes, as
    [umalloc.c] allocates them.  The system call [pstat] is a parameter: the
    state of a process, or [None] when there is none. *)

From S2P Require Import Prelude Monad State Strings ShParse ShParseProps ShPrint ShRun Sched.
From S2P Require Import Console Ulib.

(** ** Data *)

Definition FOREGROUND : Z := 1.
Definition BACKGROUND : Z := 2.

Record job := mkjob {
  j_id : Z;
  nextjob : Z;
  headOfProcesses : Z;
  jobInFd : Z;
  j_type : Z;
  j_cmd : list Z;
}.

Record jobprocess := mkjobprocess {
  jp_pid : Z;
  nextProcess : Z;
}.

(** The shell: its heap, the variables of [main] and its descriptors; [pipes]
    counts the pipes made so far. *)
Record shell := mkshell {
  jobs : gmap Z job;
  procs : gmap Z jobprocess;
  brk : Z;
  jobsHead : Z;
  jobCount : Z;
  sh_fds : fds;
  pipes : nat;
}.

Definition set_jobs (f : gmap Z job -> gmap Z job) (s : shell) : shell :=
  mkshell (f (jobs s)) (procs s) (brk s) (jobsHead s) (jobCount s) (sh_fds s) (pipes s).
Definition set_procs (f : gmap Z jobprocess -> gmap Z jobprocess) (s : shell) : shell :=
  mkshell (jobs s) (f (procs s)) (brk s) (jobsHead s) (jobCount s) (sh_fds s) (pipes s).
Definition set_brk (b : Z) (s : shell) : shell :=
  mkshell (jobs s) (procs s) b (jobsHead s) (jobCount s) (sh_fds s) (pipes s).
Definition set_head (p : Z) (s : shell) : shell :=
  mkshell (jobs s) (procs s) (brk s) p (jobCount s) (sh_fds s) (pipes s).
Definition set_count (n : Z) (s : shell) : shell :=
  mkshell (jobs s) (procs s) (brk s) (jobsHead s) n (sh_fds s) (pipes s).
Definition set_fds (T : fds) (s : shell) : shell :=
  mkshell (jobs s) (procs s) (brk s) (jobsHead s) (jobCount s) T (pipes s).
Definition set_pipes (k : nat) (s : shell) : shell :=
  mkshell (jobs s) (procs s) (brk s) (jobsHead s) (jobCount s) (sh_fds s) k.

Abbreviation Sh := (M shell).

(** ** Records of the heap *)

Definition get_job (p : Z) : Sh job :=
  m ← gets jobs;
  match m !! p with Some j => mret j | None => undef end.
Definition get_proc (p : Z) : Sh jobprocess :=
  m ← gets procs;
  match m !! p with Some r => mret r | None => undef end.

Definition upd_job (p : Z) (f : job -> job) : Sh unit :=
  j ← get_job p; modify (set_jobs (<[p := f j]>)).
Definition upd_proc (p : Z) (f : jobprocess -> jobprocess) : Sh unit :=
  r ← get_proc p; modify (set_procs (<[p := f r]>)).

Definition free_job (p : Z) : Sh unit := get_job p;; modify (set_jobs (delete p)).
Definition free_proc (p : Z) : Sh unit := get_proc p;; modify (set_procs (delete p)).

Definition set_nextjob (q : Z) (j : job) : job :=
  mkjob (j_id j) q (headOfProcesses j) (jobInFd j) (j_type j) (j_cmd j).
Definition set_headOfProcesses (q : Z) (j : job) : job :=
  mkjob (j_id j) (nextjob j) q (jobInFd j) (j_type j) (j_cmd j).
Definition set_type (t : Z) (j : job) : job :=
  mkjob (j_id j) (nextjob j) (headOfProcesses j) (jobInFd j) t (j_cmd j).
Definition set_nextProcess (q : Z) (r : jobprocess) : jobprocess := mkjobprocess (jp_pid r) q.

(** [malloc] of [n] bytes: the address, and the bytes the block has. *)
Definition usable (n : Z) : Z := (n + 7) / 8 * 8.
Definition sh_malloc (n : Z) : Sh Z :=
  p ← gets brk;
  modify (set_brk (p + usable n + 8));;
  mret p.

(** ** [getJob], [getProcess], [addProcessToJob] *)

(** [malloc(strlen(buf))] and [strcpy]: the terminating NUL is the byte after
    those asked for. *)
Definition getJob (jobId inputFd : Z) (buf : list Z) : Sh Z :=
  p ← sh_malloc 24;
  c ← sh_malloc (Z.of_nat (length buf));
  if usable (Z.of_nat (length buf)) <? Z.of_nat (length buf) + 1 then undef
  else
    modify (set_jobs (<[p := mkjob jobId 0 0 inputFd FOREGROUND buf]>));;
    mret p.

Definition getProcess (pid : Z) : Sh Z :=
  p ← sh_malloc 8;
  modify (set_procs (<[p := mkjobprocess pid 0]>));;
  mret p.

Definition addProcessToJob (job pid : Z) : Sh unit :=
  newProcess ← getProcess pid;
  j ← get_job job;
  upd_proc newProcess (set_nextProcess (headOfProcesses j));;
  upd_job job (set_headOfProcesses newProcess).

(** ** Searching *)

Definition job_fuel : Sh nat := m ← gets jobs; mret (S (size m)).
Definition proc_fuel : Sh nat := m ← gets procs; mret (S (size m)).

Definition findJobById (head pid : Z) : Sh Z :=
  if head =? 0 then mret head
  else
    fuel ← job_fuel;
    loop fuel (fun currentJob =>
      if currentJob =? 0 then mret (inr currentJob)
      else
        j ← get_job currentJob;
        if j_id j =? pid then mret (inr currentJob)
        else mret (inl (nextjob j))) head.

Definition findForegroundJob (head : Z) : Sh Z :=
  if head =? 0 then mret head
  else
    fuel ← job_fuel;
    loop fuel (fun currentJob =>
      if currentJob =? 0 then mret (inr 0)
      else
        j ← get_job currentJob;
        if j_type j =? FOREGROUND then mret (inr currentJob)
        else mret (inl (nextjob j))) head.

(** ** Clearing *)

Section Clear.
Context (pstat : Z -> option procstat).

Definition dead (pid : Z) : bool :=
  match pstat pid with
  | None => true
  | Some st => bool_decide (ps_state st = ZOMBIE)
  end.

(** The first loop: the processes before the first live one are freed. *)
Definition clear_head_procs (fuel : nat) (head : Z) : Sh Z :=
  loop fuel (fun currentProcess =>
    if currentProcess =? 0 then mret (inr 0)
    else
      r ← get_proc currentProcess;
      if dead (jp_pid r) then free_proc currentProcess;; mret (inl (nextProcess r))
      else mret (inr currentProcess)) head.

(** The second loop. *)
Definition clear_tail_procs (fuel : nat) (currentProcess prevProcess : Z) : Sh unit :=
  loop fuel (fun '(currentProcess, prevProcess) =>
    if currentProcess =? 0 then mret (inr tt)
    else
      r ← get_proc currentProcess;
      if dead (jp_pid r) then
        upd_proc prevProcess (set_nextProcess (nextProcess r));;
        free_proc currentProcess;;
        prev ← get_proc prevProcess;
        next ← get_proc (nextProcess prev);
        mret (inl (nextProcess next, prevProcess))
      else mret (inl (nextProcess r, currentProcess))) (currentProcess, prevProcess).

Definition clearZombieProcesses (head : Z) : Sh Z :=
  if head =? 0 then mret head
  else
    fuel ← proc_fuel;
    newHead ← clear_head_procs fuel head;
    when (negb (newHead =? 0)) (
      r ← get_proc newHead;
      clear_tail_procs fuel (nextProcess r) newHead);;
    mret newHead.

Definition clear_job (currentJob : Z) : Sh bool :=
  j ← get_job currentJob;
  h ← clearZombieProcesses (headOfProcesses j);
  upd_job currentJob (set_headOfProcesses h);;
  mret (h =? 0).

Definition clearJobList (head : Z) : Sh Z :=
  if head =? 0 then mret head
  else
    fuel ← job_fuel;
    newHead ← loop fuel (fun currentJob =>
      if currentJob =? 0 then mret (inr 0)
      else
        j ← get_job currentJob;
        let temp := nextjob j in
        b ← clear_job currentJob;
        if b : bool then free_job currentJob;; mret (inl temp)
        else mret (inr currentJob)) head;
    when (negb (newHead =? 0)) (
      j ← get_job newHead;
      loop fuel (fun '(currentJob, prevJob) =>
        if currentJob =? 0 then mret (inr tt)
        else
          b ← clear_job currentJob;
          j ← get_job currentJob;
          if b : bool then
            upd_job prevJob (set_nextjob (nextjob j));;
            free_job currentJob;;
            prev ← get_job prevJob;
            if negb (nextjob prev =? 0) then
              next ← get_job (nextjob prev);
              mret (inl (nextjob next, prevJob))
            else mret (inl (0, prevJob))
          else mret (inl (nextjob j, currentJob))) (nextjob j, newHead));;
    mret newHead.

End Clear.

(** ** Listing and deleting *)

(** What [jobs] writes: for each job its number and command line, and its
    processes [pstat] knows about. *)
Definition printProcesses (pstat : Z -> option procstat) (head : Z) : Sh (list (Z * procstat)) :=
  fuel ← proc_fuel;
  loop fuel (fun '(currentProc, out) =>
    if currentProc =? 0 then mret (inr out)
    else
      r ← get_proc currentProc;
      let out := match pstat (jp_pid r) with
                 | Some st => out ++ [(jp_pid r, st)]
                 | None => out
                 end in
      mret (inl (nextProcess r, out))) (head, []).

Definition printAllJobs (pstat : Z -> option procstat) (head : Z)
  : Sh (list (Z * list Z * list (Z * procstat))) :=
  fuel ← job_fuel;
  loop fuel (fun '(currentJob, out) =>
    if currentJob =? 0 then mret (inr out)
    else
      j ← get_job currentJob;
      ps ← printProcesses pstat (headOfProcesses j);
      mret (inl (nextjob j, out ++ [(j_id j, j_cmd j, ps)]))) (head, []).

Definition deleteProcesses (head : Z) : Sh unit :=
  fuel ← proc_fuel;
  loop fuel (fun currentProc =>
    if currentProc =? 0 then mret (inr tt)
    else
      r ← get_proc currentProc;
      free_proc currentProc;;
      mret (inl (nextProcess r))) head.

Definition deleteJobList (head : Z) : Sh unit :=
  fuel ← job_fuel;
  loop fuel (fun currentJob =>
    if currentJob =? 0 then mret (inr tt)
    else
      j ← get_job currentJob;
      deleteProcesses (headOfProcesses j);;
      free_job currentJob;;
      mret (inl (nextjob j))) head.

(** ** Process numbers on their way to the shell

    The program's process copies its number as a string, [strcpy], and writes
    [strlen] bytes of it; the shell reads up to four bytes and takes the first
    one, a [char], for the number. *)

Definition send_pid (pid : Z) : list Z := cstr (le_enc 4 pid).

Definition receive_pid (pidBuf : list Z) : Z := s8 (default 0 (head pidBuf)).

(** ** [main] *)

(** What the shell does with a line. *)
Inductive event :=
| ToJob (fd : Z) (data : list Z)
| Chdir (path : list Z)
| Listing (out : list (Z * list Z * list (Z * procstat)))
| Resumed
| Started (programs : list (list (list Z) * fds)).

Section Main.
Context (open_ok : list Z -> Z -> bool).
Context (pstat : Z -> option procstat).

(** [pipe] in the shell. *)
Definition sh_pipe (msg : string) : Sh (Z * Z) :=
  k ← gets pipes;
  T ← gets sh_fds;
  match fd_pipe k T with
  | None => panic msg
  | Some (p0, p1, T) => modify (set_fds T);; modify (set_pipes (S k));; mret (p0, p1)
  end.

Definition sh_close (fd : Z) : Sh unit := T ← gets sh_fds; modify (set_fds (fd_close fd T)).

(** A syntax error leaves the shell. *)
Definition sh_parsecmd (buf : list Z) : Sh (cmd (list Z)) :=
  fun s =>
    match parsecmd buf with
    | Ret (c, _) _ => Ret (cmap text c) s
    | Panic msg _ => Panic msg s
    | _ => Undef s
    end.

Definition is_back {A} (c : cmd A) : bool := match c with BACK _ => true | _ => false end.

(** The part of the loop that starts a job: [received] is what the reads of
    the pipe of process numbers yield. *)
Definition start_job (buf : list Z) (received : list (list Z)) : Sh event :=
  '(pids0, pids1) ← sh_pipe "jobPids error";
  '(in0, in1) ← sh_pipe "jobInput error";
  n ← gets jobCount;
  modify (set_count (n + 1));;
  newJob ← getJob (n + 1) in1 buf;
  newcmd ← sh_parsecmd buf;
  when (is_back newcmd) (upd_job newJob (set_type BACKGROUND));;
  h ← gets jobsHead;
  when (negb (h =? 0)) (upd_job newJob (set_nextjob h));;
  modify (set_head newJob);;
  T ← gets sh_fds;
  k ← gets pipes;
  let '(ps, k) := runcmd open_ok newcmd pids1
    (fd_close pids0 (fd_close in1 (fd_close in0 (fd_dup in0 (fd_close 0 T))))) k in
  modify (set_pipes k);;
  sh_close in0;;
  sh_close pids1;;
  for_each received (fun pidBuf => addProcessToJob newJob (receive_pid pidBuf));;
  sh_close pids0;;
  mret (Started ps).

(** [buf[strlen(buf)-1] = 0]: the newline is chopped. *)
Definition chop (buf : list Z) : list Z := take (length buf - 1) buf.

(** One turn of the loop of [main], on the line [buf]. *)
Definition shell_line (buf : list Z) (received : list (list Z)) : Sh event :=
  h ← gets jobsHead;
  h ← clearJobList pstat h;
  modify (set_head h);;
  foregroundJob ← findForegroundJob h;
  if negb (foregroundJob =? 0) then
    j ← get_job foregroundJob;
    mret (ToJob (jobInFd j) buf)
  else if bool_decide (take 3 buf = [99; 100; 32]) then
    mret (Chdir (drop 3 (chop buf)))
  else if bool_decide (take 4 buf = [106; 111; 98; 115]) then
    out ← printAllJobs pstat h;
    mret (Listing out)
  else if bool_decide (take 3 buf = [102; 103; 32]) then
    findedJob ← findJobById h (atoi (drop 3 (chop buf)));
    upd_job findedJob (set_type FOREGROUND);;
    mret Resumed
  else if bool_decide (take 2 buf = [102; 103]) then
    upd_job h (set_type FOREGROUND);;
    mret Resumed
  else start_job buf received.

End Main.

(** A session: the lines, each with the processes as they are when it is read
    and the process numbers that arrive for it. *)
Record turn := mkturn {
  t_line : list Z;
  t_pstat : Z -> option procstat;
  t_received : list (list Z);
}.

Fixpoint session (open_ok : list Z -> Z -> bool) (ts : list turn) : Sh (list event) :=
  match ts with
  | [] => mret []
  | t :: ts =>
      e ← shell_line open_ok (t_pstat t) (t_line t) (t_received t);
      es ← session open_ok ts;
      mret (e :: es)
  end.
