(* ===== verification/ShJobsProps.v ===== *)
(** * Properties of the shell's jobs *)

From S2P Require Import Prelude Monad State Strings ShParse ShParseProps ShPrint ShRun Sched.
From S2P Require Import Console Ulib ShJobs.

(** ** Lists of processes in the heap

    [seg m p e l]: from [p] to [e] the processes [l], addresses and numbers,
    are linked. *)

Fixpoint seg (m : gmap Z jobprocess) (p e : Z) (l : list (Z * Z)) : Prop :=
  match l with
  | [] => p = e
  | (a, x) :: l => p = a /\ a <> 0 /\ exists n, m !! a = Some (mkjobprocess x n) /\ seg m n e l
  end.

Lemma seg_app m p e l1 l2 : seg m p e (l1 ++ l2) <-> exists q, seg m p q l1 /\ seg m q e l2.
Proof.
  revert p. induction l1 as [|[a x] l1 IH]; intros p; simpl; [naive_solver|].
  setoid_rewrite IH. naive_solver.
Qed.

Lemma seg_frame m m' p e l :
  (forall a, a ∈ l.*1 -> m' !! a = m !! a) -> seg m p e l -> seg m' p e l.
Proof.
  revert p. induction l as [|[a x] l IH]; intros p Hf; simpl; [done|].
  intros (-> & H0 & n & Hm & Hl). split_and!; [done|done|]. exists n. split.
  - rewrite Hf; [done|]. simpl. by left.
  - apply IH; [|done]. intros b Hb. apply Hf. simpl. by right.
Qed.

Lemma seg_size m p e l : NoDup l.*1 -> seg m p e l -> (length l <= size m)%nat.
Proof.
  revert m p. induction l as [|[a x] l IH]; intros m p Hnd Hs; simpl; [lia|].
  simpl in Hnd. apply NoDup_cons in Hnd as [Ha Hnd]. destruct Hs as (-> & _ & n & Hm & Hl).
  rewrite <- (insert_delete_id m a _ Hm), map_size_insert_None by apply lookup_delete_eq.
  apply le_n_S, (IH (delete a m) n Hnd). eapply seg_frame; [|exact Hl].
  intros b Hb. rewrite lookup_delete_ne; [done|]. intros ->. done.
Qed.

Definition addr (l : list (Z * Z)) : Z := match l with [] => 0 | (a, _) :: _ => a end.

Lemma seg_addr m p l : seg m p 0 l -> p = addr l.
Proof. destruct l as [|[a x] l]; simpl; [done|]. by intros (-> & _). Qed.

(** ** What [clearZombieProcesses] computes *)

Section Zap.
Context (pstat : Z -> option procstat).

(** The second loop on the processes behind the one [prevProcess] points to:
    [pend] is the process it has stepped over after a removal, which the next
    removal unlinks.  [None] when it reads through the null pointer. *)
Fixpoint zap_tail (pend l : list (Z * Z)) : option (list (Z * Z)) :=
  match l with
  | [] => Some pend
  | p :: t =>
      if dead pstat p.2 then
        match t with
        | [] => None
        | q :: t => zap_tail [q] t
        end
      else
        r ← zap_tail [] t;
        Some (pend ++ p :: r)
  end.

Fixpoint zap (l : list (Z * Z)) : option (list (Z * Z)) :=
  match l with
  | [] => Some []
  | p :: t =>
      if dead pstat p.2 then zap t
      else
        r ← zap_tail [] t;
        Some (p :: r)
  end.

(** It agrees with the live processes when none dies behind a live one. *)
Lemma zap_tail_live pend l : Forall (fun p => dead pstat p.2 = false) l -> zap_tail pend l = Some (pend ++ l).
Proof.
  revert pend. induction l as [|p l IH]; intros pend Hl; simpl; [by rewrite app_nil_r|].
  apply Forall_cons in Hl as [-> Hl]. by rewrite IH.
Qed.

Lemma zap_tail_last pend l p :
  Forall (fun p => dead pstat p.2 = false) l -> dead pstat p.2 = true -> zap_tail pend (l ++ [p]) = None.
Proof.
  revert pend. induction l as [|q l IH]; intros pend Hl Hp; simpl; [by rewrite Hp|].
  apply Forall_cons in Hl as [-> Hl]. by rewrite IH.
Qed.

Lemma zap_dead l1 l2 : Forall (fun p => dead pstat p.2 = true) l1 -> zap (l1 ++ l2) = zap l2.
Proof. induction 1 as [|p l1 Hp Hl IH]; simpl; [done|]. by rewrite Hp. Qed.

(** ** The loops *)

Lemma get_proc_run p r s : procs s !! p = Some r -> get_proc p s = Ret r s.
Proof. intros H. unfold get_proc. kstep. by rewrite H. Qed.

Lemma upd_proc_run p f r s :
  procs s !! p = Some r -> upd_proc p f s = Ret tt (set_procs (<[p := f r]>) s).
Proof. intros H. unfold upd_proc. by rewrite (bind_Ret _ _ _ _ _ (get_proc_run _ _ _ H)). Qed.

Lemma free_proc_run p r s : procs s !! p = Some r -> free_proc p s = Ret tt (set_procs (delete p) s).
Proof. intros H. unfold free_proc. by rewrite (bind_Ret _ _ _ _ _ (get_proc_run _ _ _ H)). Qed.

(** Only the processes of the list are touched. *)
Definition only_procs (l : list (Z * Z)) (s s' : shell) : Prop :=
  exists m, s' = set_procs (fun _ => m) s /\ forall a, a ∉ l.*1 -> m !! a = procs s !! a.

Lemma only_procs_refl l s : only_procs l s s.
Proof. exists (procs s). by destruct s. Qed.

Lemma only_procs_trans l1 l2 l s1 s2 s3 :
  only_procs l1 s1 s2 -> only_procs l2 s2 s3 -> l1.*1 ⊆ l.*1 -> l2.*1 ⊆ l.*1 -> only_procs l s1 s3.
Proof.
  intros (m1 & -> & H1) (m2 & -> & H2) I1 I2. exists m2. split; [done|].
  intros a Ha. rewrite H2 by set_solver. apply H1. set_solver.
Qed.

Definition done_or_undef {A} (m : Sh A) (r : option (list (Z * Z)))
    (Q : A -> list (Z * Z) -> shell -> Prop) (s : shell) : Prop :=
  match r with
  | Some l => exists a s', m s = Ret a s' /\ Q a l s'
  | None => exists s', m s = Undef s'
  end.

(** Removing the process at [c] behind [a]. *)
Lemma unlink m h a x n c y e pre pend l :
  seg m h a pre -> a <> 0 -> m !! a = Some (mkjobprocess x n) -> seg m n c pend ->
  m !! c = Some (mkjobprocess y e) -> seg m e 0 l ->
  NoDup ((pre ++ (a, x) :: pend ++ (c, y) :: l).*1) ->
  let m' := delete c (<[a := mkjobprocess x e]> m) in
  seg m' h a pre /\ m' !! a = Some (mkjobprocess x e) /\ seg m' e 0 l.
Proof.
  intros Hpre Ha Hma Hpend Hmc Hl Hnd. cbv zeta.
  rewrite fmap_app in Hnd. simpl in Hnd. rewrite fmap_app in Hnd. simpl in Hnd.
  apply NoDup_app in Hnd as (_ & D1 & Hnd). apply NoDup_cons in Hnd as (D2 & Hnd).
  apply NoDup_app in Hnd as (_ & D3 & Hnd). apply NoDup_cons in Hnd as (D4 & _).
  assert (a <> c) as Hac by set_solver. split_and!.
  - eapply seg_frame; [|exact Hpre]. intros b Hb. pose proof (D1 b Hb).
    rewrite lookup_delete_ne, lookup_insert_ne; set_solver.
  - by rewrite lookup_delete_ne, lookup_insert_eq.
  - eapply seg_frame; [|exact Hl]. intros b Hb. rewrite lookup_delete_ne, lookup_insert_ne; set_solver.
Qed.

Lemma only_procs_unlink l a c r s :
  a ∈ l.*1 -> c ∈ l.*1 -> only_procs l s (set_procs (delete c) (set_procs (<[a := r]>) s)).
Proof.
  intros Ha Hc. exists (delete c (<[a := r]> (procs s))). split; [done|].
  intros b Hb. rewrite lookup_delete_ne, lookup_insert_ne; set_solver.
Qed.

(** One round of the second loop that removes [c]. *)
Lemma clear_tail_dead fuel a x n c y e s :
  c <> 0 -> a <> c -> procs s !! a = Some (mkjobprocess x n) -> procs s !! c = Some (mkjobprocess y e) ->
  dead pstat y = true ->
  let s' := set_procs (delete c) (set_procs (<[a := mkjobprocess x e]>) s) in
  (procs s' !! e = None -> clear_tail_procs pstat (S fuel) c a s = Undef s') /\
  (forall r, procs s' !! e = Some r ->
     clear_tail_procs pstat (S fuel) c a s = clear_tail_procs pstat fuel (nextProcess r) a s').
Proof.
  intros Hc Hac Ha Hmc Hd. cbv zeta. set (s1 := set_procs (<[a := mkjobprocess x e]>) s).
  assert (procs s1 !! c = Some (mkjobprocess y e)) as Hc1.
  { unfold s1. simpl. by rewrite lookup_insert_ne. }
  assert (procs (set_procs (delete c) s1) !! a = Some (mkjobprocess x e)) as Ha1.
  { unfold s1. simpl. by rewrite lookup_delete_ne, lookup_insert_eq. }
  split; [intros He|intros r Hr]; unfold clear_tail_procs at 1; [cbn [loop]; apply bind_Undef|apply loop_next];
    rewrite (proj2 (Z.eqb_neq c 0) Hc), (bind_Ret _ _ _ _ _ (get_proc_run _ _ _ Hmc)); cbn [jp_pid nextProcess];
    rewrite Hd, (bind_Ret _ _ _ _ _ (upd_proc_run _ _ _ _ Ha)); fold s1;
    rewrite (bind_Ret _ _ _ _ _ (free_proc_run _ _ _ Hc1)), (bind_Ret _ _ _ _ _ (get_proc_run _ _ _ Ha1));
    cbn [nextProcess].
  - apply bind_Undef. unfold get_proc. kstep. by rewrite He.
  - by rewrite (bind_Ret _ _ _ _ _ (get_proc_run _ _ _ Hr)).
Qed.

Lemma clear_tail_run fuel h a x n c pre pend l s :
  (length l < fuel)%nat -> procs s !! 0 = None ->
  seg (procs s) h a pre -> a <> 0 -> procs s !! a = Some (mkjobprocess x n) ->
  seg (procs s) n c pend -> seg (procs s) c 0 l -> NoDup ((pre ++ (a, x) :: pend ++ l).*1) ->
  done_or_undef (clear_tail_procs pstat fuel c a) (zap_tail pend l)
    (fun _ r s' => seg (procs s') h 0 (pre ++ (a, x) :: r) /\ only_procs (pre ++ (a, x) :: pend ++ l) s s') s.
Proof.
  revert a x n c pre pend l s. induction fuel as [|fuel IH]; [lia|].
  intros a x n c pre pend [|[c' y] t] s Hf H0 Hpre Ha Hma Hpend Hl Hnd; simpl in Hl.
  - subst c. simpl. exists tt, s. split; [by apply loop_done|]. split; [|apply only_procs_refl].
    apply seg_app. exists a. split; [done|]. simpl. eauto.
  - destruct Hl as (<- & Hc & e & Hmc & Ht). cbn [zap_tail snd].
    assert (a <> c) as Hac.
    { rewrite fmap_app in Hnd. simpl in Hnd. rewrite fmap_app in Hnd. apply NoDup_app in Hnd as (_ & _ & Hnd).
      apply NoDup_cons in Hnd as (D2 & _). set_solver. }
    destruct (dead pstat y) eqn:Hd.
    + destruct (clear_tail_dead fuel a x n c y e s Hc Hac Hma Hmc Hd) as [Hu Hn]. cbv zeta in Hu, Hn.
      destruct (unlink _ h a x n c y e pre pend t Hpre Ha Hma Hpend Hmc Ht Hnd) as (P1 & P2 & P3). cbv zeta in *.
      set (s' := set_procs _ _) in Hu, Hn.
      assert (procs s' !! 0 = None) as H0'.
      { unfold s'. simpl. rewrite lookup_delete_ne, lookup_insert_ne by done. done. }
      assert (only_procs (pre ++ (a, x) :: pend ++ (c, y) :: t) s s') as Ho.
      { apply only_procs_unlink; rewrite fmap_app; simpl; rewrite fmap_app; set_solver. }
      destruct t as [|[q z] t]; [simpl in P3; subst e; exists s'; by apply Hu|].
      destruct P3 as (-> & Hq & f & Hmq & P3). unfold done_or_undef. rewrite (Hn _ Hmq).
      assert (NoDup ((pre ++ (a, x) :: [(q, z)] ++ t).*1)) as Hnd'.
      { eapply sublist_NoDup; [exact Hnd|]. apply fmap_sublist, sublist_app; [done|]. apply sublist_skip.
        apply sublist_inserts_l, sublist_cons. reflexivity. }
      specialize (IH a x q f pre [(q, z)] t s' ltac:(simpl in *; lia) H0' P1 Ha P2 ltac:(simpl; eauto) P3 Hnd').
      cbn [nextProcess]. unfold done_or_undef in IH. destruct (zap_tail [(q, z)] t) as [r|]; [|done].
      destruct IH as (u & s2 & Hr & Hs & Ho2). exists u, s2. split; [done|]. split; [done|].
      eapply only_procs_trans; [exact Ho|exact Ho2|done|]. rewrite !fmap_app. simpl. rewrite fmap_app. set_solver.
    + assert (clear_tail_procs pstat (S fuel) c a s = clear_tail_procs pstat fuel e c s) as E.
      { apply loop_next. rewrite (proj2 (Z.eqb_neq c 0) Hc), (bind_Ret _ _ _ _ _ (get_proc_run _ _ _ Hmc)).
        cbn [jp_pid nextProcess]. by rewrite Hd. }
      assert (seg (procs s) h c (pre ++ (a, x) :: pend)) as Hpre'.
      { apply seg_app. exists a. split; [done|]. simpl. eauto. }
      specialize (IH c y e e (pre ++ (a, x) :: pend) [] t s ltac:(simpl in *; lia) H0 Hpre' Hc Hmc
                    ltac:(done) Ht).
      rewrite <- app_assoc in IH. simpl in IH. specialize (IH Hnd). unfold done_or_undef in *. rewrite E.
      destruct (zap_tail [] t) as [r|]; [|done]. simpl.
      destruct IH as (u & s2 & Hr & Hs & Ho). exists u, s2. split; [done|]. split; [|done].
      by rewrite <- app_assoc in Hs.
Qed.

Fixpoint skip_dead (l : list (Z * Z)) : list (Z * Z) :=
  match l with
  | [] => []
  | p :: t => if dead pstat p.2 then skip_dead t else l
  end.

Lemma zap_skip l :
  zap l = match skip_dead l with [] => Some [] | p :: t => r ← zap_tail [] t; Some (p :: r) end.
Proof. induction l as [|p l IH]; simpl; [done|]. by destruct (dead pstat p.2). Qed.

Lemma skip_dead_suffix l : skip_dead l `sublist_of` l.
Proof.
  induction l as [|p l IH]; simpl; [done|]. destruct (dead pstat p.2); [by apply sublist_cons|reflexivity].
Qed.

Lemma clear_head_run fuel p l s :
  (length l < fuel)%nat -> procs s !! 0 = None -> seg (procs s) p 0 l -> NoDup (l.*1) ->
  exists s', clear_head_procs pstat fuel p s = Ret (addr (skip_dead l)) s' /\
    procs s' !! 0 = None /\ seg (procs s') (addr (skip_dead l)) 0 (skip_dead l) /\ only_procs l s s'.
Proof.
  revert p l s. induction fuel as [|fuel IH]; [lia|].
  intros p [|[a x] t] s Hf H0 Hl Hnd; simpl in Hl.
  - subst p. exists s. split; [by apply loop_done|]. split_and!; done || apply only_procs_refl.
  - destruct Hl as (-> & Ha & n & Hma & Ht). simpl in Hnd. apply NoDup_cons in Hnd as [Hna Hnd].
    cbn [skip_dead snd]. destruct (dead pstat x) eqn:Hd.
    + assert (clear_head_procs pstat (S fuel) a s = clear_head_procs pstat fuel n (set_procs (delete a) s)) as ->.
      { apply loop_next. rewrite (proj2 (Z.eqb_neq a 0) Ha), (bind_Ret _ _ _ _ _ (get_proc_run _ _ _ Hma)).
        cbn [jp_pid nextProcess]. by rewrite Hd, (bind_Ret _ _ _ _ _ (free_proc_run _ _ _ Hma)). }
      assert (seg (delete a (procs s)) n 0 t) as Ht'.
      { eapply seg_frame; [|exact Ht]. intros b Hb. rewrite lookup_delete_ne; [done|]. by intros ->. }
      destruct (IH n t (set_procs (delete a) s)) as (s' & Hr & H0' & Hs & Ho); [simpl in Hf; lia| |done|done|].
      { simpl. by rewrite lookup_delete_ne. }
      exists s'. split; [done|]. split; [done|]. split; [done|].
      eapply (only_procs_trans [(a, x)] t); [|exact Ho|set_solver|set_solver].
      exists (delete a (procs s)). split; [done|]. intros b Hb. rewrite lookup_delete_ne; set_solver.
    + exists s. split; [|split_and!; [done| |apply only_procs_refl]].
      * apply loop_done. rewrite (proj2 (Z.eqb_neq a 0) Ha), (bind_Ret _ _ _ _ _ (get_proc_run _ _ _ Hma)).
        cbn [jp_pid nextProcess]. by rewrite Hd.
      * simpl. eauto.
Qed.

Lemma clearZombieProcesses_run p l s :
  procs s !! 0 = None -> seg (procs s) p 0 l -> NoDup (l.*1) ->
  done_or_undef (clearZombieProcesses pstat p) (zap l)
    (fun h r s' => h = addr r /\ seg (procs s') h 0 r /\ only_procs l s s') s.
Proof.
  intros H0 Hl Hnd. destruct l as [|[a x] l].
  { simpl in Hl. subst p. exists 0, s. split; [done|]. split_and!; done || apply only_procs_refl. }
  pose proof (seg_size _ _ _ _ Hnd Hl) as Hsz. unfold clearZombieProcesses.
  pose proof Hl as (-> & Ha & _). rewrite (proj2 (Z.eqb_neq a 0) Ha). rewrite zap_skip.
  set (L := (a, x) :: l) in *. set (fuel := S (size (procs s))).
  destruct (clear_head_run fuel a L s) as (s1 & Hr & H01 & Hs1 & Ho1); [unfold fuel; lia|done..|].
  assert (proc_fuel s = Ret fuel s) as Hpf by done.
  assert (NoDup (skip_dead L).*1) as Hnd1.
  { eapply sublist_NoDup; [exact Hnd|]. apply fmap_sublist, skip_dead_suffix. }
  pose proof (sublist_length _ _ (skip_dead_suffix L)) as Hlen.
  assert ((skip_dead L).*1 ⊆ L.*1) as Hin.
  { intros b Hb. eapply sublist_subseteq; [|exact Hb]. apply fmap_sublist, skip_dead_suffix. }
  destruct (skip_dead L) as [|[b y] t].
  - exists 0, s1. split; [|done]. rewrite (bind_Ret _ _ _ _ _ Hpf), (bind_Ret _ _ _ _ _ Hr). done.
  - destruct Hs1 as (_ & Hb & n & Hmb & Ht).
    pose proof (clear_tail_run fuel b b y n n [] [] t s1) as Hrun. simpl app in Hrun.
    specialize (Hrun ltac:(unfold fuel; simpl in *; lia) H01 ltac:(done) Hb Hmb ltac:(done) Ht Hnd1).
    assert (forall r, (fuel0 ← proc_fuel; newHead ← clear_head_procs pstat fuel0 a;
      when (negb (newHead =? 0)) (r ← get_proc newHead; clear_tail_procs pstat fuel0 (nextProcess r) newHead);;
      mret newHead) s = r <-> (clear_tail_procs pstat fuel n b;; mret b) s1 = r) as E.
    { intros r. rewrite (bind_Ret _ _ _ _ _ Hpf), (bind_Ret _ _ _ _ _ Hr). cbn [addr].
      rewrite (proj2 (Z.eqb_neq b 0) Hb). cbn [negb when]. unfold mbind, M_bind.
      by rewrite (get_proc_run _ _ _ Hmb). }
    unfold done_or_undef in *. destruct (zap_tail [] t) as [r|]; simpl.
    + destruct Hrun as (u & s2 & Hr2 & Hs2 & Ho2). exists b, s2. split; [apply E; by rewrite (bind_Ret _ _ _ _ _ Hr2)|].
      split; [done|]. split; [done|]. by eapply only_procs_trans.
    + destruct Hrun as (s2 & Hr2). exists s2. apply E. by apply bind_Undef.
Qed.

(** A job's dead processes are cleared: from a list whose dead processes all
    come before the live ones, [clearZombieProcesses] returns the list of the
    live ones, in order, and touches nothing but records of the list. *)
Theorem clearZombieProcesses_live p dd ll s :
  procs s !! 0 = None -> seg (procs s) p 0 (dd ++ ll) -> NoDup ((dd ++ ll).*1) ->
  Forall (fun p => dead pstat p.2 = true) dd -> Forall (fun p => dead pstat p.2 = false) ll ->
  exists s', clearZombieProcesses pstat p s = Ret (addr ll) s' /\
    seg (procs s') (addr ll) 0 ll /\ only_procs (dd ++ ll) s s'.
Proof.
  intros H0 Hl Hnd Hd Hll. pose proof (clearZombieProcesses_run p _ s H0 Hl Hnd) as H.
  assert (zap (dd ++ ll) = Some ll) as E.
  { rewrite zap_dead by done. destruct ll as [|q ll]; [done|]. apply Forall_cons in Hll as [Hq Hll].
    simpl. rewrite Hq. by rewrite zap_tail_live. }
  rewrite E in H. destruct H as (h & s' & Hr & -> & Hs & Ho). by exists s'.
Qed.

(** A process that dies behind a live one breaks the shell: when the last
    process of a job is dead and one before it is live,
    [clearZombieProcesses] unlinks the last record and then reads the next
    pointer of the record behind it, through the null pointer. *)
Theorem clearZombieProcesses_last p dd q ll z s :
  procs s !! 0 = None -> seg (procs s) p 0 (dd ++ q :: ll ++ [z]) -> NoDup ((dd ++ q :: ll ++ [z]).*1) ->
  Forall (fun p => dead pstat p.2 = true) dd -> Forall (fun p => dead pstat p.2 = false) (q :: ll) ->
  dead pstat z.2 = true ->
  exists s', clearZombieProcesses pstat p s = Undef s'.
Proof.
  intros H0 Hl Hnd Hd Hll Hz. pose proof (clearZombieProcesses_run p _ s H0 Hl Hnd) as H.
  assert (zap (dd ++ q :: ll ++ [z]) = None) as E; [|by rewrite E in H].
  rewrite zap_dead by done. apply Forall_cons in Hll as [Hq Hll]. simpl. rewrite Hq. by rewrite zap_tail_last.
Qed.

End Zap.

(** A shell with one job of two processes, and the processes alive. *)
Definition demo_shell : shell :=
  mkshell {[ 100 := mkjob 1 0 200 5 BACKGROUND [97; 124; 98; 38; 10] ]}
    (<[200 := mkjobprocess 8 300]> {[300 := mkjobprocess 7 0]}) 400 100 1
    (<[5 := PipeWrite 1]> (<[0 := Inherited 0]> (<[1 := Inherited 1]> {[2 := Inherited 2]}))) 2.

Definition alive (pids : list Z) (pid : Z) : option procstat :=
  if decide (pid ∈ pids) then Some (mkprocstat [97] 4096 3 RUNNABLE) else None.

Lemma clearZombieProcesses_live_witness :
  exists s', clearZombieProcesses (alive [7]) 200 demo_shell = Ret 300 s' /\
    seg (procs s') 300 0 [(300, 7)] /\ only_procs [(200, 8); (300, 7)] demo_shell s'.
Proof.
  apply (clearZombieProcesses_live (alive [7]) 200 [(200, 8)] [(300, 7)]).
  - reflexivity.
  - simpl. repeat split; try discriminate. eexists. split; [reflexivity|]. repeat split; try discriminate.
    eexists. split; reflexivity.
  - apply (bool_decide_unpack _). vm_compute. exact I.
  - repeat constructor.
  - repeat constructor.
Defined.

Lemma clearZombieProcesses_last_witness :
  exists s', clearZombieProcesses (alive [8]) 200 demo_shell = Undef s'.
Proof.
  apply (clearZombieProcesses_last (alive [8]) 200 [] (200, 8) [] (300, 7)).
  - reflexivity.
  - simpl. repeat split; try discriminate. eexists. split; [reflexivity|]. repeat split; try discriminate.
    eexists. split; reflexivity.
  - apply (bool_decide_unpack _). vm_compute. exact I.
  - constructor.
  - repeat constructor.
  - reflexivity.
Defined.

(** ** Process numbers *)

(** The numbers of the first 127 processes reach the shell, and no others: a
    number, sent as a string and received as one [char], is the one that was
    sent exactly when it is at most 127. *)
Theorem pid_transport pid :
  0 < pid < 2 ^ 31 -> receive_pid (send_pid pid) = pid <-> pid <= 127.
Proof.
  intros Hp. unfold send_pid. change (le_enc 4 pid) with (pid mod 256 :: le_enc 3 (pid / 256)).
  pose proof (Z.mod_pos_bound pid 256 ltac:(lia)) as Hb. pose proof (Z.div_mod pid 256 ltac:(lia)) as Hdm.
  cbn [cstr]. unfold receive_pid. destruct (Z.eqb_spec (pid mod 256) 0) as [E|E]; simpl; unfold s8, u8; cbv zeta.
  - change (0 mod 2 ^ 8 <? 2 ^ 7) with true. cbv iota. change (0 mod 2 ^ 8) with 0. lia.
  - change (2 ^ 8) with 256. change (2 ^ 7) with 128. rewrite Z.mod_mod by lia.
    destruct (Z.ltb_spec (pid mod 256) 128); [|lia].
    split; [lia|]. intros. apply Z.mod_small. lia.
Qed.

Lemma pid_transport_witness : receive_pid (send_pid 127) = 127 <-> 127 <= 127.
Proof. apply (pid_transport 127). lia. Defined.

(** ** The shell's descriptors *)

(** What a function does to the shell's table of descriptors, when it
    returns. *)
Definition fds_rel {A} (R : A -> fds -> fds -> Prop) (m : Sh A) : Prop :=
  forall s a s', m s = Ret a s' -> R a (sh_fds s) (sh_fds s').

Abbreviation keeps m := (fds_rel (fun _ T T' => T' = T) m).

Lemma keeps_bind {A B} (m : Sh A) (f : A -> Sh B) : keeps m -> (forall a, keeps (f a)) -> keeps (m ≫= f).
Proof. intros Hm Hf s b s' (a & s1 & H1 & H2)%bind_inv_Ret. by rewrite (Hf _ _ _ _ H2), (Hm _ _ _ H1). Qed.

Lemma keeps_ret {A} (a : A) : keeps (mret a).
Proof. intros s b s' E. by injection E as _ <-. Qed.

Lemma keeps_gets {A} (f : shell -> A) : keeps (gets f).
Proof. intros s b s' E. by injection E as _ <-. Qed.

Lemma keeps_modify f : (forall s, sh_fds (f s) = sh_fds s) -> keeps (modify f).
Proof. intros Hf s b s' E. injection E as _ <-. apply Hf. Qed.

Lemma keeps_undef {A} : keeps (undef : Sh A).
Proof. intros s b s' E. discriminate E. Qed.

Lemma keeps_loop {I R} fuel (body : I -> Sh (I + R)) i : (forall i, keeps (body i)) -> keeps (loop fuel body i).
Proof.
  intros Hb. revert i. induction fuel as [|fuel IH]; intros i; [intros s b s' E; discriminate E|].
  simpl. apply keeps_bind; [apply Hb|]. intros [i'|x]; [apply IH|apply keeps_ret].
Qed.

Lemma keeps_for_each {I} (l : list I) (body : I -> Sh unit) : (forall i, keeps (body i)) -> keeps (for_each l body).
Proof.
  intros Hb. induction l as [|i l IH]; simpl; [apply keeps_ret|]. apply keeps_bind; [apply Hb|]. by intros _.
Qed.

(** [keeps_solve] goes through the statements of a function. *)
Ltac keeps_solve :=
  repeat first
    [ apply keeps_ret | apply keeps_gets | apply keeps_undef
    | apply keeps_modify; done
    | assumption
    | apply keeps_bind; [|intros ?]
    | apply keeps_loop; intros ?
    | apply keeps_for_each; intros ?
    | progress unfold get_job, get_proc, upd_job, upd_proc, free_job, free_proc, job_fuel, proc_fuel, sh_malloc,
        when
    | case_match ].

Lemma keeps_clearZombieProcesses pstat p : keeps (clearZombieProcesses pstat p).
Proof. unfold clearZombieProcesses, clear_head_procs, clear_tail_procs. keeps_solve. Qed.

Lemma keeps_clearJobList pstat p : keeps (clearJobList pstat p).
Proof.
  pose proof (keeps_clearZombieProcesses pstat) as H. unfold clearJobList, clear_job.
  repeat (keeps_solve; try apply H).
Qed.

Lemma keeps_findForegroundJob p : keeps (findForegroundJob p).
Proof. unfold findForegroundJob. keeps_solve. Qed.

Lemma keeps_findJobById p n : keeps (findJobById p n).
Proof. unfold findJobById. keeps_solve. Qed.

Lemma keeps_printAllJobs pstat p : keeps (printAllJobs pstat p).
Proof. unfold printAllJobs, printProcesses. keeps_solve. Qed.

Lemma keeps_getJob n fd buf : keeps (getJob n fd buf).
Proof. unfold getJob. keeps_solve. Qed.

Lemma keeps_addProcessToJob p n : keeps (addProcessToJob p n).
Proof. unfold addProcessToJob, getProcess. keeps_solve. Qed.

Lemma keeps_sh_parsecmd buf : keeps (sh_parsecmd buf).
Proof. intros s c s' E. unfold sh_parsecmd in E. repeat case_match; simplify_eq. done. Qed.

(** A parsed command redirects standard input and output only. *)
Lemma sh_parsecmd_redirs buf s c s' : sh_parsecmd buf s = Ret c s' -> std_redirs c.
Proof.
  unfold sh_parsecmd. destruct (parsecmd buf) as [[c0 b] s0| | | |] eqn:E; try discriminate.
  intros H. injection H as <- <-. apply std_redirs_cmap. by eapply parsecmd_std_redirs.
Qed.

Lemma sh_pipe_inv msg s p s' :
  sh_pipe msg s = Ret p s' -> fd_pipe (pipes s) (sh_fds s) = Some (p.1, p.2, sh_fds s').
Proof.
  unfold sh_pipe. do 2 kstep. destruct (fd_pipe _ _) as [[[p0 p1] T]|]; [|discriminate].
  do 2 kstep. intros E. by injection E as <- <-.
Qed.

Lemma start_job_fds open_ok buf received s e s' :
  start_job open_ok buf received s = Ret e s' ->
  exists k1 k2 pids0 pids1 in0 in1 T1 T2,
    fd_pipe k1 (sh_fds s) = Some (pids0, pids1, T1) /\ fd_pipe k2 T1 = Some (in0, in1, T2) /\
    sh_fds s' = fd_close pids0 (fd_close pids1 (fd_close in0 T2)) /\
    exists c k, std_redirs c /\ e = Started (runcmd open_ok c pids1
      (fd_close pids0 (fd_close in1 (fd_close in0 (fd_dup in0 (fd_close 0 T2))))) k).1.
Proof.
  unfold start_job. intros ([pids0 pids1] & s1 & P1%sh_pipe_inv & H)%bind_inv_Ret.
  apply bind_inv_Ret in H as ([in0 in1] & s2 & P2%sh_pipe_inv & H). simpl in P1, P2.
  apply bind_inv_Ret in H as (n & s3 & Hn%keeps_gets & H).
  apply bind_inv_Ret in H as (u1 & s4 & Hu1 & H). apply (keeps_modify (set_count (n + 1)) ltac:(done)) in Hu1.
  apply bind_inv_Ret in H as (j & s5 & Hj%keeps_getJob & H).
  apply bind_inv_Ret in H as (c & s6 & Hc & H). pose proof (sh_parsecmd_redirs _ _ _ _ Hc) as Hstd.
  apply keeps_sh_parsecmd in Hc.
  apply bind_inv_Ret in H as (u2 & s7 & Hu2 & H).
  assert (sh_fds s7 = sh_fds s6) as Ku2 by (revert Hu2; apply (fun K => K s6 u2 s7); keeps_solve).
  apply bind_inv_Ret in H as (h & s8 & Hh%keeps_gets & H).
  apply bind_inv_Ret in H as (u3 & s9 & Hu3 & H).
  assert (sh_fds s9 = sh_fds s8) as Ku3 by (revert Hu3; apply (fun K => K s8 u3 s9); keeps_solve).
  apply bind_inv_Ret in H as (u4 & s10 & Hu4 & H). apply (keeps_modify (set_head j) ltac:(done)) in Hu4.
  erewrite bind_Ret in H by reflexivity. erewrite bind_Ret in H by reflexivity.
  assert (sh_fds s10 = sh_fds s2) as ET by congruence. rewrite ET in H.
  destruct (runcmd _ _ _ _ _) as [ps k'] eqn:Er.
  apply bind_inv_Ret in H as (u5 & s13 & Hu5 & H). apply (keeps_modify (set_pipes k') ltac:(done)) in Hu5.
  unfold sh_close in H. erewrite bind_Ret in H by reflexivity. erewrite bind_Ret in H by reflexivity.
  apply bind_inv_Ret in H as (u6 & s14 & Hu6 & H).
  assert (sh_fds s14 = fd_close pids1 (fd_close in0 (sh_fds s13))) as Ku6.
  { rewrite (keeps_for_each _ _ (fun i => keeps_addProcessToJob _ _) _ _ _ Hu6). done. }
  erewrite bind_Ret in H by reflexivity. injection H as <- <-.
  exists (pipes s), (pipes s1), pids0, pids1, in0, in1, (sh_fds s1), (sh_fds s2).
  split; [done|]. split; [done|]. split; [simpl; rewrite Ku6; do 3 f_equal; congruence|].
  exists c, (pipes s10). split; [done|]. by rewrite Er.
Qed.

(** Descriptors are numbers below 16. *)
Definition fds_ok (T : fds) : Prop := forall n, is_Some (T !! n) -> 0 <= n < 16.

Lemma fds_ok_size T : fds_ok T -> (size T <= 16)%nat.
Proof.
  intros H. rewrite <- size_dom. transitivity (size (list_to_set (seqZ 0 16) : gset Z)); [|vm_compute; lia].
  apply subseteq_size. intros n Hn%elem_of_dom%H. apply elem_of_list_to_set, elem_of_seqZ. lia.
Qed.

Lemma fds_ok_insert T n o : fds_ok T -> 0 <= n < 16 -> fds_ok (<[n := o]> T).
Proof. intros H Hn m [-> |[_ Hm]]%lookup_insert_is_Some; [done|by apply H]. Qed.

Lemma fd_pipe_ok k T p0 p1 T' :
  fd_pipe k T = Some (p0, p1, T') -> fds_ok T ->
  fds_ok T' /\ size T' = S (S (size T)) /\ 0 <= p1 < 16.
Proof.
  intros E HT. pose proof E as (F0 & F1 & N & ->)%fd_pipe_inv. unfold fd_pipe in E.
  destruct (lowest T) as [q0|] eqn:E0; [|done]. simpl in E.
  destruct (lowest (<[q0 := _]> T)) as [q1|] eqn:E1; [|done]. simplify_eq/=.
  apply lowest_free in E0 as [_ B0]. apply lowest_free in E1 as [_ B1]. rewrite NOFILE_eq in *.
  split; [|split; [|lia]].
  - apply fds_ok_insert; [apply fds_ok_insert; [done|lia]|lia].
  - rewrite !map_size_insert_None; [done|done|by rewrite lookup_insert_ne].
Qed.

(** The descriptors of a job: the shell is left with one more, the writing
    end of the input pipe, and the programs get standard input and output and
    the descriptors the shell had before. *)
Lemma start_job_table open_ok buf received s e s' :
  start_job open_ok buf received s = Ret e s' ->
  is_Some (sh_fds s !! 0) -> is_Some (sh_fds s !! 1) ->
  exists ps k in1, e = Started ps /\ sh_fds s !! in1 = None /\
    sh_fds s' = <[in1 := PipeWrite k]> (sh_fds s) /\
    forall argv T', (argv, T') ∈ ps -> is_Some (T' !! 0) /\ is_Some (T' !! 1) /\
      forall n, n <> 0 -> n <> 1 -> T' !! n = sh_fds s !! n.
Proof.
  intros (k1 & k2 & pids0 & pids1 & in0 & in1 & T1 & T2 & E1 & E2 & Ef & c & k & Hc & ->)%start_job_fds H0 H1.
  apply fd_pipe_inv in E1 as (F0 & F1 & N & ->). apply fd_pipe_inv in E2 as (G0 & G1 & N' & ->).
  apply lookup_insert_None in G0 as [G0 Gp]. apply lookup_insert_None in G0 as [G0 Gq].
  apply lookup_insert_None in G1 as [G1 Hp]. apply lookup_insert_None in G1 as [G1 Hq].
  assert (forall n m, is_Some (sh_fds s !! n) -> sh_fds s !! m = None -> m <> n) as Hne.
  { intros n m [y Hy] Hm ->. congruence. }
  eexists _, k2, in1. split; [done|]. split; [done|]. split.
  - rewrite Ef. unfold fd_close. rewrite (delete_insert_ne _ in0), delete_insert_id by (done || (rewrite !lookup_insert_ne by done; done)).
    rewrite (delete_insert_ne _ pids1), delete_insert_id by (done || (rewrite !lookup_insert_ne by done; done)).
    by rewrite delete_insert_ne, delete_insert_id.
  - intros argv T' Hin. set (T2 := <[in1 := PipeWrite k2]> _) in *.
    assert (T2 !! in0 = Some (PipeRead k2)) as Ein.
    { unfold T2. by rewrite lookup_insert_ne, lookup_insert_eq by done. }
    assert (fd_dup in0 (fd_close 0 T2) = <[0 := PipeRead k2]> T2) as Ed.
    { unfold fd_dup, fd_close. rewrite lookup_delete_ne, Ein by (by apply not_eq_sym, Hne). apply (reopen_0 (PipeRead k2) T2). }
    rewrite Ed in Hin. set (Tc := fd_close pids0 (fd_close in1 (fd_close in0 (<[0 := PipeRead k2]> T2)))) in *.
    assert (forall n, n <> 0 -> n <> pids1 -> Tc !! n = sh_fds s !! n) as HTc.
    { intros n Hn0 Hn1. unfold Tc, fd_close, T2. rewrite !lookup_delete.
      repeat case_decide; subst; try (symmetry; assumption). by rewrite !lookup_insert_ne by congruence. }
    assert (child_fds pids1 Tc) as HC.
    { split_and!; [| |by apply Hne|by apply Hne].
      - unfold Tc, fd_close. rewrite !lookup_delete_ne by (by apply Hne). by rewrite lookup_insert_eq.
      - rewrite HTc; [done|done|]. by apply not_eq_sym, Hne. }
    destruct (proj1 (Forall_forall _ _) (runcmd_table open_ok pids1 c Tc k HC Hc) _ Hin) as (I0 & I1 & If & Io).
    simpl in *. split_and!; [done..|]. intros n Hn0 Hn1. destruct (decide (n = pids1)) as [->|Hn].
    + by rewrite If, F1.
    + by rewrite Io, HTc.
Qed.

(** A command leaves one more descriptor open, and needs four. *)
Lemma start_job_size open_ok buf received s e s' :
  start_job open_ok buf received s = Ret e s' -> fds_ok (sh_fds s) ->
  fds_ok (sh_fds s') /\ size (sh_fds s') = S (size (sh_fds s)) /\ (size (sh_fds s) <= 12)%nat /\ exists ps, e = Started ps.
Proof.
  intros (k1 & k2 & pids0 & pids1 & in0 & in1 & T1 & T2 & E1 & E2 & Ef & c & k & _ & ->)%start_job_fds Hok.
  destruct (fd_pipe_ok _ _ _ _ _ E1 Hok) as (Hok1 & Hs1 & _).
  destruct (fd_pipe_ok _ _ _ _ _ E2 Hok1) as (Hok2 & Hs2 & B).
  pose proof (fds_ok_size _ Hok2).
  apply fd_pipe_inv in E1 as (F0 & F1 & N & ->). apply fd_pipe_inv in E2 as (G0 & G1 & N' & ->).
  apply lookup_insert_None in G0 as [G0 Gp]. apply lookup_insert_None in G0 as [G0 Gq].
  apply lookup_insert_None in G1 as [G1 Hp]. apply lookup_insert_None in G1 as [G1 Hq].
  assert (sh_fds s' = <[in1 := PipeWrite k2]> (sh_fds s)) as ->.
  { rewrite Ef. unfold fd_close. rewrite (delete_insert_ne _ in0), delete_insert_id by (done || (rewrite !lookup_insert_ne by done; done)).
    rewrite (delete_insert_ne _ pids1), delete_insert_id by (done || (rewrite !lookup_insert_ne by done; done)).
    by rewrite delete_insert_ne, delete_insert_id. }
  split; [by apply fds_ok_insert|]. split; [by rewrite map_size_insert_None|]. split; [lia|eauto].
Qed.

Definition is_started (e : event) : bool := match e with Started _ => true | _ => false end.

(** A line starts a job, or leaves the descriptors alone. *)
Lemma shell_line_cases open_ok pstat buf received s e s' :
  shell_line open_ok pstat buf received s = Ret e s' ->
  (is_started e = false /\ sh_fds s' = sh_fds s) \/
  exists s1, sh_fds s1 = sh_fds s /\ start_job open_ok buf received s1 = Ret e s'.
Proof.
  unfold shell_line. intros H.
  apply bind_inv_Ret in H as (h0 & s1 & K1%keeps_gets & H).
  apply bind_inv_Ret in H as (h & s2 & K2%keeps_clearJobList & H).
  apply bind_inv_Ret in H as (u & s3 & K3 & H). apply (keeps_modify (set_head h) ltac:(done)) in K3.
  apply bind_inv_Ret in H as (f & s4 & K4%keeps_findForegroundJob & H).
  assert (sh_fds s4 = sh_fds s) as K by congruence. clear K1 K2 K3 K4.
  repeat match type of H with
  | (if ?b then _ else _) _ = _ => destruct b
  end.
  - apply bind_inv_Ret in H as (j & s5 & Hj & H). injection H as <- <-. left. split; [done|]. rewrite <- K.
    revert Hj. apply (fun X => X s4 j s5). keeps_solve.
  - injection H as <- <-. by left.
  - apply bind_inv_Ret in H as (out & s5 & Hj%keeps_printAllJobs & H). injection H as <- <-. left. split; [done|congruence].
  - apply bind_inv_Ret in H as (j & s5 & Hj%keeps_findJobById & H).
    apply bind_inv_Ret in H as (u2 & s6 & Hu & H). injection H as <- <-. left. split; [done|]. rewrite <- K, <- Hj.
    revert Hu. apply (fun X => X s5 u2 s6). keeps_solve.
  - apply bind_inv_Ret in H as (u2 & s6 & Hu & H). injection H as <- <-. left. split; [done|]. rewrite <- K.
    revert Hu. apply (fun X => X s4 u2 s6). keeps_solve.
  - right. by exists s4.
Qed.

Lemma shell_line_size open_ok pstat buf received s e s' :
  shell_line open_ok pstat buf received s = Ret e s' -> fds_ok (sh_fds s) ->
  if is_started e then
    fds_ok (sh_fds s') /\ size (sh_fds s') = S (size (sh_fds s)) /\ (size (sh_fds s) <= 12)%nat
  else sh_fds s' = sh_fds s.
Proof.
  intros [[-> H]|(s1 & E & H)]%shell_line_cases Hok; [done|]. rewrite <- E in Hok |- *.
  destruct (start_job_size _ _ _ _ _ _ H Hok) as (? & ? & ? & ps & ->). done.
Qed.

Lemma session_size open_ok ts s es s' :
  session open_ok ts s = Ret es s' -> fds_ok (sh_fds s) -> (size (sh_fds s) <= 13)%nat ->
  (size (sh_fds s) + length (List.filter is_started es) <= 13)%nat.
Proof.
  revert s es. induction ts as [|t ts IH]; intros s es H Hok Hsz; simpl in H.
  - injection H as <- <-. simpl. lia.
  - apply bind_inv_Ret in H as (e & s1 & H1 & H). apply bind_inv_Ret in H as (es' & s2 & H2 & H).
    injection H as <- <-. pose proof (shell_line_size _ _ _ _ _ _ _ H1 Hok) as Hl. simpl.
    destruct (is_started e).
    + destruct Hl as (Hok1 & E & Hle). specialize (IH _ _ H2 Hok1 ltac:(lia)). simpl. lia.
    + rewrite <- Hl in Hok, Hsz |- *. by apply IH.
Qed.

(** C37: A shell runs ten commands at most: it keeps the writing end of every job's
    input pipe open and never closes it, so a session that starts with the
    three standard descriptors, whatever the lines and the processes, has
    started no more than ten jobs for as long as the shell has not left; the
    next command finds no room for its pipes. *)
Theorem session_commands_bounded open_ok ts s es s' :
  sh_fds s = <[0 := Inherited 0]> (<[1 := Inherited 1]> {[2 := Inherited 2]}) ->
  session open_ok ts s = Ret es s' -> (length (List.filter is_started es) <= 10)%nat.
Proof.
  intros HT H. pose proof (session_size _ _ _ _ _ H) as Hs. rewrite HT in Hs.
  replace (size _) with 3%nat in Hs by (vm_compute; done). enough (3 + length (List.filter is_started es) <= 13)%nat by lia.
  apply Hs; [|lia]. intros n Hn. destruct (decide (0 <= n < 16)) as [|N]; [done|].
  rewrite !lookup_insert_ne, lookup_singleton_ne in Hn by lia. by destruct Hn.
Qed.

(** A new shell, and ten background commands. *)
Definition new_shell : shell :=
  mkshell ∅ ∅ 4096 0 0 (<[0 := Inherited 0]> (<[1 := Inherited 1]> {[2 := Inherited 2]})) 0.

Definition background_turn (pid : Z) : turn := mkturn [97; 38; 10] (fun _ => Some (mkprocstat [97] 4096 3 SLEEPING)) [[pid]].

(** The number of jobs a session has started, or the message it left with. *)
Definition session_result (r : outcome shell (list event)) : nat + string :=
  match r with
  | Ret es _ => inl (length (List.filter is_started es))
  | Panic msg _ => inr msg
  | _ => inr "undefined"%string
  end.

Lemma ten_commands :
  session_result (session (fun _ _ => true) (map background_turn (seqZ 3 10)) new_shell) = inl 10%nat.
Proof. vm_compute. reflexivity. Qed.

Lemma eleven_commands :
  session_result (session (fun _ _ => true) (map background_turn (seqZ 3 11)) new_shell) = inr "jobInput error"%string.
Proof. vm_compute. reflexivity. Qed.

Lemma session_commands_bounded_witness :
  exists es s', session (fun _ _ => true) (map background_turn (seqZ 3 10)) new_shell = Ret es s' /\
    length (List.filter is_started es) = 10%nat /\ (length (List.filter is_started es) <= 10)%nat.
Proof.
  pose proof ten_commands as E10.
  destruct (session (fun _ _ => true) (map background_turn (seqZ 3 10)) new_shell) as [es s'| | | |] eqn:E;
    try discriminate E10.
  exists es, s'. split; [reflexivity|]. split; [by injection E10|].
  exact (session_commands_bounded _ _ new_shell es s' eq_refl E).
Defined.

(** ** The descriptors of the programs *)

(** [T] is [T0] and [m] more descriptors, all of them writing ends of pipes. *)
Definition leaked (m : nat) (T0 T : fds) : Prop :=
  size T = (size T0 + m)%nat /\ (forall n, is_Some (T0 !! n) -> T !! n = T0 !! n) /\
  (forall n, T0 !! n = None -> T !! n = None \/ exists k, T !! n = Some (PipeWrite k)).

Lemma leaked_refl T : leaked 0 T T.
Proof. split_and!; [lia|done|by left]. Qed.

Lemma leaked_more m T0 T n k :
  T !! n = None -> leaked m T0 T -> leaked (S m) T0 (<[n := PipeWrite k]> T).
Proof.
  intros Hn (Hs & Hk & Hl). split_and!.
  - rewrite map_size_insert_None by done. lia.
  - intros i Hi. rewrite lookup_insert_ne; [by apply Hk|]. intros ->. rewrite (Hk _ Hi) in Hn.
    rewrite Hn in Hi. by destruct Hi.
  - intros i Hi. rewrite lookup_insert. case_decide; [right; eauto|by apply Hl].
Qed.

(** A program has the table of its shell but for standard input and output. *)
Definition program_of (T T' : fds) : Prop :=
  is_Some (T' !! 0) /\ is_Some (T' !! 1) /\ forall n, n <> 0 -> n <> 1 -> T' !! n = T !! n.

Lemma session_tables open_ok T0 ts : forall m s es s',
  is_Some (T0 !! 0) -> is_Some (T0 !! 1) -> leaked m T0 (sh_fds s) ->
  session open_ok ts s = Ret es s' ->
  forall i ps argv T', es !! i = Some (Started ps) -> (argv, T') ∈ ps ->
    exists T, leaked (m + length (List.filter is_started (take i es))) T0 T /\ program_of T T'.
Proof.
  induction ts as [|t ts IH]; intros m s es s' H0 H1 HL H i ps argv T' Hi Hin; simpl in H.
  { injection H as <- <-. by rewrite lookup_nil in Hi. }
  apply bind_inv_Ret in H as (e & s1 & He & H). apply bind_inv_Ret in H as (es' & s2 & Hes & H).
  injection H as <- <-. pose proof HL as (_ & Hk & _).
  destruct (shell_line_cases _ _ _ _ _ _ _ He) as [[Ee Ef]|(s3 & E3 & Hj)].
  - destruct i as [|i]; [injection Hi as ->; done|]. simpl in Hi.
    destruct (IH m s1 es' s2 H0 H1 ltac:(by rewrite Ef) Hes i ps argv T' Hi Hin) as (T & HT & Hp).
    exists T. simpl. by rewrite Ee.
  - destruct (start_job_table _ _ _ _ _ _ Hj) as (ps' & k & in1 & -> & Hn & Ef & Hp); rewrite ?E3 in *.
    { by rewrite (Hk _ H0). }
    { by rewrite (Hk _ H1). }
    destruct i as [|i].
    + injection Hi as <-. exists (sh_fds s). simpl. rewrite Nat.add_0_r. split; [done|]. by eapply Hp.
    + simpl in Hi. destruct (IH (S m) s1 es' s2 H0 H1) with (i := i) (ps := ps) (argv := argv) (T' := T')
        as (T & HT & HpT); [rewrite Ef; by apply leaked_more|done..|].
      exists T. simpl. by rewrite Nat.add_succ_r.
Qed.

(** C36: What a program finds open.  In a session of a shell whose standard
    input and output are open, every program of every job starts with its
    standard input and output open and otherwise with the descriptors the
    shell started with, and one more for each job the session has started
    before: the writing ends of the input pipes of the earlier jobs, which the
    shell never closes.  So it has no descriptor of the pipes of its own job
    or of its own pipeline but for standard input and output, but it does
    inherit a pipe of every earlier job. *)
Theorem session_programs open_ok ts s es s' i ps argv T' :
  is_Some (sh_fds s !! 0) -> is_Some (sh_fds s !! 1) -> session open_ok ts s = Ret es s' ->
  es !! i = Some (Started ps) -> (argv, T') ∈ ps ->
  is_Some (T' !! 0) /\ is_Some (T' !! 1) /\
  exists T : fds, (forall n, n <> 0 -> n <> 1 -> T' !! n = T !! n) /\
    size T = (size (sh_fds s) + length (List.filter is_started (take i es)))%nat /\
    (forall n, is_Some (sh_fds s !! n) -> T !! n = sh_fds s !! n) /\
    (forall n, sh_fds s !! n = None -> T !! n = None \/ exists k, T !! n = Some (PipeWrite k)).
Proof.
  intros H0 H1 H Hi Hin.
  destruct (session_tables open_ok _ ts 0 s es s' H0 H1 (leaked_refl _) H i ps argv T' Hi Hin)
    as (T & (HT & Hk & Hl) & P0 & P1 & Hp).
  split_and!; [done..|]. by exists T.
Qed.

(** The first program of the [i]-th line of a session that has not left. *)
Definition program_at (i : nat) (r : outcome shell (list event)) : option (list (list Z) * fds) :=
  match r with
  | Ret es _ => match es !! i with Some (Started (p :: _)) => Some p | _ => None end
  | _ => None
  end.

Lemma program_at_inv i r p :
  program_at i r = Some p -> exists es s' ps, r = Ret es s' /\ es !! i = Some (Started (p :: ps)).
Proof.
  unfold program_at. intros H. destruct r as [es s'| | | |]; try discriminate.
  destruct (es !! i) as [[| | | |[|q ps]]|] eqn:E; try discriminate. injection H as ->. by exists es, s', ps.
Qed.

Definition two_commands : outcome shell (list event) :=
  session (fun _ _ => true) (map background_turn [3; 4]) new_shell.

(** The second of two background commands inherits the pipe of the first. *)
Lemma session_programs_witness :
  exists argv T', program_at 1 two_commands = Some (argv, T') /\ argv = [[97]] /\
    is_Some (T' !! 0) /\ is_Some (T' !! 1) /\ T' !! 6 = Some (PipeWrite 1).
Proof.
  destruct (program_at 1 two_commands) as [[argv T']|] eqn:E; [|vm_compute in E; discriminate].
  destruct (program_at_inv _ _ _ E) as (es & s' & ps & Er & Ei).
  destruct (session_programs (fun _ _ => true) (map background_turn [3; 4]) new_shell es s' 1 ((argv, T') :: ps) argv T'
    (ex_intro _ (Inherited 0) eq_refl) (ex_intro _ (Inherited 1) eq_refl) Er Ei) as (H0 & H1 & _); [left|].
  exists argv, T'. split; [reflexivity|]. split; [vm_compute in E; by injection E as <- _|].
  split; [exact H0|]. split; [exact H1|]. vm_compute in E. injection E as _ <-. reflexivity.
Defined.

(** ** Further defects *)

(** [getJob] asks for the length of the line without its NUL: for a line of a
    multiple of eight bytes, [strcpy] writes past the end of the block. *)
Lemma getJob_overflow n fd buf s :
  Z.of_nat (length buf) mod 8 = 0 -> exists s', getJob n fd buf s = Undef s'.
Proof.
  intros Hm. unfold getJob. do 2 kstep.
  rewrite (proj2 (Z.ltb_lt _ _)); [by eexists|]. unfold usable.
  pose proof (Z.div_mod (Z.of_nat (length buf)) 8 ltac:(lia)).
  rewrite <- (Z.div_unique (Z.of_nat (length buf) + 7) 8 (Z.of_nat (length buf) / 8) 7); lia.
Qed.

(** [fg] with the number of a job that is not there writes through the null
    pointer. *)
Lemma fg_no_job open_ok pstat received :
  exists s', shell_line open_ok pstat [102; 103; 32; 53; 10] received new_shell = Undef s'.
Proof. eexists. vm_compute. reflexivity. Qed.

(** A line with a syntax error ends the shell itself: it is parsed before the
    [fork]. *)
Lemma syntax_error_exits open_ok pstat received :
  exists s', shell_line open_ok pstat [97; 60; 10] received new_shell = Panic "missing file for redirection" s'.
Proof. eexists. vm_compute. reflexivity. Qed.
