(* ===== verification/Grep.v ===== *)
(** * [grep] and [wc]

    The pattern matcher of [grep.c] against a definition of what a pattern
    means; the loop that reads lines into the static buffer, byte by byte as
    the code keeps it; and the counters of [wc.c].

    A string is the list of its bytes before the NUL.  What [read] yields is
    cut into chunks, as a pipe or the console does; a read takes at most the
    number of bytes asked for. *)

From S2P Require Import Prelude ShParse Ulib.

Definition ch_dot : Z := 46.
Definition ch_star : Z := 42.
Definition ch_dollar : Z := 36.
Definition ch_caret : Z := 94.
Definition ch_nl : Z := 10.

(** ** The matcher *)

(** [matchstar c re text], with [matchhere re] for the rest of the pattern. *)
Fixpoint matchstar (c : Z) (here : list Z -> bool) (text : list Z) : bool :=
  here text ||
  match text with
  | [] => false
  | x :: t => if (x =? c) || (c =? ch_dot) then matchstar c here t else false
  end.

Fixpoint matchhere (re text : list Z) : bool :=
  match re with
  | [] => true
  | c :: re' =>
      let one (_ : unit) :=
        if (c =? ch_dollar) && (match re' with [] => true | _ => false end) then
          match text with [] => true | _ => false end
        else
          match text with
          | x :: t => if (c =? ch_dot) || (c =? x) then matchhere re' t else false
          | [] => false
          end in
      match re' with
      | d :: re'' => if d =? ch_star then matchstar c (matchhere re'') text else one tt
      | [] => one tt
      end
  end.

(** The loop of [match] over the suffixes of the text. *)
Fixpoint match_any (re text : list Z) : bool :=
  matchhere re text || match text with [] => false | _ :: t => match_any re t end.

Definition grep_match (re text : list Z) : bool :=
  match re with
  | c :: re' => if c =? ch_caret then matchhere re' text else match_any re text
  | [] => match_any re text
  end.

(** ** The loop of [grep] *)

Definition GBUF : nat := 1024.

(** [strchr(p, '\n')] in the buffer: the offset from [p] of the newline, or
    [None] at a NUL; [inr] when the search leaves the buffer. *)
Fixpoint find_nl (l : list Z) : option nat + unit :=
  match l with
  | [] => inr tt
  | c :: l =>
      if c =? 0 then inl None
      else if c =? ch_nl then inl (Some 0%nat)
      else match find_nl l with
           | inl (Some n) => inl (Some (S n))
           | r => r
           end
  end.

(** The inner loop: the lines from [p] on.  The buffer, [p] and the output at
    its end. *)
Fixpoint grep_lines (fuel : nat) (pattern : list Z) (buf : list Z) (p : nat) (out : list Z)
  : option (list Z * nat * list Z) :=
  match fuel with
  | O => None
  | S fuel =>
      match find_nl (drop p buf) with
      | inr _ => None
      | inl None => Some (buf, p, out)
      | inl (Some n) =>
          let q := (p + n)%nat in
          let text := take n (drop p buf) in
          if grep_match pattern text then
            grep_lines fuel pattern buf (S q) (out ++ text ++ [ch_nl])
          else grep_lines fuel pattern (<[q := 0]> buf) (S q) out
      end
  end.

(** [read] of at most [max] bytes. *)
Definition read_chunk (max : nat) (input : list (list Z)) : list Z * list (list Z) :=
  match input with
  | [] => ([], [])
  | c :: input => if (length c <=? max)%nat then (c, input) else (take max c, drop max c :: input)
  end.

(** The outer loop.  [None] when an access leaves the buffer: also when data
    arrives with [m], the number of bytes kept from the last round,
    negative. *)
Fixpoint grep_loop (fuel : nat) (pattern : list Z) (input : list (list Z)) (buf : list Z) (m : Z) (out : list Z)
  : option (list Z) :=
  match fuel with
  | O => Some out
  | S fuel =>
      let '(data, input) := read_chunk (Z.to_nat (Z.of_nat GBUF - m)) input in
      match data with
      | [] => Some out
      | _ =>
          if m <? 0 then None
          else
            let buf := take (Z.to_nat m) buf ++ data ++ drop (Z.to_nat m + length data) buf in
            let m := m + Z.of_nat (length data) in
            match grep_lines (S GBUF) pattern buf 0 out with
            | None => None
            | Some (buf, p, out) =>
                let m := if (p =? 0)%nat then 0 else m in
                if 0 <? m then
                  let m := m - Z.of_nat p in
                  let n := Z.to_nat m in
                  let buf := take n (drop p buf) ++ drop n buf in
                  grep_loop fuel pattern input buf m out
                else grep_loop fuel pattern input buf m out
            end
      end
  end.

(** [grep(pattern, fd)]; a round takes a byte at least. *)
Definition grep (pattern : list Z) (input : list (list Z)) : option (list Z) :=
  grep_loop (S (length (concat input))) pattern input (replicate GBUF 0) 0 [].

(** ** [wc] *)

Record wc_state := mkwc { wc_l : Z; wc_w : Z; wc_c : Z; wc_inword : bool }.

Definition wc_blanks : list Z := [32; 13; 9; 10; 11].

Definition wc_byte (s : wc_state) (b : Z) : wc_state :=
  let c := s32 (wc_c s + 1) in
  let l := if b =? ch_nl then s32 (wc_l s + 1) else wc_l s in
  if strchr wc_blanks b then mkwc l (wc_w s) c false
  else if negb (wc_inword s) then mkwc l (s32 (wc_w s + 1)) c true
  else mkwc l (wc_w s) c true.

Fixpoint wc_loop (fuel : nat) (input : list (list Z)) (s : wc_state) : wc_state :=
  match fuel with
  | O => s
  | S fuel =>
      let '(data, input) := read_chunk 512 input in
      match data with
      | [] => s
      | _ => wc_loop fuel input (foldl wc_byte s data)
      end
  end.

Definition wc (input : list (list Z)) : Z * Z * Z :=
  let s := wc_loop (S (length (concat input))) input (mkwc 0 0 0 false) in
  (wc_l s, wc_w s, wc_c s).
