(* ===== verification/GrepProps.v ===== *)
(** * Properties of [grep] and [wc] *)

From S2P Require Import Prelude ShParse Ulib Grep.

(** ** What a pattern means *)

(** A character of a pattern: a dot stands for any. *)
Definition accepts (c x : Z) : Prop := c = ch_dot \/ x = c.

Inductive item := One (c : Z) | Star (c : Z).

(** The words a sequence of items stands for. *)
Inductive lang : list item -> list Z -> Prop :=
| lang_nil : lang [] []
| lang_one c x its w : accepts c x -> lang its w -> lang (One c :: its) (x :: w)
| lang_star c s its w : Forall (accepts c) s -> lang its w -> lang (Star c :: its) (s ++ w).

(** The items of a pattern, and whether it ends with the dollar sign. *)
Fixpoint items (re : list Z) : list item * bool :=
  match re with
  | [] => ([], false)
  | c :: re' =>
      match re' with
      | d :: re'' =>
          if d =? ch_star then let '(its, e) := items re'' in (Star c :: its, e)
          else let '(its, e) := items re' in (One c :: its, e)
      | [] => if c =? ch_dollar then ([], true) else ([One c], false)
      end
  end.

(** A text matches when a part of it is a word of the pattern; a caret ties
    the part to the start of the text, a dollar sign to its end. *)
Definition matches (re text : list Z) : Prop :=
  let '(start, re) := match re with
                      | c :: re' => if c =? ch_caret then (true, re') else (false, re)
                      | [] => (false, re)
                      end in
  exists pre mid post, text = pre ++ mid ++ post /\ lang (items re).1 mid /\
    (start = true -> pre = []) /\ ((items re).2 = true -> post = []).

(** ** The matcher is right *)

Lemma accepts_spec c x : (x =? c) || (c =? ch_dot) = true <-> accepts c x.
Proof. unfold accepts. rewrite orb_true_iff, !Z.eqb_eq. tauto. Qed.

Lemma matchstar_spec c here text :
  matchstar c here text = true <-> exists s t, text = s ++ t /\ Forall (accepts c) s /\ here t = true.
Proof.
  induction text as [|x t IH]; cbn [matchstar].
  - rewrite orb_false_r. split; [intros; by exists [], []|].
    intros (s & t & E & _ & H). symmetry in E. by apply app_nil in E as [-> ->].
  - rewrite orb_true_iff. split.
    + intros [H|H]; [by exists [], (x :: t)|]. destruct (_ || _) eqn:Ha; [|done]. apply accepts_spec in Ha.
      apply IH in H as (s & t' & -> & Hs & Ht). exists (x :: s), t'. split_and!; [done|by constructor|done].
    + intros ([|y s] & t' & E & Hs & Ht); simpl in E; [left; by subst|right].
      injection E as <- ->. apply Forall_cons in Hs as [Hx Hs]. apply accepts_spec in Hx. rewrite Hx.
      apply IH. eauto.
Qed.

(** What [matchhere] decides. *)
Definition here_spec (re text : list Z) : Prop :=
  exists mid post, text = mid ++ post /\ lang (items re).1 mid /\ ((items re).2 = true -> post = []).

Lemma here_one c re text :
  (head re <> Some ch_star) -> ~ (c = ch_dollar /\ re = []) ->
  here_spec (c :: re) text <-> exists x t, text = x :: t /\ accepts c x /\ here_spec re t.
Proof.
  intros Hs Hd. assert (items (c :: re) = (One c :: (items re).1, (items re).2)) as E.
  { destruct re as [|d re]; simpl.
    - destruct (Z.eqb_spec c ch_dollar); [by destruct Hd|done].
    - destruct (Z.eqb_spec d ch_star) as [->|_]; [done|]. by destruct (match re with [] => _ | _ => _ end). }
  unfold here_spec. rewrite E. simpl. split.
  - intros (mid & post & -> & Hl & He). inversion Hl as [|? x ? w Ha Hw|]; subst.
    exists x, (w ++ post). split; [done|]. split; [done|]. by exists w, post.
  - intros (x & t & -> & Ha & mid & post & -> & Hl & He). exists (x :: mid), post. split_and!; [done|by constructor|done].
Qed.

Lemma here_star c re text :
  here_spec (c :: ch_star :: re) text <-> exists s t, text = s ++ t /\ Forall (accepts c) s /\ here_spec re t.
Proof.
  assert (items (c :: ch_star :: re) = (Star c :: (items re).1, (items re).2)) as E.
  { cbn [items]. rewrite Z.eqb_refl. by destruct (items re). }
  unfold here_spec. rewrite E. simpl. split.
  - intros (mid & post & -> & Hl & He). inversion Hl as [| |? s ? w Ha Hw]; subst.
    exists s, (w ++ post). rewrite <- app_assoc. split; [done|]. split; [done|]. by exists w, post.
  - intros (s & t & -> & Ha & mid & post & -> & Hl & He). exists (s ++ mid), post.
    split_and!; [by rewrite app_assoc|by constructor|done].
Qed.

Lemma matchhere_spec re text : matchhere re text = true <-> here_spec re text.
Proof.
  remember (length re) as n eqn:Hn. revert re text Hn.
  induction (lt_wf n) as [n _ IH]. intros [|c re] text ->.
  { split; [|done]. intros _. exists [], text. split_and!; [done|constructor|done]. }
  assert (head re <> Some ch_star ->
    (if (c =? ch_dollar) && (match re with [] => true | _ => false end) then
       match text with [] => true | _ => false end
     else match text with
          | x :: t => if (c =? ch_dot) || (c =? x) then matchhere re t else false
          | [] => false
          end) = true <-> here_spec (c :: re) text) as Hone.
  { intros Hs. destruct (_ && _) eqn:Ed.
    - apply andb_true_iff in Ed as [->%Z.eqb_eq Er]. destruct re; [|done].
      unfold here_spec. simpl. split.
      + destruct text; [|done]. intros _. exists [], []. split_and!; [done|constructor|done].
      + intros (mid & post & -> & Hl & He). inversion Hl; subst. by rewrite He.
    - rewrite here_one; [|done|].
      2:{ intros [-> ->]. by rewrite Z.eqb_refl in Ed. }
      destruct text as [|x t]; [naive_solver|].
      assert ((c =? ch_dot) || (c =? x) = true <-> accepts c x) as Ha.
      { unfold accepts. rewrite orb_true_iff, !Z.eqb_eq. naive_solver. }
      destruct (_ || _).
      + rewrite (IH (length re) ltac:(simpl; lia) re t eq_refl). naive_solver.
      + naive_solver. }
  destruct re as [|d re]; [by apply Hone|]. cbn [matchhere].
  destruct (Z.eqb_spec d ch_star) as [->|Hd].
  - rewrite matchstar_spec, here_star. setoid_rewrite (IH (length re) ltac:(simpl; lia) re _ eq_refl). done.
  - apply Hone. simpl. by intros [= ->].
Qed.

Lemma match_any_spec re text :
  match_any re text = true <-> exists pre t, text = pre ++ t /\ here_spec re t.
Proof.
  induction text as [|x t IH]; cbn [match_any].
  - rewrite orb_false_r, matchhere_spec. split; [intros; by exists [], []|].
    intros (pre & t & E & H). symmetry in E. by apply app_nil in E as [-> ->].
  - rewrite orb_true_iff, matchhere_spec, IH. split.
    + intros [H|(pre & t' & -> & H)]; [by exists [], (x :: t)|by exists (x :: pre), t'].
    + intros ([|y pre] & t' & E & H); simpl in E; [left; by subst|]. injection E as <- ->. right. eauto.
Qed.

(** C38: The matcher decides what the patterns mean: a line is printed for a pattern
    exactly when a part of it is a word of the pattern, with the star and the
    dot as in regular expressions and the part at the start or the end of the
    line when the pattern says so. *)
Theorem grep_match_correct re text : grep_match re text = true <-> matches re text.
Proof.
  unfold grep_match, matches.
  assert (match_any re text = true <-> exists pre mid post, text = pre ++ mid ++ post /\ lang (items re).1 mid /\
    (false = true -> pre = []) /\ ((items re).2 = true -> post = [])) as Hany.
  { rewrite match_any_spec. unfold here_spec. split.
    - intros (pre & t & -> & mid & post & -> & Hl & He). exists pre, mid, post. done.
    - intros (pre & mid & post & -> & Hl & _ & He). exists pre, (mid ++ post). split; [done|]. by exists mid, post. }
  destruct re as [|c re]; [done|]. destruct (c =? ch_caret); [|done].
  rewrite matchhere_spec. unfold here_spec. split.
  - intros (mid & post & -> & Hl & He). exists [], mid, post. done.
  - intros (pre & mid & post & -> & Hl & Hp & He). exists mid, post. by rewrite Hp.
Qed.

(** ** Lines *)

Definition unlines (ls : list (list Z)) : list Z := concat (map (fun l => l ++ [ch_nl]) ls).

(** A line: no newline and no NUL. *)
Definition line_ok (l : list Z) : Prop := Forall (fun c => c <> 0 /\ c <> ch_nl) l.

Lemma find_nl_line l rest : line_ok l -> find_nl (l ++ ch_nl :: rest) = inl (Some (length l)).
Proof.
  induction 1 as [|c l [H0 H1] Hl IH]; simpl; [done|].
  by rewrite (proj2 (Z.eqb_neq c 0) H0), (proj2 (Z.eqb_neq c ch_nl) H1), IH.
Qed.

Lemma unlines_cons l ls rest : unlines (l :: ls) ++ rest = l ++ ch_nl :: unlines ls ++ rest.
Proof. unfold unlines. cbn [map concat]. by rewrite <- !app_assoc. Qed.

Lemma grep_lines_run pattern ls fuel before rest out :
  (length ls < fuel)%nat -> Forall line_ok ls ->
  exists buf, grep_lines fuel pattern (before ++ unlines ls ++ 0 :: rest) (length before) out =
    Some (buf, length before + length (unlines ls),
          out ++ unlines (List.filter (grep_match pattern) ls))%nat.
Proof.
  revert fuel before out. induction ls as [|l ls IH]; intros [|fuel] before out Hf Hls; try (simpl in Hf; lia).
  - cbn [grep_lines]. rewrite drop_app_length. simpl. eexists. by rewrite Nat.add_0_r, app_nil_r.
  - apply Forall_cons in Hls as [Hl Hls]. cbn [grep_lines]. rewrite drop_app_length, unlines_cons, find_nl_line by done.
    rewrite take_app_length. cbn [List.filter].
    assert (length (unlines (l :: ls)) = S (length l + length (unlines ls))) as El.
    { unfold unlines. cbn [map concat]. rewrite !length_app. simpl. lia. }
    destruct (grep_match pattern l).
    + destruct (IH fuel (before ++ l ++ [ch_nl]) (out ++ l ++ [ch_nl])) as [buf E]; [simpl in Hf; lia|done|].
      exists buf. replace (before ++ l ++ ch_nl :: unlines ls ++ 0 :: rest) with
        ((before ++ l ++ [ch_nl]) ++ unlines ls ++ 0 :: rest) by (by rewrite <- !app_assoc).
      replace (S (length before + length l)) with (length (before ++ l ++ [ch_nl])) by (rewrite !length_app; simpl; lia).
      rewrite E, El. f_equal. f_equal; [f_equal; rewrite !length_app; simpl; lia|].
      unfold unlines. cbn [map concat]. by rewrite <- !app_assoc.
    + destruct (IH fuel (before ++ l ++ [0]) out) as [buf E]; [simpl in Hf; lia|done|].
      exists buf. rewrite insert_app_r, insert_app_r_alt, Nat.sub_diag by lia. simpl.
      replace (before ++ l ++ 0 :: unlines ls ++ 0 :: rest) with
        ((before ++ l ++ [0]) ++ unlines ls ++ 0 :: rest) by (by rewrite <- !app_assoc).
      replace (S (length before + length l)) with (length (before ++ l ++ [0])) by (rewrite !length_app; simpl; lia).
      rewrite E, El. f_equal. f_equal. f_equal. rewrite !length_app. simpl. lia.
Qed.

(** [grep] on what arrives in one read: of an input of whole lines that leaves
    room for a NUL in the buffer, exactly the lines that match are written, in
    order and each with its newline. *)
Theorem grep_one_read pattern ls :
  Forall line_ok ls -> (length (unlines ls) < GBUF)%nat ->
  grep pattern [unlines ls] = Some (unlines (List.filter (grep_match pattern) ls)).
Proof.
  intros Hls Hlen. destruct ls as [|l ls]; [done|]. set (L := l :: ls) in *.
  assert (0 < length (unlines L))%nat as Hpos.
  { unfold L, unlines. cbn [map concat]. rewrite !length_app. simpl. lia. }
  assert (length L <= length (unlines L))%nat as HL.
  { clear. induction L as [|x L IH]; [simpl; lia|]. unfold unlines in *. cbn [map concat].
    rewrite !length_app. simpl. lia. }
  unfold grep. cbn [concat]. rewrite app_nil_r. cbn [grep_loop].
  unfold read_chunk at 1. rewrite Z.sub_0_r, Nat2Z.id, (proj2 (Nat.leb_le _ _)) by lia.
  destruct (unlines L) as [|b data] eqn:Ed; [simpl in Hpos; lia|]. rewrite <- Ed in *. clear Ed b data.
  change (0 <? 0) with false. cbv beta iota zeta. change (Z.to_nat 0) with 0%nat. rewrite take_0, Nat.add_0_l, !app_nil_l, Z.add_0_l.
  destruct (grep_lines_run pattern L (S GBUF) [] (replicate (GBUF - length (unlines L) - 1) 0) [])
    as [buf E]; [lia|done|]. simpl app in E. simpl length in E.
  rewrite drop_replicate. replace (GBUF - length (unlines L))%nat with (S (GBUF - length (unlines L) - 1)) by lia.
  cbn [replicate]. rewrite E. rewrite Nat.add_0_l, (proj2 (Nat.eqb_neq _ _)) by lia.
  rewrite (proj2 (Z.ltb_lt 0 _)) by lia. rewrite Z.sub_diag.
  destruct (length (unlines L)) as [|k]; [lia|]. done.
Qed.

Lemma grep_one_read_witness :
  grep [97; 42; 98] [unlines [[97; 97; 98]; [99]]] = Some (unlines (List.filter (grep_match [97; 42; 98]) [[97; 97; 98]; [99]])).
Proof.
  apply (grep_one_read [97; 42; 98] [[97; 97; 98]; [99]]).
  - repeat constructor; discriminate.
  - vm_compute. lia.
Defined.

(** [grep] does not end the bytes it has read with a NUL: when a read is
    shorter than the one before, the search for lines runs on into bytes that
    are left over.  On the three lines [aaaa], [b] and [c], read one by one, the
    pattern [a] also finds a part of the first line again; the number of bytes
    kept becomes negative, and the third read is to an address below the
    buffer. *)
Theorem grep_stale :
  grep [97] [unlines [[97; 97; 97; 97]]; unlines [[98]]] = Some (unlines [[97; 97; 97; 97]; [97; 97]]) /\
  grep [97] [unlines [[97; 97; 97; 97]]; unlines [[98]]; unlines [[99]]] = None.
Proof. split; vm_compute; reflexivity. Qed.

(** ** [wc] *)

Definition blank (b : Z) : bool := strchr wc_blanks b.

(** A word starts at [i]: the byte there is not blank, and the one before it
    is, or there is none ([first]). *)
Definition word_start (first : bool) (l : list Z) (i : nat) : bool :=
  match l !! i with
  | None => false
  | Some b =>
      negb (blank b) &&
      match i with
      | O => first
      | S j => match l !! j with Some b' => blank b' | None => false end
      end
  end.

Definition count_words (first : bool) (l : list Z) : Z :=
  Z.of_nat (length (List.filter (word_start first l) (seq 0 (length l)))).
Definition count_lines (l : list Z) : Z := Z.of_nat (length (List.filter (fun b => b =? ch_nl) l)).

Lemma word_start_cons first b l i : word_start first (b :: l) (S i) = word_start (blank b) l i.
Proof. unfold word_start. simpl. by destruct i. Qed.

Lemma count_words_cons first b l :
  count_words first (b :: l) = (if negb (blank b) && first then 1 else 0) + count_words (blank b) l.
Proof.
  unfold count_words. cbn [length seq List.filter].
  assert (length (List.filter (word_start first (b :: l)) (seq 1 (length l))) =
          length (List.filter (word_start (blank b) l) (seq 0 (length l)))) as E.
  { rewrite <- seq_shift. generalize (seq 0 (length l)). intros ix. induction ix as [|i ix IH]; [done|].
    cbn [map List.filter]. rewrite word_start_cons. destruct (word_start (blank b) l i); simpl; by rewrite IH. }
  unfold word_start at 1. simpl. destruct (negb (blank b) && first); simpl; lia.
Qed.

Lemma count_words_le first l : 0 <= count_words first l <= Z.of_nat (length l).
Proof.
  unfold count_words. split; [lia|]. apply Nat2Z.inj_le.
  transitivity (length (seq 0 (length l))); [|by rewrite length_seq].
  generalize (seq 0 (length l)). intros ix.
  induction ix as [|i ix IH]; simpl; [lia|]. destruct (word_start first l i); simpl; lia.
Qed.

(** The loop over the bytes, while the counters do not overflow. *)
Lemma wc_bytes l s :
  0 <= wc_l s <= wc_c s -> 0 <= wc_w s <= wc_c s -> wc_c s + Z.of_nat (length l) < 2 ^ 31 ->
  let s' := foldl wc_byte s l in
  wc_l s' = wc_l s + count_lines l /\ wc_w s' = wc_w s + count_words (negb (wc_inword s)) l /\
  wc_c s' = wc_c s + Z.of_nat (length l).
Proof.
  revert s. induction l as [|b l IH]; intros s Hl Hw Hc; cbv zeta; simpl foldl.
  { unfold count_lines, count_words. simpl. lia. }
  change (2 ^ 31) with 2147483648 in *. simpl length in Hc. rewrite count_words_cons.
  assert (count_lines (b :: l) = (if b =? ch_nl then 1 else 0) + count_lines l) as ->.
  { unfold count_lines. simpl. destruct (b =? ch_nl); simpl; lia. }
  assert (wc_c (wc_byte s b) = wc_c s + 1 /\ wc_l (wc_byte s b) = wc_l s + (if b =? ch_nl then 1 else 0) /\
          wc_w (wc_byte s b) = wc_w s + (if negb (blank b) && negb (wc_inword s) then 1 else 0) /\
          negb (wc_inword (wc_byte s b)) = blank b) as (F1 & F2 & F3 & F4).
  { unfold wc_byte. fold (blank b). rewrite !s32_id by lia.
    destruct (blank b), (wc_inword s), (b =? ch_nl); cbn; repeat split; lia. }
  destruct (IH (wc_byte s b)) as (E1 & E2 & E3); [destruct (b =? ch_nl); lia|destruct (negb _ && _); lia|lia|].
  rewrite E1, E2, E3, F1, F2, F3, F4. cbn [length]. destruct (b =? ch_nl), (negb (blank b) && negb (wc_inword s)); lia.
Qed.

Lemma read_chunk_spec max input data rest :
  (0 < max)%nat -> Forall (fun c => c <> []) input -> read_chunk max input = (data, rest) ->
  concat input = data ++ concat rest /\ Forall (fun c => c <> []) rest /\ (data = [] -> input = []).
Proof.
  intros Hm Hin. unfold read_chunk. destruct input as [|c input]; [by intros [= <- <-]|].
  apply Forall_cons in Hin as [Hc Hin]. destruct (Nat.leb_spec (length c) max).
  - intros [= <- <-]. split_and!; [done|done|]. intros ->. done.
  - intros [= <- <-]. split_and!; [simpl; by rewrite app_assoc, take_drop| |].
    + constructor; [|done]. intros E. apply (f_equal length) in E. rewrite length_drop in E. simpl in E. lia.
    + destruct c, max; simpl; done || lia.
Qed.

Lemma wc_loop_run fuel input s :
  (length (concat input) < fuel)%nat -> Forall (fun c => c <> []) input ->
  wc_loop fuel input s = foldl wc_byte s (concat input).
Proof.
  revert input s. induction fuel as [|fuel IH]; intros input s Hf Hin; [lia|]. cbn [wc_loop].
  destruct (read_chunk 512 input) as [data rest] eqn:E.
  destruct (read_chunk_spec 512 input data rest) as (Ec & Hr & He); [lia|done|done|]. rewrite Ec in Hf |- *.
  destruct data as [|b data].
  - rewrite (He eq_refl) in Ec. by rewrite <- Ec.
  - rewrite foldl_app, IH; [done| |done]. rewrite length_app in Hf. simpl in Hf. lia.
Qed.

(** [wc] counts lines, words and bytes of its input, however the reads cut it
    up: newlines, starts of runs of bytes that are not blank, and the
    length, as long as the input is shorter than 2 GB. *)
Theorem wc_counts input :
  Forall (fun c => c <> []) input -> Z.of_nat (length (concat input)) < 2 ^ 31 ->
  wc input = (count_lines (concat input), count_words true (concat input), Z.of_nat (length (concat input))).
Proof.
  intros Hin Hlen. unfold wc. rewrite wc_loop_run by (done || lia).
  destruct (wc_bytes (concat input) (mkwc 0 0 0 false)) as (E1 & E2 & E3); simpl; [lia..|].
  by rewrite E1, E2, E3.
Qed.

Lemma wc_counts_witness :
  wc [[97; 98; 32]; [99; 10; 100]] = (1, 3, 6).
Proof.
  assert (wc [[97; 98; 32]; [99; 10; 100]] =
    (count_lines (concat [[97; 98; 32]; [99; 10; 100]]), count_words true (concat [[97; 98; 32]; [99; 10; 100]]),
     Z.of_nat (length (concat [[97; 98; 32]; [99; 10; 100]])))) as ->; [|reflexivity].
  apply (wc_counts [[97; 98; 32]; [99; 10; 100]]).
  - repeat constructor; discriminate.
  - vm_compute. reflexivity.
Defined.
