(* ===== verification/Ide.v ===== *)
(** * The IDE driver ([ide.c])

    The driver's queue of buffers is linked through [qnext]; its critical
    sections run under [idelock], so each is one step here.  The controller is
    the hardware the driver talks to through ports: the task file registers,
    a command, and the sector buffer behind the data port, as the ATA command
    set documents them for 28-bit addresses. *)

From S2P Require Import Prelude Monad State Bio.

(** ** The controller *)

Definition IDE_CMD_READ : Z := 32.
Definition IDE_CMD_WRITE : Z := 48.

Record ctl := mkctl {
  c_disk : gmap (Z * Z) (list Z);   (** by drive and sector *)
  c_lba0 : Z;
  c_lba1 : Z;
  c_lba2 : Z;
  c_head : Z;
  c_cmd : option Z;
  c_data : list Z;
}.

Definition outb (port v : Z) (c : ctl) : ctl :=
  if port =? 499 then mkctl (c_disk c) v (c_lba1 c) (c_lba2 c) (c_head c) (c_cmd c) (c_data c)
  else if port =? 500 then mkctl (c_disk c) (c_lba0 c) v (c_lba2 c) (c_head c) (c_cmd c) (c_data c)
  else if port =? 501 then mkctl (c_disk c) (c_lba0 c) (c_lba1 c) v (c_head c) (c_cmd c) (c_data c)
  else if port =? 502 then mkctl (c_disk c) (c_lba0 c) (c_lba1 c) (c_lba2 c) v (c_cmd c) (c_data c)
  else if port =? 503 then mkctl (c_disk c) (c_lba0 c) (c_lba1 c) (c_lba2 c) (c_head c) (Some v) (c_data c)
  else c.

Definition outsl (data : list Z) (c : ctl) : ctl :=
  mkctl (c_disk c) (c_lba0 c) (c_lba1 c) (c_lba2 c) (c_head c) (c_cmd c) data.

(** The drive and the sector the registers name. *)
Definition c_addr (c : ctl) : Z * Z :=
  (Z.land (Z.shiftr (c_head c) 4) 1,
   c_lba0 c + Z.shiftl (c_lba1 c) 8 + Z.shiftl (c_lba2 c) 16 + Z.shiftl (Z.land (c_head c) 15) 24).

Definition c_sector (c : ctl) : list Z :=
  default (replicate (Z.to_nat BSIZE) 0) (c_disk c !! c_addr c).

(** The controller carries out its command, before it interrupts. *)
Definition ctl_finish (c : ctl) : ctl :=
  match c_cmd c with
  | None => c
  | Some cmd =>
      if cmd =? IDE_CMD_WRITE then
        mkctl (<[c_addr c := c_data c]> (c_disk c)) (c_lba0 c) (c_lba1 c) (c_lba2 c) (c_head c) None (c_data c)
      else
        mkctl (c_disk c) (c_lba0 c) (c_lba1 c) (c_lba2 c) (c_head c) None (c_sector c)
  end.

(** ** The driver *)

Record ide := mkide {
  i_bufs : list buf;
  idequeue : option nat;
  havedisk1 : bool;
  i_ctl : ctl;
  i_wakeups : list nat;   (** the buffers [wakeup] was called for *)
}.

Definition set_i_bufs (f : list buf -> list buf) (s : ide) : ide :=
  mkide (f (i_bufs s)) (idequeue s) (havedisk1 s) (i_ctl s) (i_wakeups s).
Definition set_idequeue (q : option nat) (s : ide) : ide :=
  mkide (i_bufs s) q (havedisk1 s) (i_ctl s) (i_wakeups s).
Definition set_ctl (f : ctl -> ctl) (s : ide) : ide :=
  mkide (i_bufs s) (idequeue s) (havedisk1 s) (f (i_ctl s)) (i_wakeups s).

(** [wakeup(b)]: what it does to the process table is in file [Sched]. *)
Definition ide_wakeup (b : nat) (s : ide) : ide :=
  mkide (i_bufs s) (idequeue s) (havedisk1 s) (i_ctl s) (i_wakeups s ++ [b]).

Abbreviation ID := (M ide).

Definition ibuf (b : nat) : ID buf :=
  bs ← gets i_bufs;
  match bs !! b with Some r => mret r | None => undef end.
Definition upd_ibuf (b : nat) (f : buf -> buf) : ID unit := modify (set_i_bufs (alter f b)).
Definition port_out (port v : Z) : ID unit := modify (set_ctl (outb port v)).

(** [idestart].  Its test for a null pointer is absent, since [b] is a buffer;
    so is the polling of [idewait(0)], after which the controller is ready. *)
Definition idestart (b : nat) : ID unit :=
  r ← ibuf b;
  port_out 1014 0;;
  port_out 498 1;;
  port_out 499 (Z.land (b_sector r) 255);;
  port_out 500 (Z.land (Z.shiftr (b_sector r) 8) 255);;
  port_out 501 (Z.land (Z.shiftr (b_sector r) 16) 255);;
  port_out 502 (Z.lor (Z.lor 224 (Z.shiftl (Z.land (b_dev r) 1) 4)) (Z.land (Z.shiftr (b_sector r) 24) 15));;
  if has (b_flags r) B_DIRTY then
    port_out 503 IDE_CMD_WRITE;;
    modify (set_ctl (outsl (b_data r)))
  else port_out 503 IDE_CMD_READ.

(** [ideintr] under its lock; [err] is what [idewait(1)] finds in the error
    bits. *)
Definition ideintr (err : bool) : ID unit :=
  q ← gets idequeue;
  match q with
  | None => mret tt
  | Some b =>
      r ← ibuf b;
      modify (set_idequeue (b_qnext r));;
      c ← gets i_ctl;
      when (negb (has (b_flags r) B_DIRTY) && negb err) (upd_ibuf b (set_b_data (c_data c)));;
      r ← ibuf b;
      upd_ibuf b (set_b_flags (clear_flag (set_flag (b_flags r) B_VALID) B_DIRTY));;
      modify (ide_wakeup b);;
      q ← gets idequeue;
      match q with
      | Some b' => idestart b'
      | None => mret tt
      end
  end.

(** The loop of [iderw] that finds the end of the queue: [None] for the
    pointer [idequeue] itself, [Some b] for the [qnext] of [b]. *)
Definition queue_end : ID (option nat) :=
  bs ← gets i_bufs;
  loop (S (length bs)) (fun pp =>
    p ← match pp with
        | None => gets idequeue
        | Some b => r ← ibuf b; mret (b_qnext r)
        end;
    match p with
    | None => mret (inr pp)
    | Some b => mret (inl (Some b))
    end) None.

(** [iderw] up to the wait for the request. *)
Definition iderw_submit (b : nat) : ID unit :=
  r ← ibuf b;
  d1 ← gets havedisk1;
  if negb (has (b_flags r) B_BUSY) then panic "iderw: buf not busy"
  else if Z.land (b_flags r) (Z.lor B_VALID B_DIRTY) =? B_VALID then panic "iderw: nothing to do"
  else if negb (b_dev r =? 0) && negb d1 then panic "iderw: ide disk 1 not present"
  else
    upd_ibuf b (set_b_qnext None);;
    pp ← queue_end;
    match pp with
    | None => modify (set_idequeue (Some b))
    | Some p => upd_ibuf p (set_b_qnext (Some b))
    end;;
    q ← gets idequeue;
    when (bool_decide (q = Some b)) (idestart b).

(** [while((b->flags & (B_VALID|B_DIRTY)) != B_VALID) sleep(b, &idelock)] *)
Definition ide_done (r : buf) : bool := Z.land (b_flags r) (Z.lor B_VALID B_DIRTY) =? B_VALID.

Definition iderw_wait `{WakeFuel} (b : nat) : ID unit :=
  loop (S wake_fuel) (fun _ =>
    r ← ibuf b;
    if ide_done r then mret (inr tt)
    else fun s => Switch s (fun s' => Ret (inl tt) s')) tt.

Definition ide_rw `{WakeFuel} (b : nat) : ID unit := iderw_submit b;; iderw_wait b.
