(* ===== verification/IdeProps.v ===== *)
(** * The IDE driver refines the memory disk

    Requests complete in the order they were submitted, each with the effect
    [iderw] of [memide.c] has at that moment. *)

From S2P Require Import Prelude Monad State Bio Ide.

(** ** Flags *)

Lemma has_testbit f k : 0 <= k -> has f (2 ^ k) = Z.testbit f k.
Proof.
  intros Hk. unfold has. destruct (Z.testbit f k) eqn:E.
  - apply negb_true_iff, Z.eqb_neq. intros H. apply (f_equal (fun z => Z.testbit z k)) in H.
    rewrite Z.land_spec, Z.pow2_bits_true, E, Z.bits_0 in H by done. done.
  - apply negb_false_iff, Z.eqb_eq. apply Z.bits_inj'. intros n Hn. rewrite Z.land_spec, Z.bits_0, Z.pow2_bits_eqb by done.
    destruct (Z.eqb_spec k n) as [->|]; [by rewrite E|by rewrite andb_false_r].
Qed.

Lemma flags_done f : clear_flag (set_flag f B_VALID) B_DIRTY = set_flag (clear_flag f B_DIRTY) B_VALID.
Proof.
  unfold clear_flag, set_flag. apply Z.bits_inj'. intros n Hn.
  rewrite Z.land_spec, !Z.lor_spec, Z.land_spec, Z.lnot_spec by done.
  change B_VALID with (2 ^ 1). change B_DIRTY with (2 ^ 2). rewrite !Z.pow2_bits_eqb by done.
  destruct (Z.eqb_spec 1 n); destruct (Z.eqb_spec 2 n); destruct (Z.testbit f n); simpl; lia || done.
Qed.

Lemma clear_clean f : has f B_DIRTY = false -> clear_flag f B_DIRTY = f.
Proof.
  change B_DIRTY with (2 ^ 2). rewrite has_testbit by done. intros H. unfold clear_flag.
  apply Z.bits_inj'. intros n Hn. rewrite Z.land_spec, Z.lnot_spec, Z.pow2_bits_eqb by done.
  destruct (Z.eqb_spec 2 n) as [<-|]; [by rewrite H|by rewrite andb_true_r].
Qed.

(** ** The registers *)

(** What [idestart] leaves in the controller. *)
Definition started (r : buf) (c : ctl) : ctl :=
  mkctl (c_disk c) (Z.land (b_sector r) 255) (Z.land (Z.shiftr (b_sector r) 8) 255)
    (Z.land (Z.shiftr (b_sector r) 16) 255)
    (Z.lor (Z.lor 224 (Z.shiftl (Z.land (b_dev r) 1) 4)) (Z.land (Z.shiftr (b_sector r) 24) 15))
    (Some (if has (b_flags r) B_DIRTY then IDE_CMD_WRITE else IDE_CMD_READ))
    (if has (b_flags r) B_DIRTY then b_data r else c_data c).

Lemma idestart_run b r s :
  i_bufs s !! b = Some r -> idestart b s = Ret tt (set_ctl (started r) s).
Proof.
  intros Hr. unfold idestart, ibuf. erewrite bind_Ret by (kstep; by rewrite Hr).
  do 6 kstep. unfold started. by destruct (has (b_flags r) B_DIRTY).
Qed.

Lemma head_register a n :
  (a = 0 \/ a = 1) -> 0 <= n < 16 ->
  let h := Z.lor (Z.lor 224 (Z.shiftl a 4)) n in Z.land (Z.shiftr h 4) 1 = a /\ Z.land h 15 = n.
Proof.
  intros Ha Hn. cbv zeta. assert (n ∈ seqZ 0 16) as Hin by (apply elem_of_seqZ; lia).
  vm_compute in Hin. destruct Ha as [-> | ->]; repeat (apply elem_of_cons in Hin as [-> |Hin]; [done|]); by apply elem_of_nil in Hin.
Qed.

(** The four registers name the sector, modulo the 28 bits there are. *)
Lemma regs_addr d a n cmd data :
  (a = 0 \/ a = 1) -> 0 <= n ->
  c_addr (mkctl d (Z.land n 255) (Z.land (Z.shiftr n 8) 255) (Z.land (Z.shiftr n 16) 255)
    (Z.lor (Z.lor 224 (Z.shiftl a 4)) (Z.land (Z.shiftr n 24) 15)) cmd data) = (a, n mod 2 ^ 28).
Proof.
  intros Ha Hs. unfold c_addr. cbn [c_head c_lba0 c_lba1 c_lba2].
  change 255 with (Z.ones 8). change 15 with (Z.ones 4). rewrite !Z.land_ones by lia.
  rewrite !Z.shiftr_div_pow2, !Z.shiftl_mul_pow2 by lia.
  pose proof (Z.mod_pos_bound (n / 2 ^ 24) (2 ^ 4) ltac:(lia)) as Hn.
  destruct (head_register a ((n / 2 ^ 24) mod 2 ^ 4) Ha Hn) as [E1 E2]. cbv zeta in *.
  rewrite Z.shiftl_mul_pow2, Z.shiftr_div_pow2 in E1 by lia. rewrite Z.shiftl_mul_pow2 in E2 by lia.
  change 15 with (Z.ones 4) in E2. rewrite Z.land_ones in E2 by lia.
  rewrite E1, E2. f_equal.
  change (2 ^ 4) with 16. change (2 ^ 8) with 256. change (2 ^ 16) with 65536. change (2 ^ 24) with 16777216.
  change (2 ^ 28) with (256 * (256 * (256 * 16))). clear -Hs.
  rewrite !Z.rem_mul_r, !Z.div_div by lia. change (256 * 256) with 65536. change (65536 * 256) with 16777216. lia.
Qed.

Lemma started_addr r c :
  0 <= b_sector r -> c_addr (started r c) = (Z.land (b_dev r) 1, b_sector r mod 2 ^ 28).
Proof.
  intros Hs. apply regs_addr; [|done].
  change (Z.land (b_dev r) 1) with (Z.land (b_dev r) (Z.ones 1)). rewrite Z.land_ones by lia.
  pose proof (Z.mod_pos_bound (b_dev r) 2 ltac:(lia)). change (2 ^ 1) with 2. lia.
Qed.

(** ** The queue *)

Fixpoint queue_at (bs : list buf) (h : option nat) (l : list nat) : Prop :=
  match l with
  | [] => h = None
  | b :: l => h = Some b /\ exists r, bs !! b = Some r /\ queue_at bs (b_qnext r) l
  end.

Lemma queue_frame bs bs' h l :
  (forall b r, b ∈ l -> bs !! b = Some r -> exists r', bs' !! b = Some r' /\ b_qnext r' = b_qnext r) ->
  queue_at bs h l -> queue_at bs' h l.
Proof.
  revert h. induction l as [|b l IH]; intros h Hf; simpl; [done|]. intros (-> & r & Hr & Hl). split; [done|].
  destruct (Hf b r) as (r' & Hr' & E); [by left|done|]. exists r'. split; [done|]. rewrite E.
  apply IH; [|done]. intros c rc Hc. apply Hf. by right.
Qed.

Lemma queue_in bs h l b : queue_at bs h l -> b ∈ l -> is_Some (bs !! b).
Proof.
  revert h. induction l as [|c l IH]; intros h; simpl; [by intros _ ?%elem_of_nil|].
  intros (_ & r & Hr & Hl) [-> |Hb]%elem_of_cons; [by eexists|by eapply IH].
Qed.

Lemma queue_length bs h l : queue_at bs h l -> NoDup l -> (length l <= length bs)%nat.
Proof.
  intros Hq Hnd. rewrite <- (length_seq (length bs) 0). apply submseteq_length, NoDup_submseteq; [done|].
  intros b Hb. apply elem_of_seq. destruct (queue_in _ _ _ _ Hq Hb) as [r Hr%lookup_lt_Some]. lia.
Qed.

Lemma ibuf_run b r s : i_bufs s !! b = Some r -> ibuf b s = Ret r s.
Proof. intros H. unfold ibuf. kstep. by rewrite H. Qed.

(** The walk stops at the last buffer of the queue. *)
Lemma queue_walk s fuel (pp h : option nat) l :
  match pp with None => idequeue s = h | Some b => exists r, i_bufs s !! b = Some r /\ b_qnext r = h end ->
  queue_at (i_bufs s) h l -> (length l < fuel)%nat ->
  loop fuel (fun pp =>
    p ← match pp with
        | None => gets idequeue
        | Some b => r ← ibuf b; mret (b_qnext r)
        end;
    match p with
    | None => mret (inr pp)
    | Some b => mret (inl (Some b))
    end) pp s = Ret (from_option Some pp (last l)) s.
Proof.
  revert fuel pp h. induction l as [|b l IH]; intros [|fuel] pp h Hpp Hq Hf; try (simpl in Hf; lia).
  all: assert ((match pp with None => gets idequeue | Some b => r ← ibuf b; mret (b_qnext r) end) s = Ret h s) as Hp
    by (destruct pp as [c|]; [destruct Hpp as (rc & Hc & <-); by rewrite (bind_Ret _ _ _ _ _ (ibuf_run _ _ _ Hc))
                             |by rewrite <- Hpp]).
  - simpl in Hq. subst h. apply loop_done. by rewrite (bind_Ret _ _ _ _ _ Hp).
  - destruct Hq as (-> & r & Hr & Hl).
    rewrite (loop_next _ _ _ (Some b) _ s) by (by rewrite (bind_Ret _ _ _ _ _ Hp)).
    rewrite (IH fuel (Some b) (b_qnext r)); [|by eauto|done|simpl in Hf; lia]. destruct l; [done|].
    rewrite last_cons_cons. destruct (last (_ :: l)) eqn:E; [done|]. by apply last_None in E.
Qed.

Lemma queue_end_run s l :
  queue_at (i_bufs s) (idequeue s) l -> NoDup l -> queue_end s = Ret (last l) s.
Proof.
  intros Hq Hnd. unfold queue_end. kstep. rewrite (queue_walk s _ None (idequeue s) l); [|done|done|].
  - by destruct (last l).
  - pose proof (queue_length _ _ _ Hq Hnd). lia.
Qed.

(** Appending behind the last buffer. *)
Lemma queue_append bs h l p b r rb :
  queue_at bs h (l ++ [p]) -> NoDup (l ++ [p]) -> (b ∉ l ++ [p]) ->
  bs !! p = Some r -> bs !! b = Some rb -> b_qnext rb = None ->
  queue_at (alter (set_b_qnext (Some b)) p bs) h (l ++ [p; b]).
Proof.
  revert h. induction l as [|c l IH]; intros h; simpl.
  - intros (-> & r' & Hr' & _) _ Hb Hr Hrb Hn. split; [done|].
    exists (set_b_qnext (Some b) r). rewrite list_lookup_alter_eq, Hr. split; [done|]. split; [done|].
    exists rb. rewrite list_lookup_alter_ne by set_solver. done.
  - intros (-> & rc & Hrc & Hl) Hnd Hb Hr Hrb Hn. apply NoDup_cons in Hnd as [Hc Hnd]. split; [done|].
    exists rc. rewrite list_lookup_alter_ne by set_solver. split; [done|]. apply IH; try done. set_solver.
Qed.

(** ** The relation *)

Abbreviation unlinked := (set_b_qnext None).

(** A buffer a process may pass to [iderw]: busy, to be read or written, and of
    a sector of disk 1. *)
Definition request (k : kstate) (b : nat) : Prop :=
  let r := k_bufs k !!! b in
  (b < length (k_bufs k))%nat /\ has (b_flags r) B_BUSY = true /\ ide_done r = false /\
  b_dev r = 1 /\ 0 <= b_sector r < dk_size (k_disk k).

#[global] Instance request_dec k b : Decision (request k b).
Proof. unfold request. cbv zeta. apply _. Defined.

(** The driver [s] with the requests [q] queued stands for the memory disk
    [k]: the same buffers and sectors, and the controller at work on the first
    request. *)
Record ide_rel (s : ide) (k : kstate) (q : list nat) : Prop := {
  ir_bufs : map unlinked (i_bufs s) = map unlinked (k_bufs k);
  ir_queue : queue_at (i_bufs s) (idequeue s) q;
  ir_nodup : NoDup q;
  ir_req : Forall (request k) q;
  ir_size : dk_size (k_disk k) <= 2 ^ 28;
  ir_disk : forall n, c_disk (i_ctl s) !! (1, n) = dk_blocks (k_disk k) !! n;
  ir_have : havedisk1 s = true;
  ir_started : match q with
               | [] => c_cmd (i_ctl s) = None
               | b :: _ => exists r c, i_bufs s !! b = Some r /\ i_ctl s = started r c
               end;
}.

Lemma rel_lookup s k q b :
  ide_rel s k q -> (b < length (k_bufs k))%nat ->
  exists r, i_bufs s !! b = Some r /\ unlinked r = unlinked (k_bufs k !!! b).
Proof.
  intros [Hb _ _ _ _ _ _ _] Hlt. apply (f_equal (.!! b)) in Hb. rewrite !list_lookup_fmap in Hb.
  destruct (lookup_lt_is_Some_2 (k_bufs k) b Hlt) as [rk Hk]. rewrite (list_lookup_total_correct _ _ _ Hk).
  rewrite Hk in Hb. destruct (i_bufs s !! b) as [r|]; [|done]. simpl in Hb. apply (inj Some) in Hb. eauto.
Qed.

Lemma unlinked_eq r r' :
  unlinked r = unlinked r' ->
  b_flags r = b_flags r' /\ b_dev r = b_dev r' /\ b_sector r = b_sector r' /\ b_data r = b_data r'.
Proof. destruct r, r'. simpl. intros [= -> -> -> -> -> ->]. done. Qed.

Lemma map_unlinked_alter f g b bs bs' :
  map unlinked bs = map unlinked bs' -> (forall r r', bs !! b = Some r -> bs' !! b = Some r' ->
    unlinked r = unlinked r' -> unlinked (f r) = unlinked (g r')) ->
  map unlinked (alter f b bs) = map unlinked (alter g b bs').
Proof.
  intros E Hfg. apply list_eq. intros i. apply (f_equal (.!! i)) in E. rewrite !list_lookup_fmap in *.
  destruct (decide (i = b)) as [->|Hne].
  - rewrite !list_lookup_alter_eq. destruct (bs !! b) as [r|], (bs' !! b) as [r'|]; try done.
    simpl in E |- *. apply (inj Some) in E. f_equal. by apply Hfg.
  - by rewrite !list_lookup_alter_ne.
Qed.

Lemma list_alter_id_at {A} (b : nat) (l : list A) : alter (fun x => x) b l = l.
Proof.
  apply list_eq. intros i. destruct (decide (i = b)) as [->|]; [|by rewrite list_lookup_alter_ne].
  rewrite list_lookup_alter_eq. by destruct (l !! b).
Qed.

Lemma map_unlinked_id f b bs :
  (forall r, unlinked (f r) = unlinked r) -> map unlinked (alter f b bs) = map unlinked bs.
Proof.
  intros Hf. transitivity (map unlinked (alter (fun r => r) b bs)).
  - apply map_unlinked_alter; [done|]. intros r r' Hr Hr' E. by rewrite Hf.
  - f_equal. apply list_alter_id_at.
Qed.

(** ** Submitting *)

Lemma queue_unlinked bs h l b f : b ∉ l -> queue_at bs h l -> queue_at (alter f b bs) h l.
Proof.
  intros Hb. apply queue_frame. intros c r Hc Hr. exists r. rewrite list_lookup_alter_ne by set_solver. done.
Qed.

Lemma submit_sim s k q b :
  ide_rel s k q -> request k b -> b ∉ q ->
  exists s', iderw_submit b s = Ret tt s' /\ ide_rel s' k (q ++ [b]).
Proof.
  intros HR Hreq Hb. pose proof Hreq as (Hlt & Hbusy & Hdone & Hdev & Hsec).
  destruct (rel_lookup s k q b HR Hlt) as (r & Hr & Er). pose proof (unlinked_eq _ _ Er) as (Ef & Ed & Es & Edt).
  destruct HR as [Rb Rq Rn Rr Rs Rd Rh Rst]. unfold iderw_submit.
  rewrite (bind_Ret _ _ _ _ _ (ibuf_run _ _ _ Hr)). kstep. unfold ide_done in Hdone.
  rewrite Ef, Hbusy, Hdone, Rh, andb_false_r. cbn [negb]. kstep.
  set (s1 := set_i_bufs (alter unlinked b) s).
  assert (i_bufs s1 !! b = Some (unlinked r)) as Hb1 by (unfold s1; simpl; by rewrite list_lookup_alter_eq, Hr).
  assert (queue_at (i_bufs s1) (idequeue s1) q) as Q1 by (by apply queue_unlinked).
  assert (map unlinked (i_bufs s1) = map unlinked (k_bufs k)) as B1 by (unfold s1; simpl; by rewrite map_unlinked_id).
  kstep_by ltac:(by apply queue_end_run).
  assert (NoDup (q ++ [b]) /\ Forall (request k) (q ++ [b])) as [N2 F2].
  { split; [|apply Forall_app; split; [done|by constructor]]. apply NoDup_app. split_and!; [done|set_solver|apply NoDup_singleton]. }
  destruct (last q) as [p|] eqn:El.
  - apply last_Some in El as [q0 ->]. destruct (queue_in _ _ _ p Q1) as [rp Hrp]; [set_solver|].
    assert (queue_at (alter (set_b_qnext (Some b)) p (i_bufs s1)) (idequeue s1) (q0 ++ [p; b])) as Q2.
    { by apply (queue_append _ _ _ _ _ rp (unlinked r)). }
    kstep. kstep. rewrite bool_decide_false; [eexists; split; [done|]|].
    + split; simpl; try done; rewrite <- ?app_assoc; try done.
      * rewrite map_unlinked_id by done. done.
      * destruct q0 as [|c q0]; simpl in *.
        -- destruct Rst as (r1 & c1 & H1 & H2). exists (set_b_qnext (Some b) r1), c1.
           rewrite list_lookup_alter_eq, list_lookup_alter_ne, H1 by set_solver. split; [done|]. by rewrite H2.
        -- destruct Rst as (r1 & c1 & H1 & H2). exists r1, c1.
           apply NoDup_cons in Rn as [Rn _]. rewrite !list_lookup_alter_ne by set_solver. done.
    + simpl. destruct q0; simpl in Rq; destruct Rq as [-> _]; set_solver.
  - apply last_None in El as ->. kstep. kstep. rewrite bool_decide_true by done. cbn [when].
    rewrite (idestart_run b (unlinked r)) by done. eexists. split; [done|].
    split; simpl; try done.
    + split; [done|]. exists (unlinked r). split; [exact Hb1|done].
    + by eexists _, _.
Qed.

(** ** Completing *)

(** What a completed request leaves in its buffer. *)
Definition completed (d : disk) (r : buf) : buf :=
  let f := set_flag (clear_flag (b_flags r) B_DIRTY) B_VALID in
  if has (b_flags r) B_DIRTY then set_b_flags f r
  else set_b_flags f (set_b_data (blk d (b_sector r)) r).

Definition completed_disk (d : disk) (r : buf) : disk :=
  if has (b_flags r) B_DIRTY then disk_write (b_sector r) (b_data r) d else d.

Lemma alter_twice {A} (f g : A -> A) (b : nat) (l : list A) x y :
  l !! b = Some x -> f (g x) = y -> alter f b (alter g b l) = alter (fun _ => y) b l.
Proof.
  intros Hx Hy. apply list_eq. intros i. destruct (decide (i = b)) as [->|]; [|by rewrite !list_lookup_alter_ne].
  rewrite !list_lookup_alter_eq, Hx. simpl. by rewrite Hy.
Qed.

(** The memory disk completes a request. *)
Lemma iderw_completes k b :
  request k b ->
  let r := k_bufs k !!! b in
  iderw b k = Ret tt (set_k_disk (completed_disk (k_disk k) r)
                       (set_k_bufs (alter (fun _ => completed (k_disk k) r) b (k_bufs k)) k)).
Proof.
  intros (Hlt & Hbusy & Hdone & Hdev & Hsec). cbv zeta. set (r := k_bufs k !!! b) in *. unfold iderw, getbuf.
  kstep. fold r. unfold ide_done in Hdone. rewrite Hbusy, Hdone, (proj2 (Z.eqb_eq _ _) Hdev). cbn [negb].
  kstep. rewrite (proj2 (Z.leb_gt _ _)) by lia.
  destruct (lookup_lt_is_Some_2 (k_bufs k) b Hlt) as [r0 Hr0].
  assert (r = r0) as Er by (unfold r; by apply list_lookup_total_correct).
  unfold completed, completed_disk. destruct (has (b_flags r) B_DIRTY) eqn:Hd.
  - kstep_by ltac:(kstep; reflexivity). unfold upd_buf. kstep. simpl.
    assert (alter (set_b_flags (clear_flag (b_flags r) B_DIRTY)) b (k_bufs k) !!! b =
            set_b_flags (clear_flag (b_flags r) B_DIRTY) r) as ->.
    { apply list_lookup_total_correct. by rewrite list_lookup_alter_eq, Hr0, Er. }
    unfold set_k_disk, set_k_bufs. simpl. do 2 f_equal.
    by rewrite (alter_twice _ _ _ _ _ _ Hr0 eq_refl), Er.
  - kstep. unfold upd_buf. kstep. simpl.
    assert (alter (set_b_data (blk (k_disk k) (b_sector r))) b (k_bufs k) !!! b =
            set_b_data (blk (k_disk k) (b_sector r)) r) as ->.
    { apply list_lookup_total_correct. by rewrite list_lookup_alter_eq, Hr0, Er. }
    unfold set_k_disk, set_k_bufs. simpl. rewrite clear_clean by done. do 2 f_equal.
    by rewrite (alter_twice _ _ _ _ _ _ Hr0 eq_refl), Er.
Qed.

Lemma ctl_finish_idle c : c_cmd (ctl_finish c) = None.
Proof. unfold ctl_finish. destruct (c_cmd c) eqn:E; [by case_match|done]. Qed.

(** What the controller has done when it interrupts for the request of [r]. *)
Lemma finish_started r c :
  b_dev r = 1 -> 0 <= b_sector r < 2 ^ 28 ->
  let c' := ctl_finish (started r c) in
  c_disk c' = (if has (b_flags r) B_DIRTY then <[(1, b_sector r) := b_data r]> (c_disk c) else c_disk c) /\
  (has (b_flags r) B_DIRTY = false ->
   c_data c' = default (replicate (Z.to_nat BSIZE) 0) (c_disk c !! (1, b_sector r))).
Proof.
  intros Hdev Hsec. cbv zeta. unfold ctl_finish.
  assert (c_cmd (started r c) = Some (if has (b_flags r) B_DIRTY then IDE_CMD_WRITE else IDE_CMD_READ)) as -> by done.
  pose proof (started_addr r c ltac:(lia)) as Ha. rewrite Hdev, Z.mod_small in Ha by lia.
  change (Z.land 1 1) with 1 in Ha. unfold c_sector. rewrite Ha. unfold started at 1 2 3 4.
  destruct (has (b_flags r) B_DIRTY); done.
Qed.

(** The state [ideintr] leaves. *)
Definition intr_buf (c : ctl) (r : buf) : buf :=
  set_b_flags (clear_flag (set_flag (b_flags r) B_VALID) B_DIRTY)
    (if has (b_flags r) B_DIRTY then r else set_b_data (c_data c) r).

Lemma ideintr_run s b r :
  idequeue s = Some b -> i_bufs s !! b = Some r ->
  (match b_qnext r with Some b' => b' <> b /\ is_Some (i_bufs s !! b') | None => True end) ->
  let s1 := mkide (alter (fun _ => intr_buf (i_ctl s) r) b (i_bufs s)) (b_qnext r) (havedisk1 s) (i_ctl s)
              (i_wakeups s ++ [b]) in
  ideintr false s = Ret tt match b_qnext r with
                           | None => s1
                           | Some b' => set_ctl (started (i_bufs s !!! b')) s1
                           end.
Proof.
  intros Hq Hr Hn. cbv zeta. unfold ideintr. kstep. rewrite Hq.
  rewrite (bind_Ret _ _ _ _ _ (ibuf_run _ _ _ Hr)). kstep. kstep.
  rewrite andb_true_r. set (s1 := mkide _ _ _ _ _).
  assert (alter (set_b_flags (clear_flag (set_flag (b_flags r) B_VALID) B_DIRTY)) b
            (alter (if has (b_flags r) B_DIRTY then fun r => r else set_b_data (c_data (i_ctl s))) b (i_bufs s))
          = i_bufs s1) as Eb.
  { unfold s1. cbn [i_bufs]. apply (alter_twice _ _ _ _ _ _ Hr). unfold intr_buf. by destruct (has (b_flags r) B_DIRTY). }
  assert (exists s2, when (negb (has (b_flags r) B_DIRTY)) (upd_ibuf b (set_b_data (c_data (i_ctl s))))
            (set_idequeue (b_qnext r) s) = Ret tt s2 /\
          (exists r2, i_bufs s2 !! b = Some r2 /\ b_flags r2 = b_flags r) /\
          set_i_bufs (alter (set_b_flags (clear_flag (set_flag (b_flags r) B_VALID) B_DIRTY)) b) s2
          = mkide (i_bufs s1) (b_qnext r) (havedisk1 s) (i_ctl s) (i_wakeups s))
    as (s2 & E2 & (r2 & Hr2 & Ef) & E1).
  { destruct (has (b_flags r) B_DIRTY); cbn [negb when]; eexists; (split; [done|]); (split; [eexists; split|]).
    - exact Hr.
    - done.
    - unfold set_i_bufs, set_idequeue. cbn. rewrite list_alter_id_at in Eb. by rewrite Eb.
    - simpl. by rewrite list_lookup_alter_eq, Hr.
    - done.
    - unfold set_i_bufs, set_idequeue. cbn. by rewrite Eb. }
  change (i_ctl (set_idequeue (b_qnext r) s)) with (i_ctl s).
  rewrite (bind_Ret _ _ _ _ _ E2), (bind_Ret _ _ _ _ _ (ibuf_run _ _ _ Hr2)), Ef. kstep. rewrite E1. kstep. kstep.
  change (ide_wakeup b _) with s1.
  cbn [idequeue s1]. destruct (b_qnext r) as [b'|]; [|done]. destruct Hn as [Hne [r' Hr']].
  rewrite (idestart_run b' r') by (simpl; by rewrite list_lookup_alter_ne).
  by rewrite (list_lookup_total_correct _ _ _ Hr').
Qed.

Lemma completed_done d r : ide_done (completed d r) = true.
Proof.
  unfold ide_done, completed. set (f := set_flag (clear_flag (b_flags r) B_DIRTY) B_VALID).
  assert (Z.land f (Z.lor B_VALID B_DIRTY) = B_VALID) as E.
  { unfold f, set_flag, clear_flag. apply Z.bits_inj'. intros n Hn.
    rewrite Z.land_spec, !Z.lor_spec, Z.land_spec, Z.lnot_spec by done.
    change B_VALID with (2 ^ 1). change B_DIRTY with (2 ^ 2). rewrite !Z.pow2_bits_eqb by done.
    destruct (Z.eqb_spec 1 n); destruct (Z.eqb_spec 2 n); destruct (Z.testbit (b_flags r) n); simpl; lia || done. }
  destruct (has (b_flags r) B_DIRTY); simpl; by rewrite E.
Qed.

Lemma completed_disk_size d r : dk_size (completed_disk d r) = dk_size d.
Proof. unfold completed_disk. by destruct (has _ _). Qed.

(** The buffer and the sectors agree after the interrupt. *)
Lemma intr_buf_completed d c r rk :
  unlinked r = unlinked rk -> b_dev rk = 1 -> 0 <= b_sector rk < 2 ^ 28 ->
  (forall n, c_disk c !! (1, n) = dk_blocks d !! n) ->
  unlinked (intr_buf (ctl_finish (started r c)) r) = unlinked (completed d rk) /\
  forall n, c_disk (ctl_finish (started r c)) !! (1, n) = dk_blocks (completed_disk d rk) !! n.
Proof.
  intros E Hdev Hsec Hd. pose proof (unlinked_eq _ _ E) as (Ef & Ed & Es & Edt).
  destruct (finish_started r c) as [Fd Fr]; [congruence|by rewrite Es|]. cbv zeta in Fd, Fr. rewrite Ef in Fd, Fr. split.
  - unfold intr_buf, completed. rewrite Ef, flags_done. destruct (has (b_flags rk) B_DIRTY).
    + clear -E. destruct r, rk. simpl in *. by injection E as -> -> -> -> -> ->.
    + rewrite Fr by done. unfold blk. rewrite Es, Hd. clear -E. destruct r, rk. simpl in *.
      by injection E as -> -> -> -> -> ->.
  - intros n. rewrite Fd. unfold completed_disk. destruct (has (b_flags rk) B_DIRTY); [|done].
    simpl. rewrite Es, Edt. destruct (decide (n = b_sector rk)) as [->|Hne].
    + by rewrite !lookup_insert_eq.
    + rewrite !lookup_insert_ne by congruence. apply Hd.
Qed.

Lemma intr_sim s k b q :
  ide_rel s k (b :: q) ->
  exists s' k', ideintr false (set_ctl ctl_finish s) = Ret tt s' /\ iderw b k = Ret tt k' /\
    ide_rel s' k' q /\ ide_done (k_bufs k' !!! b) = true /\ i_wakeups s' = i_wakeups s ++ [b].
Proof.
  intros HR. pose proof HR as [Rb Rq Rn Rr Rs Rd Rh Rst].
  apply Forall_cons in Rr as [Hreq Rr]. apply NoDup_cons in Rn as [Hbq Rn].
  pose proof Hreq as (Hlt & Hbusy & Hnd & Hdev & Hsec).
  destruct (rel_lookup s k _ b HR Hlt) as (r & Hr & Er).
  destruct Rq as (Hq & r0 & Hr0 & Rq). rewrite Hr in Hr0. injection Hr0 as <-.
  destruct Rst as (r0 & c0 & Hr0 & Hc). rewrite Hr in Hr0. injection Hr0 as <-.
  set (rk := k_bufs k !!! b) in *. set (d := k_disk k) in *.
  assert (forall n, c_disk c0 !! (1, n) = dk_blocks d !! n) as Rd0 by (intros n; rewrite <- Rd, Hc; done).
  destruct (intr_buf_completed d c0 r rk Er Hdev ltac:(lia) Rd0) as [Eb Edisk].
  rewrite <- Hc in Eb, Edisk. clear Hc Rd0.
  eexists _, _. split; [|split; [by apply iderw_completes|split_and!]].
  - apply (ideintr_run (set_ctl ctl_finish s) b r); [done|done|].
    destruct q as [|b' q]; simpl in Rq; [by rewrite Rq|]. destruct Rq as (-> & r' & Hr' & _). simpl.
    split; [set_solver|by eexists].
  - fold rk d. simpl.
    assert (forall b', b' ∈ q -> alter (fun _ => completed d rk) b (k_bufs k) !!! b' = k_bufs k !!! b') as Hother.
    { intros b' Hb'. rewrite !list_lookup_total_alt, list_lookup_alter_ne by set_solver. done. }
    set (s1 := mkide _ _ _ _ _).
    assert (forall s2, i_bufs s2 = i_bufs s1 -> idequeue s2 = idequeue s1 -> havedisk1 s2 = havedisk1 s1 ->
      c_disk (i_ctl s2) = c_disk (i_ctl s1) ->
      match q with [] => i_ctl s2 = i_ctl s1 | b' :: _ => i_ctl s2 = started (i_bufs s !!! b') (i_ctl s1) end ->
      ide_rel s2 (set_k_disk (completed_disk d rk) (set_k_bufs (alter (fun _ => completed d rk) b (k_bufs k)) k)) q)
      as Hrel.
    { intros s2 E1 E2 E3 E4 E5. split; rewrite ?E1, ?E2, ?E3, ?E4; unfold s1; simpl; try done.
      - apply map_unlinked_alter; [done|]. intros r1 r2 _ _ _. exact Eb.
      - by apply queue_unlinked.
      - apply Forall_forall. intros b' Hb'. pose proof (proj1 (Forall_forall _ _) Rr b' Hb') as Hreq'.
        unfold request in *. simpl. rewrite Hother, length_alter, completed_disk_size by done. exact Hreq'.
      - by rewrite completed_disk_size.
      - destruct q as [|b' q]; [rewrite E5; apply ctl_finish_idle|]. destruct (queue_in _ _ _ b' Rq) as [r' Hr']; [set_solver|].
        exists r', (i_ctl s1). rewrite list_lookup_alter_ne by set_solver. split; [done|].
        by rewrite E5, (list_lookup_total_correct _ _ _ Hr'). }
    destruct q as [|b' q]; simpl in Rq.
    + rewrite Rq. by apply Hrel.
    + destruct Rq as (E & _). rewrite E. by apply Hrel.
  - simpl. rewrite list_lookup_total_alt, list_lookup_alter_eq.
    destruct (lookup_lt_is_Some_2 (k_bufs k) b Hlt) as [r1 ->]. simpl. apply completed_done.
  - simpl. by destruct (b_qnext r).
Qed.

(** ** Runs *)

(** A process submits a request, a process changes a buffer that is not
    queued (without its queue link), the controller interrupts. *)
Inductive ide_event :=
| Submit (b : nat)
| Client (b : nat) (r : buf)
| Interrupt.

Definition relink (r r0 : buf) : buf := set_b_qnext (b_qnext r0) r.

Fixpoint ide_run (es : list ide_event) : ID unit :=
  match es with
  | [] => mret tt
  | Submit b :: es => iderw_submit b;; ide_run es
  | Client b r :: es => upd_ibuf b (relink r);; ide_run es
  | Interrupt :: es => modify (set_ctl ctl_finish);; ideintr false;; ide_run es
  end.

(** The same on the memory disk: an interrupt runs [iderw] for the request that
    is first in line.  [None] when a process breaks the rules: it submits a
    buffer that is no request or is queued, or changes a buffer that is. *)
Fixpoint mem_run (es : list ide_event) (k : kstate) (q : list nat) : option (kstate * list nat) :=
  match es with
  | [] => Some (k, q)
  | Submit b :: es => if decide (request k b /\ b ∉ q) then mem_run es k (q ++ [b]) else None
  | Client b r :: es => if decide (b ∉ q) then mem_run es (upd_buf b (relink r) k) q else None
  | Interrupt :: es =>
      match q with
      | [] => mem_run es k q
      | b :: q =>
          match iderw b k with
          | Ret _ k' => mem_run es k' q
          | _ => None
          end
      end
  end.

Lemma client_sim s k q b r :
  ide_rel s k q -> b ∉ q -> ide_rel (set_i_bufs (alter (relink r) b) s) (upd_buf b (relink r) k) q.
Proof.
  intros [Rb Rq Rn Rr Rs Rd Rh Rst] Hb. split; simpl; try done.
  - by apply map_unlinked_alter.
  - by apply queue_unlinked.
  - apply Forall_forall. intros b' Hb'. pose proof (proj1 (Forall_forall _ _) Rr b' Hb') as Hreq.
    unfold request in *. simpl. rewrite length_alter.
    assert (alter (relink r) b (k_bufs k) !!! b' = k_bufs k !!! b') as ->; [|exact Hreq].
    rewrite !list_lookup_total_alt, list_lookup_alter_ne by set_solver. done.
  - destruct q as [|b' q]; [done|]. destruct Rst as (r1 & c1 & H1 & H2). exists r1, c1.
    rewrite list_lookup_alter_ne by set_solver. done.
Qed.

Lemma spurious_sim s k : ide_rel s k [] -> ideintr false (set_ctl ctl_finish s) = Ret tt s.
Proof.
  intros [_ Rq _ _ _ _ _ Rst]. simpl in Rq. unfold ideintr. kstep. cbn [idequeue set_ctl]. rewrite Rq.
  unfold set_ctl, ctl_finish. rewrite Rst. by destruct s.
Qed.

Lemma run_sim es s k q k' q' :
  ide_rel s k q -> mem_run es k q = Some (k', q') -> exists s', ide_run es s = Ret tt s' /\ ide_rel s' k' q'.
Proof.
  revert s k q. induction es as [|[b|b r|] es IH]; intros s k q HR Hm; cbn [mem_run ide_run] in *.
  - injection Hm as <- <-. eauto.
  - case_decide as Hd; [|done]. destruct Hd as [Hreq Hb].
    destruct (submit_sim s k q b HR Hreq Hb) as (s1 & E & HR1). rewrite (bind_Ret _ _ _ _ _ E). by eapply IH.
  - case_decide; [|done]. kstep. eapply IH; [|exact Hm]. by apply client_sim.
  - kstep. destruct q as [|b q].
    + rewrite (bind_Ret _ _ _ _ _ (spurious_sim s k HR)). by eapply IH.
    + destruct (intr_sim s k b q HR) as (s1 & k1 & E & E' & HR1 & _). rewrite E' in Hm.
      rewrite (bind_Ret _ _ _ _ _ E). by eapply IH.
Qed.

(** As many interrupts as there are requests complete them all. *)
Lemma drain s k q :
  ide_rel s k q -> exists s' k', mem_run (replicate (length q) Interrupt) k q = Some (k', []) /\
    ide_run (replicate (length q) Interrupt) s = Ret tt s' /\ ide_rel s' k' [] /\
    (forall b, b ∉ q -> k_bufs k' !!! b = k_bufs k !!! b) /\
    Forall (fun b => ide_done (k_bufs k' !!! b) = true) q /\ i_wakeups s' = i_wakeups s ++ q.
Proof.
  revert s k. induction q as [|b q IH]; intros s k HR; cbn [length replicate mem_run ide_run].
  - exists s, k. split_and!; try done. by rewrite app_nil_r.
  - pose proof (ir_nodup _ _ _ HR) as Hnd. apply NoDup_cons in Hnd as [Hbq _].
    pose proof (ir_req _ _ _ HR) as Hreq. apply Forall_cons in Hreq as [Hreq _].
    destruct (intr_sim s k b q HR) as (s1 & k1 & E & E' & HR1 & Hd & Hw). rewrite E'.
    destruct (IH s1 k1 HR1) as (s2 & k2 & M2 & R2 & HR2 & Ho & Hall & Hw2).
    exists s2, k2. kstep. rewrite (bind_Ret _ _ _ _ _ E). split_and!; try done.
    + intros c Hc. rewrite Ho by set_solver. pose proof (iderw_completes k b Hreq) as E2. cbv zeta in E2.
      rewrite E' in E2. injection E2 as ->. simpl.
      rewrite !list_lookup_total_alt, list_lookup_alter_ne by set_solver. done.
    + constructor; [by rewrite Ho|done].
    + by rewrite Hw2, Hw, <- app_assoc.
Qed.

(** The wait of [iderw] sleeps until the request is done. *)
Lemma iderw_wait_run `{WakeFuel} s k q b :
  ide_rel s k q -> (b < length (k_bufs k))%nat ->
  (ide_done (k_bufs k !!! b) = false -> switches (iderw_wait b) s s) /\
  (ide_done (k_bufs k !!! b) = true -> iderw_wait b s = Ret tt s).
Proof.
  intros HR Hlt. destruct (rel_lookup s k q b HR Hlt) as (r & Hr & Er).
  destruct (unlinked_eq _ _ Er) as (Ef & _). unfold iderw_wait.
  assert (ide_done r = ide_done (k_bufs k !!! b)) as <- by (unfold ide_done; by rewrite Ef).
  split; intros Hd.
  - apply switches_loop. eapply switches_then; [by apply ibuf_run|]. rewrite Hd. by eexists.
  - apply loop_done. rewrite (bind_Ret _ _ _ _ _ (ibuf_run _ _ _ Hr)), Hd. done.
Qed.

Lemma iderw_bufs b k k' : iderw b k = Ret tt k' -> length (k_bufs k') = length (k_bufs k).
Proof.
  unfold iderw. intros H. erewrite bind_Ret in H by reflexivity.
  repeat match type of H with (if ?c then _ else _) _ = _ => destruct c; [done|] end.
  erewrite bind_Ret in H by reflexivity. destruct (dk_size _ <=? _); [done|].
  destruct (has _ B_DIRTY); erewrite bind_Ret in H by reflexivity; injection H as <-;
    simpl; by rewrite !length_alter.
Qed.

Lemma mem_run_bufs es k q k' q' :
  mem_run es k q = Some (k', q') -> length (k_bufs k') = length (k_bufs k).
Proof.
  revert k q. induction es as [|[b|b r|] es IH]; intros k q H; cbn [mem_run] in H.
  - by injection H as <- <-.
  - case_decide; [|done]. by eapply IH.
  - case_decide; [|done]. apply IH in H. rewrite H. simpl. by rewrite length_alter.
  - destruct q as [|b q]; [by eapply IH|]. destruct (iderw b k) as [[] k1| | | |] eqn:E; try done.
    apply IH in H. rewrite H. by eapply iderw_bufs.
Qed.

(** C5: The IDE driver implements the disk the file system is verified over: for
    any sequence of submitted requests, changes of buffers that are not queued
    and interrupts, spurious ones included, the driver never panics, and its
    buffers and sectors are those of the memory disk on which [iderw] runs for
    the requests one after the other, in the order they were submitted, at each
    interrupt.  Each request that is waiting sleeps in [iderw]; as many more
    interrupts as there are such requests complete them all, call [wakeup] for
    each in its turn, and the wait in [iderw] ends.  The disk reports no
    errors here. *)
Theorem ide_refines_memide `{WakeFuel} es s k q k' q' :
  ide_rel s k q -> mem_run es k q = Some (k', q') ->
  exists s', ide_run es s = Ret tt s' /\ ide_rel s' k' q' /\
    Forall (fun b => switches (iderw_wait b) s' s') q' /\
    exists s'' k'', ide_run (replicate (length q') Interrupt) s' = Ret tt s'' /\ ide_rel s'' k'' [] /\
      Forall (fun b => ide_done (k_bufs k'' !!! b) = true) q' /\ i_wakeups s'' = i_wakeups s' ++ q' /\
      Forall (fun b => iderw_wait b s'' = Ret tt s'') q'.
Proof.
  intros HR Hm. destruct (run_sim es s k q k' q' HR Hm) as (s1 & E & HR1). exists s1. split; [done|]. split; [done|].
  pose proof (ir_req _ _ _ HR1) as Hreq.
  destruct (drain s1 k' q' HR1) as (s2 & k2 & M2 & E2 & HR2 & _ & Hall & Hw).
  pose proof (mem_run_bufs _ _ _ _ _ M2) as Hlen. split.
  - apply (Forall_impl _ _ _ Hreq). intros b (Hlt & _ & Hnd & _).
    destruct (iderw_wait_run s1 k' q' b HR1 Hlt) as [Hs _]. by apply Hs.
  - exists s2, k2. split_and!; try done. apply Forall_forall. intros b Hb.
    pose proof (proj1 (Forall_forall _ _) Hreq b Hb) as (Hlt & _).
    destruct (iderw_wait_run s2 k2 [] b HR2) as [_ Hs]; [by rewrite Hlen|].
    apply Hs. by apply (proj1 (Forall_forall _ _) Hall b Hb).
Qed.

(** Two buffers, one to be written and one to be read. *)
Definition ide_demo_bufs : list buf :=
  [mkbuf 5 1 7 0 0 None (replicate 512 9); mkbuf 1 1 7 0 0 None (replicate 512 0)].
Definition ide_demo : ide :=
  mkide ide_demo_bufs None true (mkctl ∅ 0 0 0 0 None []) [].
Definition ide_demo_k : kstate := set_k_bufs ide_demo_bufs (reset_state (mkdisk ∅ 100 [])).

Lemma ide_demo_rel : ide_rel ide_demo ide_demo_k [].
Proof.
  split; simpl; try done. constructor.
Qed.

Lemma ide_refines_memide_witness :
  exists s' k', ide_run [Submit 0; Submit 1; Interrupt] ide_demo = Ret tt s' /\ ide_rel s' k' [1%nat].
Proof.
  destruct (mem_run [Submit 0; Submit 1; Interrupt] ide_demo_k []) as [[k' q']|] eqn:E;
    [|vm_compute in E; discriminate E].
  assert (q' = [1%nat]) as ->.
  { assert ((snd <$> mem_run [Submit 0; Submit 1; Interrupt] ide_demo_k []) = Some [1%nat]) as E2
      by (vm_compute; reflexivity). rewrite E in E2. by injection E2. }
  destruct (ide_refines_memide (H := 0%nat) _ ide_demo ide_demo_k [] k' [1%nat] ide_demo_rel E) as (s' & Hr & HR & _).
  by exists s', k'.
Defined.

(** An error of the disk is not reported: a read that fails leaves its buffer
    marked valid, with the data it had before. *)
Lemma ide_read_error s b r :
  idequeue s = Some b -> i_bufs s !! b = Some r -> has (b_flags r) B_DIRTY = false -> b_qnext r = None ->
  exists s' r', ideintr true s = Ret tt s' /\ i_bufs s' !! b = Some r' /\ b_data r' = b_data r /\
    has (b_flags r') B_VALID = true.
Proof.
  intros Hq Hr Hd Hn. unfold ideintr. kstep. rewrite Hq, (bind_Ret _ _ _ _ _ (ibuf_run _ _ _ Hr)). kstep. kstep.
  rewrite andb_false_r. cbn [when]. kstep. erewrite bind_Ret by (apply ibuf_run; exact Hr). kstep. kstep. kstep.
  cbn [idequeue set_i_bufs set_idequeue ide_wakeup]. rewrite Hn. eexists _, _. split; [done|]. cbn.
  rewrite list_lookup_alter_eq, Hr. split; [done|]. cbn. split; [done|].
  rewrite flags_done. change B_VALID with (2 ^ 1). rewrite has_testbit by done. unfold set_flag.
  by rewrite Z.lor_spec, Z.pow2_bits_true, orb_true_r by done.
Qed.
