(* ===== verification/Umalloc.v ===== *)
(** * The user allocator ([umalloc.c])

    Blocks of memory carry a header of eight bytes, [ptr] and [size], in front
    of the bytes the program uses; free blocks form a circular list ordered by
    address with the static header [base] in it.  The state is the headers by
    address, the variable [freep] and the end of the process memory; a header
    that was never written is zero.  Pointers are addresses, 0 the null
    pointer.  [sbrk] moves the end of the memory when [grow] lets it, which
    stands for the free pages of the machine. *)

From S2P Require Import Prelude Monad.

(** [union header] *)
Record header := mkheader { hd_ptr : Z; hd_size : Z }.
#[export] Instance header_eq_dec : EqDecision header.
Proof. solve_decision. Defined.
Definition set_hd_ptr (v : Z) (h : header) : header := mkheader v (hd_size h).
Definition set_hd_size (v : Z) (h : header) : header := mkheader (hd_ptr h) v.

Record uheap := mkuheap { u_hdr : gmap Z header; u_freep : Z; u_brk : Z }.
Definition set_u_hdr (v : gmap Z header) (s : uheap) : uheap := mkuheap v (u_freep s) (u_brk s).
Definition set_u_freep (v : Z) (s : uheap) : uheap := mkuheap (u_hdr s) v (u_brk s).
Definition set_u_brk (v : Z) (s : uheap) : uheap := mkuheap (u_hdr s) (u_freep s) v.

Abbreviation U := (M uheap).

(** [sizeof(Header)] *)
Definition HSIZE : Z := 8.

Definition hdr (s : uheap) (p : Z) : header := default (mkheader 0 0) (u_hdr s !! p).
Definition upd_hdr (p : Z) (f : header -> header) (s : uheap) : uheap :=
  set_u_hdr (<[p := f (hdr s p)]> (u_hdr s)) s.
Definition gethdr (p : Z) : U header := gets (fun s => hdr s p).

(** [p + n] on headers *)
Definition hadd (p n : Z) : Z := u32 (p + HSIZE * n).

Section Umalloc.
(** The address of the static variable [base], and what [sbrk] can do. *)
Context (base : Z) (grow : Z -> Z -> bool).

(** The rounds of the walks: twice around the list at most. *)
Definition walk_fuel (s : uheap) : nat := 2 * size (u_hdr s) + 4.

Definition u_free (ap : Z) : U unit :=
  let bp := u32 (ap - HSIZE) in
  freep ← gets u_freep;
  fuel ← gets walk_fuel;
  p ← loop fuel (fun p =>
    h ← gethdr p;
    if (p <? bp) && (bp <? hd_ptr h) then mret (inr p)
    else if (hd_ptr h <=? p) && ((p <? bp) || (bp <? hd_ptr h)) then mret (inr p)
    else mret (inl (hd_ptr h))) freep;
  b ← gethdr bp;
  h ← gethdr p;
  (if hadd bp (hd_size b) =? hd_ptr h then
     n ← gethdr (hd_ptr h);
     modify (upd_hdr bp (fun b => set_hd_size (u32 (hd_size b + hd_size n)) b));;
     modify (upd_hdr bp (set_hd_ptr (hd_ptr n)))
   else modify (upd_hdr bp (set_hd_ptr (hd_ptr h))));;
  b ← gethdr bp;
  h ← gethdr p;
  (if hadd p (hd_size h) =? bp then
     modify (upd_hdr p (fun h => set_hd_size (u32 (hd_size h + hd_size b)) h));;
     modify (upd_hdr p (set_hd_ptr (hd_ptr b)))
   else modify (upd_hdr p (set_hd_ptr bp)));;
  modify (set_u_freep p).

(** The old end of memory, or -1. *)
Definition sbrk (n : Z) : U Z :=
  brk ← gets u_brk;
  if grow brk n then
    modify (set_u_brk (u32 (brk + n)));;
    mret brk
  else mret (-1).

Definition morecore (nu : Z) : U Z :=
  let nu := if nu <? 4096 then 4096 else nu in
  p ← sbrk (s32 (u32 (nu * HSIZE)));
  if p =? -1 then mret 0
  else
    modify (upd_hdr p (set_hd_size nu));;
    u_free (hadd p 1);;
    gets u_freep.

Definition nunits (nbytes : Z) : Z := u32 (nbytes + HSIZE - 1) / HSIZE + 1.

Definition malloc (nbytes : Z) : U Z :=
  let n := nunits nbytes in
  freep ← gets u_freep;
  when (freep =? 0)
    (modify (set_u_freep base);;
     modify (upd_hdr base (set_hd_ptr base));;
     modify (upd_hdr base (set_hd_size 0)));;
  prevp ← gets u_freep;
  fuel ← gets walk_fuel;
  h ← gethdr prevp;
  loop (2 * fuel) (fun '(prevp, p) =>
    h ← gethdr p;
    if n <=? hd_size h then
      p' ← (if hd_size h =? n then
              modify (upd_hdr prevp (set_hd_ptr (hd_ptr h)));;
              mret p
            else
              modify (upd_hdr p (set_hd_size (u32 (hd_size h - n))));;
              let p' := hadd p (u32 (hd_size h - n)) in
              modify (upd_hdr p' (set_hd_size n));;
              mret p');
      modify (set_u_freep prevp);;
      mret (inr (hadd p' 1))
    else
      freep ← gets u_freep;
      if p =? freep then
        p ← morecore n;
        if p =? 0 then mret (inr 0)
        else
          h ← gethdr p;
          mret (inl (p, hd_ptr h))
      else mret (inl (p, hd_ptr h))) (prevp, hd_ptr h).

End Umalloc.
