(* ===== verification/UmallocProps.v ===== *)
(** * [malloc] and [free] hand out disjoint blocks ([umalloc.c])

    The free list as the list of its blocks, lowest first: [free] puts a block
    in its place and joins it with its neighbours, [malloc] takes a block or a
    part of one, and the blocks in use stay disjoint from each other and from
    the free ones. *)

From Stdlib Require Import Sorting.Sorted.
From S2P Require Import Prelude Monad Umalloc.

Lemma hdr_upd_eq p f s : hdr (upd_hdr p f s) p = f (hdr s p).
Proof. unfold hdr at 1, upd_hdr. cbn [u_hdr set_u_hdr]. by rewrite lookup_insert_eq. Qed.
Lemma hdr_upd_ne p q f s : q <> p -> hdr (upd_hdr p f s) q = hdr s q.
Proof. intros H. unfold hdr, upd_hdr. cbn [u_hdr set_u_hdr]. by rewrite lookup_insert_ne. Qed.

Lemma ssorted_app_r (l1 l2 : list Z) : StronglySorted Z.lt (l1 ++ l2) -> StronglySorted Z.lt l2.
Proof. induction l1 as [|x l1 IH]; [done|]. intros [H _]%StronglySorted_inv. by apply IH. Qed.

(** ** Chains of pointers *)

(** Following [ptr] through [l] leads to [e]. *)
Fixpoint lk (s : uheap) (l : list Z) (e : Z) : Prop :=
  match l with
  | [] => True
  | x :: l' => hd_ptr (hdr s x) = hd e l' /\ lk s l' e
  end.

Lemma lk_app s l1 l2 e : lk s (l1 ++ l2) e <-> lk s l1 (hd e l2) /\ lk s l2 e.
Proof.
  induction l1 as [|x l1 IH]; simpl; [tauto|]. rewrite IH.
  assert (hd e (l1 ++ l2) = hd (hd e l2) l1) as -> by (by destruct l1). tauto.
Qed.

Lemma lk_frame s s' l e : (forall x, x ∈ l -> hd_ptr (hdr s' x) = hd_ptr (hdr s x)) -> lk s l e -> lk s' l e.
Proof.
  induction l as [|x l IH]; intros H; [done|]. intros [H1 H2]. split; [rewrite H by left; done|].
  apply IH; [|done]. intros y Hy. apply H. by right.
Qed.

(** The pointer of a node. *)
Lemma lk_next s l1 x l2 e : lk s (l1 ++ x :: l2) e -> hd_ptr (hdr s x) = hd e l2.
Proof. rewrite lk_app. by intros [_ [H _]]. Qed.

(** ** Blocks *)

(** A block: the address of its header, and its size in headers. *)
Abbreviation block := (Z * Z)%type.
Definition bend (b : block) : Z := b.1 + 8 * b.2.
Definition disj (b c : block) : Prop := bend b <= c.1 \/ bend c <= b.1.

Lemma disj_sym b c : disj b c -> disj c b.
Proof. unfold disj. tauto. Qed.

(** Free blocks between [lo] and [hi], with gaps between them. *)
Fixpoint ordered (lo : Z) (L : list block) (hi : Z) : Prop :=
  match L with
  | [] => lo <= hi
  | b :: L' => lo < b.1 /\ 1 <= b.2 /\ ordered (bend b) L' hi
  end.

Lemma ordered_app lo L1 L2 hi :
  ordered lo (L1 ++ L2) hi <-> ordered lo L1 (default lo (bend <$> last L1)) /\ ordered (default lo (bend <$> last L1)) L2 hi.
Proof.
  revert lo. induction L1 as [|b L1 IH]; intros lo; [simpl; intuition lia|].
  cbn [app ordered]. rewrite IH. rewrite last_cons. destruct (last L1) as [c|]; simpl; [tauto|]. intuition lia.
Qed.

Lemma ordered_le lo L hi : ordered lo L hi -> lo <= hi.
Proof. revert lo. induction L as [|[a n] L IH]; intros lo; simpl; [done|]. intros (? & ? & H%IH). unfold bend in H. simpl in *. lia. Qed.

Lemma ordered_in lo L hi b : ordered lo L hi -> b ∈ L -> lo < b.1 /\ 1 <= b.2 /\ bend b <= hi.
Proof.
  revert lo. induction L as [|c L IH]; intros lo; simpl; [by intros _ ?%elem_of_nil|].
  intros (H1 & H2 & H3) [->|Hin]%elem_of_cons.
  - split; [done|]. split; [done|]. by eapply ordered_le.
  - destruct (IH _ H3 Hin) as (? & ? & ?). unfold bend in *. split; [lia|done].
Qed.

Lemma ordered_mono lo lo' L hi hi' : ordered lo L hi -> lo' <= lo -> hi <= hi' -> ordered lo' L hi'.
Proof.
  revert lo lo'. induction L as [|b L IH]; intros lo lo'; simpl; [lia|]. intros (H1 & H2 & H3) ? ?.
  split; [lia|]. split; [done|]. eapply IH; [exact H3|lia|done].
Qed.

Section Props.
Context (base : Z) (grow : Z -> Z -> bool).

Definition nodes (L : list block) : list Z := base :: L.*1.

Lemma nodes_app L1 L2 : nodes (L1 ++ L2) = nodes L1 ++ L2.*1.
Proof. unfold nodes. by rewrite fmap_app. Qed.

Lemma nodes_nodup L hi : ordered base L hi -> NoDup (nodes L).
Proof.
  unfold nodes. generalize base as lo. induction L as [|b L IH]; intros lo; cbn [ordered fmap list_fmap].
  - intros _. apply NoDup_singleton.
  - intros (H1 & H2 & H3). apply NoDup_cons. split.
    + intros [->|(c & -> & Hc)%list_elem_of_fmap]%elem_of_cons; [lia|].
      destruct (ordered_in _ _ _ c H3 Hc). unfold bend in *. lia.
    + apply (IH b.1). eapply ordered_mono; [exact H3| |done]. unfold bend. lia.
Qed.

(** The heap: the free blocks [L] and the blocks in use [A]. *)
Record heap_ok (s : uheap) (L A : list block) : Prop := {
  ho_base : 0 < base < u_brk s;
  ho_brk : u_brk s < 2147483648;
  ho_ord : ordered base L (u_brk s);
  ho_link : lk s (nodes L) base;
  ho_free b : b ∈ L -> hd_size (hdr s b.1) = b.2;
  ho_zero : hd_size (hdr s base) = 0;
  ho_dom x : x ∈ nodes L -> is_Some (u_hdr s !! x);
  ho_freep : u_freep s ∈ nodes L;
  ho_used b : b ∈ A -> base < b.1 /\ 1 <= b.2 /\ bend b <= u_brk s /\ hd_size (hdr s b.1) = b.2;
  ho_clear b c : b ∈ A -> c ∈ L -> disj b c;
  ho_disj : ForallOrdPairs disj A;
}.

Lemma heap_fuel s L A : heap_ok s L A -> (length L < size (u_hdr s))%nat.
Proof.
  intros H. pose proof (nodes_nodup L _ (ho_ord _ _ _ H)) as Hnd.
  assert (length (nodes L) <= size (u_hdr s))%nat as Hle.
  { rewrite <- size_dom, <- (size_list_to_set (C := gset Z) (nodes L) Hnd). apply subseteq_size.
    intros x Hx%elem_of_list_to_set. by apply elem_of_dom, (ho_dom _ _ _ H). }
  unfold nodes in Hle. cbn [length] in Hle. rewrite length_fmap in Hle. lia.
Qed.

(** ** The walk of [free] *)

Definition free_body (bp : Z) (p : Z) : U (Z + Z) :=
  h ← gethdr p;
  if (p <? bp) && (bp <? hd_ptr h) then mret (inr p)
  else if (hd_ptr h <=? p) && ((p <? bp) || (bp <? hd_ptr h)) then mret (inr p)
  else mret (inl (hd_ptr h)).

(** [p] is the place for [bp]: the nodes up to it are below, the others above. *)
Record place (s : uheap) (bp p : Z) (A B : list Z) : Prop := {
  pl_link : lk s (A ++ p :: B) base;
  pl_head : hd p A = base;
  pl_sorted : StronglySorted Z.lt (A ++ p :: B);
  pl_low x : x ∈ A -> x < bp;
  pl_p : p < bp;
  pl_high x : x ∈ B -> bp < x;
}.

Lemma place_base s bp p A B : place s bp p A B -> base < bp.
Proof. intros [_ Hh _ Hl Hp _]. destruct A as [|a A]; simpl in Hh; subst; [done|]. apply Hl. by left. Qed.

Lemma walk_stop s bp p A B : place s bp p A B -> free_body bp p s = Ret (inr p) s.
Proof.
  intros H. pose proof (place_base _ _ _ _ _ H) as Hb. destruct H as [Hk Hh Hs Hl Hp Hu]. unfold free_body. kstep.
  rewrite (lk_next _ _ _ _ _ Hk). rewrite (proj2 (Z.ltb_lt p bp)) by done. destruct B as [|b B]; cbn [hd andb].
  - rewrite (proj2 (Z.ltb_ge bp base)), (proj2 (Z.leb_le base p)); [done| |lia].
    destruct A as [|a A]; simpl in Hh; subst; [done|].
   
    apply StronglySorted_inv in Hs as [_ Hs%Forall_app]. destruct Hs as [_ Hs%Forall_inv]. lia.
  - by rewrite (proj2 (Z.ltb_lt bp b)) by (apply Hu; by left).
Qed.

(** From a node below the place. *)
Lemma walk_low A2 A1 x s bp p B fuel :
  place s bp p (A1 ++ x :: A2) B -> (length A2 + 1 < fuel)%nat ->
  loop fuel (free_body bp) x s = Ret p s.
Proof.
  revert A1 x fuel. induction A2 as [|y A2 IH]; intros A1 x fuel H Hf; (destruct fuel as [|fuel]; [lia|]).
  - assert (free_body bp x s = Ret (inl p) s) as Hr.
    { pose proof H as [Hk _ Hs Hl Hp _]. unfold free_body. kstep. rewrite <- app_assoc in Hk, Hs. cbn [app] in Hk, Hs.
      rewrite (lk_next _ _ _ _ _ Hk). cbn [hd].
      apply ssorted_app_r, StronglySorted_inv in Hs as [_ Hs%Forall_inv].
      rewrite (proj2 (Z.ltb_ge bp p)), (proj2 (Z.leb_gt p x)) by lia. by rewrite andb_false_r. }
    rewrite (loop_next _ _ _ _ _ _ Hr). destruct fuel as [|fuel]; [simpl in Hf; lia|].
    apply loop_done. by eapply walk_stop.
  - assert (free_body bp x s = Ret (inl y) s) as Hr.
    { pose proof H as [Hk _ Hs Hl Hp _]. unfold free_body. kstep. rewrite <- app_assoc in Hk, Hs. cbn [app] in Hk, Hs.
      rewrite (lk_next _ _ _ _ _ Hk). cbn [hd].
      apply ssorted_app_r, StronglySorted_inv in Hs as [_ Hs%Forall_inv].
      assert (y < bp) by (apply Hl, elem_of_app; right; right; by left).
      rewrite (proj2 (Z.ltb_ge bp y)), (proj2 (Z.leb_gt y x)) by lia. by rewrite andb_false_r. }
    rewrite (loop_next _ _ _ _ _ _ Hr). apply (IH (A1 ++ [x])); [|simpl in Hf; lia]. by rewrite <- app_assoc.
Qed.

(** From a node above. *)
Lemma walk_high B2 B1 x s bp p A fuel :
  place s bp p A (B1 ++ x :: B2) -> (length B2 + length A + 3 < fuel)%nat ->
  loop fuel (free_body bp) x s = Ret p s.
Proof.
  revert B1 x fuel. induction B2 as [|y B2 IH]; intros B1 x fuel H Hf; (destruct fuel as [|fuel]; [lia|]).
  - pose proof (place_base _ _ _ _ _ H) as Hb. pose proof H as [Hk Hh Hs Hl Hp Hu].
    assert (bp < x) as Hx by (apply Hu, elem_of_app; right; by left).
    assert (free_body bp x s = Ret (inl base) s) as Hr.
    { unfold free_body. kstep. rewrite app_comm_cons, app_assoc in Hk. rewrite (lk_next _ _ _ _ _ Hk). cbn [hd].
      rewrite (proj2 (Z.ltb_ge x bp)), (proj2 (Z.ltb_ge bp base)) by lia. cbn [andb orb]. by rewrite andb_false_r. }
    rewrite (loop_next _ _ _ _ _ _ Hr). destruct A as [|a A]; simpl in Hh; subst.
    + destruct fuel as [|fuel]; [simpl in Hf; lia|]. apply loop_done. by eapply walk_stop.
    + apply (walk_low A [] base s bp p (B1 ++ [x])); [done|simpl in Hf; lia].
  - assert (free_body bp x s = Ret (inl y) s) as Hr.
    { pose proof H as [Hk _ Hs Hl Hp Hu]. unfold free_body. kstep. rewrite app_comm_cons, app_assoc in Hk, Hs.
      rewrite (lk_next _ _ _ _ _ Hk). cbn [hd].
      apply ssorted_app_r, StronglySorted_inv in Hs as [_ Hs%Forall_inv].
      assert (bp < x) by (apply Hu, elem_of_app; right; by left).
      rewrite (proj2 (Z.ltb_ge x bp)), (proj2 (Z.leb_gt y x)) by lia. done. }
    rewrite (loop_next _ _ _ _ _ _ Hr). apply (IH (B1 ++ [x])); [|simpl in Hf; lia]. by rewrite <- app_assoc.
Qed.

Lemma free_walk s bp p A B x fuel :
  place s bp p A B -> x ∈ A ++ p :: B -> (length A + length B + 3 < fuel)%nat ->
  loop fuel (free_body bp) x s = Ret p s.
Proof.
  intros H [Hx|[->|Hx]%elem_of_cons]%elem_of_app Hf.
  - apply list_elem_of_split in Hx as (A1 & A2 & ->). rewrite length_app in Hf. simpl in Hf.
    eapply walk_low; [exact H|lia].
  - destruct fuel as [|fuel]; [lia|]. apply loop_done. by eapply walk_stop.
  - apply list_elem_of_split in Hx as (B1 & B2 & ->). rewrite length_app in Hf. simpl in Hf.
    eapply walk_high; [exact H|lia].
Qed.

(** ** Where a block belongs *)

Lemma ordered_split lo L hi bp n :
  ordered lo L hi -> 1 <= n -> (forall c, c ∈ L -> disj (bp, n) c) ->
  exists L1 L2, L = L1 ++ L2 /\ (forall c, c ∈ L1 -> bend c <= bp) /\ (forall c, c ∈ L2 -> bp + 8 * n <= c.1).
Proof.
  revert lo. induction L as [|b L IH]; intros lo Ho Hn Hd.
  { exists [], []. split; [done|]. split; by intros c ?%elem_of_nil. }
  destruct Ho as (H1 & H2 & H3). destruct (Hd b) as [Hb|Hb]; [by left| |].
  - exists [], (b :: L). split; [done|]. split; [by intros c ?%elem_of_nil|]. intros c [->|Hc]%elem_of_cons; [exact Hb|].
    destruct (ordered_in _ _ _ c H3 Hc) as (? & _). unfold bend in *. simpl in *. lia.
  - destruct (IH _ H3 Hn) as (L1 & L2 & -> & HL1 & HL2); [intros c Hc; apply Hd; by right|].
    exists (b :: L1), L2. split; [done|]. split; [|done]. intros c [->|Hc]%elem_of_cons; [exact Hb|by apply HL1].
Qed.

Lemma nodes_sorted L hi : ordered base L hi -> StronglySorted Z.lt (nodes L).
Proof.
  unfold nodes. generalize base as lo. induction L as [|b L IH]; intros lo; cbn [ordered fmap list_fmap].
  - intros _. constructor; constructor.
  - intros (H1 & H2 & H3). assert (ordered b.1 L hi) as H4 by (eapply ordered_mono; [exact H3|unfold bend; lia|done]).
    constructor; [exact (IH _ H4)|]. constructor; [done|]. apply Forall_fmap, Forall_forall. intros c Hc. simpl.
    destruct (ordered_in _ _ _ c H4 Hc). lia.
Qed.

(** The last node below a block. *)
Lemma nodes_last L1 : exists A p, nodes L1 = A ++ [p] /\
  ((L1 = [] /\ p = base /\ A = []) \/ exists L1' k, L1 = L1' ++ [(p, k)] /\ A = nodes L1').
Proof.
  destruct (exists_last (l := nodes L1)) as (A & p & E); [done|]. exists A, p. split; [exact E|].
  destruct L1 as [|b L1 _] using rev_ind.
  - left. destruct A as [|x A]; [|destruct A; discriminate E]. injection E as <-. done.
  - right. rewrite nodes_app in E. change ([b].*1) with [b.1] in E. apply app_inj_tail in E as [<- <-]. destruct b as [b k]. exists L1, k. done.
Qed.

Lemma block_place s L A bp n :
  heap_ok s L ((bp, n) :: A) ->
  exists L1 L2 P p, L = L1 ++ L2 /\ nodes L1 = P ++ [p] /\ place s bp p P L2.*1 /\
    (forall c, c ∈ L1 -> bend c <= bp) /\ (forall c, c ∈ L2 -> bp + 8 * n <= c.1).
Proof.
  intros H. destruct (ho_used _ _ _ H (bp, n)) as (Hb & Hn & _); [by left|]. simpl in Hb, Hn.
  destruct (ordered_split _ _ _ bp n (ho_ord _ _ _ H) Hn) as (L1 & L2 & -> & HL1 & HL2).
  { intros c Hc. apply (ho_clear _ _ _ H); [by left|done]. }
  destruct (nodes_last L1) as (P & p & E & _). exists L1, L2, P, p. split; [done|]. split; [exact E|]. split; [|done].
  assert (nodes (L1 ++ L2) = P ++ p :: L2.*1) as En by (rewrite nodes_app, E, <- app_assoc; done).
  assert (forall x, x ∈ nodes L1 -> x < bp) as Hlow.
  { intros x [->|(c & -> & Hc)%list_elem_of_fmap]%elem_of_cons; [done|]. pose proof (HL1 c Hc).
    destruct (ordered_in _ _ _ c (ho_ord _ _ _ H)) as (_ & ? & _); [apply elem_of_app; by left|]. unfold bend in *. lia. }
  split.
  - rewrite <- En. apply H.
  - destruct P as [|x P]; injection E; intros; subst; done.
  - rewrite <- En. eapply nodes_sorted, H.
  - intros x Hx. apply Hlow. rewrite E. apply elem_of_app. by left.
  - apply Hlow. rewrite E. apply elem_of_app. right. by left.
  - intros x (c & -> & Hc)%list_elem_of_fmap. pose proof (HL2 c Hc). lia.
Qed.

(** ** Joining with the neighbours *)

(** The block with the free block behind it, and the free blocks left. *)
Definition join_up (bp n : Z) (L2 : list block) : Z * list block :=
  match L2 with
  | (b, m) :: L2' => if bp + 8 * n =? b then (n + m, L2') else (n, L2)
  | [] => (n, [])
  end.

Lemma join_up_spec bp n L2 lo hi n' L2' :
  lo < bp -> 1 <= n -> bp + 8 * n <= hi -> ordered lo L2 hi -> (forall c, c ∈ L2 -> bp + 8 * n <= c.1) ->
  join_up bp n L2 = (n', L2') ->
  ordered lo ((bp, n') :: L2') hi /\ n <= n' /\ (forall c, c ∈ L2' -> c ∈ L2) /\
  (forall x, (bp <= x < bp + 8 * n' \/ exists c, c ∈ L2' /\ c.1 <= x < bend c) <->
             (bp <= x < bp + 8 * n \/ exists c, c ∈ L2 /\ c.1 <= x < bend c)) /\
  (forall b, 1 <= b.2 -> disj b (bp, n) -> (forall c, c ∈ L2 -> disj b c) -> disj b (bp, n')).
Proof.
  intros Hlo Hn Hhi Ho HL2. destruct L2 as [|[b m] L2]; simpl.
  { intros [= <- <-]. split; [simpl; unfold bend; simpl; lia|]. split; [lia|]. split; [done|]. done. }
  destruct Ho as (O1 & O2 & O3). simpl in O1, O2. pose proof (HL2 (b, m) ltac:(by left)) as Hb. simpl in Hb.
  destruct (Z.eqb_spec (bp + 8 * n) b) as [E|Hne]; intros [= <- <-].
  - split; [|split; [lia|split; [intros c Hc; by right|split]]].
    + simpl. split; [done|]. split; [lia|]. replace (bend (bp, n + m)) with (bend (b, m)) by (unfold bend; simpl; lia). done.
    + intros x. split.
      * intros [Hx|(c & Hc & Hx)]; [|right; exists c; split; [by right|done]].
        destruct (decide (x < b)); [left; lia|right; exists (b, m); split; [by left|unfold bend; simpl; lia]].
      * intros [Hx|(c & [->|Hc]%elem_of_cons & Hx)]; [left; lia|left; unfold bend in Hx; simpl in Hx; lia|].
        right. by exists c.
    + intros d Hd H1 H2. specialize (H2 (b, m) ltac:(by left)). unfold disj, bend in *. simpl in *. lia.
  - split; [|split; [lia|split; [done|split; [done|done]]]]. cbn [ordered fst snd]. split; [done|]. split; [done|].
    split; [unfold bend; simpl; lia|]. done.
Qed.

Lemma join_up_run s L A bp n L1 L2 P p n' L2' :
  heap_ok s L ((bp, n) :: A) -> L = L1 ++ L2 -> nodes L1 = P ++ [p] -> p <> bp -> base < bp ->
  (forall c, c ∈ L2 -> bp + 8 * n <= c.1) -> join_up bp n L2 = (n', L2') ->
  (if hadd bp (hd_size (hdr s bp)) =? hd_ptr (hdr s p) then
     n ← gethdr (hd_ptr (hdr s p));
     modify (upd_hdr bp (fun b => set_hd_size (u32 (hd_size b + hd_size n)) b));;
     modify (upd_hdr bp (set_hd_ptr (hd_ptr n)))
   else modify (upd_hdr bp (set_hd_ptr (hd_ptr (hdr s p))))) s =
  Ret tt (upd_hdr bp (fun _ => mkheader (hd base L2'.*1) n') s).
Proof.
  intros H -> E Hne Hbb HL2. destruct (ho_used _ _ _ H (bp, n)) as (_ & Hn & Hend & Hsz); [by left|]. unfold bend in Hend. simpl in *.
  pose proof (ho_brk _ _ _ H) as Hbrk. pose proof (ho_base _ _ _ H) as Hb0.
  pose proof (ho_link _ _ _ H) as Hk. rewrite nodes_app, E, <- app_assoc in Hk. cbn [app] in Hk.
  rewrite (lk_next _ _ _ _ _ Hk), Hsz. unfold hadd, HSIZE. rewrite (u32_id (bp + 8 * n)) by lia.
  assert (forall f g, upd_hdr bp f (upd_hdr bp g s) = upd_hdr bp (fun h => f (g h)) s) as Hcomp.
  { intros f g. unfold upd_hdr at 1. rewrite hdr_upd_eq. unfold upd_hdr. cbn. by rewrite insert_insert_eq. }
  assert (forall f v, f (hdr s bp) = v -> upd_hdr bp f s = upd_hdr bp (fun _ => v) s) as Hval by (intros f v <-; done).
  destruct L2 as [|[b m] L2]; cbn [join_up fmap list_fmap hd fst].
  - intros [= <- <-]. rewrite (proj2 (Z.eqb_neq _ base)) by lia. unfold modify. f_equal. apply Hval.
    unfold set_hd_ptr. by rewrite Hsz.
  - pose proof (HL2 (b, m) ltac:(by left)) as Hbm. simpl in Hbm. destruct (Z.eqb_spec (bp + 8 * n) b) as [Eb|Hneb]; intros [= <- <-].
    + kstep. kstep. unfold modify. f_equal. rewrite Hcomp. apply Hval. unfold set_hd_ptr, set_hd_size. cbn [hd_size hd_ptr].
      assert (hd_size (hdr s b) = m) as Hbs by (apply (ho_free _ _ _ H (b, m)), elem_of_app; right; by left).
      rewrite Hsz, Hbs.
      destruct (ordered_in _ _ _ (b, m) (ho_ord _ _ _ H)) as (_ & ? & He); [apply elem_of_app; right; by left|].
      unfold bend in He. simpl in *. rewrite u32_id by lia. f_equal.
      assert (lk s ((nodes L1) ++ b :: L2.*1) base) as Hk2 by (rewrite E, <- app_assoc; exact Hk).
      by rewrite (lk_next _ _ _ _ _ Hk2).
    + unfold modify. f_equal. apply Hval. unfold set_hd_ptr. by rewrite Hsz.
Qed.

(** The heap with a block [(q, r)] between the free blocks [X] and [Y]. *)
Lemma joined_ok s s' L A b0 X q r Y :
  heap_ok s L (b0 :: A) -> u_brk s' = u_brk s -> u_freep s' ∈ nodes (X ++ (q, r) :: Y) ->
  (forall x, is_Some (u_hdr s !! x) -> is_Some (u_hdr s' !! x)) -> is_Some (u_hdr s' !! q) ->
  ordered base (X ++ (q, r) :: Y) (u_brk s) -> (forall c, c ∈ X ++ Y -> c ∈ L) ->
  lk s' (nodes X) q -> hdr s' q = mkheader (hd base Y.*1) r -> lk s' Y.*1 base ->
  (forall c, c ∈ X ++ Y -> hd_size (hdr s' c.1) = hd_size (hdr s c.1)) -> hd_size (hdr s' base) = hd_size (hdr s base) ->
  (forall b, b ∈ A -> hd_size (hdr s' b.1) = hd_size (hdr s b.1)) -> (forall b, b ∈ A -> disj b (q, r)) ->
  heap_ok s' (X ++ (q, r) :: Y) A.
Proof.
  intros H Ebrk Hfp Hdom Hq Ho Hsub Hl Eq Hly Hsz Hbz HA Hd.
  assert (forall c, c ∈ X ++ (q, r) :: Y -> c = (q, r) \/ c ∈ X ++ Y) as Hin.
  { intros c. rewrite !elem_of_app, elem_of_cons. tauto. }
  split.
  - rewrite Ebrk. apply H.
  - rewrite Ebrk. apply H.
  - by rewrite Ebrk.
  - rewrite nodes_app. apply lk_app. cbn [fmap list_fmap fst hd]. split; [exact Hl|]. split; [by rewrite Eq|exact Hly].
  - intros c [->|Hc]%Hin; [simpl; by rewrite Eq|]. rewrite Hsz by done. apply (ho_free _ _ _ H). by apply Hsub.
  - rewrite Hbz. apply H.
  - intros x [->|(c & -> & [->|Hc]%Hin)%list_elem_of_fmap]%elem_of_cons; [apply Hdom, (ho_dom _ _ _ H); by left|done|].
    apply Hdom, (ho_dom _ _ _ H). right. apply list_elem_of_fmap. exists c. split; [done|by apply Hsub].
  - exact Hfp.
  - intros b Hb. rewrite Ebrk, HA by done. apply (ho_used _ _ _ H). by right.
  - intros b c Hb [->|Hc]%Hin; [by apply Hd|]. apply (ho_clear _ _ _ H); [by right|by apply Hsub].
  - pose proof (ho_disj _ _ _ H) as HF. by inversion HF.
Qed.

(** The bytes of some blocks. *)
Definition covers (L : list block) (x : Z) : Prop := exists c, c ∈ L /\ c.1 <= x < bend c.

Lemma covers_app L1 L2 x : covers (L1 ++ L2) x <-> covers L1 x \/ covers L2 x.
Proof.
  unfold covers. split.
  - intros (c & [Hc|Hc]%elem_of_app & Hx); [left|right]; by exists c.
  - intros [(c & Hc & Hx)|(c & Hc & Hx)]; exists c; (split; [apply elem_of_app|done]); [by left|by right].
Qed.

Lemma covers_cons b L x : covers (b :: L) x <-> b.1 <= x < bend b \/ covers L x.
Proof.
  unfold covers. split.
  - intros (c & [->|Hc]%elem_of_cons & Hx); [by left|right; by exists c].
  - intros [Hx|(c & Hc & Hx)]; [exists b; split; [by left|done]|exists c; split; [by right|done]].
Qed.

Lemma lk_tail s l1 l2 e : lk s (l1 ++ l2) e -> lk s l2 e.
Proof. rewrite lk_app. tauto. Qed.

Lemma join_up_tail bp n L2 n' L2' : join_up bp n L2 = (n', L2') -> exists l, L2 = l ++ L2'.
Proof.
  destruct L2 as [|[b m] L2]; simpl; [by intros [= <- <-]; exists []|].
  destruct (_ =? _); intros [= <- <-]; [by exists [(b, m)]|by exists []].
Qed.

(** The second half of [free]. *)
Definition join_low (bp p : Z) : U unit :=
  b ← gethdr bp;
  h ← gethdr p;
  (if hadd p (hd_size h) =? bp then
     modify (upd_hdr p (fun h => set_hd_size (u32 (hd_size h + hd_size b)) h));;
     modify (upd_hdr p (set_hd_ptr (hd_ptr b)))
   else modify (upd_hdr p (set_hd_ptr bp)));;
  modify (set_u_freep p).

(** The block is not joined with the free block in front of it. *)
Lemma join_low_new s L1 L2 A bp n P p n' L2' :
  heap_ok s (L1 ++ L2) ((bp, n) :: A) -> nodes L1 = P ++ [p] -> p < bp -> base < bp ->
  (forall c, c ∈ L2 -> bp < c.1) -> join_up bp n L2 = (n', L2') -> ordered base (L1 ++ (bp, n') :: L2') (u_brk s) ->
  (forall b, b ∈ A -> disj b (bp, n')) -> p + 8 * hd_size (hdr s p) < bp -> 0 <= p -> 0 <= hd_size (hdr s p) ->
  exists s', join_low bp p (upd_hdr bp (fun _ => mkheader (hd base L2'.*1) n') s) = Ret tt s' /\
    heap_ok s' (L1 ++ (bp, n') :: L2') A /\ u_brk s' = u_brk s.
Proof.
  intros H E Hpb Hbb HL2 Hj Ho Hd Hgap Hp0 Hs0. destruct (join_up_tail _ _ _ _ _ Hj) as [l El].
  pose proof (ho_brk _ _ _ H) as Hbrk. destruct (ho_used _ _ _ H (bp, n)) as (_ & Hn & Hend & _); [by left|].
  unfold bend in Hend. simpl in Hend, Hn.
  set (s1 := upd_hdr bp (fun _ => mkheader (hd base L2'.*1) n') s). set (s2 := set_u_freep p (upd_hdr p (set_hd_ptr bp) s1)).
  assert (forall x, x <> p -> x <> bp -> hdr s2 x = hdr s x) as Hne.
  { intros x H1 H2. change (hdr s2 x) with (hdr (upd_hdr p (set_hd_ptr bp) s1) x). rewrite hdr_upd_ne by done. by apply hdr_upd_ne. }
  assert (hdr s2 bp = mkheader (hd base L2'.*1) n') as Ebp.
  { change (hdr s2 bp) with (hdr (upd_hdr p (set_hd_ptr bp) s1) bp). rewrite hdr_upd_ne by lia. apply hdr_upd_eq. }
  assert (hdr s2 p = set_hd_ptr bp (hdr s p)) as Ep.
  { change (hdr s2 p) with (hdr (upd_hdr p (set_hd_ptr bp) s1) p). rewrite hdr_upd_eq. unfold s1. by rewrite hdr_upd_ne by lia. }
  assert (forall x, x <> bp -> hd_size (hdr s2 x) = hd_size (hdr s x)) as Hsz.
  { intros x Hx. destruct (decide (x = p)) as [->|Hxp]; [by rewrite Ep|by rewrite Hne]. }
  pose proof (nodes_nodup _ _ Ho) as Hnd. rewrite nodes_app, E, <- app_assoc in Hnd. cbn [app fmap list_fmap fst] in Hnd.
  pose proof (ho_link _ _ _ H) as Hk. rewrite nodes_app, E, <- app_assoc in Hk. cbn [app] in Hk.
  exists s2. split; [|split; [|done]].
  - unfold join_low. do 2 kstep. assert (hdr s1 p = hdr s p) as -> by (unfold s1; rewrite hdr_upd_ne by lia; done).
    unfold hadd, HSIZE. rewrite u32_id, (proj2 (Z.eqb_neq _ bp)) by lia. kstep. done.
  - apply (joined_ok s s2 (L1 ++ L2) A (bp, n) L1 bp n' L2'); try done.
    + cbn [u_freep s2 set_u_freep]. rewrite nodes_app, E. apply elem_of_app. left. apply elem_of_app. right. by left.
    + intros x Hx. unfold s2, s1, upd_hdr. cbn. destruct (decide (x = p)) as [->|]; [by rewrite lookup_insert_eq|].
      rewrite lookup_insert_ne by done. destruct (decide (x = bp)) as [->|]; [by rewrite lookup_insert_eq|].
      by rewrite lookup_insert_ne.
    + unfold s2, s1, upd_hdr. cbn. rewrite lookup_insert_ne by lia. by rewrite lookup_insert_eq.
    + intros c [Hc|Hc]%elem_of_app; apply elem_of_app; [by left|right]. rewrite El. apply elem_of_app. by right.
    + rewrite E. apply lk_app. split; [|split; [by rewrite Ep|done]]. apply lk_app in Hk as [Hk _].
      apply (lk_frame s); [|exact Hk]. intros x Hx. rewrite Hne; [done| |].
      * intros ->. apply NoDup_app in Hnd as (_ & Hnd & _). apply (Hnd p Hx). by left.
      * intros ->. apply NoDup_app in Hnd as (_ & Hnd & _). apply (Hnd bp Hx). right. by left.
    + assert (lk s L2'.*1 base) as Hk2.
      { apply (lk_tail s (P ++ p :: l.*1)). rewrite El, fmap_app in Hk. by rewrite <- app_assoc. }
      apply (lk_frame s); [|exact Hk2]. intros x Hx. rewrite Hne; [done| |].
      * intros ->. apply NoDup_app in Hnd as (_ & _ & Hnd). apply NoDup_cons in Hnd as [Hnd _]. apply Hnd. by right.
      * intros ->. apply NoDup_app in Hnd as (_ & _ & Hnd). apply NoDup_cons in Hnd as [_ Hnd]. apply NoDup_cons in Hnd as [Hnd _]. done.
    + intros c Hc. apply Hsz. intros Ec. assert (c.1 ∈ (L1 ++ L2').*1) as Hin by (apply list_elem_of_fmap; by exists c).
      rewrite fmap_app, elem_of_app, Ec in Hin. destruct Hin as [Hin|Hin].
      * apply NoDup_app in Hnd as (_ & Hnd & _). assert (bp ∈ nodes L1) as Hin' by (by right). rewrite E in Hin'.
        apply elem_of_app in Hin' as [Hin'|Hin'%list_elem_of_singleton]; [apply (Hnd bp Hin'); right; by left|lia].
      * apply NoDup_app in Hnd as (_ & _ & Hnd). apply NoDup_cons in Hnd as [_ Hnd]. apply NoDup_cons in Hnd as [Hnd _]. done.
    + apply Hsz. lia.
    + intros b Hb. apply Hsz. intros Eb. pose proof (ho_disj _ _ _ H) as HF. inversion HF as [|? ? HF1 _]; subst.
      pose proof (proj1 (Forall_forall _ _) HF1 b Hb) as Hdj. destruct (ho_used _ _ _ H b) as (_ & ? & _); [by right|].
      unfold disj, bend in Hdj. simpl in Hdj. lia.
Qed.

(** It is joined with the free block [(p, k)]. *)
Lemma join_low_merge s L1 L2 A bp n p k n' L2' :
  heap_ok s ((L1 ++ [(p, k)]) ++ L2) ((bp, n) :: A) -> p + 8 * k = bp -> base < p ->
  join_up bp n L2 = (n', L2') -> ordered base (L1 ++ (p, k + n') :: L2') (u_brk s) -> (forall c, c ∈ L2 -> bp < c.1) ->
  1 <= k -> 1 <= n' -> (forall b, b ∈ A -> disj b (p, k + n')) ->
  exists s', join_low bp p (upd_hdr bp (fun _ => mkheader (hd base L2'.*1) n') s) = Ret tt s' /\
    heap_ok s' (L1 ++ (p, k + n') :: L2') A /\ u_brk s' = u_brk s.
Proof.
  intros H Ebp Hbp Hj Ho HL2 Hk1 Hn1 Hd. destruct (join_up_tail _ _ _ _ _ Hj) as [l El].
  pose proof (ho_brk _ _ _ H) as Hbrk. pose proof (ho_base _ _ _ H) as Hb0.
  assert (bend (p, k + n') <= u_brk s) as Hend.
  { destruct (ordered_in _ _ _ (p, k + n') Ho) as (_ & _ & ?); [apply elem_of_app; right; by left|done]. }
  unfold bend in Hend. simpl in Hend.
  assert (hd_size (hdr s p) = k) as Hpk by (apply (ho_free _ _ _ H (p, k)); set_solver).
  set (s1 := upd_hdr bp (fun _ => mkheader (hd base L2'.*1) n') s).
  set (s2 := set_u_freep p (upd_hdr p (fun _ => mkheader (hd base L2'.*1) (k + n')) s1)).
  assert (forall x, x <> p -> x <> bp -> hdr s2 x = hdr s x) as Hne.
  { intros x H1 H2. change (hdr s2 x) with (hdr (upd_hdr p (fun _ => mkheader (hd base L2'.*1) (k + n')) s1) x).
    rewrite hdr_upd_ne by done. by apply hdr_upd_ne. }
  assert (hdr s2 p = mkheader (hd base L2'.*1) (k + n')) as Ep.
  { change (hdr s2 p) with (hdr (upd_hdr p (fun _ => mkheader (hd base L2'.*1) (k + n')) s1) p). apply hdr_upd_eq. }
  pose proof (nodes_nodup _ _ Ho) as Hnd. rewrite nodes_app in Hnd. cbn [fmap list_fmap fst] in Hnd.
  pose proof (ho_link _ _ _ H) as Hk. rewrite <- app_assoc, nodes_app in Hk. cbn [app fmap list_fmap fst] in Hk.
  assert (forall c, c ∈ L1 -> c.1 <> bp) as HL1.
  { intros c Hc Ec. apply list_elem_of_split in Hc as (La & Lb & ->). rewrite <- app_assoc in Ho. cbn [app] in Ho.
    apply ordered_app in Ho as [_ (_ & ? & Ho)]. destruct (ordered_in _ _ _ (p, k + n') Ho) as (? & _);
      [apply elem_of_app; right; by left|]. unfold bend in *. simpl in *. lia. }
  assert (forall x, x ∈ nodes L1 -> hdr s2 x = hdr s x) as Hx1.
  { intros x Hx. apply Hne.
    - intros ->. apply NoDup_app in Hnd as (_ & Hnd & _). apply (Hnd p Hx). by left.
    - intros ->. apply elem_of_cons in Hx as [Hx|(c & Ec & Hc)%list_elem_of_fmap]; [lia|]. by apply (HL1 c). }
  assert (forall x, x ∈ L2'.*1 -> hdr s2 x = hdr s x) as Hx2.
  { intros x (c & -> & Hc)%list_elem_of_fmap. assert (c ∈ L2) as Hc2 by (rewrite El; apply elem_of_app; by right).
    pose proof (HL2 c Hc2). apply Hne; lia. }
  exists s2. split; [|split; [|done]].
  - unfold join_low. do 2 kstep. assert (hdr s1 p = hdr s p) as E1 by (unfold s1; rewrite hdr_upd_ne by lia; done).
    assert (hdr s1 bp = mkheader (hd base L2'.*1) n') as E2 by apply hdr_upd_eq.
    rewrite E1, E2, Hpk. unfold hadd, HSIZE. rewrite u32_id by lia. rewrite (proj2 (Z.eqb_eq _ bp)) by lia.
    kstep. unfold modify. f_equal. unfold s2. f_equal. unfold upd_hdr at 1. rewrite hdr_upd_eq, E1. unfold upd_hdr. cbn.
    rewrite insert_insert_eq. unfold set_hd_ptr, set_hd_size. cbn. rewrite Hpk, u32_id by lia. done.
  - apply (joined_ok s s2 ((L1 ++ [(p, k)]) ++ L2) A (bp, n) L1 p (k + n') L2'); try done.
    + cbn [u_freep s2 set_u_freep]. rewrite nodes_app. apply elem_of_app. right. by left.
    + intros x Hx. unfold s2, s1, upd_hdr. cbn. destruct (decide (x = p)) as [->|]; [by rewrite lookup_insert_eq|].
      rewrite lookup_insert_ne by done. destruct (decide (x = bp)) as [->|]; [by rewrite lookup_insert_eq|].
      by rewrite lookup_insert_ne.
    + unfold s2, upd_hdr. cbn. by rewrite lookup_insert_eq.
    + intros c [Hc|Hc]%elem_of_app; rewrite El, !elem_of_app; tauto.
    + apply lk_app in Hk as [Hk _]. cbn [hd] in Hk. apply (lk_frame s); [|exact Hk]. intros x Hx. by rewrite Hx1.
    + assert (lk s L2'.*1 base) as Hk2.
      { apply (lk_tail s (nodes L1 ++ p :: l.*1)). rewrite El, fmap_app in Hk. by rewrite <- app_assoc. }
      apply (lk_frame s); [|exact Hk2]. intros x Hx. by rewrite Hx2.
    + intros c [Hc|Hc]%elem_of_app.
      * rewrite Hx1; [done|]. right. apply list_elem_of_fmap. by exists c.
      * rewrite Hx2; [done|]. apply list_elem_of_fmap. by exists c.
    + rewrite Hx1; [done|by left].
    + intros b Hb. rewrite Hne; [done| |].
      * intros Eb. destruct (ho_used _ _ _ H b) as (_ & ? & _); [by right|]. pose proof (Hd b Hb) as Hdj.
        unfold disj, bend in Hdj. simpl in Hdj. lia.
      * intros Eb. destruct (ho_used _ _ _ H b) as (_ & ? & _); [by right|]. pose proof (Hd b Hb) as Hdj.
        unfold disj, bend in Hdj. simpl in Hdj. lia.
Qed.

(** ** [free] *)

(** What [free] achieves: the heap without the block among the used ones. *)
Definition freed (s s' : uheap) (L A : list block) (bp n : Z) : Prop :=
  exists L', heap_ok s' L' A /\ u_brk s' = u_brk s /\
    (forall x, covers L' x <-> bp <= x < bp + 8 * n \/ covers L x) /\ (exists c, c ∈ L' /\ n <= c.2) /\
    (length L' <= S (length L))%nat.

(** The place of a block of size [n] at [bp], with its neighbours. *)
Record fits (s : uheap) (L1 L2 A : list block) (bp n n' : Z) (L2' : list block) : Prop := {
  fi_heap : heap_ok s (L1 ++ L2) ((bp, n) :: A);
  fi_low c : c ∈ L1 -> bend c <= bp;
  fi_high c : c ∈ L2 -> bp + 8 * n <= c.1;
  fi_join : join_up bp n L2 = (n', L2');
}.

Lemma fits_facts s L1 L2 A bp n n' L2' :
  fits s L1 L2 A bp n n' L2' ->
  let lo := default base (bend <$> last L1) in
  base < bp /\ 1 <= n <= n' /\ base <= lo <= bp /\ ordered base L1 lo /\
  (forall lo', lo' < bp -> lo' <= lo -> ordered lo' ((bp, n') :: L2') (u_brk s)) /\
  (forall x, (bp <= x < bp + 8 * n' \/ covers L2' x) <-> (bp <= x < bp + 8 * n \/ covers L2 x)) /\
  (forall b, b ∈ A -> 1 <= b.2 /\ disj b (bp, n') /\ forall c, c ∈ L1 -> disj b c).
Proof.
  intros [H HL1 HL2 Hj] lo. destruct (ho_used _ _ _ H (bp, n)) as (Hbb & Hn & Hend & _); [by left|].
  unfold bend in Hend. cbn [fst snd] in Hbb, Hn, Hend.
  pose proof (ho_ord _ _ _ H) as Ho. apply ordered_app in Ho as [Ho1 Ho2]. fold lo in Ho1, Ho2.
  assert (base <= lo <= bp) as Hlo.
  { split; [by eapply ordered_le|]. unfold lo. destruct (last L1) as [c|] eqn:El; simpl; [|lia].
    apply HL1. by apply last_Some_elem_of in El. }
  assert (forall lo', lo' < bp -> lo' <= lo -> ordered lo' ((bp, n') :: L2') (u_brk s) /\ n <= n' /\
    (forall x, (bp <= x < bp + 8 * n' \/ covers L2' x) <-> (bp <= x < bp + 8 * n \/ covers L2 x)) /\
    (forall b, 1 <= b.2 -> disj b (bp, n) -> (forall c, c ∈ L2 -> disj b c) -> disj b (bp, n'))) as Hup.
  { intros lo' H1 H2. destruct (join_up_spec bp n L2 lo' (u_brk s) n' L2') as (J1 & J2 & _ & J4 & J5); try done.
    eapply ordered_mono; [exact Ho2|done|lia]. }
  destruct (Hup (base - 1) ltac:(lia) ltac:(lia)) as (_ & J2 & J3 & J4).
  split; [done|]. split; [done|]. split; [done|]. split; [done|]. split; [intros lo' H1 H2; by apply Hup|]. split; [exact J3|].
  intros b Hb. assert (1 <= b.2) as Hb1 by (apply (ho_used _ _ _ H b); by right). split; [done|].
  assert (forall c, c ∈ L1 ++ L2 -> disj b c) as Hc by (intros c; apply (ho_clear _ _ _ H); by right).
  split; [|intros c Hc1; apply Hc, elem_of_app; by left]. apply J4; [done| |intros c Hc2; apply Hc, elem_of_app; by right].
  apply disj_sym. pose proof (ho_disj _ _ _ H) as HF.
  assert (Forall (disj (bp, n)) A) as HF1 by (by inversion HF). exact (proj1 (Forall_forall _ _) HF1 b Hb).
Qed.

Lemma free_merge s L1 L2 A bp n p k n' L2' :
  fits s (L1 ++ [(p, k)]) L2 A bp n n' L2' -> p + 8 * k = bp ->
  exists s', join_low bp p (upd_hdr bp (fun _ => mkheader (hd base L2'.*1) n') s) = Ret tt s' /\
    freed s s' ((L1 ++ [(p, k)]) ++ L2) A bp n.
Proof.
  intros Hf Em. destruct (fits_facts _ _ _ _ _ _ _ _ Hf) as (Hbb & Hn & Hlo & Ho & Hup & J3 & HA). destruct Hf as [H HL1 HL2 Hj].
  rewrite last_snoc in *. cbn [fmap option_fmap option_map default] in *.
  apply ordered_app in Ho as [Ho0 Ho1]. set (lo1 := default base (bend <$> last L1)) in *.
  destruct Ho1 as (O1 & O2 & _). cbn [fst snd] in O1, O2. assert (base <= lo1) as Hlo1 by (by eapply ordered_le).
  destruct (Hup p ltac:(lia)) as (_ & _ & J1); [unfold bend; simpl; lia|].
  destruct (join_low_merge s L1 L2 A bp n p k n' L2' H Em ltac:(lia) Hj) as (s' & Hr & Hok & Hb).
  - apply ordered_app. fold lo1. split; [exact Ho0|]. cbn [ordered fst snd]. split; [done|]. split; [lia|].
    replace (bend (p, k + n')) with (bend (bp, n')) by (unfold bend; simpl; lia). exact J1.
  - intros c Hc. pose proof (HL2 c Hc). lia.
  - done.
  - lia.
  - intros b Hb. destruct (HA b Hb) as (H1 & H2 & H3). assert (disj b (p, k)) as H5 by (apply H3; set_solver).
    unfold disj, bend in *. cbn [fst snd] in *. lia.
  - exists s'. split; [exact Hr|]. exists (L1 ++ (p, k + n') :: L2'). split; [exact Hok|]. split; [exact Hb|]. split.
    + intros x. rewrite !covers_app, !covers_cons. unfold bend. cbn [fst snd]. specialize (J3 x).
      assert (covers [] x <-> False) as -> by (split; [by intros (c & ?%elem_of_nil & _)|done]).
      assert (p <= x < p + 8 * (k + n') <-> p <= x < p + 8 * k \/ bp <= x < bp + 8 * n') as -> by lia. tauto.
    + split; [exists (p, k + n'); split; [apply elem_of_app; right; by left|simpl; lia]|].
      destruct (join_up_tail _ _ _ _ _ Hj) as [l ->]. rewrite !length_app. simpl. rewrite ?length_app. lia.
Qed.

Lemma free_new s L1 L2 A bp n P p n' L2' :
  fits s L1 L2 A bp n n' L2' -> nodes L1 = P ++ [p] -> base <= p < bp ->
  default base (bend <$> last L1) = p + 8 * hd_size (hdr s p) -> 0 <= hd_size (hdr s p) -> p + 8 * hd_size (hdr s p) <> bp ->
  exists s', join_low bp p (upd_hdr bp (fun _ => mkheader (hd base L2'.*1) n') s) = Ret tt s' /\ freed s s' (L1 ++ L2) A bp n.
Proof.
  intros Hf E Hp El Hs0 Hne. destruct (fits_facts _ _ _ _ _ _ _ _ Hf) as (Hbb & Hn & Hlo & Ho & Hup & J3 & HA).
  destruct Hf as [H HL1 HL2 Hj]. rewrite El in *. pose proof (ho_base _ _ _ H).
  destruct (join_low_new s L1 L2 A bp n P p n' L2' H E ltac:(lia) Hbb) as (s' & Hr & Hok & Hb); [|done| | |lia|lia|done|].
  - intros c Hc. pose proof (HL2 c Hc). lia.
  - apply ordered_app. rewrite El. split; [exact Ho|]. apply Hup; lia.
  - intros b Hb. exact (proj1 (proj2 (HA b Hb))).
  - exists s'. split; [exact Hr|]. exists (L1 ++ (bp, n') :: L2'). split; [exact Hok|]. split; [exact Hb|]. split.
    + intros x. rewrite !covers_app, covers_cons. unfold bend. cbn [fst snd]. specialize (J3 x). tauto.
    + split; [exists (bp, n'); split; [apply elem_of_app; right; by left|simpl; lia]|].
      destruct (join_up_tail _ _ _ _ _ Hj) as [l ->]. rewrite !length_app. simpl. rewrite ?length_app. lia.
Qed.

Lemma free_run s L A bp n :
  heap_ok s L ((bp, n) :: A) -> exists s', u_free (hadd bp 1) s = Ret tt s' /\ freed s s' L A bp n.
Proof.
  intros H. destruct (block_place _ _ _ _ _ H) as (L1 & L2 & P & p & -> & E & Hpl & HL1 & HL2).
  destruct (ho_used _ _ _ H (bp, n)) as (Hbb & Hn & Hend & _); [by left|]. unfold bend in Hend. cbn [fst snd] in Hbb, Hn, Hend.
  pose proof (ho_brk _ _ _ H) as Hbrk. pose proof (ho_base _ _ _ H) as Hb0. pose proof (pl_p _ _ _ _ _ Hpl) as Hpb.
  destruct (join_up bp n L2) as [n' L2'] eqn:Hj.
  assert (fits s L1 L2 A bp n n' L2') as Hf by (by split).
  assert (exists s', join_low bp p (upd_hdr bp (fun _ => mkheader (hd base L2'.*1) n') s) = Ret tt s' /\
    freed s s' (L1 ++ L2) A bp n) as (s' & Hlow & Hres).
  { destruct (nodes_last L1) as (P' & p' & E' & Hcase). rewrite E in E'. apply app_inj_tail in E' as [<- <-].
    destruct Hcase as [(-> & -> & ->)|(L1' & k & -> & ->)].
    - apply (free_new s [] L2 A bp n [] base n' L2' Hf); rewrite ?(ho_zero _ _ _ H); try done; simpl; lia.
    - assert (hd_size (hdr s p) = k) as Hpk by (apply (ho_free _ _ _ H (p, k)); set_solver).
      destruct (ordered_in _ _ _ (p, k) (ho_ord _ _ _ H)) as (? & ? & _); [set_solver|]. cbn [fst snd] in *.
      destruct (decide (p + 8 * k = bp)) as [Em|Hm]; [by apply free_merge|].
      apply (free_new s (L1' ++ [(p, k)]) L2 A bp n (nodes L1') p n' L2' Hf); rewrite ?Hpk; try done; try lia.
      by rewrite last_snoc. }
  exists s'. split; [|exact Hres]. unfold u_free, hadd, HSIZE.
  assert (u32 (u32 (bp + 8 * 1) - 8) = bp) as -> by (rewrite (u32_id (bp + 8 * 1)) by lia; rewrite u32_id; lia).
  do 2 kstep. fold (free_body bp).
  assert (loop (walk_fuel s) (free_body bp) (u_freep s) s = Ret p s) as Hw.
  { eapply free_walk; [exact Hpl| |].
    - pose proof (ho_freep _ _ _ H) as Hfp. by rewrite nodes_app, E, <- app_assoc in Hfp.
    - pose proof (heap_fuel _ _ _ H) as Hfu. rewrite length_app in Hfu. apply (f_equal length) in E. unfold nodes in E.
      rewrite length_app in E. cbn [length] in E. rewrite length_fmap in *. unfold walk_fuel. lia. }
  rewrite (bind_Ret _ _ _ _ _ Hw). do 2 kstep.
  by rewrite (bind_Ret _ _ _ _ _ (join_up_run s _ A bp n L1 L2 P p n' L2' H eq_refl E ltac:(lia) Hbb HL2 Hj)).
Qed.

(** ** Taking a block *)

Definition malloc_body (n : Z) : Z * Z -> U (Z * Z + Z) := fun '(prevp, p) =>
  h ← gethdr p;
  if n <=? hd_size h then
    p' ← (if hd_size h =? n then
            modify (upd_hdr prevp (set_hd_ptr (hd_ptr h)));;
            mret p
          else
            modify (upd_hdr p (set_hd_size (u32 (hd_size h - n))));;
            let p' := hadd p (u32 (hd_size h - n)) in
            modify (upd_hdr p' (set_hd_size n));;
            mret p');
    modify (set_u_freep prevp);;
    mret (inr (hadd p' 1))
  else
    freep ← gets u_freep;
    if p =? freep then
      p ← morecore grow n;
      if p =? 0 then mret (inr 0)
      else
        h ← gethdr p;
        mret (inl (p, hd_ptr h))
    else mret (inl (p, hd_ptr h)).

(** The free block [p] behind the node [prevp]. *)
Lemma node_block s L A prevp p :
  heap_ok s L A -> prevp ∈ nodes L -> hd_ptr (hdr s prevp) = p -> p <> base ->
  exists L1 k L2 P, L = L1 ++ (p, k) :: L2 /\ nodes L1 = P ++ [prevp].
Proof.
  intros H Hin Hp Hne. apply list_elem_of_split in Hin as (P & C & E).
  pose proof (ho_link _ _ _ H) as Hk. rewrite E in Hk. rewrite (lk_next _ _ _ _ _ Hk) in Hp.
  destruct C as [|c C]; simpl in Hp; [congruence|]. subst c. unfold nodes in E.
  assert (exists l, P ++ [prevp] = base :: l /\ L.*1 = l ++ p :: C) as (l & El & EL).
  { destruct P as [|x P]; simpl in E; injection E; intros; subst; [by exists []|].
    exists (P ++ [prevp]). split; [done|]. rewrite <- app_assoc. done. }
  apply fmap_app_inv in EL as (L1 & L2 & -> & EL2 & ->). apply symmetry, fmap_cons_inv in EL2 as ([p' k] & L2' & -> & _ & ->).
  exists L1, k, L2', P. split; [done|]. unfold nodes. by rewrite El.
Qed.

(** [malloc] has taken [n] headers at [q]. *)
Definition taken (s s' : uheap) (L A : list block) (q n : Z) : Prop :=
  exists L', heap_ok s' L' ((q, n) :: A) /\ u_brk s' = u_brk s /\
    forall x, covers L x <-> q <= x < q + 8 * n \/ covers L' x.

Lemma take_exact s L1 n L2 A P prevp p :
  heap_ok s (L1 ++ (p, n) :: L2) A -> nodes L1 = P ++ [prevp] ->
  taken s (set_u_freep prevp (upd_hdr prevp (set_hd_ptr (hd_ptr (hdr s p))) s)) (L1 ++ (p, n) :: L2) A p n.
Proof.
  intros H E. set (s' := set_u_freep prevp (upd_hdr prevp (set_hd_ptr (hd_ptr (hdr s p))) s)).
  pose proof (nodes_nodup _ _ (ho_ord _ _ _ H)) as Hnd. rewrite nodes_app, E, <- app_assoc in Hnd. cbn [app fmap list_fmap fst] in Hnd.
  pose proof (ho_link _ _ _ H) as Hk. rewrite nodes_app, E, <- app_assoc in Hk. cbn [app fmap list_fmap fst] in Hk.
  assert (hd_ptr (hdr s p) = hd base L2.*1) as Ep.
  { apply (lk_next s (P ++ [prevp])). by rewrite <- app_assoc. }
  assert (forall x, x <> prevp -> hdr s' x = hdr s x) as Hne by (intros x Hx; by apply hdr_upd_ne).
  assert (hdr s' prevp = set_hd_ptr (hd_ptr (hdr s p)) (hdr s prevp)) as Epp by apply hdr_upd_eq.
  assert (forall x, hd_size (hdr s' x) = hd_size (hdr s x)) as Hsz.
  { intros x. destruct (decide (x = prevp)) as [->|Hx]; [by rewrite Epp|by rewrite Hne]. }
  assert (ordered base (L1 ++ L2) (u_brk s)) as Ho.
  { pose proof (ho_ord _ _ _ H) as Ho. apply ordered_app in Ho as [Ho1 (O1 & O2 & O3)]. apply ordered_app. split; [done|].
    eapply ordered_mono; [exact O3| |lia]. cbn [fst snd] in *. assert (p <= bend (p, n)) by (unfold bend; simpl; lia). lia. }
  destruct (ordered_in _ _ _ (p, n) (ho_ord _ _ _ H)) as (Hb & Hn & Hend); [apply elem_of_app; right; by left|].
  exists (L1 ++ L2). split; [|split; [done|]].
  2: { intros x. rewrite !covers_app, covers_cons. unfold bend. cbn [fst snd]. tauto. }
  assert (forall c, c ∈ L1 ++ L2 -> c ∈ L1 ++ (p, n) :: L2) as Hsub by (intros c; rewrite !elem_of_app, elem_of_cons; tauto).
  assert (nodes (L1 ++ L2) = P ++ prevp :: L2.*1) as En by (rewrite nodes_app, E, <- app_assoc; done).
  split.
  - apply H.
  - apply H.
  - exact Ho.
  - rewrite En. apply lk_app. cbn [hd]. split; [|split; [by rewrite Epp|]].
    + apply lk_app in Hk as [Hk _]. apply (lk_frame s); [|exact Hk]. intros x Hx. rewrite Hne; [done|]. intros ->.
      apply NoDup_app in Hnd as (_ & Hnd & _). apply (Hnd prevp Hx). by left.
    + apply (lk_frame s); [|apply (lk_tail s (P ++ [prevp; p])); by rewrite <- app_assoc].
      intros x Hx. rewrite Hne; [done|]. intros ->. apply NoDup_app in Hnd as (_ & _ & Hnd). apply NoDup_cons in Hnd as [Hnd _].
      apply Hnd. by right.
  - intros c Hc. rewrite Hsz. apply (ho_free _ _ _ H). by apply Hsub.
  - rewrite Hsz. apply H.
  - intros x Hx. unfold s', upd_hdr. cbn. destruct (decide (x = prevp)) as [->|]; [by rewrite lookup_insert_eq|].
    rewrite lookup_insert_ne by done. apply (ho_dom _ _ _ H). rewrite nodes_app in *. apply elem_of_app in Hx as [Hx|Hx]; apply elem_of_app; [by left|].
    right. by right.
  - rewrite En. apply elem_of_app. right. by left.
  - intros b [->|Hb']%elem_of_cons; rewrite Hsz; [|by apply (ho_used _ _ _ H)]. split; [exact Hb|]. split; [exact Hn|]. split; [exact Hend|].
    apply (ho_free _ _ _ H (p, n)), elem_of_app. right. by left.
  - intros b c [->|Hb']%elem_of_cons Hc; [|apply (ho_clear _ _ _ H); [done|by apply Hsub]].
    pose proof (ho_ord _ _ _ H) as Ho'. apply ordered_app in Ho' as [Ho1 (O1 & O2 & O3)]. cbn [fst snd] in *.
    apply elem_of_app in Hc as [Hc|Hc].
    + right. destruct (ordered_in _ _ _ c Ho1 Hc) as (_ & _ & ?). cbn [fst]. lia.
    + left. destruct (ordered_in _ _ _ c O3 Hc) as (? & _). cbn [fst]. lia.
  - constructor; [|apply H]. apply Forall_forall. intros b Hb'. apply disj_sym, (ho_clear _ _ _ H); [done|].
    apply elem_of_app. right. by left.
Qed.

(** The order of the free blocks when one of them shrinks. *)
Lemma shrink_ordered lo L1 p k n L2 hi :
  ordered lo (L1 ++ (p, k) :: L2) hi -> 1 <= n < k -> ordered lo (L1 ++ (p, k - n) :: L2) hi.
Proof.
  intros Ho Hn. apply ordered_app in Ho as [Ho1 (O1 & O2 & O3)]. apply ordered_app. split; [done|]. cbn [ordered fst snd] in *.
  split; [done|]. split; [lia|]. eapply ordered_mono; [exact O3|unfold bend; simpl; lia|lia].
Qed.

Lemma take_part s L1 k L2 A prevp p n :
  heap_ok s (L1 ++ (p, k) :: L2) A -> prevp ∈ nodes L1 -> 1 <= n < k ->
  let q := p + 8 * (k - n) in
  taken s (set_u_freep prevp (upd_hdr q (set_hd_size n) (upd_hdr p (set_hd_size (k - n)) s))) (L1 ++ (p, k) :: L2) A q n.
Proof.
  intros H Hpp Hn q. set (s' := set_u_freep prevp _). pose proof (ho_ord _ _ _ H) as Ho.
  pose proof (nodes_nodup _ _ Ho) as Hnd. pose proof (shrink_ordered _ _ _ _ n _ _ Ho Hn) as Ho'.
  assert ((p, k) ∈ L1 ++ (p, k) :: L2) as Hin by (apply elem_of_app; right; by left).
  destruct (ordered_in _ _ _ (p, k) Ho Hin) as (Hb & _ & Hend). unfold bend in Hend. cbn [fst snd] in Hb, Hend.
  assert (forall c, c ∈ L1 ++ L2 -> disj (p, k) c) as Hfree.
  { intros c Hc. apply ordered_app in Ho as [Ho1 (O1 & O2 & O3)]. cbn [fst snd] in *. apply elem_of_app in Hc as [Hc|Hc].
    - right. destruct (ordered_in _ _ _ c Ho1 Hc) as (_ & _ & ?). cbn [fst]. lia.
    - left. destruct (ordered_in _ _ _ c O3 Hc) as (? & _). lia. }
  assert (forall c, c ∈ L1 ++ L2 -> c ∈ L1 ++ (p, k) :: L2) as Hsub by (intros c; rewrite !elem_of_app, elem_of_cons; tauto).
  assert (forall b, 1 <= b.2 -> disj (p, k) b -> b.1 <> q /\ b.1 <> p /\ disj (q, n) b) as Hfar.
  { intros b Hb1 Hd. unfold disj, bend, q in *. cbn [fst snd] in *. lia. }
  assert (forall x, x <> q -> x <> p -> hdr s' x = hdr s x) as Hne.
  { intros x H1 H2. change (hdr s' x) with (hdr (upd_hdr q (set_hd_size n) (upd_hdr p (set_hd_size (k - n)) s)) x). by rewrite !hdr_upd_ne. }
  assert (hdr s' p = set_hd_size (k - n) (hdr s p)) as Ep.
  { change (hdr s' p) with (hdr (upd_hdr q (set_hd_size n) (upd_hdr p (set_hd_size (k - n)) s)) p).
    rewrite hdr_upd_ne by (unfold q; lia). apply hdr_upd_eq. }
  assert (hd_size (hdr s' q) = n) as Eq.
  { change (hdr s' q) with (hdr (upd_hdr q (set_hd_size n) (upd_hdr p (set_hd_size (k - n)) s)) q). by rewrite hdr_upd_eq. }
  assert (forall c, c ∈ L1 ++ (p, k - n) :: L2 -> c = (p, k - n) \/ c ∈ L1 ++ L2) as Hcase.
  { intros c. rewrite !elem_of_app, elem_of_cons. tauto. }
  assert (forall c, c ∈ L1 ++ L2 -> hdr s' c.1 = hdr s c.1) as Hkeep.
  { intros c Hc. destruct (ordered_in _ _ _ c Ho (Hsub c Hc)) as (_ & Hc1 & _). destruct (Hfar c Hc1 (Hfree c Hc)) as (? & ? & _). by apply Hne. }
  assert (hdr s' base = hdr s base) as Ebase by (apply Hne; unfold q; lia).
  assert (nodes (L1 ++ (p, k - n) :: L2) = nodes (L1 ++ (p, k) :: L2)) as En by (by rewrite !nodes_app).
  exists (L1 ++ (p, k - n) :: L2). split; [|split; [done|]].
  2: { intros x. rewrite !covers_app, !covers_cons. unfold bend. cbn [fst snd]. 
       assert (p <= x < p + 8 * k <-> q <= x < q + 8 * n \/ p <= x < p + 8 * (k - n)) as -> by (unfold q; lia). tauto. }
  split.
  - apply H.
  - apply H.
  - exact Ho'.
  - rewrite En. apply (lk_frame s); [|apply H]. intros x [->|(c & -> & Hc)%list_elem_of_fmap]%elem_of_cons; [by rewrite Ebase|].
    apply elem_of_app in Hc as [Hc|[->|Hc]%elem_of_cons]; [rewrite Hkeep; [done|set_solver]|cbn [fst]; by rewrite Ep|rewrite Hkeep; [done|set_solver]].
  - intros c [->|Hc]%Hcase; [cbn [fst snd]; by rewrite Ep|]. rewrite Hkeep by done. apply (ho_free _ _ _ H). by apply Hsub.
  - rewrite Ebase. apply H.
  - intros x Hx. rewrite En in Hx. unfold s', upd_hdr. cbn. destruct (decide (x = q)) as [->|]; [by rewrite lookup_insert_eq|].
    rewrite lookup_insert_ne by done. destruct (decide (x = p)) as [->|]; [by rewrite lookup_insert_eq|].
    rewrite lookup_insert_ne by done. by apply (ho_dom _ _ _ H).
  - cbn [u_freep s' set_u_freep]. rewrite nodes_app. apply elem_of_app. by left.
  - intros b [->|Hb']%elem_of_cons.
    + cbn [fst snd]. split; [unfold q; lia|]. split; [lia|]. split; [|exact Eq]. unfold bend, q. cbn [fst snd u_brk s' set_u_freep upd_hdr set_u_hdr]. lia.
    + destruct (ho_used _ _ _ H b Hb') as (H1 & H2 & H3 & H4). split; [done|]. split; [done|]. split; [done|].
      destruct (Hfar b H2) as (? & ? & _); [apply disj_sym, (ho_clear _ _ _ H); done|]. by rewrite Hne.
  - intros b c [->|Hb']%elem_of_cons [->|Hc]%Hcase.
    + right. unfold bend, q. cbn [fst snd]. lia.
    + destruct (ordered_in _ _ _ c Ho (Hsub c Hc)) as (_ & Hc1 & _). by apply Hfar, Hfree.
    + pose proof (ho_clear _ _ _ H b (p, k) Hb' Hin) as Hd. unfold disj, bend in *. cbn [fst snd] in *. lia.
    + apply (ho_clear _ _ _ H); [done|by apply Hsub].
  - constructor; [|apply H]. apply Forall_forall. intros b Hb'. destruct (ho_used _ _ _ H b Hb') as (_ & Hb1 & _).
    apply Hfar; [done|]. apply disj_sym. by apply (ho_clear _ _ _ H).
Qed.

(** One round of [malloc] at a block that is large enough. *)
Lemma malloc_take s L A prevp p n :
  heap_ok s L A -> prevp ∈ nodes L -> hd_ptr (hdr s prevp) = p -> 1 <= n <= hd_size (hdr s p) ->
  exists q s', malloc_body n (prevp, p) s = Ret (inr (hadd q 1)) s' /\ taken s s' L A q n.
Proof.
  intros H Hpp Hp Hn. assert (p <> base) as Hne by (intros ->; rewrite (ho_zero _ _ _ H) in Hn; lia).
  destruct (node_block s L A prevp p H Hpp Hp Hne) as (L1 & k & L2 & P & -> & E).
  assert ((p, k) ∈ L1 ++ (p, k) :: L2) as Hin by (apply elem_of_app; right; by left).
  assert (hd_size (hdr s p) = k) as Hk by (exact (ho_free _ _ _ H _ Hin)). rewrite Hk in Hn.
  destruct (ordered_in _ _ _ _ (ho_ord _ _ _ H) Hin) as (Hb & _ & Hend). unfold bend in Hend. cbn [fst snd] in Hb, Hend.
  pose proof (ho_brk _ _ _ H) as Hbrk. pose proof (ho_base _ _ _ H) as Hb0.
  unfold malloc_body. destruct (decide (k = n)) as [->|Hkn].
  - eexists p, _. split; [|by eapply take_exact]. kstep. rewrite Hk, (proj2 (Z.leb_le _ _)), Z.eqb_refl by lia.
    kstep. kstep. done.
  - eexists (p + 8 * (k - n)), _. split; [|apply (take_part s L1 k L2 A prevp p n H); [|lia]].
    + kstep. rewrite Hk, (proj2 (Z.leb_le _ _)), (proj2 (Z.eqb_neq _ _)) by lia.
      rewrite (u32_id (k - n)) by lia. unfold hadd, HSIZE. rewrite (u32_id (p + 8 * (k - n))) by lia. kstep. kstep. done.
    + rewrite E. apply elem_of_app. right. by left.
Qed.

(** ** The search of [malloc] *)

(** The nodes from [freep] once around. *)
Lemma rotation s L A :
  heap_ok s L A -> exists R, lk s (u_freep s :: R) (u_freep s) /\ u_freep s :: R ≡ₚ nodes L.
Proof.
  intros H. pose proof (ho_freep _ _ _ H) as Hin. apply list_elem_of_split in Hin as (Pa & Pb & E).
  set (x := u_freep s) in *. pose proof (ho_link _ _ _ H) as Hk. rewrite E in Hk. apply lk_app in Hk as [Ha Hb]. cbn [hd] in Ha.
  exists (Pb ++ Pa). split.
  - rewrite app_comm_cons. apply lk_app. split; [|exact Ha].
    assert (hd x Pa = base) as ->; [|exact Hb]. unfold nodes in E. destruct Pa; injection E; intros; subst; done.
  - rewrite E, app_comm_cons. apply Permutation_app_comm.
Qed.

Lemma search n s L A Q : forall prev fuel,
  heap_ok s L A -> 1 <= n -> lk s (prev :: Q) (u_freep s) -> prev ∈ nodes L -> (forall y, y ∈ Q -> y ∈ nodes L) ->
  (u_freep s ∉ Q) -> (length Q < fuel)%nat ->
  (exists q s', loop fuel (malloc_body n) (prev, hd (u_freep s) Q) s = Ret (hadd q 1) s' /\ taken s s' L A q n) \/
  ((forall y, y ∈ u_freep s :: Q -> hd_size (hdr s y) < n) /\ exists prev',
     loop fuel (malloc_body n) (prev, hd (u_freep s) Q) s = loop (fuel - length Q) (malloc_body n) (prev', u_freep s) s).
Proof.
  induction Q as [|y Q IH]; intros prev fuel H Hn Hk Hprev HQ Hx Hf.
  - cbn [hd]. destruct (decide (n <= hd_size (hdr s (u_freep s)))) as [Hfit|Hno].
    + left. destruct Hk as [Hp _]. cbn [hd] in Hp.
      destruct (malloc_take s L A prev (u_freep s) n H Hprev Hp ltac:(lia)) as (q & s' & Hr & Ht).
      exists q, s'. split; [|exact Ht]. destruct fuel as [|fuel]; [simpl in Hf; lia|]. by apply loop_done.
    + right. split; [intros y [->|[]%elem_of_nil]%elem_of_cons; lia|]. exists prev. by rewrite Nat.sub_0_r.
  - destruct Hk as [Hp Hk]. cbn [hd] in *. destruct fuel as [|fuel]; [simpl in Hf; lia|].
    destruct (decide (n <= hd_size (hdr s y))) as [Hfit|Hno].
    + left. destruct (malloc_take s L A prev y n H Hprev Hp ltac:(lia)) as (q & s' & Hr & Ht).
      exists q, s'. split; [by apply loop_done|exact Ht].
    + apply not_elem_of_cons in Hx as [Hxy Hx].
      assert (malloc_body n (prev, y) s = Ret (inl (y, hd (u_freep s) Q)) s) as Hr.
      { unfold malloc_body. kstep. rewrite (proj2 (Z.leb_gt _ _)) by lia. kstep.
        rewrite (proj2 (Z.eqb_neq y _)) by congruence. destruct Hk as [-> _]. done. }
      rewrite (loop_next _ _ _ _ _ _ Hr).
      destruct (IH y fuel H Hn Hk ltac:(apply HQ; by left) ltac:(intros z Hz; apply HQ; by right) Hx ltac:(simpl in Hf; lia))
        as [Hl|[Hall (prev' & E)]]; [by left|right]. split.
      * intros z [->|[->|Hz]%elem_of_cons]%elem_of_cons; [apply Hall; by left|lia|apply Hall; by right].
      * exists prev'. rewrite E. done.
Qed.

(** A search over the whole list. *)
Lemma search_all n s L A fuel :
  heap_ok s L A -> 1 <= n -> (length L < fuel)%nat ->
  let start := (u_freep s, hd_ptr (hdr s (u_freep s))) in
  (exists q s', loop fuel (malloc_body n) start s = Ret (hadd q 1) s' /\ taken s s' L A q n) \/
  ((forall b, b ∈ L -> b.2 < n) /\ hd_size (hdr s (u_freep s)) < n /\ exists prev',
     loop fuel (malloc_body n) start s = loop (fuel - length L) (malloc_body n) (prev', u_freep s) s).
Proof.
  intros H Hn Hf start. destruct (rotation s L A H) as (R & Hk & HP).
  assert (length R = length L) as HR.
  { apply Permutation_length in HP. unfold nodes in HP. cbn [length] in HP. rewrite length_fmap in HP. lia. }
  pose proof (nodes_nodup _ _ (ho_ord _ _ _ H)) as Hnd. rewrite <- HP in Hnd. apply NoDup_cons in Hnd as [Hx _].
  assert (start = (u_freep s, hd (u_freep s) R)) as -> by (unfold start; by destruct Hk as [-> _]).
  destruct (search n s L A R (u_freep s) fuel H Hn Hk) as [Hl|[Hall (prev' & E)]];
    [apply H|intros y Hy; rewrite <- HP; by right|exact Hx|lia|by left|right].
  split; [|split; [apply Hall; by left|exists prev'; by rewrite E, HR]].
  intros b Hb. rewrite <- (ho_free _ _ _ H b Hb). apply Hall. rewrite HP. right. apply list_elem_of_fmap. by exists b.
Qed.

(** ** More memory *)

Hypothesis grow_ok : forall brk n, grow brk n = true -> 0 <= n -> brk + n < 2147483648.

(** The memory [sbrk] has added, as a block in use. *)
Lemma grown s L A nu :
  heap_ok s L A -> 1 <= nu -> u_brk s + 8 * nu < 2147483648 ->
  heap_ok (upd_hdr (u_brk s) (set_hd_size nu) (set_u_brk (u_brk s + 8 * nu) s)) L ((u_brk s, nu) :: A).
Proof.
  intros H Hnu Hb. set (s' := upd_hdr _ _ _). set (brk := u_brk s) in *.
  assert (forall x, x <> brk -> hdr s' x = hdr s x) as Hne by (intros x Hx; unfold s'; by rewrite hdr_upd_ne).
  assert (hd_size (hdr s' brk) = nu) as Ebrk by (unfold s'; by rewrite hdr_upd_eq).
  pose proof (ho_ord _ _ _ H) as Ho. pose proof (ho_base _ _ _ H) as Hb0. fold brk in Ho, Hb0.
  assert (forall x, x ∈ nodes L -> x <> brk) as Hnode.
  { intros x [->|(c & -> & Hc)%list_elem_of_fmap]%elem_of_cons; [lia|]. destruct (ordered_in _ _ _ c Ho Hc) as (_ & ? & ?).
    unfold bend in *. lia. }
  assert (forall b, b ∈ A -> b.1 <> brk) as HA.
  { intros b Hb'. destruct (ho_used _ _ _ H b Hb') as (_ & H1 & H2 & _). unfold bend in H2. fold brk in H2. lia. }
  assert (u_brk s' = brk + 8 * nu) as Eb by done.
  split.
  - rewrite Eb. lia.
  - by rewrite Eb.
  - rewrite Eb. eapply ordered_mono; [exact Ho|lia|lia].
  - apply (lk_frame s); [|apply H]. intros x Hx. by rewrite Hne by (by apply Hnode).
  - intros b Hb'. rewrite Hne; [by apply (ho_free _ _ _ H)|]. apply Hnode. right. apply list_elem_of_fmap. by exists b.
  - rewrite Hne by (apply Hnode; by left). apply H.
  - intros x Hx. unfold s', upd_hdr. cbn. rewrite lookup_insert_ne; [by apply (ho_dom _ _ _ H)|]. intros E. by apply (Hnode x).
  - apply H.
  - intros b [->|Hb']%elem_of_cons; [cbn [fst snd]; unfold bend; cbn [fst snd]; rewrite Eb; lia|].
    destruct (ho_used _ _ _ H b Hb') as (H1 & H2 & H3 & H4). fold brk in H3. rewrite Eb, Hne by (by apply HA).
    split; [done|]. split; [done|]. split; [lia|done].
  - intros b c [->|Hb']%elem_of_cons Hc; [|by apply (ho_clear _ _ _ H)].
    right. destruct (ordered_in _ _ _ c Ho Hc) as (_ & _ & ?). done.
  - constructor; [|apply H]. apply Forall_forall. intros b Hb'. right. destruct (ho_used _ _ _ H b Hb') as (_ & _ & ? & _). done.
Qed.

Lemma nunits_range nbytes : 0 <= nbytes <= 1073741824 -> 1 <= nunits nbytes <= 134217730 /\ nbytes + 8 <= 8 * nunits nbytes.
Proof.
  intros Hn. unfold nunits, HSIZE. rewrite u32_id by lia. pose proof (Z.div_mod (nbytes + 8 - 1) 8). pose proof (Z.mod_pos_bound (nbytes + 8 - 1) 8). lia.
Qed.

(** [morecore] gives up, or adds a free block that is large enough. *)
Lemma morecore_run s L A n :
  heap_ok s L A -> 1 <= n <= 134217730 ->
  morecore grow n s = Ret 0 s \/
  exists s' L', morecore grow n s = Ret (u_freep s') s' /\ heap_ok s' L' A /\ u_freep s' <> 0 /\ u_brk s <= u_brk s' /\
    (forall x, covers L' x <-> u_brk s <= x < u_brk s' \/ covers L x) /\
    (exists c, c ∈ L' /\ n <= c.2) /\ (length L' <= S (length L))%nat.
Proof.
  intros H Hn. set (nu := if n <? 4096 then 4096 else n).
  assert (n <= nu <= 134217730) as Hnu by (unfold nu; destruct (Z.ltb_spec n 4096); lia).
  unfold morecore. fold nu. unfold HSIZE. rewrite (u32_id (nu * 8)), s32_id by lia.
  destruct (grow (u_brk s) (nu * 8)) eqn:Hg.
  2: { left. assert (sbrk grow (nu * 8) s = Ret (-1) s) as Hs by (unfold sbrk; kstep; by rewrite Hg).
       by rewrite (bind_Ret _ _ _ _ _ Hs). }
  pose proof (grow_ok _ _ Hg ltac:(lia)) as Hlim. pose proof (ho_base _ _ _ H) as Hb0.
  assert (sbrk grow (nu * 8) s = Ret (u_brk s) (set_u_brk (u_brk s + 8 * nu) s)) as Hs.
  { unfold sbrk. kstep. rewrite Hg. kstep. rewrite u32_id by lia. by replace (nu * 8) with (8 * nu) by lia. }
  right. destruct (free_run _ L A (u_brk s) nu (grown s L A nu H ltac:(lia) ltac:(lia))) as (s' & Hr & L' & Hok & Eb & Hcov & (c & Hc & Hcn) & Hlen).
  assert (u_brk s' = u_brk s + 8 * nu) as Eb' by (by rewrite Eb).
  exists s', L'. split; [|split; [exact Hok|split; [|split; [lia|split; [|split; [exists c; split; [done|lia]|exact Hlen]]]]]].
  - rewrite (bind_Ret _ _ _ _ _ Hs), (proj2 (Z.eqb_neq _ (-1))) by lia. kstep. by rewrite (bind_Ret _ _ _ _ _ Hr).
  - pose proof (ho_base _ _ _ Hok). pose proof (ho_freep _ _ _ Hok) as Hf.
    apply elem_of_cons in Hf as [->|(d & -> & Hd)%list_elem_of_fmap]; [lia|]. destruct (ordered_in _ _ _ d (ho_ord _ _ _ Hok) Hd). lia.
  - intros x. rewrite Hcov, Eb'. done.
Qed.

(** ** [malloc] *)

Definition got (s s' : uheap) (L A : list block) (n p : Z) : Prop :=
  exists L', u_brk s <= u_brk s' /\
    (p = 0 /\ heap_ok s' L' A /\ (forall x, covers L' x <-> covers L x \/ u_brk s <= x < u_brk s') \/
     exists q, p = q + 8 /\ heap_ok s' L' ((q, n) :: A) /\
       forall x, q <= x < q + 8 * n \/ covers L' x <-> covers L x \/ u_brk s <= x < u_brk s').

Lemma taken_ptr s s' L A q n : taken s s' L A q n -> hadd q 1 = q + 8.
Proof.
  intros (L' & H & _). destruct (ho_used _ _ _ H (q, n)) as (? & ? & ? & _); [by left|]. unfold bend in *. cbn [fst snd] in *.
  pose proof (ho_brk _ _ _ H). pose proof (ho_base _ _ _ H). unfold hadd, HSIZE. rewrite u32_id; lia.
Qed.

Lemma malloc_loop s L A n fuel :
  heap_ok s L A -> 1 <= n <= 134217730 -> (2 * length L + 4 < fuel)%nat ->
  exists p s', loop fuel (malloc_body n) (u_freep s, hd_ptr (hdr s (u_freep s))) s = Ret p s' /\ got s s' L A n p.
Proof.
  intros H Hn Hf. destruct (search_all n s L A fuel H ltac:(lia) ltac:(lia)) as [(q & s' & Hr & Ht)|(Hsmall & Hx & prev & E)].
  { exists (hadd q 1), s'. split; [exact Hr|]. rewrite (taken_ptr _ _ _ _ _ _ Ht). destruct Ht as (L' & Hok & Eb & Hc).
    exists L'. rewrite Eb. split; [lia|]. right. exists q. split; [done|]. split; [done|]. intros x. rewrite (Hc x).
    assert (u_brk s <= x < u_brk s <-> False) as -> by lia. tauto. }
  rewrite E. replace (fuel - length L)%nat with (S (fuel - length L - 1)) by lia.
  assert (forall r s1, morecore grow n s = Ret r s1 -> malloc_body n (prev, u_freep s) s =
    (if r =? 0 then mret (inr 0) else h ← gethdr r; mret (inl (r, hd_ptr h))) s1) as Hbody.
  { intros r s1 Hm. unfold malloc_body. kstep. rewrite (proj2 (Z.leb_gt _ _)) by lia. kstep. rewrite Z.eqb_refl.
    by rewrite (bind_Ret _ _ _ _ _ Hm). }
  destruct (morecore_run s L A n H Hn) as [Hm|(s1 & L1 & Hm & Hok & Hfp & Hbrk & Hcov & (c & Hc & Hcn) & Hlen)].
  - exists 0, s. split; [apply loop_done; by rewrite (Hbody _ _ Hm)|]. exists L. split; [lia|]. left. split; [done|]. split; [done|].
    intros x. assert (u_brk s <= x < u_brk s <-> False) as -> by lia. tauto.
  - assert (malloc_body n (prev, u_freep s) s = Ret (inl (u_freep s1, hd_ptr (hdr s1 (u_freep s1)))) s1) as Hr.
    { rewrite (Hbody _ _ Hm), (proj2 (Z.eqb_neq _ 0)) by done. kstep. done. }
    rewrite (loop_next _ _ _ _ _ _ Hr).
    destruct (search_all n s1 L1 A (fuel - length L - 1) Hok ltac:(lia) ltac:(lia)) as [(q & s' & Hr' & Ht)|(Hno & _)].
    2: { specialize (Hno c Hc). lia. }
    exists (hadd q 1), s'. split; [exact Hr'|]. rewrite (taken_ptr _ _ _ _ _ _ Ht). destruct Ht as (L' & Hok' & Eb & Hc').
    exists L'. rewrite Eb. split; [lia|]. right. exists q. split; [done|]. split; [done|]. intros x.
    rewrite <- (Hc' x), (Hcov x). tauto.
Qed.

(** The heap before the first call. *)
Definition fresh (s : uheap) : Prop := u_freep s = 0 /\ 0 < base < u_brk s /\ u_brk s < 2147483648.

Definition heap_init (s : uheap) : uheap :=
  upd_hdr base (set_hd_size 0) (upd_hdr base (set_hd_ptr base) (set_u_freep base s)).

Lemma heap_init_ok s : fresh s -> heap_ok (heap_init s) [] [].
Proof.
  intros (Hf & Hb & Hbrk). unfold heap_init.
  assert (hdr (heap_init s) base = mkheader base 0) as E.
  { unfold heap_init. rewrite !hdr_upd_eq. done. }
  split; try done; try (by intros b ?%elem_of_nil); try (by intros b c ?%elem_of_nil).
  - simpl. lia.
  - cbn [nodes fmap list_fmap lk hd]. fold (heap_init s). by rewrite E.
  - fold (heap_init s). by rewrite E.
  - intros x [->|[]%elem_of_nil]%elem_of_cons. unfold upd_hdr. cbn. by rewrite lookup_insert_eq.
  - by left.
  - constructor.
Qed.

(** The heap at any time: not used yet, or with its free list. *)
Definition heap_inv (s : uheap) (A : list block) : Prop := (fresh s /\ A = []) \/ exists L, heap_ok s L A.

Lemma malloc_ok s L A nbytes :
  heap_ok s L A -> 0 <= nbytes <= 1073741824 ->
  exists p s', malloc base grow nbytes s = Ret p s' /\ got s s' L A (nunits nbytes) p.
Proof.
  intros H Hn. destruct (nunits_range nbytes Hn) as [Hnu _].
  assert (u_freep s <> 0) as Hfp.
  { pose proof (ho_base _ _ _ H). pose proof (ho_freep _ _ _ H) as Hf.
    apply elem_of_cons in Hf as [->|(d & -> & Hd)%list_elem_of_fmap]; [lia|]. destruct (ordered_in _ _ _ d (ho_ord _ _ _ H) Hd). lia. }
  destruct (malloc_loop s L A (nunits nbytes) (2 * walk_fuel s) H Hnu) as (p & s' & Hr & Hg).
  { pose proof (heap_fuel _ _ _ H). unfold walk_fuel. lia. }
  exists p, s'. split; [|exact Hg]. unfold malloc. kstep. rewrite (proj2 (Z.eqb_neq _ 0)) by done. cbn [when].
  do 4 kstep. exact Hr.
Qed.

Lemma malloc_inv s A nbytes :
  heap_inv s A -> 0 <= nbytes <= 1073741824 ->
  exists p s', malloc base grow nbytes s = Ret p s' /\ exists L, got s s' L A (nunits nbytes) p.
Proof.
  intros [[Hfr ->]|[L H]] Hn.
  - destruct (malloc_ok _ _ _ nbytes (heap_init_ok s Hfr) Hn) as (p & s' & Hr & Hg). exists p, s'. split; [|by exists []].
    destruct Hfr as (Hf & Hb & _). unfold malloc in *. revert Hr. kstep. cbn [heap_init u_freep upd_hdr set_u_hdr set_u_freep].
    rewrite (proj2 (Z.eqb_neq base 0)) by lia. cbn [when]. kstep. intros Hr. kstep. rewrite Hf. cbn [Z.eqb when].
    do 3 kstep. exact Hr.
  - destruct (malloc_ok _ _ _ nbytes H Hn) as (p & s' & Hr & Hg). exists p, s'. split; [exact Hr|by exists L].
Qed.

(** ** Any sequence of calls *)

Inductive ustep : uheap * list block -> uheap * list block -> Prop :=
| us_malloc s A n p s' : 0 <= n <= 1073741824 -> malloc base grow n s = Ret p s' -> p <> 0 ->
    ustep (s, A) (s', (p - 8, nunits n) :: A)
| us_fail s A n s' : 0 <= n <= 1073741824 -> malloc base grow n s = Ret 0 s' -> ustep (s, A) (s', A)
| us_free s A1 b A2 s' : u_free (b.1 + 8) s = Ret tt s' -> ustep (s, A1 ++ b :: A2) (s', A1 ++ A2)
| us_write s A m : (forall x, m !! x <> u_hdr s !! x -> exists b, b ∈ A /\ b.1 + 8 <= x < bend b) ->
    ustep (s, A) (set_u_hdr m s, A).

Lemma disj_perm A A' : A ≡ₚ A' -> ForallOrdPairs disj A -> ForallOrdPairs disj A'.
Proof.
  induction 1 as [|x l l' HP IH|x y l|l1 l2 l3 _ IH1 _ IH2]; intros HF.
  - done.
  - inversion HF; subst. constructor; [|by apply IH]. by rewrite <- HP.
  - inversion HF as [|? ? H1 H2]; subst. inversion H2 as [|? ? H3 H4]; subst. apply Forall_cons in H1 as [H1 H1'].
    constructor; [constructor; [by apply disj_sym|done]|]. by constructor.
  - by apply IH2, IH1.
Qed.

Lemma heap_ok_perm s L A A' : A ≡ₚ A' -> heap_ok s L A -> heap_ok s L A'.
Proof.
  intros HP [H1 H2 H3 H4 H5 H6 H7 H8 H9 H10 H11]. split; try done.
  - intros b Hb. apply H9. by rewrite HP.
  - intros b c Hb. apply H10. by rewrite HP.
  - by eapply disj_perm.
Qed.

Lemma heap_ok_write s L A m :
  heap_ok s L A -> (forall x, m !! x <> u_hdr s !! x -> exists b, b ∈ A /\ b.1 + 8 <= x < bend b) ->
  heap_ok (set_u_hdr m s) L A.
Proof.
  intros H Hm. pose proof (ho_ord _ _ _ H) as Ho.
  assert (forall x, (x ∈ nodes L \/ x ∈ A.*1) -> m !! x = u_hdr s !! x) as Hkeep.
  { intros x Hx. destruct (decide (m !! x = u_hdr s !! x)) as [|Hne]; [done|exfalso].
    destruct (Hm x Hne) as (b & Hb & Hr). destruct (ho_used _ _ _ H b Hb) as (Hb1 & Hb2 & _).
    destruct Hx as [[->|(c & -> & Hc)%list_elem_of_fmap]%elem_of_cons|(c & -> & Hc)%list_elem_of_fmap]; [lia| |].
    - destruct (ordered_in _ _ _ c Ho Hc) as (_ & ? & _). pose proof (ho_clear _ _ _ H b c Hb Hc). unfold disj, bend in *. lia.
    - destruct (ho_used _ _ _ H c Hc) as (_ & ? & _).
      destruct (decide (c = b)) as [->|Hcb]; [lia|].
      assert (disj b c) as Hd; [|unfold disj, bend in *; lia].
      destruct (ForallOrdPairs_In (ho_disj _ _ _ H) b c) as [E|[E|E]]; [by apply list_elem_of_In|by apply list_elem_of_In|congruence|done|by apply disj_sym]. }
  assert (forall x, (x ∈ nodes L \/ x ∈ A.*1) -> hdr (set_u_hdr m s) x = hdr s x) as Hh.
  { intros x Hx. unfold hdr. cbn [u_hdr set_u_hdr]. by rewrite Hkeep. }
  assert (forall c, c ∈ L -> c.1 ∈ nodes L) as HL by (intros c Hc; right; apply list_elem_of_fmap; by exists c).
  split; try apply H.
  - apply (lk_frame s); [|apply H]. intros x Hx. rewrite Hh; [done|by left].
  - intros c Hc. rewrite Hh by (left; by apply HL). by apply (ho_free _ _ _ H).
  - rewrite Hh by (left; by left). apply H.
  - intros x Hx. cbn [u_hdr set_u_hdr]. rewrite Hkeep by (by left). by apply (ho_dom _ _ _ H).
  - intros b Hb. rewrite Hh; [by apply (ho_used _ _ _ H)|]. right. apply list_elem_of_fmap. by exists b.
Qed.

Lemma free_inv s L A1 b A2 :
  heap_ok s L (A1 ++ b :: A2) -> exists s' L', u_free (b.1 + 8) s = Ret tt s' /\ heap_ok s' L' (A1 ++ A2).
Proof.
  intros H. destruct b as [q n]. apply (heap_ok_perm _ _ _ ((q, n) :: A1 ++ A2)) in H; [|by rewrite Permutation_middle].
  destruct (free_run s L (A1 ++ A2) q n H) as (s' & Hr & L' & Hok & _). exists s', L'. split; [|exact Hok].
  replace ((q, n).1 + 8) with (hadd q 1); [exact Hr|]. destruct (ho_used _ _ _ H (q, n)) as (? & ? & ? & _); [by left|].
  unfold bend in *. cbn [fst snd] in *. pose proof (ho_brk _ _ _ H). pose proof (ho_base _ _ _ H). unfold hadd, HSIZE. rewrite u32_id; lia.
Qed.

Lemma ustep_inv c c' : ustep c c' -> heap_inv c.1 c.2 -> heap_inv c'.1 c'.2.
Proof.
  intros Hs H. destruct Hs as [s A n p s' Hn Hr Hp|s A n s' Hn Hr|s A1 b A2 s' Hr|s A m Hm]; cbn [fst snd] in *.
  - destruct (malloc_inv s A n H Hn) as (p1 & s1 & Hr1 & L & L' & _ & Hg). rewrite Hr in Hr1. injection Hr1 as <- <-.
    destruct Hg as [[-> _]|(q & -> & Hok & _)]; [done|]. right. exists L'. by replace (q + 8 - 8) with q by lia.
  - destruct (malloc_inv s A n H Hn) as (p1 & s1 & Hr1 & L & L' & _ & Hg). rewrite Hr in Hr1. injection Hr1 as <- <-.
    destruct Hg as [(_ & Hok & _)|(q & E & Hok & _)]; [right; by exists L'|].
    destruct (ho_used _ _ _ Hok (q, nunits n)) as (? & _); [by left|]. cbn [fst] in *. pose proof (ho_base _ _ _ Hok). lia.
  - destruct H as [[_ E]|[L H]]; [by destruct A1|]. destruct (free_inv s L A1 b A2 H) as (s1 & L' & Hr1 & Hok).
    rewrite Hr in Hr1. injection Hr1 as <-. right. by exists L'.
  - destruct H as [[Hf ->]|[L H]]; [left; by split|]. right. exists L. by apply heap_ok_write.
Qed.

(** C13: [malloc] hands out memory nobody else has: after any sequence of calls of
    [malloc] and [free] and of stores of the program into its blocks, the
    blocks in use lie in the process and do not overlap; [malloc] of up to a
    gigabyte returns, with the null pointer or with room for the bytes asked
    for that overlaps no block in use; and [free] of a block in use returns. *)
Theorem malloc_exclusive s0 s A :
  fresh s0 -> rtc ustep (s0, []) (s, A) ->
  (forall b, b ∈ A -> base < b.1 /\ bend b <= u_brk s) /\ ForallOrdPairs disj A /\
  (forall n, 0 <= n <= 1073741824 -> exists p s', malloc base grow n s = Ret p s' /\
     (p = 0 \/ base < p - 8 /\ p + n <= u_brk s' /\ forall b, b ∈ A -> p + n <= b.1 \/ bend b <= p - 8)) /\
  (forall b, b ∈ A -> exists s', u_free (b.1 + 8) s = Ret tt s').
Proof.
  intros Hf Hr. assert (heap_inv s A) as H.
  { apply (rtc_inv ustep (fun c => heap_inv c.1 c.2)) with (x := (s0, [])) (y := (s, A)); [intros; by eapply ustep_inv|by left|exact Hr]. }
  split; [|split; [|split]].
  - intros b Hb. destruct H as [[_ ->]|[L H]]; [by apply elem_of_nil in Hb|]. destruct (ho_used _ _ _ H b Hb) as (? & _ & ? & _). done.
  - destruct H as [[_ ->]|[L H]]; [constructor|apply H].
  - intros n Hn. destruct (malloc_inv s A n H Hn) as (p & s' & Hm & L & L' & _ & Hg). exists p, s'. split; [exact Hm|].
    destruct Hg as [[-> _]|(q & -> & Hok & _)]; [by left|right]. destruct (nunits_range n Hn) as [_ Hnu].
    destruct (ho_used _ _ _ Hok (q, nunits n)) as (H1 & _ & H2 & _); [by left|]. unfold bend in H2. cbn [fst snd] in *.
    split; [lia|]. split; [lia|]. intros b Hb. pose proof (ho_disj _ _ _ Hok) as HF.
    assert (Forall (disj (q, nunits n)) A) as HF1 by (by inversion HF). pose proof (proj1 (Forall_forall _ _) HF1 b Hb) as Hd.
    unfold disj, bend in *. cbn [fst snd] in *. lia.
  - intros b Hb. destruct H as [[_ ->]|[L H]]; [by apply elem_of_nil in Hb|]. apply list_elem_of_split in Hb as (A1 & A2 & ->).
    destruct (free_inv s L A1 b A2 H) as (s' & _ & Hr' & _). by exists s'.
Qed.

End Props.

Definition returns (o : outcome uheap Z) (v : Z) : bool := match o with Ret p _ => p =? v | _ => false end.

Lemma returns_Ret o v : returns o v = true -> exists s, o = Ret v s.
Proof. destruct o; try discriminate. intros ->%Z.eqb_eq. eauto. Qed.

(** A process with room for two megabytes of heap. *)
Lemma malloc_exclusive_witness :
  let grow brk n := (0 <=? n) && (brk + n <? 2097152) in
  let s0 := mkuheap ∅ 0 16384 in
  exists s1 s2, malloc 8192 grow 100 s0 = Ret 49048 s1 /\ malloc 8192 grow 20 s1 = Ret 49016 s2 /\
    (exists s3, u_free 49048 s2 = Ret tt s3) /\ ForallOrdPairs disj [(49008, 4); (49040, 14)].
Proof.
  intros grow s0.
  destruct (returns_Ret (malloc 8192 grow 100 s0) 49048) as [s1 H1]; [vm_compute; reflexivity|].
  destruct (returns_Ret (malloc 8192 grow 20 s1) 49016) as [s2 H2].
  { assert (returns ((malloc 8192 grow 100 ≫= fun _ => malloc 8192 grow 20) s0) 49016 = true) as E by (vm_compute; reflexivity).
    unfold mbind, M_bind in E. rewrite H1 in E. exact E. }
  exists s1, s2. split; [exact H1|]. split; [exact H2|].
  destruct (malloc_exclusive 8192 grow) with (s0 := s0) (s := s2) (A := [(49008, 4); (49040, 14)]) as (_ & HF & _ & Hfree).
  - intros brk n Hg _. apply andb_true_iff in Hg as [_ Hg%Z.ltb_lt]. lia.
  - split; [reflexivity|]. split; [split; reflexivity|reflexivity].
  - eapply rtc_l; [apply (us_malloc 8192 grow s0 [] 100 49048 s1); [lia|exact H1|discriminate]|].
    eapply rtc_l; [|apply rtc_refl]. apply (us_malloc 8192 grow s1 _ 20 49016 s2); [lia|exact H2|discriminate].
  - split; [|exact HF]. apply (Hfree (49040, 14)). right. by left.
Defined.
