(* ===== verification/Mp.v ===== *)
(** * Finding the processors ([mp.c], [mp.h])

    At boot [mpinit] searches the memory of the BIOS for the floating pointer
    of the MultiProcessor Specification, checks the configuration table it
    points to and walks the entries of the table.  The functions are run over
    a memory of bytes that nobody changes meanwhile; the state is the global
    variables the file sets, the messages it prints and the ports it writes.
    The walk has a fuel of its own because the loop of the source need not
    end: [mpinit_table] shows that on a table whose entries are all of known
    types one more round than there are entries is enough, and
    [mpinit_unknown] that no number of rounds is enough otherwise. *)

From S2P Require Import Prelude Monad Strings Kalloc.

(** [NCPU] of [param.h] *)
Definition NCPU : Z := 8.

(** ** The structures of [mp.h] *)

Definition MPPROC : Z := 0.
Definition MPBUS : Z := 1.
Definition MPIOAPIC : Z := 2.
Definition MPIOINTR : Z := 3.
Definition MPLINTR : Z := 4.
Definition MPBOOT : Z := 2.

(** [struct mp]: its size and the fields the code reads. *)
Definition sizeof_mp : Z := 16.
Definition mp_physaddr (m : mem) (p : Z) : Z := le_dec (load (p + 4) 4 m).
Definition mp_imcrp (m : mem) (p : Z) : Z := ldb m (p + 12).

(** [struct mpconf] *)
Definition sizeof_mpconf : Z := 44.
Definition mpconf_length (m : mem) (p : Z) : Z := le_dec (load (p + 4) 2 m).
Definition mpconf_version (m : mem) (p : Z) : Z := ldb m (p + 6).
Definition mpconf_lapicaddr (m : mem) (p : Z) : Z := le_dec (load (p + 36) 4 m).

(** [struct mpproc] and [struct mpioapic] *)
Definition sizeof_mpproc : Z := 20.
Definition mpproc_apicid (m : mem) (p : Z) : Z := ldb m (p + 1).
Definition mpproc_flags (m : mem) (p : Z) : Z := ldb m (p + 3).
Definition sizeof_mpioapic : Z := 8.
Definition mpioapic_apicno (m : mem) (p : Z) : Z := ldb m (p + 1).

(** ** The search *)

(** The bytes of a string literal, and [memcmp(p, lit, n) == 0] with it. *)
Definition sig_mp : list Z := [95; 77; 80; 95].
Definition sig_pcmp : list Z := [80; 67; 77; 80].
Definition has_sig (m : mem) (p : Z) (sig : list Z) : bool :=
  bool_decide (load p (length sig) m = sig).

Definition mp_sum (m : mem) (addr len : Z) : Z :=
  u8 (foldl (fun a b => s32 (a + b)) 0 (load addr (Z.to_nat len) m)).

Fixpoint mpsearch_from (rounds : nat) (m : mem) (p e : Z) : Z :=
  match rounds with
  | O => 0
  | S n =>
      if p <? e then
        if has_sig m p sig_mp && (mp_sum m p sizeof_mp =? 0) then p
        else mpsearch_from n m (p + sizeof_mp) e
      else 0
  end.

(** The address of the structure, 0 when there is none. *)
Definition mpsearch1 (m : mem) (a len : Z) : Z :=
  let addr := p2v a in
  mpsearch_from (S (Z.to_nat (len / sizeof_mp))) m addr (addr + len).

Definition mpsearch (m : mem) : Z :=
  let bda := p2v 1024 in
  let p := Z.shiftl (Z.lor (Z.shiftl (ldb m (bda + 15)) 8) (ldb m (bda + 14))) 4 in
  let mp :=
    if negb (p =? 0) then mpsearch1 m p 1024
    else
      let p := Z.lor (Z.shiftl (ldb m (bda + 20)) 8) (ldb m (bda + 19)) * 1024 in
      mpsearch1 m (u32 (p - 1024)) 1024 in
  if negb (mp =? 0) then mp else mpsearch1 m 983040 65536.

(** The floating pointer and the configuration table. *)
Definition mpconfig (m : mem) : option (Z * Z) :=
  let mp := mpsearch m in
  if (mp =? 0) || (mp_physaddr m mp =? 0) then None
  else
    let conf := p2v (mp_physaddr m mp) in
    if negb (has_sig m conf sig_pcmp) then None
    else if negb (mpconf_version m conf =? 1) && negb (mpconf_version m conf =? 4) then None
    else if negb (mp_sum m conf (mpconf_length m conf) =? 0) then None
    else Some (mp, conf).

(** ** The walk over the table *)

(** What [cprintf] is called with. *)
Inductive mp_msg :=
| NcpuApicid (ncpu apicid : Z)
| UnknownType (t : Z).

(** The variables of the file: the identifiers of [cpus], the index of [bcpu],
    and [lapic] of [lapic.c]; the messages and the writes to ports. *)
Record mpvars := mkmpvars {
  mv_cpus : list Z;
  mv_bcpu : Z;
  mv_ismp : Z;
  mv_ncpu : Z;
  mv_ioapicid : Z;
  mv_lapic : Z;
  mv_out : list mp_msg;
  mv_ports : list (Z * Z)
}.
Definition set_mv_cpus v s := mkmpvars v (mv_bcpu s) (mv_ismp s) (mv_ncpu s) (mv_ioapicid s) (mv_lapic s) (mv_out s) (mv_ports s).
Definition set_mv_bcpu v s := mkmpvars (mv_cpus s) v (mv_ismp s) (mv_ncpu s) (mv_ioapicid s) (mv_lapic s) (mv_out s) (mv_ports s).
Definition set_mv_ismp v s := mkmpvars (mv_cpus s) (mv_bcpu s) v (mv_ncpu s) (mv_ioapicid s) (mv_lapic s) (mv_out s) (mv_ports s).
Definition set_mv_ncpu v s := mkmpvars (mv_cpus s) (mv_bcpu s) (mv_ismp s) v (mv_ioapicid s) (mv_lapic s) (mv_out s) (mv_ports s).
Definition set_mv_ioapicid v s := mkmpvars (mv_cpus s) (mv_bcpu s) (mv_ismp s) (mv_ncpu s) v (mv_lapic s) (mv_out s) (mv_ports s).
Definition set_mv_lapic v s := mkmpvars (mv_cpus s) (mv_bcpu s) (mv_ismp s) (mv_ncpu s) (mv_ioapicid s) v (mv_out s) (mv_ports s).
Definition add_mv_out v s := mkmpvars (mv_cpus s) (mv_bcpu s) (mv_ismp s) (mv_ncpu s) (mv_ioapicid s) (mv_lapic s) (mv_out s ++ [v]) (mv_ports s).
Definition mp_outb p v s := mkmpvars (mv_cpus s) (mv_bcpu s) (mv_ismp s) (mv_ncpu s) (mv_ioapicid s) (mv_lapic s) (mv_out s) (mv_ports s ++ [(p, v)]).

Abbreviation MP := (M mpvars).

Definition mpbcpu : MP Z := gets mv_bcpu.

(** [cpus[i].id = v]: the array has [NCPU] elements. *)
Definition set_cpu_id (i v : Z) : MP unit :=
  if (0 <=? i) && (i <? NCPU) then modify (fun s => set_mv_cpus (<[Z.to_nat i := u8 v]> (mv_cpus s)) s)
  else undef.

Definition mp_entry (m : mem) (p : Z) : MP Z :=
  let t := ldb m p in
  if t =? MPPROC then
    ncpu ← gets mv_ncpu;
    when (negb (ncpu =? mpproc_apicid m p))
      (modify (add_mv_out (NcpuApicid ncpu (mpproc_apicid m p)));;
       modify (set_mv_ismp 0));;
    when (negb (Z.land (mpproc_flags m p) MPBOOT =? 0)) (modify (set_mv_bcpu ncpu));;
    set_cpu_id ncpu ncpu;;
    modify (set_mv_ncpu (ncpu + 1));;
    mret (p + sizeof_mpproc)
  else if t =? MPIOAPIC then
    modify (set_mv_ioapicid (mpioapic_apicno m p));;
    mret (p + sizeof_mpioapic)
  else if (t =? MPBUS) || (t =? MPIOINTR) || (t =? MPLINTR) then mret (p + 8)
  else
    modify (add_mv_out (UnknownType t));;
    modify (set_mv_ismp 0);;
    mret p.

Definition mp_entries (fuel : nat) (m : mem) (p e : Z) : MP unit :=
  loop fuel (fun p =>
    if p <? e then p' ← mp_entry m p; mret (inl p')
    else mret (inr tt)) p.

(** [imcr] is what [inb(0x23)] reads. *)
Definition mpinit (fuel : nat) (m : mem) (imcr : Z) : MP unit :=
  modify (set_mv_bcpu 0);;
  match mpconfig m with
  | None => mret tt
  | Some (mp, conf) =>
      modify (set_mv_ismp 1);;
      modify (set_mv_lapic (mpconf_lapicaddr m conf));;
      mp_entries fuel m (conf + sizeof_mpconf) (conf + mpconf_length m conf);;
      ismp ← gets mv_ismp;
      if ismp =? 0 then
        modify (set_mv_ncpu 1);;
        modify (set_mv_lapic 0);;
        modify (set_mv_ioapicid 0)
      else
        when (negb (mp_imcrp m mp =? 0))
          (modify (mp_outb 34 112);;
           modify (mp_outb 35 (u8 (Z.lor imcr 1))))
  end.

(** ** What a table says *)

(** An entry: what the code reads of it. *)
Inductive entry :=
| EProc (apicid flags : Z)
| EIoapic (apicno : Z)
| EOther (t : Z).

(** The entries from [p] to [e], all of types the specification names. *)
Fixpoint entries_at (m : mem) (p : Z) (es : list entry) (e : Z) : Prop :=
  match es with
  | [] => p = e
  | EProc id fl :: es' =>
      ldb m p = MPPROC /\ mpproc_apicid m p = id /\ mpproc_flags m p = fl /\ 0 <= fl /\
      entries_at m (p + sizeof_mpproc) es' e
  | EIoapic no :: es' =>
      ldb m p = MPIOAPIC /\ mpioapic_apicno m p = no /\ entries_at m (p + sizeof_mpioapic) es' e
  | EOther t :: es' =>
      ldb m p = t /\ t ∈ [MPBUS; MPIOINTR; MPLINTR] /\ entries_at m (p + 8) es' e
  end.

(** The processors of a table, in order, and its I/O interrupt controllers. *)
Definition procs (es : list entry) : list (Z * Z) :=
  omap (fun e => match e with EProc id fl => Some (id, fl) | _ => None end) es.
Definition ioapics (es : list entry) : list Z :=
  omap (fun e => match e with EIoapic no => Some no | _ => None end) es.
Definition numbered (ps : list (Z * Z)) : Prop := ps.*1 = seqZ 0 (Z.of_nat (length ps)).
#[export] Instance numbered_dec ps : Decision (numbered ps).
Proof. unfold numbered. apply _. Defined.

(** The number of the last processor marked as the one that booted. *)
Definition boots (ps : list (Z * Z)) : list Z :=
  omap (fun '(i, (_, fl)) => if Z.testbit fl 1 then Some i else None)
    (zip (seqZ 0 (Z.of_nat (length ps))) ps).

(** One entry on the variables. *)
Definition mp_step (s : mpvars) (e : entry) : mpvars :=
  match e with
  | EProc id fl =>
      let j := mv_ncpu s in
      let s := if j =? id then s else set_mv_ismp 0 (add_mv_out (NcpuApicid j id) s) in
      let s := if Z.testbit fl 1 then set_mv_bcpu j s else s in
      set_mv_ncpu (j + 1) (set_mv_cpus (<[Z.to_nat j := u8 j]> (mv_cpus s)) s)
  | EIoapic no => set_mv_ioapicid no s
  | EOther _ => s
  end.

Lemma land_MPBOOT fl : 0 <= fl -> negb (Z.land fl MPBOOT =? 0) = Z.testbit fl 1.
Proof.
  intros Hfl. assert (Z.land fl MPBOOT = if Z.testbit fl 1 then 2 else 0) as ->.
  { apply Z.bits_inj'. intros n Hn. rewrite Z.land_spec. unfold MPBOOT.
    destruct (decide (n = 1)) as [->|Hne].
    - by destruct (Z.testbit fl 1).
    - change 2 with (2 ^ 1). rewrite Z.pow2_bits_false by lia. rewrite andb_false_r.
      destruct (Z.testbit fl 1); [by rewrite Z.pow2_bits_false by lia|by rewrite Z.bits_0]. }
  by destruct (Z.testbit fl 1).
Qed.

Lemma mp_entry_proc m p id fl s :
  ldb m p = MPPROC -> mpproc_apicid m p = id -> mpproc_flags m p = fl -> 0 <= fl ->
  0 <= mv_ncpu s < NCPU ->
  mp_entry m p s = Ret (p + sizeof_mpproc) (mp_step s (EProc id fl)).
Proof.
  intros Ht Hid Hfl H0 Hn. unfold mp_entry. rewrite Ht, Hid, Hfl, Z.eqb_refl, (land_MPBOOT _ H0).
  kstep. cbn [mp_step]. unfold set_cpu_id.
  replace ((0 <=? mv_ncpu s) && (mv_ncpu s <? NCPU)) with true by lia.
  by destruct (mv_ncpu s =? id), (Z.testbit fl 1).
Qed.

Lemma mp_entry_full m p s :
  ldb m p = MPPROC -> NCPU <= mv_ncpu s -> exists s', mp_entry m p s = Undef s'.
Proof.
  intros Ht Hn. unfold mp_entry. rewrite Ht, Z.eqb_refl. kstep. unfold set_cpu_id.
  replace ((0 <=? mv_ncpu s) && (mv_ncpu s <? NCPU)) with false by lia.
  destruct (mv_ncpu s =? mpproc_apicid m p), (Z.land (mpproc_flags m p) MPBOOT =? 0); by eexists.
Qed.

Lemma mp_entry_ioapic m p s :
  ldb m p = MPIOAPIC ->
  mp_entry m p s = Ret (p + sizeof_mpioapic) (mp_step s (EIoapic (mpioapic_apicno m p))).
Proof. intros Ht. unfold mp_entry. by rewrite Ht. Qed.

Lemma mp_entry_other m p s :
  ldb m p ∈ [MPBUS; MPIOINTR; MPLINTR] -> mp_entry m p s = Ret (p + 8) s.
Proof.
  intros Ht. unfold mp_entry. rewrite !elem_of_cons, elem_of_nil in Ht.
  destruct Ht as [->|[->|[->|[]]]]; reflexivity.
Qed.

Lemma mp_entries_next fuel m p p' e s s' :
  p < e -> mp_entry m p s = Ret p' s' ->
  mp_entries (S fuel) m p e s = mp_entries fuel m p' e s'.
Proof.
  intros Hp He. unfold mp_entries. apply loop_next. rewrite (proj2 (Z.ltb_lt _ _) Hp).
  by kstep_by ltac:(exact He).
Qed.

Lemma entries_at_le m p es e : entries_at m p es e -> p <= e.
Proof.
  revert p. induction es as [|[id fl|no|t] es IH]; intros p; cbn [entries_at].
  - lia.
  - intros (_ & _ & _ & _ & H%IH). unfold sizeof_mpproc in H. lia.
  - intros (_ & _ & H%IH). unfold sizeof_mpioapic in H. lia.
  - intros (_ & _ & H%IH). lia.
Qed.

(** The walk ends after one more round than there are entries. *)
Lemma mp_entries_run fuel m p es e s :
  entries_at m p es e -> 0 <= mv_ncpu s ->
  mv_ncpu s + Z.of_nat (length (procs es)) <= NCPU -> (length es < fuel)%nat ->
  mp_entries fuel m p e s = Ret tt (foldl mp_step s es).
Proof.
  revert fuel p s. induction es as [|en es IH]; intros [|fuel] p s Hat H0 Hn Hf; cbn in Hf; try lia.
  { cbn in Hat. subst p. unfold mp_entries. apply loop_done. by rewrite Z.ltb_irrefl. }
  destruct en as [id fl|no|t]; cbn [entries_at] in Hat; cbn [foldl].
  - destruct Hat as (Ht & Hid & Hfl & Hp & Hat). cbn in Hn.
    pose proof (entries_at_le _ _ _ _ Hat) as Hle. unfold sizeof_mpproc in Hle.
    erewrite mp_entries_next; [|lia|apply mp_entry_proc; try done; lia].
    assert (mv_ncpu (mp_step s (EProc id fl)) = mv_ncpu s + 1) as Hnc by reflexivity.
    apply IH; rewrite ?Hnc; [done|lia|fold (procs es) in Hn; lia|lia].
  - destruct Hat as (Ht & <- & Hat).
    pose proof (entries_at_le _ _ _ _ Hat) as Hle. unfold sizeof_mpioapic in Hle.
    erewrite mp_entries_next; [|lia|by apply mp_entry_ioapic]. apply IH; try done; lia.
  - destruct Hat as (<- & Ht & Hat). pose proof (entries_at_le _ _ _ _ Hat) as Hle.
    erewrite mp_entries_next; [|lia|by apply mp_entry_other]. apply IH; try done; lia.
Qed.

(** A ninth processor is stored behind the end of [cpus]. *)
Lemma mp_entries_overrun fuel m p es e s :
  entries_at m p es e -> 0 <= mv_ncpu s <= NCPU ->
  NCPU < mv_ncpu s + Z.of_nat (length (procs es)) -> (length es < fuel)%nat ->
  exists s', mp_entries fuel m p e s = Undef s'.
Proof.
  revert fuel p s. induction es as [|en es IH]; intros [|fuel] p s Hat H0 Hn Hf; cbn in Hf; try lia.
  { cbn in Hn. lia. }
  destruct en as [id fl|no|t]; cbn [entries_at] in Hat.
  - destruct Hat as (Ht & Hid & Hfl & Hp & Hat). cbn in Hn. fold (procs es) in Hn.
    pose proof (entries_at_le _ _ _ _ Hat) as Hle. unfold sizeof_mpproc in Hle.
    destruct (decide (mv_ncpu s = NCPU)) as [HN|HN].
    + destruct (mp_entry_full m p s Ht) as [s' Hs']; [lia|]. exists s'. unfold mp_entries.
      cbn [loop]. apply bind_Undef. rewrite (proj2 (Z.ltb_lt p e)) by lia.
      by apply bind_Undef.
    + erewrite mp_entries_next; [|lia|apply mp_entry_proc; try done; lia].
      assert (mv_ncpu (mp_step s (EProc id fl)) = mv_ncpu s + 1) as Hnc by reflexivity.
      apply IH; rewrite ?Hnc; [done|lia|lia|lia].
  - destruct Hat as (Ht & <- & Hat).
    pose proof (entries_at_le _ _ _ _ Hat) as Hle. unfold sizeof_mpioapic in Hle.
    erewrite mp_entries_next; [|lia|by apply mp_entry_ioapic]. apply IH; try done; lia.
  - destruct Hat as (<- & Ht & Hat). pose proof (entries_at_le _ _ _ _ Hat) as Hle.
    erewrite mp_entries_next; [|lia|by apply mp_entry_other]. apply IH; try done; lia.
Qed.

Lemma seqZ_snoc k : seqZ 0 (Z.of_nat (S k)) = seqZ 0 (Z.of_nat k) ++ [Z.of_nat k].
Proof.
  replace (Z.of_nat (S k)) with (Z.of_nat k + 1) by lia. rewrite seqZ_app by lia. done.
Qed.

Lemma numbered_snoc ps id fl :
  numbered (ps ++ [(id, fl)]) <-> numbered ps /\ id = Z.of_nat (length ps).
Proof.
  unfold numbered. rewrite length_app, Nat.add_1_r, seqZ_snoc, fmap_app. cbn.
  split; [by intros [? [= ?]]%app_inj_2|by intros [-> ->]].
Qed.

Lemma boots_snoc ps id fl :
  boots (ps ++ [(id, fl)])
  = boots ps ++ (if Z.testbit fl 1 then [Z.of_nat (length ps)] else []).
Proof.
  unfold boots. rewrite length_app, Nat.add_1_r, seqZ_snoc.
  rewrite zip_with_app by (rewrite length_seqZ; lia). rewrite omap_app. cbn -[Z.testbit].
  by destruct (Z.testbit fl 1).
Qed.

(** The variables after the walk. *)
Record walked (s : mpvars) (es : list entry) (s' : mpvars) : Prop := {
  wk_ncpu : mv_ncpu s' = Z.of_nat (length (procs es));
  wk_ismp : mv_ismp s' = if decide (numbered (procs es)) then mv_ismp s else 0;
  wk_cpus : length (mv_cpus s') = length (mv_cpus s) /\
            forall i, (i < length (procs es))%nat -> mv_cpus s' !! i = Some (Z.of_nat i);
  wk_bcpu : mv_bcpu s' = default (mv_bcpu s) (last (boots (procs es)));
  wk_ioapicid : mv_ioapicid s' = default (mv_ioapicid s) (last (ioapics es));
  wk_lapic : mv_lapic s' = mv_lapic s;
  wk_ports : mv_ports s' = mv_ports s
}.

Lemma walked_proc s es s' id fl :
  length (mv_cpus s) = Z.to_nat NCPU -> Z.of_nat (length (procs es)) < NCPU ->
  walked s es s' -> walked s (es ++ [EProc id fl]) (mp_step s' (EProc id fl)).
Proof.
  intros Hlen Hn [Hnc Hmp [Hl Hc] Hb Hio Hla Hpo].
  assert (procs (es ++ [EProc id fl]) = procs es ++ [(id, fl)]) as Hps
    by (unfold procs; by rewrite omap_app).
  assert (ioapics (es ++ [EProc id fl]) = ioapics es) as Hios
    by (unfold ioapics; rewrite omap_app; apply app_nil_r).
  unfold NCPU in *.
  split; rewrite ?Hps, ?Hios; cbn [mp_step]; rewrite ?Hnc.
  - rewrite length_app. cbn. lia.
  - destruct (Z.eqb_spec (Z.of_nat (length (procs es))) id) as [Hid|Hid].
    + transitivity (mv_ismp s'); [by destruct (Z.testbit fl 1)|]. rewrite Hmp.
      apply decide_ext. rewrite numbered_snoc. naive_solver.
    + rewrite decide_False; [by destruct (Z.testbit fl 1)|]. rewrite numbered_snoc. naive_solver.
  - cbn [mv_cpus set_mv_cpus set_mv_ncpu].
    assert (forall (b : Z) (c : bool), mv_cpus (if Z.testbit fl 1 then set_mv_bcpu b (if c then s' else
      set_mv_ismp 0 (add_mv_out (NcpuApicid (Z.of_nat (length (procs es))) id) s'))
      else (if c then s' else
      set_mv_ismp 0 (add_mv_out (NcpuApicid (Z.of_nat (length (procs es))) id) s'))) = mv_cpus s') as ->
      by (intros ? []; by destruct (Z.testbit fl 1)).
    rewrite length_insert. split; [done|]. intros i Hi. rewrite length_app in Hi. cbn in Hi.
    rewrite Nat2Z.id, u8_id by lia. destruct (decide (i = length (procs es))) as [->|].
    + apply list_lookup_insert_eq. lia.
    + rewrite list_lookup_insert_ne by done. apply Hc. lia.
  - rewrite boots_snoc. destruct (Z.testbit fl 1).
    + by rewrite last_snoc.
    + rewrite app_nil_r, <- Hb. by destruct (_ =? _).
  - rewrite <- Hio. by destruct (_ =? _), (Z.testbit fl 1).
  - rewrite <- Hla. by destruct (_ =? _), (Z.testbit fl 1).
  - rewrite <- Hpo. by destruct (_ =? _), (Z.testbit fl 1).
Qed.

Lemma walked_steps s es :
  length (mv_cpus s) = Z.to_nat NCPU -> mv_ncpu s = 0 ->
  Z.of_nat (length (procs es)) <= NCPU -> walked s es (foldl mp_step s es).
Proof.
  intros Hlen H0. induction es as [|en es IH] using rev_ind; intros Hn.
  { split; try done. split; [done|]. intros i Hi. cbn in Hi. lia. }
  rewrite foldl_app. cbn [foldl].
  assert (procs (es ++ [en]) = procs es ++ procs [en]) as Hps by (unfold procs; by rewrite omap_app).
  rewrite Hps, length_app in Hn.
  destruct en as [id fl|no|t].
  - apply walked_proc; [done|cbn in Hn; lia|]. apply IH. lia.
  - destruct IH as [Hnc Hmp Hc Hb Hio Hla Hpo]; [lia|].
    split; rewrite ?Hps; cbn; rewrite ?app_nil_r; try done.
    unfold ioapics. rewrite omap_app. cbn. by rewrite last_snoc.
  - destruct IH as [Hnc Hmp Hc Hb Hio Hla Hpo]; [lia|].
    split; rewrite ?Hps; cbn; rewrite ?app_nil_r; try done.
    unfold ioapics. rewrite omap_app. cbn. by rewrite app_nil_r.
Qed.

(** The variables when the kernel starts. *)
Definition boot_vars (s : mpvars) : Prop :=
  length (mv_cpus s) = Z.to_nat NCPU /\ mv_ncpu s = 0.

(** What [mpinit] has found in a table with processors numbered in order. *)
Record mp_found (m : mem) (mp conf imcr : Z) (es : list entry) (s s' : mpvars) : Prop := {
  mf_ismp : mv_ismp s' = 1;
  mf_ncpu : mv_ncpu s' = Z.of_nat (length (procs es));
  mf_cpus : forall i, (i < length (procs es))%nat -> mv_cpus s' !! i = Some (Z.of_nat i);
  mf_bcpu : mpbcpu s' = Ret (default 0 (last (boots (procs es)))) s';
  mf_ioapicid : mv_ioapicid s' = default (mv_ioapicid s) (last (ioapics es));
  mf_lapic : mv_lapic s' = mpconf_lapicaddr m conf;
  mf_ports : mv_ports s' = mv_ports s ++
               (if mp_imcrp m mp =? 0 then [] else [(34, 112); (35, u8 (Z.lor imcr 1))])
}.

(** After [mpinit] has given the table up. *)
Definition mp_uniprocessor (s s' : mpvars) : Prop :=
  mv_ismp s' = 0 /\ mv_ncpu s' = 1 /\ mv_lapic s' = 0 /\ mv_ioapicid s' = 0 /\
  mv_ports s' = mv_ports s.

(** C31: [mpinit] on a table whose entries are all of known types, with enough
    rounds.  With at most [NCPU] processors, listed with their identifiers in
    order, it finds them all, the one that booted, the I/O interrupt
    controller and the address of the local one, and switches the interrupt
    mode when the floating pointer asks for it; with other identifiers it falls
    back to one processor.  With more processors than [NCPU] it writes behind
    the end of [cpus]. *)
Theorem mpinit_table fuel m imcr mp conf es s :
  mpconfig m = Some (mp, conf) ->
  entries_at m (conf + sizeof_mpconf) es (conf + mpconf_length m conf) ->
  boot_vars s -> (length es < fuel)%nat ->
  if decide (Z.of_nat (length (procs es)) <= NCPU) then
    exists s', mpinit fuel m imcr s = Ret tt s' /\
      if decide (numbered (procs es)) then mp_found m mp conf imcr es s s'
      else mp_uniprocessor s s'
  else exists s', mpinit fuel m imcr s = Undef s'.
Proof.
  intros Hc Hat [Hlen H0] Hf. unfold mpinit. kstep. rewrite Hc. kstep. kstep.
  set (s0 := set_mv_lapic _ _).
  case_decide as Hn; cycle 1.
  { destruct (mp_entries_overrun fuel m _ es _ s0 Hat) as [s' Hs']; [cbn; unfold NCPU; lia| |done|].
    - change (mv_ncpu s0) with (mv_ncpu s). unfold NCPU in *. lia.
    - exists s'. by apply bind_Undef. }
  destruct (walked_steps s0 es Hlen H0 Hn) as [Hnc Hmp [Hl Hcp] Hb Hio Hla Hpo].
  kstep_by ltac:(apply mp_entries_run; [exact Hat|..]; change (mv_ncpu s0) with (mv_ncpu s);
    [lia|lia|done]).
  set (s1 := foldl mp_step s0 es) in *. kstep. change (mv_ismp s0) with 1 in Hmp.
  rewrite Hmp. case_decide as Hnum; cycle 1.
  { eexists. split; [reflexivity|]. by repeat split. }
  change (mv_ports s0) with (mv_ports s) in Hpo.
  cbn [Z.eqb]. destruct (mp_imcrp m mp =? 0) eqn:Him; cbn [negb when];
    (eexists; split; [reflexivity|]); split; cbn; try done; unfold mpbcpu; cbn; rewrite ?Him.
  - by rewrite Hb.
  - by rewrite Hpo, app_nil_r.
  - by rewrite Hb.
  - by rewrite Hpo, <- app_assoc.
Qed.

(** An entry of an unknown type is read again and again. *)
Lemma mp_entries_stuck fuel m p e s :
  p < e -> ldb m p ∉ [MPPROC; MPBUS; MPIOAPIC; MPIOINTR; MPLINTR] ->
  exists s', mp_entries fuel m p e s = NoFuel s'.
Proof.
  intros Hp Ht. revert s. induction fuel as [|fuel IH]; intros s; [by eexists|].
  rewrite !not_elem_of_cons in Ht. destruct Ht as (H0 & H1 & H2 & H3 & H4 & _).
  erewrite mp_entries_next; [apply IH|done|]. unfold mp_entry.
  apply Z.eqb_neq in H0, H1, H2, H3, H4. rewrite H0, H1, H2, H3, H4. reflexivity.
Qed.

Lemma mp_entries_reach fuel m p es p' e s :
  entries_at m p es p' -> p' < e -> 0 <= mv_ncpu s ->
  mv_ncpu s + Z.of_nat (length (procs es)) <= NCPU ->
  ldb m p' ∉ [MPPROC; MPBUS; MPIOAPIC; MPIOINTR; MPLINTR] ->
  exists s', mp_entries fuel m p e s = NoFuel s'.
Proof.
  revert fuel p s. induction es as [|en es IH]; intros fuel p s Hat Hp H0 Hn Ht.
  { cbn in Hat. subst. by apply mp_entries_stuck. }
  destruct fuel as [|fuel]; [by eexists|].
  destruct en as [id fl|no|t]; cbn [entries_at] in Hat.
  - destruct Hat as (Hty & Hid & Hfl & Hfl0 & Hat). cbn in Hn. fold (procs es) in Hn.
    pose proof (entries_at_le _ _ _ _ Hat) as Hle. unfold sizeof_mpproc in Hle.
    erewrite mp_entries_next; [|lia|apply mp_entry_proc; try done; lia].
    assert (mv_ncpu (mp_step s (EProc id fl)) = mv_ncpu s + 1) as Hnc by reflexivity.
    apply IH; rewrite ?Hnc; [done|done|lia|lia|done].
  - destruct Hat as (Hty & <- & Hat).
    pose proof (entries_at_le _ _ _ _ Hat) as Hle. unfold sizeof_mpioapic in Hle.
    erewrite mp_entries_next; [|lia|by apply mp_entry_ioapic]. by apply IH.
  - destruct Hat as (<- & Hty & Hat). pose proof (entries_at_le _ _ _ _ Hat) as Hle.
    erewrite mp_entries_next; [|lia|by apply mp_entry_other]. by apply IH.
Qed.

(** [mpinit] never ends on a table with an entry of an unknown type: the
    [default] case prints a message and does not move on. *)
Theorem mpinit_unknown m imcr mp conf es p s :
  mpconfig m = Some (mp, conf) ->
  entries_at m (conf + sizeof_mpconf) es p -> p < conf + mpconf_length m conf ->
  ldb m p ∉ [MPPROC; MPBUS; MPIOAPIC; MPIOINTR; MPLINTR] ->
  boot_vars s -> Z.of_nat (length (procs es)) <= NCPU ->
  forall fuel, exists s', mpinit fuel m imcr s = NoFuel s'.
Proof.
  intros Hc Hat Hp Ht [Hlen H0] Hn fuel. unfold mpinit. kstep. rewrite Hc. kstep. kstep.
  set (s0 := set_mv_lapic _ _).
  destruct (mp_entries_reach fuel m _ es p _ s0 Hat Hp) as [s' Hs'];
    change (mv_ncpu s0) with (mv_ncpu s); [lia|lia|done|].
  exists s'. by apply bind_NoFuel.
Qed.

(** ** Tables in memory *)

Definition enc_entry (e : entry) : list Z :=
  match e with
  | EProc id fl => [MPPROC; id; 20; fl] ++ replicate 16 0
  | EIoapic no => [MPIOAPIC; no; 17; 1; 0; 0; 192; 254]
  | EOther t => [t; 0; 73; 83; 65; 32; 32; 32]
  end.

(** The bytes [l] with a checksum [c] between [l1] and [l2]. *)
Definition checked (l1 l2 : list Z) : list Z :=
  l1 ++ [u8 (- foldr Z.add 0 (l1 ++ l2))] ++ l2.

(** A machine whose BIOS has left the entries behind the floating pointer, in
    the memory the BIOS data area points to. *)
Definition demo_memory (body : list Z) : mem :=
  let conf :=
    checked (sig_pcmp ++ le_enc 2 (44 + Z.of_nat (length body)) ++ [4])
      (replicate 28 0 ++ le_enc 4 4276092928 ++ replicate 4 0 ++ body) in
  let mp := checked (sig_mp ++ le_enc 4 654592 ++ [1; 4]) [0; 128; 0; 0; 0] in
  store (p2v 654592) conf (store (p2v 654336) mp (store (p2v 1038) [192; 159] ∅)).

Definition demo_entries : list entry := [EProc 0 3; EProc 1 1; EOther MPBUS; EIoapic 2; EOther MPIOINTR].
Definition demo_vars : mpvars := mkmpvars (replicate 8 0) 0 0 0 0 0 [] [].

(** Reads of a table in memory, by computation. *)
Ltac mp_read :=
  repeat match goal with |- _ /\ _ => split end;
  try match goal with
      | |- _ = _ => vm_compute; reflexivity
      | |- _ <= _ => vm_compute; discriminate
      end.

Lemma mpinit_table_witness :
  exists s', mpinit 6 (demo_memory (mjoin (enc_entry <$> demo_entries))) 0 demo_vars = Ret tt s' /\
    mp_found (demo_memory (mjoin (enc_entry <$> demo_entries)))
      (p2v 654336) (p2v 654592) 0 demo_entries demo_vars s'.
Proof.
  pose proof (mpinit_table 6 (demo_memory (mjoin (enc_entry <$> demo_entries))) 0
    (p2v 654336) (p2v 654592) demo_entries demo_vars) as H.
  rewrite decide_True in H by (vm_compute; discriminate).
  destruct H as (s' & Hr & Hs'); [vm_compute; reflexivity| |split; reflexivity|cbn; lia|].
  2: { rewrite decide_True in Hs' by reflexivity. exists s'. split; [exact Hr|exact Hs']. }
  cbn [entries_at demo_entries]. rewrite !elem_of_cons.
  mp_read; auto.
Defined.

Lemma mpinit_unknown_witness :
  exists s',
    mpinit 1000 (demo_memory (mjoin (enc_entry <$> [EProc 0 3; EOther 5]))) 0 demo_vars = NoFuel s'.
Proof.
  apply (mpinit_unknown _ 0 (p2v 654336) (p2v 654592) [EProc 0 3] (p2v 654592 + 64) demo_vars).
  - vm_compute. reflexivity.
  - cbn [entries_at]. mp_read.
  - vm_compute. reflexivity.
  - rewrite !not_elem_of_cons. mp_read; [vm_compute; discriminate..|apply not_elem_of_nil].
  - split; reflexivity.
  - vm_compute. discriminate.
Defined.
