(* ===== verification/Bootmain.v ===== *)
(** * The boot loader ([bootmain.c])

    [bootmain] reads the first page of the kernel's ELF file, which starts at
    sector 1 of the disk, into scratch memory and loads the segments its
    program headers name, at physical addresses.  It talks to the controller of
    [Ide.v] through the same ports as the driver; [waitdisk] returns when the
    controller has carried out its command.  The state is the physical memory
    and the controller.  The theorem is that the memory ends up as the file
    says, for a file whose segments are apart in memory; the fuel of the two
    loops comes from the number of sectors and of program headers. *)

From S2P Require Import Prelude Monad State Strings Layout Bio Exec Ide IdeProps.

Definition SECTSIZE : Z := 512.

Record boot := mkboot { bt_mem : mem; bt_ctl : ctl }.
Definition set_bt_mem (f : mem -> mem) (s : boot) : boot := mkboot (f (bt_mem s)) (bt_ctl s).
Definition set_bt_ctl (f : ctl -> ctl) (s : boot) : boot := mkboot (bt_mem s) (f (bt_ctl s)).

Abbreviation BT := (M boot).

Definition bt_outb (port v : Z) : BT unit := modify (set_bt_ctl (outb port (u8 v))).
Definition rdmem (w : nat) (a : Z) : BT Z := gets (fun s => le_dec (load a w (bt_mem s))).

Definition waitdisk : BT unit := modify (set_bt_ctl ctl_finish).

Definition readsect (dst offset : Z) : BT unit :=
  waitdisk;;
  bt_outb 498 1;;
  bt_outb 499 offset;;
  bt_outb 500 (Z.shiftr offset 8);;
  bt_outb 501 (Z.shiftr offset 16);;
  bt_outb 502 (Z.lor (Z.shiftr offset 24) 224);;
  bt_outb 503 32;;
  waitdisk;;
  c ← gets bt_ctl;
  modify (set_bt_mem (store dst (take (Z.to_nat SECTSIZE) (c_data c)))).

Definition read_sectors (fuel : nat) (epa pa offset : Z) : BT unit :=
  loop fuel (fun '(pa, offset) =>
    if pa <? epa then
      readsect pa offset;;
      mret (inl (u32 (pa + SECTSIZE), u32 (offset + 1)))
    else mret (inr tt)) (pa, offset).

Definition readseg (pa count offset : Z) : BT unit :=
  let epa := u32 (pa + count) in
  let pa := u32 (pa - offset mod SECTSIZE) in
  let offset := offset / SECTSIZE + 1 in
  read_sectors (Z.to_nat (count / SECTSIZE) + 3) epa pa offset.

(** The scratch space, [elf] *)
Definition SCRATCH : Z := 65536.

(** One program header: the body of the loop of [bootmain]. *)
Definition boot_segment (ph : Z) : BT unit :=
  pa ← rdmem 4 (ph + 12);
  filesz ← rdmem 4 (ph + 16);
  off ← rdmem 4 (ph + 4);
  readseg pa filesz off;;
  memsz ← rdmem 4 (ph + 20);
  filesz ← rdmem 4 (ph + 16);
  when (filesz <? memsz)
    (modify (set_bt_mem (stosb (Z.to_nat (memsz - filesz)) (u32 (pa + filesz)) 0))).

Definition boot_loop (fuel : nat) (eph ph : Z) : BT unit :=
  loop fuel (fun ph =>
    if ph <? eph then
      boot_segment ph;;
      mret (inl (ph + PROGHDR_SIZE))
    else mret (inr tt)) ph.

(** The entry point it jumps to, or [None] when it returns to [bootasm.S]. *)
Definition bootmain : BT (option Z) :=
  readseg SCRATCH 4096 0;;
  magic ← rdmem 4 SCRATCH;
  if negb (magic =? ELF_MAGIC) then mret None
  else
    phoff ← rdmem 4 (SCRATCH + 28);
    phnum ← rdmem 2 (SCRATCH + 44);
    let ph := u32 (SCRATCH + phoff) in
    let eph := u32 (ph + PROGHDR_SIZE * phnum) in
    boot_loop (S (Z.to_nat phnum)) eph ph;;
    entry ← rdmem 4 (SCRATCH + 24);
    mret (Some entry).

(** ** The file on the disk *)

(** Sector [n] of the boot disk, and byte [off] of the kernel's file. *)
Definition sect (d : gmap (Z * Z) (list Z)) (n : Z) : list Z :=
  default (replicate (Z.to_nat BSIZE) 0) (d !! (0, n)).
Definition kbyte (d : gmap (Z * Z) (list Z)) (off : Z) : Z :=
  default 0 (sect d (off / SECTSIZE + 1) !! Z.to_nat (off mod SECTSIZE)).
Definition krd (d : gmap (Z * Z) (list Z)) (w : nat) (off : Z) : Z :=
  le_dec (map (fun i : nat => kbyte d (off + Z.of_nat i)) (seq 0 w)).

Definition sectors_ok (d : gmap (Z * Z) (list Z)) : Prop :=
  forall n, length (sect d n) = Z.to_nat SECTSIZE.

(** A segment as the program header at [off] in the file describes it. *)
Record segment := mkseg { sg_off : Z; sg_paddr : Z; sg_filesz : Z; sg_memsz : Z }.
Definition segment_at d (off : Z) : segment :=
  mkseg (krd d 4 (off + 4)) (krd d 4 (off + 12)) (krd d 4 (off + 16)) (krd d 4 (off + 20)).
Definition segments d : list segment :=
  map (fun i : nat => segment_at d (krd d 4 28 + PROGHDR_SIZE * Z.of_nat i))
    (seq 0 (Z.to_nat (krd d 2 44))).

(** The memory [readseg] touches: whole sectors around what it is asked for. *)
Definition seg_lo (pa off : Z) : Z := pa - off mod SECTSIZE.
Definition seg_sectors (count off : Z) : Z := (off mod SECTSIZE + count + SECTSIZE - 1) / SECTSIZE.
Definition seg_hi (pa count off : Z) : Z := seg_lo pa off + SECTSIZE * seg_sectors count off.

(** Addresses and sectors that fit their registers. *)
Definition seg_fits (pa count off : Z) : Prop :=
  0 <= count /\ 0 <= off /\ 0 <= seg_lo pa off /\
  pa + count + SECTSIZE < 2 ^ 32 /\ off / SECTSIZE + 1 + seg_sectors count off < 2 ^ 28.

Lemma sect_finish c n cmd :
  c_addr c = (0, n) -> c_cmd c = Some cmd -> cmd <> IDE_CMD_WRITE ->
  c_data (ctl_finish c) = sect (c_disk c) n /\ c_disk (ctl_finish c) = c_disk c.
Proof.
  intros Ha Hc Hw. unfold ctl_finish. rewrite Hc, (proj2 (Z.eqb_neq _ _) Hw). cbn.
  unfold c_sector. by rewrite Ha.
Qed.

Lemma finish_idle_disk c : c_cmd c = None -> ctl_finish c = c.
Proof. unfold ctl_finish. by intros ->. Qed.

(** The loader leaves no command behind. *)
Definition quiet (s : boot) (d : gmap (Z * Z) (list Z)) : Prop :=
  c_cmd (bt_ctl s) = None /\ c_disk (bt_ctl s) = d.

Lemma u8_land x : u8 x = Z.land x 255.
Proof. change 255 with (Z.ones 8). by rewrite Z.land_ones. Qed.

(** The byte in the drive register is the one [idestart] builds. *)
Lemma boot_head n :
  0 <= n < 2 ^ 28 ->
  u8 (Z.lor (Z.shiftr n 24) 224) = Z.lor (Z.lor 224 (Z.shiftl 0 4)) (Z.land (Z.shiftr n 24) 15).
Proof.
  intros Hn. rewrite Z.shiftr_div_pow2 by lia.
  pose proof (Z.div_pos n (2 ^ 24) ltac:(lia) ltac:(lia)) as H0.
  pose proof (Z.div_lt_upper_bound n (2 ^ 24) 16 ltac:(lia) ltac:(lia)) as H1.
  assert (n / 2 ^ 24 ∈ seqZ 0 16) as Hin by (apply elem_of_seqZ; lia). clear H0 H1.
  generalize dependent (n / 2 ^ 24). intros m Hin. vm_compute in Hin.
  repeat (apply elem_of_cons in Hin as [-> |Hin]; [done|]). by apply elem_of_nil in Hin.
Qed.

(** The registers once the command is given. *)
Lemma boot_command c n :
  0 <= n < 2 ^ 28 ->
  outb 503 (u8 32) (outb 502 (u8 (Z.lor (Z.shiftr n 24) 224)) (outb 501 (u8 (Z.shiftr n 16))
    (outb 500 (u8 (Z.shiftr n 8)) (outb 499 (u8 n) (outb 498 (u8 1) c)))))
  = mkctl (c_disk c) (Z.land n 255) (Z.land (Z.shiftr n 8) 255) (Z.land (Z.shiftr n 16) 255)
      (Z.lor (Z.lor 224 (Z.shiftl 0 4)) (Z.land (Z.shiftr n 24) 15)) (Some 32) (c_data c).
Proof. intros Hn. rewrite (boot_head n Hn), !u8_land. reflexivity. Qed.

Lemma readsect_run s d dst n :
  quiet s d -> sectors_ok d -> 0 <= n < 2 ^ 28 ->
  exists s', readsect dst n s = Ret tt s' /\ quiet s' d /\ bt_mem s' = store dst (sect d n) (bt_mem s).
Proof.
  intros [Hq Hd] Hok Hn. unfold readsect, waitdisk, bt_outb. do 9 kstep.
  unfold set_bt_ctl at 1 2 3 4 5 6 7 8 9. cbn [bt_ctl set_bt_ctl bt_mem].
  rewrite (finish_idle_disk _ Hq), (boot_command _ _ Hn).
  set (c := mkctl _ _ _ _ _ _ _).
  destruct (sect_finish c n 32) as [E1 E2]; [|done|done|].
  { rewrite <- (Z.mod_small n (2 ^ 28)) by lia. apply regs_addr; [by left|lia]. }
  exists (mkboot (store dst (take (Z.to_nat SECTSIZE) (c_data (ctl_finish c))) (bt_mem s)) (ctl_finish c)).
  split; [reflexivity|]. cbn [bt_mem bt_ctl]. split.
  - split; [apply ctl_finish_idle|]. cbn [bt_ctl]. rewrite E2. exact Hd.
  - rewrite E1. unfold c. cbn [c_disk]. by rewrite Hd, take_ge by (by rewrite Hok).
Qed.

Lemma ldb_store a l m x :
  ldb (store a l m) x =
    if decide (a <= x < a + Z.of_nat (length l)) then default 0 (l !! Z.to_nat (x - a)) else ldb m x.
Proof. unfold ldb. rewrite lookup_store. by case_decide. Qed.

Lemma read_sectors_run n fuel s d epa pa q :
  quiet s d -> sectors_ok d -> (n < fuel)%nat ->
  epa <= pa + SECTSIZE * Z.of_nat n -> (n <> 0%nat -> pa + SECTSIZE * (Z.of_nat n - 1) < epa) ->
  0 <= pa -> pa + SECTSIZE * Z.of_nat n < 2 ^ 32 -> 0 <= q -> q + Z.of_nat n < 2 ^ 28 ->
  exists s', read_sectors fuel epa pa q s = Ret tt s' /\ quiet s' d /\
    forall a, ldb (bt_mem s') a =
      if decide (pa <= a < pa + SECTSIZE * Z.of_nat n)
      then default 0 (sect d (q + (a - pa) / SECTSIZE) !! Z.to_nat ((a - pa) mod SECTSIZE))
      else ldb (bt_mem s) a.
Proof.
  unfold read_sectors, SECTSIZE.
  revert fuel s pa q. induction n as [|n IH]; intros [|fuel] s pa q Hq Hok Hf He1 He2 H0 Hp Hq0 Hqn; try lia.
  { exists s. split; [|split; [done|]].
    - apply loop_done. rewrite (proj2 (Z.ltb_ge _ _)) by lia. done.
    - intros a. by rewrite decide_False by lia. }
  destruct (readsect_run s d pa q Hq Hok) as (s1 & E1 & Hq1 & Hm1); [lia|].
  destruct (IH fuel s1 (pa + 512) (q + 1)) as (s2 & E2 & Hq2 & Hm2); try done; try lia.
  exists s2. split; [|split; [done|]].
  - erewrite loop_next; [exact E2|]. rewrite (proj2 (Z.ltb_lt _ _)) by lia.
    kstep_by ltac:(exact E1). unfold SECTSIZE. rewrite !u32_id by lia. done.
  - intros a. rewrite Hm2, Hm1, ldb_store, Hok. change (Z.of_nat (Z.to_nat SECTSIZE)) with 512.
    destruct (decide (pa + 512 <= a < pa + 512 + 512 * Z.of_nat n)) as [Ha|Ha].
    + rewrite decide_True by lia. replace (a - pa) with (a - (pa + 512) + 1 * 512) by lia.
      rewrite Z.div_add, Z_mod_plus_full by lia. do 3 f_equal. lia.
    + destruct (decide (pa <= a < pa + 512)) as [Ha'|Ha'].
      * rewrite decide_True by lia. rewrite Z.div_small, Z.mod_small, Z.add_0_r by lia. done.
      * by rewrite decide_False by lia.
Qed.

Lemma seg_sectors_bound count off :
  0 <= count ->
  seg_sectors count off = 0 /\ off mod SECTSIZE + count = 0 \/
  0 < seg_sectors count off /\
  SECTSIZE * (seg_sectors count off - 1) < off mod SECTSIZE + count <= SECTSIZE * seg_sectors count off.
Proof.
  unfold seg_sectors, SECTSIZE. intros Hc. pose proof (Z.mod_pos_bound off 512 ltac:(lia)).
  set (x := off mod 512 + count) in *. assert (0 <= x) by lia. clearbody x.
  pose proof (Z.div_mod (x + 512 - 1) 512 ltac:(lia)).
  pose proof (Z.mod_pos_bound (x + 512 - 1) 512 ltac:(lia)). lia.
Qed.

(** [readseg] fills whole sectors with the bytes of the file that belong
    there, and touches nothing else. *)
Lemma readseg_run s d pa count off :
  quiet s d -> sectors_ok d -> seg_fits pa count off ->
  exists s', readseg pa count off s = Ret tt s' /\ quiet s' d /\
    forall a, ldb (bt_mem s') a =
      if decide (seg_lo pa off <= a < seg_hi pa count off) then kbyte d (off + (a - pa))
      else ldb (bt_mem s) a.
Proof.
  intros Hq Hok (Hc & Ho & Hlo & Hw & Hsec). unfold seg_hi.
  pose proof (seg_sectors_bound count off Hc) as Hb.
  pose proof (Z.mod_pos_bound off SECTSIZE ltac:(done)) as Hm.
  pose proof (Z.div_pos off SECTSIZE Ho ltac:(done)) as Hdv.
  assert (0 <= seg_sectors count off) as Hn by lia.
  destruct (read_sectors_run (Z.to_nat (seg_sectors count off)) (Z.to_nat (count / SECTSIZE) + 3)
    s d (pa + count) (seg_lo pa off) (off / SECTSIZE + 1)) as (s' & E & Hq' & Hmem);
    rewrite ?Z2Nat.id by done; try done; unfold seg_lo in *; try lia.
  { assert (seg_sectors count off <= count / SECTSIZE + 2); [|lia].
    pose proof (Z.div_mod count SECTSIZE ltac:(done)).
    pose proof (Z.mod_pos_bound count SECTSIZE ltac:(done)). unfold SECTSIZE in *. lia. }
  exists s'. split; [|split; [done|]].
  - unfold readseg. rewrite !u32_id by (unfold SECTSIZE in *; lia). exact E.
  - intros a. rewrite Hmem, Z2Nat.id by done. case_decide as Ha; [|done].
    unfold kbyte.
    assert (off + (a - pa) = (a - (pa - off mod SECTSIZE)) + off / SECTSIZE * SECTSIZE) as ->.
    { pose proof (Z.div_mod off SECTSIZE ltac:(done)). lia. }
    rewrite Z.div_add, Z_mod_plus_full by done. do 3 f_equal. lia.
Qed.

(** ** Segments on top of each other *)

(** What a segment makes of a memory. *)
Definition seg_over d (sg : segment) (f : Z -> Z) (a : Z) : Z :=
  if decide (sg_paddr sg + sg_filesz sg <= a < sg_paddr sg + sg_memsz sg) then 0
  else if decide (seg_lo (sg_paddr sg) (sg_off sg) <= a < seg_hi (sg_paddr sg) (sg_filesz sg) (sg_off sg))
  then kbyte d (sg_off sg + (a - sg_paddr sg))
  else f a.

(** The end of the memory a segment touches. *)
Definition seg_end (sg : segment) : Z :=
  Z.max (seg_hi (sg_paddr sg) (sg_filesz sg) (sg_off sg)) (sg_paddr sg + sg_memsz sg).
Definition touches (sg : segment) (a : Z) : Prop :=
  seg_lo (sg_paddr sg) (sg_off sg) <= a < seg_end sg.

(** What the file says about the memory of a segment. *)
Definition seg_loaded d (sg : segment) (f : Z -> Z) : Prop :=
  forall i, 0 <= i < Z.max (sg_filesz sg) (sg_memsz sg) ->
    f (sg_paddr sg + i) = if decide (i < sg_filesz sg) then kbyte d (sg_off sg + i) else 0.

Definition seg_ok (sg : segment) : Prop :=
  seg_fits (sg_paddr sg) (sg_filesz sg) (sg_off sg) /\ 0 <= sg_memsz sg /\
  (forall a, SCRATCH <= a < SCRATCH + 4096 -> ~ touches sg a).

Lemma seg_lo_le sg : seg_lo (sg_paddr sg) (sg_off sg) <= sg_paddr sg.
Proof. unfold seg_lo. pose proof (Z.mod_pos_bound (sg_off sg) SECTSIZE ltac:(done)). lia. Qed.

Lemma seg_hi_ge sg :
  0 <= sg_filesz sg ->
  sg_paddr sg + sg_filesz sg <= seg_hi (sg_paddr sg) (sg_filesz sg) (sg_off sg).
Proof.
  intros H. unfold seg_hi, seg_lo. pose proof (seg_sectors_bound (sg_filesz sg) (sg_off sg) H). lia.
Qed.

Lemma seg_over_loaded d sg f : seg_ok sg -> seg_loaded d sg (seg_over d sg f).
Proof.
  intros ((Hf & _) & Hm & _) i Hi. unfold seg_over.
  pose proof (seg_lo_le sg). pose proof (seg_hi_ge sg Hf).
  destruct (decide (i < sg_filesz sg)).
  - rewrite decide_False, decide_True by lia. f_equal. lia.
  - rewrite decide_True by lia. done.
Qed.

Lemma seg_over_out d sg f a : seg_ok sg -> ~ touches sg a -> seg_over d sg f a = f a.
Proof.
  intros ((Hf & _) & Hm & _) Ha. unfold touches, seg_end in Ha. unfold seg_over.
  pose proof (seg_lo_le sg). rewrite !decide_False by lia. done.
Qed.

(** No later segment touches the memory of an earlier one. *)
Fixpoint segs_apart (sgs : list segment) : Prop :=
  match sgs with
  | [] => True
  | sg :: sgs' =>
      (forall sg' i, sg' ∈ sgs' -> 0 <= i < Z.max (sg_filesz sg) (sg_memsz sg) ->
         ~ touches sg' (sg_paddr sg + i)) /\ segs_apart sgs'
  end.

Lemma segs_over_out d sgs f a :
  Forall seg_ok sgs -> (forall sg, sg ∈ sgs -> ~ touches sg a) ->
  foldl (fun f sg => seg_over d sg f) f sgs a = f a.
Proof.
  revert f. induction sgs as [|sg sgs IH]; intros f Hok Ha; [done|].
  apply Forall_cons in Hok as [H1 H2]. cbn [foldl]. rewrite IH; [|done|].
  - apply seg_over_out; [done|]. apply Ha. by left.
  - intros sg' Hin. apply Ha. by right.
Qed.

Lemma segs_over_loaded d sgs f :
  Forall seg_ok sgs -> segs_apart sgs ->
  Forall (fun sg => seg_loaded d sg (foldl (fun f sg => seg_over d sg f) f sgs)) sgs.
Proof.
  revert f. induction sgs as [|sg sgs IH]; intros f Hok Hap; [done|].
  apply Forall_cons in Hok as [H1 H2]. destruct Hap as [Ha Hap]. cbn [foldl].
  apply Forall_cons. split; [|by apply IH].
  intros i Hi. rewrite segs_over_out; [by apply seg_over_loaded|done|].
  intros sg' Hin. by apply Ha.
Qed.

(** ** Loading *)

(** The first page of the file is in the scratch space. *)
Definition header_in d (s : boot) : Prop :=
  forall k, 0 <= k < 4096 -> ldb (bt_mem s) (SCRATCH + k) = kbyte d k.

Lemma rdmem_header d s w k :
  header_in d s -> 0 <= k -> k + Z.of_nat w <= 4096 -> rdmem w (SCRATCH + k) s = Ret (krd d w k) s.
Proof.
  intros Hh H0 Hk. unfold rdmem, krd. cbn. do 2 f_equal. unfold load. apply map_ext_in.
  intros i Hi%in_seq. rewrite <- Z.add_assoc. apply Hh. lia.
Qed.

Lemma header_kept d s s' :
  header_in d s ->
  (forall a, SCRATCH <= a < SCRATCH + 4096 -> ldb (bt_mem s') a = ldb (bt_mem s) a) -> header_in d s'.
Proof. intros Hh Ha k Hk. rewrite Ha by lia. by apply Hh. Qed.

Lemma boot_segment_run d s k :
  quiet s d -> sectors_ok d -> header_in d s -> 0 <= k -> k + PROGHDR_SIZE <= 4096 ->
  seg_ok (segment_at d k) ->
  exists s', boot_segment (SCRATCH + k) s = Ret tt s' /\ quiet s' d /\ header_in d s' /\
    forall a, ldb (bt_mem s') a = seg_over d (segment_at d k) (ldb (bt_mem s)) a.
Proof.
  intros Hq Hok Hh H0 Hk Hsg. pose proof Hsg as (Hfit & Hms & Hscr). unfold PROGHDR_SIZE in Hk.
  pose proof Hfit as (Hc & _ & Hlo & Hw & _). set (sg := segment_at d k) in *.
  destruct (readseg_run s d _ _ _ Hq Hok Hfit) as (s1 & E1 & Hq1 & Hm1).
  assert (header_in d s1) as Hh1.
  { apply (header_kept d s); [done|]. intros a Ha. rewrite Hm1, decide_False; [done|].
    specialize (Hscr a Ha). unfold touches, seg_end in Hscr. lia. }
  unfold boot_segment. rewrite <- !Z.add_assoc.
  kstep_by ltac:(apply (rdmem_header d); [done|lia|lia]).
  kstep_by ltac:(apply (rdmem_header d); [done|lia|lia]).
  kstep_by ltac:(apply (rdmem_header d); [done|lia|lia]).
  change (krd d 4 (k + 12)) with (sg_paddr sg). change (krd d 4 (k + 16)) with (sg_filesz sg).
  change (krd d 4 (k + 4)) with (sg_off sg). kstep_by ltac:(exact E1).
  kstep_by ltac:(apply (rdmem_header d); [done|lia|lia]).
  kstep_by ltac:(apply (rdmem_header d); [done|lia|lia]).
  change (krd d 4 (k + 20)) with (sg_memsz sg). change (krd d 4 (k + 16)) with (sg_filesz sg).
  destruct (Z.ltb_spec (sg_filesz sg) (sg_memsz sg)) as [Hlt|Hge]; cbn [when].
  - eexists. split; [reflexivity|]. pose proof (seg_lo_le sg) as Hll.
    rewrite u32_id by (unfold SECTSIZE in Hw; lia).
    assert (forall a, ldb (bt_mem (set_bt_mem (stosb (Z.to_nat (sg_memsz sg - sg_filesz sg))
      (sg_paddr sg + sg_filesz sg) 0) s1)) a = seg_over d sg (ldb (bt_mem s)) a) as Hmem.
    { intros a. cbn [bt_mem set_bt_mem]. rewrite stosb_store, ldb_store, length_replicate.
      unfold seg_over. rewrite <- Hm1, Z2Nat.id by lia.
      replace (sg_paddr sg + sg_filesz sg + (sg_memsz sg - sg_filesz sg))
        with (sg_paddr sg + sg_memsz sg) by lia.
      case_decide; [|done]. by rewrite lookup_replicate_2 by lia. }
    split; [exact Hq1|]. split; [|exact Hmem].
    apply (header_kept d s); [done|]. intros a Ha. rewrite Hmem. apply seg_over_out; [done|].
    by apply Hscr.
  - exists s1. split; [done|]. split; [done|]. split; [done|]. intros a. unfold seg_over.
    rewrite (decide_False (P := _ + sg_filesz sg <= a < _)) by lia. apply Hm1.
Qed.

(** The segments of [n] program headers from [k] on. *)
Definition segs_from d (k : Z) (n : nat) : list segment :=
  map (fun i : nat => segment_at d (k + PROGHDR_SIZE * Z.of_nat i)) (seq 0 n).

Lemma segs_from_S d k n : segs_from d k (S n) = segment_at d k :: segs_from d (k + PROGHDR_SIZE) n.
Proof.
  unfold segs_from. cbn [seq map]. f_equal; [f_equal; lia|].
  rewrite <- seq_shift, map_map. apply map_ext. intros i. f_equal. lia.
Qed.

Lemma segs_over_ext d sgs f g :
  (forall a, f a = g a) ->
  forall a, foldl (fun f sg => seg_over d sg f) f sgs a = foldl (fun f sg => seg_over d sg f) g sgs a.
Proof.
  revert f g. induction sgs as [|sg sgs IH]; intros f g Hfg a; [apply Hfg|].
  cbn [foldl]. apply IH. intros x. unfold seg_over. by rewrite Hfg.
Qed.

Lemma boot_loop_run d n k s :
  quiet s d -> sectors_ok d -> header_in d s -> 0 <= k -> k + PROGHDR_SIZE * Z.of_nat n <= 4096 ->
  Forall seg_ok (segs_from d k n) ->
  exists s', boot_loop (S n) (SCRATCH + (k + PROGHDR_SIZE * Z.of_nat n)) (SCRATCH + k) s = Ret tt s' /\
    quiet s' d /\ header_in d s' /\
    forall a, ldb (bt_mem s') a =
      foldl (fun f sg => seg_over d sg f) (ldb (bt_mem s)) (segs_from d k n) a.
Proof.
  unfold boot_loop. revert k s. induction n as [|n IH]; intros k s Hq Hok Hh H0 Hk Hsgs.
  { exists s. split; [|done]. apply loop_done. rewrite (proj2 (Z.ltb_ge _ _)) by lia. done. }
  rewrite segs_from_S in *. apply Forall_cons in Hsgs as [Hsg Hsgs].
  destruct (boot_segment_run d s k Hq Hok Hh H0) as (s1 & E1 & Hq1 & Hh1 & Hm1);
    [unfold PROGHDR_SIZE in *; lia|done|].
  destruct (IH (k + PROGHDR_SIZE) s1) as (s2 & E2 & Hq2 & Hh2 & Hm2); try done;
    [unfold PROGHDR_SIZE in *; lia..|].
  replace (k + PROGHDR_SIZE + PROGHDR_SIZE * Z.of_nat n)
    with (k + PROGHDR_SIZE * Z.of_nat (S n)) in E2 by lia.
  replace (SCRATCH + (k + PROGHDR_SIZE)) with (SCRATCH + k + PROGHDR_SIZE) in E2 by lia.
  exists s2. split; [|split; [done|split; [done|]]].
  - erewrite loop_next; [exact E2|].
    rewrite (proj2 (Z.ltb_lt _ _)) by (unfold PROGHDR_SIZE; lia). by kstep_by ltac:(exact E1).
  - intros a. rewrite Hm2. cbn [foldl]. by apply segs_over_ext.
Qed.

(** A kernel file on the disk that can be loaded: the magic number, the
    program headers in the first page, and segments that fit into memory
    beside the scratch space and each other. *)
Record bootable d : Prop := {
  bo_sectors : sectors_ok d;
  bo_magic : krd d 4 0 = ELF_MAGIC;
  bo_headers : 0 <= krd d 4 28 /\ 0 <= krd d 2 44 /\ krd d 4 28 + PROGHDR_SIZE * krd d 2 44 <= 4096;
  bo_segments : Forall seg_ok (segments d);
  bo_apart : segs_apart (segments d)
}.

(** The first page is read into the scratch space. *)
Lemma read_header_run d s :
  quiet s d -> sectors_ok d ->
  exists s', readseg SCRATCH 4096 0 s = Ret tt s' /\ quiet s' d /\ header_in d s' /\
    forall a, ~ (SCRATCH <= a < SCRATCH + 4096) -> ldb (bt_mem s') a = ldb (bt_mem s) a.
Proof.
  intros Hq Hok. destruct (readseg_run s d SCRATCH 4096 0 Hq Hok) as (s1 & E1 & Hq1 & Hm1).
  { repeat split; vm_compute; congruence. }
  change (seg_lo SCRATCH 0) with SCRATCH in Hm1.
  change (seg_hi SCRATCH 4096 0) with (SCRATCH + 4096) in Hm1.
  exists s1. split; [done|]. split; [done|]. split.
  - intros k Hk. rewrite Hm1, decide_True by lia. f_equal. lia.
  - intros a Ha. by rewrite Hm1, decide_False.
Qed.

Lemma bootmain_run d s :
  quiet s d -> bootable d ->
  exists s', bootmain s = Ret (Some (krd d 4 24)) s' /\
    Forall (fun sg => seg_loaded d sg (ldb (bt_mem s'))) (segments d) /\
    forall a, ~ (SCRATCH <= a < SCRATCH + 4096) -> (forall sg, sg ∈ segments d -> ~ touches sg a) ->
      ldb (bt_mem s') a = ldb (bt_mem s) a.
Proof.
  intros Hq [Hok Hmag (Hp & Hn & Hh) Hsgs Hap].
  destruct (read_header_run d s Hq Hok) as (s1 & E1 & Hq1 & Hh1 & Hm1).
  change (segments d) with (segs_from d (krd d 4 28) (Z.to_nat (krd d 2 44))) in *.
  destruct (boot_loop_run d (Z.to_nat (krd d 2 44)) (krd d 4 28) s1) as (s2 & E2 & Hq2 & Hh2 & Hm2);
    try done; [by rewrite Z2Nat.id|]. rewrite Z2Nat.id in E2 by done.
  exists s2. split; [|split].
  - unfold bootmain. kstep_by ltac:(exact E1).
    kstep_by ltac:(exact (rdmem_header d s1 4 0 Hh1 ltac:(lia) ltac:(lia))). rewrite Hmag, Z.eqb_refl. cbn [negb].
    kstep_by ltac:(apply (rdmem_header d); [done|lia|lia]).
    kstep_by ltac:(apply (rdmem_header d); [done|lia|lia]). cbv zeta.
    unfold PROGHDR_SIZE in *.
    rewrite !(u32_id (SCRATCH + _)), u32_id by (unfold SCRATCH; lia).
    rewrite <- Z.add_assoc. kstep_by ltac:(exact E2).
    by kstep_by ltac:(apply (rdmem_header d); [done|lia|lia]).
  - eapply Forall_impl; [by apply (segs_over_loaded d _ (ldb (bt_mem s1)))|].
    intros sg Hsg i Hi. rewrite Hm2. by apply Hsg.
  - intros a Ha Ht. by rewrite Hm2, segs_over_out, Hm1.
Qed.

(** C15: [bootmain] puts every segment of the kernel file where its program header
    says, with its bytes from the file followed by zeroes, and jumps to the
    entry point; memory that neither a segment, rounded to whole sectors, nor
    the scratch space takes keeps its contents.  A disk without the magic
    number makes it return without having touched more than the scratch
    space. *)
Theorem bootmain_loads d s :
  quiet s d ->
  (bootable d ->
   exists s', bootmain s = Ret (Some (krd d 4 24)) s' /\
     Forall (fun sg => seg_loaded d sg (ldb (bt_mem s'))) (segments d) /\
     forall a, ~ (SCRATCH <= a < SCRATCH + 4096) -> (forall sg, sg ∈ segments d -> ~ touches sg a) ->
       ldb (bt_mem s') a = ldb (bt_mem s) a) /\
  (sectors_ok d -> krd d 4 0 <> ELF_MAGIC ->
   exists s', bootmain s = Ret None s' /\
     forall a, ~ (SCRATCH <= a < SCRATCH + 4096) -> ldb (bt_mem s') a = ldb (bt_mem s) a).
Proof.
  intros Hq. split; [by apply bootmain_run|].
  intros Hok Hmag. destruct (read_header_run d s Hq Hok) as (s1 & E1 & Hq1 & Hh1 & Hm1).
    exists s1. split; [|done]. unfold bootmain. kstep_by ltac:(exact E1).
    kstep_by ltac:(exact (rdmem_header d s1 4 0 Hh1 ltac:(lia) ltac:(lia))).
    by rewrite (proj2 (Z.eqb_neq _ _) Hmag).
Qed.

(** ** A disk with a kernel of two segments *)

Definition demo_ph (off pa fsz msz : Z) : list Z :=
  le_enc 4 1 ++ le_enc 4 off ++ le_enc 4 0 ++ le_enc 4 pa ++ le_enc 4 fsz ++ le_enc 4 msz ++ replicate 8 0.
Definition demo_header : list Z :=
  le_enc 4 ELF_MAGIC ++ replicate 20 0 ++ le_enc 4 1048664 ++ le_enc 4 52 ++ replicate 12 0 ++
  le_enc 2 2 ++ replicate 6 0 ++ demo_ph 600 1048664 600 1000 ++ demo_ph 1536 1056768 100 100.
Definition demo_disk : gmap (Z * Z) (list Z) :=
  list_to_map [((0, 1), demo_header ++ replicate 396 0); ((0, 2), replicate 512 7);
               ((0, 3), replicate 512 9); ((0, 4), replicate 512 11)].
Definition demo_boot : boot := mkboot ∅ (mkctl demo_disk 0 0 0 0 None []).

Lemma demo_sectors : sectors_ok demo_disk.
Proof.
  intros n. unfold sect. destruct (demo_disk !! (0, n)) as [l|] eqn:E; [|reflexivity].
  apply elem_of_list_to_map_2 in E. rewrite !elem_of_cons, elem_of_nil in E.
  cbn [default]. destruct E as [E|[E|[E|[E|[]]]]]; injection E as -> ->; reflexivity.
Qed.

Lemma demo_segments :
  segments demo_disk = [mkseg 600 1048664 600 1000; mkseg 1536 1056768 100 100].
Proof. vm_compute. reflexivity. Qed.

Lemma demo_bootable : bootable demo_disk.
Proof.
  split.
  - apply demo_sectors.
  - vm_compute. reflexivity.
  - vm_compute. repeat split; congruence.
  - rewrite demo_segments. apply Forall_cons; split; [|apply Forall_singleton].
    all: split; [repeat split; vm_compute; congruence|]; split; [vm_compute; congruence|].
    all: intros a Ha; unfold touches; cbn [sg_paddr sg_off]; unfold SCRATCH in Ha.
    + change (seg_lo 1048664 600) with 1048576. lia.
    + change (seg_lo 1056768 1536) with 1056768. lia.
  - rewrite demo_segments. split; [|split; [|done]].
    + intros sg' i ->%list_elem_of_singleton Hi. unfold touches.
      change (Z.max _ _) with 1000 in Hi. cbn [sg_paddr sg_off].
      change (seg_lo 1056768 1536) with 1056768. lia.
    + intros sg' i Hin. by apply elem_of_nil in Hin.
Qed.

Lemma bootmain_loads_witness :
  exists s', bootmain demo_boot = Ret (Some 1048664) s' /\
    Forall (fun sg => seg_loaded demo_disk sg (ldb (bt_mem s'))) (segments demo_disk).
Proof.
  destruct (bootmain_loads demo_disk demo_boot) as [H _]; [split; reflexivity|].
  destruct (H demo_bootable) as (s' & E & Hs & _).
  exists s'. split; [|exact Hs]. rewrite E. reflexivity.
Defined.
