(* ===== verification/Segments.v ===== *)
(** * Segments, gates and the way into the kernel ([mmu.h], [seginit] and
    [switchuvm] of [vm.c], [tvinit] of [trap.c])

    The descriptors are the bit fields of [mmu.h]; what the processor makes of
    them, the base and limit of a segment, the offset of a gate and the
    transfer of control by an interrupt, is written down after the documented
    behaviour of the x86.  The theorem is about the three routines together:
    user code can enter the kernel through the system call gate only, and
    whatever brings the processor into the kernel starts at the entry of its
    vector, at the highest privilege, on the kernel stack of the process. *)

From S2P Require Import Prelude State Kalloc Process Syscall.

(** ** Descriptors *)

Definition SEG_KCODE : Z := 1.
Definition SEG_KDATA : Z := 2.
Definition SEG_KCPU : Z := 3.
Definition SEG_TSS : Z := 6.
Definition NSEGS : Z := 7.

Definition STA_X : Z := 8.
Definition STA_W : Z := 2.
Definition STA_R : Z := 2.
Definition STS_T32A : Z := 9.
Definition STS_IG32 : Z := 14.
Definition STS_TG32 : Z := 15.

(** A value stored in a bit field of [n] bits. *)
Definition bits (n x : Z) : Z := x mod 2 ^ n.

Record segdesc := mksegdesc {
  sd_lim_15_0 : Z; sd_base_15_0 : Z; sd_base_23_16 : Z; sd_type : Z; sd_s : Z; sd_dpl : Z; sd_p : Z;
  sd_lim_19_16 : Z; sd_avl : Z; sd_rsv1 : Z; sd_db : Z; sd_g : Z; sd_base_31_24 : Z
}.

Definition SEG (type base lim dpl : Z) : segdesc :=
  mksegdesc (Z.land (Z.shiftr lim 12) 65535) (Z.land (u32 base) 65535)
    (Z.land (Z.shiftr (u32 base) 16) 255) (bits 4 type) 1 (bits 2 dpl) 1
    (bits 4 (Z.shiftr (u32 lim) 28)) 0 0 1 1 (bits 8 (Z.shiftr (u32 base) 24)).

Definition SEG16 (type base lim dpl : Z) : segdesc :=
  mksegdesc (Z.land lim 65535) (Z.land (u32 base) 65535)
    (Z.land (Z.shiftr (u32 base) 16) 255) (bits 4 type) 1 (bits 2 dpl) 1
    (bits 4 (Z.shiftr (u32 lim) 16)) 0 0 1 0 (bits 8 (Z.shiftr (u32 base) 24)).

Definition clear_s (d : segdesc) : segdesc :=
  mksegdesc (sd_lim_15_0 d) (sd_base_15_0 d) (sd_base_23_16 d) (sd_type d) 0 (sd_dpl d) (sd_p d)
    (sd_lim_19_16 d) (sd_avl d) (sd_rsv1 d) (sd_db d) (sd_g d) (sd_base_31_24 d).

Record gatedesc := mkgatedesc {
  gd_off_15_0 : Z; gd_cs : Z; gd_args : Z; gd_rsv1 : Z; gd_type : Z; gd_s : Z; gd_dpl : Z; gd_p : Z;
  gd_off_31_16 : Z
}.

Definition SETGATE (istrap : bool) (sel off d : Z) : gatedesc :=
  mkgatedesc (Z.land (u32 off) 65535) (bits 16 sel) 0 0 (if istrap then STS_TG32 else STS_IG32) 0
    (bits 2 d) 1 (bits 16 (Z.shiftr (u32 off) 16)).

(** The fields of [struct taskstate] the kernel sets. *)
Record taskstate := mktaskstate { ts_ss0 : Z; ts_esp0 : Z }.

(** ** The routines *)

(** What the processor's registers refer to: the descriptor tables, [gs] and
    the task register, and the task state of this CPU. *)
Record segs := mksegs {
  g_gdt : list segdesc;
  g_idt : list gatedesc;
  g_gs : Z;
  g_tr : Z;
  g_ts : taskstate
}.

(** [seginit] on the CPU whose variables [cpu] and [proc] are at [cpuvars]; the
    table has [NSEGS] descriptors. *)
Definition seginit (cpuvars : Z) (s : segs) : segs :=
  let gdt := g_gdt s in
  let gdt := <[Z.to_nat SEG_KCODE := SEG (Z.lor STA_X STA_R) 0 4294967295 0]> gdt in
  let gdt := <[Z.to_nat SEG_KDATA := SEG STA_W 0 4294967295 0]> gdt in
  let gdt := <[Z.to_nat SEG_UCODE := SEG (Z.lor STA_X STA_R) 0 4294967295 DPL_USER]> gdt in
  let gdt := <[Z.to_nat SEG_UDATA := SEG STA_W 0 4294967295 DPL_USER]> gdt in
  let gdt := <[Z.to_nat SEG_KCPU := SEG STA_W cpuvars 8 0]> gdt in
  mksegs gdt (g_idt s) (Z.shiftl SEG_KCPU 3) (g_tr s) (g_ts s).

(** The part of [switchuvm] before the page table: the task state at [ts],
    of [tssize] bytes, and the stack of the process. *)
Definition switchuvm_tss (ts tssize kstack : Z) (s : segs) : segs :=
  let gdt := <[Z.to_nat SEG_TSS := clear_s (SEG16 STS_T32A ts (tssize - 1) 0)]> (g_gdt s) in
  mksegs gdt (g_idt s) (g_gs s) (Z.shiftl SEG_TSS 3)
    (mktaskstate (u16 (Z.shiftl SEG_KDATA 3)) (u32 (kstack + KSTACKSIZE))).

(** The gates [tvinit] fills, for the entry points [vectors.S] declares, and
    [idtinit], which loads the table. *)
Definition tvinit (vectors : Z -> Z) (s : segs) : segs :=
  let idt := map (fun i : nat => SETGATE false (Z.shiftl SEG_KCODE 3) (vectors (Z.of_nat i)) 0)
               (seq 0 256) in
  let idt := <[Z.to_nat T_SYSCALL :=
               SETGATE true (Z.shiftl SEG_KCODE 3) (vectors T_SYSCALL) DPL_USER]> idt in
  mksegs (g_gdt s) idt (g_gs s) (g_tr s) (g_ts s).

(** ** What the processor reads *)

Definition sd_base (d : segdesc) : Z :=
  sd_base_15_0 d + Z.shiftl (sd_base_23_16 d) 16 + Z.shiftl (sd_base_31_24 d) 24.
(** The last offset: the limit counts pages when the granularity bit is set. *)
Definition sd_last (d : segdesc) : Z :=
  let lim := sd_lim_15_0 d + Z.shiftl (sd_lim_19_16 d) 16 in
  if sd_g d =? 1 then lim * 4096 + 4095 else lim.
Definition gd_offset (g : gatedesc) : Z := gd_off_15_0 g + Z.shiftl (gd_off_31_16 g) 16.

(** Where control goes: the new [cs], [eip], privilege level, stack and
    interrupt flag. *)
Record entry_point := mkentry {
  en_cs : Z; en_eip : Z; en_cpl : Z; en_ss : Z; en_esp : Z; en_if : bool
}.

Definition descriptor (s : segs) (sel : Z) : option segdesc := g_gdt s !! Z.to_nat (sel / 8).

(** The transfer through gate [n] from user code with the interrupt flag set,
    [None] for a fault.  [soft] tells an [int] instruction, which needs the
    privilege the gate asks for, from an interrupt or an exception. *)
Definition enter (soft : bool) (n : Z) (s : segs) : option entry_point :=
  g ← g_idt s !! Z.to_nat n;
  guard (gd_p g = 1);;
  guard (soft = true -> DPL_USER <= gd_dpl g);;
  d ← descriptor s (gd_cs g);
  guard (sd_p d = 1 /\ sd_s d = 1 /\ Z.testbit (sd_type d) 3 = true /\ sd_dpl d < DPL_USER);;
  t ← descriptor s (g_tr s);
  guard (sd_p t = 1 /\ sd_s t = 0);;
  Some (mkentry (gd_cs g) (sd_base d + gd_offset g) (sd_dpl d) (ts_ss0 (g_ts s)) (ts_esp0 (g_ts s))
          (gd_type g =? STS_TG32)).

(** ** The fields put together again *)

Lemma split_16_8_8 x :
  Z.land (u32 x) 65535 + Z.shiftl (Z.land (Z.shiftr (u32 x) 16) 255) 16 +
  Z.shiftl (bits 8 (Z.shiftr (u32 x) 24)) 24 = u32 x.
Proof.
  pose proof (u32_range x) as Hx. set (y := u32 x) in *. clearbody y. unfold bits.
  change 65535 with (Z.ones 16). change 255 with (Z.ones 8). rewrite !Z.land_ones by lia.
  rewrite !Z.shiftl_mul_pow2, !Z.shiftr_div_pow2 by lia.
  change (2 ^ 8) with 256. change (2 ^ 16) with 65536. change (2 ^ 24) with (65536 * 256).
  rewrite <- Z.div_div by lia.
  pose proof (Z.div_mod y 65536 ltac:(lia)). pose proof (Z.div_mod (y / 65536) 256 ltac:(lia)).
  rewrite (Z.mod_small (y / 65536 / 256)); [lia|].
  split; [apply Z.div_pos; [apply Z.div_pos|]; lia|].
  do 2 (apply Z.div_lt_upper_bound; [lia|]). lia.
Qed.

Lemma split_16_16 x :
  Z.land (u32 x) 65535 + Z.shiftl (bits 16 (Z.shiftr (u32 x) 16)) 16 = u32 x.
Proof.
  pose proof (u32_range x) as Hx. set (y := u32 x) in *. clearbody y. unfold bits.
  change 65535 with (Z.ones 16). rewrite Z.land_ones, Z.shiftl_mul_pow2, Z.shiftr_div_pow2 by lia.
  change (2 ^ 16) with 65536. pose proof (Z.div_mod y 65536 ltac:(lia)).
  rewrite (Z.mod_small (y / 65536)); [lia|].
  split; [apply Z.div_pos; lia|]. apply Z.div_lt_upper_bound; lia.
Qed.

Lemma SEG_base type base lim dpl : sd_base (SEG type base lim dpl) = u32 base.
Proof. apply split_16_8_8. Qed.
Lemma SEG16_base type base lim dpl : sd_base (clear_s (SEG16 type base lim dpl)) = u32 base.
Proof. apply split_16_8_8. Qed.
Lemma SETGATE_offset istrap sel off d : gd_offset (SETGATE istrap sel off d) = u32 off.
Proof. apply split_16_16. Qed.

Lemma tvinit_gate vectors s n :
  0 <= n < 256 ->
  g_idt (tvinit vectors s) !! Z.to_nat n =
    Some (if n =? T_SYSCALL then SETGATE true 8 (vectors n) DPL_USER else SETGATE false 8 (vectors n) 0).
Proof.
  intros Hn. cbn [tvinit g_idt]. change (Z.shiftl SEG_KCODE 3) with 8.
  change (@map nat gatedesc) with (@fmap list _ nat gatedesc).
  destruct (Z.eqb_spec n T_SYSCALL) as [->|Hne].
  - apply list_lookup_insert_eq. rewrite length_fmap, length_seq. vm_compute. lia.
  - rewrite list_lookup_insert_ne by (unfold T_SYSCALL in *; lia).
    rewrite list_lookup_fmap, lookup_seq_lt by lia. cbn [fmap option_fmap option_map Nat.add].
    do 2 f_equal. rewrite Z2Nat.id by lia. done.
Qed.

(** The descriptors of a CPU after [seginit] and [switchuvm]. *)
Lemma segs_table cpuvars ts tssize kstack vectors s :
  length (g_gdt s) = Z.to_nat NSEGS ->
  let s' := switchuvm_tss ts tssize kstack (tvinit vectors (seginit cpuvars s)) in
  drop 1 (g_gdt s') =
    [SEG (Z.lor STA_X STA_R) 0 4294967295 0; SEG STA_W 0 4294967295 0; SEG STA_W cpuvars 8 0;
     SEG (Z.lor STA_X STA_R) 0 4294967295 DPL_USER; SEG STA_W 0 4294967295 DPL_USER;
     clear_s (SEG16 STS_T32A ts (tssize - 1) 0)].
Proof.
  intros Hlen. destruct s as [gdt idt gs tr tss]. cbn in Hlen.
  do 7 (destruct gdt as [|? gdt]; [discriminate Hlen|]). by destruct gdt.
Qed.

Lemma descriptor_drop s k sel d :
  drop 1 (g_gdt s) !! k = Some d -> sel / 8 = Z.of_nat (S k) -> descriptor s sel = Some d.
Proof.
  intros H Hsel. unfold descriptor. rewrite lookup_drop in H. rewrite Hsel, Nat2Z.id. exact H.
Qed.

Lemma enter_run soft n s g d t :
  g_idt s !! Z.to_nat n = Some g -> gd_p g = 1 -> (soft = true -> DPL_USER <= gd_dpl g) ->
  descriptor s (gd_cs g) = Some d ->
  sd_p d = 1 /\ sd_s d = 1 /\ Z.testbit (sd_type d) 3 = true /\ sd_dpl d < DPL_USER ->
  descriptor s (g_tr s) = Some t -> sd_p t = 1 /\ sd_s t = 0 ->
  enter soft n s =
    Some (mkentry (gd_cs g) (sd_base d + gd_offset g) (sd_dpl d) (ts_ss0 (g_ts s)) (ts_esp0 (g_ts s))
            (gd_type g =? STS_TG32)).
Proof.
  intros Hg Hp Hd Hc Hdd Ht Htt. unfold enter. rewrite Hg. cbn [mbind option_bind].
  rewrite option_guard_True, option_guard_True by done. rewrite Hc. cbn [mbind option_bind].
  rewrite option_guard_True by done. rewrite Ht. cbn [mbind option_bind].
  by rewrite option_guard_True.
Qed.

Lemma enter_refused n s g :
  g_idt s !! Z.to_nat n = Some g -> gd_dpl g < DPL_USER -> enter true n s = None.
Proof.
  intros Hg Hd. unfold enter. rewrite Hg. cbn [mbind option_bind].
  rewrite (option_guard_False (true = true -> DPL_USER <= gd_dpl g)).
  - cbn [mbind option_bind]. by case_guard.
  - intros H'. specialize (H' eq_refl). lia.
Qed.

(** Every vector leads to its entry point, except for an [int] instruction
    without the privilege. *)
Lemma segs_enter cpuvars ts tssize kstack vectors s soft n :
  length (g_gdt s) = Z.to_nat NSEGS -> 0 <= n < 256 -> (soft = true -> n = T_SYSCALL) ->
  enter soft n (switchuvm_tss ts tssize kstack (tvinit vectors (seginit cpuvars s))) =
    Some (mkentry 8 (u32 (vectors n)) 0 16 (u32 (kstack + KSTACKSIZE)) (n =? T_SYSCALL)).
Proof.
  intros Hlen Hn Hs. set (s' := switchuvm_tss _ _ _ _).
  pose proof (segs_table cpuvars ts tssize kstack vectors s Hlen) as Hgdt. cbv zeta in Hgdt. fold s' in Hgdt.
  assert (descriptor s' 8 = Some (SEG (Z.lor STA_X STA_R) 0 4294967295 0)) as Hk
    by (apply (descriptor_drop _ 0); [by rewrite Hgdt|done]).
  assert (descriptor s' (g_tr s') = Some (clear_s (SEG16 STS_T32A ts (tssize - 1) 0))) as Ht
    by (apply (descriptor_drop _ 5); [by rewrite Hgdt|done]).
  erewrite enter_run; [|by apply tvinit_gate|by destruct (n =? T_SYSCALL)|
      |by destruct (n =? T_SYSCALL)|by repeat split|exact Ht|done].
  - rewrite SEG_base. destruct (n =? T_SYSCALL) eqn:En; by rewrite SETGATE_offset.
  - intros ->. rewrite (proj2 (Z.eqb_eq _ _) (Hs eq_refl)). done.
Qed.

(** C16: Once [seginit], [tvinit] and [switchuvm] have run, an [int] instruction of
    user code leads into the kernel through the system call vector only; the
    system call, and every interrupt and exception, enters at the entry point
    of its vector in the flat kernel code segment, at privilege level 0, on
    the kernel stack of the process, with interrupts off for all but system
    calls.  The descriptor of the task register covers the task state, the one
    of [gs] the variables [cpu] and [proc], and the user's descriptors have
    the user's privilege. *)
Theorem kernel_entry cpuvars ts tssize kstack vectors s n :
  length (g_gdt s) = Z.to_nat NSEGS -> 0 <= n < 256 -> 0 < tssize <= 65536 ->
  let s' := switchuvm_tss ts tssize kstack (tvinit vectors (seginit cpuvars s)) in
  let e := mkentry 8 (u32 (vectors n)) 0 16 (u32 (kstack + KSTACKSIZE)) (n =? T_SYSCALL) in
  enter false n s' = Some e /\
  enter true n s' = (if n =? T_SYSCALL then Some e else None) /\
  (exists t, descriptor s' (g_tr s') = Some t /\ sd_base t = u32 ts /\ sd_last t = tssize - 1) /\
  (exists g, descriptor s' (g_gs s') = Some g /\ sd_base g = u32 cpuvars /\ 8 <= sd_last g /\ sd_dpl g = 0) /\
  (forall seg, seg = SEG_UCODE \/ seg = SEG_UDATA ->
     exists u, descriptor s' (Z.shiftl seg 3) = Some u /\ sd_base u = 0 /\ sd_last u = 4294967295 /\
       sd_dpl u = DPL_USER).
Proof.
  intros Hlen Hn Hts s' e.
  pose proof (segs_table cpuvars ts tssize kstack vectors s Hlen) as Hgdt. cbv zeta in Hgdt. fold s' in Hgdt.
  assert (descriptor s' (g_tr s') = Some (clear_s (SEG16 STS_T32A ts (tssize - 1) 0))) as Ht
    by (apply (descriptor_drop _ 5); [by rewrite Hgdt|done]).
  split; [by apply segs_enter|]. split.
  { destruct (Z.eqb_spec n T_SYSCALL) as [->|Hne]; [by apply segs_enter|].
    eapply enter_refused; [by apply tvinit_gate|]. by rewrite (proj2 (Z.eqb_neq _ _) Hne). }
  split; [|split].
  - eexists. split; [exact Ht|]. split; [apply SEG16_base|]. unfold sd_last. cbn [clear_s SEG16 sd_g sd_lim_15_0 sd_lim_19_16].
    cbn [Z.eqb]. rewrite (u32_id (tssize - 1)) by lia. unfold bits. rewrite Z.shiftr_div_pow2, (Z.div_small (tssize - 1)) by lia.
    change 65535 with (Z.ones 16). rewrite Z.land_ones, (Z.mod_small (tssize - 1)) by lia.
    change (0 mod 2 ^ 4) with 0. rewrite Z.shiftl_0_l. lia.
  - exists (SEG STA_W cpuvars 8 0). split; [apply (descriptor_drop _ 2); [by rewrite Hgdt|done]|].
    split; [apply SEG_base|]. done.
  - intros seg [-> | ->].
    + eexists. split; [apply (descriptor_drop _ 3); [by rewrite Hgdt|done]|done].
    + eexists. split; [apply (descriptor_drop _ 4); [by rewrite Hgdt|done]|done].
Qed.

Definition demo_segs : segs :=
  mksegs (replicate 7 (mksegdesc 0 0 0 0 0 0 0 0 0 0 0 0 0)) [] 0 0 (mktaskstate 0 0).

Lemma kernel_entry_witness :
  let s' := switchuvm_tss 2148536380 104 2378170368
              (tvinit (fun i => 2148540416 + 16 * i) (seginit 2148536400 demo_segs)) in
  enter true 64 s' = Some (mkentry 8 2148541440 0 16 2378174464 true) /\ enter true 33 s' = None.
Proof.
  split.
  - apply (kernel_entry 2148536400 2148536380 104 2378170368 (fun i => 2148540416 + 16 * i) demo_segs 64);
      [reflexivity|lia|lia].
  - apply (kernel_entry 2148536400 2148536380 104 2378170368 (fun i => 2148540416 + 16 * i) demo_segs 33);
      [reflexivity|lia|lia].
Defined.
