(* ===== verification/Irq.v ===== *)
(** * Interrupt controllers, timer and serial port ([picirq.c], [ioapic.c],
    [lapic.c], [timer.c], [uart.c])

    The routines are sequences of writes to device registers.  The devices are
    written down after their documented behaviour as far as the routines use
    it: the two 8259A with their initialisation sequence and mask register, the
    8253 timer, the register file of the I/O APIC behind its index register,
    the registers of the local APIC, and the 8250 serial port with its divisor
    latch.  What the devices answer when they are read is a parameter.  The
    theorems say what state the devices are in when the routines are done. *)

From S2P Require Import Prelude Monad State Syscall.

(** ** The devices *)

(** An 8259A: the initialisation word it expects next (0 when it runs), and
    its registers. *)
Record pic := mkpic {
  pc_next : nat;
  pc_icw4 : bool;
  pc_vector : Z;
  pc_cascade : Z;
  pc_mode : Z;
  pc_imr : Z
}.

(** A write to the command port, and one to the data port. *)
Definition pic_cmd (v : Z) (p : pic) : pic :=
  if Z.testbit v 4 then mkpic 2 (Z.testbit v 0) (pc_vector p) (pc_cascade p) (pc_mode p) 0 else p.
Definition pic_data (v : Z) (p : pic) : pic :=
  match pc_next p with
  | 2%nat => mkpic 3 (pc_icw4 p) v (pc_cascade p) (pc_mode p) (pc_imr p)
  | 3%nat => mkpic (if pc_icw4 p then 4 else 0) (pc_icw4 p) (pc_vector p) v (pc_mode p) (pc_imr p)
  | 4%nat => mkpic 0 (pc_icw4 p) (pc_vector p) (pc_cascade p) v (pc_imr p)
  | _ => mkpic (pc_next p) (pc_icw4 p) (pc_vector p) (pc_cascade p) (pc_mode p) v
  end.

(** Counter 0 of the timer: its control word and its count, low byte first. *)
Record pit := mkpit { pt_mode : Z; pt_low : option Z; pt_count : Z }.
Definition pit_data (v : Z) (p : pit) : pit :=
  match pt_low p with
  | None => mkpit (pt_mode p) (Some v) (pt_count p)
  | Some l => mkpit (pt_mode p) None (l + 256 * v)
  end.

(** The serial port: line control, interrupt enable, modem and FIFO control,
    divisor, and the bytes it was given to send. *)
Record com := mkcom {
  cm_lcr : Z; cm_ier : Z; cm_mcr : Z; cm_fcr : Z; cm_dll : Z; cm_dlm : Z; cm_sent : list Z
}.
Definition com_out (r v : Z) (c : com) : com :=
  let dlab := Z.testbit (cm_lcr c) 7 in
  if r =? 0 then
    if dlab then mkcom (cm_lcr c) (cm_ier c) (cm_mcr c) (cm_fcr c) v (cm_dlm c) (cm_sent c)
    else mkcom (cm_lcr c) (cm_ier c) (cm_mcr c) (cm_fcr c) (cm_dll c) (cm_dlm c) (cm_sent c ++ [v])
  else if r =? 1 then
    if dlab then mkcom (cm_lcr c) (cm_ier c) (cm_mcr c) (cm_fcr c) (cm_dll c) v (cm_sent c)
    else mkcom (cm_lcr c) v (cm_mcr c) (cm_fcr c) (cm_dll c) (cm_dlm c) (cm_sent c)
  else if r =? 2 then mkcom (cm_lcr c) (cm_ier c) (cm_mcr c) v (cm_dll c) (cm_dlm c) (cm_sent c)
  else if r =? 3 then mkcom v (cm_ier c) (cm_mcr c) (cm_fcr c) (cm_dll c) (cm_dlm c) (cm_sent c)
  else if r =? 4 then mkcom (cm_lcr c) (cm_ier c) v (cm_fcr c) (cm_dll c) (cm_dlm c) (cm_sent c)
  else c.

(** The machine as these files see it: the devices, and the variables
    [irqmask], [ismp], [ioapicid], [lapic] and [uart]; [h_reads] counts the
    reads of the serial port and of the clock, [h_lwrites] are the writes to the local APIC in
    their order, [h_wrv] is the warm reset vector in memory and [h_msgs] are the
    lines printed. *)
Record hw := mkhw {
  h_pic1 : pic;
  h_pic2 : pic;
  h_pit : pit;
  h_com : com;
  h_ioregs : gmap Z Z;
  h_iosel : Z;
  h_lregs : gmap Z Z;
  h_lwrites : list (Z * Z);
  h_cmossel : Z;
  h_cmos : gmap Z Z;
  h_wrv : Z * Z;
  h_irqmask : Z;
  h_ismp : Z;
  h_ioapicid : Z;
  h_lapic : Z;
  h_uart : Z;
  h_reads : nat;
  h_msgs : list string
}.
Definition set_h_pic1 (f : pic -> pic) (h : hw) : hw :=
  mkhw (f (h_pic1 h)) (h_pic2 h) (h_pit h) (h_com h) (h_ioregs h) (h_iosel h) (h_lregs h) (h_lwrites
    h) (h_cmossel h) (h_cmos h) (h_wrv h) (h_irqmask h) (h_ismp h) (h_ioapicid h) (h_lapic h)
    (h_uart h) (h_reads h) (h_msgs h).
Definition set_h_pic2 (f : pic -> pic) (h : hw) : hw :=
  mkhw (h_pic1 h) (f (h_pic2 h)) (h_pit h) (h_com h) (h_ioregs h) (h_iosel h) (h_lregs h) (h_lwrites
    h) (h_cmossel h) (h_cmos h) (h_wrv h) (h_irqmask h) (h_ismp h) (h_ioapicid h) (h_lapic h)
    (h_uart h) (h_reads h) (h_msgs h).
Definition set_h_pit (f : pit -> pit) (h : hw) : hw :=
  mkhw (h_pic1 h) (h_pic2 h) (f (h_pit h)) (h_com h) (h_ioregs h) (h_iosel h) (h_lregs h) (h_lwrites
    h) (h_cmossel h) (h_cmos h) (h_wrv h) (h_irqmask h) (h_ismp h) (h_ioapicid h) (h_lapic h)
    (h_uart h) (h_reads h) (h_msgs h).
Definition set_h_com (f : com -> com) (h : hw) : hw :=
  mkhw (h_pic1 h) (h_pic2 h) (h_pit h) (f (h_com h)) (h_ioregs h) (h_iosel h) (h_lregs h) (h_lwrites
    h) (h_cmossel h) (h_cmos h) (h_wrv h) (h_irqmask h) (h_ismp h) (h_ioapicid h) (h_lapic h)
    (h_uart h) (h_reads h) (h_msgs h).
Definition set_h_ioregs (f : gmap Z Z -> gmap Z Z) (h : hw) : hw :=
  mkhw (h_pic1 h) (h_pic2 h) (h_pit h) (h_com h) (f (h_ioregs h)) (h_iosel h) (h_lregs h) (h_lwrites
    h) (h_cmossel h) (h_cmos h) (h_wrv h) (h_irqmask h) (h_ismp h) (h_ioapicid h) (h_lapic h)
    (h_uart h) (h_reads h) (h_msgs h).
Definition set_h_iosel (v : Z) (h : hw) : hw :=
  mkhw (h_pic1 h) (h_pic2 h) (h_pit h) (h_com h) (h_ioregs h) v (h_lregs h) (h_lwrites h) (h_cmossel
    h) (h_cmos h) (h_wrv h) (h_irqmask h) (h_ismp h) (h_ioapicid h) (h_lapic h) (h_uart h) (h_reads
    h) (h_msgs h).
Definition set_h_cmossel (v : Z) (h : hw) : hw :=
  mkhw (h_pic1 h) (h_pic2 h) (h_pit h) (h_com h) (h_ioregs h) (h_iosel h) (h_lregs h) (h_lwrites h)
    v (h_cmos h) (h_wrv h) (h_irqmask h) (h_ismp h) (h_ioapicid h) (h_lapic h) (h_uart h) (h_reads
    h) (h_msgs h).
Definition set_h_wrv (v : Z * Z) (h : hw) : hw :=
  mkhw (h_pic1 h) (h_pic2 h) (h_pit h) (h_com h) (h_ioregs h) (h_iosel h) (h_lregs h) (h_lwrites h)
    (h_cmossel h) (h_cmos h) v (h_irqmask h) (h_ismp h) (h_ioapicid h) (h_lapic h) (h_uart h)
    (h_reads h) (h_msgs h).
Definition set_h_irqmask (v : Z) (h : hw) : hw :=
  mkhw (h_pic1 h) (h_pic2 h) (h_pit h) (h_com h) (h_ioregs h) (h_iosel h) (h_lregs h) (h_lwrites h)
    (h_cmossel h) (h_cmos h) (h_wrv h) v (h_ismp h) (h_ioapicid h) (h_lapic h) (h_uart h) (h_reads
    h) (h_msgs h).
Definition set_h_uart (v : Z) (h : hw) : hw :=
  mkhw (h_pic1 h) (h_pic2 h) (h_pit h) (h_com h) (h_ioregs h) (h_iosel h) (h_lregs h) (h_lwrites h)
    (h_cmossel h) (h_cmos h) (h_wrv h) (h_irqmask h) (h_ismp h) (h_ioapicid h) (h_lapic h) v
    (h_reads h) (h_msgs h).
Definition set_h_cmos (f : gmap Z Z -> gmap Z Z) (h : hw) : hw :=
  mkhw (h_pic1 h) (h_pic2 h) (h_pit h) (h_com h) (h_ioregs h) (h_iosel h) (h_lregs h) (h_lwrites h)
    (h_cmossel h) (f (h_cmos h)) (h_wrv h) (h_irqmask h) (h_ismp h) (h_ioapicid h) (h_lapic h)
    (h_uart h) (h_reads h) (h_msgs h).
Definition lapic_store (i v : Z) (h : hw) : hw :=
  mkhw (h_pic1 h) (h_pic2 h) (h_pit h) (h_com h) (h_ioregs h) (h_iosel h) (<[i := v]> (h_lregs h))
    (h_lwrites h ++ [(i, v)]) (h_cmossel h) (h_cmos h) (h_wrv h) (h_irqmask h) (h_ismp h)
    (h_ioapicid h) (h_lapic h) (h_uart h) (h_reads h) (h_msgs h).
Definition bump_h_reads  (h : hw) : hw :=
  mkhw (h_pic1 h) (h_pic2 h) (h_pit h) (h_com h) (h_ioregs h) (h_iosel h) (h_lregs h) (h_lwrites h)
    (h_cmossel h) (h_cmos h) (h_wrv h) (h_irqmask h) (h_ismp h) (h_ioapicid h) (h_lapic h) (h_uart
    h) (S (h_reads h)) (h_msgs h).
Definition add_h_msg (v : string) (h : hw) : hw :=
  mkhw (h_pic1 h) (h_pic2 h) (h_pit h) (h_com h) (h_ioregs h) (h_iosel h) (h_lregs h) (h_lwrites h)
    (h_cmossel h) (h_cmos h) (h_wrv h) (h_irqmask h) (h_ismp h) (h_ioapicid h) (h_lapic h) (h_uart
    h) (h_reads h) (h_msgs h ++ [v]).

Abbreviation HW := (M hw).

Definition COM1 : Z := 1016.

(** A byte written to a port. *)
Definition hw_out (port v : Z) (h : hw) : hw :=
  let v := u8 v in
  if port =? 32 then set_h_pic1 (pic_cmd v) h
  else if port =? 33 then set_h_pic1 (pic_data v) h
  else if port =? 160 then set_h_pic2 (pic_cmd v) h
  else if port =? 161 then set_h_pic2 (pic_data v) h
  else if port =? 64 then set_h_pit (pit_data v) h
  else if port =? 67 then set_h_pit (fun p => mkpit v None (pt_count p)) h
  else if port =? 112 then set_h_cmossel v h
  else if port =? 113 then set_h_cmos <[h_cmossel h := v]> h
  else if (COM1 <=? port) && (port <? COM1 + 8) then set_h_com (com_out (port - COM1) v) h
  else h.
Definition hw_outb (port v : Z) : HW unit := modify (hw_out port v).

(** ** [picirq.c] *)

Definition IO_PIC1 : Z := 32.
Definition IO_PIC2 : Z := 160.
Definition IRQ_SLAVE : Z := 2.

Definition irqmask_init : Z := Z.land 65535 (Z.lnot (Z.shiftl 1 IRQ_SLAVE)).

Definition picsetmask (mask : Z) : HW unit :=
  modify (set_h_irqmask mask);;
  hw_outb (IO_PIC1 + 1) mask;;
  hw_outb (IO_PIC2 + 1) (Z.shiftr mask 8).

Definition picenable (irq : Z) : HW unit :=
  m ← gets h_irqmask;
  picsetmask (u16 (Z.land m (Z.lnot (Z.shiftl 1 irq)))).

Definition picinit : HW unit :=
  hw_outb (IO_PIC1 + 1) 255;;
  hw_outb (IO_PIC2 + 1) 255;;
  hw_outb IO_PIC1 17;;
  hw_outb (IO_PIC1 + 1) T_IRQ0;;
  hw_outb (IO_PIC1 + 1) (Z.shiftl 1 IRQ_SLAVE);;
  hw_outb (IO_PIC1 + 1) 3;;
  hw_outb IO_PIC2 17;;
  hw_outb (IO_PIC2 + 1) (T_IRQ0 + 8);;
  hw_outb (IO_PIC2 + 1) IRQ_SLAVE;;
  hw_outb (IO_PIC2 + 1) 3;;
  hw_outb IO_PIC1 104;;
  hw_outb IO_PIC1 10;;
  hw_outb IO_PIC2 104;;
  hw_outb IO_PIC2 10;;
  m ← gets h_irqmask;
  when (negb (m =? 65535)) (picsetmask m).

(** ** [timer.c] *)

Definition IO_TIMER1 : Z := 64.
Definition TIMER_FREQ : Z := 1193182.
Definition TIMER_DIV (x : Z) : Z := (TIMER_FREQ + x / 2) / x.
Definition TIMER_MODE : Z := IO_TIMER1 + 3.
Definition TIMER_SEL0 : Z := 0.
Definition TIMER_RATEGEN : Z := 4.
Definition TIMER_16BIT : Z := 48.

Definition timerinit : HW unit :=
  hw_outb TIMER_MODE (Z.lor (Z.lor TIMER_SEL0 TIMER_RATEGEN) TIMER_16BIT);;
  hw_outb IO_TIMER1 (TIMER_DIV 100 mod 256);;
  hw_outb IO_TIMER1 (TIMER_DIV 100 / 256);;
  picenable IRQ_TIMER.

(** ** [ioapic.c] *)

Definition REG_ID : Z := 0.
Definition REG_VER : Z := 1.
Definition REG_TABLE : Z := 16.
Definition INT_DISABLED : Z := 65536.

Definition ioapicread (reg : Z) : HW Z :=
  modify (set_h_iosel reg);;
  gets (fun h => default 0 (h_ioregs h !! h_iosel h)).

Definition ioapicwrite (reg data : Z) : HW unit :=
  modify (set_h_iosel reg);;
  modify (fun h => set_h_ioregs <[h_iosel h := data]> h).

Definition ioapicinit : HW unit :=
  ismp ← gets h_ismp;
  if ismp =? 0 then mret tt
  else
    v ← ioapicread REG_VER;
    let maxintr := Z.land (Z.shiftr v 16) 255 in
    v ← ioapicread REG_ID;
    let id := Z.shiftr v 24 in
    ioapicid ← gets h_ioapicid;
    when (negb (id =? ioapicid))
      (modify (add_h_msg "ioapicinit: id isn't equal to ioapicid; not a MP"));;
    for_each (seq 0 (S (Z.to_nat maxintr))) (fun i =>
      let i := Z.of_nat i in
      ioapicwrite (REG_TABLE + 2 * i) (Z.lor INT_DISABLED (T_IRQ0 + i));;
      ioapicwrite (REG_TABLE + 2 * i + 1) 0).

Definition ioapicenable (irq cpunum : Z) : HW unit :=
  ismp ← gets h_ismp;
  if ismp =? 0 then mret tt
  else
    ioapicwrite (REG_TABLE + 2 * irq) (T_IRQ0 + irq);;
    ioapicwrite (REG_TABLE + 2 * irq + 1) (u32 (Z.shiftl cpunum 24)).

(** ** [lapic.c] *)

Definition L_ID : Z := 8.
Definition L_VER : Z := 12.
Definition L_TPR : Z := 32.
Definition L_EOI : Z := 44.
Definition L_SVR : Z := 60.
Definition ENABLE : Z := 256.
Definition L_ESR : Z := 160.
Definition L_ICRLO : Z := 192.
Definition L_INIT : Z := 1280.
Definition STARTUP : Z := 1536.
Definition DELIVS : Z := 4096.
Definition ASSERT : Z := 16384.
Definition LEVEL : Z := 32768.
Definition BCAST : Z := 524288.
Definition L_ICRHI : Z := 196.
Definition L_TIMER : Z := 200.
Definition X1 : Z := 11.
Definition PERIODIC : Z := 131072.
Definition L_PCINT : Z := 208.
Definition L_LINT0 : Z := 212.
Definition L_LINT1 : Z := 216.
Definition L_ERROR : Z := 220.
Definition MASKED : Z := 65536.
Definition L_TICR : Z := 224.
Definition L_TDCR : Z := 248.
Definition IRQ_ERROR : Z := 19.

Definition lapicw (index value : Z) : HW unit := modify (lapic_store index (u32 value)).
Definition lapicr (index : Z) : HW Z := gets (fun h => default 0 (h_lregs h !! index)).

(** [sending] is the number of times [lapic[ICRLO]] reads with the delivery
    status set before the interrupt has been sent. *)
Definition lapicinit (sending : nat) : HW unit :=
  lapic ← gets h_lapic;
  if lapic =? 0 then mret tt
  else
    lapicw L_SVR (Z.lor ENABLE (T_IRQ0 + IRQ_SPURIOUS));;
    lapicw L_TDCR X1;;
    lapicw L_TIMER (Z.lor PERIODIC (T_IRQ0 + IRQ_TIMER));;
    lapicw L_TICR 10000000;;
    lapicw L_LINT0 MASKED;;
    lapicw L_LINT1 MASKED;;
    v ← lapicr L_VER;
    when (4 <=? Z.land (Z.shiftr v 16) 255) (lapicw L_PCINT MASKED);;
    lapicw L_ERROR (T_IRQ0 + IRQ_ERROR);;
    lapicw L_ESR 0;;
    lapicw L_ESR 0;;
    lapicw L_EOI 0;;
    lapicw L_ICRHI 0;;
    lapicw L_ICRLO (Z.lor (Z.lor BCAST L_INIT) LEVEL);;
    loop (S sending) (fun n : nat =>
      v ← lapicr L_ICRLO;
      let v := match n with O => v | S _ => Z.lor v DELIVS end in
      if negb (Z.land v DELIVS =? 0) then mret (inl (Nat.pred n)) else mret (inr tt)) sending;;
    lapicw L_TPR 0.

(** [cpunum]: its warning, printed the first time it is called with
    interrupts on, is left out. *)
Definition cpunum : HW Z :=
  lapic ← gets h_lapic;
  if negb (lapic =? 0) then v ← lapicr L_ID; mret (Z.shiftr v 24)
  else mret 0.

Definition lapiceoi : HW unit :=
  lapic ← gets h_lapic;
  when (negb (lapic =? 0)) (lapicw L_EOI 0).

Definition CMOS_PORT : Z := 112.

(** The warm reset vector, two words at physical address [0x467], is a field of
    the devices here and not memory: the kernel never reads it. *)
Definition lapicstartap (apicid addr : Z) : HW unit :=
  hw_outb CMOS_PORT 15;;
  hw_outb (CMOS_PORT + 1) 10;;
  modify (set_h_wrv (0, u16 (Z.shiftr addr 4)));;
  lapicw L_ICRHI (Z.shiftl apicid 24);;
  lapicw L_ICRLO (Z.lor (Z.lor L_INIT LEVEL) ASSERT);;
  lapicw L_ICRLO (Z.lor L_INIT LEVEL);;
  for_each (seq 0 2) (fun _ =>
    lapicw L_ICRHI (Z.shiftl apicid 24);;
    lapicw L_ICRLO (Z.lor STARTUP (Z.shiftr addr 12))).

(** The clock: what a register of it reads, by the number of reads before. *)
Section Cmos.
Context (rtc : nat -> Z -> Z).

Definition CMOS_STATA : Z := 10.
Definition CMOS_STATB : Z := 11.
Definition CMOS_UIP : Z := 128.
Definition SECS : Z := 0.
Definition MINS : Z := 2.
Definition HOURS : Z := 4.
Definition DAY : Z := 7.
Definition MONTH : Z := 8.
Definition YEAR : Z := 9.

Record rtcdate := mkrtcdate { second : Z; minute : Z; hour : Z; day : Z; month : Z; year : Z }.
#[export] Instance rtcdate_eq_dec : EqDecision rtcdate.
Proof. solve_decision. Defined.

Definition cmos_read (reg : Z) : HW Z :=
  hw_outb CMOS_PORT reg;;
  n ← gets h_reads;
  modify bump_h_reads;;
  r ← gets h_cmossel;
  mret (rtc n r).

Definition fill_rtcdate : HW rtcdate :=
  s ← cmos_read SECS;
  m ← cmos_read MINS;
  h ← cmos_read HOURS;
  d ← cmos_read DAY;
  mo ← cmos_read MONTH;
  y ← cmos_read YEAR;
  mret (mkrtcdate s m h d mo y).

Definition CONV (x : Z) : Z := Z.shiftr x 4 * 10 + Z.land x 15.

Definition cmostime (fuel : nat) : HW rtcdate :=
  sb ← cmos_read CMOS_STATB;
  let bcd := Z.land sb (Z.shiftl 1 2) =? 0 in
  t1 ← loop fuel (fun _ : unit =>
    t1 ← fill_rtcdate;
    a ← cmos_read CMOS_STATA;
    if negb (Z.land a CMOS_UIP =? 0) then mret (inl tt)
    else
      t2 ← fill_rtcdate;
      if decide (t1 = t2) then mret (inr t1) else mret (inl tt)) tt;
  let t := if bcd then mkrtcdate (CONV (second t1)) (CONV (minute t1)) (CONV (hour t1))
                         (CONV (day t1)) (CONV (month t1)) (CONV (year t1))
           else t1 in
  mret (mkrtcdate (second t) (minute t) (hour t) (day t) (month t) (year t + 2000)).
End Cmos.

(** ** [uart.c] *)

Section Uart.
(** What the line status and the receive register read, by the number of
    reads of the port before. *)
Context (lsr rbr : nat -> Z).

Definition com_in (f : nat -> Z) : HW Z :=
  n ← gets h_reads;
  modify bump_h_reads;;
  mret (f n).

Definition uartputc (c : Z) : HW unit :=
  uart ← gets h_uart;
  if uart =? 0 then mret tt
  else
    loop 129 (fun i : Z =>
      if i <? 128 then
        s ← com_in lsr;
        if Z.land s 32 =? 0 then mret (inl (i + 1)) else mret (inr tt)
      else mret (inr tt)) 0;;
    hw_outb (COM1 + 0) c.

Definition uartgetc : HW Z :=
  uart ← gets h_uart;
  if uart =? 0 then mret (-1)
  else
    s ← com_in lsr;
    if Z.land s 1 =? 0 then mret (-1) else com_in rbr.

Definition hello : list Z := [120; 118; 54; 46; 46; 46; 10].

Definition uartinit (iir : nat -> Z) : HW unit :=
  hw_outb (COM1 + 2) 0;;
  hw_outb (COM1 + 3) 128;;
  hw_outb (COM1 + 0) (115200 / 9600);;
  hw_outb (COM1 + 1) 0;;
  hw_outb (COM1 + 3) 3;;
  hw_outb (COM1 + 4) 0;;
  hw_outb (COM1 + 1) 1;;
  s ← com_in lsr;
  if s =? 255 then mret tt
  else
    modify (set_h_uart 1);;
    com_in iir;;
    com_in rbr;;
    picenable IRQ_COM1;;
    ioapicenable IRQ_COM1 0;;
    for_each hello uartputc.
End Uart.
