(* ===== verification/IrqProps.v ===== *)
(** * Properties of the interrupt controllers, the clock and the serial port

    After [picinit] and any calls of [picenable] the two 8259A run with the
    vectors the kernel expects and let through exactly the lines enabled; the
    I/O APIC routes an enabled interrupt to the processor asked for, by a
    vector whose gate leads to the entry of that interrupt, and no other; the
    clock is read untorn; the serial port is set up before it sends. *)

From S2P Require Import Prelude Monad State Process Syscall Segments Irq.

(** ** The 8259A *)

(** The line [l] of the pair is masked. *)
Definition line_masked (h : hw) (l : Z) : bool :=
  if l <? 8 then Z.testbit (pc_imr (h_pic1 h)) l else Z.testbit (pc_imr (h_pic2 h)) (l - 8).

Definition pic_running (vector cascade : Z) (p : pic) : Prop :=
  pc_next p = 0%nat /\ pc_vector p = vector /\ pc_cascade p = cascade /\ pc_mode p = 3.

(** The controllers run and their masks are the variable [irqmask]. *)
Definition pics_ok (h : hw) : Prop :=
  0 <= h_irqmask h < 65536 /\
  pic_running 32 4 (h_pic1 h) /\ pic_running 40 2 (h_pic2 h) /\
  pc_imr (h_pic1 h) = u8 (h_irqmask h) /\ pc_imr (h_pic2 h) = u8 (Z.shiftr (h_irqmask h) 8).

Lemma pics_ok_lines h l : pics_ok h -> 0 <= l < 16 -> line_masked h l = Z.testbit (h_irqmask h) l.
Proof.
  intros (_ & _ & _ & H1 & H2) Hl. unfold line_masked. rewrite H1, H2. unfold u8.
  destruct (Z.ltb_spec l 8).
  - by rewrite Z.mod_pow2_bits_low by lia.
  - rewrite Z.mod_pow2_bits_low, Z.shiftr_spec by lia. f_equal. lia.
Qed.

Lemma picsetmask_run m h :
  0 <= m < 65536 -> pics_ok h ->
  exists h', picsetmask m h = Ret tt h' /\ pics_ok h' /\ h_irqmask h' = m.
Proof.
  intros Hm (_ & (N1 & V1 & C1 & M1) & (N2 & V2 & C2 & M2) & _ & _).
  destruct h as [p1 p2]; cbn in *. destruct p1, p2; cbn in *. subst.
  unfold picsetmask, hw_outb. kstep. kstep. eexists. split; [reflexivity|]. split; [|done].
  split; [exact Hm|]. by repeat split.
Qed.

Lemma picinit_run h :
  0 <= h_irqmask h < 65535 ->
  exists h', picinit h = Ret tt h' /\ pics_ok h' /\ h_irqmask h' = h_irqmask h.
Proof.
  intros Hm. unfold picinit, hw_outb. do 15 kstep.
  set (h1 := hw_out IO_PIC2 10 _). change (h_irqmask h1) with (h_irqmask h).
  rewrite (proj2 (Z.eqb_neq _ _)) by lia. cbn [negb when]. unfold picsetmask, hw_outb.
  kstep. kstep. eexists. split; [reflexivity|]. split; [|done].
  split; [change (0 <= h_irqmask h < 65536); lia|]. by repeat split.
Qed.

Lemma land_clear_bit m irq l :
  0 <= irq < 16 -> 0 <= l < 16 ->
  Z.testbit (u16 (Z.land m (Z.lnot (Z.shiftl 1 irq)))) l = Z.testbit m l && negb (l =? irq).
Proof.
  intros Hi Hl. unfold u16. rewrite Z.mod_pow2_bits_low, Z.land_spec, Z.lnot_spec by lia.
  rewrite Z.shiftl_1_l, Z.pow2_bits_eqb, Z.eqb_sym by lia. done.
Qed.

Lemma picenable_run irq h :
  0 <= irq < 16 -> pics_ok h ->
  exists h', picenable irq h = Ret tt h' /\ pics_ok h' /\
    forall l, 0 <= l < 16 -> Z.testbit (h_irqmask h') l = Z.testbit (h_irqmask h) l && negb (l =? irq).
Proof.
  intros Hi Hok. unfold picenable. kstep.
  set (m := u16 _).
  destruct (picsetmask_run m h) as (h' & E & Hok' & Hm); [apply u16_range|done|].
  exists h'. split; [exact E|]. split; [done|]. intros l Hl. rewrite Hm. by apply land_clear_bit.
Qed.

Lemma picenable_list irqs h :
  Forall (fun irq => 0 <= irq < 16) irqs -> pics_ok h ->
  exists h', for_each irqs picenable h = Ret tt h' /\ pics_ok h' /\
    forall l, 0 <= l < 16 ->
      Z.testbit (h_irqmask h') l = Z.testbit (h_irqmask h) l && negb (bool_decide (l ∈ irqs)).
Proof.
  revert h. induction irqs as [|irq irqs IH]; intros h Hi Hok.
  { exists h. split; [done|]. split; [done|]. intros l _. by rewrite andb_true_r. }
  apply Forall_cons in Hi as [Hi Hs].
  destruct (picenable_run irq h Hi Hok) as (h1 & E1 & Hok1 & Hm1).
  destruct (IH h1 Hs Hok1) as (h2 & E2 & Hok2 & Hm2).
  exists h2. split; [cbn [for_each]; by kstep_by ltac:(exact E1)|]. split; [done|].
  intros l Hl. rewrite Hm2, Hm1 by done. rewrite <- andb_assoc. f_equal. rewrite <- negb_orb. f_equal.
  rewrite (bool_decide_ext _ _ (elem_of_cons irqs l irq)), bool_decide_or. f_equal.
  destruct (Z.eqb_spec l irq); [by rewrite bool_decide_true|by rewrite bool_decide_false].
Qed.

(** Whatever state the controllers were in, after [picinit] and calls of
    [picenable] they run with the vectors from [T_IRQ0] on, and the lines that
    are not masked are exactly the one of the slave and those enabled. *)
Theorem pic_lines irqs h :
  h_irqmask h = irqmask_init -> Forall (fun irq => 0 <= irq < 16) irqs ->
  exists h1 h', picinit h = Ret tt h1 /\ for_each irqs picenable h1 = Ret tt h' /\
    pic_running T_IRQ0 (Z.shiftl 1 IRQ_SLAVE) (h_pic1 h') /\
    pic_running (T_IRQ0 + 8) IRQ_SLAVE (h_pic2 h') /\
    forall l, 0 <= l < 16 -> line_masked h' l = false <-> l = IRQ_SLAVE \/ l ∈ irqs.
Proof.
  intros Hm Hi. destruct (picinit_run h) as (h1 & E1 & Hok1 & Hm1); [by rewrite Hm|].
  destruct (picenable_list irqs h1 Hi Hok1) as (h2 & E2 & Hok2 & Hm2).
  exists h1, h2. split; [done|]. split; [done|]. pose proof Hok2 as (_ & R1 & R2 & _).
  split; [exact R1|]. split; [exact R2|]. intros l Hl.
  rewrite (pics_ok_lines _ _ Hok2 Hl), Hm2, Hm1, Hm by done.
  assert (Z.testbit irqmask_init l = negb (l =? 2)) as ->.
  { assert (l ∈ seqZ 0 16) as Hin by (apply elem_of_seqZ; lia). clear -Hin. vm_compute in Hin.
    repeat (apply elem_of_cons in Hin as [-> |Hin]; [done|]). by apply elem_of_nil in Hin. }
  unfold IRQ_SLAVE. destruct (Z.eqb_spec l 2), (bool_decide_reflect (l ∈ irqs)); cbn; naive_solver.
Qed.

Definition hw_reset : hw :=
  mkhw (mkpic 3 false 0 0 0 0) (mkpic 0 false 8 0 0 0) (mkpit 0 None 0) (mkcom 0 0 0 0 0 0 [])
    {[REG_VER := 1507345; REG_ID := 0]} 0 ∅ [] 0 ∅ (0, 0) irqmask_init 1 0 4276092928 0 0 [].

Lemma pic_lines_witness :
  exists h1 h', picinit hw_reset = Ret tt h1 /\
    for_each [IRQ_KBD; IRQ_COM1; IRQ_IDE] picenable h1 = Ret tt h' /\
    line_masked h' 14 = false /\ line_masked h' 5 = true.
Proof.
  destruct (pic_lines [IRQ_KBD; IRQ_COM1; IRQ_IDE] hw_reset) as (h1 & h' & E1 & E2 & _ & _ & Hl).
  { reflexivity. }
  { repeat constructor; vm_compute; congruence. }
  exists h1, h'. split; [exact E1|]. split; [exact E2|]. split.
  - apply Hl; [lia|]. right. unfold IRQ_IDE. rewrite !elem_of_cons. auto.
  - destruct (line_masked h' 5) eqn:E; [reflexivity|]. apply Hl in E; [|lia].
    rewrite !elem_of_cons, elem_of_nil in E. unfold IRQ_SLAVE, IRQ_KBD, IRQ_COM1, IRQ_IDE in E. lia.
Defined.

(** ** The I/O APIC *)

Definition maxintr (h : hw) : Z := Z.land (Z.shiftr (default 0 (h_ioregs h !! REG_VER)) 16) 255.

(** The redirection entry of [i]: its first register and its second. *)
Definition redirect (h : hw) (i : Z) : option Z := h_ioregs h !! (REG_TABLE + 2 * i).
Definition redirect_dest (h : hw) (i : Z) : option Z := h_ioregs h !! (REG_TABLE + 2 * i + 1).
Definition delivered (e : Z) : Prop := Z.testbit e 16 = false.

(** The table after the interrupts [ens] have been enabled. *)
Definition routed (n : Z) (ens : list (Z * Z)) (h : hw) : Prop :=
  h_ismp h <> 0 /\
  (forall i, 0 <= i <= n ->
     redirect h i = Some (if decide (i ∈ ens.*1) then T_IRQ0 + i else Z.lor INT_DISABLED (T_IRQ0 + i))) /\
  (forall i cpu, (i, cpu) ∈ ens -> redirect_dest h i = Some (u32 (Z.shiftl cpu 24))).

Lemma ioapicwrite_run reg v h :
  exists h', ioapicwrite reg v h = Ret tt h' /\ h_ismp h' = h_ismp h /\ h_ioregs h' = <[reg := v]> (h_ioregs h).
Proof. by eexists. Qed.

Lemma ioapicinit_loop k h :
  h_ismp h <> 0 ->
  wp (for_each (seq 0 k) (fun i : nat =>
      ioapicwrite (REG_TABLE + 2 * Z.of_nat i) (Z.lor INT_DISABLED (T_IRQ0 + Z.of_nat i));;
      ioapicwrite (REG_TABLE + 2 * Z.of_nat i + 1) 0))
    (fun _ h' => h_ismp h' <> 0 /\
       forall i, (i < k)%nat -> redirect h' (Z.of_nat i) = Some (Z.lor INT_DISABLED (T_IRQ0 + Z.of_nat i))) h.
Proof.
  intros Hs.
  apply (wp_for_range _ (fun k h' => h_ismp h' <> 0 /\
    forall i, (i < k)%nat -> redirect h' (Z.of_nat i) = Some (Z.lor INT_DISABLED (T_IRQ0 + Z.of_nat i)))).
  { split; [done|]. intros i Hi. lia. }
  intros j h1 _ [Hs1 Hr]. apply wp_bind. eexists _, _. split; [reflexivity|].
  eexists _, _. split; [reflexivity|]. split; [exact Hs1|]. intros i Hi. unfold redirect. cbn [h_ioregs].
  cbn. rewrite lookup_insert_ne by (unfold REG_TABLE; lia).
  destruct (decide (i = j)) as [->|Hne]; [by rewrite lookup_insert_eq|].
  rewrite lookup_insert_ne by (unfold REG_TABLE; lia). apply Hr. lia.
Qed.

Lemma ioapicinit_run h :
  h_ismp h <> 0 -> wp ioapicinit (fun _ h' => routed (maxintr h) [] h') h.
Proof.
  intros Hs. unfold ioapicinit. wstep. rewrite (proj2 (Z.eqb_neq _ _) Hs).
  unfold ioapicread. apply wp_bind. wstep. wstep. cbn [h_ioregs set_h_iosel h_iosel].
  apply wp_bind. wstep. wstep. cbn [h_ioregs set_h_iosel h_iosel]. wstep.
  cbn [h_ioregs set_h_iosel h_iosel h_ioapicid]. fold (maxintr h).
  apply wp_bind. set (m := when _ _).
  assert (exists h1, m (set_h_iosel REG_ID (set_h_iosel REG_VER h)) = Ret tt h1 /\ h_ismp h1 = h_ismp h)
    as (h1 & E1 & Hs1) by (unfold m; destruct (negb _); by eexists).
  exists tt, h1. split; [exact E1|]. eapply wp_mono; [apply ioapicinit_loop; congruence|].
  intros _ h2 [Hs2 Hr]. split; [done|]. split.
  - intros i Hi. rewrite decide_False by apply not_elem_of_nil.
    rewrite <- (Z2Nat.id i) by lia. apply Hr. lia.
  - intros i cpu Hin. by apply elem_of_nil in Hin.
Qed.

Lemma ioapicenable_run n ens irq cpu h :
  routed n ens h -> irq ∉ ens.*1 -> 0 <= irq ->
  wp (ioapicenable irq cpu) (fun _ h' => routed n (ens ++ [(irq, cpu)]) h') h.
Proof.
  intros (Hs & Hr & Hd) Hn Hi. unfold ioapicenable. wstep. rewrite (proj2 (Z.eqb_neq _ _) Hs).
  apply wp_bind. eexists _, _. split; [reflexivity|]. eexists _, _. split; [reflexivity|].
  split; [exact Hs|]. split.
  - intros i Hin. unfold redirect. cbn. rewrite lookup_insert_ne by (unfold REG_TABLE; lia).
    destruct (decide (i = irq)) as [->|Hne].
    + rewrite lookup_insert_eq, decide_True; [done|]. rewrite fmap_app. set_solver.
    + rewrite lookup_insert_ne by (unfold REG_TABLE; lia). fold (redirect h i). rewrite Hr by done.
      f_equal. apply decide_ext. rewrite fmap_app. set_solver.
  - intros i c Hin. unfold redirect_dest. cbn. apply elem_of_app in Hin as [Hin|Hin].
    + assert (i <> irq) by (intros ->; apply Hn, list_elem_of_fmap; by exists (irq, c)).
      rewrite !lookup_insert_ne by (unfold REG_TABLE; lia). by apply Hd.
    + apply list_elem_of_singleton in Hin. injection Hin as -> ->. by rewrite lookup_insert_eq.
Qed.

Lemma ioapicenable_list n ens ens0 h :
  routed n ens0 h -> NoDup (ens0 ++ ens).*1 -> Forall (fun e => 0 <= e.1) ens ->
  wp (for_each ens (fun '(irq, cpu) => ioapicenable irq cpu)) (fun _ h' => routed n (ens0 ++ ens) h') h.
Proof.
  revert ens0 h. induction ens as [|[irq cpu] ens IH]; intros ens0 h Hr Hnd Hi.
  { rewrite app_nil_r. by apply wp_ret. }
  apply Forall_cons in Hi as [Hi1 Hi2]. cbn [for_each]. apply wp_bind.
  eapply (wp_mono _ (fun _ h' => routed n (ens0 ++ [(irq, cpu)]) h')).
  - apply ioapicenable_run; [done| |done]. rewrite fmap_app in Hnd.
    apply NoDup_app in Hnd as (_ & Hd & _). intros Hin. apply (Hd _ Hin). by left.
  - intros _ h1 Hr1. replace (ens0 ++ (irq, cpu) :: ens) with ((ens0 ++ [(irq, cpu)]) ++ ens) in *
      by (by rewrite <- app_assoc). by apply IH.
Qed.

(** On a machine with an I/O APIC, [ioapicinit] masks every interrupt and
    [ioapicenable] lets through those it is called for, and no other.  An
    interrupt let through goes to the processor asked for, by the vector
    [T_IRQ0 + irq], and so enters the kernel at the entry point [vectors.S] has
    for it. *)
Theorem ioapic_routes ens h cpuvars ts tssize kstack vectors s :
  h_ismp h <> 0 -> NoDup ens.*1 ->
  Forall (fun '(irq, cpu) => 0 <= irq <= maxintr h /\ irq < 224 /\ 0 <= cpu < 256) ens ->
  length (g_gdt s) = Z.to_nat NSEGS -> 0 < tssize <= 65536 ->
  let s' := switchuvm_tss ts tssize kstack (tvinit vectors (seginit cpuvars s)) in
  exists h1 h', ioapicinit h = Ret tt h1 /\
    for_each ens (fun '(irq, cpu) => ioapicenable irq cpu) h1 = Ret tt h' /\
    (forall i, 0 <= i <= maxintr h -> i ∉ ens.*1 -> exists e, redirect h' i = Some e /\ ~ delivered e) /\
    (forall irq cpu, (irq, cpu) ∈ ens ->
       exists e d, redirect h' irq = Some e /\ redirect_dest h' irq = Some d /\ delivered e /\
         Z.shiftr d 24 = cpu /\
         enter false (Z.land e 255) s' =
           Some (mkentry 8 (u32 (vectors (T_IRQ0 + irq))) 0 16 (u32 (kstack + KSTACKSIZE))
                   (T_IRQ0 + irq =? T_SYSCALL))).
Proof.
  intros Hs Hnd Hens Hlen Hts s'. destruct (ioapicinit_run h Hs) as ([] & h1 & E1 & Hr1).
  destruct (ioapicenable_list (maxintr h) ens [] h1 Hr1) as ([] & h' & E2 & _ & Hr & Hd); [done| |].
  { eapply Forall_impl; [exact Hens|]. intros [? ?]. cbn. lia. }
  exists h1, h'. split; [done|]. split; [done|]. rewrite Forall_forall in Hens. split.
  - intros i Hi Hin. rewrite (Hr i Hi), decide_False by done. eexists. split; [reflexivity|].
    unfold delivered. rewrite Z.lor_spec. done.
  - intros irq cpu Hin. destruct (Hens _ Hin) as (Hi & Hi' & Hc).
    rewrite (Hr irq Hi), (Hd _ _ Hin), decide_True by (apply list_elem_of_fmap; by exists (irq, cpu)).
    eexists _, _. split; [reflexivity|]. split; [reflexivity|]. unfold T_IRQ0 in *.
    split; [|split].
    + unfold delivered. rewrite <- (Z.mod_small (32 + irq) (2 ^ 16)) by lia.
      by apply Z.mod_pow2_bits_high.
    + rewrite Z.shiftl_mul_pow2, u32_id, Z.shiftr_div_pow2, Z.div_mul by lia. done.
    + change 255 with (Z.ones 8). rewrite Z.land_ones, Z.mod_small by lia.
      by apply segs_enter; [|lia|].
Qed.

Lemma ioapic_routes_witness :
  let s' := switchuvm_tss 2148536380 104 2378170368
              (tvinit (fun i => 2148540416 + 16 * i) (seginit 2148536400 demo_segs)) in
  exists h1 h', ioapicinit hw_reset = Ret tt h1 /\
    for_each [(IRQ_KBD, 0); (IRQ_IDE, 1)] (fun '(irq, cpu) => ioapicenable irq cpu) h1 = Ret tt h' /\
    exists d, redirect_dest h' IRQ_IDE = Some d /\ Z.shiftr d 24 = 1.
Proof.
  destruct (ioapic_routes [(IRQ_KBD, 0); (IRQ_IDE, 1)] hw_reset 2148536400 2148536380 104 2378170368
    (fun i => 2148540416 + 16 * i) demo_segs) as (h1 & h' & E1 & E2 & _ & H).
  - discriminate.
  - apply (bool_decide_unpack _). vm_compute. exact I.
  - apply Forall_cons. split; [|apply Forall_singleton]; vm_compute; repeat split; congruence.
  - reflexivity.
  - lia.
  - exists h1, h'. split; [exact E1|]. split; [exact E2|].
    destruct (H IRQ_IDE 1) as (e & d & _ & Hd & _ & Hc & _); [right; left|].
    exists d. split; [exact Hd|exact Hc].
Defined.

(** ** The clock *)

(** Six registers read one after the other, from read [n] on. *)
Definition reading (rtc : nat -> Z -> Z) (n : nat) : rtcdate :=
  mkrtcdate (rtc n SECS) (rtc (1 + n)%nat MINS) (rtc (2 + n)%nat HOURS) (rtc (3 + n)%nat DAY)
    (rtc (4 + n)%nat MONTH) (rtc (5 + n)%nat YEAR).

Definition rtc_decode (bcd : bool) (t : rtcdate) : rtcdate :=
  let f := if bcd then CONV else fun x => x in
  mkrtcdate (f (second t)) (f (minute t)) (f (hour t)) (f (day t)) (f (month t)) (f (year t) + 2000).

Lemma cmos_read_run rtc reg h :
  0 <= reg < 256 ->
  exists h', cmos_read rtc reg h = Ret (rtc (h_reads h) reg) h' /\ h_reads h' = S (h_reads h).
Proof.
  intros Hr. exists (bump_h_reads (set_h_cmossel reg h)). split; [|reflexivity].
  unfold cmos_read, hw_outb.
  replace (hw_out CMOS_PORT reg) with (set_h_cmossel (u8 reg)) by reflexivity.
  by rewrite u8_id.
Qed.

Lemma fill_rtcdate_run rtc h :
  exists h', fill_rtcdate rtc h = Ret (reading rtc (h_reads h)) h' /\ h_reads h' = (6 + h_reads h)%nat.
Proof.
  unfold fill_rtcdate.
  destruct (cmos_read_run rtc SECS h) as (h1 & E1 & R1); [done|]. kstep_by ltac:(exact E1).
  destruct (cmos_read_run rtc MINS h1) as (h2 & E2 & R2); [done|]. kstep_by ltac:(exact E2).
  destruct (cmos_read_run rtc HOURS h2) as (h3 & E3 & R3); [done|]. kstep_by ltac:(exact E3).
  destruct (cmos_read_run rtc DAY h3) as (h4 & E4 & R4); [done|]. kstep_by ltac:(exact E4).
  destruct (cmos_read_run rtc MONTH h4) as (h5 & E5 & R5); [done|]. kstep_by ltac:(exact E5).
  destruct (cmos_read_run rtc YEAR h5) as (h6 & E6 & R6); [done|]. kstep_by ltac:(exact E6).
  exists h6. rewrite R6, R5, R4, R3, R2, R1. by split.
Qed.

(** A round of [cmostime] that returns: the same values twice, and no update
    in progress in between. *)
Definition untorn (rtc : nat -> Z -> Z) (n : nat) : Prop :=
  Z.land (rtc (6 + n)%nat CMOS_STATA) CMOS_UIP = 0 /\ reading rtc n = reading rtc (7 + n).

Lemma cmos_round rtc h :
  exists h', (h_reads h + 7 <= h_reads h')%nat /\
    (t1 ← fill_rtcdate rtc;
     a ← cmos_read rtc CMOS_STATA;
     if negb (Z.land a CMOS_UIP =? 0) then mret (inl tt)
     else
       t2 ← fill_rtcdate rtc;
       if decide (t1 = t2) then mret (inr t1) else mret (inl tt)) h =
      Ret (if decide (untorn rtc (h_reads h)) then inr (reading rtc (h_reads h)) else inl tt) h'.
Proof.
  destruct (fill_rtcdate_run rtc h) as (h1 & E1 & R1).
  destruct (cmos_read_run rtc CMOS_STATA h1) as (h2 & E2 & R2); [done|].
  destruct (fill_rtcdate_run rtc h2) as (h3 & E3 & R3).
  rewrite R2, R1 in E3. rewrite R1 in E2.
  destruct (Z.eqb_spec (Z.land (rtc (6 + h_reads h)%nat CMOS_STATA) CMOS_UIP) 0) as [Hu|Hu].
  - exists h3. split; [lia|]. kstep_by ltac:(exact E1). kstep_by ltac:(exact E2).
    rewrite (proj2 (Z.eqb_eq _ _) Hu). cbn [negb]. kstep_by ltac:(exact E3).
    destruct (decide (reading rtc (h_reads h) = reading rtc (S (6 + h_reads h)))) as [He|He].
    + by rewrite decide_True.
    + rewrite decide_False; [done|]. by intros [_ ?].
  - exists h2. split; [lia|]. kstep_by ltac:(exact E1). kstep_by ltac:(exact E2).
    rewrite (proj2 (Z.eqb_neq _ _) Hu). cbn [negb]. rewrite decide_False; [done|]. by intros [? _].
Qed.

(** The loop of [cmostime], when the clock stands still from read [n] on. *)
Lemma cmos_loop rtc n v fuel h :
  (forall k reg, (n <= k)%nat -> rtc k reg = v reg) -> Z.land (v CMOS_STATA) CMOS_UIP = 0 ->
  (n < h_reads h + fuel)%nat -> (0 < fuel)%nat ->
  exists k h', untorn rtc k /\
    loop fuel (fun _ : unit =>
      t1 ← fill_rtcdate rtc;
      a ← cmos_read rtc CMOS_STATA;
      if negb (Z.land a CMOS_UIP =? 0) then mret (inl tt)
      else
        t2 ← fill_rtcdate rtc;
        if decide (t1 = t2) then mret (inr t1) else mret (inl tt)) tt h = Ret (reading rtc k) h'.
Proof.
  intros Hv Hu. revert h. induction fuel as [|fuel IH]; intros h Hn Hf; [lia|].
  destruct (cmos_round rtc h) as (h1 & Hr1 & E1). destruct (decide (untorn rtc (h_reads h))) as [Ht|Ht].
  { exists (h_reads h), h1. split; [done|]. by apply loop_done. }
  destruct (IH h1) as (k & h' & Hk & E); [lia| |].
  - destruct fuel; [|lia]. exfalso. apply Ht. split.
    + rewrite Hv by lia. done.
    + unfold reading. rewrite !Hv by lia. done.
  - exists k, h'. split; [done|]. by erewrite loop_next.
Qed.

Lemma CONV_bcd x : 0 <= x < 100 -> CONV (16 * (x / 10) + x mod 10) = x.
Proof.
  intros Hx. unfold CONV. rewrite Z.shiftr_div_pow2 by lia. change 15 with (Z.ones 4).
  rewrite Z.land_ones by lia. change (2 ^ 4) with 16.
  Z.to_euclidean_division_equations. lia.
Qed.

(** [cmostime] returns a date it has read twice with no update in between,
    decoded, however the clock changes before it stands still for long enough;
    it does return then.  For a clock that shows a date in binary-coded decimal
    all the time the result is that date. *)
Theorem cmostime_untorn rtc n v fuel h :
  (forall k reg, (n <= k)%nat -> rtc k reg = v reg) -> Z.land (v CMOS_STATA) CMOS_UIP = 0 ->
  (n < fuel)%nat ->
  let bcd := Z.land (rtc (h_reads h) CMOS_STATB) 4 =? 0 in
  (exists k h', untorn rtc k /\ cmostime rtc fuel h = Ret (rtc_decode bcd (reading rtc k)) h') /\
  (forall t, n = 0%nat -> bcd = true ->
     Forall (fun x => 0 <= x < 100) [second t; minute t; hour t; day t; month t; year t] ->
     (forall reg x, (reg, x) ∈ [(SECS, second t); (MINS, minute t); (HOURS, hour t); (DAY, day t);
                                (MONTH, month t); (YEAR, year t)] ->
        v reg = 16 * (x / 10) + x mod 10) ->
     exists h', cmostime rtc fuel h =
       Ret (mkrtcdate (second t) (minute t) (hour t) (day t) (month t) (year t + 2000)) h').
Proof.
  intros Hv Hu Hf bcd.
  assert (exists k h', untorn rtc k /\ cmostime rtc fuel h = Ret (rtc_decode bcd (reading rtc k)) h') as Hr.
  { destruct (cmos_read_run rtc CMOS_STATB h) as (h1 & E1 & R1); [done|].
    destruct (cmos_loop rtc n v fuel h1 Hv Hu) as (k & h' & Hk & E); [lia|lia|].
    exists k, h'. split; [done|]. unfold cmostime. kstep_by ltac:(exact E1).
    kstep_by ltac:(exact E). change (Z.shiftl 1 2) with 4. fold bcd. by destruct bcd. }
  split; [exact Hr|]. intros t -> Hb Ht Hreg. destruct Hr as (k & h' & _ & E). exists h'. rewrite E.
  rewrite Hb. unfold rtc_decode, reading. cbn [second minute hour day month year].
  rewrite !Hv by lia. rewrite !Forall_cons in Ht. destruct Ht as (H1 & H2 & H3 & H4 & H5 & H6 & _).
  rewrite (Hreg SECS (second t)), (Hreg MINS (minute t)), (Hreg HOURS (hour t)), (Hreg DAY (day t)),
    (Hreg MONTH (month t)), (Hreg YEAR (year t)) by (rewrite !elem_of_cons; auto 10).
  by rewrite !CONV_bcd.
Qed.

Definition demo_rtc (n : nat) (reg : Z) : Z :=
  if reg =? SECS then 89 else if reg =? MINS then 89 else if reg =? HOURS then 35
  else if reg =? DAY then 49 else if reg =? MONTH then 18 else if reg =? YEAR then 20 else 0.

Lemma cmostime_untorn_witness :
  exists h', cmostime demo_rtc 1 hw_reset = Ret (mkrtcdate 59 59 23 31 12 2014) h'.
Proof.
  destruct (cmostime_untorn demo_rtc 0 (demo_rtc 0) 1 hw_reset) as [_ H].
  - intros k reg _. reflexivity.
  - reflexivity.
  - lia.
  - apply (H (mkrtcdate 59 59 23 31 12 14)); [reflexivity|reflexivity|repeat constructor; cbn; lia|].
    intros reg x Hin. rewrite !elem_of_cons, elem_of_nil in Hin.
    destruct Hin as [E|[E|[E|[E|[E|[E|[]]]]]]]; injection E as -> ->; reflexivity.
Defined.

(** ** The serial port *)

Lemma uart_poll lsr k i h :
  i + Z.of_nat k = 128 ->
  exists h', loop (S k) (fun i : Z =>
      if i <? 128 then
        s ← com_in lsr;
        if Z.land s 32 =? 0 then mret (inl (i + 1)) else mret (inr tt)
      else mret (inr tt)) i h = Ret tt h' /\ h_com h' = h_com h /\ h_uart h' = h_uart h.
Proof.
  revert i h. induction k as [|k IH]; intros i h Hi.
  { exists h. split; [|done]. apply loop_done. by rewrite (proj2 (Z.ltb_ge _ _)) by lia. }
  destruct (Z.land (lsr (h_reads h)) 32 =? 0) eqn:E.
  - destruct (IH (i + 1) (bump_h_reads h)) as (h' & E' & Hc & Hu); [lia|].
    exists h'. split; [|by split]. rewrite <- E'. apply loop_next.
    rewrite (proj2 (Z.ltb_lt _ _)) by lia. kstep. by rewrite E.
  - exists (bump_h_reads h). split; [|done]. apply loop_done.
    rewrite (proj2 (Z.ltb_lt _ _)) by lia. kstep. by rewrite E.
Qed.

(** The port with its divisor latch closed and more bytes sent. *)
Definition com_send (l : list Z) (c : com) : com :=
  mkcom (cm_lcr c) (cm_ier c) (cm_mcr c) (cm_fcr c) (cm_dll c) (cm_dlm c) (cm_sent c ++ l).

Lemma uartputc_run lsr c h :
  h_uart h <> 0 -> Z.testbit (cm_lcr (h_com h)) 7 = false ->
  exists h', uartputc lsr c h = Ret tt h' /\ h_com h' = com_send [u8 c] (h_com h) /\ h_uart h' = h_uart h.
Proof.
  intros Hu Hl. unfold uartputc. kstep. rewrite (proj2 (Z.eqb_neq _ _) Hu).
  destruct (uart_poll lsr 128 0 h) as (h1 & E1 & Hc1 & Hu1); [done|].
  exists (set_h_com (com_out 0 (u8 c)) h1). kstep_by ltac:(exact E1). split; [reflexivity|].
  cbn [h_com set_h_com h_uart]. split; [|done]. rewrite Hc1. unfold com_out. by rewrite Hl.
Qed.

Lemma uart_send lsr l h :
  h_uart h <> 0 -> Z.testbit (cm_lcr (h_com h)) 7 = false ->
  exists h', for_each l (uartputc lsr) h = Ret tt h' /\ h_com h' = com_send (map u8 l) (h_com h) /\
    h_uart h' = h_uart h.
Proof.
  revert h. induction l as [|c l IH]; intros h Hu Hl.
  { exists h. split; [done|]. split; [|done]. unfold com_send. cbn [map]. rewrite app_nil_r. by destruct (h_com h). }
  destruct (uartputc_run lsr c h Hu Hl) as (h1 & E1 & Hc1 & Hu1).
  destruct (IH h1) as (h2 & E2 & Hc2 & Hu2); [congruence|by rewrite Hc1|].
  exists h2. split; [cbn [for_each]; by kstep_by ltac:(exact E1)|]. split; [|congruence].
  rewrite Hc2, Hc1. unfold com_send. cbn. by rewrite <- app_assoc.
Qed.

Lemma picenable_com irq h :
  exists h', picenable irq h = Ret tt h' /\ h_com h' = h_com h /\ h_uart h' = h_uart h.
Proof. by eexists. Qed.

Lemma ioapicenable_com irq cpu h :
  exists h', ioapicenable irq cpu h = Ret tt h' /\ h_com h' = h_com h /\ h_uart h' = h_uart h.
Proof. unfold ioapicenable. kstep. destruct (h_ismp h =? 0); by eexists. Qed.

(** [uartinit] finds the port absent by its status, or leaves it at 9600 baud
    with eight data bits, receive interrupts on and the greeting sent; from
    then on [uartputc] sends the byte it is given, after 128 polls at most
    whether the port is ready or not. *)
Theorem uart_sends lsr rbr iir h l :
  exists h', uartinit lsr rbr iir h = Ret tt h' /\
    if lsr (h_reads h) =? 255 then
      h_uart h' = h_uart h /\ cm_sent (h_com h') = cm_sent (h_com h)
    else
      h_uart h' = 1 /\ h_com h' = mkcom 3 1 0 0 12 0 (cm_sent (h_com h) ++ hello) /\
      exists h'', for_each l (uartputc lsr) h' = Ret tt h'' /\
        cm_sent (h_com h'') = cm_sent (h_com h') ++ map u8 l.
Proof.
  unfold uartinit, hw_outb. do 7 kstep. set (h1 := hw_out (COM1 + 1) 1 _).
  assert (h_com h1 = mkcom 3 1 0 0 12 0 (cm_sent (h_com h))) as Hc by reflexivity.
  assert (h_reads h1 = h_reads h /\ h_uart h1 = h_uart h) as [Hr Hu] by done.
  clearbody h1. kstep. rewrite Hr.
  destruct (lsr (h_reads h) =? 255) eqn:E.
  { exists (bump_h_reads h1). split; [reflexivity|]. cbn [h_com h_uart bump_h_reads]. by rewrite Hc. }
  do 3 kstep.
  set (h2 := bump_h_reads _).
  assert (h_com h2 = h_com h1 /\ h_uart h2 = 1) as [Hc2 Hu2] by done. clearbody h2.
  destruct (picenable_com IRQ_COM1 h2) as (h3 & E3 & Hc3 & Hu3). kstep_by ltac:(exact E3).
  destruct (ioapicenable_com IRQ_COM1 0 h3) as (h4 & E4 & Hc4 & Hu4). kstep_by ltac:(exact E4).
  assert (h_com h4 = mkcom 3 1 0 0 12 0 (cm_sent (h_com h))) as Hc4' by congruence.
  destruct (uart_send lsr hello h4) as (h5 & E5 & Hc5 & Hu5); [congruence|by rewrite Hc4'|].
  exists h5. split; [exact E5|]. split; [congruence|]. rewrite Hc4' in Hc5. split; [exact Hc5|].
  destruct (uart_send lsr l h5) as (h6 & E6 & Hc6 & _); [congruence|by rewrite Hc5|].
  exists h6. split; [exact E6|]. by rewrite Hc6.
Qed.

(** ** The local APIC *)

(** [lapicinit] ends whenever its interrupt is sent, with the timer of the
    processor ticking on the timer's vector, the local lines masked, and no
    priority holding interrupts back. *)
Lemma lapicinit_ready sending h :
  h_lapic h <> 0 ->
  exists h', lapicinit sending h = Ret tt h' /\
    h_lregs h' !! L_TIMER = Some (PERIODIC + (T_IRQ0 + IRQ_TIMER)) /\
    h_lregs h' !! L_LINT0 = Some MASKED /\ h_lregs h' !! L_LINT1 = Some MASKED /\
    h_lregs h' !! L_TPR = Some 0 /\ h_lregs h' !! L_SVR = Some (ENABLE + (T_IRQ0 + IRQ_SPURIOUS)).
Proof.
  intros Hl. unfold lapicinit. kstep. rewrite (proj2 (Z.eqb_neq _ _) Hl).
  do 7 kstep.
  set (h1 := lapic_store L_LINT1 _ _). set (m := when _ _).
  assert (exists h2, m h1 = Ret tt h2 /\ (h2 = h1 \/ h2 = lapic_store L_PCINT MASKED h1)) as (h2 & E2 & Hh2)
    by (unfold m; destruct (_ <=? _); eexists; (split; [reflexivity|]); auto).
  kstep_by ltac:(exact E2). do 6 kstep.
  set (h3 := lapic_store L_ICRLO _ _).
  assert (forall n k, (n <= k)%nat -> loop (S k) (fun n : nat =>
      v ← lapicr L_ICRLO;
      let v := match n with O => v | S _ => Z.lor v DELIVS end in
      if negb (Z.land v DELIVS =? 0) then mret (inl (Nat.pred n)) else mret (inr tt)) n h3 = Ret tt h3) as Hloop.
  { assert (lapicr L_ICRLO h3 = Ret 558336 h3) as Hicr
      by (unfold lapicr, h3; cbn [gets h_lregs lapic_store]; by rewrite lookup_insert_eq).
    induction n as [|n IH]; intros k Hk.
    - apply loop_done. by kstep_by ltac:(exact Hicr).
    - destruct k as [|k]; [lia|]. rewrite <- (IH k) by lia. apply loop_next.
      by kstep_by ltac:(exact Hicr). }
  kstep_by ltac:(by apply Hloop). eexists. split; [reflexivity|].
  unfold h3. destruct Hh2 as [-> | ->]; unfold h1; cbn [h_lregs lapic_store];
    repeat split; repeat (rewrite lookup_insert_ne by discriminate); by rewrite lookup_insert_eq.
Qed.
