(* ===== verification/Utils.v ===== *)
(** * The small user programs ([cat.c], [echo.c], [ls.c], [rm.c], [mkdir.c],
    [ln.c], [kill.c], [stat] of [ulib.c])

    The programs see the kernel through the system calls, so they are written
    against an interface: the class [Sys] has the calls they use, on a world of
    the implementation's choice, and the class [Streams] what [cat] and [echo]
    rely on of [read] and [write].  [printf] makes one [write] for every byte.
    A program's result tells whether it has called [exit] before its end. *)

From S2P Require Import Prelude Monad State Strings Layout Inode Console Content ShParse Ulib.

Class Sys (W : Type) := {
  call_open : list Z -> Z -> M W Z;
  call_read : Z -> Z -> M W (Z * list Z);
  call_write : Z -> list Z -> M W Z;
  call_close : Z -> M W Z;
  call_fstat : Z -> M W (Z * stat);
  call_unlink : list Z -> M W Z;
  call_mkdir : list Z -> M W Z;
  call_link : list Z -> list Z -> M W Z;
  call_kill : Z -> M W Z
}.

Section Programs.
Context {W : Type} `{Sys W}.

(** [printf]: a missing argument is read off the stack. *)
Definition print (fd : Z) (fmt : list Z) (args : list arg) : M W unit :=
  match u_printf false fmt args with
  | Some l => for_each l (fun c => call_write fd [c];; mret tt)
  | None => undef
  end.

Definition ch (s : string) : list Z := map (fun a => Z.of_nat (Ascii.nat_of_ascii a)) (String.list_ascii_of_string s).
Definition nl : list Z := [10].

(** ** [cat.c] *)

(** [true] when it returns, [false] when it has called [exit]. *)
Definition cat (fuel : nat) (fd : Z) : M W bool :=
  n ← loop fuel (fun _ : unit =>
    '(n, buf) ← call_read fd 512;
    if 0 <? n then
      call_write 1 buf;;
      mret (inl tt)
    else mret (inr n)) tt;
  if n <? 0 then
    print 1 (ch "cat: read error" ++ nl) [];;
    mret false
  else mret true.

Definition cat_main (fuel : nat) (args : list (list Z)) : M W unit :=
  match args with
  | [] => cat fuel 0;; mret tt
  | _ =>
      scan args (fun arg =>
        fd ← call_open arg 0;
        if fd <? 0 then
          print 1 (ch "cat: cannot open %s" ++ nl) [AStr (Some arg)];;
          mret (Some tt)
        else
          ok ← cat fuel fd;
          if ok : bool then call_close fd;; mret None else mret (Some tt));;
      mret tt
  end.

(** ** [echo.c] *)

Fixpoint echo_main (args : list (list Z)) : M W unit :=
  match args with
  | [] => mret tt
  | a :: rest =>
      print 1 (ch "%s%s") [AStr (Some a); AStr (Some (match rest with [] => nl | _ => ch " " end))];;
      echo_main rest
  end.

(** ** [rm.c], [mkdir.c], [ln.c], [kill.c] *)

Definition rm_main (args : list (list Z)) : M W unit :=
  match args with
  | [] => print 2 (ch "Usage: rm files..." ++ nl) []
  | _ =>
      scan args (fun arg =>
        r ← call_unlink arg;
        if r <? 0 then
          print 2 (ch "rm: %s failed to delete" ++ nl) [AStr (Some arg)];;
          mret (Some tt)
        else mret None);;
      mret tt
  end.

Definition mkdir_main (args : list (list Z)) : M W unit :=
  match args with
  | [] => print 2 (ch "Usage: mkdir files..." ++ nl) []
  | _ =>
      scan args (fun arg =>
        r ← call_mkdir arg;
        if r <? 0 then
          print 2 (ch "mkdir: %s failed to create" ++ nl) [AStr (Some arg)];;
          mret (Some tt)
        else mret None);;
      mret tt
  end.

Definition ln_main (args : list (list Z)) : M W unit :=
  match args with
  | [old; new] =>
      r ← call_link old new;
      when (r <? 0) (print 2 (ch "link %s %s: failed" ++ nl) [AStr (Some old); AStr (Some new)])
  | _ => print 2 (ch "Usage: ln old new" ++ nl) []
  end.

(** With the name of the program [argc] is never below 1. *)
Definition kill_main (args : list (list Z)) : M W unit :=
  for_each args (fun arg => call_kill (atoi arg);; mret tt).

(** ** [ls.c] *)

(** [stat] of [ulib.c]; [O_RDONLY] is 0. *)
Definition u_stat (n : list Z) : M W (Z * stat) :=
  fd ← call_open n 0;
  if fd <? 0 then mret (-1, mkstat 0 0 0 0 0)
  else
    r ← call_fstat fd;
    call_close fd;;
    mret r.

(** The index behind the last slash among the first [k] bytes. *)
Fixpoint after_slash (path : list Z) (k : nat) : nat :=
  match k with
  | O => 0
  | S k' => if bool_decide (path !! k' = Some ch_slash) then k else after_slash path k'
  end.

Definition fmtname (path : list Z) : list Z :=
  let p := drop (after_slash path (length path)) path in
  if (DIRSIZ <=? length p)%nat then p
  else p ++ replicate (DIRSIZ - length p) 32.

Definition ls_line (path : list Z) (st : stat) : M W unit :=
  print 1 (ch "%s %d %d %d" ++ nl)
    [AStr (Some (fmtname path)); AInt (st_type st); AInt (st_ino st); AInt (st_size st)].

Definition ls_dir (fuel : nat) (fd : Z) (path : list Z) : M W unit :=
  loop fuel (fun _ : unit =>
    '(n, l) ← call_read fd 16;
    if n =? 16 then
      let de := dec_dirent l in
      if de_inum de =? 0 then mret (inl tt)
      else
        let buf := path ++ [ch_slash] ++ cstr (de_name de) in
        '(r, st) ← u_stat buf;
        if r <? 0 then
          print 1 (ch "ls: cannot stat %s" ++ nl) [AStr (Some buf)];;
          mret (inl tt)
        else
          ls_line buf st;;
          mret (inl tt)
    else mret (inr tt)) tt.

Definition ls (fuel : nat) (path : list Z) : M W unit :=
  fd ← call_open path 0;
  if fd <? 0 then print 2 (ch "ls: cannot open %s" ++ nl) [AStr (Some path)]
  else
    '(r, st) ← call_fstat fd;
    if r <? 0 then
      print 2 (ch "ls: cannot stat %s" ++ nl) [AStr (Some path)];;
      call_close fd;; mret tt
    else
      (if st_type st =? T_FILE then ls_line path st
       else if st_type st =? T_DIR then
         if (512 <? length path + 1 + DIRSIZ + 1)%nat then print 1 (ch "ls: path too long" ++ nl) []
         else ls_dir fuel fd path
       else mret tt);;
      call_close fd;; mret tt.

Definition ls_main (fuel : nat) (args : list (list Z)) : M W unit :=
  match args with
  | [] => ls fuel (ch ".")
  | _ => for_each args (ls fuel)
  end.
End Programs.

(** ** What [cat] and [echo] do *)

(** Descriptors as streams: what is left to read of one and what was written
    to one.  A read takes some of what is left, none only at the end. *)
Class Streams (W : Type) `{Sys W} := {
  pending : W -> Z -> list Z;
  output : W -> Z -> list Z;
  read_law : forall fd n w, 0 < n -> exists k w',
    call_read fd n w = Ret (Z.of_nat (length (take k (pending w fd))), take k (pending w fd)) w' /\
    (pending w fd <> [] -> (0 < k)%nat) /\
    pending w' fd = drop k (pending w fd) /\ (forall o, output w' o = output w o);
  write_law : forall fd l w, exists r w',
    call_write fd l w = Ret r w' /\
    output w' fd = output w fd ++ l /\ (forall f, pending w' f = pending w f)
}.

Section Streaming.
Context {W : Type} `{Streams W}.

Lemma cat_loop fuel fd w :
  (length (pending w fd) < fuel)%nat ->
  exists w', loop fuel (fun _ : unit =>
      '(n, buf) ← call_read fd 512;
      if 0 <? n then
        call_write 1 buf;;
        mret (inl tt)
      else mret (inr n)) tt w = Ret 0 w' /\
    output w' 1 = output w 1 ++ pending w fd /\ pending w' fd = [].
Proof.
  revert w. induction fuel as [|fuel IH]; intros w Hf; [lia|].
  destruct (read_law fd 512 w) as (k & w1 & E1 & Hk & Hp1 & Ho1); [lia|].
  destruct (pending w fd) as [|b l] eqn:Hp.
  { exists w1. rewrite take_nil in E1. split; [|split].
    - apply loop_done. by kstep_by ltac:(exact E1).
    - by rewrite Ho1, app_nil_r.
    - by rewrite Hp1, drop_nil. }
  specialize (Hk ltac:(discriminate)). destruct k as [|k]; [lia|].
  destruct (write_law 1 (take (S k) (b :: l)) w1) as (r & w2 & E2 & Ho2 & Hp2).
  destruct (IH w2) as (w' & E & Ho & Hpe).
  { rewrite Hp2, Hp1. cbn [drop]. rewrite length_drop. cbn in Hf. lia. }
  exists w'. split; [|split; [|exact Hpe]].
  - rewrite <- E. apply loop_next. kstep_by ltac:(exact E1). cbv iota beta.
    rewrite (proj2 (Z.ltb_lt _ _)) by (cbn [take length]; lia). by kstep_by ltac:(exact E2).
  - rewrite Ho, Ho2, Ho1, Hp2, Hp1, <- app_assoc. by rewrite take_drop.
Qed.

Lemma print_run fd fmt args l w :
  u_printf false fmt args = Some l ->
  exists w', print fd fmt args w = Ret tt w' /\ output w' fd = output w fd ++ l /\
    forall f, pending w' f = pending w f.
Proof.
  intros Hl. unfold print. rewrite Hl. clear Hl. revert w. induction l as [|c l IH]; intros w.
  { exists w. by rewrite app_nil_r. }
  destruct (write_law fd [c] w) as (r & w1 & E1 & Ho1 & Hp1).
  destruct (IH w1) as (w' & E & Ho & Hp). exists w'. split; [|split].
  - cbn [for_each]. kstep_by ltac:(by kstep_by ltac:(exact E1)). exact E.
  - by rewrite Ho, Ho1, <- app_assoc.
  - intros f. by rewrite Hp, Hp1.
Qed.

(** The arguments with spaces between them and a newline at the end. *)
Fixpoint echo_line (args : list (list Z)) : list Z :=
  match args with
  | [] => []
  | [a] => a ++ [10]
  | a :: rest => a ++ [32] ++ echo_line rest
  end.

(** [cat] copies what is left of its input to the output, however [read] cuts
    it up, and returns when the input is at its end; [echo] writes its
    arguments as one line. *)
Theorem cat_copies fuel fd args w :
  (length (pending w fd) < fuel)%nat ->
  (exists w', cat fuel fd w = Ret true w' /\
     output w' 1 = output w 1 ++ pending w fd /\ pending w' fd = []) /\
  (exists w', echo_main args w = Ret tt w' /\ output w' 1 = output w 1 ++ echo_line args).
Proof.
  intros Hf. split.
  { destruct (cat_loop fuel fd w Hf) as (w' & E & Ho & Hp). exists w'. split; [|done].
    unfold cat. by kstep_by ltac:(exact E). }
  clear Hf. revert w. induction args as [|a rest IH]; intros w.
  { exists w. by rewrite app_nil_r. }
  destruct (print_run 1 (ch "%s%s") [AStr (Some a); AStr (Some (match rest with [] => nl | _ => ch " " end))]
    (a ++ match rest with [] => nl | _ => ch " " end ++ []) w) as (w1 & E1 & Ho1 & _); [reflexivity|].
  destruct (IH w1) as (w' & E & Ho). exists w'. split.
  - cbn [echo_main]. by kstep_by ltac:(exact E1).
  - rewrite Ho, Ho1, <- app_assoc. f_equal. destruct rest as [|b rest].
    + cbn. by rewrite !app_nil_r.
    + change (ch " ") with [32]. cbn [echo_line]. by rewrite app_nil_r, <- app_assoc.
Qed.
End Streaming.

(** ** Streams that give seven bytes at a time *)

Record tape := mktape { tp_in : gmap Z (list Z); tp_out : gmap Z (list Z) }.

Definition tape_get (m : gmap Z (list Z)) (fd : Z) : list Z := default [] (m !! fd).

#[export] Instance tape_sys : Sys tape := {|
  call_open _ _ w := Ret (-1) w;
  call_read fd n w :=
    let k := Nat.min 7 (Z.to_nat n) in
    let l := tape_get (tp_in w) fd in
    Ret (Z.of_nat (length (take k l)), take k l) (mktape (<[fd := drop k l]> (tp_in w)) (tp_out w));
  call_write fd l w := Ret (Z.of_nat (length l)) (mktape (tp_in w) (<[fd := tape_get (tp_out w) fd ++ l]> (tp_out w)));
  call_close _ w := Ret 0 w;
  call_fstat _ w := Ret (-1, mkstat 0 0 0 0 0) w;
  call_unlink _ w := Ret (-1) w;
  call_mkdir _ w := Ret (-1) w;
  call_link _ _ w := Ret (-1) w;
  call_kill _ w := Ret (-1) w
|}.

#[export, refine] Instance tape_streams : Streams tape := {|
  pending w fd := tape_get (tp_in w) fd;
  output w fd := tape_get (tp_out w) fd
|}.
Proof.
  - intros fd n w Hn. eexists (Nat.min 7 (Z.to_nat n)), _. split; [reflexivity|].
    split; [lia|]. split; [|done]. unfold tape_get. cbn [tp_in]. by rewrite lookup_insert_eq.
  - intros fd l w. eexists _, _. split; [reflexivity|]. split; [|done].
    unfold tape_get. cbn [tp_out]. by rewrite lookup_insert_eq.
Defined.

Lemma cat_copies_witness :
  exists w', cat 20 0 (mktape {[0 := replicate 16 97]} ∅) = Ret true w' /\ output w' 1 = replicate 16 97.
Proof.
  destruct (cat_copies 20 0 [] (mktape {[0 := replicate 16 97]} ∅)) as [(w' & E & Ho & _) _].
  - change (16 < 20)%nat. lia.
  - exists w'. split; [exact E|]. exact Ho.
Defined.

(** [fmtname] is the last component of the path, padded with blanks to the
    length of a directory entry. *)
Lemma after_slash_spec path k :
  (k <= length path)%nat -> (after_slash path k <= k)%nat /\
  (forall i, (after_slash path k <= i < k)%nat -> path !! i <> Some ch_slash).
Proof.
  induction k as [|k IH]; cbn [after_slash]; intros Hk; [split; [lia|intros i Hi; lia]|].
  case_bool_decide as Hs; [split; [lia|intros i Hi; lia]|].
  destruct IH as [H1 H2]; [lia|]. split; [lia|]. intros i Hi.
  destruct (decide (i = k)) as [->|]; [done|]. apply H2. lia.
Qed.

Lemma fmtname_pads path :
  (DIRSIZ <= length (fmtname path))%nat /\ (ch_slash ∉ fmtname path).
Proof.
  unfold fmtname. destruct (after_slash_spec path (length path)) as [Hle Hns]; [done|].
  assert (ch_slash ∉ drop (after_slash path (length path)) path) as Hn.
  { intros [i Hi]%list_elem_of_lookup. rewrite lookup_drop in Hi.
    pose proof (lookup_lt_Some _ _ _ Hi). by apply (Hns (after_slash path (length path) + i)%nat); [lia|]. }
  destruct (Nat.leb_spec DIRSIZ (length (drop (after_slash path (length path)) path))) as [Hd|Hd].
  - done.
  - split; [rewrite length_app, length_replicate; lia|]. rewrite elem_of_app. intros [Hin|Hin]; [done|].
    apply elem_of_replicate in Hin as [Hin _]. discriminate.
Qed.
