(* ===== verification/KbdProps.v ===== *)
(** * Properties of the keyboard driver

    The state of [kbdgetc] follows the keys that are down and the lock keys
    that were pressed, its table accesses are in bounds and its results are
    bytes, for every sequence of scan codes; letters come out in the case that
    shift and caps lock ask for.  What one scan code does is checked on all
    flags and scan codes by computation. *)

From S2P Require Import Prelude State Kbd.

(** ** What the keys mean *)

(** The keys with a number in the tables: a key behind an escape has 128
    added. *)
Inductive key_event := Press (k : Z) | Release (k : Z).

(** The event a scan code stands for, [esc] when an escape precedes it. *)
Definition key_event_of (esc : bool) (d : Z) : option key_event :=
  if d =? 224 then None
  else if d <? 128 then Some (Press (if esc then d + 128 else d))
  else Some (Release (if esc then d else d - 128)).

Fixpoint key_events (esc : bool) (codes : list Z) : list key_event :=
  match codes with
  | [] => []
  | d :: codes' =>
      match key_event_of esc d with
      | None => key_events true codes'
      | Some e => e :: key_events false codes'
      end
  end.

(** The keys of each flag: left and right shift, control and alt; caps, num
    and scroll lock. *)
Definition keys_of (f : Z) : list Z :=
  if f =? SHIFT then [42; 54] else if f =? CTL then [29; 157] else if f =? ALT then [56; 184]
  else if f =? CAPSLOCK then [58] else if f =? NUMLOCK then [69] else if f =? SCROLLLOCK then [70]
  else [].

Definition is_key (f k : Z) : bool := existsb (Z.eqb k) (keys_of f).

(** A modifier is on from a press of one of its keys to the next release of
    one of them; a lock changes with each press of its key. *)
Definition held_after (f : Z) (on : bool) (e : key_event) : bool :=
  match e with
  | Press k => on || is_key f k
  | Release k => on && negb (is_key f k)
  end.

Definition locked_after (f : Z) (on : bool) (e : key_event) : bool :=
  match e with
  | Press k => xorb on (is_key f k)
  | Release _ => on
  end.

Definition modifiers : list Z := [SHIFT; CTL; ALT].
Definition locks : list Z := [CAPSLOCK; NUMLOCK; SCROLLLOCK].

(** ** One scan code *)

(** A property of all flags below 128 and all bytes. *)
Definition all_keys (f : Z -> Z -> bool) : bool :=
  forallb (fun s => forallb (fun d => f (Z.of_nat s) (Z.of_nat d)) (seq 0 256)) (seq 0 128).

Lemma all_keys_spec f shift data :
  all_keys f = true -> 0 <= shift < 128 -> 0 <= data < 256 -> f shift data = true.
Proof.
  unfold all_keys. rewrite forallb_forall. intros Hf Hs Hd.
  specialize (Hf (Z.to_nat shift)). rewrite forallb_forall in Hf.
  specialize (Hf ltac:(apply in_seq; lia) (Z.to_nat data) ltac:(apply in_seq; lia)).
  by rewrite !Z2Nat.id in Hf by lia.
Qed.

(** A flag follows the key event of the scan code. *)
Definition follows (after : bool -> key_event -> bool) (e : option key_event) (f shift shift' : Z) : bool :=
  Bool.eqb (has shift' f) (match e with Some e => after (has shift f) e | None => has shift f end).

(** A letter key, pressed without escape and without control, gives its letter
    in the case that shift and caps lock ask for. *)
Definition letter (shift data c : Z) : bool :=
  match normalmap !! Z.to_nat data with
  | Some l =>
      if has shift E0ESC || (128 <=? data) || negb ((97 <=? l) && (l <=? 122)) || has shift CTL then true
      else c =? (if Bool.eqb (has shift SHIFT) (has shift CAPSLOCK) then l else l - 32)
  | None => false
  end.

Definition key_ok (shift data : Z) : bool :=
  match kbdgetc shift (Some data) with
  | Some (shift', c) =>
      (0 <=? shift') && (shift' <? 128) && (0 <=? c) && (c <? 256) &&
      ((data <? 128) || (c =? 0)) && Bool.eqb (has shift' E0ESC) (data =? 224) &&
      (let e := key_event_of (has shift E0ESC) data in
       forallb (fun f => follows (held_after f) e f shift shift') modifiers &&
       forallb (fun f => follows (locked_after f) e f shift shift') locks) &&
      letter shift data c
  | None => false
  end.

Lemma keys_ok : all_keys key_ok = true.
Proof. vm_compute. reflexivity. Qed.

Lemma kbdgetc_key shift data :
  0 <= shift < 128 -> 0 <= data < 256 ->
  exists shift' c, kbdgetc shift (Some data) = Some (shift', c) /\
    0 <= shift' < 128 /\ 0 <= c < 256 /\ (128 <= data -> c = 0) /\
    has shift' E0ESC = (data =? 224) /\
    (let e := key_event_of (has shift E0ESC) data in
     (forall f, f ∈ modifiers ->
        has shift' f = match e with Some e => held_after f (has shift f) e | None => has shift f end) /\
     (forall f, f ∈ locks ->
        has shift' f = match e with Some e => locked_after f (has shift f) e | None => has shift f end)) /\
    letter shift data c = true.
Proof.
  intros Hs Hd. pose proof (all_keys_spec _ _ _ keys_ok Hs Hd) as H. unfold key_ok in H.
  destruct (kbdgetc shift (Some data)) as [[shift' c]|]; [|discriminate]. exists shift', c.
  rewrite !andb_true_iff, orb_true_iff, !forallb_forall, !Z.leb_le, !Z.ltb_lt, Z.eqb_eq in H.
  unfold follows in H. destruct H as [[[[[[[H1 H2] H3] H4] H5] H6] [H7 H8]] H9].
  cbv zeta. split_and!; [done..| | | | |exact H9]; [lia|by apply Bool.eqb_true_iff| |];
    intros f Hf; apply Bool.eqb_true_iff; [apply H7|apply H8]; by apply list_elem_of_In.
Qed.

(** The case of a letter. *)
Lemma kbdgetc_letter shift data l :
  0 <= shift < 128 -> 0 <= data < 128 -> normalmap !! Z.to_nat data = Some l -> 97 <= l <= 122 ->
  has shift E0ESC = false -> has shift CTL = false ->
  exists shift', kbdgetc shift (Some data) =
    Some (shift', if Bool.eqb (has shift SHIFT) (has shift CAPSLOCK) then l else l - 32).
Proof.
  intros Hs Hd Hl Hr He Hc.
  destruct (kbdgetc_key shift data Hs ltac:(lia)) as (shift' & c & E & _ & _ & _ & _ & _ & H).
  exists shift'. rewrite E. unfold letter in H. rewrite Hl, He, Hc in H.
  replace (128 <=? data) with false in H by lia.
  replace ((97 <=? l) && (l <=? 122)) with true in H by lia. cbn [orb negb] in H.
  apply Z.eqb_eq in H. by rewrite H.
Qed.

(** The escape flag after a sequence of codes. *)
Definition escaped (esc : bool) (codes : list Z) : bool :=
  match last codes with Some d => d =? 224 | None => esc end.

Lemma escaped_cons esc d codes : escaped esc (d :: codes) = escaped (d =? 224) codes.
Proof. unfold escaped. rewrite last_cons. by destruct (last codes). Qed.

Lemma key_events_cons esc d codes :
  key_events esc (d :: codes) =
  match key_event_of esc d with Some e => [e] | None => [] end ++ key_events (d =? 224) codes.
Proof.
  cbn [key_events]. unfold key_event_of. destruct (Z.eqb_spec d 224); [done|].
  by destruct (d <? 128).
Qed.

(** C32: For every sequence of scan codes [kbdgetc] reads its tables within
    their bounds and returns one byte for each code, 0 for every release and
    escape.  Its variable [shift] stays a set of the seven flags and says what
    the keys say: shift, control and alt are on from a press of one of their
    two keys to the next release of one of them, caps, num and scroll lock
    change with each press of their key and with nothing else, and the escape
    flag is set exactly when the last code was the escape.  A letter key then
    gives the letter in lower case when shift and caps lock are both on or
    both off, and in upper case otherwise. *)
Theorem kbd_typed codes shift :
  Forall (fun d => 0 <= d < 256) codes -> 0 <= shift < 128 ->
  exists shift' cs, kbd_run shift codes = Some (shift', cs) /\ 0 <= shift' < 128 /\
    Forall2 (fun d c => 0 <= c < 256 /\ (128 <= d -> c = 0)) codes cs /\
    has shift' E0ESC = escaped (has shift E0ESC) codes /\
    (forall f, f ∈ modifiers ->
       has shift' f = foldl (held_after f) (has shift f) (key_events (has shift E0ESC) codes)) /\
    (forall f, f ∈ locks ->
       has shift' f = foldl (locked_after f) (has shift f) (key_events (has shift E0ESC) codes)) /\
    forall data l, 0 <= data < 128 -> normalmap !! Z.to_nat data = Some l -> 97 <= l <= 122 ->
      has shift' E0ESC = false -> has shift' CTL = false ->
      exists shift'', kbdgetc shift' (Some data) =
        Some (shift'', if Bool.eqb (has shift' SHIFT) (has shift' CAPSLOCK) then l else l - 32).
Proof.
  revert shift. induction codes as [|d codes IH]; intros shift Hc Hs.
  - exists shift, []. split_and!; [done|lia|lia|constructor|done..|]. intros data l. by apply kbdgetc_letter.
  - apply Forall_cons in Hc as [Hd Hc].
    destruct (kbdgetc_key shift d Hs Hd) as (s1 & c & E & H1 & H2 & H3 & H4 & [H5 H6] & _).
    destruct (IH s1 Hc H1) as (s' & cs & E' & I1 & I2 & I3 & I4 & I5 & I6).
    exists s', (c :: cs). cbn [kbd_run]. rewrite E. cbn [mbind option_bind]. rewrite E'.
    rewrite escaped_cons, key_events_cons, <- H4.
    split_and!; [done|lia|lia|by constructor|done| | |done].
    + intros f Hf. rewrite foldl_app, (I4 f Hf), (H5 f Hf). by destruct (key_event_of _ d).
    + intros f Hf. rewrite foldl_app, (I5 f Hf), (H6 f Hf). by destruct (key_event_of _ d).
Qed.

Lemma kbd_typed_witness :
  exists shift' cs, kbd_run 0 [58; 30; 42; 30; 170; 224] = Some (shift', cs) /\
    cs = [0; 65; 0; 97; 0; 0] /\ has shift' SHIFT = false /\ has shift' CAPSLOCK = true.
Proof.
  destruct (kbd_typed [58; 30; 42; 30; 170; 224] 0) as (s & cs & E & _ & _ & _ & H1 & H2 & _);
    [repeat constructor; lia|lia|].
  exists s, cs. split; [exact E|]. split; [injection E as <- <-; reflexivity|].
  split; [rewrite (H1 SHIFT); [reflexivity|left]|rewrite (H2 CAPSLOCK); [reflexivity|left]].
Defined.
