(* ===== verification/Asm.v ===== *)
(** * The assembly of the kernel ([swtch.S], [trapasm.S], [vectors.S],
    [usys.S], [initcode.S], [exit.S])

    The routines are lists of instructions over a small part of the x86: the
    general and segment registers, the stack and 32-bit words of memory at
    aligned addresses.  Arithmetic flags are left out, nothing reads them.  A
    jump to a routine is its list behind the jumping one; the C function [trap]
    is called between the two halves of [trapasm.S].

    The theorems are about the frames these routines build and take apart, in
    the layout of [struct context] and [struct trapframe]: a context that was
    switched out comes back as it was, a trap saves the registers of the user
    in the frame [trap] works on and loads them from there afterwards, and what
    [allocproc] puts on a new kernel stack starts the process with its trap
    frame. *)

From S2P Require Import Prelude Monad State Kalloc Process Sysfile Syscall Segments.

(** ** The machine *)

Inductive reg := EAX | ECX | EDX | EBX | ESP | EBP | ESI | EDI.
Inductive sreg := CS | DS | ES | FS | GS | SS.
#[export] Instance reg_eq_dec : EqDecision reg.
Proof. solve_decision. Defined.
#[export] Instance sreg_eq_dec : EqDecision sreg.
Proof. solve_decision. Defined.

Record mach := mkmach {
  m_reg : reg -> Z;
  m_seg : sreg -> Z;
  m_eip : Z;
  m_eflags : Z;
  m_mem : gmap Z Z
}.

Definition set_reg (r : reg) (v : Z) (m : mach) : mach :=
  mkmach (fun r' => if decide (r' = r) then v else m_reg m r') (m_seg m) (m_eip m) (m_eflags m) (m_mem m).
Definition set_seg (s : sreg) (v : Z) (m : mach) : mach :=
  mkmach (m_reg m) (fun s' => if decide (s' = s) then v else m_seg m s') (m_eip m) (m_eflags m) (m_mem m).
Definition set_eip (v : Z) (m : mach) : mach := mkmach (m_reg m) (m_seg m) v (m_eflags m) (m_mem m).
Definition set_eflags (v : Z) (m : mach) : mach := mkmach (m_reg m) (m_seg m) (m_eip m) v (m_mem m).
Definition set_word (a v : Z) (m : mach) : mach :=
  mkmach (m_reg m) (m_seg m) (m_eip m) (m_eflags m) (<[a := v]> (m_mem m)).
Definition word (m : mach) (a : Z) : Z := default 0 (m_mem m !! a).

Definition push (v : Z) (m : mach) : mach :=
  let sp := u32 (m_reg m ESP - 4) in set_word sp v (set_reg ESP sp m).
Definition top (m : mach) : Z := word m (m_reg m ESP).
Definition drop_top (m : mach) : mach := set_reg ESP (u32 (m_reg m ESP + 4)) m.

(** [r] from the top of the stack. *)
Definition pop (r : reg) (m : mach) : mach := set_reg r (top m) (drop_top m).

Inductive instr :=
| Pushl (r : reg)
| Pushs (s : sreg)
| Pushi (n : Z)
| Popl (r : reg)
| Pops (s : sreg)
| Load (off : Z) (base dst : reg)   (** movl off(base), dst *)
| Store (src base : reg)            (** movl src, (base) *)
| Mov (src dst : reg)
| Movi (n : Z) (dst : reg)
| Movw (n : Z)                      (** movw $n, %ax *)
| Movs (s : sreg)                   (** movw %ax, s *)
| Pushal
| Popal
| Addi (n : Z) (dst : reg)
| Ret_
| Iret.

(** [iret] takes the stack of the user from the frame when it leaves for an
    outer ring. *)
Definition iret (m : mach) : mach :=
  let cpl := Z.land (m_seg m CS) 3 in
  let m := drop_top (set_eip (top m) m) in
  let cs := u16 (top m) in
  let m := drop_top (set_seg CS cs m) in
  let m := drop_top (set_eflags (top m) m) in
  if cpl <? Z.land cs 3 then
    let esp := top m in
    let m := drop_top m in
    set_reg ESP esp (set_seg SS (u16 (top m)) m)
  else m.

Definition istep (i : instr) (m : mach) : mach :=
  match i with
  | Pushl r => push (m_reg m r) m
  | Pushs s => push (m_seg m s) m
  | Pushi n => push n m
  | Popl r => pop r m
  | Pops s => drop_top (set_seg s (u16 (top m)) m)
  | Load off base dst => set_reg dst (word m (u32 (m_reg m base + off))) m
  | Store src base => set_word (m_reg m base) (m_reg m src) m
  | Mov src dst => set_reg dst (m_reg m src) m
  | Movi n dst => set_reg dst n m
  | Movw n => set_reg EAX (m_reg m EAX - u16 (m_reg m EAX) + u16 n) m
  | Movs s => set_seg s (u16 (m_reg m EAX)) m
  | Pushal =>
      let sp := m_reg m ESP in
      push (m_reg m EDI) (push (m_reg m ESI) (push (m_reg m EBP) (push sp
        (push (m_reg m EBX) (push (m_reg m EDX) (push (m_reg m ECX) (push (m_reg m EAX) m)))))))
  | Popal => pop EAX (pop ECX (pop EDX (pop EBX (drop_top (pop EBP (pop ESI (pop EDI m)))))))
  | Addi n dst => set_reg dst (u32 (m_reg m dst + n)) m
  | Ret_ => drop_top (set_eip (top m) m)
  | Iret => iret m
  end.

Definition run_code (code : list instr) (m : mach) : mach := foldl (fun m i => istep i m) m code.

(** ** The routines *)

Definition swtch : list instr :=
  [Load 4 ESP EAX; Load 8 ESP EDX;
   Pushl EBP; Pushl EBX; Pushl ESI; Pushl EDI;
   Store ESP EAX; Mov EDX ESP;
   Popl EDI; Popl ESI; Popl EBX; Popl EBP; Ret_].

(** The vectors whose exceptions come with an error code. *)
Definition has_err (n : Z) : bool := (n =? 8) || ((10 <=? n) && (n <=? 14)) || (n =? 17).

Definition vector (n : Z) : list instr :=
  if has_err n then [Pushi n] else [Pushi 0; Pushi n].

(** [alltraps] up to the call of [trap], with the return address of the call. *)
Definition alltraps (ret : Z) : list instr :=
  [Pushs DS; Pushs ES; Pushs FS; Pushs GS; Pushal;
   Movw (Z.shiftl SEG_KDATA 3); Movs DS; Movs ES;
   Movw (Z.shiftl SEG_KCPU 3); Movs FS; Movs GS;
   Pushl ESP; Pushi ret].
(** What follows the call. *)
Definition trapret : list instr := [Popal; Pops GS; Pops FS; Pops ES; Pops DS; Addi 8 ESP; Iret].
Definition alltraps_rest : list instr := Addi 4 ESP :: trapret.

(** The exceptions for which the processor pushes an error code: double fault,
    invalid TSS, segment not present, stack fault, general protection, page
    fault, alignment check. *)
Definition pushes_error (n : Z) : bool := bool_decide (n ∈ [8; 10; 11; 12; 13; 14; 17]).

(** What the processor pushes for vector [n] when user code is interrupted:
    the stack comes from the task state. *)
Definition hw_enter (n err esp0 ss0 cs eip : Z) (m : mach) : mach :=
  let m' := set_seg SS ss0 (set_reg ESP esp0 m) in
  let m' := push (m_eip m) (push (m_seg m CS) (push (m_eflags m)
              (push (m_reg m ESP) (push (m_seg m SS) m')))) in
  let m' := if pushes_error n then push err m' else m' in
  set_eip eip (set_seg CS cs m').

(** The system calls and their numbers in [syscall.h]. *)
Inductive sysname :=
| SYS_fork
| SYS_exit
| SYS_wait
| SYS_pipe
| SYS_read
| SYS_kill
| SYS_exec
| SYS_fstat
| SYS_chdir
| SYS_dup
| SYS_getpid
| SYS_sbrk
| SYS_sleep
| SYS_uptime
| SYS_open
| SYS_write
| SYS_mknod
| SYS_unlink
| SYS_link
| SYS_mkdir
| SYS_close
| SYS_pstat.

Definition sysno (s : sysname) : Z :=
  match s with
  | SYS_fork => 1
  | SYS_exit => 2
  | SYS_wait => 3
  | SYS_pipe => 4
  | SYS_read => 5
  | SYS_kill => 6
  | SYS_exec => 7
  | SYS_fstat => 8
  | SYS_chdir => 9
  | SYS_dup => 10
  | SYS_getpid => 11
  | SYS_sbrk => 12
  | SYS_sleep => 13
  | SYS_uptime => 14
  | SYS_open => 15
  | SYS_write => 16
  | SYS_mknod => 17
  | SYS_unlink => 18
  | SYS_link => 19
  | SYS_mkdir => 20
  | SYS_close => 21
  | SYS_pstat => 22
  end.

(** A stub of [usys.S] up to its [int]. *)
Definition usys (s : sysname) : list instr := [Movi (sysno s) EAX].

(** [initcode.S] up to its first [int], for the addresses of its data. *)
Definition initcode_start (init argv : Z) : list instr :=
  [Pushi argv; Pushi init; Pushi 0; Movi (sysno SYS_exec) EAX].

(** [EXIT_BEGIN] up to its [int]. *)
Definition EXIT_BEGIN : list instr := [Pushl EAX; Pushl EAX; Movi (sysno SYS_exit) EAX].

(** [initcode.S] after a failed [exec]: its loop around [exit]. *)
Definition initcode_exit : list instr := [Movi (sysno SYS_exit) EAX].

Lemma has_err_pushes n : has_err n = pushes_error n.
Proof.
  unfold has_err, pushes_error. symmetry. destruct (_ || _) eqn:E.
  - apply bool_decide_true. rewrite !elem_of_cons, elem_of_nil. lia.
  - apply bool_decide_false. rewrite !elem_of_cons, elem_of_nil. lia.
Qed.

(** ** Frames in memory *)

(** [struct context] at [a]. *)
Definition context_at (m : mach) (a : Z) (c : context) : Prop :=
  word m a = cx_edi c /\ word m (a + 4) = cx_esi c /\ word m (a + 8) = cx_ebx c /\
  word m (a + 12) = cx_ebp c /\ word m (a + 16) = cx_eip c.

(** [struct trapframe] at [a]; the segment registers are halves of words. *)
Definition frame_at (m : mach) (a : Z) (t : trapframe) : Prop :=
  word m a = tf_edi t /\ word m (a + 4) = tf_esi t /\ word m (a + 8) = tf_ebp t /\
  word m (a + 16) = tf_ebx t /\ word m (a + 20) = tf_edx t /\ word m (a + 24) = tf_ecx t /\
  word m (a + 28) = tf_eax t /\
  u16 (word m (a + 32)) = tf_gs t /\ u16 (word m (a + 36)) = tf_fs t /\
  u16 (word m (a + 40)) = tf_es t /\ u16 (word m (a + 44)) = tf_ds t /\
  word m (a + 48) = tf_trapno t /\ word m (a + 52) = tf_err t /\ word m (a + 56) = tf_eip t /\
  u16 (word m (a + 60)) = tf_cs t /\ word m (a + 64) = tf_eflags t /\
  word m (a + 68) = tf_esp t /\ u16 (word m (a + 72)) = tf_ss t.

(** The registers of a user in a trap frame. *)
Definition user_regs (m : mach) (t : trapframe) : Prop :=
  m_reg m EDI = tf_edi t /\ m_reg m ESI = tf_esi t /\ m_reg m EBP = tf_ebp t /\ m_reg m EBX = tf_ebx t /\
  m_reg m EDX = tf_edx t /\ m_reg m ECX = tf_ecx t /\ m_reg m EAX = tf_eax t /\
  m_reg m ESP = tf_esp t /\ m_eip m = tf_eip t /\ m_eflags m = tf_eflags t /\
  m_seg m GS = tf_gs t /\ m_seg m FS = tf_fs t /\ m_seg m ES = tf_es t /\ m_seg m DS = tf_ds t /\
  m_seg m CS = tf_cs t /\ m_seg m SS = tf_ss t.

(** ** Stepping *)

(** [mem_simpl] looks a word up behind stores to other places. *)
Lemma word_set_eq a v m : word (set_word a v m) a = v.
Proof. unfold word, set_word. cbn. by rewrite lookup_insert_eq. Qed.
Lemma word_set_ne a b v m : b <> a -> word (set_word a v m) b = word m b.
Proof. intros H. unfold word, set_word. cbn. by rewrite lookup_insert_ne. Qed.

(** A push below a stack pointer that leaves room. *)
Lemma push_at v m s : m_reg m ESP = s -> 4 <= s < 4294967296 ->
  push v m = set_word (s - 4) v (set_reg ESP (s - 4) m).
Proof. intros Hs Hr. unfold push. by rewrite Hs, u32_id by lia. Qed.

(** [saved m sp vs]: the words of [vs] from [sp] up. *)
Fixpoint words_at (m : mach) (a : Z) (vs : list Z) : Prop :=
  match vs with
  | [] => True
  | v :: vs' => word m a = v /\ words_at m (a + 4) vs'
  end.

(** Words pushed in turn on a stack from [sp] down: where the stack pointer is,
    what the words are, and that no other word has changed. *)
Record stacked (vs : list Z) (sp : Z) (m m' : mach) : Prop := {
  st_esp : m_reg m' ESP = sp - 4 * Z.of_nat (length vs);
  st_words : words_at m' (m_reg m' ESP) vs;
  st_mem : forall a, ~ (m_reg m' ESP <= a < sp) -> word m' a = word m a
}.

Lemma words_at_ext m m' a vs :
  words_at m a vs -> (forall b, a <= b < a + 4 * Z.of_nat (length vs) -> word m' b = word m b) ->
  words_at m' a vs.
Proof.
  revert a. induction vs as [|v vs IH]; intros a Hw Hb; [done|]. destruct Hw as [<- Hw]. cbn in Hb. split.
  - apply Hb. lia.
  - apply IH; [done|]. intros b Hb'. apply Hb. lia.
Qed.

Lemma words_at_lookup m a vs :
  words_at m a vs -> forall (i : nat) v, vs !! i = Some v -> word m (a + 4 * Z.of_nat i) = v.
Proof.
  revert a. induction vs as [|w vs IH]; intros a Hw i v Hi; [done|]. destruct Hw as [Hw Hws].
  destruct i as [|i].
  - injection Hi as <-. rewrite Z.add_0_r. exact Hw.
  - rewrite <- (IH (a + 4) Hws i v Hi). f_equal. lia.
Qed.

Lemma stacked_nil m sp : m_reg m ESP = sp -> stacked [] sp m m.
Proof. intros H. split; [cbn; lia|done|done]. Qed.

Lemma stacked_push v vs sp m m' :
  stacked vs sp m m' -> 4 + 4 * Z.of_nat (length vs) <= sp < 4294967296 ->
  stacked (v :: vs) sp m (push v m').
Proof.
  intros [He Hw Hm] Hb. rewrite (push_at v m' (m_reg m' ESP)) by (done || lia).
  set (s := m_reg m' ESP) in *.
  assert (m_reg (set_word (s - 4) v (set_reg ESP (s - 4) m')) ESP = s - 4) as Hs by reflexivity.
  cbn [length]. split; rewrite Hs.
  - cbn [length]. lia.
  - split; [apply word_set_eq|]. replace (s - 4 + 4) with s by lia.
    apply (words_at_ext m'); [done|]. intros b Hb'. by rewrite word_set_ne by lia.
  - intros a Ha. rewrite word_set_ne by lia. apply Hm. lia.
Qed.

(** Instructions that leave the stack alone. *)
Lemma stacked_same vs sp m m' m'' :
  stacked vs sp m m' -> m_mem m'' = m_mem m' -> m_reg m'' ESP = m_reg m' ESP -> stacked vs sp m m''.
Proof.
  intros [He Hw Hm] Hmem Hesp. split; rewrite Hesp; [done| |].
  - apply (words_at_ext m'); [done|]. intros b _. unfold word. by rewrite Hmem.
  - intros a Ha. rewrite <- (Hm a Ha). unfold word. by rewrite Hmem.
Qed.

Lemma stacked_far vs sp m m' eip s v :
  stacked vs sp m m' -> stacked vs sp m (set_eip eip (set_seg s v m')).
Proof. intros H. by apply (stacked_same _ _ _ m'). Qed.

(** [stack_up] proves [stacked] of a sequence of pushes. *)
Ltac stack_up := repeat (apply stacked_push; [|cbn [length]; lia]).

(** ** [swtch] *)

(** The registers a context switch has to keep. *)
Definition saved_context (m : mach) : context :=
  mkctx (m_reg m EDI) (m_reg m ESI) (m_reg m EBX) (m_reg m EBP) (word m (m_reg m ESP)).

(** The registers after a switch to the context [c] at [a]. *)
Definition resumed (m : mach) (a : Z) (c : context) : Prop :=
  m_reg m EDI = cx_edi c /\ m_reg m ESI = cx_esi c /\ m_reg m EBX = cx_ebx c /\
  m_reg m EBP = cx_ebp c /\ m_eip m = cx_eip c /\ m_reg m ESP = a + 20.

(** A call [swtch(old, new)] with room on the stack. *)
Record swtch_call (m : mach) (old new : Z) : Prop := {
  sc_aligned : (4 | m_reg m ESP) /\ (4 | old) /\ (4 | new);
  sc_stack : 16 <= m_reg m ESP < 4294967280;
  sc_old : word m (m_reg m ESP + 4) = old;
  sc_new : word m (m_reg m ESP + 8) = new;
  sc_out : ~ (m_reg m ESP - 16 <= old < m_reg m ESP + 4);
  sc_range : 0 <= new < 4294967276
}.

Lemma pop_at r m s s' : m_reg m ESP = s -> 0 <= s -> s + 4 = s' -> s' < 4294967296 ->
  pop r m = set_reg r (word m s) (set_reg ESP s' m).
Proof. intros Hs H0 <- Hr. unfold pop, drop_top, top. by rewrite Hs, u32_id by lia. Qed.

(** The second half of [swtch]. *)
Lemma pop_context m new c :
  m_reg m ESP = new -> 0 <= new < 4294967276 -> context_at m new c ->
  resumed (istep Ret_ (istep (Popl EBP) (istep (Popl EBX) (istep (Popl ESI) (istep (Popl EDI) m))))) new c.
Proof.
  intros He Hr (C1 & C2 & C3 & C4 & C5).
  change (resumed (istep Ret_ (pop EBP (pop EBX (pop ESI (pop EDI m))))) new c).
  rewrite (pop_at EDI m new (new + 4) He) by lia. set (m1 := set_reg EDI _ _).
  rewrite (pop_at ESI m1 (new + 4) (new + 8) eq_refl) by lia. set (m2 := set_reg ESI _ _).
  rewrite (pop_at EBX m2 (new + 8) (new + 12) eq_refl) by lia. set (m3 := set_reg EBX _ _).
  rewrite (pop_at EBP m3 (new + 12) (new + 16) eq_refl) by lia. set (m4 := set_reg EBP _ _).
  split; [exact C1|]. split; [exact C2|]. split; [exact C3|]. split; [exact C4|]. split; [exact C5|].
  change (u32 (new + 16 + 4) = new + 20). rewrite u32_id by lia. lia.
Qed.

Lemma swtch_run m old new :
  swtch_call m old new ->
  let m' := run_code swtch m in
  let a := m_reg m ESP - 16 in
  context_at m' a (saved_context m) /\ word m' old = a /\
  (forall b, b <> old -> ~ (a <= b < m_reg m ESP) -> word m' b = word m b) /\
  (forall c, context_at m' new c -> resumed m' new c) /\ (forall s, m_seg m' s = m_seg m s).
Proof.
  intros [_ Hs Ho Hn Hd Hr]. cbv zeta. unfold run_code, swtch. cbn [foldl].
  set (m1 := istep (Load 8 ESP EDX) (istep (Load 4 ESP EAX) m)).
  set (m2 := istep (Pushl EDI) (istep (Pushl ESI) (istep (Pushl EBX) (istep (Pushl EBP) m1)))).
  assert (m_reg m1 EAX = old /\ m_reg m1 EDX = new) as [Ha Hdx].
  { change (word m (u32 (m_reg m ESP + 4)) = old /\ word m (u32 (m_reg m ESP + 8)) = new).
    by rewrite !u32_id by lia. }
  assert (stacked [m_reg m EDI; m_reg m ESI; m_reg m EBX; m_reg m EBP] (m_reg m ESP) m1 m2) as [He Hw Hm].
  { change m2 with (push (m_reg m EDI) (push (m_reg m ESI) (push (m_reg m EBX) (push (m_reg m EBP) m1)))).
    stack_up. by apply stacked_nil. }
  cbn [length] in He.
  replace (m_reg m ESP - 4 * Z.of_nat 4) with (m_reg m ESP - 16) in He by lia.
  set (m3 := istep (Mov EDX ESP) (istep (Store ESP EAX) m2)).
  assert (forall b, word m3 b = word (set_word old (m_reg m ESP - 16) m2) b) as Hm3.
  { intros b. unfold m3. change (word (set_word (m_reg m2 EAX) (m_reg m2 ESP) m2) b
      = word (set_word old (m_reg m ESP - 16) m2) b). change (m_reg m2 EAX) with (m_reg m1 EAX).
    by rewrite Ha, He. }
  assert (m_reg m3 ESP = new) as He3 by exact Hdx.
  set (m' := istep Ret_ _).
  assert (forall b, word m' b = word m3 b) as Hm' by reflexivity.
  split; [|split; [|split; [|split]]].
  - destruct Hw as (W1 & W2 & W3 & W4 & _). rewrite He in W1, W2, W3, W4.
    unfold context_at. rewrite !Hm', !Hm3, !word_set_ne by lia.
    set (a := m_reg m ESP - 16) in *. split; [exact W1|]. split; [exact W2|].
    split; [replace (a + 8) with (a + 4 + 4) by lia; exact W3|].
    split; [replace (a + 12) with (a + 4 + 4 + 4) by lia; exact W4|].
    rewrite Hm by lia. cbn [saved_context cx_eip]. change (word m1) with (word m).
    f_equal. lia.
  - by rewrite Hm', Hm3, word_set_eq.
  - intros b Hb1 Hb2. rewrite Hm', Hm3, word_set_ne by done. rewrite Hm by lia. done.
  - intros c (C1 & C2 & C3 & C4 & C5). rewrite !Hm' in C1, C2, C3, C4, C5.
    apply (pop_context m3 new c He3 Hr). by repeat split.
  - done.
Qed.

Lemma context_ext m m' a c :
  context_at m a c -> (forall b, a <= b < a + 20 -> word m' b = word m b) -> context_at m' a c.
Proof. intros (C1 & C2 & C3 & C4 & C5) Hb. unfold context_at. rewrite !Hb by lia. done. Qed.

(** C21: A process that has called [swtch] continues, when somebody switches to the
    context it left at [old], behind its call with the registers the calling
    convention wants kept: whatever ran meanwhile, as long as it did not write
    to the five words of the context. *)
Theorem swtch_returns m old new m2 old2 :
  swtch_call m old new ->
  let m1 := run_code swtch m in
  let a := word m1 old in
  swtch_call m2 old2 a ->
  (forall b, a <= b < a + 20 -> word m2 b = word m1 b) ->
  (m_reg m2 ESP <= a \/ a + 20 <= m_reg m2 ESP - 16) -> ~ (a <= old2 < a + 20) ->
  let m3 := run_code swtch m2 in
  (forall r, r ∈ [EBX; ESI; EDI; EBP] -> m_reg m3 r = m_reg m r) /\
  m_eip m3 = word m (m_reg m ESP) /\ m_reg m3 ESP = m_reg m ESP + 4.
Proof.
  intros Hc m1 a Hc2 Hk Hsp Ho2 m3.
  destruct (swtch_run m old new Hc) as (H1 & Ha & _). fold m1 in H1, Ha. fold a in Ha.
  destruct (swtch_run m2 old2 a Hc2) as (_ & _ & Hf & Hres & _). fold m3 in Hf, Hres.
  rewrite <- Ha in H1. destruct (Hres (saved_context m)) as (R1 & R2 & R3 & R4 & R5 & R6).
  - apply (context_ext m2).
    + apply (context_ext m1); [done|]. exact Hk.
    + intros b Hb. apply Hf; lia.
  - split; [|split; [exact R5|lia]]. intros r Hr. rewrite !elem_of_cons, elem_of_nil in Hr.
    destruct Hr as [-> |[-> |[-> |[-> |[]]]]]; done.
Qed.

(** ** Traps *)

(** The frame of the user's registers, for vector [n]. *)
Definition user_frame (n err : Z) (m : mach) : trapframe :=
  mktf (m_reg m EDI) (m_reg m ESI) (m_reg m EBP) 0 (m_reg m EBX) (m_reg m EDX) (m_reg m ECX) (m_reg m EAX)
    (m_seg m GS) (m_seg m FS) (m_seg m ES) (m_seg m DS) n (if pushes_error n then err else 0)
    (m_eip m) (m_seg m CS) (m_eflags m) (m_reg m ESP) (m_seg m SS).

(** The words of a frame, lowest first. *)
Lemma words_frame m a oesp t gs fs es ds cs ss :
  words_at m a [tf_edi t; tf_esi t; tf_ebp t; oesp; tf_ebx t; tf_edx t; tf_ecx t; tf_eax t;
                gs; fs; es; ds; tf_trapno t; tf_err t; tf_eip t; cs; tf_eflags t; tf_esp t; ss] ->
  u16 gs = tf_gs t -> u16 fs = tf_fs t -> u16 es = tf_es t -> u16 ds = tf_ds t ->
  u16 cs = tf_cs t -> u16 ss = tf_ss t -> frame_at m a t.
Proof.
  intros Hw Hgs Hfs Hes Hds Hcs Hss. pose proof (words_at_lookup _ _ _ Hw) as H. unfold frame_at.
  rewrite <- Hgs, <- Hfs, <- Hes, <- Hds, <- Hcs, <- Hss.
  split; [rewrite <- (Z.add_0_r a); exact (H 0%nat _ eq_refl)|].
  split; [exact (H 1%nat _ eq_refl)|]. split; [exact (H 2%nat _ eq_refl)|].
  split; [exact (H 4%nat _ eq_refl)|]. split; [exact (H 5%nat _ eq_refl)|].
  split; [exact (H 6%nat _ eq_refl)|]. split; [exact (H 7%nat _ eq_refl)|].
  split; [f_equal; exact (H 8%nat _ eq_refl)|]. split; [f_equal; exact (H 9%nat _ eq_refl)|].
  split; [f_equal; exact (H 10%nat _ eq_refl)|]. split; [f_equal; exact (H 11%nat _ eq_refl)|].
  split; [exact (H 12%nat _ eq_refl)|]. split; [exact (H 13%nat _ eq_refl)|].
  split; [exact (H 14%nat _ eq_refl)|]. split; [f_equal; exact (H 15%nat _ eq_refl)|].
  split; [exact (H 16%nat _ eq_refl)|]. split; [exact (H 17%nat _ eq_refl)|].
  f_equal; exact (H 18%nat _ eq_refl).
Qed.

Lemma run_code_app c1 c2 m : run_code (c1 ++ c2) m = run_code c2 (run_code c1 m).
Proof. apply foldl_app. Qed.
Lemma run_code_cons i c m : run_code (i :: c) m = run_code c (istep i m).
Proof. reflexivity. Qed.

(** What a block of pushes leaves alone. *)
Definition same_regs (m m' : mach) : Prop :=
  (forall r, r <> ESP -> m_reg m' r = m_reg m r) /\
  (forall s, s <> CS -> s <> SS -> m_seg m' s = m_seg m s).

Lemma vector_stack n err esp0 ss0 cs eip m :
  28 <= esp0 < 4294967296 ->
  let mv := run_code (vector n) (hw_enter n err esp0 ss0 cs eip m) in
  stacked [n; (if pushes_error n then err else 0); m_eip m; m_seg m CS; m_eflags m; m_reg m ESP; m_seg m SS]
    esp0 (set_seg SS ss0 (set_reg ESP esp0 m)) mv /\ same_regs m mv /\ m_seg mv CS = cs.
Proof.
  intros Hs. cbv zeta. split.
  { unfold hw_enter, vector. rewrite has_err_pushes. destruct (pushes_error n); cbn [run_code foldl istep]; stack_up;
      apply stacked_far; stack_up; by apply stacked_nil. }
  unfold hw_enter, vector. rewrite has_err_pushes. destruct (pushes_error n); (split; [|reflexivity]); split;
    try (intros [] H; done); intros [] H1 H2; done.
Qed.

Lemma segs_stack vs sp m0 mv :
  stacked vs sp m0 mv -> 16 + 4 * Z.of_nat (length vs) <= sp < 4294967296 ->
  let md := run_code [Pushs DS; Pushs ES; Pushs FS; Pushs GS] mv in
  stacked (m_seg mv GS :: m_seg mv FS :: m_seg mv ES :: m_seg mv DS :: vs) sp m0 md /\ same_regs mv md /\
  m_seg md CS = m_seg mv CS.
Proof.
  intros Hv Hs. cbv zeta. split; [|split; [split|]]; try done.
  - change (stacked (m_seg mv GS :: m_seg mv FS :: m_seg mv ES :: m_seg mv DS :: vs) sp m0
      (push (m_seg mv GS) (push (m_seg mv FS) (push (m_seg mv ES) (push (m_seg mv DS) mv))))).
    stack_up. exact Hv.
  - intros [] H; done.
Qed.

Lemma pushal_stack vs sp m0 md :
  stacked vs sp m0 md -> 32 + 4 * Z.of_nat (length vs) <= sp < 4294967296 ->
  stacked (m_reg md EDI :: m_reg md ESI :: m_reg md EBP :: m_reg md ESP :: m_reg md EBX :: m_reg md EDX ::
           m_reg md ECX :: m_reg md EAX :: vs) sp m0 (istep Pushal md) /\
  m_seg (istep Pushal md) CS = m_seg md CS.
Proof. intros Hv Hs. split; [|done]. cbn [istep]. stack_up. exact Hv. Qed.

(** Loading the kernel's segments changes [eax] and four segment registers. *)
Lemma load_segs_run m :
  let m' := run_code [Movw (Z.shiftl SEG_KDATA 3); Movs DS; Movs ES;
                      Movw (Z.shiftl SEG_KCPU 3); Movs FS; Movs GS] m in
  m_mem m' = m_mem m /\ m_reg m' ESP = m_reg m ESP /\ m_seg m' CS = m_seg m CS /\
  m_seg m' DS = 16 /\ m_seg m' ES = 16 /\ m_seg m' FS = 24 /\ m_seg m' GS = 24.
Proof.
  assert (forall x n, 0 <= n < 65536 -> u16 (x - u16 x + u16 n) = n) as Hax.
  { intros x n Hn. unfold u16. pose proof (Z.div_mod x (2 ^ 16) ltac:(lia)) as H.
    replace (x - x mod 2 ^ 16) with ((x / 2 ^ 16) * 2 ^ 16) by lia.
    rewrite Z.add_comm, Z_mod_plus_full, Z.mod_mod by lia. apply Z.mod_small. lia. }
  cbv zeta. split; [done|]. split; [done|]. split; [done|].
  split; [by apply (Hax (m_reg m EAX) 16)|]. split; [by apply (Hax (m_reg m EAX) 16)|].
  split; by apply (Hax (m_reg m EAX - u16 (m_reg m EAX) + u16 16) 24).
Qed.

Definition push_segs : list instr := [Pushs DS; Pushs ES; Pushs FS; Pushs GS].
Definition load_segs : list instr :=
  [Movw (Z.shiftl SEG_KDATA 3); Movs DS; Movs ES; Movw (Z.shiftl SEG_KCPU 3); Movs FS; Movs GS].

Lemma alltraps_parts ret m :
  run_code (alltraps ret) m =
    let mq := run_code load_segs (istep Pushal (run_code push_segs m)) in
    push ret (push (m_reg mq ESP) mq).
Proof.
  assert (alltraps ret = push_segs ++ [Pushal] ++ load_segs ++ [Pushl ESP; Pushi ret]) as -> by reflexivity.
  rewrite !run_code_app. cbn [run_code foldl]. set (mq := run_code load_segs _). reflexivity.
Qed.

(** [alltraps] on a stack that holds what the processor and the vector pushed. *)
Lemma alltraps_from vs sp m0 mv ret :
  stacked vs sp m0 mv -> 56 + 4 * Z.of_nat (length vs) <= sp < 4294967296 ->
  let m1 := run_code (alltraps ret) mv in
  (exists oesp,
   stacked (ret :: (sp - 48 - 4 * Z.of_nat (length vs)) ::
            m_reg mv EDI :: m_reg mv ESI :: m_reg mv EBP :: oesp :: m_reg mv EBX :: m_reg mv EDX ::
            m_reg mv ECX :: m_reg mv EAX :: m_seg mv GS :: m_seg mv FS :: m_seg mv ES :: m_seg mv DS :: vs)
     sp m0 m1) /\
  m_seg m1 CS = m_seg mv CS /\ m_seg m1 DS = 16 /\ m_seg m1 ES = 16 /\ m_seg m1 FS = 24 /\ m_seg m1 GS = 24.
Proof.
  intros Hv Hs. cbv zeta. rewrite alltraps_parts.
  destruct (segs_stack _ _ _ _ Hv) as (Hd & [Hrd _] & Hcsd); [lia|]. fold push_segs in Hd, Hrd, Hcsd.
  generalize dependent (run_code push_segs mv). intros md Hd Hrd Hcsd.
  destruct (pushal_stack _ _ _ _ Hd) as (Hp & Hcsp); [cbn [length]; lia|].
  generalize dependent (istep Pushal md). intros mp Hp Hcsp.
  destruct (load_segs_run mp) as (Hmem & Hesp & Hcsq & Hds). fold load_segs in Hmem, Hesp, Hcsq, Hds.
  generalize dependent (run_code load_segs mp). intros mq Hmem Hesp Hcsq Hds. cbv zeta.
  pose proof (stacked_same _ _ _ _ _ Hp Hmem Hesp) as Hq.
  pose proof (st_esp _ _ _ _ Hq) as He. cbn [length] in He.
  split; [|split; [exact (eq_trans Hcsq (eq_trans Hcsp Hcsd))|exact Hds]].
  exists (m_reg md ESP). replace (m_reg mq ESP) with (sp - 48 - 4 * Z.of_nat (length vs)) by lia.
  rewrite (Hrd EDI), (Hrd ESI), (Hrd EBP), (Hrd EBX), (Hrd EDX), (Hrd ECX), (Hrd EAX) in Hq by discriminate.
  stack_up. exact Hq.
Qed.

(** The stack as [trap] finds it. *)
Lemma alltraps_stack n err esp0 ss0 cs eip ret m :
  84 <= esp0 < 4294967296 ->
  let m1 := run_code (vector n ++ alltraps ret) (hw_enter n err esp0 ss0 cs eip m) in
  (exists oesp,
   stacked [ret; esp0 - 76; m_reg m EDI; m_reg m ESI; m_reg m EBP; oesp; m_reg m EBX; m_reg m EDX;
            m_reg m ECX; m_reg m EAX; m_seg m GS; m_seg m FS; m_seg m ES; m_seg m DS; n;
            (if pushes_error n then err else 0); m_eip m; m_seg m CS; m_eflags m; m_reg m ESP; m_seg m SS]
     esp0 (set_seg SS ss0 (set_reg ESP esp0 m)) m1) /\
  m_seg m1 CS = cs /\ m_seg m1 DS = 16 /\ m_seg m1 ES = 16 /\ m_seg m1 FS = 24 /\ m_seg m1 GS = 24.
Proof.
  intros Hs. cbv zeta. rewrite run_code_app.
  destruct (vector_stack n err esp0 ss0 cs eip m) as (Hv & [Hr Hsg] & Hcs); [lia|].
  generalize dependent (run_code (vector n) (hw_enter n err esp0 ss0 cs eip m)). intros mv Hv Hr Hsg Hcs.
  destruct (alltraps_from _ _ _ _ ret Hv) as ((oesp & Hst) & Hcs1 & Hds); [cbn [length]; lia|].
  split; [|split; [exact (eq_trans Hcs1 Hcs)|exact Hds]]. exists oesp. cbn [length] in Hst.
  replace (esp0 - 48 - 4 * Z.of_nat 7) with (esp0 - 76) in Hst by lia.
  by rewrite !Hr, !Hsg in Hst by discriminate.
Qed.

(** The way back: the registers of the frame at the stack pointer. *)
Lemma popal_run m a t :
  m_reg m ESP = a -> 0 <= a < 4294967216 -> frame_at m a t ->
  let m' := istep Popal m in
  m_mem m' = m_mem m /\ m_reg m' ESP = a + 32 /\ m_seg m' = m_seg m /\
  m_reg m' EDI = tf_edi t /\ m_reg m' ESI = tf_esi t /\ m_reg m' EBP = tf_ebp t /\ m_reg m' EBX = tf_ebx t /\
  m_reg m' EDX = tf_edx t /\ m_reg m' ECX = tf_ecx t /\ m_reg m' EAX = tf_eax t.
Proof.
  intros He Ha (F1 & F2 & F3 & F4 & F5 & F6 & F7 & _). cbv zeta.
  change (istep Popal m) with (pop EAX (pop ECX (pop EDX (pop EBX (drop_top (pop EBP (pop ESI (pop EDI m)))))))).
  rewrite (pop_at EDI m a (a + 4) He) by lia. set (m1 := set_reg EDI _ _).
  rewrite (pop_at ESI m1 (a + 4) (a + 8) eq_refl) by lia. set (m2 := set_reg ESI _ _).
  rewrite (pop_at EBP m2 (a + 8) (a + 12) eq_refl) by lia. set (m3 := set_reg EBP _ _).
  change (drop_top m3) with (set_reg ESP (u32 (a + 12 + 4)) m3).
  replace (u32 (a + 12 + 4)) with (a + 16) by (rewrite u32_id; lia). set (m4 := set_reg ESP _ m3).
  rewrite (pop_at EBX m4 (a + 16) (a + 20) eq_refl) by lia. set (m5 := set_reg EBX _ _).
  rewrite (pop_at EDX m5 (a + 20) (a + 24) eq_refl) by lia. set (m6 := set_reg EDX _ _).
  rewrite (pop_at ECX m6 (a + 24) (a + 28) eq_refl) by lia. set (m7 := set_reg ECX _ _).
  rewrite (pop_at EAX m7 (a + 28) (a + 32) eq_refl) by lia.
  split; [done|]. split; [done|]. split; [done|].
  split; [exact F1|]. split; [exact F2|]. split; [exact F3|]. split; [exact F4|].
  split; [exact F5|]. split; [exact F6|exact F7].
Qed.

Lemma pops_at s m a a' : m_reg m ESP = a -> 0 <= a -> a + 4 = a' -> a' < 4294967296 ->
  istep (Pops s) m = set_reg ESP a' (set_seg s (u16 (word m a)) m).
Proof.
  intros Ha H0 <- Hr. cbn [istep]. unfold drop_top, top.
  change (m_reg (set_seg s (u16 (word m (m_reg m ESP))) m) ESP) with (m_reg m ESP).
  by rewrite Ha, u32_id by lia.
Qed.

(** [iret] from the kernel to a user, on the last five words of a frame. *)
Lemma iret_user m a :
  m_reg m ESP = a -> 0 <= a < 4294967276 -> Z.land (m_seg m CS) 3 = 0 ->
  Z.land (u16 (word m (a + 4))) 3 = 3 ->
  let m' := iret m in
  m_eip m' = word m a /\ m_seg m' CS = u16 (word m (a + 4)) /\ m_eflags m' = word m (a + 8) /\
  m_reg m' ESP = word m (a + 12) /\ m_seg m' SS = u16 (word m (a + 16)) /\
  (forall r, r <> ESP -> m_reg m' r = m_reg m r) /\
  (forall s, s <> CS -> s <> SS -> m_seg m' s = m_seg m s).
Proof.
  intros He Ha Hk Hu. cbv zeta. unfold iret. rewrite Hk.
  assert (top m = word m a) as T0 by (unfold top; by rewrite He). rewrite T0.
  set (m1 := drop_top (set_eip _ m)).
  assert (m_reg m1 ESP = a + 4) as E1
    by (change (u32 (m_reg m ESP + 4) = a + 4); rewrite He, u32_id; lia).
  assert (top m1 = word m (a + 4)) as T1 by (unfold top; by rewrite E1). rewrite T1.
  set (m2 := drop_top (set_seg CS _ m1)).
  assert (m_reg m2 ESP = a + 8) as E2
    by (change (u32 (m_reg m1 ESP + 4) = a + 8); rewrite E1, u32_id; lia).
  assert (top m2 = word m (a + 8)) as T2 by (unfold top; by rewrite E2). rewrite T2.
  set (m3 := drop_top (set_eflags _ m2)).
  assert (m_reg m3 ESP = a + 12) as E3
    by (change (u32 (m_reg m2 ESP + 4) = a + 12); rewrite E2, u32_id; lia).
  rewrite Hu. change (0 <? 3) with true. cbv iota.
  assert (top m3 = word m (a + 12)) as T3 by (unfold top; by rewrite E3). rewrite T3.
  set (m4 := drop_top m3).
  assert (m_reg m4 ESP = a + 16) as E4
    by (change (u32 (m_reg m3 ESP + 4) = a + 16); rewrite E3, u32_id; lia).
  assert (top m4 = word m (a + 16)) as T4 by (unfold top; by rewrite E4). rewrite T4.
  split; [done|]. split; [done|]. split; [done|]. split; [done|]. split; [done|].
  split; [intros [] H; done|intros [] H1 H2; done].
Qed.

(** [trapret] loads the registers of the user from the frame on the stack. *)
Lemma trapret_run m a t :
  m_reg m ESP = a -> 0 <= a < 4294967216 -> frame_at m a t ->
  Z.land (m_seg m CS) 3 = 0 -> Z.land (tf_cs t) 3 = 3 -> user_regs (run_code trapret m) t.
Proof.
  intros He Ha Hf Hk Hu. pose proof Hf as (_ & _ & _ & _ & _ & _ & _ & G & F & E & D & _ & _ & I & C & L & S' & SS').
  change (run_code trapret m) with
    (istep Iret (istep (Addi 8 ESP) (istep (Pops DS) (istep (Pops ES) (istep (Pops FS) (istep (Pops GS) (istep Popal m))))))).
  destruct (popal_run m a t He Ha Hf) as (Hm & He1 & Hsg & Hr1 & Hr2 & Hr3 & Hr4 & Hr5 & Hr6 & Hr7).
  generalize dependent (istep Popal m). intros m1 Hm He1 Hsg Hr1 Hr2 Hr3 Hr4 Hr5 Hr6 Hr7.
  assert (forall b, word m1 b = word m b) as Hw by (intros b; unfold word; by rewrite Hm).
  rewrite (pops_at GS m1 (a + 32) (a + 36) He1) by lia. set (mg := set_reg ESP _ _).
  rewrite (pops_at FS mg (a + 36) (a + 40) eq_refl) by lia. set (mf := set_reg ESP _ _).
  rewrite (pops_at ES mf (a + 40) (a + 44) eq_refl) by lia. set (me := set_reg ESP _ _).
  rewrite (pops_at DS me (a + 44) (a + 48) eq_refl) by lia.
  set (m2 := istep (Addi 8 ESP) _).
  assert (m_reg m2 ESP = a + 56) as He2 by (change (u32 (a + 48 + 8) = a + 56); rewrite u32_id; lia).
  assert (forall b, word m2 b = word m b) as Hw2 by exact Hw.
  destruct (iret_user m2 (a + 56) He2) as (I1 & I2 & I3 & I4 & I5 & I6 & I7); [lia| | |].
  - change (Z.land (m_seg m1 CS) 3 = 0). by rewrite Hsg.
  - rewrite Hw2. replace (a + 56 + 4) with (a + 60) by lia. by rewrite C.
  - rewrite Hw2 in I1, I2, I3, I4, I5. rewrite <- Z.add_assoc in I2, I3, I4, I5.
    unfold user_regs. rewrite !I6, !I7 by discriminate.
    change (istep Iret m2) with (iret m2). rewrite I1, I2, I3, I4, I5.
    repeat split; try assumption.
    + change (u16 (word m1 (a + 32)) = tf_gs t). by rewrite Hw.
    + change (u16 (word m1 (a + 36)) = tf_fs t). by rewrite Hw.
    + change (u16 (word m1 (a + 40)) = tf_es t). by rewrite Hw.
    + change (u16 (word m1 (a + 44)) = tf_ds t). by rewrite Hw.
Qed.

(** ** The theorems about traps *)

(** User code with 16-bit selectors, at the user's privilege level. *)
Record user_state (m : mach) : Prop := {
  us_cpl : Z.land (m_seg m CS) 3 = 3;
  us_segs : forall s, 0 <= m_seg m s < 65536
}.

Lemma user_frame_regs n err m : user_regs m (user_frame n err m).
Proof. by repeat split. Qed.

(** C17: A trap on vector [n] in user code, with the kernel stack of the process
    empty from [esp0] down: the processor, the entry of the vector and
    [alltraps] call [trap] with the kernel's segments and a pointer to the trap
    frame, which holds all the registers of the user and the number of the
    vector.  When [trap] has returned with the frame it wants, the user runs on
    with the registers of that frame: with its own when [trap] left the frame
    as it was. *)
Theorem trap_roundtrip n err esp0 eip ret m :
  user_state m -> 0 <= n < 256 -> 84 <= esp0 < 4294967216 -> (4 | esp0) ->
  let m1 := run_code (vector n ++ alltraps ret) (hw_enter n err esp0 16 8 eip m) in
  let tf := esp0 - TRAPFRAME_SIZE in
  frame_at m1 tf (user_frame n err m) /\ user_regs m (user_frame n err m) /\
  word m1 (m_reg m1 ESP) = ret /\ word m1 (m_reg m1 ESP + 4) = tf /\
  m_seg m1 DS = 16 /\ m_seg m1 ES = 16 /\ m_seg m1 FS = 24 /\ m_seg m1 GS = 24 /\
  forall m2 t, m_reg m2 ESP = m_reg m1 ESP + 4 -> m_seg m2 CS = m_seg m1 CS ->
    frame_at m2 tf t -> Z.land (tf_cs t) 3 = 3 -> user_regs (run_code alltraps_rest m2) t.
Proof.
  intros [Hcpl Hseg] Hn Hs _. cbv zeta.
  destruct (alltraps_stack n err esp0 16 8 eip ret m) as ((oesp & Hst) & Hcs & Hds & Hes & Hfs & Hgs); [lia|].
  generalize dependent (run_code (vector n ++ alltraps ret) (hw_enter n err esp0 16 8 eip m)).
  intros m1 [He Hw _] Hcs Hds Hes Hfs Hgs. cbn [length] in He. unfold TRAPFRAME_SIZE.
  replace (esp0 - 4 * Z.of_nat 21) with (esp0 - 84) in He by lia.
  destruct Hw as (W0 & W1 & Hw). rewrite He in W0, W1, Hw.
  replace (esp0 - 84 + 4 + 4) with (esp0 - 76) in Hw by lia. rewrite He.
  split; [|split; [apply user_frame_regs|]].
  - apply (words_frame m1 (esp0 - 76) oesp (user_frame n err m) _ _ _ _ _ _ Hw);
      unfold u16; apply Z.mod_small, Hseg.
  - do 6 (split; [done|]). intros m2 t He2 Hcs2 Hf Hu.
    unfold alltraps_rest. rewrite run_code_cons.
    apply (trapret_run _ (esp0 - 76)); [|lia|exact Hf| |exact Hu].
    + change (u32 (m_reg m2 ESP + 4) = esp0 - 76). rewrite He2, u32_id; lia.
    + change (Z.land (m_seg m2 CS) 3 = 0). by rewrite Hcs2, Hcs.
Qed.

Section NewProcess.
Context {KI : KernelImage}.

(** What [allocproc] and [fork] or [userinit] leave on a kernel stack that
    ends at [top]: the trap frame [t], the address of [trapret] below it, and a
    context that starts at [forkret]. *)
Definition new_stack (m : mach) (top : Z) (t : trapframe) : Prop :=
  frame_at m (top - TRAPFRAME_SIZE) t /\
  word m (top - TRAPFRAME_SIZE - 4) = img_trapret /\
  context_at m (top - TRAPFRAME_SIZE - 4 - 20) (set_cx_eip img_forkret ctx_zero).

Lemma frame_ext m m' a t :
  frame_at m a t -> (forall b, a <= b < a + 76 -> word m' b = word m b) -> frame_at m' a t.
Proof. intros Hf Hb. unfold frame_at. rewrite !Hb by lia. exact Hf. Qed.

(** C22: The first time the scheduler switches to a process whose kernel stack
    is as [allocproc] and its caller lay it out ([new_stack]; that they do is
    by their code, whose state does not hold the bytes of the stack), with the
    stacks apart, the process starts in [forkret], which returns to [trapret], which enters user code with the
    registers of the trap frame. *)
Theorem new_process_starts m old top t :
  swtch_call m old (top - TRAPFRAME_SIZE - 4 - 20) -> new_stack m top t -> Z.land (tf_cs t) 3 = 3 ->
  Z.land (m_seg m CS) 3 = 0 -> 100 <= top < 4294967216 ->
  (m_reg m ESP <= top - 100 \/ top <= m_reg m ESP - 16) -> ~ (top - 100 <= old < top) ->
  let m1 := run_code swtch m in
  m_eip m1 = img_forkret /\ m_seg m1 CS = m_seg m CS /\
  forall m2, m_reg m2 ESP = m_reg m1 ESP -> m_seg m2 CS = m_seg m1 CS ->
    (forall b, m_reg m1 ESP <= b < top -> word m2 b = word m1 b) ->
    let m3 := run_code [Ret_] m2 in
    m_eip m3 = img_trapret /\ user_regs (run_code trapret m3) t.
Proof.
  intros Hcall (Hf & Ht & Hc) Hu Hk Htop Hsp Hold. cbv zeta. unfold TRAPFRAME_SIZE in *.
  destruct (swtch_run m old _ Hcall) as (_ & _ & Hm & Hres & Hsg).
  generalize dependent (run_code swtch m). intros m1 Hm Hres Hsg.
  destruct (Hres (set_cx_eip img_forkret ctx_zero)) as (_ & _ & _ & _ & Hip & Hesp).
  { apply (context_ext m); [done|]. intros b Hb. apply Hm; lia. }
  split; [exact Hip|]. split; [apply Hsg|]. intros m2 He2 Hcs2 Hk2.
  assert (m_reg m2 ESP = top - 80) as He2' by lia. rewrite Hesp in Hk2. split.
  - change (word m2 (m_reg m2 ESP) = img_trapret). rewrite He2', Hk2, Hm by lia.
    rewrite <- Ht. f_equal. lia.
  - apply (trapret_run _ (top - 76)); [|lia| | |exact Hu].
    + change (u32 (m_reg m2 ESP + 4) = top - 76). rewrite He2', u32_id; lia.
    + apply (frame_ext m); [done|]. intros b Hb.
      change (word (run_code [Ret_] m2) b) with (word m2 b). rewrite Hk2, Hm by lia. done.
    + change (Z.land (m_seg m2 CS) 3 = 0). by rewrite Hcs2, Hsg.
Qed.
End NewProcess.

(** ** System calls *)

Section Stubs.
Context {WF : WakeFuel} {KI : KernelImage}.

(** The handler with the name of the call. *)
Definition handler_of (s : sysname) : K Z :=
  match s with
  | SYS_fork => sys_fork
  | SYS_exit => sys_exit
  | SYS_wait => sys_wait
  | SYS_pipe => sys_pipe
  | SYS_read => sys_read
  | SYS_kill => sys_kill
  | SYS_exec => sys_exec
  | SYS_fstat => sys_fstat
  | SYS_chdir => sys_chdir
  | SYS_dup => sys_dup
  | SYS_getpid => sys_getpid
  | SYS_sbrk => sys_sbrk
  | SYS_sleep => sys_sleep
  | SYS_uptime => sys_uptime
  | SYS_open => sys_open
  | SYS_write => sys_write
  | SYS_mknod => sys_mknod
  | SYS_unlink => sys_unlink
  | SYS_link => sys_link
  | SYS_mkdir => sys_mkdir
  | SYS_close => sys_close
  | SYS_pstat => sys_pstat
  end.

(** Where [argint] looks for argument [n] of a call. *)
Definition arg_word (m : mach) (n : Z) : Z := word m (m_reg m ESP + 4 + 4 * n).

(** C23: Every stub traps with the number under which the table of the kernel has
    the handler of the same name, and with the stack as its caller left it: the
    arguments are where the kernel looks for them.  The first process asks for
    [exec] of its program and arguments; if that fails it asks for [exit], with
    the address of the name of the program as its status.  A program whose [main] returns runs
    into the code [exec] has put on its stack, which asks for [exit] with the
    value [main] returned. *)
Theorem stubs_call s m init argv :
  24 <= m_reg m ESP < 4294967296 ->
  (let m1 := run_code (usys s) m in
   syscalls (s32 (m_reg m1 EAX)) = Some (handler_of s) /\ m_mem m1 = m_mem m /\
   forall r, r <> EAX -> m_reg m1 r = m_reg m r) /\
  (let m1 := run_code (initcode_start init argv) m in
   syscalls (s32 (m_reg m1 EAX)) = Some sys_exec /\ arg_word m1 0 = init /\ arg_word m1 1 = argv /\
   forall r, let m2 := run_code initcode_exit (set_reg EAX r m1) in
     syscalls (s32 (m_reg m2 EAX)) = Some sys_exit /\ arg_word m2 0 = init) /\
  (let m1 := run_code EXIT_BEGIN m in
   syscalls (s32 (m_reg m1 EAX)) = Some sys_exit /\ arg_word m1 0 = m_reg m EAX).
Proof.
  intros Hs. split; [|split]; cbv zeta.
  - split; [by destruct s|]. split; [done|]. intros [] Hr; done.
  - set (m1 := run_code (initcode_start init argv) m).
    assert (stacked [0; init; argv] (m_reg m ESP) m m1) as [He Hw _].
    { apply (stacked_same _ _ _ (push 0 (push init (push argv m)))); [|done|done].
      stack_up. by apply stacked_nil. }
    pose proof (words_at_lookup _ _ _ Hw) as H. split; [done|]. unfold arg_word.
    assert (word m1 (m_reg m1 ESP + 4 + 4 * 0) = init) as Hi by (rewrite <- Z.add_assoc; exact (H 1%nat _ eq_refl)).
    split; [exact Hi|]. split; [rewrite <- Z.add_assoc; exact (H 2%nat _ eq_refl)|].
    intros r. split; [done|exact Hi].
  - set (m1 := run_code EXIT_BEGIN m).
    assert (stacked [m_reg m EAX; m_reg m EAX] (m_reg m ESP) m m1) as [He Hw _].
    { apply (stacked_same _ _ _ (push (m_reg m EAX) (push (m_reg m EAX) m))); [|done|done].
      stack_up. by apply stacked_nil. }
    split; [done|]. unfold arg_word. rewrite <- Z.add_assoc.
    exact (words_at_lookup _ _ _ Hw 1%nat _ eq_refl).
Qed.
End Stubs.

(** ** Concrete machines *)

(** Registers that are all [v] but for the stack pointer. *)
Definition regs_of (v sp : Z) (r : reg) : Z := if decide (r = ESP) then sp else v.

(** A call of [swtch] with the stack at [sp]. *)
Definition call_mach (v sp ret old new : Z) (mem : gmap Z Z) : mach :=
  mkmach (regs_of v sp) (fun _ => 8) 0 0 (<[sp := ret]> (<[sp + 4 := old]> (<[sp + 8 := new]> mem))).

Lemma call_mach_ok v sp ret old new mem :
  (4 | sp) -> (4 | old) -> (4 | new) -> 16 <= sp < 4294967280 -> 0 <= new < 4294967276 ->
  ~ (sp - 16 <= old < sp + 4) -> swtch_call (call_mach v sp ret old new mem) old new.
Proof.
  intros H1 H2 H3 H4 H5 H6. set (m := call_mach v sp ret old new mem).
  assert (m_reg m ESP = sp) as He by reflexivity. split; rewrite ?He; try done.
  - unfold word, m. cbn [m_mem call_mach]. by rewrite lookup_insert_ne, lookup_insert_eq by lia.
  - unfold word, m. cbn [m_mem call_mach]. by rewrite !lookup_insert_ne, lookup_insert_eq by lia.
Qed.

Definition demo_m : mach := call_mach 7 1000 77 2000 3000 ∅.
Definition demo_m2 : mach := call_mach 9 5000 78 6000 984 (m_mem (run_code swtch demo_m)).

Lemma swtch_returns_witness :
  m_reg (run_code swtch demo_m2) EBX = 7 /\ m_eip (run_code swtch demo_m2) = 77.
Proof.
  destruct (swtch_returns demo_m 2000 3000 demo_m2 6000) as (Hr & Hip & _).
  - apply call_mach_ok; [exists 250|exists 500|exists 750|..]; lia.
  - change (word (run_code swtch demo_m) 2000) with 984.
    apply call_mach_ok; [exists 1250|exists 1500|exists 246|..]; lia.
  - change (word (run_code swtch demo_m) 2000) with 984. intros b Hb. unfold word, demo_m2.
    cbn [m_mem call_mach]. by rewrite !lookup_insert_ne by lia.
  - right. change (word (run_code swtch demo_m) 2000) with 984. change (m_reg demo_m2 ESP) with 5000. lia.
  - change (word (run_code swtch demo_m) 2000) with 984. lia.
  - split; [apply (Hr EBX); rewrite !elem_of_cons; auto|exact Hip].
Defined.

(** A user program with its segments of the user. *)
Definition demo_user : mach :=
  mkmach (regs_of 5 12288) (fun s => if decide (s = CS) then 35 else 43) 4096 512 ∅.

Lemma demo_user_state : user_state demo_user.
Proof. split; [reflexivity|]. intros []; vm_compute; split; congruence. Qed.

Lemma trap_roundtrip_witness :
  let m1 := run_code (vector 64 ++ alltraps 99) (hw_enter 64 0 4096 16 8 1234 demo_user) in
  frame_at m1 4020 (user_frame 64 0 demo_user) /\ user_regs (run_code alltraps_rest (drop_top m1)) (user_frame 64 0 demo_user).
Proof.
  destruct (trap_roundtrip 64 0 4096 1234 99 demo_user) as (Hf & _ & _ & _ & _ & _ & _ & _ & H).
  - apply demo_user_state.
  - lia.
  - lia.
  - exists 1024. reflexivity.
  - assert (m_reg (run_code (vector 64 ++ alltraps 99) (hw_enter 64 0 4096 16 8 1234 demo_user)) ESP = 4012)
      as He by (vm_compute; reflexivity).
    cbv zeta. generalize dependent (run_code (vector 64 ++ alltraps 99) (hw_enter 64 0 4096 16 8 1234 demo_user)).
    intros m1 Hf H He. split; [exact Hf|]. apply H; [|reflexivity|exact Hf|reflexivity].
    change (u32 (m_reg m1 ESP + 4) = m_reg m1 ESP + 4). rewrite He. reflexivity.
Defined.

Lemma stubs_call_witness :
  m_reg (run_code (usys SYS_pstat) demo_user) EAX = 22 /\ arg_word (run_code EXIT_BEGIN demo_user) 0 = 5.
Proof.
  destruct (stubs_call (WF := 0%nat) (KI := Build_KernelImage 0 0 0 0 [] []) SYS_pstat demo_user 0 0)
    as (H1 & _ & H3).
  - change (m_reg demo_user ESP) with 12288. lia.
  - split; [reflexivity|]. apply H3.
Defined.

Definition demo_image : KernelImage := Build_KernelImage 0 0 111 222 [] [].
Definition demo_new : mach :=
  call_mach 7 2000 77 3000 8092 {[ 8176 := 35; 8172 := 4096; 8112 := 222; 8108 := 111 ]}.

Lemma new_process_starts_witness : m_eip (run_code swtch demo_new) = 111.
Proof.
  destruct (new_process_starts (KI := demo_image) demo_new 3000 8192
    (mktf 0 0 0 0 0 0 0 0 0 0 0 0 0 0 4096 35 0 0 0)) as (H & _).
  - change (8192 - TRAPFRAME_SIZE - 4 - 20) with 8092.
    apply call_mach_ok; [exists 500|exists 750|exists 2023|..]; lia.
  - split; [|split]; [..|split; [|split; [|split; [|split]]]]; try (vm_compute; reflexivity).
    repeat split; vm_compute; reflexivity.
  - reflexivity.
  - reflexivity.
  - lia.
  - left. change (m_reg demo_new ESP) with 2000. lia.
  - lia.
  - exact H.
Defined.
