(* ===== verification/Scheduler.v ===== *)
(** * The scheduler ([scheduler] of [proc.c])

    One round of the scheduler goes through the process table and gives the CPU
    to every process it finds runnable.  What a process does from the switch to
    it until it switches back is a parameter, [quantum]: it may be anything that
    comes back with the lock of the process table, and that leaves the runnable
    processes runnable.  The theorem is that a process that is runnable when a
    round starts has run when the round ends; the scheduler repeats rounds for
    ever. *)

From S2P Require Import Prelude Monad State Strings Sched Bio BioSpec Layout Log Inode Console.
From S2P Require Import Content Kalloc Pipe File Vm Process.

Section Scheduler.
Context {WF : WakeFuel} {KI : KernelImage}.
Context (quantum : nat -> K unit).

(** The body of the loop over the table. *)
Definition sched_slot (p : nat) : K unit :=
  r ← getproc p;
  if negb (bool_decide (p_state r = RUNNABLE)) then mret tt
  else
    scheduler_enter p;;
    quantum p;;
    scheduler_leave.

(** One round of [for(;;)], after its [sti]: the interrupt flag is part of
    file [Spinlock] only, and an interrupt that comes in before the lock is
    taken runs a handler and comes back. *)
Definition scheduler_round : K unit :=
  acquire LkPtable;;
  for_each (seq 0 NPROC) sched_slot;;
  release LkPtable.

Definition runnable (s : kstate) (p : nat) : Prop := p_state (k_procs s !!! p) = RUNNABLE.

(** The state between two processes, under the lock. *)
Record sched_inv (s : kstate) : Prop := {
  si_held : k_held s = [LkPtable];
  si_len : length (k_procs s) = NPROC;
  si_pgdir : forall p, (p < NPROC)%nat ->
    runnable s p \/ p_state (k_procs s !!! p) = RUNNING -> p_pgdir (k_procs s !!! p) <> 0
}.

(** [quantum] for a process that has just been switched to: [Ran] is something
    the process [q] brings about when it runs and nobody undoes. *)
Definition quantum_fair (q : nat) (Ran : kstate -> Prop) : Prop :=
  forall p s, sched_inv s -> (p < NPROC)%nat -> k_cur s = Some p ->
    p_state (k_procs s !!! p) = RUNNING ->
    wp (quantum p) (fun _ s' =>
      sched_inv s' /\ (forall p', p' <> p -> runnable s p' -> runnable s' p') /\
      (p = q \/ Ran s -> Ran s')) s.

(** [Ran] does not look at the variables of the scheduler. *)
Definition sched_blind (Ran : kstate -> Prop) : Prop :=
  (forall c s, Ran s -> Ran (set_k_cur c s)) /\ (forall a s, Ran s -> Ran (set_k_cr3 a s)) /\
  (forall p s, Ran s -> Ran (upd_proc p (set_p_state RUNNING) s)).

Lemma scheduler_enter_ok p s (Q : unit -> kstate -> Prop) :
  p_pgdir (k_procs s !!! p) <> 0 ->
  Q tt (upd_proc p (set_p_state RUNNING)
         (set_k_cr3 (v2p (p_pgdir (k_procs s !!! p))) (set_k_cur (Some p) s))) ->
  wp (scheduler_enter p) Q s.
Proof.
  intros Hp HQ. unfold scheduler_enter, switchuvm. wstep. apply wp_bind. wstep.
  cbn [k_procs set_k_cur]. rewrite (proj2 (Z.eqb_neq _ _) Hp). wstep. wstep. done.
Qed.

Lemma runnable_enter p c a s p' :
  (p < length (k_procs s))%nat ->
  runnable (upd_proc p (set_p_state RUNNING) (set_k_cr3 a (set_k_cur c s))) p' <->
  runnable s p' /\ p' <> p.
Proof.
  intros Hp. unfold runnable. kst_simpl. rewrite lookup_total_alter by done.
  case_decide as H; [subst; naive_solver|]. naive_solver.
Qed.

Lemma sched_slot_run q Ran p s :
  quantum_fair q Ran -> sched_blind Ran -> sched_inv s -> (p < NPROC)%nat -> k_cur s = None ->
  wp (sched_slot p) (fun _ s' =>
    sched_inv s' /\ k_cur s' = None /\ (forall p', p' <> p -> runnable s p' -> runnable s' p') /\
    ((p = q /\ runnable s q) \/ Ran s -> Ran s')) s.
Proof.
  intros Hq (Bc & Ba & Bp) Hi Hp Hc. pose proof Hi as [Hh Hl Hg]. unfold sched_slot. wstep.
  case_bool_decide as Hr; cbn [negb]; cycle 1.
  { wstep. do 3 (split; [done|]). intros [[-> Hr']|H]; [by destruct Hr|done]. }
  apply wp_bind, scheduler_enter_ok; [by apply Hg; [|left]|].
  set (s1 := upd_proc p _ _). apply wp_bind.
  eapply wp_mono; [apply (Hq p s1); [|done..|]|].
  - split; [done|unfold s1; kst_simpl; by rewrite length_alter|].
    intros p' Hp'. unfold runnable, s1. kst_simpl.
    rewrite lookup_total_alter by (cbn; lia).
    case_decide; [subst; intros _; by apply Hg; [|left]|by apply Hg].
  - unfold s1. kst_simpl. rewrite lookup_total_alter, decide_True by (done || (cbn; lia)). done.
  - intros _ s2 ([Hh2 Hl2 Hg2] & Hk & HR). unfold scheduler_leave, switchkvm.
    apply wp_bind. wstep. wstep. wstep.
    split; [by split|]. split; [done|]. split.
    + intros p' Hne Hr'. apply (Hk p' Hne), runnable_enter; [lia|done].
    + intros Hor. apply Bc, Ba, HR. destruct Hor as [[-> _]|H]; [by left|right]. by apply Bp, Ba, Bc.
Qed.

(** C20: A process that is runnable when a round of the scheduler starts runs in
    that round: whatever it brings about when it is given the CPU (and nobody
    undoes) holds at the end of the round, at which the scheduler has released
    the lock of the process table and runs no process.  The processes may do
    anything in their turns that comes back with that lock alone and leaves
    the runnable ones runnable. *)
Theorem scheduler_fair q Ran s :
  quantum_fair q Ran -> sched_blind Ran -> sched_inv (set_k_held [LkPtable] s) ->
  k_held s = [] -> k_cur s = None -> (q < NPROC)%nat -> runnable s q ->
  (forall h s, Ran s -> Ran (set_k_held h s)) ->
  wp scheduler_round (fun _ s' => Ran s' /\ k_held s' = [] /\ k_cur s' = None) s.
Proof.
  intros Hf Hb Hi Hh Hc Hq Hr Hheld. unfold scheduler_round. apply wp_bind.
  exists tt, (set_k_held [LkPtable] s). split; [rewrite acquire_ok, Hh by (rewrite Hh; set_solver); done|].
  apply wp_bind. eapply wp_mono.
  { apply (wp_for_range _ (fun i s' => sched_inv s' /\ k_cur s' = None /\
      if decide (i <= q)%nat then runnable s' q else Ran s')); [by rewrite decide_True by lia|].
    intros i s1 Hin (Hi1 & Hc1 & H1).
    eapply wp_mono; [by apply (sched_slot_run q Ran); [..|lia|]|].
    intros _ s2 (Hi2 & Hc2 & Hk & HR). split; [done|]. split; [done|].
    destruct (decide (S i <= q)%nat); [rewrite decide_True in H1 by lia; apply Hk; [lia|done]|].
    apply HR. destruct (decide (i <= q)%nat); [left; split; [lia|done]|by right]. }
  intros _ s1 (Hi1 & Hc1 & H1). rewrite decide_False in H1 by lia.
  exists tt, (set_k_held [] s1). split; [apply release_ok; [by destruct Hi1|set_solver]|].
  split; [by apply Hheld|done].
Qed.
End Scheduler.

(** ** Processes that the timer preempts

    A process that gave up the CPU in [yield] returns from it when it is
    switched to, works, and comes back to the scheduler through the [yield]
    of the next timer interrupt. *)
Definition preempted (work : nat -> K unit) (p : nat) : K unit :=
  release LkPtable;;
  work p;;
  acquire LkPtable;;
  modify (upd_proc p (set_p_state RUNNABLE)).

(** [preempted] is what happens between the switch to the process and its next
    switch back. *)
Lemma yield_preempted work p s :
  k_held s = [] -> k_cur s = Some p -> (p < length (k_procs s))%nat ->
  exists s1 k, yield s = Switch s1 k /\ runnable s1 p /\
    forall s2, k_held s2 = [LkPtable] ->
      wp (work p) (fun _ s3 => k_held s3 = [] /\ k_cur s3 = Some p /\ (p < length (k_procs s3))%nat)
         (set_k_held [] s2) ->
      exists s4 k', ((k : K unit);; work p;; yield) s2 = Switch s4 k' /\
        preempted work p s2 = Ret tt s4.
Proof.
  assert (forall s, k_held s = [] -> k_cur s = Some p -> (p < length (k_procs s))%nat ->
    yield s = Switch (upd_proc p (set_p_state RUNNABLE) (set_k_held [LkPtable] s)) (release LkPtable)) as Hy.
  { intros s' Hh Hc Hp. unfold yield. kstep_by ltac:(apply acquire_ok; rewrite Hh; set_solver).
    rewrite Hh. kstep_by ltac:(apply (curproc_ok p); exact Hc). kstep.
    match goal with |- context [sched ≫= _] => unfold mbind at 1, M_bind at 1 end.
    rewrite (sched_switch _ p); [done..|]. kst_simpl. by rewrite lookup_total_alter, decide_True. }
  intros Hh Hc Hp. eexists _, _. split; [by apply Hy|]. split.
  { unfold runnable. kst_simpl. by rewrite lookup_total_alter, decide_True. }
  intros s2 Hh2 ([] & s3 & Hw & Hh3 & Hc3 & Hp3). eexists _, _.
  pose proof (release_ok LkPtable [] s2 Hh2 ltac:(set_solver)) as Hrel. split.
  - kstep_by ltac:(exact Hrel). kstep_by ltac:(exact Hw). by apply Hy.
  - unfold preempted. kstep_by ltac:(exact Hrel). kstep_by ltac:(exact Hw).
    kstep_by ltac:(apply acquire_ok; rewrite Hh3; set_solver). by rewrite Hh3.
Qed.

(** Work for which a process's turn can be seen: it sets its own size. *)
Definition grow_work (p : nat) : K unit := modify (upd_proc p (set_p_sz 4096)).

Lemma preempted_grows q :
  (q < NPROC)%nat ->
  quantum_fair (preempted grow_work) q (fun s => p_sz (k_procs s !!! q) = 4096).
Proof.
  intros Hq p s [Hh Hl Hg] Hp Hc Hr. unfold preempted, grow_work.
  apply wp_bind. eexists tt, _. split; [apply (release_ok LkPtable []); [done|set_solver]|].
  wstep. apply wp_bind. eexists tt, _. split; [apply acquire_ok; kst_simpl; set_solver|].
  wstep. set (s' := upd_proc p _ _).
  assert (forall p', k_procs s' !!! p' = if decide (p = p')
    then set_p_state RUNNABLE (set_p_sz 4096 (k_procs s !!! p)) else k_procs s !!! p') as E.
  { intros p'. unfold s'. kst_simpl. rewrite list_alter_alter_eq, lookup_total_alter by (cbn; lia). done. }
  unfold runnable. split; [split|split].
  - done.
  - unfold s'. kst_simpl. by rewrite !length_alter.
  - intros p' Hp'. unfold runnable. rewrite E. case_decide; [intros _; subst; cbn; apply Hg; [done|by right]|by apply Hg].
  - intros p' Hne. rewrite E, decide_False by done. done.
  - rewrite E. case_decide; [done|]. by intros [->|?].
Qed.

Lemma scheduler_fair_witness :
  let r := set_p_pgdir 4096 (set_p_state RUNNABLE inhabitant) in
  let s := set_k_procs (replicate NPROC r) inhabitant in
  wp (scheduler_round (preempted grow_work)) (fun _ s' =>
    p_sz (k_procs s' !!! 63%nat) = 4096 /\ k_held s' = [] /\ k_cur s' = None) s.
Proof.
  intros r s. apply (scheduler_fair _ 63 (fun s => p_sz (k_procs s !!! 63%nat) = 4096)); try done.
  - apply preempted_grows. rewrite NPROC_eq. lia.
  - split; [done|]. split; [done|]. intros p s0 H. kst_simpl.
    rewrite list_lookup_total_alt in *. destruct (decide (p = 63%nat)) as [->|];
      [|by rewrite list_lookup_alter_ne].
    rewrite list_lookup_alter_eq. by destruct (k_procs s0 !! 63%nat).
  - split; [done|unfold s; kst_simpl; apply length_replicate|].
    intros p Hp _. unfold s. kst_simpl. by rewrite lookup_total_replicate_2.
  - rewrite NPROC_eq. lia.
Defined.
