(* ===== verification/Boot.v ===== *)
(** * From the BIOS to [main], and the other processors ([bootasm.S], [entry.S],
    [entryother.S], [entrypgdir] of [main.c], [asm.h])

    The three assembly files are sequences of instructions on a processor with
    the registers they touch.  The processor is written down after the
    documented behaviour of the x86 as far as the files use it: segment
    registers that cache what a descriptor says when they are loaded, real and
    protected mode, 4-Mbyte pages, the A20 line behind the keyboard controller.
    Descriptors and page directory are read from memory, where the assembler
    and the compiler put them, so the theorems depend on the tables as the
    files define them. *)

From S2P Require Import Prelude Monad State Strings Layout Bio Exec Ide IdeProps Kalloc Vm.
From S2P Require Import Bootmain.
From S2P Require Import Segments Mp Irq Asm.

(** ** The processor *)

(** A segment register: selector, and base and last offset of the segment. *)
Record scache := mkscache { sc_sel : Z; sc_base : Z; sc_last : Z }.

(** [b_gdtr] is base and limit of the descriptor table; [b_kbusy] is the number
    of times the status register of the keyboard controller still reads busy,
    [b_kcmd] tells that the controller waits for the byte of command 0xd1. *)
Record bcpu := mkbcpu {
  b_if : bool; b_eax : Z; b_esp : Z; b_eip : Z;
  b_cr0 : Z; b_cr3 : Z; b_cr4 : Z;
  b_gdtr : Z * Z; b_seg : sreg -> scache;
  b_a20 : bool; b_kbusy : nat; b_kcmd : bool;
  b_mem : mem
}.

Definition set_b_if (v : bool) (s : bcpu) : bcpu :=
  mkbcpu v (b_eax s) (b_esp s) (b_eip s) (b_cr0 s) (b_cr3 s) (b_cr4 s) (b_gdtr s) (b_seg s) (b_a20 s) (b_kbusy s) (b_kcmd s) (b_mem s).
Definition set_b_eax (v : Z) (s : bcpu) : bcpu :=
  mkbcpu (b_if s) v (b_esp s) (b_eip s) (b_cr0 s) (b_cr3 s) (b_cr4 s) (b_gdtr s) (b_seg s) (b_a20 s) (b_kbusy s) (b_kcmd s) (b_mem s).
Definition set_b_esp (v : Z) (s : bcpu) : bcpu :=
  mkbcpu (b_if s) (b_eax s) v (b_eip s) (b_cr0 s) (b_cr3 s) (b_cr4 s) (b_gdtr s) (b_seg s) (b_a20 s) (b_kbusy s) (b_kcmd s) (b_mem s).
Definition set_b_eip (v : Z) (s : bcpu) : bcpu :=
  mkbcpu (b_if s) (b_eax s) (b_esp s) v (b_cr0 s) (b_cr3 s) (b_cr4 s) (b_gdtr s) (b_seg s) (b_a20 s) (b_kbusy s) (b_kcmd s) (b_mem s).
Definition set_b_cr0 (v : Z) (s : bcpu) : bcpu :=
  mkbcpu (b_if s) (b_eax s) (b_esp s) (b_eip s) v (b_cr3 s) (b_cr4 s) (b_gdtr s) (b_seg s) (b_a20 s) (b_kbusy s) (b_kcmd s) (b_mem s).
Definition set_b_cr3 (v : Z) (s : bcpu) : bcpu :=
  mkbcpu (b_if s) (b_eax s) (b_esp s) (b_eip s) (b_cr0 s) v (b_cr4 s) (b_gdtr s) (b_seg s) (b_a20 s) (b_kbusy s) (b_kcmd s) (b_mem s).
Definition set_b_cr4 (v : Z) (s : bcpu) : bcpu :=
  mkbcpu (b_if s) (b_eax s) (b_esp s) (b_eip s) (b_cr0 s) (b_cr3 s) v (b_gdtr s) (b_seg s) (b_a20 s) (b_kbusy s) (b_kcmd s) (b_mem s).
Definition set_b_gdtr (v : Z * Z) (s : bcpu) : bcpu :=
  mkbcpu (b_if s) (b_eax s) (b_esp s) (b_eip s) (b_cr0 s) (b_cr3 s) (b_cr4 s) v (b_seg s) (b_a20 s) (b_kbusy s) (b_kcmd s) (b_mem s).
Definition set_b_seg (v : sreg -> scache) (s : bcpu) : bcpu :=
  mkbcpu (b_if s) (b_eax s) (b_esp s) (b_eip s) (b_cr0 s) (b_cr3 s) (b_cr4 s) (b_gdtr s) v (b_a20 s) (b_kbusy s) (b_kcmd s) (b_mem s).
Definition set_b_a20 (v : bool) (s : bcpu) : bcpu :=
  mkbcpu (b_if s) (b_eax s) (b_esp s) (b_eip s) (b_cr0 s) (b_cr3 s) (b_cr4 s) (b_gdtr s) (b_seg s) v (b_kbusy s) (b_kcmd s) (b_mem s).
Definition set_b_kbusy (v : nat) (s : bcpu) : bcpu :=
  mkbcpu (b_if s) (b_eax s) (b_esp s) (b_eip s) (b_cr0 s) (b_cr3 s) (b_cr4 s) (b_gdtr s) (b_seg s) (b_a20 s) v (b_kcmd s) (b_mem s).
Definition set_b_kcmd (v : bool) (s : bcpu) : bcpu :=
  mkbcpu (b_if s) (b_eax s) (b_esp s) (b_eip s) (b_cr0 s) (b_cr3 s) (b_cr4 s) (b_gdtr s) (b_seg s) (b_a20 s) (b_kbusy s) v (b_mem s).
Definition set_b_mem (v : mem) (s : bcpu) : bcpu :=
  mkbcpu (b_if s) (b_eax s) (b_esp s) (b_eip s) (b_cr0 s) (b_cr3 s) (b_cr4 s) (b_gdtr s) (b_seg s) (b_a20 s) (b_kbusy s) (b_kcmd s) v.

Ltac bc_simpl :=
  cbn [b_if b_eax b_esp b_eip b_cr0 b_cr3 b_cr4 b_gdtr b_seg b_a20 b_kbusy b_kcmd b_mem
    set_b_if set_b_eax set_b_esp set_b_eip set_b_cr0 set_b_cr3 set_b_cr4
    set_b_gdtr set_b_seg set_b_a20 set_b_kbusy set_b_kcmd set_b_mem] in *.

Abbreviation BC := (M bcpu).

Definition CR0_PE : Z := 1.
Definition CR0_WP : Z := 65536.
Definition CR0_PG : Z := 2147483648.
Definition CR4_PSE : Z := 16.

Definition pe (s : bcpu) : bool := Z.testbit (b_cr0 s) 0.
Definition pg (s : bcpu) : bool := Z.testbit (b_cr0 s) 31.

Section Machine.

(** Where physical memory starts in [b_mem]: 0, or [KERNBASE] when [b_mem] is
    the memory of a kernel that runs on another processor. *)
Context (off : Z).

Definition pload (a : Z) (n : nat) (s : bcpu) : list Z := load (a + off) n (b_mem s).

(** The address on the bus. *)
Definition a20_gate (s : bcpu) (a : Z) : Z :=
  if b_a20 s then a else Z.land a (Z.lnot (2 ^ 20)).

(** Linear to physical: a page directory of 4-Mbyte pages. *)
Definition translate (s : bcpu) (va : Z) : option Z :=
  if pg s then
    let pde := le_dec (pload (a20_gate s (Z.land (b_cr3 s) 4294963200 + 4 * Z.shiftr va 22)) 4 s) in
    if Z.testbit pde 0 && Z.testbit pde 7 && Z.testbit (b_cr4 s) 4 then
      Some (a20_gate s (Z.land pde 4290772992 + Z.land va 4194303))
    else None
  else Some (a20_gate s va).

(** Memory through a segment register. *)
Definition at_seg (r : sreg) (a : Z) (s : bcpu) : option Z :=
  if a <=? sc_last (b_seg s r) then translate s (u32 (sc_base (b_seg s r) + a)) else None.
Definition rd_seg (r : sreg) (a : Z) (n : nat) : BC Z := fun s =>
  match at_seg r a s with
  | Some pa => Ret (le_dec (pload pa n s)) s
  | None => Undef s
  end.
Definition wr_seg (r : sreg) (a x : Z) : BC unit := fun s =>
  match at_seg r a s with
  | Some pa => Ret tt (set_b_mem (store (pa + off) (le_enc 4 x) (b_mem s)) s)
  | None => Undef s
  end.

(** The eight bytes of a descriptor. *)
Definition desc_base (d : list Z) : Z :=
  le_dec (take 2 (drop 2 d)) + Z.shiftl (d !!! 4%nat) 16 + Z.shiftl (d !!! 7%nat) 24.
Definition desc_last (d : list Z) : Z :=
  let lim := le_dec (take 2 d) + Z.shiftl (Z.land (d !!! 6%nat) 15) 16 in
  if Z.testbit (d !!! 6%nat) 7 then lim * 4096 + 4095 else lim.
(** Present, not a system descriptor; code, and for data writable. *)
Definition desc_ok (code : bool) (d : list Z) : bool :=
  let t := d !!! 5%nat in
  Z.testbit t 7 && Z.testbit t 4 && eqb (Z.testbit t 3) code && (code || Z.testbit t 1).

(** Loading a segment register. *)
Definition load_seg (r : sreg) (sel : Z) : BC unit := fun s =>
  if pe s then
    if sel <? 4 then
      if bool_decide (r = CS \/ r = SS) then Undef s
      else Ret tt (set_b_seg (<[r := mkscache sel 0 (-1)]> (b_seg s)) s)
    else if snd (b_gdtr s) <? Z.lor sel 7 then Undef s
    else match translate s (u32 (fst (b_gdtr s) + Z.land sel (Z.lnot 7))) with
         | None => Undef s
         | Some pa =>
             let d := pload pa 8 s in
             if desc_ok (bool_decide (r = CS)) d
             then Ret tt (set_b_seg (<[r := mkscache sel (desc_base d) (desc_last d)]> (b_seg s)) s)
             else Undef s
         end
  else Ret tt (set_b_seg (<[r := mkscache sel (sel * 16) 65535]> (b_seg s)) s).

(** ** The instructions of the files *)

Definition cli : BC unit := modify (set_b_if false).
Definition movw_ax (v : Z) : BC unit :=
  modify (fun s => set_b_eax (Z.lor (Z.land (b_eax s) 4294901760) v) s).
Definition movb_al (v : Z) : BC unit :=
  modify (fun s => set_b_eax (Z.lor (Z.land (b_eax s) 4294967040) v) s).
Definition movw_seg (r : sreg) : BC unit :=
  ax ← gets b_eax; load_seg r (Z.land ax 65535).
Definition movl_eax (v : Z) : BC unit := modify (set_b_eax v).
Definition movl_esp (v : Z) : BC unit := modify (set_b_esp v).
Definition orl_eax (v : Z) : BC unit := modify (fun s => set_b_eax (Z.lor (b_eax s) v) s).

(** The keyboard controller: its status, and the command that sets its output
    port, the A20 line among it; [kdelay] is how long a command takes it. *)
Definition inb_64 : BC unit :=
  n ← gets b_kbusy;
  modify (set_b_kbusy (Nat.pred n));;
  movb_al (match n with O => 0 | S _ => 2 end).
Definition outb_64 (kdelay : nat) : BC unit :=
  modify (fun s => match b_kbusy s with
                   | O => set_b_kbusy kdelay (set_b_kcmd (Z.land (b_eax s) 255 =? 209) s)
                   | S _ => s
                   end).
Definition outb_60 (kdelay : nat) : BC unit :=
  modify (fun s => match b_kbusy s with
                   | O => set_b_kbusy kdelay (set_b_kcmd false
                            (if b_kcmd s then set_b_a20 (Z.testbit (b_eax s) 1) s else s))
                   | S _ => s
                   end).

(** In 16-bit code the base of the table is 24 bits wide. *)
Definition lgdt16 (a : Z) : BC unit :=
  lim ← rd_seg DS a 2;
  base ← rd_seg DS (a + 2) 4;
  modify (set_b_gdtr (Z.land base 16777215, lim)).

Definition movl_cr0_eax : BC unit := modify (fun s => set_b_eax (b_cr0 s) s).
Definition movl_cr4_eax : BC unit := modify (fun s => set_b_eax (b_cr4 s) s).
Definition movl_eax_cr3 : BC unit := modify (fun s => set_b_cr3 (b_eax s) s).
Definition movl_eax_cr4 : BC unit := modify (fun s => set_b_cr4 (b_eax s) s).
(** The next instruction, at [next], is fetched through the new mapping. *)
Definition movl_eax_cr0 (next : Z) : BC unit :=
  modify (fun s => set_b_cr0 (b_eax s) s);;
  s ← gets id;
  if pg s && (negb (pe s) || negb (bool_decide (translate s next = Some next))) then undef
  else mret tt.

(** The jump that loads [cs]; the code goes on at [target], a physical
    address. *)
Definition ljmp (sel target : Z) : BC unit :=
  load_seg CS sel;;
  s ← gets id;
  if bool_decide (at_seg CS target s = Some target) then modify (set_b_eip target) else undef.
Definition jmp_eax : BC unit := modify (fun s => set_b_eip (b_eax s) s).
Definition call (target ret : Z) : BC unit :=
  esp ← gets b_esp;
  wr_seg SS (u32 (esp - 4)) ret;;
  modify (set_b_esp (u32 (esp - 4)));;
  modify (set_b_eip target).

(** ** The files *)

(** The labels of [bootasm.S] or [entryother.S]: [lb_paged] is the instruction
    after paging is turned on, [lb_ret] the one after the call. *)
Record labels := mklabels {
  lb_start : Z; lb_start32 : Z; lb_gdt : Z; lb_gdtdesc : Z; lb_paged : Z; lb_ret : Z
}.

Definition SEG_NULLASM : list Z := le_enc 2 0 ++ le_enc 2 0 ++ [0; 0; 0; 0].
Definition SEG_ASM (type base lim : Z) : list Z :=
  le_enc 2 (Z.land (Z.shiftr lim 12) 65535) ++ le_enc 2 (Z.land base 65535) ++
  [Z.land (Z.shiftr base 16) 255; Z.lor 144 type; Z.lor 192 (Z.land (Z.shiftr lim 28) 15);
   Z.land (Z.shiftr base 24) 255].

(** The data at the end of the two files. *)
Definition gdt_data : list Z :=
  SEG_NULLASM ++ SEG_ASM (Z.lor STA_X STA_R) 0 4294967295 ++ SEG_ASM STA_W 0 4294967295.
Definition gdtdesc_data (lb : labels) : list Z :=
  le_enc 2 (lb_gdtdesc lb - lb_gdt lb - 1) ++ le_enc 4 (lb_gdt lb).

(** [seta20.1] and [seta20.2]: wait until the controller is not busy. *)
Definition kwait : BC unit :=
  n ← gets b_kbusy;
  loop (S n) (fun _ : unit =>
    inb_64;;
    eax ← gets b_eax;
    mret (if negb (Z.land (Z.land eax 255) 2 =? 0) then inl tt else inr tt)) tt.

Definition seta20 (kdelay : nat) : BC unit :=
  kwait;;
  movb_al 209;;
  outb_64 kdelay;;
  kwait;;
  movb_al 223;;
  outb_60 kdelay.

Definition zero_segs : BC unit :=
  movw_ax 0;;
  movw_seg DS;;
  movw_seg ES;;
  movw_seg SS.

Definition to_protected (lb : labels) : BC unit :=
  lgdt16 (lb_gdtdesc lb);;
  movl_cr0_eax;;
  orl_eax CR0_PE;;
  movl_eax_cr0 0;;
  ljmp (Z.shiftl SEG_KCODE 3) (lb_start32 lb).

Definition start32_segs : BC unit :=
  movw_ax (Z.shiftl SEG_KDATA 3);;
  movw_seg DS;;
  movw_seg ES;;
  movw_seg SS;;
  movw_ax 0;;
  movw_seg FS;;
  movw_seg GS.

(** [bootasm.S] *)
Definition bootasm_start (lb : labels) (kdelay : nat) (bootmain_addr : Z) : BC unit :=
  cli;;
  zero_segs;;
  seta20 kdelay;;
  to_protected lb;;
  start32_segs;;
  movl_esp (lb_start lb);;
  call bootmain_addr (lb_ret lb).

(** [entry.S]; [next] is the address of the instruction after paging is on. *)
Definition entry_start (next entrypgdir stack main : Z) : BC unit :=
  movl_cr4_eax;;
  orl_eax CR4_PSE;;
  movl_eax_cr4;;
  movl_eax (v2p entrypgdir);;
  movl_eax_cr3;;
  movl_cr0_eax;;
  orl_eax (Z.lor CR0_PG CR0_WP);;
  movl_eax_cr0 next;;
  movl_esp (stack + KSTACKSIZE);;
  movl_eax main;;
  jmp_eax.

(** [entryother.S] *)
Definition entryother_start (lb : labels) : BC unit :=
  cli;;
  zero_segs;;
  to_protected lb;;
  start32_segs;;
  movl_cr4_eax;;
  orl_eax CR4_PSE;;
  movl_eax_cr4;;
  dir ← rd_seg DS (lb_start lb - 12) 4;
  movl_eax dir;;
  movl_eax_cr3;;
  movl_cr0_eax;;
  orl_eax (Z.lor (Z.lor CR0_PE CR0_PG) CR0_WP);;
  movl_eax_cr0 (lb_paged lb);;
  esp ← rd_seg DS (lb_start lb - 4) 4;
  movl_esp esp;;
  target ← rd_seg DS (lb_start lb - 8) 4;
  call target (lb_ret lb).
End Machine.

(** [entrypgdir] of [main.c]: its 1024 entries, and its bytes. *)
Definition entrypgdir : list Z :=
  let pde := Z.lor (Z.lor (Z.lor 0 PTE_P) PTE_W) 128 in
  <[0%nat := pde]> (<[Z.to_nat (Z.shiftr KERNBASE 22) := pde]> (replicate 1024 0)).
Definition entrypgdir_bytes : list Z := concat (map (le_enc 4) entrypgdir).

(** ** Memory *)

Lemma load_part a n m k j :
  (k + j <= n)%nat -> load (a + Z.of_nat k) j m = take j (drop k (load a n m)).
Proof.
  intros H. apply list_eq. intros i. destruct (decide (i < j)%nat) as [Hi|Hi].
  - rewrite lookup_load, lookup_take_lt, lookup_drop, lookup_load by lia. do 2 f_equal. lia.
  - rewrite !lookup_ge_None_2; [done|rewrite length_take|rewrite length_load]; lia.
Qed.

Lemma concat_words_at l i :
  (i < length l)%nat -> take 4 (drop (4 * i) (concat (map (le_enc 4) l))) = le_enc 4 (l !!! i).
Proof.
  revert i. induction l as [|x l IH]; intros i Hi; [cbn in Hi; lia|]. cbn [map concat].
  destruct i as [|i].
  - rewrite Nat.mul_0_r, drop_0, take_app_le by (rewrite length_le_enc; lia).
    apply take_ge. by rewrite length_le_enc.
  - rewrite drop_app_ge by (rewrite length_le_enc; lia). rewrite length_le_enc.
    replace (4 * S i - 4)%nat with (4 * i)%nat by lia. apply IH. cbn in Hi. lia.
Qed.

Lemma a20_low s a : 0 <= a < 2 ^ 20 -> a20_gate s a = a.
Proof.
  intros Ha. unfold a20_gate. destruct (b_a20 s); [done|]. apply Z.bits_inj'. intros n Hn.
  rewrite Z.land_spec, Z.lnot_spec, Z.pow2_bits_eqb by lia.
  destruct (Z.eqb_spec 20 n) as [<-|]; [|by rewrite andb_true_r].
  rewrite andb_false_r. symmetry. apply Z.bits_above_log2; [lia|].
  destruct (decide (a = 0)) as [->|]; [done|]. apply Z.log2_lt_pow2; lia.
Qed.

Lemma low_half e v : 0 <= v < 65536 -> Z.land (Z.lor (Z.land e 4294901760) v) 65535 = v.
Proof.
  intros Hv. rewrite Z.land_lor_distr_l, <- Z.land_assoc. change (Z.land 4294901760 65535) with 0.
  rewrite Z.land_0_r, Z.lor_0_l. change 65535 with (Z.ones 16).
  rewrite Z.land_ones by lia. by apply Z.mod_small.
Qed.

Lemma low_byte e v : 0 <= v < 256 -> Z.land (Z.lor (Z.land e 4294967040) v) 255 = v.
Proof.
  intros Hv. rewrite Z.land_lor_distr_l, <- Z.land_assoc. change (Z.land 4294967040 255) with 0.
  rewrite Z.land_0_r, Z.lor_0_l. change 255 with (Z.ones 8).
  rewrite Z.land_ones by lia. by apply Z.mod_small.
Qed.

(** ** The boot directory *)

Lemma length_entrypgdir : length entrypgdir = 1024%nat.
Proof. unfold entrypgdir. by rewrite !length_insert, length_replicate. Qed.

Lemma length_entrypgdir_bytes : length entrypgdir_bytes = 4096%nat.
Proof. vm_compute. reflexivity. Qed.

Lemma entrypgdir_at i :
  0 <= i < 1024 -> entrypgdir !!! Z.to_nat i = if (i =? 0) || (i =? 512) then 131 else 0.
Proof.
  intros Hi. unfold entrypgdir. change (Z.to_nat (Z.shiftr KERNBASE 22)) with 512%nat.
  rewrite list_lookup_total_alt. destruct (Z.eqb_spec i 0) as [->|H0]; [reflexivity|].
  rewrite list_lookup_insert_ne by lia. destruct (Z.eqb_spec i 512) as [->|H1]; [reflexivity|].
  rewrite list_lookup_insert_ne by lia. by rewrite lookup_replicate_2 by lia.
Qed.

Lemma entrypgdir_word i :
  0 <= i < 1024 ->
  le_dec (take 4 (drop (4 * Z.to_nat i) entrypgdir_bytes)) = if (i =? 0) || (i =? 512) then 131 else 0.
Proof.
  intros Hi. unfold entrypgdir_bytes. rewrite concat_words_at by (rewrite length_entrypgdir; lia).
  rewrite entrypgdir_at by done. case_match; reflexivity.
Qed.
#[global] Opaque entrypgdir_bytes entrypgdir.

(** The directory is in memory. *)
Definition dir_at (off dir : Z) (m : mem) : Prop :=
  forall i, 0 <= i < 1024 ->
    le_dec (load (dir + 4 * i + off) 4 m) = if (i =? 0) || (i =? 512) then 131 else 0.

Lemma dir_at_load off dir m : load (dir + off) 4096 m = entrypgdir_bytes -> dir_at off dir m.
Proof.
  intros Hd i Hi. replace (dir + 4 * i + off) with (dir + off + Z.of_nat (4 * Z.to_nat i)) by lia.
  rewrite (load_part _ 4096), Hd by lia. by apply entrypgdir_word.
Qed.

(** Paging is on with the boot directory, which is in memory at [dir]. *)
Record boot_paging (off dir : Z) (s : bcpu) : Prop := {
  bp_pg : pg s = true;
  bp_pse : Z.testbit (b_cr4 s) 4 = true;
  bp_a20 : b_a20 s = true;
  bp_cr3 : Z.land (b_cr3 s) 4294963200 = dir;
  bp_dir : dir_at off dir (b_mem s)
}.

Lemma boot_translate off dir s va :
  boot_paging off dir s -> 0 <= va < 2 ^ 32 ->
  translate off s va =
    if va <? 4194304 then Some va
    else if (KERNBASE <=? va) && (va <? KERNBASE + 4194304) then Some (va - KERNBASE) else None.
Proof.
  intros [Hpg Hps Ha Hc Hd] Hv. unfold translate, a20_gate. rewrite Hpg, Hps, Ha, Hc. cbn [andb].
  assert (Z.shiftr va 22 = va / 4194304) as Es by (rewrite Z.shiftr_div_pow2 by lia; done).
  assert (0 <= va / 4194304 < 1024) as Hi
    by (split; [apply Z.div_pos; lia|apply Z.div_lt_upper_bound; lia]).
  assert (Z.land va 4194303 = va mod 4194304) as El
    by (change 4194303 with (Z.ones 22); by rewrite Z.land_ones by lia).
  assert (le_dec (pload off (dir + 4 * Z.shiftr va 22) 4 s) =
    if (va / 4194304 =? 0) || (va / 4194304 =? 512) then 131 else 0) as ->.
  { unfold pload. rewrite Es. by apply Hd. }
  rewrite El. pose proof (Z.div_mod va 4194304 ltac:(lia)).
  pose proof (Z.mod_pos_bound va 4194304 ltac:(lia)). unfold KERNBASE.
  clear Hd Hpg Hps Ha Hc El Es. generalize dependent (va mod 4194304).
  generalize dependent (va / 4194304). intros q Hq r Hva Hr.
  destruct (Z.eqb_spec q 0) as [->|H0].
  { rewrite (proj2 (Z.ltb_lt va 4194304)) by lia. change (Some (0 + r) = Some va). f_equal. lia. }
  rewrite (proj2 (Z.ltb_ge va 4194304)) by lia. destruct (Z.eqb_spec q 512) as [->|H1].
  { rewrite (proj2 (Z.leb_le 2147483648 va)), (proj2 (Z.ltb_lt va (2147483648 + 4194304))) by lia.
    change (Some (0 + r) = Some (va - 2147483648)). f_equal. lia. }
  destruct (Z.leb_spec 2147483648 va); [|done].
  by rewrite (proj2 (Z.ltb_ge va (2147483648 + 4194304))) by lia.
Qed.

(** ** The way to protected mode *)

(** The data of the assembly file is in memory, in the first 64 kbytes. *)
Record asm_image (off : Z) (lb : labels) (m : mem) : Prop := {
  ai_gdt : load (lb_gdt lb + off) 24 m = gdt_data;
  ai_desc : load (lb_gdtdesc lb + off) 6 m = gdtdesc_data lb;
  ai_pos : 0 <= lb_gdt lb /\ lb_gdtdesc lb = lb_gdt lb + 24 /\ lb_gdtdesc lb + 6 <= 65536;
  ai_start32 : 0 <= lb_start32 lb < 65536
}.

Definition flat (sel : Z) : scache := mkscache sel 0 4294967295.
Definition real0 : scache := mkscache 0 0 65535.
Definition null0 : scache := mkscache 0 0 (-1).

Section Steps.
Context (off : Z).

Lemma movw_seg_real r v e s :
  pe s = false -> 0 <= v < 65536 -> b_eax s = Z.lor (Z.land e 4294901760) v ->
  movw_seg off r s = Ret tt (set_b_seg (<[r := mkscache v (v * 16) 65535]> (b_seg s)) s).
Proof.
  intros Hp Hv He. unfold movw_seg. kstep. rewrite He, low_half by done.
  unfold load_seg. by rewrite Hp.
Qed.

Lemma zero_segs_ok s :
  pe s = false -> exists e,
  zero_segs off s = Ret tt (set_b_seg (<[SS := real0]> (<[ES := real0]> (<[DS := real0]> (b_seg s))))
                          (set_b_eax e s)).
Proof.
  intros Hp. eexists. unfold zero_segs, movw_ax. kstep.
  kstep_by ltac:(eapply (movw_seg_real _ 0); [exact Hp|lia|reflexivity]).
  kstep_by ltac:(eapply (movw_seg_real _ 0); [exact Hp|lia|reflexivity]).
  rewrite (movw_seg_real _ 0 (b_eax s)) by (exact Hp || lia || reflexivity). by destruct s.
Qed.

Lemma inb_64_ok s :
  inb_64 s = Ret tt (set_b_eax (Z.lor (Z.land (b_eax s) 4294967040) (match b_kbusy s with O => 0 | S _ => 2 end))
    (set_b_kbusy (Nat.pred (b_kbusy s)) s)).
Proof. reflexivity. Qed.

Lemma kwait_ok s : exists e, kwait s = Ret tt (set_b_kbusy 0 (set_b_eax e s)).
Proof.
  unfold kwait. kstep. remember (b_kbusy s) as n eqn:Hn. revert s Hn.
  induction n as [|n IH]; intros s Hn.
  - eexists. apply loop_done. kstep_by ltac:(apply inb_64_ok). kstep. rewrite <- Hn.
    cbn [b_eax set_b_eax set_b_kbusy]. rewrite low_byte by lia. reflexivity.
  - destruct (IH (set_b_eax (Z.lor (Z.land (b_eax s) 4294967040) 2) (set_b_kbusy n s)) eq_refl) as [e He].
    exists e. erewrite loop_next; [rewrite He; by destruct s|].
    kstep_by ltac:(apply inb_64_ok). kstep. rewrite <- Hn.
    cbn [b_eax set_b_eax set_b_kbusy]. rewrite low_byte by lia. reflexivity.
Qed.

Lemma seta20_ok kdelay s :
  exists e n, seta20 kdelay s = Ret tt (set_b_a20 true (set_b_kcmd false (set_b_kbusy n (set_b_eax e s)))).
Proof.
  unfold seta20. destruct (kwait_ok s) as [e1 E1]. kstep_by ltac:(exact E1). unfold movb_al at 1. kstep.
  unfold outb_64. kstep. cbn [b_kbusy set_b_eax set_b_kbusy b_eax].
  rewrite low_byte by lia. change (209 =? 209) with true.
  match goal with |- context [(kwait ;; _) ?s1] => destruct (kwait_ok s1) as [e2 E2] end.
  kstep_by ltac:(exact E2). unfold movb_al. kstep. unfold outb_60, modify. eexists _, _.
  cbn [b_kbusy b_kcmd set_b_kcmd set_b_kbusy set_b_eax b_eax].
  rewrite Z.lor_spec, Z.land_spec. change (Z.testbit 4294967040 1) with false.
  rewrite andb_false_r. change (Z.testbit 223 1) with true. by destruct s.
Qed.

(** ** Segment registers in protected mode *)

(** The descriptor table of the file is loaded. *)
Record gdt_loaded (gdt : Z) (s : bcpu) : Prop := {
  gl_pe : pe s = true;
  gl_pg : pg s = false;
  gl_gdtr : b_gdtr s = (gdt, 23);
  gl_data : load (gdt + off) 24 (b_mem s) = gdt_data;
  gl_pos : 0 <= gdt < 65536
}.

Lemma load_seg_flat gdt r s :
  gdt_loaded gdt s ->
  let sel := if decide (r = CS) then 8 else 16 in
  load_seg off r sel s = Ret tt (set_b_seg (<[r := flat sel]> (b_seg s)) s).
Proof.
  intros [Hpe Hpg Hg Hd Hp] sel. unfold load_seg. rewrite Hpe, Hg. cbn [fst snd].
  assert (pload off (gdt + sel) 8 s = take 8 (drop (Z.to_nat sel) gdt_data)) as E.
  { unfold pload. replace (gdt + sel + off) with (gdt + off + Z.of_nat (Z.to_nat sel))
      by (unfold sel; case_decide; lia).
    rewrite (load_part _ 24), Hd; [done|]. unfold sel. case_decide; lia. }
  assert (translate off s (u32 (gdt + sel)) = Some (gdt + sel)) as Et.
  { unfold translate. rewrite Hpg, u32_id, a20_low; [done|..]; unfold sel; case_decide; lia. }
  unfold sel in *. destruct (decide (r = CS)) as [->|Hr].
  - change (8 <? 4) with false. change (23 <? Z.lor 8 7) with false. change (Z.land 8 (Z.lnot 7)) with 8.
    rewrite Et, E. reflexivity.
  - change (16 <? 4) with false. change (23 <? Z.lor 16 7) with false. change (Z.land 16 (Z.lnot 7)) with 16.
    rewrite Et, E, (bool_decide_false (r = CS)) by done. reflexivity.
Qed.

Lemma movw_seg_flat gdt r e s :
  gdt_loaded gdt s -> r <> CS -> b_eax s = Z.lor (Z.land e 4294901760) 16 ->
  movw_seg off r s = Ret tt (set_b_seg (<[r := flat 16]> (b_seg s)) s).
Proof.
  intros Hg Hr He. unfold movw_seg. kstep. rewrite He, low_half by lia.
  pose proof (load_seg_flat gdt r s Hg) as H. cbv zeta in H. by rewrite decide_False in H by done.
Qed.

Lemma movw_seg_null gdt r e s :
  gdt_loaded gdt s -> r <> CS -> r <> SS -> b_eax s = Z.lor (Z.land e 4294901760) 0 ->
  movw_seg off r s = Ret tt (set_b_seg (<[r := null0]> (b_seg s)) s).
Proof.
  intros Hg Hr1 Hr2 He. unfold movw_seg. kstep. rewrite He, low_half by lia. unfold load_seg.
  rewrite (gl_pe _ _ Hg). change (0 <? 4) with true. cbn iota.
  by rewrite bool_decide_false by naive_solver.
Qed.

Lemma gdt_loaded_seg gdt f s : gdt_loaded gdt s -> gdt_loaded gdt (set_b_seg f s).
Proof. by intros []. Qed.
Lemma gdt_loaded_eax gdt e s : gdt_loaded gdt s -> gdt_loaded gdt (set_b_eax e s).
Proof. by intros []. Qed.
Hint Resolve gdt_loaded_seg gdt_loaded_eax : core.

Lemma start32_segs_ok gdt s :
  gdt_loaded gdt s -> exists e,
  start32_segs off s = Ret tt
    (set_b_seg (<[GS := null0]> (<[FS := null0]>
       (<[SS := flat 16]> (<[ES := flat 16]> (<[DS := flat 16]> (b_seg s)))))) (set_b_eax e s)).
Proof.
  intros Hg. eexists. unfold start32_segs, movw_ax. change (Z.shiftl SEG_KDATA 3) with 16. kstep.
  do 3 kstep_by ltac:(eapply (movw_seg_flat gdt); [auto|done|reflexivity]). kstep.
  kstep_by ltac:(eapply (movw_seg_null gdt); [auto 10|done|done|reflexivity]).
  erewrite (movw_seg_null gdt); [|auto 10|done|done|reflexivity]. by destruct s.
Qed.

Lemma rd_seg_real a n s :
  pg s = false -> b_seg s DS = real0 -> 0 <= a < 65536 ->
  rd_seg off DS a n s = Ret (le_dec (load (a + off) n (b_mem s))) s.
Proof.
  intros Hg Hd Ha. unfold rd_seg, at_seg. rewrite Hd. cbn [sc_last sc_base real0].
  rewrite (proj2 (Z.leb_le a 65535)) by lia. unfold translate. rewrite Hg.
  by rewrite Z.add_0_l, u32_id, a20_low by lia.
Qed.

(** [lgdt] finds the table of the file. *)
Lemma lgdt16_ok lb s :
  pg s = false -> b_seg s DS = real0 -> asm_image off lb (b_mem s) ->
  lgdt16 off (lb_gdtdesc lb) s = Ret tt (set_b_gdtr (lb_gdt lb, 23) s).
Proof.
  intros Hg Hd [_ Hdesc (Hp & Hq & Hr) _]. unfold lgdt16.
  kstep_by ltac:(apply rd_seg_real; [done|done|lia]).
  kstep_by ltac:(apply rd_seg_real; [done|done|lia]). unfold modify. do 3 f_equal.
  - replace (lb_gdtdesc lb + 2 + off) with (lb_gdtdesc lb + off + Z.of_nat 2) by lia.
    rewrite (load_part _ 6), Hdesc by lia. unfold gdtdesc_data.
    rewrite drop_app_ge, length_le_enc by (rewrite length_le_enc; lia).
    rewrite Nat.sub_diag, drop_0, take_ge by (rewrite length_le_enc; lia).
    rewrite le_dec_enc_id by lia. change 16777215 with (Z.ones 24). rewrite Z.land_ones by lia.
    apply Z.mod_small. lia.
  - rewrite <- (Z.add_0_r (lb_gdtdesc lb + off)). change 0 with (Z.of_nat 0).
    rewrite (load_part _ 6), Hdesc, drop_0 by lia. unfold gdtdesc_data.
    rewrite take_app_le, take_ge by (rewrite length_le_enc; lia). rewrite le_dec_enc_id; lia.
Qed.

Lemma to_protected_ok lb s :
  pe s = false -> pg s = false -> b_seg s DS = real0 -> asm_image off lb (b_mem s) ->
  exists e, to_protected off lb s =
    Ret tt (set_b_eip (lb_start32 lb) (set_b_seg (<[CS := flat 8]> (b_seg s))
      (set_b_cr0 (Z.lor (b_cr0 s) 1) (set_b_eax e (set_b_gdtr (lb_gdt lb, 23) s))))) /\
    gdt_loaded (lb_gdt lb) (set_b_cr0 (Z.lor (b_cr0 s) 1) (set_b_gdtr (lb_gdt lb, 23) s)).
Proof.
  intros He Hg Hd Hi. exists (Z.lor (b_cr0 s) 1).
  assert (pg (set_b_cr0 (Z.lor (b_cr0 s) 1) s) = false) as Hg'.
  { unfold pg in *. cbn [b_cr0 set_b_cr0]. by rewrite Z.lor_spec, Hg. }
  assert (gdt_loaded (lb_gdt lb) (set_b_cr0 (Z.lor (b_cr0 s) 1) (set_b_gdtr (lb_gdt lb, 23) s))) as HG.
  { destruct Hi as [Hgd _ Hp _]. split; [|exact Hg'|done|done|lia].
    unfold pe. cbn [b_cr0 set_b_cr0]. rewrite Z.lor_spec. by rewrite orb_true_r. }
  split; [|done]. unfold to_protected. kstep_by ltac:(by apply lgdt16_ok).
  unfold movl_cr0_eax, orl_eax, movl_eax_cr0. kstep. kstep. cbn [b_eax set_b_eax set_b_cr0 b_cr0 set_b_gdtr].
  kstep_by ltac:(kstep; kstep; match goal with |- context [pg ?x] => change (pg x) with (pg (set_b_cr0 (Z.lor (b_cr0 s) 1) s)) end;
    rewrite Hg'; reflexivity).
  unfold ljmp. change (Z.shiftl SEG_KCODE 3) with 8.
  kstep_by ltac:(apply (load_seg_flat (lb_gdt lb) CS); by destruct HG). kstep.
  rewrite bool_decide_true; [by destruct s|]. destruct Hi as [_ _ _ H32]. unfold at_seg.
  cbn [b_seg set_b_seg id]. rewrite fn_lookup_insert. cbn [sc_last sc_base flat].
  rewrite (proj2 (Z.leb_le _ _)) by lia. rewrite Z.add_0_l, u32_id by lia. unfold translate.
  match goal with |- context [pg ?x] => change (pg x) with (pg (set_b_cr0 (Z.lor (b_cr0 s) 1) s)) end.
  rewrite Hg', a20_low by lia. done.
Qed.

(** A processor that has just entered 32-bit code. *)
Record enter32 (s s' : bcpu) : Prop := {
  e32_cr0 : b_cr0 s' = Z.lor (b_cr0 s) 1;
  e32_cr4 : b_cr4 s' = b_cr4 s;
  e32_mem : b_mem s' = b_mem s;
  e32_a20 : b_a20 s' = b_a20 s;
  e32_if : b_if s' = b_if s;
  e32_code : b_seg s' CS = flat 8;
  e32_data : forall r, r ∈ [DS; ES; SS] -> b_seg s' r = flat 16
}.

Lemma enter32_wp lb (rest : BC unit) Q s :
  pe s = false -> pg s = false -> b_seg s DS = real0 -> asm_image off lb (b_mem s) ->
  (forall s', enter32 s s' -> wp rest Q s') ->
  wp (to_protected off lb;; start32_segs off;; rest) Q s.
Proof.
  intros Hp Hg Hd Hi HQ. destruct (to_protected_ok lb s Hp Hg Hd Hi) as (e & E & HG).
  apply wp_bind. eexists tt, _. split; [exact E|]. apply wp_bind.
  match goal with |- wp _ _ ?s1 => destruct (start32_segs_ok (lb_gdt lb) s1) as [e2 E2];
    [by destruct HG|] end.
  eexists tt, _. split; [exact E2|]. apply HQ. split; try done.
  intros r Hr. rewrite !elem_of_cons, elem_of_nil in Hr. by destruct Hr as [->|[->|[->|[]]]].
Qed.

(** A call through the flat stack segment. *)
Lemma call_wp target ret Q s pa :
  b_seg s SS = flat 16 -> 0 <= u32 (b_esp s - 4) -> translate off s (u32 (b_esp s - 4)) = Some pa ->
  Q tt (set_b_eip target (set_b_esp (u32 (b_esp s - 4))
         (set_b_mem (store (pa + off) (le_enc 4 ret) (b_mem s)) s))) ->
  wp (call off target ret) Q s.
Proof.
  intros Hs Hlo Ht HQ. unfold call. wstep. apply wp_bind. pose proof (u32_range (b_esp s - 4)).
  eexists tt, _. split.
  - unfold wr_seg, at_seg. rewrite Hs. cbn [sc_last sc_base flat].
    rewrite (proj2 (Z.leb_le _ _)) by lia. rewrite Z.add_0_l, (u32_id (u32 _)), Ht by lia. reflexivity.
  - wstep. wstep. done.
Qed.

(** [bootasm.S] arrives in [bootmain] with the A20 line open, interrupts off,
    in protected mode with segments that cover all of memory. *)
Lemma bootasm_wp lb kdelay bm Q s :
  pe s = false -> pg s = false -> asm_image off lb (b_mem s) -> 4 <= lb_start lb < 65536 ->
  (forall s', pe s' = true -> pg s' = false -> b_if s' = false -> b_a20 s' = true ->
     b_cr4 s' = b_cr4 s -> b_seg s' CS = flat 8 -> (forall r, r ∈ [DS; ES; SS] -> b_seg s' r = flat 16) ->
     b_mem s' = store (lb_start lb - 4 + off) (le_enc 4 (lb_ret lb)) (b_mem s) ->
     b_eip s' = bm -> b_esp s' = lb_start lb - 4 -> Q tt s') ->
  wp (bootasm_start off lb kdelay bm) Q s.
Proof.
  intros Hp Hg Hi Hst HQ. unfold bootasm_start, cli. wstep.
  destruct (zero_segs_ok (set_b_if false s) Hp) as [e1 E1].
  apply wp_bind. eexists tt, _. split; [exact E1|].
  match goal with |- wp _ _ ?s1 => destruct (seta20_ok kdelay s1) as (e2 & n & E2) end.
  apply wp_bind. eexists tt, _. split; [exact E2|].
  apply enter32_wp; [done..|]. intros s1 [H0 H4 Hm Ha Hif Hc Hds]. bc_simpl.
  assert (pg s1 = false) as Hg1 by (unfold pg in *; rewrite H0, Z.lor_spec, Hg; done).
  unfold movl_esp. wstep. cbn [b_esp set_b_esp].
  eapply call_wp; [apply Hds; set_solver|apply u32_range|unfold translate|].
  { cbn [b_esp set_b_esp]. change (pg (set_b_esp (lb_start lb) s1)) with (pg s1).
    rewrite Hg1, u32_id, a20_low by lia. reflexivity. }
  cbn [b_esp set_b_esp]. rewrite u32_id by lia. apply HQ; try done; bc_simpl.
  - unfold pe. bc_simpl. rewrite H0, Z.lor_spec. by rewrite orb_true_r.
  - by rewrite Hm.
Qed.

Lemma page_base x : x mod 4096 = 0 -> 0 <= x < 2 ^ 32 -> Z.land x 4294963200 = x.
Proof.
  intros Hm Hx. apply Z.bits_inj'. intros n Hn. rewrite Z.land_spec.
  destruct (decide (n < 12)) as [H|H].
  - assert (Z.testbit x n = false) as ->; [|done].
    rewrite <- (Z.mod_pow2_bits_low x 12 n) by lia. change (2 ^ 12) with 4096. by rewrite Hm, Z.bits_0.
  - destruct (decide (n < 32)) as [H'|H'].
    + replace (Z.testbit 4294963200 n) with true; [by rewrite andb_true_r|].
      change 4294963200 with (Z.shiftl (Z.ones 20) 12). by rewrite Z.shiftl_spec, Z.ones_spec_low by lia.
    + rewrite (Z.bits_above_log2 x n); [done|lia|].
      destruct (decide (x = 0)) as [->|]; [cbn; lia|]. assert (Z.log2 x < 32); [apply Z.log2_lt_pow2; lia|lia].
Qed.

(** Turning on paging with the boot directory, as [entry.S] and
    [entryother.S] do. *)
Lemma paging_on next dir bits s :
  pe s = true -> pg s = false -> b_a20 s = true -> b_cr3 s = dir -> dir mod 4096 = 0 -> 0 <= dir < 2 ^ 32 ->
  Z.testbit (b_cr4 s) 4 = true -> dir_at off dir (b_mem s) ->
  0 <= next < 4194304 -> b_eax s = Z.lor (b_cr0 s) bits -> Z.testbit bits 31 = true ->
  movl_eax_cr0 off next s = Ret tt (set_b_cr0 (Z.lor (b_cr0 s) bits) s) /\
  boot_paging off dir (set_b_cr0 (Z.lor (b_cr0 s) bits) s).
Proof.
  intros Hp Hg Ha H3 Hm Hr H4 Hd Hn He Hb.
  assert (boot_paging off dir (set_b_cr0 (Z.lor (b_cr0 s) bits) s)) as HB.
  { split; try done; [|bc_simpl; rewrite H3; by apply page_base].
    unfold pg. bc_simpl. rewrite Z.lor_spec, Hb. apply orb_true_r. }
  split; [|done]. unfold movl_eax_cr0. kstep. kstep. rewrite He. unfold id.
  rewrite (boot_translate off dir) by (done || lia). rewrite (proj2 (Z.ltb_lt next _)) by lia.
  rewrite bool_decide_true by done. unfold pe in *. bc_simpl. rewrite Z.lor_spec, Hp. cbn [orb negb].
  by rewrite andb_false_r.
Qed.

(** [entry.S] arrives in [main]. *)
Lemma entry_wp next epd stack main Q s :
  pe s = true -> pg s = false -> b_a20 s = true -> v2p epd mod 4096 = 0 ->
  dir_at off (v2p epd) (b_mem s) -> 0 <= next < 4194304 ->
  (forall s', boot_paging off (v2p epd) s' -> Z.testbit (b_cr0 s') 16 = true -> b_if s' = b_if s ->
     b_seg s' = b_seg s -> b_mem s' = b_mem s -> b_eip s' = main -> b_esp s' = stack + KSTACKSIZE -> Q tt s') ->
  wp (entry_start off next epd stack main) Q s.
Proof.
  intros Hp Hg Ha Hm Hd Hn HQ.
  unfold entry_start, movl_cr4_eax, orl_eax, movl_eax_cr4, movl_eax, movl_eax_cr3, movl_cr0_eax. do 7 wstep.
  match goal with |- wp _ _ ?s1 => destruct (paging_on next (v2p epd) (Z.lor CR0_PG CR0_WP) s1) as [E HB];
    try done; [apply u32_range|bc_simpl; rewrite Z.lor_spec; apply orb_true_r|] end.
  apply wp_bind. eexists tt, _. split; [exact E|]. unfold movl_esp, jmp_eax. do 3 wstep.
  apply HQ; try done; [by destruct HB|]. bc_simpl. rewrite Z.lor_spec. apply orb_true_r.
Qed.
(** A load through a flat segment at a mapped address. *)
Lemma rd_seg_flat a n s pa :
  b_seg s DS = flat 16 -> 0 <= a < 2 ^ 32 -> translate off s a = Some pa ->
  rd_seg off DS a n s = Ret (le_dec (load (pa + off) n (b_mem s))) s.
Proof.
  intros Hd Ha Ht. unfold rd_seg, at_seg. rewrite Hd. cbn [sc_last sc_base flat].
  rewrite (proj2 (Z.leb_le a _)) by lia. by rewrite Z.add_0_l, u32_id, Ht by lia.
Qed.

(** [entryother.S] calls the function at [start-8] on the stack at [start-4],
    with the page directory at [start-12]. *)
Lemma entryother_wp lb Q s dir stk target :
  pe s = false -> pg s = false -> b_a20 s = true -> asm_image off lb (b_mem s) ->
  12 <= lb_start lb < 65536 -> 0 <= lb_paged lb < 4194304 ->
  le_dec (load (lb_start lb - 12 + off) 4 (b_mem s)) = dir ->
  le_dec (load (lb_start lb - 4 + off) 4 (b_mem s)) = stk ->
  le_dec (load (lb_start lb - 8 + off) 4 (b_mem s)) = target ->
  dir mod 4096 = 0 -> 0 <= dir < 2 ^ 32 -> dir_at off dir (b_mem s) ->
  KERNBASE + 4 <= stk <= KERNBASE + 4194304 ->
  (forall s', b_eip s' = target -> b_esp s' = stk - 4 -> b_if s' = false ->
     b_seg s' CS = flat 8 -> (forall r, r ∈ [DS; ES; SS] -> b_seg s' r = flat 16) ->
     b_mem s' = store (stk - 4 - KERNBASE + off) (le_enc 4 (lb_ret lb)) (b_mem s) ->
     boot_paging off dir (set_b_mem (b_mem s) s') -> Q tt s') ->
  wp (entryother_start off lb) Q s.
Proof.
  intros Hp Hg Ha Hi Hst Hpd Hdir Hstk Htg Hal Hdr Hda Hr HQ. unfold entryother_start, cli. wstep.
  destruct (zero_segs_ok (set_b_if false s) Hp) as [e1 E1].
  apply wp_bind. eexists tt, _. split; [exact E1|].
  apply enter32_wp; [done..|]. intros s1 [H0 H4 Hm Ha1 Hif Hc Hds]. bc_simpl.
  assert (pg s1 = false) as Hg1 by (unfold pg in *; rewrite H0, Z.lor_spec, Hg; done).
  assert (pe s1 = true) as Hp1 by (unfold pe; rewrite H0, Z.lor_spec; apply orb_true_r).
  unfold movl_cr4_eax, orl_eax, movl_eax_cr4, movl_eax, movl_eax_cr3, movl_cr0_eax. do 3 wstep.
  apply wp_bind. eexists _, _. split.
  { apply rd_seg_flat; [apply Hds; set_solver|lia|]. unfold translate.
    match goal with |- context [pg ?x] => change (pg x) with (pg s1) end. rewrite Hg1, a20_low by lia. reflexivity. }
  bc_simpl. rewrite Hm, Hdir. do 4 wstep.
  match goal with |- wp _ _ ?s2 =>
    destruct (paging_on (lb_paged lb) dir (Z.lor (Z.lor CR0_PE CR0_PG) CR0_WP) s2) as [E HB];
    try done; [by bc_simpl; rewrite Ha1|bc_simpl; rewrite Z.lor_spec; apply orb_true_r|bc_simpl; by rewrite Hm|] end.
  apply wp_bind. eexists tt, _. split; [exact E|].
  match type of HB with boot_paging _ _ ?x => set (s2 := x) in * end.
  assert (forall a, 0 <= a < 4194304 -> translate off s2 a = Some a) as Hlow.
  { intros a Hx. rewrite (boot_translate off dir) by (done || lia). by rewrite (proj2 (Z.ltb_lt a _)) by lia. }
  apply wp_bind. eexists _, _. split; [apply rd_seg_flat; [apply Hds; set_solver|lia|apply Hlow; lia]|].
  assert (b_mem s2 = b_mem s) as Em by done. rewrite Em, Hstk. unfold movl_esp. wstep.
  apply wp_bind. eexists _, _. split; [apply rd_seg_flat; [apply Hds; set_solver|lia|apply Hlow; lia]|].
  change (b_mem (set_b_esp stk s2)) with (b_mem s2). rewrite Em, Htg.
  assert (u32 (b_esp (set_b_esp stk s2) - 4) = stk - 4) as Eu by (bc_simpl; rewrite u32_id; unfold KERNBASE in *; lia).
  eapply call_wp; [apply Hds; set_solver|apply u32_range|rewrite Eu|].
  { change (translate off (set_b_esp stk s2)) with (translate off s2).
    rewrite (boot_translate off dir) by (done || unfold KERNBASE in *; lia).
    rewrite (proj2 (Z.ltb_ge _ _)), (proj2 (Z.leb_le _ _)), (proj2 (Z.ltb_lt _ _)) by (unfold KERNBASE in *; lia).
    reflexivity. }
  rewrite Eu. apply HQ; try done; [by rewrite <- Em|rewrite <- Em; by destruct HB].
Qed.
End Steps.

(** ** The boot processor *)

(** [bootmain] on the memory of the processor, and its jump to the entry point
    of the file, [_start], which is the physical address of [entry]. *)
Definition load_kernel (c : ctl) (entry : Z) : BC unit := fun s =>
  match bootmain (mkboot (b_mem s) c) with
  | Ret (Some e) b =>
      if e =? v2p entry then Ret tt (set_b_eip e (set_b_mem (bt_mem b) s)) else Undef s
  | _ => Undef s
  end.

Definition boot_cpu (lb : labels) (kdelay : nat) (c : ctl) (bm entry next epd stack main : Z) : BC unit :=
  bootasm_start 0 lb kdelay bm;;
  load_kernel c entry;;
  entry_start 0 next epd stack main.

(** The file has [bytes] in a segment that is loaded at [a]. *)
Definition file_has (d : gmap (Z * Z) (list Z)) (a : Z) (bytes : list Z) : Prop :=
  exists sg, sg ∈ segments d /\ sg_paddr sg <= a /\
    a + Z.of_nat (length bytes) <= sg_paddr sg + sg_filesz sg /\
    forall i : nat, (i < length bytes)%nat -> kbyte d (sg_off sg + (a - sg_paddr sg) + Z.of_nat i) = bytes !!! i.

Lemma file_has_loaded d a bytes m :
  file_has d a bytes -> Forall (fun sg => seg_loaded d sg (ldb m)) (segments d) ->
  load a (length bytes) m = bytes.
Proof.
  intros (sg & Hin & Hlo & Hhi & Hb) Hall. rewrite Forall_forall in Hall.
  specialize (Hall sg Hin). apply list_eq_same_length with (length bytes); [done|apply length_load|].
  intros i x y Hi Hx Hy. rewrite lookup_load in Hx by done. injection Hx as <-.
  replace (a + Z.of_nat i) with (sg_paddr sg + (a - sg_paddr sg + Z.of_nat i)) by lia.
  rewrite Hall, decide_True by lia. rewrite Z.add_assoc, Hb by done.
  by apply list_lookup_total_correct.
Qed.

(** C18: From the first instruction of the boot sector to [main]: the processor
    starts in real mode at the code of [bootasm.S]; [bootmain] loads the file
    from the disk, and [entry.S] runs with the page directory the file
    contains.  The processor arrives in [main], at its high address, with
    interrupts off and on the stack of the kernel, and the first 4 Mbytes of
    memory, the kernel among them, are mapped both where they are and at
    [KERNBASE]; nothing else is mapped. *)
Theorem boot_reaches_main lb kdelay c d bm entry next epd stack main s :
  pe s = false -> pg s = false -> asm_image 0 lb (b_mem s) -> 4 <= lb_start lb < 65536 ->
  c_cmd c = None -> c_disk c = d -> bootable d ->
  krd d 4 24 = v2p entry -> file_has d (v2p epd) entrypgdir_bytes -> v2p epd mod 4096 = 0 ->
  0 <= next < 4194304 ->
  wp (boot_cpu lb kdelay c bm entry next epd stack main) (fun _ s' =>
    b_eip s' = main /\ b_esp s' = stack + KSTACKSIZE /\ b_if s' = false /\
    Z.testbit (b_cr0 s') 16 = true /\
    b_seg s' CS = flat 8 /\ (forall r, r ∈ [DS; ES; SS] -> b_seg s' r = flat 16) /\
    forall va, 0 <= va < 2 ^ 32 ->
      translate 0 s' va =
        if va <? 4194304 then Some va
        else if (KERNBASE <=? va) && (va <? KERNBASE + 4194304) then Some (va - KERNBASE) else None) s.
Proof.
  intros Hp Hg Hi Hst Hq Hdk Hb He Hf Hal Hn. unfold boot_cpu. apply wp_bind.
  apply bootasm_wp; [done..|]. intros s1 Hp1 Hg1 Hif1 Ha1 _ Hc1 Hd1 _ _ _.
  destruct (bootmain_run d (mkboot (b_mem s1) c)) as (b & E & Hl & _); [by split|done|].
  apply wp_bind. eexists tt, _. split; [unfold load_kernel; by rewrite E, He, Z.eqb_refl|].
  apply entry_wp; [done..| |done|].
  - apply dir_at_load. rewrite Z.add_0_r, <- length_entrypgdir_bytes.
    by apply (file_has_loaded d).
  - intros s2 HB Hw Hif Hseg _ Hip Hsp. bc_simpl. rewrite Hseg, Hif. do 6 (split; [done|]).
    intros va Hva. by apply (boot_translate 0 (v2p epd)).
Qed.

(** *** A disk whose kernel is its page directory *)

Definition pgdir_header : list Z :=
  le_enc 4 ELF_MAGIC ++ replicate 20 0 ++ le_enc 4 1048588 ++ le_enc 4 52 ++ replicate 12 0 ++
  le_enc 2 1 ++ replicate 6 0 ++ demo_ph 512 1048576 4096 8192.
Definition pgdir_sector (k : nat) : list Z := take 512 (drop (512 * k) entrypgdir_bytes).
Definition pgdir_disk : gmap (Z * Z) (list Z) :=
  list_to_map (((0, 1), pgdir_header ++ replicate 428 0) ::
    map (fun k : nat => ((0, 2 + Z.of_nat k), pgdir_sector k)) (seq 0 8)).

Lemma pgdir_disk_at k : (k < 8)%nat -> sect pgdir_disk (2 + Z.of_nat k) = pgdir_sector k.
Proof. intros Hk. do 8 (destruct k as [|k]; [reflexivity|]). lia. Qed.

Lemma pgdir_sectors : sectors_ok pgdir_disk.
Proof.
  intros n. unfold sect. destruct (pgdir_disk !! (0, n)) as [l|] eqn:E; [|reflexivity].
  apply elem_of_list_to_map_2 in E. cbn [default]. apply elem_of_cons in E as [E|E].
  - by injection E as -> ->.
  - apply list_elem_of_fmap in E as (k & E & Hk%elem_of_seq). injection E as -> ->.
    unfold pgdir_sector, id. rewrite length_take, length_drop, length_entrypgdir_bytes.
    change (Z.to_nat SECTSIZE) with 512%nat. lia.
Qed.

Lemma pgdir_segments : segments pgdir_disk = [mkseg 512 1048576 4096 8192].
Proof. vm_compute. reflexivity. Qed.

Lemma pgdir_bootable : bootable pgdir_disk.
Proof.
  split.
  - apply pgdir_sectors.
  - vm_compute. reflexivity.
  - vm_compute. repeat split; congruence.
  - rewrite pgdir_segments. apply Forall_singleton.
    split; [repeat split; vm_compute; congruence|]; split; [vm_compute; congruence|].
    intros a Ha. unfold touches. cbn [sg_paddr sg_off]. unfold SCRATCH in Ha.
    change (seg_lo 1048576 512) with 1048576. lia.
  - rewrite pgdir_segments. split; [|done]. intros sg' i Hin. by apply elem_of_nil in Hin.
Qed.

Lemma pgdir_file : file_has pgdir_disk 1048576 entrypgdir_bytes.
Proof.
  exists (mkseg 512 1048576 4096 8192). rewrite pgdir_segments, length_entrypgdir_bytes.
  split; [set_solver|]. cbn [sg_paddr sg_filesz sg_off]. split; [lia|]. split; [lia|].
  intros i Hi. unfold kbyte. unfold SECTSIZE.
  replace (512 + (1048576 - 1048576) + Z.of_nat i) with (Z.of_nat i + 1 * 512) by lia.
  rewrite Z.div_add, Z_mod_plus_full by lia.
  change 512 with (Z.of_nat 512). rewrite <- Nat2Z.inj_div, <- Nat2Z.inj_mod.
  replace (Z.of_nat (i / 512) + 1 + 1) with (2 + Z.of_nat (i / 512)) by lia.
  rewrite pgdir_disk_at by (apply Nat.Div0.div_lt_upper_bound; lia). unfold pgdir_sector.
  pose proof (Nat.mod_upper_bound i 512 ltac:(lia)).
  rewrite lookup_take_lt, lookup_drop, Nat2Z.id by lia. rewrite <- Nat.div_mod_eq.
  destruct (lookup_lt_is_Some_2 entrypgdir_bytes i) as [x Hx]; [by rewrite length_entrypgdir_bytes|].
  by rewrite Hx, (list_lookup_total_correct _ _ _ Hx).
Qed.

Definition boot_labels : labels := mklabels 31744 31800 32000 32024 31850 31860.
Definition reset_cpu (m : mem) : bcpu :=
  mkbcpu true 0 0 31744 16 0 0 (0, 0) (fun _ => mkscache 0 0 65535) false 3 false m.
Definition boot_sector : mem :=
  store 32024 (gdtdesc_data boot_labels) (store 32000 gdt_data ∅).

Lemma boot_reaches_main_witness :
  exists s', boot_cpu boot_labels 2 (mkctl pgdir_disk 0 0 0 0 None []) 31900 2148532236 1048620
      2148532224 2148600000 2148550000 (reset_cpu boot_sector) = Ret tt s' /\
    b_eip s' = 2148550000 /\ translate 0 s' 2148550000 = Some 1066352.
Proof.
  destruct (boot_reaches_main boot_labels 2 (mkctl pgdir_disk 0 0 0 0 None []) pgdir_disk 31900 2148532236
    1048620 2148532224 2148600000 2148550000 (reset_cpu boot_sector)) as ([] & s' & E & Hip & _ & _ & _ & _ & _ & Ht).
  - reflexivity.
  - reflexivity.
  - split; [vm_compute; reflexivity..| |]; vm_compute; repeat split; congruence.
  - vm_compute. split; congruence.
  - reflexivity.
  - reflexivity.
  - exact pgdir_bootable.
  - vm_compute. reflexivity.
  - exact pgdir_file.
  - reflexivity.
  - lia.
  - exists s'. split; [exact E|]. split; [exact Hip|]. rewrite Ht by lia. reflexivity.
Defined.
