(* ===== verification/Startothers.v ===== *)
(** * Starting the other processors ([startothers] of [main.c])

    The boot processor copies the code of [entryother.S] to low memory, writes a
    stack, an entry point and a page directory below it and sends the startup
    interrupt through its local APIC.  The processor the interrupt names starts
    in real mode at the page the interrupt names and runs [entryother.S] on the
    memory of the kernel.  The state is the kernel's, the devices', and the
    processors that have arrived in [mpenter]. *)

From S2P Require Import Prelude Monad State Strings Layout Bio Exec Ide Kalloc Vm VmSpec.
From S2P Require Import Bootmain.
From S2P Require Import Process Segments Mp Irq Asm Boot.

Record world := mkworld {
  w_k : kstate;
  w_hw : hw;
  w_up : list (Z * bcpu)
}.
Definition set_w_k v w := mkworld v (w_hw w) (w_up w).
Definition set_w_hw v w := mkworld (w_k w) v (w_up w).
Definition set_w_up v w := mkworld (w_k w) (w_hw w) v.

Abbreviation W := (M world).

(** Code of the kernel, and of the device drivers, run on its part of the
    state. *)
Fixpoint lift_k {A} (o : outcome kstate A) (w : world) : outcome world A :=
  match o with
  | Ret a s => Ret a (set_w_k s w)
  | Panic m s => Panic m (set_w_k s w)
  | Undef s => Undef (set_w_k s w)
  | NoFuel s => NoFuel (set_w_k s w)
  | Switch s k => Switch (set_w_k s w) (fun w' => lift_k (k (w_k w')) w')
  end.
Fixpoint lift_hw {A} (o : outcome hw A) (w : world) : outcome world A :=
  match o with
  | Ret a s => Ret a (set_w_hw s w)
  | Panic m s => Panic m (set_w_hw s w)
  | Undef s => Undef (set_w_hw s w)
  | NoFuel s => NoFuel (set_w_hw s w)
  | Switch s k => Switch (set_w_hw s w) (fun w' => lift_hw (k (w_hw w')) w')
  end.
Definition kern {A} (m : K A) : W A := fun w => lift_k (m (w_k w)) w.
Definition dev {A} (m : HW A) : W A := fun w => lift_hw (m (w_hw w)) w.

Definition upd_mem (f : mem -> mem) : W unit :=
  modify (fun w => set_w_k (set_k_mem (f (k_mem (w_k w))) (w_k w)) w).

Section Startothers.
Context {KI : KernelImage}.

(** The labels of [entryother.S], which is linked to run at its [start]; the
    state a processor is in when the startup interrupt reaches it; the array
    [cpus] and its length [ncpu]; the addresses of the embedded code, of
    [mpenter] and of [entrypgdir]. *)
Context (lb : labels) (reset : Z -> bcpu) (cpus : list Z).
Context (entryother_start_addr entryother_size mpenter entrypgdir_addr : Z).

(** The processor the interrupt command register names starts at the page whose
    number is in the command, and runs until it is in [mpenter]; [startothers]
    waits until it has set [started], a little later. *)
Definition ap_runs : W unit := fun w =>
  let icr i := default 0 (h_lregs (w_hw w) !! i) in
  let id := Z.shiftr (icr L_ICRHI) 24 in
  if Z.shiftl (Z.land (icr L_ICRLO) 255) 12 =? lb_start lb then
    match entryother_start KERNBASE lb (set_b_mem (k_mem (w_k w)) (reset id)) with
    | Ret _ c => Ret tt (set_w_up (w_up w ++ [(id, c)]) (set_w_k (set_k_mem (b_mem c) (w_k w)) w))
    | _ => Undef w
    end
  else Undef w.

Definition start_one (c : nat) : W unit :=
  let code := p2v 28672 in
  self ← dev cpunum;
  if Z.of_nat c =? self then mret tt
  else
    stack ← kern kalloc;
    upd_mem (stw (code - 4) (u32 (stack + KSTACKSIZE)));;
    upd_mem (stw (code - 8) mpenter);;
    upd_mem (stw (code - 12) (v2p entrypgdir_addr));;
    dev (lapicstartap (cpus !!! c) (v2p code));;
    ap_runs.

Definition startothers (ncpu : nat) : W unit :=
  upd_mem (memmove (p2v 28672) entryother_start_addr entryother_size);;
  for_each (seq 0 ncpu) start_one.

(** ** What has to be in place *)

(** The linker's part: where [entryother.S] runs, its data in the embedded
    copy, the page directory in the kernel's data, below [end]. *)
Record setup (m : mem) : Prop := {
  su_start : lb_start lb = 28672;
  su_labels : 28672 <= lb_gdt lb /\ 0 <= lb_paged lb < 4194304;
  su_size : 0 <= entryother_size <= 36864 /\ lb_gdtdesc lb + 6 <= 28672 + entryother_size;
  su_image : asm_image (entryother_start_addr - 28672) lb m;
  su_kernel : KERNLINK <= entrypgdir_addr /\ entrypgdir_addr + 4096 <= img_end;
  su_aligned : v2p entrypgdir_addr mod 4096 = 0 /\ entrypgdir_addr < 2 ^ 32;
  su_dir : dir_at KERNBASE (v2p entrypgdir_addr) m;
  su_mpenter : 0 <= mpenter < 2 ^ 32;
  su_reset : forall id, pe (reset id) = false /\ pg (reset id) = false /\ b_a20 (reset id) = true
}.

(** The state between two processors: [l] are the free pages, all of them in
    the first 4 Mbytes, which is what [kinit1] has given the allocator. *)
Record ready (self : Z) (l : list Z) (w : world) : Prop := {
  rd_kmem : kmem_inv (w_k w) l;
  rd_held : LkKmem ∉ k_held (w_k w);
  rd_low : Forall (fun v => v + 4096 <= KERNBASE + 4194304) l;
  rd_image : asm_image KERNBASE lb (k_mem (w_k w));
  rd_dir : dir_at KERNBASE (v2p entrypgdir_addr) (k_mem (w_k w));
  rd_self : h_lapic (w_hw w) <> 0 /\ Z.shiftr (default 0 (h_lregs (w_hw w) !! L_ID)) 24 = self
}.

(** A processor in [mpenter], on the stack in page [v]. *)
Record in_mpenter (v : Z) (c : bcpu) : Prop := {
  im_eip : b_eip c = mpenter;
  im_esp : b_esp c = v + KSTACKSIZE - 4;
  im_if : b_if c = false;
  im_segs : b_seg c CS = flat 8 /\ forall r, r ∈ [DS; ES; SS] -> b_seg c r = flat 16;
  im_map : forall va, KERNBASE <= va < KERNBASE + 4194304 -> translate KERNBASE c va = Some (va - KERNBASE)
}.

(** ** Memory *)

Lemma flist_keep m m' r l :
  (forall v, v ∈ l -> ldw m' v = ldw m v) -> flist m r l -> flist m' r l.
Proof.
  revert r. induction l as [|v l IH]; intros r H; [done|]. intros (-> & Hv & Hl).
  split; [done|]. split; [done|]. rewrite H by set_solver. apply IH; [set_solver|done].
Qed.

Lemma asm_image_agree off m m' :
  asm_image off lb m ->
  (forall a, lb_gdt lb + off <= a < lb_gdtdesc lb + 6 + off -> m' !! a = m !! a) -> asm_image off lb m'.
Proof.
  intros [Hg Hd Hp H32] Ha. split; [|..|done|done].
  - rewrite <- Hg. apply load_agree. intros x Hx. apply Ha. lia.
  - rewrite <- Hd. apply load_agree. intros x Hx. apply Ha. lia.
Qed.

Lemma dir_at_agree off dir m m' :
  dir_at off dir m -> (forall a, dir + off <= a < dir + 4096 + off -> m' !! a = m !! a) -> dir_at off dir m'.
Proof.
  intros Hd Ha i Hi. rewrite <- Hd by done. f_equal. apply load_agree. intros x Hx. apply Ha. lia.
Qed.

(** The copied code has the data of [entryother.S]. *)
Lemma image_copied m :
  setup m -> asm_image KERNBASE lb (memmove (p2v 28672) entryother_start_addr entryother_size m).
Proof.
  intros [_ [Hg0 _] [Hsz Hend] [Hg Hd Hp H32] _ _ _ _ _]. change (p2v 28672) with (KERNBASE + 28672).
  rewrite memmove_ok by lia.
  assert (forall k n, 0 <= k -> k + Z.of_nat n <= entryother_size ->
    load (KERNBASE + 28672 + k) n (store (KERNBASE + 28672) (load entryother_start_addr (Z.to_nat entryother_size) m) m)
    = load (entryother_start_addr + k) n m) as Hc.
  { intros k n Hk Hn. replace k with (Z.of_nat (Z.to_nat k)) by lia.
    rewrite !(load_part _ (Z.to_nat entryother_size)) by lia. do 2 f_equal.
    rewrite <- (length_load entryother_start_addr (Z.to_nat entryother_size) m) at 1. apply load_store. }
  split; [|..|done|done].
  - replace (lb_gdt lb + KERNBASE) with (KERNBASE + 28672 + (lb_gdt lb - 28672)) by lia.
    rewrite Hc by lia. rewrite <- Hg. f_equal. lia.
  - replace (lb_gdtdesc lb + KERNBASE) with (KERNBASE + 28672 + (lb_gdtdesc lb - 28672)) by lia.
    rewrite Hc by lia. rewrite <- Hd. f_equal. lia.
Qed.

(** ** One processor *)

Lemma lapicstartap_ok cpu addr h :
  0 <= cpu < 256 -> 0 <= addr < 2 ^ 20 ->
  exists h', lapicstartap cpu addr h = Ret tt h' /\ h_lapic h' = h_lapic h /\
    h_lregs h' !! L_ID = h_lregs h !! L_ID /\
    Z.shiftr (default 0 (h_lregs h' !! L_ICRHI)) 24 = cpu /\
    Z.land (default 0 (h_lregs h' !! L_ICRLO)) 255 = Z.shiftr addr 12.
Proof.
  intros Hid Ha. eexists. split; [reflexivity|]. split; [reflexivity|].
  split; [|split].
  - cbn [h_lregs lapic_store]. by rewrite !lookup_insert_ne.
  - cbn [h_lregs lapic_store]. rewrite lookup_insert_ne, lookup_insert_eq by done. cbn [default].
    unfold id. rewrite Z.shiftl_mul_pow2, u32_id, Z.shiftr_div_pow2 by lia. apply Z.div_mul. lia.
  - cbn [h_lregs lapic_store]. rewrite lookup_insert_eq. cbn [default]. unfold id.
    assert (0 <= Z.shiftr addr 12 < 256) as Hs.
    { rewrite Z.shiftr_div_pow2 by lia. split; [apply Z.div_pos; lia|apply Z.div_lt_upper_bound; lia]. }
    unfold u32. change 255 with (Z.ones 8). rewrite !Z.land_ones by lia.
    rewrite <- Z.land_ones by lia. rewrite <- (Z.land_ones _ 32) by lia.
    rewrite <- Z.land_assoc. change (Z.land (Z.ones 32) (Z.ones 8)) with (Z.ones 8).
    rewrite Z.land_lor_distr_l. change (Z.land STARTUP (Z.ones 8)) with 0.
    rewrite Z.lor_0_l, Z.land_ones by lia. by apply Z.mod_small.
Qed.

(** The words below the code. *)
Definition boot_words (stack : Z) (m : mem) : mem :=
  stw (KERNBASE + 28660) (v2p entrypgdir_addr)
    (stw (KERNBASE + 28664) mpenter (stw (KERNBASE + 28668) (u32 (stack + KSTACKSIZE)) m)).

Lemma boot_words_out stack m a :
  ~ (KERNBASE + 28660 <= a < KERNBASE + 28672) -> boot_words stack m !! a = m !! a.
Proof. intros H. unfold boot_words. by rewrite !stw_out by lia. Qed.

Lemma boot_words_at stack m :
  0 <= mpenter < 2 ^ 32 ->
  ldw (boot_words stack m) (KERNBASE + 28668) = u32 (stack + KSTACKSIZE) /\
  ldw (boot_words stack m) (KERNBASE + 28664) = mpenter /\
  ldw (boot_words stack m) (KERNBASE + 28660) = v2p entrypgdir_addr.
Proof.
  intros Hm. unfold boot_words. split; [|split].
  - rewrite !ldw_stw_ne, ldw_stw by lia. apply u32_id, u32_range.
  - rewrite ldw_stw_ne, ldw_stw by lia. by apply u32_id.
  - rewrite ldw_stw. apply u32_id, u32_range.
Qed.

(** Memory after a processor has been started on page [v]: the words below the
    code, and the return address on the new stack. *)
Definition started (v : Z) (m : mem) : mem :=
  store (v + KSTACKSIZE - 4) (le_enc 4 (lb_ret lb)) (boot_words v m).

Lemma started_out v m a :
  ~ (KERNBASE + 28660 <= a < KERNBASE + 28672) -> ~ (v <= a < v + 4096) -> started v m !! a = m !! a.
Proof.
  intros H1 H2. unfold started. rewrite lookup_store, length_le_enc, decide_False.
  - by apply boot_words_out.
  - unfold KSTACKSIZE. lia.
Qed.

Lemma ready_after m0 self v l w h' :
  setup m0 -> ready self (v :: l) w -> h_lapic h' = h_lapic (w_hw w) ->
  h_lregs h' !! L_ID = h_lregs (w_hw w) !! L_ID ->
  forall up, ready self l (mkworld (set_k_mem (started v (k_mem (w_k w)))
    (set_k_freelist (ldw (k_mem (w_k w)) v) (w_k w))) h' up).
Proof.
  intros [_ [Hg0 _] [Hsz Hend] _ [Hk1 Hk2] [Hal1 Hal2] _ _ _] [[Hf Hnd] Hh Hl Hi Hd [Hs1 Hs2]] E1 E2 up.
  destruct Hf as (Ef & Hv & Hf). apply NoDup_cons in Hnd as [Hnv Hnd]. apply Forall_cons in Hl as [Hlv Hl].
  assert (KERNLINK + 4096 <= v) as Hv1 by (destruct Hv; lia).
  assert (forall u, u ∈ l -> page u) as Hpg.
  { clear -Hf. revert Hf. generalize (ldw (k_mem (w_k w)) v). induction l as [|x l IH]; intros r; [set_solver|].
    intros (_ & Hx & Hl) u [->|Hu]%elem_of_cons; [done|by apply (IH _ Hl)]. }
  unfold KERNLINK, EXTMEM in *. destruct Hi as [Hgd Hds Hpos H32] eqn:Ei.
  split; cbn [w_k w_hw]; [split; [|done]|done|done|..].
  - apply (flist_keep (k_mem (w_k w))); [|done]. intros u Hu. apply ldw_agree. intros x Hx.
    pose proof (Hpg u Hu) as Hpu. destruct (page_disjoint v u) as [H|H]; [done|done|set_solver|..];
      unfold PGSIZE in H; (apply started_out; [destruct Hpu as (_ & ? & _); lia|lia]).
  - apply (asm_image_agree KERNBASE (k_mem (w_k w))); [done|]. intros a Ha. apply started_out; lia.
  - apply (dir_at_agree KERNBASE _ (k_mem (w_k w))); [done|]. intros a Ha.
    assert (v2p entrypgdir_addr = entrypgdir_addr - KERNBASE) as Ev by (apply u32_id; unfold KERNBASE in *; lia).
    destruct Hv as (_ & Hv & _). apply started_out; unfold PGSIZE in *; lia.
  - split; [by rewrite E1|by rewrite E2].
Qed.

(** The processor that the startup interrupt reaches. *)
Lemma ap_runs_ok self v l m0 w h' id :
  setup m0 -> ready self (v :: l) w ->
  Z.shiftr (default 0 (h_lregs h' !! L_ICRHI)) 24 = id ->
  Z.land (default 0 (h_lregs h' !! L_ICRLO)) 255 = Z.shiftr 28672 12 ->
  forall s1, k_mem s1 = boot_words v (k_mem (w_k w)) ->
  exists c, in_mpenter v c /\
    ap_runs (mkworld s1 h' (w_up w)) =
      Ret tt (mkworld (set_k_mem (started v (k_mem (w_k w))) s1) h' (w_up w ++ [(id, c)])).
Proof.
  intros Hsu Hrd Hhi Hlo s1 Em. pose proof Hsu as [Hst [Hg0 Hpd] [Hsz Hend] _ [Hk1 Hk2] [Hal1 Hal2] _ Hmp Hrs].
  destruct (Hrs id) as (Hpe & Hpg & Ha20). destruct Hrd as [[(_ & Hv & _) _] _ [Hlow _]%Forall_cons Hi Hd _].
  destruct (boot_words_at v (k_mem (w_k w)) Hmp) as (Ew1 & Ew2 & Ew3). unfold ldw in Ew1, Ew2, Ew3.
  assert (v2p entrypgdir_addr = entrypgdir_addr - KERNBASE) as Ev
    by (apply u32_id; unfold KERNLINK, EXTMEM, KERNBASE in *; lia).
  assert (KERNLINK <= v) as Hv1 by (destruct Hv; lia). unfold KERNLINK, EXTMEM in *.
  unfold ap_runs. cbn [w_k w_hw w_up set_w_up set_w_k]. rewrite Hhi, Hlo, Hst. change (Z.shiftl (Z.shiftr 28672 12) 12 =? 28672) with true.
  destruct (entryother_wp KERNBASE lb (fun _ c => in_mpenter v c /\ b_mem c = started v (k_mem (w_k w)))
    (set_b_mem (k_mem s1) (reset id)) (v2p entrypgdir_addr) (v + KSTACKSIZE) mpenter)
    as ([] & c & E & Hc & Hm); try done; bc_simpl; rewrite ?Em, ?Hst.
  - destruct Hi as [? ? ? ?]. by apply (asm_image_agree KERNBASE (k_mem (w_k w))); [|intros a Ha; apply boot_words_out; lia].
  - lia.
  - exact Ew3.
  - rewrite (u32_id (v + _)) in Ew1 by (unfold KSTACKSIZE, KERNBASE in *; lia). exact Ew1.
  - exact Ew2.
  - apply u32_range.
  - apply (dir_at_agree KERNBASE _ (k_mem (w_k w))); [done|]. intros a Ha. apply boot_words_out. lia.
  - unfold KSTACKSIZE, KERNBASE in *. lia.
  - intros c Hip Hsp Hif Hcs Hds Hmem HB. assert (b_mem c = started v (k_mem (w_k w))) as Hmem'.
    { rewrite Hmem. unfold started. f_equal. lia. }
    split; [|done]. split; [done|done|done|done|]. intros va Hva.
    rewrite (boot_translate KERNBASE (v2p entrypgdir_addr)); [|destruct HB; split; try done; bc_simpl|unfold KERNBASE in *; lia].
    + rewrite (proj2 (Z.ltb_ge _ _)), (proj2 (Z.leb_le _ _)), (proj2 (Z.ltb_lt _ _)) by (unfold KERNBASE in *; lia). done.
    + rewrite Hmem'. apply (dir_at_agree KERNBASE _ (k_mem (w_k w))); [done|]. intros a Ha.
      destruct Hv as (_ & Hv & _). apply started_out; lia.
  - exists c. split; [done|]. rewrite <- Em, E, Hm. reflexivity.
Qed.

Lemma start_one_ok self v l m0 w c :
  setup m0 -> ready self (v :: l) w -> Z.of_nat c <> self -> 0 <= cpus !!! c < 256 ->
  wp (start_one c) (fun _ w' => ready self l w' /\
    exists cpu, w_up w' = w_up w ++ [(cpus !!! c, cpu)] /\ in_mpenter v cpu) w.
Proof.
  intros Hsu Hrd Hc Hid. pose proof Hrd as [[(Ef & Hv & _) _] Hh _ _ _ [Hs1 Hs2]].
  assert (cpunum (w_hw w) = Ret self (w_hw w)) as Ec.
  { unfold cpunum. kstep. rewrite (proj2 (Z.eqb_neq _ _) Hs1). cbn [negb]. kstep. by rewrite Hs2. }
  assert (kalloc (w_k w) = Ret v (set_k_freelist (ldw (k_mem (w_k w)) v) (w_k w))) as Ek.
  { rewrite kalloc_run by done. rewrite Ef, (proj2 (Z.eqb_neq v 0)); [done|]. destruct Hv. lia. }
  unfold start_one. apply wp_bind. eexists self, w. split; [unfold dev; rewrite Ec; by destruct w|].
  rewrite (proj2 (Z.eqb_neq _ _) Hc). apply wp_bind. eexists v, _. split; [unfold kern; by rewrite Ek|].
  unfold upd_mem. do 3 wstep. change (v2p (p2v 28672)) with 28672. change (p2v 28672) with (KERNBASE + 28672).
  destruct (lapicstartap_ok (cpus !!! c) 28672 (w_hw w)) as (h' & Eh & E1 & E2 & E3 & E4); [done|lia|].
  apply wp_bind. eexists tt, _. split; [unfold dev; cbn [w_hw set_w_k]; by rewrite Eh|].
  match goal with |- wp _ _ ?w1 => set (s1 := w_k w1) end.
  destruct (ap_runs_ok self v l m0 w h' (cpus !!! c) Hsu Hrd E3 E4 s1 eq_refl) as (cpu & Hcpu & Er).
  eexists tt, _. split; [exact Er|]. split; [|by exists cpu].
  pose proof (ready_after m0 self v l w h' Hsu Hrd E1 E2 (w_up w ++ [(cpus !!! c, cpu)])) as H. exact H.
Qed.

(** The processors [startothers] starts. *)
Definition others (self : Z) (ncpu : nat) : list nat :=
  filter (fun c => Z.of_nat c <> self) (seq 0 ncpu).

Lemma start_all_ok self m0 cs l w :
  setup m0 -> ready self l w -> Forall (fun c => 0 <= cpus !!! c < 256) cs ->
  let os := filter (fun c => Z.of_nat c <> self) cs in
  (length os <= length l)%nat ->
  wp (for_each cs start_one) (fun _ w' => ready self (drop (length os) l) w' /\
    exists ps, w_up w' = w_up w ++ ps /\
      Forall2 (fun c p => fst p = cpus !!! c) os ps /\
      Forall2 (fun v p => in_mpenter v (snd p)) (take (length os) l) ps) w.
Proof.
  intros Hsu. revert l w. induction cs as [|c cs IH]; intros l w Hrd Hid os Hlen; cbn [for_each].
  { wstep. split; [done|]. exists []. rewrite app_nil_r. split; [done|]. split; constructor. }
  apply Forall_cons in Hid as [Hc Hcs]. unfold os in *. rewrite filter_cons in *.
  apply wp_bind. destruct (decide (Z.of_nat c <> self)) as [Hne|He].
  - destruct l as [|v l]; [cbn in Hlen; lia|].
    eapply wp_mono; [by apply (start_one_ok self v l m0)|]. intros _ w1 (Hr1 & cpu & Eu & Hin).
    eapply wp_mono; [apply (IH l w1); [done|done|cbn in Hlen; lia]|].
    intros _ w2 (Hr2 & ps & Eu2 & H1 & H2). split; [done|]. exists ((cpus !!! c, cpu) :: ps).
    rewrite Eu2, Eu, <- app_assoc. split; [done|]. split; by constructor.
  - apply dec_stable in He.
    assert (start_one c w = Ret tt w) as E.
    { unfold start_one. pose proof Hrd as [_ _ _ _ _ [Hs1 Hs2]]. erewrite bind_Ret; cycle 1.
      - unfold dev, cpunum. erewrite bind_Ret by reflexivity. rewrite (proj2 (Z.eqb_neq _ _) Hs1). reflexivity.
      - cbn beta. rewrite Hs2, He, Z.eqb_refl. by destruct w. }
    exists tt, w. split; [done|]. by apply IH.
Qed.

(** Copying the code to low memory disturbs neither the free pages nor the page
    directory. *)
Lemma ready_copied self l w :
  setup (k_mem (w_k w)) -> kmem_inv (w_k w) l -> (LkKmem ∉ k_held (w_k w)) ->
  Forall (fun v => v + 4096 <= KERNBASE + 4194304) l -> h_lapic (w_hw w) <> 0 ->
  Z.shiftr (default 0 (h_lregs (w_hw w) !! L_ID)) 24 = self ->
  ready self l (set_w_k (set_k_mem (memmove (p2v 28672) entryother_start_addr entryother_size (k_mem (w_k w)))
    (w_k w)) w).
Proof.
  intros Hsu [Hf Hnd] Hh Hl H1 H2. pose proof Hsu as [_ _ [Hsz _] _ [Hk1 Hk2] [_ Hal2] Hd _ _].
  pose proof (image_copied _ Hsu) as Hi. revert Hi.
  change (p2v 28672) with (KERNBASE + 28672). rewrite memmove_ok by lia. intros Hi.
  set (m' := store _ _ _) in *.
  assert (forall a, KERNLINK <= a -> m' !! a = k_mem (w_k w) !! a) as Hout.
  { intros a Ha. unfold m'. rewrite lookup_store, length_load, decide_False; [done|].
    unfold KERNLINK, EXTMEM in *. lia. }
  split; cbn [w_k w_hw set_w_k]; [split; [|done]|done|done|done| |done].
  - apply (flist_keep (k_mem (w_k w))); [|done]. intros v Hv. apply ldw_agree. intros x Hx. apply Hout.
    clear -Hf Hv Hx Hk1 Hk2. revert Hf Hv. generalize (k_freelist (w_k w)).
    induction l as [|u l IH]; intros r; [set_solver|].
    intros (_ & (_ & Hu & _) & Hl) [->|Hv]%elem_of_cons; [lia|by apply (IH _ Hl)].
  - apply (dir_at_agree KERNBASE _ (k_mem (w_k w))); [done|]. intros a Ha. apply Hout.
    assert (v2p entrypgdir_addr = entrypgdir_addr - KERNBASE) as Ev
      by (apply u32_id; unfold KERNLINK, EXTMEM, KERNBASE in *; lia). lia.
Qed.

(** C19: [startothers] starts every processor of the table but its own, each
    once: the startup interrupt sends it to the copied code, and it arrives in
    [mpenter] in protected mode, interrupts off, on a stack in a page of its
    own that the allocator has handed out, with the kernel mapped at its high
    addresses.  It needs the free pages to be in the first 4 Mbytes, which is
    why [kinit2] comes after it. *)
Theorem startothers_starts self ncpu l w :
  setup (k_mem (w_k w)) -> kmem_inv (w_k w) l -> (LkKmem ∉ k_held (w_k w)) ->
  Forall (fun v => v + 4096 <= KERNBASE + 4194304) l -> h_lapic (w_hw w) <> 0 ->
  Z.shiftr (default 0 (h_lregs (w_hw w) !! L_ID)) 24 = self ->
  (forall c, (c < ncpu)%nat -> 0 <= cpus !!! c < 256) -> (length (others self ncpu) <= length l)%nat ->
  exists stacks free, l = stacks ++ free /\ NoDup stacks /\
    wp (startothers ncpu) (fun _ w' => kmem_inv (w_k w') free /\
      exists ps, w_up w' = w_up w ++ ps /\
        Forall2 (fun c p => fst p = cpus !!! c) (others self ncpu) ps /\
        Forall2 (fun v p => in_mpenter v (snd p)) stacks ps) w.
Proof.
  intros Hsu Hk Hh Hl H1 H2 Hid Hn. exists (take (length (others self ncpu)) l), (drop (length (others self ncpu)) l).
  split; [by rewrite take_drop|]. split; [eapply sublist_NoDup; [apply Hk|apply sublist_take]|].
  unfold startothers, upd_mem. wstep.
  eapply wp_mono; [apply (start_all_ok self (k_mem (w_k w)) (seq 0 ncpu) l); [done|by apply ready_copied| |done]|].
  - apply Forall_seq. intros c Hc. apply Hid. lia.
  - intros _ w' (Hr & ps & Eu & Hi1 & Hi2). split; [apply Hr|]. by exists ps.
Qed.
End Startothers.

(** ** Two processors and one free page *)

Definition ap_kernel : KernelImage := Build_KernelImage (KERNLINK + 8192) KERNLINK 0 0 [] [].
Definition ap_labels : labels := mklabels 28672 28700 28800 28824 28750 28760.
Definition ap_reset (_ : Z) : bcpu :=
  mkbcpu false 0 0 0 16 0 0 (0, 0) (fun _ => mkscache 0 0 65535) true 0 false ∅.
Definition ap_mem : mem :=
  store (KERNLINK + 4096 + 128) (gdt_data ++ gdtdesc_data ap_labels) (store KERNLINK entrypgdir_bytes ∅).
Definition ap_world : world :=
  let p := mkpic 0 false 0 0 0 0 in
  mkworld (set_k_freelist (KERNLINK + 8192) (set_k_mem ap_mem inhabitant))
    (mkhw p p (mkpit 0 None 0) (mkcom 0 0 0 0 0 0 []) ∅ 0 ∅ [] 0 ∅ (0, 0) 0 1 0 4276092928 0 0 []) [].

Lemma ap_setup : @setup ap_kernel ap_labels ap_reset (KERNLINK + 4096) 200 (KERNLINK + 12288) KERNLINK ap_mem.
Proof.
  split; [reflexivity|cbn; lia|cbn; lia| |cbn; lia|split; [reflexivity|vm_compute; reflexivity]| |vm_compute; split; congruence|
    intros id; repeat split; reflexivity].
  - split; [| |vm_compute; repeat split; congruence..].
    + unfold ap_mem. change (lb_gdt ap_labels + _) with (KERNLINK + 4096 + 128). rewrite store_app.
      change (KERNLINK + 4096 + 128 + Z.of_nat (length gdt_data)) with (KERNLINK + 4096 + 152).
      rewrite (load_agree _ _ (store (KERNLINK + 4096 + 128) gdt_data (store KERNLINK entrypgdir_bytes ∅)));
        [apply (load_store _ gdt_data)|].
      intros x Hx. rewrite lookup_store, decide_False; [done|lia].
    + unfold ap_mem. change (lb_gdtdesc ap_labels + _) with (KERNLINK + 4096 + 152). rewrite store_app.
      change (KERNLINK + 4096 + 128 + Z.of_nat (length gdt_data)) with (KERNLINK + 4096 + 152).
      apply (load_store _ (gdtdesc_data ap_labels)).
  - apply dir_at_load. change (v2p KERNLINK + KERNBASE) with KERNLINK. unfold ap_mem.
    rewrite (load_agree _ _ (store KERNLINK entrypgdir_bytes ∅)).
    + rewrite <- length_entrypgdir_bytes. apply load_store.
    + intros x Hx. rewrite lookup_store, decide_False; [done|lia].
Qed.

Lemma startothers_starts_witness :
  exists stacks free, [KERNLINK + 8192] = stacks ++ free /\ NoDup stacks /\
    wp (startothers ap_labels ap_reset [0; 1] (KERNLINK + 4096) 200 (KERNLINK + 12288) KERNLINK 2)
      (fun _ w' => @kmem_inv ap_kernel (w_k w') free /\
        exists ps, w_up w' = [] ++ ps /\ Forall2 (fun c p => fst p = [0; 1] !!! c) (others 0 2) ps /\
          Forall2 (fun v p => in_mpenter (KERNLINK + 12288) v (snd p)) stacks ps) ap_world.
Proof.
  apply (@startothers_starts ap_kernel ap_labels ap_reset [0; 1] (KERNLINK + 4096) 200 (KERNLINK + 12288) KERNLINK 0 2
    [KERNLINK + 8192] ap_world).
  - exact ap_setup.
  - split; [|apply NoDup_singleton]. split; [reflexivity|].
    split; [split; [done|]; repeat split; discriminate || reflexivity|]. 
    cbn [flist]. change (k_mem (w_k ap_world)) with ap_mem. unfold ap_mem.
    rewrite (ldw_agree _ ∅); [reflexivity|]. intros x Hx.
    rewrite !lookup_store, !decide_False; [done|rewrite length_entrypgdir_bytes; lia|].
    change (length (gdt_data ++ gdtdesc_data ap_labels)) with 30%nat. lia.
  - apply not_elem_of_nil.
  - apply Forall_singleton. vm_compute. congruence.
  - discriminate.
  - reflexivity.
  - intros c Hc. do 2 (destruct c as [|c]; [cbn; lia|]). lia.
  - vm_compute. lia.
Defined.
