(* ===== verification/IdeInit.v ===== *)
(** * Initialisation of the disks ([ideinit] and [idewait] of [ide.c], [ideinit]
    of [memide.c])

    The driver enables its interrupt line at both controllers, waits for the
    first disk and probes the second.  What the status register reads is a
    parameter, by the number of reads before. *)

From S2P Require Import Prelude Monad State Bio Syscall Ide Irq IrqProps.

Definition IDE_BSY : Z := 128.
Definition IDE_DRDY : Z := 64.
Definition IDE_DF : Z := 32.
Definition IDE_ERR : Z := 1.

(** The devices, the disk controller, [havedisk1], and the number of reads of
    the status register. *)
Record ideboot := mkideboot {
  ib_hw : hw;
  ib_ctl : ctl;
  havedisk1 : Z;
  ib_reads : nat
}.

Abbreviation IB := (M ideboot).

Section Ideinit.
Context (status : nat -> Z).

Definition ib_outb (port v : Z) : IB unit :=
  modify (fun s => mkideboot (ib_hw s) (outb port v (ib_ctl s)) (havedisk1 s) (ib_reads s)).
Definition inb_1f7 : IB Z := fun s =>
  Ret (status (ib_reads s)) (mkideboot (ib_hw s) (ib_ctl s) (havedisk1 s) (S (ib_reads s))).
(** A call into [picirq.c] or [ioapic.c], which return. *)
Definition ib_dev (m : HW unit) : IB unit := fun s =>
  match m (ib_hw s) with
  | Ret _ h => Ret tt (mkideboot h (ib_ctl s) (havedisk1 s) (ib_reads s))
  | Panic e h => Panic e s
  | _ => Undef s
  end.

Definition idewait (fuel : nat) (checkerr : bool) : IB Z :=
  loop fuel (fun _ : unit =>
    r ← inb_1f7;
    if negb (Z.land r (Z.lor IDE_BSY IDE_DRDY) =? IDE_DRDY) then mret (inl tt)
    else if checkerr && negb (Z.land r (Z.lor IDE_DF IDE_ERR) =? 0) then mret (inr (-1))
    else mret (inr 0)) tt.

Definition ideinit (fuel : nat) (ncpu : Z) : IB unit :=
  ib_dev (picenable IRQ_IDE);;
  ib_dev (ioapicenable IRQ_IDE (ncpu - 1));;
  idewait fuel false;;
  ib_outb 502 (Z.lor 224 (Z.shiftl 1 4));;
  scan (seq 0 1000) (fun _ =>
    r ← inb_1f7;
    if negb (r =? 0) then
      modify (fun s => mkideboot (ib_hw s) (ib_ctl s) 1 (ib_reads s));;
      mret (Some tt)
    else mret None);;
  ib_outb 502 (Z.lor 224 (Z.shiftl 0 4)).

(** The status register says that the disk is ready. *)
Definition drive_ready (r : Z) : bool := Z.land r (Z.lor IDE_BSY IDE_DRDY) =? IDE_DRDY.

Lemma idewait_run k s fuel :
  (forall i, (i < k)%nat -> drive_ready (status (ib_reads s + i)) = false) ->
  drive_ready (status (ib_reads s + k)) = true -> (k < fuel)%nat ->
  idewait fuel false s = Ret 0 (mkideboot (ib_hw s) (ib_ctl s) (havedisk1 s) (ib_reads s + k + 1)).
Proof.
  revert s fuel. induction k as [|k IH]; intros s fuel Hb Hr Hf; (destruct fuel as [|fuel]; [lia|]).
  - unfold idewait. apply loop_done. kstep. unfold drive_ready in Hr. rewrite Nat.add_0_r in Hr.
    rewrite Hr. cbn. do 2 f_equal. lia.
  - pose proof (Hb 0%nat ltac:(lia)) as H0. unfold drive_ready in H0. rewrite Nat.add_0_r in H0.
    unfold idewait. erewrite loop_next; [|kstep; rewrite H0; reflexivity].
    specialize (IH (mkideboot (ib_hw s) (ib_ctl s) (havedisk1 s) (S (ib_reads s))) fuel). cbn in IH.
    unfold idewait in IH. rewrite IH; [do 2 f_equal; lia|..|lia].
    + intros i Hi. rewrite <- Nat.add_succ_r. apply Hb. lia.
    + by rewrite <- Nat.add_succ_r.
Qed.

(** Whether one of [n] reads of the register finds something. *)
Fixpoint answered (n reads : nat) : bool :=
  match n with
  | O => false
  | S n' => negb (status reads =? 0) || answered n' (S reads)
  end.

Lemma answered_spec n reads :
  answered n reads = true <-> exists i, (i < n)%nat /\ status (reads + i) <> 0.
Proof.
  revert reads. induction n as [|n IH]; intros reads; cbn [answered].
  - split; [done|]. intros (i & Hi & _). lia.
  - rewrite orb_true_iff, negb_true_iff, Z.eqb_neq, IH. split.
    + intros [H|(i & Hi & H)]; [exists 0%nat|exists (S i)].
      * rewrite Nat.add_0_r. split; [lia|done].
      * rewrite Nat.add_succ_r. split; [lia|done].
    + intros ([|i] & Hi & H); [left; by rewrite Nat.add_0_r in H|right].
      exists i. rewrite Nat.add_succ_r in H. split; [lia|done].
Qed.

(** The probe stops at the first answer. *)
Lemma probe_run l s :
  exists reads, scan l (fun _ : nat =>
    r ← inb_1f7;
    if negb (r =? 0) then
      modify (fun s => mkideboot (ib_hw s) (ib_ctl s) 1 (ib_reads s));; mret (Some tt)
    else mret None) s =
    Ret (if answered (length l) (ib_reads s) then Some tt else None)
       (mkideboot (ib_hw s) (ib_ctl s) (if answered (length l) (ib_reads s) then 1 else havedisk1 s) reads).
Proof.
  revert s. induction l as [|x l IH]; intros s; cbn [scan length answered].
  - exists (ib_reads s). by destruct s.
  - destruct (Z.eqb_spec (status (ib_reads s)) 0) as [E|E].
    + destruct (IH (mkideboot (ib_hw s) (ib_ctl s) (havedisk1 s) (S (ib_reads s)))) as [reads Hr].
      exists reads. erewrite bind_Ret; [|kstep; rewrite E; reflexivity]. cbn beta iota. by rewrite Hr.
    + eexists. erewrite bind_Ret; [|kstep; rewrite (proj2 (Z.eqb_neq _ _) E); reflexivity]. reflexivity.
Qed.

(** [ideinit], on a machine whose controllers are set up and with a first disk
    that becomes ready: the line of the disk is open at both controllers and
    goes to the last processor, the first disk is selected, and [havedisk1]
    is set exactly if the second disk answers one of a thousand reads. *)
Theorem ideinit_probes k fuel ncpu n ens s :
  pics_ok (ib_hw s) -> routed n ens (ib_hw s) -> (IRQ_IDE ∉ ens.*1) -> havedisk1 s = 0 ->
  (forall i, (i < k)%nat -> drive_ready (status (ib_reads s + i)) = false) ->
  drive_ready (status (ib_reads s + k)) = true -> (k < fuel)%nat ->
  wp (ideinit fuel ncpu) (fun _ s' =>
    line_masked (ib_hw s') IRQ_IDE = false /\ routed n (ens ++ [(IRQ_IDE, ncpu - 1)]) (ib_hw s') /\
    fst (c_addr (ib_ctl s')) = 0 /\
    (havedisk1 s' = 1 <-> exists i, (i < 1000)%nat /\ status (ib_reads s + k + 1 + i) <> 0)) s.
Proof.
  intros Hp Hro Hn H1 Hb Hr Hf. unfold ideinit.
  destruct (picenable_run IRQ_IDE (ib_hw s)) as (h1 & E1 & Hp1 & Hl1); [unfold IRQ_IDE; lia|done|].
  assert (routed n ens h1 /\ h_ioregs h1 = h_ioregs (ib_hw s)) as [Hro1 _].
  { injection E1 as <-. split; [exact Hro|done]. }
  destruct (ioapicenable_run n ens IRQ_IDE (ncpu - 1) h1) as ([] & h2 & E2 & Hro2); [done|done|unfold IRQ_IDE; lia|].
  assert (h_pic1 h2 = h_pic1 h1 /\ h_pic2 h2 = h_pic2 h1) as [P1 P2].
  { revert E2. unfold ioapicenable. kstep. destruct (h_ismp h1 =? 0); intros E2; injection E2 as <-; done. }
  apply wp_bind. eexists tt, _. split; [unfold ib_dev; by rewrite E1|].
  apply wp_bind. eexists tt, _. split; [unfold ib_dev; cbn [ib_hw]; by rewrite E2|]. cbn [ib_ctl havedisk1 ib_reads].
  apply wp_bind. eexists _, _. split; [by apply (idewait_run k)|]. cbn [ib_hw ib_ctl havedisk1 ib_reads].
  unfold ib_outb. wstep.
  match goal with |- wp _ _ ?s1 => destruct (probe_run (seq 0 1000) s1) as [reads Es] end.
  apply wp_bind. eexists _, _. split; [exact Es|]. wstep. rewrite length_seq. cbn [ib_hw ib_ctl havedisk1 ib_reads].
  split; [|split; [done|split; [reflexivity|]]].
  - unfold line_masked. rewrite P1, P2. change (line_masked h1 IRQ_IDE = false).
    rewrite pics_ok_lines, Hl1 by (done || unfold IRQ_IDE; lia). rewrite Z.eqb_refl. apply andb_false_r.
  - rewrite <- answered_spec. destruct (answered 1000 (ib_reads s + k + 1)); [done|]. rewrite H1. done.
Qed.
End Ideinit.

(** ** The memory disk ([memide.c]) *)

(** [ideinit] for the image of the file system that is linked into the kernel:
    its sectors, and [disksize]. *)
Definition mem_ideinit (fs_img : list Z) : K unit :=
  let disksize := (length fs_img / 512)%nat in
  modify (set_k_disk (mkdisk
    (list_to_map (map (fun i : nat => (Z.of_nat i, take 512 (drop (512 * i) fs_img))) (seq 0 disksize)))
    (Z.of_nat disksize) [])).

(** The interrupt handler does nothing. *)
Definition mem_ideintr : K unit := mret tt.

Lemma mem_ideinit_sectors fs_img s n :
  (512 * S n <= length fs_img)%nat ->
  exists s', mem_ideinit fs_img s = Ret tt s' /\ Z.of_nat n < dk_size (k_disk s') /\
    blk (k_disk s') (Z.of_nat n) = take 512 (drop (512 * n) fs_img).
Proof.
  intros Hn. assert (n < length fs_img / 512)%nat as Hs by (apply Nat.div_le_lower_bound; lia).
  eexists. split; [reflexivity|]. kst_simpl. cbn [dk_size]. split; [lia|]. unfold blk. cbn [dk_blocks].
  erewrite elem_of_list_to_map_1; [reflexivity|..].
  - rewrite <- list_fmap_compose. apply (NoDup_fmap_2 Z.of_nat), NoDup_seq.
  - apply list_elem_of_fmap. exists n. split; [done|]. apply elem_of_seq. lia.
Qed.
