(* ===== verification/UserProgs.v ===== *)
(** * Programs that make processes ([init.c], [zombie.c], [forktest.c],
    [stressfs.c], [prog.c], [t.c], [check_pstat.c], [main] of [wc.c])

    As in [Utils.v] the programs are written against the system calls; the class
    [Procs] has those on processes, and [Children] what [init] and [forktest]
    rely on of [fork] and [wait].  [exec] gives [None] when it succeeds: the
    process runs another program then. *)

From S2P Require Import Prelude Monad State Strings Layout Inode Console Content ShParse Ulib.
From S2P Require Import Process Grep Utils.

Class Procs (W : Type) := {
  call_fork : M W Z;
  call_wait : M W Z;
  call_sleep : Z -> M W Z;
  call_exec : list Z -> list (list Z) -> M W (option Z);
  call_mknod : list Z -> Z -> Z -> M W Z;
  call_dup : Z -> M W Z;
  call_getpid : M W Z;
  call_pstat : Z -> M W (Z * procstat)
}.

Section Programs.
Context {W : Type} `{Sys W, Procs W}.

(** ** [init.c] *)

(** The setup of the descriptors. *)
Definition init_console : M W unit :=
  fd ← call_open (ch "console") O_RDWR;
  when (fd <? 0)
    (call_mknod (ch "console") 1 1;;
     call_open (ch "console") O_RDWR;;
     mret tt);;
  call_dup 0;;
  call_dup 0;;
  mret tt.

(** One round of its loop; [false] when it has called [exit] or runs the
    shell. *)
Definition init_round (fuel : nat) : M W bool :=
  print 1 (ch "init: starting sh" ++ nl) [];;
  call_sleep 10;;
  pid ← call_fork;
  if pid <? 0 then
    print 1 (ch "init: fork failed" ++ nl) [];;
    mret false
  else if pid =? 0 then
    r ← call_exec (ch "sh") [ch "sh"];
    match r with
    | None => mret false
    | Some _ =>
        print 1 (ch "init: exec sh failed" ++ nl) [];;
        mret false
    end
  else
    loop fuel (fun _ : unit =>
      wpid ← call_wait;
      if (0 <=? wpid) && negb (wpid =? pid) then
        print 1 (ch "zombie! pid =%d" ++ nl) [AInt pid];;
        mret (inl tt)
      else mret (inr true)) tt.

Definition init_main (rounds fuel : nat) : M W unit :=
  init_console;;
  loop rounds (fun _ : unit =>
    ok ← init_round fuel;
    mret (if ok : bool then inl tt else inr tt)) tt.

(** ** [zombie.c], [t.c] *)

Definition zombie_main : M W unit :=
  pid ← call_fork;
  when (0 <? pid) (call_sleep 5;; mret tt).

Definition t_main : M W unit :=
  call_kill 2;;
  call_sleep 1;;
  pid ← call_fork;
  if pid =? 0 then
    r ← call_exec (ch "cat") [ch "cat"];
    match r with
    | None => mret tt
    | Some _ => call_wait;; mret tt
    end
  else call_wait;; mret tt.

(** ** [forktest.c] *)

(** [N] of the source *)
Definition NFORK : nat := 1000.

(** Its own [printf] writes the string as it is. *)
Definition ft_printf (fd : Z) (s : list Z) : M W unit := call_write fd s;; mret tt.

(** The first loop: the number of children, or [None] in a child. *)
Definition ft_forks : M W (option nat) :=
  loop (S NFORK) (fun n =>
    if (n <? NFORK)%nat then
      pid ← call_fork;
      if pid <? 0 then mret (inr (Some n))
      else if pid =? 0 then mret (inr None)
      else mret (inl (S n))
    else mret (inr (Some n))) 0%nat.

Definition forktest : M W unit :=
  ft_printf 1 (ch "fork test" ++ nl);;
  r ← ft_forks;
  match r with
  | None => mret tt
  | Some n =>
      if (n =? NFORK)%nat then ft_printf 1 (ch "fork claimed to work N times!" ++ nl)
      else
        r ← scan (seq 0 n) (fun _ =>
          w ← call_wait;
          if w <? 0 then
            ft_printf 1 (ch "wait stopped early" ++ nl);;
            mret (Some tt)
          else mret None);
        match r with
        | Some _ => mret tt
        | None =>
            w ← call_wait;
            if negb (w =? -1) then ft_printf 1 (ch "wait got too many" ++ nl)
            else ft_printf 1 (ch "fork test OK" ++ nl)
        end
  end.

(** ** [stressfs.c] *)

(** [path[8] += i] on [stressfs0]. *)
Definition stress_path (i : Z) : list Z := ch "stressfs" ++ [s8 (48 + i)].

Definition stressfs_main : M W unit :=
  print 1 (ch "stressfs starting" ++ nl) [];;
  i ← loop 5 (fun i : nat =>
        if (i <? 4)%nat then
          pid ← call_fork;
          mret (if 0 <? pid then inr i else inl (S i))
        else mret (inr i)) 0%nat;
  print 1 (ch "write %d" ++ nl) [AInt (Z.of_nat i)];;
  let path := stress_path (Z.of_nat i) in
  fd ← call_open path (Z.lor O_CREATE O_RDWR);
  for_each (seq 0 20) (fun _ => call_write fd (replicate 512 97);; mret tt);;
  call_close fd;;
  print 1 (ch "read" ++ nl) [];;
  fd ← call_open path O_RDONLY;
  for_each (seq 0 20) (fun _ => call_read fd 512;; mret tt);;
  call_close fd;;
  call_wait;;
  mret tt.

(** ** [prog.c] *)

Definition BUFFER_SIZE : nat := 256.

(** [None] when there is no NUL in the buffer: the loop leaves it. *)
Fixpoint findLenghtOfInput (buf : list Z) : option nat :=
  match buf with
  | [] => None
  | b :: buf' => if b =? 0 then Some 0%nat else S <$> findLenghtOfInput buf'
  end.

Definition isExit (buf : list Z) : bool := bool_decide (take 4 buf = ch "exit").

(** [main]; the buffer is on the stack and starts with what is there.  [read]
    writes as many bytes as it returns. *)
Definition prog_main (fuel : nat) (buf : list Z) : M W Z :=
  loop fuel (fun buf =>
    '(n, l) ← call_read 0 (Z.of_nat BUFFER_SIZE);
    let buf := l ++ drop (length l) buf in
    if negb (n =? 0) && negb (isExit buf) then
      print 1 (ch "Entered argument from command line was : ") [];;
      match findLenghtOfInput buf with
      | None => undef
      | Some len =>
          for_each (take len buf) (fun c => print 1 (ch "%c") [AInt c]);;
          mret (inl buf)
      end
    else
      print 2 (ch "Exiting prog ..." ++ nl) [];;
      mret (inr 123)) buf.

(** ** [check_pstat.c] *)

(** The name is printed as a format. *)
Definition check_pstat_main (args : list (list Z)) : M W Z :=
  pid ← call_getpid;
  let pid := match args with [] => pid | a :: _ => atoi a end in
  print 1 (ch "Entered pid : %d" ++ nl) [AInt pid];;
  '(r, st) ← call_pstat pid;
  (if r =? -1 then print 1 (ch "BALAGAN! %s" ++ nl) [AStr (head args)]
   else
     print 1 (ch "Process name : ") [];;
     print 1 (cstr (ps_name st)) [];;
     print 1 (nl ++ ch "Size: %d" ++ nl ++ ch "Num of files: %d" ++ nl ++ ch "State value: %d" ++ nl ++ ch "PID: %d" ++ nl)
       [AInt (ps_sz st); AInt (ps_nofile st); AInt (procstate_code (ps_state st)); AInt pid]);;
  mret 1.
End Programs.

(** ** [main] of [wc.c] *)

(** What [wc] prints for an input, given by what the reads of it return. *)
Definition wc_report (input : list (list Z)) (name : list Z) : option (list Z) :=
  let '(l, w, c) := wc input in
  u_printf false (ch "%d %d %d %s" ++ nl) [AInt l; AInt w; AInt c; AStr (Some name)].

(** [opens] is what opening a file gives, [None] when it fails. *)
Fixpoint wc_files (opens : list Z -> option (list (list Z))) (args : list (list Z)) : option (list Z) :=
  match args with
  | [] => Some []
  | a :: rest =>
      match opens a with
      | None => u_printf false (ch "wc: cannot open %s" ++ nl) [AStr (Some a)]
      | Some input =>
          out ← wc_report input a;
          outs ← wc_files opens rest;
          Some (out ++ outs)
      end
  end.

Definition wc_main (opens : list Z -> option (list (list Z))) (stdin : list (list Z)) (args : list (list Z))
  : option (list Z) :=
  match args with
  | [] => wc_report stdin []
  | _ => wc_files opens args
  end.

(** The buffer is not terminated behind what was read: the length that is
    printed goes on into what an earlier line, or the stack, has left there. *)
Lemma prog_prints_rest l buf :
  Forall (fun c => c <> 0) l ->
  findLenghtOfInput (l ++ drop (length l) buf) =
    Nat.add (length l) <$> findLenghtOfInput (drop (length l) buf).
Proof.
  intros Hl. generalize (drop (length l) buf). clear buf. intros rest.
  induction Hl as [|c l Hc Hl IH]; cbn [app findLenghtOfInput length].
  - by destruct (findLenghtOfInput rest).
  - rewrite (proj2 (Z.eqb_neq c 0) Hc), IH. by destruct (findLenghtOfInput rest).
Qed.

(** ** What [fork] and [wait] promise *)

(** The children of the process that have not been waited for, and how many
    more the system has room for. *)
Class Children (W : Type) `{Streams W, Procs W} := {
  kids : W -> gset Z;
  room : W -> nat;
  kids_pos : forall w p, p ∈ kids w -> 0 < p;
  fork_law : forall w, exists r w', call_fork w = Ret r w' /\ (forall o, output w' o = output w o) /\
    match room w with
    | O => r = -1 /\ kids w' = kids w
    | S k => (r ∉ kids w) /\ kids w' = {[r]} ∪ kids w /\ room w' = k
    end;
  wait_law : forall w, exists r w', call_wait w = Ret r w' /\ (forall o, output w' o = output w o) /\
    if decide (kids w = ∅) then r = -1 /\ kids w' = ∅ else r ∈ kids w /\ kids w' = kids w ∖ {[r]};
  write_kids : forall fd l w r w', call_write fd l w = Ret r w' -> kids w' = kids w /\ room w' = room w;
  sleep_law : forall n w, exists r w', call_sleep n w = Ret r w' /\
    (forall o, output w' o = output w o) /\ kids w' = kids w /\ room w' = room w
}.

Section Theorems.
Context {W : Type} `{Children W}.

Lemma fork_run w k :
  room w = S k -> exists r w', call_fork w = Ret r w' /\ (forall o, output w' o = output w o) /\
    0 < r /\ (r ∉ kids w) /\ kids w' = {[r]} ∪ kids w /\ room w' = k.
Proof.
  intros Hr. destruct (fork_law w) as (r & w' & E & Ho & Hk). rewrite Hr in Hk. destruct Hk as (Hn & Hk & Hrm).
  exists r, w'. split; [done|]. split; [done|]. split; [|done]. apply (kids_pos w'). rewrite Hk. set_solver.
Qed.

Lemma print_kids fd fmt args l w :
  u_printf false fmt args = Some l ->
  exists w', print fd fmt args w = Ret tt w' /\ output w' fd = output w fd ++ l /\
    kids w' = kids w /\ room w' = room w.
Proof.
  intros Hl. unfold print. rewrite Hl. clear Hl. revert w. induction l as [|c l IH]; intros w.
  { exists w. by rewrite app_nil_r. }
  destruct (write_law fd [c] w) as (r & w1 & E1 & Ho1 & _). destruct (write_kids _ _ _ _ _ E1) as [K1 R1].
  destruct (IH w1) as (w' & E & Ho & K & R). exists w'. split; [|split].
  - cbn [for_each]. kstep_by ltac:(by kstep_by ltac:(exact E1)). exact E.
  - by rewrite Ho, Ho1, <- app_assoc.
  - by rewrite K, R.
Qed.

Lemma ft_printf_run fd l w :
  exists w', ft_printf fd l w = Ret tt w' /\ output w' fd = output w fd ++ l /\
    kids w' = kids w /\ room w' = room w.
Proof.
  destruct (write_law fd l w) as (r & w' & E & Ho & _). exists w'.
  split; [unfold ft_printf; by kstep_by ltac:(exact E)|]. split; [done|]. by eapply write_kids.
Qed.

(** The first loop of [forktest] makes as many children as there is room for. *)
Lemma ft_forks_run w :
  (room w < NFORK)%nat ->
  exists w', ft_forks w = Ret (Some (room w)) w' /\ (forall o, output w' o = output w o) /\
    size (kids w') = (size (kids w) + room w)%nat.
Proof.
  unfold ft_forks. intros Hr.
  assert (forall fuel n w, (n + room w < NFORK)%nat -> (room w < fuel)%nat ->
    exists w', loop fuel (fun n =>
      if (n <? NFORK)%nat then
        pid ← call_fork;
        if pid <? 0 then mret (inr (Some n)) else if pid =? 0 then mret (inr None) else mret (inl (S n))
      else mret (inr (Some n))) n w = Ret (Some (n + room w)%nat) w' /\ (forall o, output w' o = output w o) /\
      size (kids w') = (size (kids w) + room w)%nat) as Hloop.
  { clear w Hr. induction fuel as [|fuel IH]; intros n w Hn Hf; [lia|].
    destruct (room w) as [|k] eqn:Hk.
    - destruct (fork_law w) as (r & w' & E & Ho & Hr). rewrite Hk in Hr. destruct Hr as [-> Hr].
      exists w'. split; [|rewrite Hr; split; [done|lia]]. apply loop_done.
      rewrite (proj2 (Nat.ltb_lt _ _)) by lia. kstep_by ltac:(exact E). by rewrite Nat.add_0_r.
    - destruct (fork_run w k Hk) as (r & w1 & E & Ho & Hp & Hnk & Hk1 & Hr1).
      destruct (IH (S n) w1) as (w' & E' & Ho' & Hs); [lia|lia|]. exists w'. split; [|split].
      + erewrite loop_next; [rewrite E'; do 2 f_equal; lia|]. rewrite (proj2 (Nat.ltb_lt _ _)) by lia.
        kstep_by ltac:(exact E). rewrite (proj2 (Z.ltb_ge r 0)), (proj2 (Z.eqb_neq r 0)) by lia. done.
      + intros o. by rewrite Ho', Ho.
      + rewrite Hs, Hk1, size_union by set_solver. rewrite size_singleton. lia. }
  destruct (Hloop (S NFORK) 0%nat w) as (w' & E & Ho & Hs); [lia|lia|]. by exists w'.
Qed.

Lemma wait_run w :
  kids w <> ∅ -> exists r w', call_wait w = Ret r w' /\ (forall o, output w' o = output w o) /\
    0 < r /\ r ∈ kids w /\ kids w' = kids w ∖ {[r]} /\ (size (kids w') < size (kids w))%nat.
Proof.
  intros Hk. destruct (wait_law w) as (r & w' & E & Ho & Hw). rewrite decide_False in Hw by done.
  destruct Hw as [Hin Hk']. exists r, w'. split; [done|]. split; [done|]. split; [by apply (kids_pos w)|].
  split; [done|]. split; [done|]. rewrite Hk'. apply subset_size. set_solver.
Qed.

(** The second loop waits for all of them. *)
Lemma ft_waits_run l w :
  length l = size (kids w) ->
  exists w', scan l (fun _ : nat =>
      w ← call_wait;
      if w <? 0 then ft_printf 1 (ch "wait stopped early" ++ nl);; mret (Some tt) else mret None) w
    = Ret None w' /\ (forall o, output w' o = output w o) /\ kids w' = ∅.
Proof.
  revert w. induction l as [|x l IH]; intros w Hl; cbn [scan].
  { exists w. split; [done|]. split; [done|]. apply leibniz_equiv, size_empty_inv. cbn in Hl. lia. }
  destruct (wait_run w) as (r & w1 & E & Ho & Hp & Hin & Hk & Hs).
  { intros Hk. rewrite Hk, size_empty in Hl. cbn in Hl. lia. }
  destruct (IH w1) as (w' & E' & Ho' & Hk').
  { rewrite Hk, size_difference, size_singleton by set_solver. cbn in Hl. lia. }
  exists w'. split; [|split; [intros o; by rewrite Ho', Ho|done]].
  kstep_by ltac:(kstep_by ltac:(exact E); rewrite (proj2 (Z.ltb_ge r 0)) by lia; reflexivity). exact E'.
Qed.

(** [forktest] passes on a system with room for fewer than a thousand
    processes: it makes as many children as there is room for, gets every one
    of them back from [wait], and no more. *)
Theorem forktest_passes w :
  (room w < NFORK)%nat -> kids w = ∅ ->
  exists w', forktest w = Ret tt w' /\ kids w' = ∅ /\
    output w' 1 = output w 1 ++ (ch "fork test" ++ nl) ++ ch "fork test OK" ++ nl.
Proof.
  intros Hr Hk. unfold forktest.
  destruct (ft_printf_run 1 (ch "fork test" ++ nl) w) as (w1 & E1 & O1 & K1 & R1). kstep_by ltac:(exact E1).
  destruct (ft_forks_run w1) as (w2 & E2 & O2 & S2); [by rewrite R1|]. kstep_by ltac:(exact E2). cbv iota.
  rewrite (proj2 (Nat.eqb_neq (room w1) NFORK)) by (rewrite R1; lia).
  destruct (ft_waits_run (seq 0 (room w1)) w2) as (w3 & E3 & O3 & K3).
  { by rewrite length_seq, S2, K1, Hk, size_empty. }
  kstep_by ltac:(exact E3). cbv iota. destruct (wait_law w3) as (r & w4 & E4 & O4 & Hw).
  rewrite decide_True in Hw by done. destruct Hw as [-> K4]. kstep_by ltac:(exact E4). cbn [Z.eqb Pos.eqb negb].
  destruct (ft_printf_run 1 (ch "fork test OK" ++ nl) w4) as (w5 & E5 & O5 & K5 & _). exists w5.
  split; [exact E5|]. split; [by rewrite K5|]. by rewrite O5, O4, O3, O2, O1, <- app_assoc.
Qed.

(** The line [init] prints for a child that is not its shell. *)
Definition zombie_line (pid : Z) : list Z :=
  default [] (u_printf false (ch "zombie! pid =%d" ++ nl) [AInt pid]).

Lemma init_waits pid fuel w :
  pid ∈ kids w -> (size (kids w) <= fuel)%nat ->
  exists k w', loop fuel (fun _ : unit =>
      wpid ← call_wait;
      if (0 <=? wpid) && negb (wpid =? pid) then
        print 1 (ch "zombie! pid =%d" ++ nl) [AInt pid];; mret (inl tt)
      else mret (inr true)) tt w = Ret true w' /\
    kids w' ⊆ kids w ∖ {[pid]} /\ (k + size (kids w') + 1 = size (kids w))%nat /\
    output w' 1 = output w 1 ++ concat (replicate k (zombie_line pid)).
Proof.
  revert w. induction fuel as [|fuel IH]; intros w Hin Hs.
  { assert (kids w = ∅) by (apply leibniz_equiv, size_empty_inv; lia). set_solver. }
  destruct (wait_run w) as (r & w1 & E & Ho & Hp & Hr & Hk & Hlt); [set_solver|].
  assert (size (kids w1) + 1 = size (kids w))%nat as Hsz.
  { rewrite Hk, size_difference, size_singleton by set_solver.
    assert (size ({[r]} : gset Z) <= size (kids w))%nat by (apply subseteq_size; set_solver).
    rewrite size_singleton in *. lia. }
  destruct (decide (r = pid)) as [->|Hne].
  - exists 0%nat, w1. split; [|split; [set_solver|split; [lia|by rewrite Ho, app_nil_r]]].
    apply loop_done. kstep_by ltac:(exact E). by rewrite Z.eqb_refl, andb_false_r.
  - destruct (print_kids 1 (ch "zombie! pid =%d" ++ nl) [AInt pid] (zombie_line pid) w1) as (w2 & E2 & O2 & K2 & _);
      [reflexivity|].
    destruct (IH w2) as (k & w' & E' & Hsub & Hsz' & Ho'); [set_solver|rewrite K2; lia|].
    exists (S k), w'. split; [|split; [set_solver|split; [rewrite K2 in Hsz'; lia|]]].
    + erewrite loop_next; [exact E'|]. kstep_by ltac:(exact E).
      rewrite (proj2 (Z.leb_le 0 r)), (proj2 (Z.eqb_neq r pid)) by lia. cbn [andb negb].
      by kstep_by ltac:(exact E2).
    + rewrite Ho', O2, Ho. cbn [replicate concat]. by rewrite <- app_assoc.
Qed.

(** A round of [init] starts one shell and ends when that shell has exited; the
    orphans [init] gets back from [wait] meanwhile are gone, and for each of them
    it has printed a line, with the number of the shell. *)
Theorem init_round_reaps fuel w :
  (0 < room w)%nat -> (size (kids w) < fuel)%nat ->
  exists pid k w', init_round fuel w = Ret true w' /\
    (pid ∉ kids w) /\ kids w' ⊆ kids w /\ (k + size (kids w') = size (kids w))%nat /\
    output w' 1 = output w 1 ++ (ch "init: starting sh" ++ nl) ++ concat (replicate k (zombie_line pid)).
Proof.
  intros Hr Hf. unfold init_round.
  destruct (print_kids 1 (ch "init: starting sh" ++ nl) [] (ch "init: starting sh" ++ nl) w)
    as (w1 & E1 & O1 & K1 & R1); [reflexivity|]. kstep_by ltac:(exact E1).
  destruct (sleep_law 10 w1) as (r2 & w2 & E2 & O2 & K2 & R2). kstep_by ltac:(exact E2).
  destruct (room w) as [|rm] eqn:Hrm; [lia|].
  destruct (fork_run w2 rm) as (pid & w3 & E3 & O3 & Hp & Hn & K3 & _); [by rewrite R2, R1|].
  kstep_by ltac:(exact E3). rewrite (proj2 (Z.ltb_ge pid 0)), (proj2 (Z.eqb_neq pid 0)) by lia.
  assert (size (kids w3) = S (size (kids w))) as Hs3.
  { rewrite K3, size_union, size_singleton by set_solver. by rewrite K2, K1. }
  destruct (init_waits pid fuel w3) as (k & w' & E & Hsub & Hsz & Ho); [set_solver|lia|].
  exists pid, k, w'. split; [exact E|]. rewrite K2, K1 in *. split; [done|].
  split; [rewrite K3 in Hsub; clear -Hsub; set_solver|]. split; [lia|]. by rewrite Ho, O3, O2, O1, <- app_assoc.
Qed.
End Theorems.

(** ** A system of processes *)

(** The children, the room left and what was written; [wait] gives one of the
    children. *)
Record procworld := mkprocworld {
  pw_kids : gset Z;
  pw_room : nat;
  pw_out : gmap Z (list Z)
}.

(** A number that no child has. *)
Definition fresh_pid (ks : gset Z) : Z := set_fold Z.max 0 ks + 1.

Lemma fresh_pid_spec ks : (fresh_pid ks ∉ ks) /\ 0 < fresh_pid ks.
Proof.
  assert ((forall p, p ∈ ks -> p <= set_fold Z.max 0 ks) /\ 0 <= set_fold Z.max 0 ks) as [H1 H2].
  { apply (set_fold_ind_L (fun r (X : gset Z) => (forall p, p ∈ X -> p <= r) /\ 0 <= r)).
    - split; [set_solver|lia].
    - intros x X r Hx [IH1 IH2]. split; [|lia]. intros p [->%elem_of_singleton|Hp]%elem_of_union; [lia|].
      specialize (IH1 p Hp). lia. }
  unfold fresh_pid. split; [|lia]. intros Hin. specialize (H1 _ Hin). lia.
Qed.

Definition pos_kids (ks : gset Z) : gset Z := filter (fun p => 0 < p) ks.

#[export] Instance procworld_sys : Sys procworld := {|
  call_open _ _ w := Ret (-1) w;
  call_read fd n w := Ret (0, []) w;
  call_write fd l w :=
    Ret (Z.of_nat (length l)) (mkprocworld (pw_kids w) (pw_room w) (<[fd := tape_get (pw_out w) fd ++ l]> (pw_out w)));
  call_close _ w := Ret 0 w;
  call_fstat _ w := Ret (-1, mkstat 0 0 0 0 0) w;
  call_unlink _ w := Ret (-1) w;
  call_mkdir _ w := Ret (-1) w;
  call_link _ _ w := Ret (-1) w;
  call_kill _ w := Ret (-1) w
|}.

#[export] Instance procworld_procs : Procs procworld := {|
  call_fork w :=
    match pw_room w with
    | O => Ret (-1) w
    | S k => let p := fresh_pid (pos_kids (pw_kids w)) in
             Ret p (mkprocworld ({[p]} ∪ pos_kids (pw_kids w)) k (pw_out w))
    end;
  call_wait w :=
    match elements (pos_kids (pw_kids w)) with
    | [] => Ret (-1) (mkprocworld ∅ (pw_room w) (pw_out w))
    | p :: _ => Ret p (mkprocworld (pos_kids (pw_kids w) ∖ {[p]}) (S (pw_room w)) (pw_out w))
    end;
  call_sleep _ w := Ret 0 w;
  call_exec _ _ w := Ret None w;
  call_mknod _ _ _ w := Ret (-1) w;
  call_dup _ w := Ret (-1) w;
  call_getpid w := Ret 1 w;
  call_pstat _ w := Ret (-1, mkprocstat [] 0 0 UNUSED) w
|}.

#[export, refine] Instance procworld_streams : Streams procworld := {|
  pending w fd := [];
  output w fd := tape_get (pw_out w) fd
|}.
Proof.
  - intros fd n w Hn. exists 0%nat, w. done.
  - intros fd l w. eexists _, _. split; [reflexivity|]. split; [|done].
    unfold tape_get. cbn [pw_out]. by rewrite lookup_insert_eq.
Defined.

#[export, refine] Instance procworld_children : Children procworld := {|
  kids w := pos_kids (pw_kids w);
  room := pw_room
|}.
Proof.
  - intros w p [Hp _]%elem_of_filter. exact Hp.
  - intros w. cbn [call_fork procworld_procs]. destruct (pw_room w) as [|k].
    + exists (-1), w. done.
    + eexists _, _. split; [reflexivity|]. split; [done|]. cbn [pw_kids pw_room].
      destruct (fresh_pid_spec (pos_kids (pw_kids w))) as [Hf Hp]. split; [done|]. split; [|done].
      apply set_eq. intros x. unfold pos_kids. rewrite !elem_of_filter, !elem_of_union, !elem_of_filter, elem_of_singleton.
      split; [tauto|]. intros [->|Hx]; tauto.
  - intros w. cbn [call_wait procworld_procs]. destruct (elements (pos_kids (pw_kids w))) as [|p l] eqn:E.
    + eexists _, _. split; [reflexivity|]. split; [done|]. apply elements_empty_iff, leibniz_equiv in E.
      rewrite decide_True by done. done.
    + eexists _, _. split; [reflexivity|]. split; [done|].
      assert (p ∈ pos_kids (pw_kids w)) as Hp by (apply elem_of_elements; rewrite E; left).
      rewrite decide_False by (intros H0; rewrite H0 in Hp; set_solver). split; [done|]. cbn [pw_kids].
      apply set_eq. intros x. unfold pos_kids. rewrite elem_of_filter, !elem_of_difference, elem_of_filter. tauto.
  - intros fd l w r w' E. injection E as _ <-. done.
  - intros n w. exists 0, w. done.
Defined.

(** Three orphans while the shell runs: [init] prints its own shell's number
    three times. *)
Lemma init_round_example :
  exists pid k w', init_round 9 (mkprocworld {[3; 5; 7]} 1 ∅) = Ret true w' /\ (pid ∉ ({[3; 5; 7]} : gset Z)) /\
    output w' 1 = (ch "init: starting sh" ++ nl) ++ concat (replicate k (zombie_line pid)).
Proof.
  destruct (init_round_reaps 9 (mkprocworld {[3; 5; 7]} 1 ∅)) as (pid & k & w' & E & Hn & _ & _ & Ho).
  - cbn. lia.
  - vm_compute. lia.
  - exists pid, k, w'. split; [exact E|]. split; [|exact Ho]. intros Hin. apply Hn.
    change (pid ∈ pos_kids {[3; 5; 7]}). apply elem_of_filter. split; [|done].
    rewrite !elem_of_union, !elem_of_singleton in Hin. lia.
Qed.
